(* ===== verification/_CoqProject ===== *)
-Q . S2P
Prelude.v
RtpUtil.v
RtpPacket.v
RtpCanonical.v
RtpQueue.v
RtpQueueSpec.v
RtpQueueProps.v
AnnexB.v
AnnexBProps.v
Payload.v
PayloadSpec.v
H265.v
H265Props.v
H264.v
H264Props.v
PayloadHelper.v
HelperProps.v
PayloadDesc.v
PayloadDescProps.v
H266.v
H266Props.v
AV1.v
AV1Props.v
Registry.v
RegistryProps.v
CDouble.v
RtpTime.v
RtpMember.v
RtpMemberSpec.v
Rtcp.v
Rtpfb.v
Psfb.v
RtcpXr.v
Feedback.v
RtcpProps.v
FeedbackProps.v
RtcpReport.v
RtcpReportProps.v
SessionProps.v
ReportRoundTrip.v
Demuxer.v
DemuxerProps.v
EndToEnd.v
Receiver.v
ReceiverProps.v
Ini.v
IniSpec.v
IniProps.v
Config.v
ConfigProps.v
RtpExt.v
RtpExtProps.v
Free.v
Drm.v
DrmSpec.v
DrmDevice.v
DrmProps.v
DrmDisplay.v
DrmModes.v
TsWriter.v
TsSpec.v
TsProps.v
TsSession.v
RecordName.v
Dvr.v
DvrThreads.v
DvrProps.v
DvrSafety.v
DvrState.v
DvrFrames.v
RecordNameProps.v
Encoder.v
EncoderThreads.v
EncoderProps.v
EncoderSafety.v
EncoderRace.v
Restreamer.v
RestreamProps.v
