(* ===== verification/Prelude.v ===== *)
(** * PixelPilot_rk: the verification library

    PixelPilot_rk receives H.264 or H.265 video over RTP, decodes and shows it, and
    can encode the picture again and stream it on.  Its core is the C library
    under src/lib/librtp; around it are C++ threads that own sockets, the hardware
    codec and the display.  A datagram of the receiver takes this way:
<<
     rtp_receiver.cpp
       rtp_demuxer_input            rtp-demuxer.c        Demuxer
         rtp_packet_deserialize     rtp-packet.c         RtpPacket
         rtp_queue_write / _read    rtp-queue.c          RtpQueue
         rtp_onreceived[_rtcp]      rtp.c, rtcp*.c       Rtcp, Rtpfb, Psfb, RtcpXr, Feedback
         rtp_payload_decode_input   rtp-payload.c        Registry
           rtp_h26x_unpack_input    rtp-h26x-unpack.c    H264, H265
     video_restreamer.cpp
       rtp_payload_encode_input     rtp-payload.c        Registry
         rtp_h26x_pack_input        rtp-h26x-pack.c      H264, H265
           rtp_h264_annexb_nalu     rtp-h264-bitstream.c AnnexB
>>
    ** How C is modelled

    A function is a Rocq function of the same name that returns an [outcome]: a
    result, or the way the process dies ([crash]: failed assertion, access outside an
    object, division by zero, overflow of an int, a loop that has not ended when its
    fuel is spent).  Structs are records, integers are [Z] with the wrap of their
    width written out ([u8] .. [u64], [s16], [s32]; [c_int] where overflow is
    undefined), pointers into a buffer are the suffix they point at ([adv], [rd],
    [rdn], [wrn]), an array with its counter is a list.  [Build] says whether asserts
    are compiled in, [Alloc] which sizes the allocator grants, [Fpu] what converting
    an out-of-range double gives.  What a function reads from outside (clock, random
    numbers, the address a buffer has) is an argument; the clock is read once per
    call of a top-level function unless a definition says otherwise.  [post m Q] is
    the program logic: the run ends, stays inside its objects, stops at most at an
    assertion of a build that has them, and its result satisfies [Q]; in the release
    build it is total correctness ([post_release]).

    Fuel: every loop whose recursion is not structural gets a bound computed from its
    arguments (a length, the size of the queue), and a safety theorem shows that the
    bound is enough: running out is [Crash Diverge], which [post] excludes.  The loops of the
    threads and of the hardware encoder's output end when others say so; there fuel is
    the number of turns, and a theorem holds for any.  The one
    loop that does hang is shown to do so for every fuel ([rtcp_xr_hangs]).

    ** The parts
    - Prelude: outcomes, machine integers, buffers, [post], tactics.
    - RtpUtil, RtpPacket: byte order, headers (include/rtp-util.h, rtp-header.h,
      rtcp-header.h) and the packet parser and serialiser (source/rtp-packet.c).
      Serialising then parsing gives the packet back, for every packet with a CSRC
      list, extension and payload; parsing is safe on any bytes.  RtpCanonical: what
      parses is a packet again, and serialises to the datagram it came from.
    - RtpQueue, RtpQueueSpec, RtpQueueProps: the reorder queue (source/rtp-queue.c), a
      ring of packet pointers.  [RtpQueueSpec.model] is the abstract machine: a list
      ordered by distance to the newest number.  [rtp_queue_write] and
      [rtp_queue_read] refine it; any run is safe and gives no packet out twice; a
      stream without loss passes straight through.
    - AnnexB, AnnexBProps: the splitter of H.264/H.265 byte streams
      (payload/rtp-h264-bitstream.c).
    - Payload, PayloadSpec: the callbacks of include/rtp-payload.h, what the packers
      share, and the sequence of datagrams they emit ([PayloadSpec.emit]).
    - H264, H264Props, H265, H265Props: the two video formats: what is sent, that the
      receiver rebuilds it, what a loss does, safety on any datagram.
    - PayloadHelper, HelperProps: the frame assembler and the formats on it
      (rtp-payload-helper.c, rtp-pack.c, rtp-ts-*.c, rtp-mp4v-es-*.c).
    - PayloadDesc, PayloadDescProps: the formats that put a descriptor in front of each
      piece of a frame: VP8, VP9, MPEG-4 audio (LATM and generic), MPEG-1/2 elementary
      and program streams.  One packing loop with the descriptor as an argument;
      [PayloadDescProps.FrameFormat] states what packer and unpacker promise each
      other, and one theorem gives the round trip of its four instances.
    - H266, H266Props, AV1, AV1Props: the two newer video formats, and where they fail:
      fragments of H.266 are never put together, and an AV1 frame that lost its first
      packet is written in front of a table.
    - Registry, RegistryProps: rtp-payload.c and source/rtp-profile.c.  A format is a
      table of functions over a state of its own; [RegistryProps.DecoderLaws] is what
      its client relies on, for datagrams up to a given size.  [safe_format] computes
      which formats have an instance, and for each of the others there is a datagram
      that breaks its decoder.
    - CDouble, RtpTime: IEEE doubles on [spec_float] and the NTP clock.
    - RtpMember, RtpMemberSpec: counted members of a session in a store of addresses
      and the list that holds them (source/rtp-member*.c).
    - Rtcp, RtcpProps: the session (source/rtp.c, rtcp.c and the parser of every RTCP
      packet); feedback formats come through the class [RtcpFeedback], whose law is
      [FeedbackSafe].
    - Rtpfb, Psfb, RtcpXr, Feedback, FeedbackProps: the feedback formats and the
      instance of that class.
    - RtcpReport, RtcpReportProps, SessionProps, ReportRoundTrip: what a session
      sends; any run of a session is safe and frees its members; a report arrives as
      it was sent.
    - Demuxer, DemuxerProps: the demultiplexer (source/rtp-demuxer.c).  Datagrams are
      blocks of a heap; [owns] says who holds each of them.  Any run is free of uses
      after free and of double frees.
    - EndToEnd: the H.265 packer, the demultiplexer, the queue, the session and the
      unpacker composed, for any client.
    - Receiver, ReceiverProps: the receiver's thread and the detection of the codec
      (rtp_receiver.cpp, rtp_codec_detector.cpp) over what [poll] and [recvfrom] answer
      in each turn.  Any traffic is safe; an H.265 stream reaches the callback unit by
      unit; five datagrams of the other codec, and nothing else, change the codec.
    - Restreamer, RestreamProps: the restreamer and its socket (video_restreamer.cpp,
      socket_handler.cpp), and the whole way from the encoder's access units through
      packer, socket and network to the callback of another receiver.
    - RtpExt, RtpExtProps: the RTP header extensions (rtpext/*.c): the one-byte and the
      two-byte element formats and the codec of every extension.
    - Ini, IniSpec, IniProps: the INI parser (src/lib/inih/ini.c).  [IniSpec] is a
      grammar of lines; the parser's buffer is shown to compute it, to end on every
      file, and to read back what is printed.
    - Config, ConfigProps: the options (config/config.cpp, command_line.cpp and the start
      of main.cpp), on top of the INI parser.  The program goes on only with values in
      their ranges, and what the options say can be said in a file.
    - Free: programs over calls to the outside, with their notation.
    - Drm: the display setup (src/drm.c) and its use by src/main.cpp.  An operation is a
      program over the calls of libdrm and the system ([Drm.io]); DrmSpec says what
      every call needs, makes and gives back, has a logic for such programs ([wp]) and
      runs them on a device ([Libdrm]) that may answer anything the promise allows;
      DrmDevice is one.  DrmProps follows the ownership of every object through every
      operation and error path, DrmDisplay through the session of main.cpp, DrmModes
      says which mode is taken and what a commit contains.
    - TsWriter, TsSpec, TsProps, TsSession: the transport stream muxer of the recorder
      (dvr/ts_writer.cpp).  [TsSpec.demux] is a player written from the standard alone;
      it gets back every access unit of a recording with its times.
    - RecordName, RecordNameProps: how a recording's file is named (dvr/dvr.cpp); a name
      from a template is never one the directory already holds.
    - Dvr, DvrThreads, DvrProps, DvrSafety, DvrState, DvrFrames: the recorder
      (dvr/dvr.cpp, storage_guard.cpp).  The entry points and the loop of its thread are
      programs over calls that reach what the threads share.  DvrThreads runs any number
      of threads, one call at a time in any order, and has a rely-guarantee logic ([wpr])
      for the recorder's thread; the others show what holds whatever the order.
    - Encoder, EncoderThreads, EncoderProps, EncoderSafety, EncoderRace: the encoder
      (encoder/video_encoder.cpp, mpp_encoder.cpp) and the capture of pictures by the
      display thread (main.cpp), again programs over calls.  Capture buffers, fences and
      the objects of MPP are resources that belong to a thread or to a queued frame;
      [EncoderThreads.wpe] is a logic of ownership for one thread, sound for any number of
      them, and EncoderProps follows every resource through every path.  EncoderRace has
      the one interleaving in which a recording's start is not seen.

    ** Not modelled
    Destroying is [free] and is modelled only where it walks a structure (queue,
    member lists, demultiplexer) or is what a property is about (display, recorder).
    The remaining C++ is threads around sockets and calls of the hardware decoder and
    drawing libraries.  rtp-ssrc.c reads the random device. *)

From Stdlib Require Export ZArith Lia.
From stdpp Require Export base numbers list option.

#[export] Set Default Goal Selector "!".
Ltac Zify.zify_post_hook ::= Z.to_euclidean_division_equations.

Declare Scope c_scope.
Delimit Scope c_scope with c.
Open Scope Z_scope.

(** ** Executions of C code

    A C function either returns, or stops the process at a failed [assert],
    or performs an access outside the object a pointer points into (or through
    a pointer that was never set), or divides by zero, or overflows an [int], or
    does not return: a loop modelled with fuel that has not ended. *)
Inductive crash := AssertFail | OutOfBounds | DivZero | IntOverflow | Diverge.

Inductive outcome (A : Type) : Type :=
| Ret (a : A)
| Crash (c : crash).
Arguments Ret {A} a.
Arguments Crash {A} c.

Definition obind {A B} (m : outcome A) (k : A -> outcome B) : outcome B :=
  match m with
  | Ret a => k a
  | Crash c => Crash c
  end.

Notation "'do' x <- m ;; k" := (obind m (fun x => k))
  (at level 100, x name, m at next level, right associativity) : c_scope.
Notation "'do*' p <- m ;; k" := (obind m (fun p => k))
  (at level 100, p pattern, m at next level, right associativity) : c_scope.
Notation "m ;;; k" := (obind m (fun _ => k))
  (at level 100, right associativity) : c_scope.
Open Scope c_scope.

#[export] Instance crash_eq_dec : EqDecision crash.
Proof. solve_decision. Defined.
#[export] Instance outcome_eq_dec `{EqDecision A} : EqDecision (outcome A).
Proof. solve_decision. Defined.

(** The build: with [NDEBUG] the assertions are compiled out.  CMakeLists.txt
    sets no build type, so the default build keeps them. *)
Class Build := { NDEBUG : bool }.
Definition default_build : Build := {| NDEBUG := false |}.
Definition release_build : Build := {| NDEBUG := true |}.

Definition c_assert `{Build} (b : bool) : outcome unit :=
  if b || NDEBUG then Ret tt else Crash AssertFail.

(** Whether the allocator grants a block of that many bytes, and what a fresh
    byte of the heap holds. *)
Class Alloc := { alloc_ok : Z -> bool; heap_byte : Z }.
Definition always_alloc : Alloc := {| alloc_ok _ := true; heap_byte := 205 |}.
Definition never_alloc : Alloc := {| alloc_ok _ := false; heap_byte := 205 |}.

(** The error numbers the code returns negated (errno.h of Linux). *)
Definition E2BIG : Z := 7.
Definition ENOMEM : Z := 12.
Definition EINVAL : Z := 22.

(** ** Machine integers *)
Definition u8 (z : Z) : Z := z mod 2 ^ 8.
Definition u16 (z : Z) : Z := z mod 2 ^ 16.
Definition u32 (z : Z) : Z := z mod 2 ^ 32.
Definition u64 (z : Z) : Z := z mod 2 ^ 64.
Definition s16 (z : Z) : Z := (z + 2 ^ 15) mod 2 ^ 16 - 2 ^ 15.
Definition s32 (z : Z) : Z := (z + 2 ^ 31) mod 2 ^ 32 - 2 ^ 31.
Definition s64 (z : Z) : Z := (z + 2 ^ 63) mod 2 ^ 64 - 2 ^ 63.

(** The value of a signed expression: overflow is undefined behaviour. *)
Definition c_int (z : Z) : outcome Z :=
  if (- 2 ^ 31 <=? z) && (z <? 2 ^ 31) then Ret z else Crash IntOverflow.

Definition is_byte (b : Z) : Prop := 0 <= b < 256.
Definition bytes_ok (l : list Z) : Prop := Forall is_byte l.

(** ** Pointers and buffers

    A pointer is the suffix of the object it points into, so [p + n] is
    [adv p n] and an access past the object is visible as such. *)
Definition zlen {A} (l : list A) : Z := Z.of_nat (length l).

Definition adv {A} (p : list A) (n : Z) : list A := drop (Z.to_nat n) p.

Definition rd {A} (p : list A) (i : Z) : outcome A :=
  if i <? 0 then Crash OutOfBounds
  else match p !! Z.to_nat i with
       | Some b => Ret b
       | None => Crash OutOfBounds
       end.

(** [a % b] on non-negative operands. *)
Definition cmod (a b : Z) : outcome Z :=
  if b =? 0 then Crash DivZero else Ret (a mod b).

(** The [n] elements a [memcpy] reads at [p + off]. *)
Definition rdn {A} (p : list A) (off n : Z) : outcome (list A) :=
  if (0 <=? off) && (0 <=? n) && (off + n <=? zlen p)
  then Ret (take (Z.to_nat n) (drop (Z.to_nat off) p))
  else Crash OutOfBounds.

(** The elements [bs] stored at [buf + off]. *)
Definition wrn {A} (buf : list A) (off : Z) (bs : list A) : outcome (list A) :=
  if (0 <=? off) && (off + zlen bs <=? zlen buf)
  then Ret (take (Z.to_nat off) buf ++ bs ++ drop (Z.to_nat off + length bs) buf)
  else Crash OutOfBounds.

(** ** Reasoning about executions

    [post m Q]: the run touches no memory outside its objects, ends, and when
    it returns the result satisfies [Q]; an assertion may stop it only in a
    build that has assertions.  In the release build it is total correctness. *)
Definition post `{Build} {A} (m : outcome A) (Q : A -> Prop) : Prop :=
  match m with
  | Ret a => Q a
  | Crash AssertFail => NDEBUG = false
  | Crash _ => False
  end.

Lemma post_release {A} (m : outcome A) Q :
  @post release_build A m Q -> exists a, m = Ret a /\ Q a.
Proof. destruct m as [a|[]]; simpl; [eauto|discriminate|done..]. Qed.

Section Post.
Context `{Build}.

Lemma post_ret {A} (a : A) (Q : A -> Prop) : Q a -> post (Ret a) Q.
Proof. done. Qed.

Lemma post_mono {A} (m : outcome A) (P Q : A -> Prop) :
  post m P -> (forall a, P a -> Q a) -> post m Q.
Proof. destruct m as [a|[]]; simpl; auto. Qed.

Lemma post_bind {A B} (m : outcome A) (k : A -> outcome B) Q :
  post m (fun a => post (k a) Q) -> post (obind m k) Q.
Proof. by destruct m as [a|[]]. Qed.

Lemma post_bind_inv {A B} (m : outcome A) (k : A -> outcome B) Q :
  post (obind m k) Q -> post m (fun a => post (k a) Q).
Proof. by destruct m as [a|[]]. Qed.

Lemma post_assert b (Q : unit -> Prop) :
  (b = true \/ NDEBUG = true -> Q tt) -> post (c_assert b) Q.
Proof.
  unfold c_assert. intros HQ. destruct b; simpl; [auto|].
  destruct NDEBUG eqn:E; simpl; auto.
Qed.

Lemma post_if {A} (b : bool) (m1 m2 : outcome A) Q :
  (b = true -> post m1 Q) -> (b = false -> post m2 Q) ->
  post (if b then m1 else m2) Q.
Proof. destruct b; auto. Qed.

Lemma post_rd {A} (p : list A) i (Q : A -> Prop) :
  0 <= i < zlen p -> (forall b, p !! Z.to_nat i = Some b -> Q b) -> post (rd p i) Q.
Proof.
  unfold zlen, rd. intros Hi HQ. destruct (Z.ltb_spec i 0); [lia|].
  destruct (p !! Z.to_nat i) eqn:E; [by apply HQ|].
  apply lookup_ge_None in E. lia.
Qed.

Lemma post_int z (Q : Z -> Prop) : - 2 ^ 31 <= z < 2 ^ 31 -> Q z -> post (c_int z) Q.
Proof. unfold c_int. intros. rewrite (proj2 (Z.leb_le _ _)), (proj2 (Z.ltb_lt _ _)) by lia. done. Qed.

Lemma post_rdn {A} (p : list A) off n (Q : list A -> Prop) :
  0 <= off -> 0 <= n -> off + n <= zlen p ->
  Q (take (Z.to_nat n) (drop (Z.to_nat off) p)) -> post (rdn p off n) Q.
Proof.
  unfold rdn. intros. rewrite !(proj2 (Z.leb_le _ _)) by lia. done.
Qed.

Lemma post_wrn {A} (buf : list A) off bs (Q : list A -> Prop) :
  0 <= off -> off + zlen bs <= zlen buf ->
  Q (take (Z.to_nat off) buf ++ bs ++ adv buf (off + zlen bs)) ->
  post (wrn buf off bs) Q.
Proof.
  unfold wrn, adv, zlen. intros ? ? HQ. rewrite !(proj2 (Z.leb_le _ _)) by lia. simpl.
  by replace (Z.to_nat off + length bs)%nat with (Z.to_nat (off + Z.of_nat (length bs))) by lia.
Qed.
End Post.

(** [ostep] advances a [post] goal over one construct. *)
Ltac ostep :=
  lazymatch goal with
  | |- post (Ret _) _ => apply post_ret
  | |- post (obind _ _) _ => apply post_bind
  | |- post (c_assert _) _ => apply post_assert; intros ?
  | |- post (if _ then _ else _) _ => apply post_if; intros ?
  | |- post (rd _ _) _ => apply post_rd; [|intros ? ?]
  | |- post (let _ := _ in _) _ => cbv zeta
  | |- post (match ?x with (_, _) => _ end) _ => destruct x
  end.

(** [run_inv] inverts an equation that says a run returned. *)
Ltac run_inv :=
  match goal with
  | H : obind ?m _ = Ret _ |- _ =>
      let E := fresh "E" in destruct m eqn:E; cbn [obind] in H; [|discriminate H]
  | H : (if ?b then _ else _) = Ret _ |- _ => let E := fresh "E" in destruct b eqn:E
  | H : (let (_, _) := ?p in _) = Ret _ |- _ => destruct p
  | H : Crash _ = Ret _ |- _ => discriminate H
  | H : Ret _ = Ret _ |- _ => injection H as H; subst
  end.

(** Boolean comparisons of the code as facts about [Z]. *)
Create Rewrite HintDb cbool.
#[export] Hint Rewrite Bool.andb_true_iff Bool.orb_true_iff Bool.andb_false_iff
  Bool.orb_false_iff Bool.negb_true_iff Bool.negb_false_iff
  Z.eqb_eq Z.eqb_neq Z.ltb_lt Z.ltb_ge Z.leb_le Z.leb_gt Z.gtb_lt Z.geb_le : cbool.
Ltac cbool := autorewrite with cbool in *.

(** Decide a comparison the context settles. *)
Ltac zif :=
  match goal with
  | |- context [?a <? ?b] => first
      [ rewrite (proj2 (Z.ltb_lt a b)) by lia | rewrite (proj2 (Z.ltb_ge a b)) by lia ]
  | |- context [?a <=? ?b] => first
      [ rewrite (proj2 (Z.leb_le a b)) by lia | rewrite (proj2 (Z.leb_gt a b)) by lia ]
  | |- context [?a =? ?b] => first
      [ rewrite (proj2 (Z.eqb_eq a b)) by lia | rewrite (proj2 (Z.eqb_neq a b)) by lia ]
  end.

(** ** Lists indexed by [Z] *)
Create HintDb zlist discriminated.
Create Rewrite HintDb zlen.

Section ZLists.
Context {A : Type}.
Implicit Types l p : list A.

Lemma zlen_nonneg l : 0 <= zlen l.
Proof. unfold zlen. lia. Qed.
Lemma zlen_nil : zlen (@nil A) = 0.
Proof. done. Qed.
Lemma zlen_cons a l : zlen (a :: l) = 1 + zlen l.
Proof. unfold zlen. simpl length. lia. Qed.
Lemma zlen_app l1 l2 : zlen (l1 ++ l2) = zlen l1 + zlen l2.
Proof. unfold zlen. rewrite length_app. lia. Qed.
Lemma zlen_adv p n : zlen (adv p n) = Z.max 0 (zlen p - Z.max 0 n).
Proof. unfold zlen, adv. rewrite length_drop. lia. Qed.
Lemma zlen_take l n : zlen (take n l) = Z.min (Z.of_nat n) (zlen l).
Proof. unfold zlen. rewrite length_take. lia. Qed.
Lemma zlen_drop l n : zlen (drop n l) = Z.max 0 (zlen l - Z.of_nat n).
Proof. unfold zlen. rewrite length_drop. lia. Qed.
Lemma zlen_replicate n (a : A) : zlen (replicate n a) = Z.of_nat n.
Proof. unfold zlen. by rewrite length_replicate. Qed.

Lemma adv_0 p : adv p 0 = p.
Proof. apply drop_0. Qed.
Lemma adv_adv p n m : 0 <= n -> 0 <= m -> adv (adv p n) m = adv p (n + m).
Proof. intros. unfold adv. rewrite drop_drop. f_equal. lia. Qed.
Lemma adv_app l1 l2 n : n = zlen l1 -> adv (l1 ++ l2) n = l2.
Proof. intros ->. unfold adv, zlen. rewrite Nat2Z.id. by rewrite drop_app_length. Qed.
Lemma adv_cons a l n : 0 < n -> adv (a :: l) n = adv l (n - 1).
Proof. intros. unfold adv. by replace (Z.to_nat n) with (S (Z.to_nat (n - 1))) by lia. Qed.

Lemma rd_lookup p i a : 0 <= i -> rd p i = Ret a <-> p !! Z.to_nat i = Some a.
Proof.
  intros. unfold rd. destruct (Z.ltb_spec i 0); [lia|].
  destruct (p !! Z.to_nat i); split; congruence.
Qed.
Lemma rd_adv p n i : 0 <= n -> 0 <= i -> rd (adv p n) i = rd p (n + i).
Proof.
  intros. unfold rd, adv. rewrite lookup_drop.
  destruct (Z.ltb_spec i 0), (Z.ltb_spec (n + i) 0); try lia.
  by replace (Z.to_nat (n + i)) with (Z.to_nat n + Z.to_nat i)%nat by lia.
Qed.
Lemma rd_app_r l1 l2 i : zlen l1 <= i -> rd (l1 ++ l2) i = rd l2 (i - zlen l1).
Proof.
  unfold rd, zlen. intros.
  destruct (Z.ltb_spec i 0), (Z.ltb_spec (i - Z.of_nat (length l1)) 0); try lia.
  rewrite lookup_app_r by lia.
  by replace (Z.to_nat i - length l1)%nat with (Z.to_nat (i - Z.of_nat (length l1))) by lia.
Qed.
Lemma rd_app_l l1 l2 i : i < zlen l1 -> rd (l1 ++ l2) i = rd l1 i.
Proof.
  unfold rd, zlen. intros. destruct (Z.ltb_spec i 0); [done|].
  by rewrite lookup_app_l by lia.
Qed.
Lemma rd_last l a b i : i = zlen l -> rd (l ++ a :: b) i = Ret a.
Proof. intros ->. rewrite rd_app_r, Z.sub_diag by lia. done. Qed.

Lemma rdn_app l1 l2 l3 off n :
  off = zlen l1 -> n = zlen l2 -> rdn (l1 ++ l2 ++ l3) off n = Ret l2.
Proof.
  intros -> ->. unfold rdn. rewrite !zlen_app.
  pose proof (zlen_nonneg l1). pose proof (zlen_nonneg l2). pose proof (zlen_nonneg l3).
  do 3 zif. simpl. unfold zlen. rewrite !Nat2Z.id.
  by rewrite drop_app_length, take_app_length.
Qed.
Lemma rdn_all l n l3 : n = zlen l -> rdn (l ++ l3) 0 n = Ret l.
Proof. intros. by apply (rdn_app []). Qed.

Lemma wrn_app l1 l2 bs off :
  off = zlen l1 -> zlen bs <= zlen l2 ->
  wrn (l1 ++ l2) off bs = Ret ((l1 ++ bs) ++ adv l2 (zlen bs)).
Proof.
  intros -> ?. unfold wrn. rewrite zlen_app. pose proof (zlen_nonneg l1).
  do 2 zif. simpl. unfold adv, zlen. rewrite !Nat2Z.id.
  rewrite take_app_length, <- app_assoc. do 3 f_equal.
  by rewrite <- drop_drop, drop_app_length.
Qed.
Lemma wrn_0 l bs : zlen bs <= zlen l -> wrn l 0 bs = Ret (bs ++ adv l (zlen bs)).
Proof. intros. by apply (wrn_app []). Qed.

Lemma wrn_single l j (x : A) : 0 <= j < zlen l -> wrn l j [x] = Ret (<[Z.to_nat j := x]> l).
Proof.
  intros Hj. unfold wrn, zlen in *. simpl length. do 2 zif. simpl.
  rewrite insert_take_drop by lia. by rewrite Nat.add_1_r.
Qed.
Lemma zlen_wrn (buf buf' : list A) off bs : wrn buf off bs = Ret buf' -> zlen buf' = zlen buf.
Proof.
  unfold wrn. destruct (_ && _) eqn:E; [|done]. intros [= <-]. cbool.
  rewrite !zlen_app, zlen_take, zlen_drop. unfold zlen in *. lia.
Qed.
End ZLists.

#[export] Hint Rewrite @zlen_nil @zlen_cons @zlen_app @zlen_adv @zlen_take @zlen_drop
  @zlen_replicate : zlen.
#[export] Hint Resolve zlen_nonneg : zlist.

(** Arithmetic on buffer lengths. *)
Ltac zlen_pose :=
  repeat match goal with
  | |- context [zlen ?l] => lazymatch goal with
      | _ : 0 <= zlen l |- _ => fail
      | _ => pose proof (zlen_nonneg l) end
  | _ : context [zlen ?l] |- _ => lazymatch goal with
      | _ : 0 <= zlen l |- _ => fail
      | _ => pose proof (zlen_nonneg l) end
  end.
Ltac zlia := autorewrite with zlen in *; zlen_pose; lia.

(** [x mod n] over the first two turns of a ring of [n] cells. *)
Lemma mod_wrap x n : 0 <= x < 2 * n -> x mod n = if x <? n then x else x - n.
Proof.
  intros. destruct (Z.ltb_spec x n).
  - apply Z.mod_small; lia.
  - symmetry. apply (Z.mod_unique_pos _ _ 1); lia.
Qed.

Lemma mod_range x n : 0 < n -> 0 <= x mod n < n.
Proof. apply Z.mod_pos_bound. Qed.

(** A store changes no length. *)
Lemma post_wrn_len `{Build} {A} (buf : list A) off bs (Q : list A -> Prop) :
  0 <= off -> off + zlen bs <= zlen buf -> (forall b, zlen b = zlen buf -> Q b) ->
  post (wrn buf off bs) Q.
Proof.
  intros ? ? HQ. destruct (wrn buf off bs) as [b|c] eqn:E; cbn; [by apply HQ, (zlen_wrn _ _ _ _ E)|].
  unfold wrn in E. rewrite !(proj2 (Z.leb_le _ _)) in E by lia. done.
Qed.

(** ** Bit operations on disjoint fields are sums *)
Lemma lor_add a b n :
  0 <= n -> a mod 2 ^ n = 0 -> 0 <= b < 2 ^ n -> Z.lor a b = a + b.
Proof.
  intros Hn Ha Hb. assert (Hl : Z.land a b = 0).
  { apply Z.bits_inj'. intros i Hi. rewrite Z.land_spec, Z.bits_0.
    destruct (Z.lt_ge_cases i n).
    - replace a with (a / 2 ^ n * 2 ^ n) by (pose proof (Z.div_mod a (2 ^ n)); lia).
      rewrite Z.mul_pow2_bits_low by lia. done.
    - rewrite <- (Z.mod_small b (2 ^ n)) by lia.
      rewrite Z.mod_pow2_bits_high by lia. apply andb_false_r. }
  rewrite <- Z.lxor_lor, Z.add_nocarry_lxor by done. done.
Qed.

Lemma land_ones_mod a n : 0 <= n -> Z.land a (2 ^ n - 1) = a mod 2 ^ n.
Proof. intros. rewrite <- Z.land_ones by lia. f_equal. rewrite Z.ones_equiv. lia. Qed.

(** A property of bytes checked on all 256 of them. *)
Lemma byte_cases (f : Z -> bool) :
  forallb f (map Z.of_nat (List.seq 0 256)) = true -> forall b, is_byte b -> f b = true.
Proof.
  intros Hf b Hb. unfold is_byte in Hb. rewrite forallb_forall in Hf. apply Hf.
  apply in_map_iff. exists (Z.to_nat b). split; [lia|]. apply in_seq. lia.
Qed.
