(* ===== verification/RtpUtil.v ===== *)
(** Network byte order and the RTP/RTCP fixed headers
    (lib/librtp/include/rtp-util.h, rtp-header.h, the RTCP header of
    rtcp-header.h). *)

From S2P Require Import Prelude.

(** ** Reading *)
Definition rtp_read_uint16 (ptr : list Z) : outcome Z :=
  do b0 <- rd ptr 0 ;;
  do b1 <- rd ptr 1 ;;
  Ret (Z.lor (Z.shiftl b0 8) b1).

Definition rtp_read_uint32 (ptr : list Z) : outcome Z :=
  do b0 <- rd ptr 0 ;;
  do b1 <- rd ptr 1 ;;
  do b2 <- rd ptr 2 ;;
  do b3 <- rd ptr 3 ;;
  Ret (Z.lor (Z.lor (Z.lor (Z.shiftl b0 24) (Z.shiftl b1 16)) (Z.shiftl b2 8)) b3).

(** As written: the low half is taken at [ptr + 8]. *)
Definition rtp_read_uint64 (ptr : list Z) : outcome Z :=
  do hi <- rtp_read_uint32 ptr ;;
  do lo <- rtp_read_uint32 (adv ptr 8) ;;
  Ret (Z.lor (Z.shiftl hi 32) lo).

(** ** Writing *)
Definition be16 (v : Z) : list Z := [u8 (Z.shiftr v 8); u8 v].
Definition be32 (v : Z) : list Z :=
  [u8 (Z.shiftr v 24); u8 (Z.shiftr v 16); u8 (Z.shiftr v 8); u8 v].

Definition rtp_write_uint16 (buf : list Z) (off val : Z) : outcome (list Z) :=
  wrn buf off (be16 val).
Definition rtp_write_uint32 (buf : list Z) (off val : Z) : outcome (list Z) :=
  wrn buf off (be32 val).
Definition rtp_write_uint64 (buf : list Z) (off val : Z) : outcome (list Z) :=
  do buf <- rtp_write_uint32 buf off (u32 (Z.shiftr val 32)) ;;
  rtp_write_uint32 buf (off + 8) (u32 val).

Abbreviation nbo_r16 := rtp_read_uint16.
Abbreviation nbo_r32 := rtp_read_uint32.
Abbreviation nbo_w16 := rtp_write_uint16.
Abbreviation nbo_w32 := rtp_write_uint32.

(** ** Headers *)
Definition RTP_VERSION : Z := 2.

Record rtp_header_t := mk_rtp_header {
  hv : Z;  (* v : 2 *)
  hp : Z;  (* p : 1 *)
  hx : Z;  (* x : 1 *)
  cc : Z;  (* cc : 4 *)
  hm : Z;  (* m : 1 *)
  pt : Z;  (* pt : 7 *)
  seq : Z; (* seq : 16 *)
  timestamp : Z;
  ssrc : Z
}.

Definition RTP_V (v : Z) : Z := Z.land (Z.shiftr v 30) 3.
Definition RTP_P (v : Z) : Z := Z.land (Z.shiftr v 29) 1.
Definition RTP_X (v : Z) : Z := Z.land (Z.shiftr v 28) 1.
Definition RTP_CC (v : Z) : Z := Z.land (Z.shiftr v 24) 15.
Definition RTP_M (v : Z) : Z := Z.land (Z.shiftr v 23) 1.
Definition RTP_PT (v : Z) : Z := Z.land (Z.shiftr v 16) 127.
Definition RTP_SEQ (v : Z) : Z := Z.land (Z.shiftr v 0) 65535.

(** The twelve bytes [nbo_write_rtp_header] stores. *)
Definition rtp_header_bytes (h : rtp_header_t) : list Z :=
  [u8 (Z.lor (Z.lor (Z.lor (Z.shiftl (hv h) 6) (Z.shiftl (hp h) 5)) (Z.shiftl (hx h) 4)) (cc h));
   u8 (Z.lor (Z.shiftl (hm h) 7) (pt h));
   u8 (Z.shiftr (seq h) 8);
   u8 (Z.land (seq h) 255)]
  ++ be32 (timestamp h) ++ be32 (ssrc h).

Definition nbo_write_rtp_header (ptr : list Z) (h : rtp_header_t) : outcome (list Z) :=
  wrn ptr 0 (rtp_header_bytes h).

Record rtcp_header_t := mk_rtcp_header {
  rv : Z;     (* v : 2 *)
  rp : Z;     (* p : 1 *)
  rc : Z;     (* rc : 5 *)
  rpt : Z;    (* pt : 8 *)
  rlength : Z (* length : 16 *)
}.

Definition RTCP_V (v : Z) : Z := Z.land (Z.shiftr v 30) 3.
Definition RTCP_P (v : Z) : Z := Z.land (Z.shiftr v 29) 1.
Definition RTCP_RC (v : Z) : Z := Z.land (Z.shiftr v 24) 31.
Definition RTCP_PT (v : Z) : Z := Z.land (Z.shiftr v 16) 255.
Definition RTCP_LEN (v : Z) : Z := Z.land v 65535.

Definition rtcp_header_bytes (h : rtcp_header_t) : list Z :=
  [u8 (Z.lor (Z.lor (Z.shiftl (rv h) 6) (Z.shiftl (rp h) 5)) (rc h));
   u8 (rpt h);
   u8 (Z.shiftr (rlength h) 8);
   u8 (Z.land (rlength h) 255)].

Definition nbo_write_rtcp_header (ptr : list Z) (off : Z) (h : rtcp_header_t) : outcome (list Z) :=
  wrn ptr off (rtcp_header_bytes h).

Definition is_u16 (z : Z) : Prop := 0 <= z < 2 ^ 16.
Definition is_u32 (z : Z) : Prop := 0 <= z < 2 ^ 32.

(** ** Lemmas *)
Lemma is_byte_u8 z : is_byte (u8 z).
Proof. unfold is_byte, u8. lia. Qed.
Lemma u8_small z : is_byte z -> u8 z = z.
Proof. apply Z.mod_small. Qed.
Lemma u16_small z : is_u16 z -> u16 z = z.
Proof. apply Z.mod_small. Qed.
Lemma u32_small z : is_u32 z -> u32 z = z.
Proof. apply Z.mod_small. Qed.
Lemma bytes_ok_be16 v : bytes_ok (be16 v).
Proof. repeat constructor; apply is_byte_u8. Qed.
Lemma bytes_ok_be32 v : bytes_ok (be32 v).
Proof. repeat constructor; apply is_byte_u8. Qed.
#[export] Hint Resolve is_byte_u8 bytes_ok_be16 bytes_ok_be32 : zlist.

Lemma zlen_be16 v : zlen (be16 v) = 2.
Proof. done. Qed.
Lemma zlen_be32 v : zlen (be32 v) = 4.
Proof. done. Qed.
#[export] Hint Rewrite zlen_be16 zlen_be32 : zlen.

Lemma join16 b0 b1 : is_byte b0 -> is_byte b1 -> Z.lor (Z.shiftl b0 8) b1 = b0 * 256 + b1.
Proof.
  unfold is_byte. intros. rewrite Z.shiftl_mul_pow2 by lia.
  rewrite (lor_add _ _ 8) by lia. lia.
Qed.

Lemma join32 b0 b1 b2 b3 :
  is_byte b0 -> is_byte b1 -> is_byte b2 -> is_byte b3 ->
  Z.lor (Z.lor (Z.lor (Z.shiftl b0 24) (Z.shiftl b1 16)) (Z.shiftl b2 8)) b3
  = b0 * 2 ^ 24 + b1 * 2 ^ 16 + b2 * 2 ^ 8 + b3.
Proof.
  unfold is_byte. intros. rewrite !Z.shiftl_mul_pow2 by lia.
  rewrite (lor_add (b0 * _) _ 24) by lia.
  rewrite (lor_add (_ + _) (b2 * _) 16) by lia.
  rewrite (lor_add _ b3 8) by lia. lia.
Qed.

Lemma nbo_r16_cons b0 b1 p :
  nbo_r16 (b0 :: b1 :: p) = Ret (Z.lor (Z.shiftl b0 8) b1).
Proof. reflexivity. Qed.
Lemma nbo_r32_cons b0 b1 b2 b3 p :
  nbo_r32 (b0 :: b1 :: b2 :: b3 :: p)
  = Ret (Z.lor (Z.lor (Z.lor (Z.shiftl b0 24) (Z.shiftl b1 16)) (Z.shiftl b2 8)) b3).
Proof. reflexivity. Qed.

Lemma nbo_r16_be16 v p : nbo_r16 (be16 v ++ p) = Ret (u16 v).
Proof.
  unfold be16. simpl app. rewrite nbo_r16_cons, join16 by apply is_byte_u8. f_equal.
  unfold u8, u16. rewrite Z.shiftr_div_pow2 by lia. lia.
Qed.

Lemma nbo_r32_be32 v p : nbo_r32 (be32 v ++ p) = Ret (u32 v).
Proof.
  unfold be32. simpl app. rewrite nbo_r32_cons, join32 by apply is_byte_u8. f_equal.
  unfold u8, u32. rewrite !Z.shiftr_div_pow2 by lia. lia.
Qed.

(** Conversely, what is read determines the bytes. *)
Lemma be16_join b0 b1 : is_byte b0 -> is_byte b1 ->
  be16 (Z.lor (Z.shiftl b0 8) b1) = [b0; b1].
Proof.
  intros H0 H1. rewrite join16 by done. unfold be16, u8, is_byte in *.
  rewrite Z.shiftr_div_pow2 by lia. repeat f_equal; lia.
Qed.

Lemma be32_join b0 b1 b2 b3 : is_byte b0 -> is_byte b1 -> is_byte b2 -> is_byte b3 ->
  be32 (Z.lor (Z.lor (Z.lor (Z.shiftl b0 24) (Z.shiftl b1 16)) (Z.shiftl b2 8)) b3)
  = [b0; b1; b2; b3].
Proof.
  intros. rewrite join32 by done. unfold be32, u8, is_byte in *.
  rewrite !Z.shiftr_div_pow2 by lia. repeat f_equal; lia.
Qed.

(** Reading at a position of a pointer with enough bytes. *)
Section ReadPost.
Context `{Build}.

Lemma rd_byte (p : list Z) i b : bytes_ok p -> p !! i = Some b -> is_byte b.
Proof. intros Hp Hb. by apply (Forall_lookup_1 _ _ _ _ Hp Hb). Qed.

Lemma post_r16 (p : list Z) Q :
  2 <= zlen p -> bytes_ok p -> (forall v, 0 <= v < 2 ^ 16 -> Q v) -> post (nbo_r16 p) Q.
Proof.
  intros Hl Hp HQ. destruct p as [|b0 [|b1 p]]; try zlia.
  rewrite nbo_r16_cons. apply HQ.
  apply Forall_cons_1 in Hp as [? Hp]. apply Forall_cons_1 in Hp as [? Hp].
  rewrite join16 by done. unfold is_byte in *. lia.
Qed.

Lemma post_r32 (p : list Z) Q :
  4 <= zlen p -> bytes_ok p -> (forall v, 0 <= v < 2 ^ 32 -> Q v) -> post (nbo_r32 p) Q.
Proof.
  intros Hl Hp HQ. destruct p as [|b0 [|b1 [|b2 [|b3 p]]]]; try zlia.
  rewrite nbo_r32_cons. apply HQ.
  do 4 (apply Forall_cons_1 in Hp as [? Hp]).
  rewrite join32 by done. unfold is_byte in *. lia.
Qed.

Lemma bytes_ok_adv p n : bytes_ok p -> bytes_ok (adv p n).
Proof. apply Forall_drop. Qed.
End ReadPost.
#[export] Hint Resolve bytes_ok_adv : zlist.
