(* ===== verification/RtpPacket.v ===== *)
(** RTP packets: parsing and serialization
    (lib/librtp/source/rtp-packet.c, include/rtp-packet.h). *)

From S2P Require Import Prelude RtpUtil.

Definition RTP_FIXED_HEADER : Z := 12.

(** [extension] and [payload] are pointers into the datagram. *)
Record rtp_packet_t := mk_rtp_packet {
  rtp : rtp_header_t;
  csrc : list Z; (* uint32_t csrc[16] *)
  extension : list Z;
  extlen : Z;
  extprofile : Z;
  payload : list Z;
  payloadlen : Z
}.

Definition zero_header : rtp_header_t := mk_rtp_header 0 0 0 0 0 0 0 0 0.
Definition zero_packet : rtp_packet_t := mk_rtp_packet zero_header (replicate 16 0) [] 0 0 [] 0.

Definition set_csrc (pkt : rtp_packet_t) (l : list Z) : rtp_packet_t :=
  mk_rtp_packet (rtp pkt) l (extension pkt) (extlen pkt) (extprofile pkt) (payload pkt) (payloadlen pkt).
Definition set_extension (pkt : rtp_packet_t) (ext : list Z) (len profile : Z) : rtp_packet_t :=
  mk_rtp_packet (rtp pkt) (csrc pkt) ext len profile (payload pkt) (payloadlen pkt).
Definition set_payload (pkt : rtp_packet_t) (p : list Z) (n : Z) : rtp_packet_t :=
  mk_rtp_packet (rtp pkt) (csrc pkt) (extension pkt) (extlen pkt) (extprofile pkt) p n.
Definition set_rtp (pkt : rtp_packet_t) (h : rtp_header_t) : rtp_packet_t :=
  mk_rtp_packet h (csrc pkt) (extension pkt) (extlen pkt) (extprofile pkt) (payload pkt) (payloadlen pkt).

(** ** Parsing *)
Fixpoint deserialize_csrc (n : nat) (i : Z) (ptr cs : list Z) : outcome (list Z) :=
  match n with
  | O => Ret cs
  | S n' =>
      do v <- nbo_r32 (adv ptr (12 + i * 4)) ;;
      do cs <- wrn cs i [v] ;;
      deserialize_csrc n' (i + 1) ptr cs
  end.

Section Ops.
Context `{Build}.

Definition deserialize_extension (pkt : rtp_packet_t) (ptr : list Z) (hdrlen : Z)
  : outcome (Z * rtp_packet_t) :=
  if hx (rtp pkt) =? 1 then
    let rtpext := adv ptr hdrlen in
    c_assert (4 <=? payloadlen pkt) ;;;
    do profile <- nbo_r16 rtpext ;;
    do words <- nbo_r16 (adv rtpext 2) ;;
    let pkt := set_extension pkt (adv rtpext 4) (u16 (words * 4)) profile in
    if payloadlen pkt <? extlen pkt + 4 then
      c_assert false ;;;
      Ret (-1, pkt)
    else
      Ret (0, set_payload pkt (adv rtpext (extlen pkt + 4)) (payloadlen pkt - (extlen pkt + 4)))
  else Ret (0, pkt).

Definition deserialize_padding (pkt : rtp_packet_t) (ptr : list Z) (bytes : Z)
  : outcome (Z * rtp_packet_t) :=
  if hp (rtp pkt) =? 1 then
    do padding <- rd ptr (bytes - 1) ;;
    if payloadlen pkt <? padding then
      c_assert false ;;;
      Ret (-1, pkt)
    else Ret (0, set_payload pkt (payload pkt) (payloadlen pkt - padding))
  else Ret (0, pkt).

Definition rtp_packet_deserialize (pkt : rtp_packet_t) (data : list Z) (bytes : Z)
  : outcome (Z * rtp_packet_t) :=
  if bytes <? RTP_FIXED_HEADER then Ret (-1, pkt)
  else
    let ptr := data in
    do v <- nbo_r32 ptr ;;
    do ts <- nbo_r32 (adv ptr 4) ;;
    do src <- nbo_r32 (adv ptr 8) ;;
    let h := mk_rtp_header (RTP_V v) (RTP_P v) (RTP_X v) (RTP_CC v) (RTP_M v) (RTP_PT v)
               (RTP_SEQ v) ts src in
    let pkt := set_rtp zero_packet h in
    c_assert (RTP_VERSION =? hv h) ;;;
    let hdrlen := RTP_FIXED_HEADER + cc h * 4 in
    if negb (RTP_VERSION =? hv h)
       || (bytes <? hdrlen + (if hx h =? 0 then 0 else 4) + (if hp h =? 0 then 0 else 1))
    then Ret (-1, pkt)
    else
      do cs <- deserialize_csrc (Z.to_nat (cc h)) 0 ptr (csrc pkt) ;;
      let pkt := set_csrc pkt cs in
      c_assert (hdrlen <=? bytes) ;;;
      let pkt := set_payload pkt (adv ptr hdrlen) (bytes - hdrlen) in
      do* (r, pkt) <- deserialize_extension pkt ptr hdrlen ;;
      if r <? 0 then Ret (-1, pkt)
      else deserialize_padding pkt ptr bytes.

(** ** Serialization *)
Fixpoint serialize_csrc (n : nat) (i : Z) (cs buf : list Z) (off : Z) : outcome (list Z) :=
  match n with
  | O => Ret buf
  | S n' =>
      do v <- rd cs i ;;
      do buf <- nbo_w32 buf off v ;;
      serialize_csrc n' (i + 1) cs buf (off + 4)
  end.

Definition serialize_extension (pkt : rtp_packet_t) (buf : list Z) (off : Z) : outcome (list Z) :=
  if hx (rtp pkt) =? 1 then
    c_assert (extlen pkt mod 4 =? 0) ;;;
    do buf <- nbo_w16 buf off (extprofile pkt) ;;
    do buf <- nbo_w16 buf (off + 2) (extlen pkt / 4) ;;
    do ext <- rdn (extension pkt) 0 (extlen pkt) ;;
    wrn buf (off + 4) ext
  else Ret buf.

Definition rtp_packet_serialize_header (pkt : rtp_packet_t) (data : list Z) (bytes : Z)
  : outcome (Z * list Z) :=
  if negb (RTP_VERSION =? hv (rtp pkt)) || negb (extlen pkt mod 4 =? 0) then
    c_assert false ;;;
    Ret (-1, data)
  else
    let hdrlen := RTP_FIXED_HEADER + cc (rtp pkt) * 4 + (if hx (rtp pkt) =? 0 then 0 else 4) in
    if bytes <? hdrlen + extlen pkt then Ret (-1, data)
    else
      do buf <- nbo_write_rtp_header data (rtp pkt) ;;
      do buf <- serialize_csrc (Z.to_nat (cc (rtp pkt))) 0 (csrc pkt) buf RTP_FIXED_HEADER ;;
      do buf <- serialize_extension pkt buf (RTP_FIXED_HEADER + cc (rtp pkt) * 4) ;;
      Ret (hdrlen + extlen pkt, buf).

Definition rtp_packet_serialize (pkt : rtp_packet_t) (data : list Z) (bytes : Z)
  : outcome (Z * list Z) :=
  do* (hdrlen, data) <- rtp_packet_serialize_header pkt data bytes ;;
  if (hdrlen <? RTP_FIXED_HEADER) || (bytes <? hdrlen + payloadlen pkt) then Ret (-1, data)
  else
    do src <- rdn (payload pkt) 0 (payloadlen pkt) ;;
    do data <- wrn data hdrlen src ;;
    Ret (hdrlen + payloadlen pkt, data).
End Ops.

(** ** Well-formed packets and the bytes they stand for *)
Record header_ok (h : rtp_header_t) : Prop := {
  ok_v : 0 <= hv h < 4;
  ok_p : 0 <= hp h < 2;
  ok_x : 0 <= hx h < 2;
  ok_cc : 0 <= cc h < 16;
  ok_m : 0 <= hm h < 2;
  ok_pt : 0 <= pt h < 128;
  ok_seq : is_u16 (seq h);
  ok_ts : is_u32 (timestamp h);
  ok_ssrc : is_u32 (ssrc h)
}.

(** What a sender may pass to [rtp_packet_serialize]: version 2, no padding,
    an extension of whole words exactly when the X bit is set. *)
Record packet_ok (pkt : rtp_packet_t) : Prop := {
  ok_header : header_ok (rtp pkt);
  ok_version : hv (rtp pkt) = RTP_VERSION;
  ok_padding : hp (rtp pkt) = 0;
  ok_csrc_len : zlen (csrc pkt) = 16;
  ok_csrc : Forall is_u32 (csrc pkt);
  ok_ext_none : hx (rtp pkt) = 0 -> extlen pkt = 0;
  ok_extlen : 0 <= extlen pkt < 2 ^ 16 /\ extlen pkt mod 4 = 0;
  ok_extprofile : is_u16 (extprofile pkt);
  ok_ext : hx (rtp pkt) = 1 -> extlen pkt <= zlen (extension pkt);
  ok_payload : 0 <= payloadlen pkt <= zlen (payload pkt)
}.

Definition payload_bytes (pkt : rtp_packet_t) : list Z :=
  take (Z.to_nat (payloadlen pkt)) (payload pkt).
Definition extension_bytes (pkt : rtp_packet_t) : list Z :=
  if hx (rtp pkt) =? 1 then
    be16 (extprofile pkt) ++ be16 (extlen pkt / 4)
      ++ take (Z.to_nat (extlen pkt)) (extension pkt)
  else [].
Definition csrc_bytes (pkt : rtp_packet_t) : list Z :=
  flat_map be32 (take (Z.to_nat (cc (rtp pkt))) (csrc pkt)).

(** The header, then the whole packet, as RFC 3550 lays it out. *)
Definition packet_header_bytes (pkt : rtp_packet_t) : list Z :=
  rtp_header_bytes (rtp pkt) ++ csrc_bytes pkt ++ extension_bytes pkt.
Definition packet_bytes (pkt : rtp_packet_t) : list Z :=
  packet_header_bytes pkt ++ payload_bytes pkt.

Lemma zlen_flat_be32 l : zlen (flat_map be32 l) = 4 * zlen l.
Proof. induction l as [|v l IH]; [done|]. simpl. rewrite !zlen_cons, IH. lia. Qed.
Lemma zlen_rtp_header_bytes h : zlen (rtp_header_bytes h) = 12.
Proof. done. Qed.
#[export] Hint Rewrite zlen_flat_be32 zlen_rtp_header_bytes : zlen.

Lemma zlen_csrc_bytes pkt : packet_ok pkt -> zlen (csrc_bytes pkt) = 4 * cc (rtp pkt).
Proof.
  intros [[] ? ? Hl]. unfold csrc_bytes. autorewrite with zlen. lia.
Qed.

Lemma zlen_extension_bytes pkt : packet_ok pkt ->
  zlen (extension_bytes pkt) = (if hx (rtp pkt) =? 0 then 0 else 4) + extlen pkt.
Proof.
  intros Hok. destruct Hok as [[] _ _ _ _ Hn He _ Hx _]. unfold extension_bytes.
  destruct (Z.eqb_spec (hx (rtp pkt)) 1) as [E|E].
  - rewrite E. simpl (1 =? 0). specialize (Hx E). autorewrite with zlen. lia.
  - assert (hx (rtp pkt) = 0) as E0 by lia. rewrite E0, Hn by done. done.
Qed.

Lemma zlen_payload_bytes pkt : packet_ok pkt -> zlen (payload_bytes pkt) = payloadlen pkt.
Proof. intros []. unfold payload_bytes. autorewrite with zlen. lia. Qed.

Lemma zlen_packet_header_bytes pkt : packet_ok pkt ->
  zlen (packet_header_bytes pkt)
  = RTP_FIXED_HEADER + cc (rtp pkt) * 4 + (if hx (rtp pkt) =? 0 then 0 else 4) + extlen pkt.
Proof.
  intros. unfold packet_header_bytes, RTP_FIXED_HEADER.
  rewrite !zlen_app, zlen_csrc_bytes, zlen_extension_bytes by done.
  rewrite zlen_rtp_header_bytes. lia.
Qed.

(** ** The fixed header is recovered from its bytes *)
Definition header_word (h : rtp_header_t) : Z :=
  (hv h * 64 + hp h * 32 + hx h * 16 + cc h) * 2 ^ 24 + (hm h * 128 + pt h) * 2 ^ 16 + seq h.

Lemma rtp_header_bytes_eq h : header_ok h ->
  rtp_header_bytes h = be32 (header_word h) ++ be32 (timestamp h) ++ be32 (ssrc h).
Proof.
  intros []. unfold is_u16 in *. unfold rtp_header_bytes, header_word. f_equal.
  unfold be32, u8. rewrite !Z.shiftl_mul_pow2, !Z.shiftr_div_pow2 by lia.
  rewrite (lor_add (hv h * _) (hp h * _) 6), (lor_add _ (hx h * _) 5), (lor_add _ (cc h) 4),
    (lor_add _ (pt h) 7) by lia.
  change 255 with (2 ^ 8 - 1). rewrite land_ones_mod by lia.
  set (b0 := _ * 64 + _). set (b1 := _ * 128 + _).
  assert (0 <= b0 < 256 /\ 0 <= b1 < 256) by lia.
  repeat (apply (f_equal2 cons); [lia|]). done.
Qed.

Lemma field_get w n k m : 0 <= n -> 0 <= k -> m = 2 ^ k - 1 ->
  Z.land (Z.shiftr w n) m = (w / 2 ^ n) mod 2 ^ k.
Proof. intros ? ? ->. rewrite Z.shiftr_div_pow2 by lia. by apply land_ones_mod. Qed.

Lemma RTP_fields h : header_ok h ->
  RTP_V (header_word h) = hv h /\ RTP_P (header_word h) = hp h /\ RTP_X (header_word h) = hx h /\
  RTP_CC (header_word h) = cc h /\ RTP_M (header_word h) = hm h /\ RTP_PT (header_word h) = pt h /\
  RTP_SEQ (header_word h) = seq h.
Proof.
  intros []. unfold is_u16 in *.
  unfold RTP_V, RTP_P, RTP_X, RTP_CC, RTP_M, RTP_PT, RTP_SEQ, header_word.
  rewrite (field_get _ 30 2 3), (field_get _ 29 1 1), (field_get _ 28 1 1), (field_get _ 24 4 15),
    (field_get _ 23 1 1), (field_get _ 16 7 127), (field_get _ 0 16 65535) by done.
  repeat split; lia.
Qed.

Lemma header_word_u32 h : header_ok h -> is_u32 (header_word h).
Proof. intros []. unfold is_u16, is_u32, header_word in *. lia. Qed.

(** ** Serialization writes exactly [packet_bytes] *)
Section Serialize.
Context `{Build}.

Lemma serialize_csrc_spec pre mid post_ buf rest :
  4 * zlen mid <= zlen rest ->
  serialize_csrc (length mid) (zlen pre) (pre ++ mid ++ post_) (buf ++ rest) (zlen buf)
  = Ret ((buf ++ flat_map be32 mid) ++ adv rest (4 * zlen mid)).
Proof.
  revert pre buf rest. induction mid as [|v mid IH]; intros pre buf rest Hl.
  { cbn. by rewrite app_nil_r. }
  cbn [length serialize_csrc app]. rewrite rd_last by done. cbn [obind]. unfold nbo_w32.
  rewrite zlen_cons in Hl. rewrite wrn_app by zlia. cbn [obind].
  specialize (IH (pre ++ [v]) (buf ++ be32 v) (adv rest 4)).
  rewrite <- app_assoc in IH. cbn [app] in IH.
  rewrite !zlen_app in IH. change (zlen [v]) with 1 in IH. rewrite zlen_be32 in *.
  rewrite IH by zlia. cbn [flat_map].
  rewrite adv_adv, <- !app_assoc by zlia. do 5 f_equal. zlia.
Qed.

Lemma serialize_csrc_all n mid post_ buf rest off :
  n = length mid -> off = zlen buf -> 4 * zlen mid <= zlen rest ->
  serialize_csrc n 0 (mid ++ post_) (buf ++ rest) off
  = Ret ((buf ++ flat_map be32 mid) ++ adv rest (4 * zlen mid)).
Proof. intros -> ->. apply (serialize_csrc_spec []). Qed.

Lemma serialize_extension_spec pkt buf rest :
  packet_ok pkt -> zlen (extension_bytes pkt) <= zlen rest ->
  serialize_extension pkt (buf ++ rest) (zlen buf)
  = Ret ((buf ++ extension_bytes pkt) ++ adv rest (zlen (extension_bytes pkt))).
Proof.
  intros Hok Hl. pose proof (ok_extlen _ Hok) as [? Hm]. pose proof (ok_ext _ Hok) as Hx.
  unfold serialize_extension, extension_bytes in *.
  destruct (Z.eqb_spec (hx (rtp pkt)) 1) as [E|]; [|by rewrite app_nil_r].
  specialize (Hx E). rewrite (proj2 (Z.eqb_eq _ _) Hm). cbn [c_assert orb obind].
  unfold nbo_w16. rewrite wrn_app by zlia. cbn [obind].
  rewrite wrn_app by zlia. cbn [obind].
  rewrite <- (take_drop (Z.to_nat (extlen pkt)) (extension pkt)) at 1.
  rewrite rdn_all by zlia. cbn [obind].
  rewrite wrn_app by zlia.
  rewrite !adv_adv, <- !app_assoc by zlia. do 6 f_equal. zlia.
Qed.

Lemma serialize_header_spec pkt data bytes :
  packet_ok pkt -> zlen (packet_header_bytes pkt) <= bytes <= zlen data ->
  rtp_packet_serialize_header pkt data bytes
  = Ret (zlen (packet_header_bytes pkt),
         packet_header_bytes pkt ++ adv data (zlen (packet_header_bytes pkt))).
Proof.
  intros Hok Hl. pose proof (ok_extlen _ Hok) as [? Hm].
  pose proof (zlen_csrc_bytes _ Hok) as Hcl. pose proof (zlen_extension_bytes _ Hok) as Hel.
  pose proof (zlen_packet_header_bytes _ Hok) as Hhl.
  pose proof (Hok.(ok_header _)).(ok_cc _). unfold RTP_FIXED_HEADER in *.
  unfold rtp_packet_serialize_header, RTP_FIXED_HEADER. rewrite (ok_version _ Hok), Hm. simpl orb.
  rewrite <- Hhl. zif. unfold nbo_write_rtp_header.
  rewrite (wrn_app [] data) by (destruct (_ =? 0) in *; zlia). cbn [obind].
  rewrite <- (take_drop (Z.to_nat (cc (rtp pkt))) (csrc pkt)).
  assert (Hn : length (take (Z.to_nat (cc (rtp pkt))) (csrc pkt)) = Z.to_nat (cc (rtp pkt))).
  { pose proof (ok_csrc_len _ Hok). rewrite length_take. unfold zlen in *. lia. }
  cbn [app]. rewrite serialize_csrc_all; [|done|done|].
  2: { unfold csrc_bytes in *. rewrite zlen_flat_be32 in Hcl.
       destruct (_ =? 0) in *; zlia. }
  cbn [obind]. fold (csrc_bytes pkt).
  rewrite <- zlen_flat_be32. fold (csrc_bytes pkt).
  replace (12 + cc (rtp pkt) * 4)
    with (zlen (rtp_header_bytes (rtp pkt) ++ csrc_bytes pkt)) by zlia.
  rewrite serialize_extension_spec by (done || destruct (_ =? 0) in *; zlia). cbn [obind].
  do 2 f_equal. unfold packet_header_bytes.
  rewrite !adv_adv, <- !app_assoc by zlia. do 4 f_equal. zlia.
Qed.

Lemma serialize_spec pkt data bytes :
  packet_ok pkt -> zlen (packet_bytes pkt) <= bytes <= zlen data ->
  rtp_packet_serialize pkt data bytes
  = Ret (zlen (packet_bytes pkt), packet_bytes pkt ++ adv data (zlen (packet_bytes pkt))).
Proof.
  intros Hok Hl. pose proof (zlen_payload_bytes _ Hok) as Hpl.
  pose proof (zlen_packet_header_bytes _ Hok) as Hhl.
  pose proof (Hok.(ok_header _)).(ok_cc _). pose proof (ok_extlen _ Hok).
  pose proof (ok_payload _ Hok).
  unfold packet_bytes in *. unfold rtp_packet_serialize.
  rewrite zlen_app in Hl.
  rewrite serialize_header_spec by (done || lia). cbn [obind]. unfold RTP_FIXED_HEADER in *.
  replace (_ || _) with false by (symmetry; destruct (_ =? 0) in *; cbool; lia).
  rewrite <- (take_drop (Z.to_nat (payloadlen pkt)) (payload pkt)) at 1.
  fold (payload_bytes pkt). rewrite rdn_all by lia. cbn [obind].
  rewrite wrn_app by zlia. cbn [obind]. rewrite adv_adv by zlia. rewrite zlen_app.
  do 4 f_equal. lia.
Qed.
End Serialize.

(** ** Parsing: memory safety and bounds on any input *)

(** What a caller may rely on after a successful parse of [data]. *)
Record parsed_ok (data : list Z) (bytes : Z) (pkt : rtp_packet_t) : Prop := {
  po_header : header_ok (rtp pkt);
  po_version : hv (rtp pkt) = RTP_VERSION;
  po_payload : exists off, payload pkt = adv data off /\ RTP_FIXED_HEADER <= off;
  po_len : 0 <= payloadlen pkt <= bytes - RTP_FIXED_HEADER - cc (rtp pkt) * 4;
  po_room : payloadlen pkt <= zlen (payload pkt);
  po_extlen : 0 <= extlen pkt < 2 ^ 16
}.

Section Deserialize.
Context `{Build}.

Lemma deserialize_csrc_post n i ptr cs :
  0 <= i -> 12 + (i + Z.of_nat n) * 4 <= zlen ptr -> bytes_ok ptr -> i + Z.of_nat n <= zlen cs ->
  post (deserialize_csrc n i ptr cs) (fun cs' => zlen cs' = zlen cs).
Proof.
  revert i cs. induction n as [|n IH]; intros i cs ? Hl Hb Hc; [done|].
  cbn [deserialize_csrc]. ostep.
  apply post_r32; [zlia|auto with zlist|]. intros v _. ostep.
  apply post_wrn; [lia|zlia|].
  eapply post_mono; [apply IH; try done; zlia|].
  intros cs' ->. zlia.
Qed.

Lemma fields_ok v ts src : 0 <= v < 2 ^ 32 -> is_u32 ts -> is_u32 src ->
  header_ok (mk_rtp_header (RTP_V v) (RTP_P v) (RTP_X v) (RTP_CC v) (RTP_M v) (RTP_PT v)
               (RTP_SEQ v) ts src).
Proof.
  intros. constructor; simpl; try done; unfold RTP_V, RTP_P, RTP_X, RTP_CC, RTP_M, RTP_PT, RTP_SEQ.
  - rewrite (field_get _ 30 2 3) by done. lia.
  - rewrite (field_get _ 29 1 1) by done. lia.
  - rewrite (field_get _ 28 1 1) by done. lia.
  - rewrite (field_get _ 24 4 15) by done. lia.
  - rewrite (field_get _ 23 1 1) by done. lia.
  - rewrite (field_get _ 16 7 127) by done. lia.
  - unfold is_u16. rewrite (field_get _ 0 16 65535) by done. lia.
Qed.

Lemma deserialize_extension_post pkt data bytes hdrlen :
  bytes_ok data -> bytes <= zlen data -> header_ok (rtp pkt) -> hv (rtp pkt) = RTP_VERSION ->
  hdrlen = RTP_FIXED_HEADER + cc (rtp pkt) * 4 ->
  payload pkt = adv data hdrlen -> payloadlen pkt = bytes - hdrlen -> extlen pkt = 0 ->
  (if hx (rtp pkt) =? 0 then 0 else 4) <= payloadlen pkt ->
  post (deserialize_extension pkt data hdrlen)
    (fun '(r, pkt') => rtp pkt' = rtp pkt /\ (r < 0 \/ parsed_ok data bytes pkt')).
Proof.
  intros Hb Hl Hh Hv -> Hp Hpl He Hx. pose proof (ok_cc _ Hh). unfold RTP_FIXED_HEADER in *.
  unfold deserialize_extension. apply post_if; intros Ex; cbool.
  - rewrite Ex in Hx. simpl (1 =? 0) in Hx. cbv iota in Hx. cbv zeta. ostep. ostep. ostep.
    apply post_r16; [zlia|auto with zlist|]. intros profile ?. ostep.
    apply post_r16; [zlia|auto with zlist|]. intros words ?. ostep; cbn in * |-; cbool.
    + ostep. ostep. ostep. split; [done|]. lia.
    + ostep. split; [done|]. right. unfold u16 in *.
      constructor; simpl; try done; unfold RTP_FIXED_HEADER in *; try zlia.
      eexists. split; [apply adv_adv; lia|lia].
  - ostep. split; [done|]. right. constructor; try done; unfold RTP_FIXED_HEADER; try zlia.
    + eexists. split; [exact Hp|lia].
    + destruct (_ =? 0); lia.
    + rewrite Hp. destruct (_ =? 0); zlia.
Qed.

Lemma deserialize_padding_post pkt data bytes :
  bytes_ok data -> 0 < bytes <= zlen data -> parsed_ok data bytes pkt ->
  post (deserialize_padding pkt data bytes)
    (fun '(r, pkt') => r = -1 \/ r = 0 /\ parsed_ok data bytes pkt').
Proof.
  intros Hb Hl Hok. unfold deserialize_padding. apply post_if; intros _; [|by ostep; auto].
  ostep. apply post_rd; [lia|]. intros pad Hpad. apply rd_byte in Hpad; [|done].
  unfold is_byte in Hpad. ostep; cbool.
  - ostep. ostep. ostep. auto.
  - ostep. right. split; [done|]. destruct Hok. by constructor; simpl; try lia.
Qed.

(** Any datagram: no access outside it, and a packet accepted with code 0 has
    its payload inside it. *)
Lemma deserialize_post pkt0 data bytes :
  bytes_ok data -> bytes <= zlen data ->
  post (rtp_packet_deserialize pkt0 data bytes)
    (fun '(r, pkt) => r = -1 \/ r = 0 /\ parsed_ok data bytes pkt).
Proof.
  intros Hb Hl. unfold rtp_packet_deserialize. apply post_if; intros Hlen; cbool.
  { ostep. by left. }
  unfold RTP_FIXED_HEADER in *. cbv zeta.
  ostep. apply post_r32; [zlia|done|]. intros v Hv.
  ostep. apply post_r32; [zlia|auto with zlist|]. intros ts Hts.
  ostep. apply post_r32; [zlia|auto with zlist|]. intros src Hsrc.
  pose proof (fields_ok v ts src Hv Hts Hsrc) as Hh.
  remember (mk_rtp_header _ _ _ _ _ _ _ _ _) as h eqn:Eh. clear Eh.
  pose proof (ok_cc _ Hh). unfold RTP_VERSION in *.
  ostep. ostep. ostep; [ostep; by left|]. cbool.
  match goal with H : _ /\ _ <= bytes |- _ => destruct H as [Hv2 Hroom] end.
  assert (12 + cc h * 4 + (if hx h =? 0 then 0 else 4) <= bytes) as Hroom'
    by (destruct (hp h =? 0); lia).
  assert (12 + cc h * 4 <= bytes) by (destruct (hx h =? 0); lia).
  ostep. eapply post_mono; [apply deserialize_csrc_post; simpl; try done; zlia|].
  intros cs _. ostep. ostep. ostep.
  eapply post_mono; [apply deserialize_extension_post; simpl; try done; unfold RTP_FIXED_HEADER|].
  all: try (done || lia).
  intros [r pkt] [Hr Hok]. cbn in * |-. ostep; cbool; [ostep; by left|].
  apply deserialize_padding_post; [done|lia|]. destruct Hok; [lia|done].
Qed.
End Deserialize.

(** ** Parsing inverts [packet_bytes] *)

(** The packet a parser sees when [rest] follows the datagram in its buffer. *)
Definition parsed (pkt : rtp_packet_t) (rest : list Z) : rtp_packet_t :=
  let tail := payload_bytes pkt ++ rest in
  let x := hx (rtp pkt) =? 1 in
  mk_rtp_packet (rtp pkt)
    (take (Z.to_nat (cc (rtp pkt))) (csrc pkt) ++ adv (replicate 16 0) (cc (rtp pkt)))
    (if x then take (Z.to_nat (extlen pkt)) (extension pkt) ++ tail else [])
    (extlen pkt) (if x then extprofile pkt else 0) tail (payloadlen pkt).

Section RoundTrip.
Context `{Build}.

Lemma deserialize_csrc_spec hd pre mid rest old :
  zlen hd = 12 -> Forall is_u32 mid -> zlen mid <= zlen old ->
  deserialize_csrc (length mid) (zlen pre) (hd ++ flat_map be32 (pre ++ mid) ++ rest) (pre ++ old)
  = Ret ((pre ++ mid) ++ adv old (zlen mid)).
Proof.
  intros Hhd. revert pre old. induction mid as [|v mid IH]; intros pre old Hu Hl.
  { cbn. by rewrite adv_0, app_nil_r. }
  apply Forall_cons_1 in Hu as [Hv Hu]. rewrite zlen_cons in *.
  cbn [length deserialize_csrc].
  assert (Hrd : nbo_r32 (adv (hd ++ flat_map be32 (pre ++ v :: mid) ++ rest) (12 + zlen pre * 4))
                = Ret v).
  { rewrite flat_map_app, <- app_assoc, app_assoc, adv_app by zlia.
    cbn [flat_map]. by rewrite <- app_assoc, nbo_r32_be32, u32_small. }
  rewrite Hrd. cbn [obind]. rewrite wrn_app by (done || zlia). cbn [obind].
  specialize (IH (pre ++ [v]) (adv old 1) Hu).
  rewrite <- !(app_assoc pre) in IH. cbn [app] in IH.
  rewrite zlen_app, adv_adv in IH by zlia. change (zlen [v]) with 1 in *.
  rewrite <- !app_assoc. cbn [app]. rewrite IH by zlia. done.
Qed.

Lemma deserialize_csrc_all hd mid rest old :
  zlen hd = 12 -> Forall is_u32 mid -> zlen mid <= zlen old ->
  deserialize_csrc (length mid) 0 (hd ++ flat_map be32 mid ++ rest) old
  = Ret (mid ++ adv old (zlen mid)).
Proof. apply (deserialize_csrc_spec hd []). Qed.

Lemma deserialize_extension_spec pkt0 pkt hd rest bytes :
  packet_ok pkt -> rtp pkt0 = rtp pkt -> extlen pkt0 = 0 -> extprofile pkt0 = 0 ->
  extension pkt0 = [] ->
  payload pkt0 = extension_bytes pkt ++ payload_bytes pkt ++ rest ->
  payloadlen pkt0 = zlen (extension_bytes pkt) + payloadlen pkt -> bytes = zlen hd ->
  deserialize_extension pkt0 (hd ++ extension_bytes pkt ++ payload_bytes pkt ++ rest) bytes
  = Ret (0, mk_rtp_packet (rtp pkt) (csrc pkt0) (extension (parsed pkt rest)) (extlen pkt)
              (extprofile (parsed pkt rest)) (payload_bytes pkt ++ rest) (payloadlen pkt)).
Proof.
  intros Hok Hr He0 Hpr0 Hx0 Hp Hpl ->. pose proof (ok_extlen _ Hok) as [? Hm].
  pose proof (ok_payload _ Hok). pose proof (zlen_extension_bytes _ Hok) as Hel.
  unfold deserialize_extension, parsed. rewrite Hr. cbn [extension extprofile].
  unfold extension_bytes in *. destruct (Z.eqb_spec (hx (rtp pkt)) 1) as [E|E].
  - rewrite E in Hel. change (1 =? 0) with false in Hel. cbv iota in Hel.
    rewrite Hpl, Hel. unfold c_assert. zif. cbn [orb obind].
    pose proof (ok_extprofile _ Hok). unfold is_u16 in *.
    rewrite adv_app by done. rewrite <- !app_assoc.
    rewrite nbo_r16_be16, u16_small by done. cbn [obind].
    rewrite adv_app by done. rewrite nbo_r16_be16, u16_small by (unfold is_u16; lia).
    cbn [obind]. cbv zeta. unfold u16.
    replace ((extlen pkt / 4 * 4) mod 2 ^ 16) with (extlen pkt) by lia.
    cbn [set_extension extlen payloadlen]. rewrite Hpl, Hel. zif.
    set (X := take _ (extension pkt) ++ payload_bytes pkt ++ rest).
    assert (H4 : adv (be16 (extprofile pkt) ++ be16 (extlen pkt / 4) ++ X) 4 = X) by done.
    assert (Hxl : extlen pkt <= zlen (extension pkt)) by by apply (ok_ext _ Hok).
    replace (extlen pkt + 4) with (4 + extlen pkt) by lia.
    rewrite <- adv_adv, H4 by lia. unfold X at 2. rewrite adv_app by zlia.
    unfold set_extension, set_payload. cbn [rtp csrc extension extlen extprofile]. rewrite Hr.
    do 3 f_equal. lia.
  - assert (E0 : hx (rtp pkt) = 0) by (pose proof (ok_x _ (ok_header _ Hok)); lia).
    destruct pkt0 as [? ? ? ? ? ? ?]. cbn in *. subst.
    rewrite (ok_ext_none _ Hok E0). done.
Qed.

Lemma read_header h X : header_ok h ->
  nbo_r32 (rtp_header_bytes h ++ X) = Ret (header_word h) /\
  nbo_r32 (adv (rtp_header_bytes h ++ X) 4) = Ret (timestamp h) /\
  nbo_r32 (adv (rtp_header_bytes h ++ X) 8) = Ret (ssrc h).
Proof.
  intros Hh. rewrite (rtp_header_bytes_eq _ Hh), <- !app_assoc.
  pose proof (header_word_u32 _ Hh). destruct Hh. repeat split.
  - by rewrite nbo_r32_be32, u32_small.
  - by rewrite adv_app, nbo_r32_be32, u32_small.
  - by rewrite (app_assoc (be32 (header_word _))), adv_app, nbo_r32_be32, u32_small.
Qed.

Lemma deserialize_spec pkt0 pkt rest :
  packet_ok pkt ->
  rtp_packet_deserialize pkt0 (packet_bytes pkt ++ rest) (zlen (packet_bytes pkt))
  = Ret (0, parsed pkt rest).
Proof.
  intros Hok. pose proof (ok_header _ Hok) as Hh. pose proof (ok_cc _ Hh) as Hcc.
  pose proof (ok_csrc_len _ Hok) as Hcl. pose proof (ok_payload _ Hok).
  pose proof (zlen_payload_bytes _ Hok) as Hpl.
  pose proof (zlen_packet_header_bytes _ Hok) as Hhl.
  pose proof (zlen_extension_bytes _ Hok) as Hel.
  pose proof (ok_extlen _ Hok) as [? _].
  unfold packet_bytes. rewrite zlen_app, Hpl, Hhl. unfold packet_header_bytes.
  rewrite <- !app_assoc. set (tail := payload_bytes pkt ++ rest).
  unfold rtp_packet_deserialize, RTP_FIXED_HEADER in *.
  assert (0 <= (if hx (rtp pkt) =? 0 then 0 else 4)) by (destruct (_ =? 0); lia).
  zif. cbv zeta. destruct (read_header _ (csrc_bytes pkt ++ extension_bytes pkt ++ tail) Hh)
    as (-> & -> & ->). cbn [obind].
  destruct (RTP_fields _ Hh) as (-> & -> & -> & -> & -> & -> & ->).
  replace (mk_rtp_header _ _ _ _ _ _ _ _ _) with (rtp pkt) by by destruct (rtp pkt).
  rewrite (ok_version _ Hok), (ok_padding _ Hok). cbn [Z.eqb orb negb RTP_VERSION].
  change (RTP_VERSION =? RTP_VERSION) with true. cbn [c_assert orb negb obind].
  change (0 =? 0) with true. cbv iota. zif. cbv iota.
  set (l := take (Z.to_nat (cc (rtp pkt))) (csrc pkt)).
  assert (Hln : zlen l = cc (rtp pkt)) by (unfold l; zlia).
  replace (Z.to_nat (cc (rtp pkt))) with (length l) by (unfold zlen in Hln; lia).
  unfold csrc_bytes. fold l. change (csrc (set_rtp zero_packet (rtp pkt))) with (replicate 16 0).
  rewrite deserialize_csrc_all.
  2: done.
  2: { apply Forall_take, (ok_csrc _ Hok). }
  2: { rewrite Hln, zlen_replicate. lia. }
  cbn [obind app]. unfold c_assert. zif. cbn [orb obind].
  rewrite app_assoc.
  rewrite (deserialize_extension_spec _ pkt (rtp_header_bytes (rtp pkt) ++ flat_map be32 l) rest);
    try done; cbn [set_payload set_csrc set_rtp payload payloadlen].
  2: { rewrite adv_app by zlia. done. }
  2: { lia. }
  2: { zlia. }
  cbn [obind]. cbn [Z.ltb Z.compare]. unfold deserialize_padding. cbn [rtp].
  rewrite (ok_padding _ Hok). change (0 =? 1) with false. cbv iota.
  rewrite Hln. done.
Qed.
End RoundTrip.

(** ** Properties *)

Section Properties.
Context `{Build}.

Lemma serialize_header_short pkt data bytes :
  packet_ok pkt -> bytes < zlen (packet_header_bytes pkt) ->
  rtp_packet_serialize_header pkt data bytes = Ret (-1, data).
Proof.
  intros Hok Hl. rewrite zlen_packet_header_bytes in Hl by done.
  unfold rtp_packet_serialize_header.
  rewrite (ok_version _ Hok), (proj2 (ok_extlen _ Hok)). simpl orb. by zif.
Qed.

Lemma take_take_app {A} n (l r : list A) :
  (n <= length l)%nat -> take n (take n l ++ r) = take n l.
Proof.
  intros. rewrite take_app_le, take_take by (rewrite length_take; lia).
  by rewrite Nat.min_id.
Qed.

Lemma parsed_payload pkt rest :
  packet_ok pkt -> payload_bytes (parsed pkt rest) = payload_bytes pkt.
Proof.
  intros Hok. pose proof (ok_payload _ Hok). unfold payload_bytes, parsed. cbn.
  apply take_take_app. unfold zlen in *. lia.
Qed.
Lemma parsed_csrc pkt rest :
  packet_ok pkt -> csrc_bytes (parsed pkt rest) = csrc_bytes pkt.
Proof.
  intros Hok. pose proof (ok_csrc_len _ Hok). pose proof (ok_cc _ (ok_header _ Hok)).
  unfold csrc_bytes, parsed. cbn. f_equal.
  apply take_take_app. unfold zlen in *. lia.
Qed.
Lemma parsed_extension pkt rest :
  packet_ok pkt -> extension_bytes (parsed pkt rest) = extension_bytes pkt.
Proof.
  intros Hok. unfold extension_bytes, parsed. cbn [rtp extension extlen extprofile].
  destruct (Z.eqb_spec (hx (rtp pkt)) 1) as [E|]; [|done]. do 2 f_equal.
  pose proof (ok_ext _ Hok E). pose proof (ok_extlen _ Hok).
  apply take_take_app. unfold zlen in *. lia.
Qed.

(** C0. [rtp_packet_serialize] writes exactly the RFC 3550 layout of the
    packet ([packet_bytes]: fixed header, CSRC list, extension, payload) at the
    start of the buffer, leaves the rest of it unchanged and returns the size;
    it returns -1 exactly when the space it is given is too small. *)
Theorem rtp_packet_serialize_correct pkt data bytes :
  packet_ok pkt -> bytes <= zlen data ->
  if zlen (packet_bytes pkt) <=? bytes
  then rtp_packet_serialize pkt data bytes
       = Ret (zlen (packet_bytes pkt), packet_bytes pkt ++ adv data (zlen (packet_bytes pkt)))
  else exists data', rtp_packet_serialize pkt data bytes = Ret (-1, data').
Proof.
  intros Hok Hl. destruct (Z.leb_spec (zlen (packet_bytes pkt)) bytes) as [Hs|Hs].
  { by apply serialize_spec. }
  unfold rtp_packet_serialize. unfold packet_bytes in Hs.
  rewrite zlen_app, zlen_payload_bytes in Hs by done.
  destruct (Z.lt_ge_cases bytes (zlen (packet_header_bytes pkt))).
  - rewrite serialize_header_short by done. simpl. by eexists.
  - rewrite serialize_header_spec by done. cbn [obind].
    replace (_ || _) with true by (symmetry; cbool; lia). by eexists.
Qed.

(** C15. Round trip: parsing what [rtp_packet_serialize] wrote returns 0 and
    the packet itself: the same header, CSRC list, extension and payload, the
    pointers now pointing into the datagram. *)
Theorem rtp_packet_roundtrip pkt pkt0 data bytes :
  packet_ok pkt -> zlen (packet_bytes pkt) <= bytes <= zlen data ->
  exists n buf,
    rtp_packet_serialize pkt data bytes = Ret (n, buf) /\
    rtp_packet_deserialize pkt0 buf n = Ret (0, parsed pkt (adv data n)) /\
    payload_bytes (parsed pkt (adv data n)) = payload_bytes pkt /\
    csrc_bytes (parsed pkt (adv data n)) = csrc_bytes pkt /\
    extension_bytes (parsed pkt (adv data n)) = extension_bytes pkt.
Proof.
  intros Hok Hl. eexists _, _. split; [by apply serialize_spec|].
  split; [by apply deserialize_spec|].
  auto using parsed_payload, parsed_csrc, parsed_extension.
Qed.
End Properties.

(** A packet with one CSRC, an 8-byte extension and a 3-byte payload. *)
Definition sample_packet : rtp_packet_t :=
  mk_rtp_packet (mk_rtp_header 2 0 1 1 1 96 65535 90000 305419896)
    (7 :: replicate 15 0) [1; 2; 3; 4; 5; 6; 7; 8] 8 48862 [10; 20; 30] 3.

Lemma sample_packet_ok : packet_ok sample_packet.
Proof.
  constructor; [constructor| | | | | | | | |]; simpl; unfold is_u16, is_u32; try (done || lia).
  repeat constructor; unfold is_u32; lia.
Defined.

Lemma rtp_packet_serialize_correct_witness :
  let n := zlen (packet_bytes sample_packet) in
  if n <=? 40
  then @rtp_packet_serialize default_build sample_packet (replicate 64 170) 40
       = Ret (n, packet_bytes sample_packet ++ adv (replicate 64 170) n)
  else exists data', @rtp_packet_serialize default_build sample_packet (replicate 64 170) 40
       = Ret (-1, data').
Proof. apply (rtp_packet_serialize_correct sample_packet); [apply sample_packet_ok|done]. Defined.

Lemma rtp_packet_roundtrip_witness : exists n buf,
  @rtp_packet_serialize default_build sample_packet (replicate 64 170) 40 = Ret (n, buf) /\
  @rtp_packet_deserialize default_build zero_packet buf n
    = Ret (0, parsed sample_packet (adv (replicate 64 170) n)) /\
  payload_bytes (parsed sample_packet (adv (replicate 64 170) n)) = payload_bytes sample_packet /\
  csrc_bytes (parsed sample_packet (adv (replicate 64 170) n)) = csrc_bytes sample_packet /\
  extension_bytes (parsed sample_packet (adv (replicate 64 170) n)) = extension_bytes sample_packet.
Proof. apply (rtp_packet_roundtrip sample_packet); [apply sample_packet_ok|done]. Defined.

(** C0. Memory safety of the parser on every datagram: it reads nothing
    outside the [bytes] bytes it is given, whatever they are; it returns 0 or -1
    (the build with assertions may stop instead); and when it returns 0 the
    payload lies inside the datagram, behind the fixed header. *)
Theorem rtp_packet_deserialize_safe `{Build} pkt0 data bytes :
  bytes_ok data -> bytes <= zlen data ->
  post (rtp_packet_deserialize pkt0 data bytes)
    (fun '(r, pkt) => r = -1 \/ r = 0 /\ parsed_ok data bytes pkt).
Proof. apply deserialize_post. Qed.

Lemma rtp_packet_deserialize_safe_witness :
  @post release_build _ (@rtp_packet_deserialize release_build zero_packet (replicate 40 177) 40)
    (fun '(r, pkt) => r = -1 \/ r = 0 /\ parsed_ok (replicate 40 177) 40 pkt).
Proof.
  apply (@rtp_packet_deserialize_safe release_build); [|done].
  apply Forall_replicate. unfold is_byte. lia.
Defined.

(** C0. A datagram of at least 12 bytes whose version field is not 2 stops the
    process of the default build at [assert(RTP_VERSION == pkt->rtp.v)]; the
    release build discards it with -1. *)
Theorem rtp_packet_version_assert pkt0 data bytes v :
  12 <= bytes <= zlen data -> nbo_r32 data = Ret v -> RTP_V v <> RTP_VERSION ->
  @rtp_packet_deserialize default_build pkt0 data bytes = Crash AssertFail /\
  exists pkt, @rtp_packet_deserialize release_build pkt0 data bytes = Ret (-1, pkt).
Proof.
  intros Hl Hr Hv. unfold rtp_packet_deserialize, RTP_FIXED_HEADER. zif. cbv zeta.
  rewrite Hr. cbn [obind].
  assert (Hw : forall k, 0 <= k <= 8 -> exists w, nbo_r32 (adv data k) = Ret w).
  { intros k Hk. destruct (adv data k) as [|b0 [|b1 [|b2 [|b3 p]]]] eqn:E;
      try (apply (f_equal zlen) in E; zlia).
    rewrite nbo_r32_cons. by eexists. }
  destruct (Hw 4 ltac:(lia)) as [ts ->], (Hw 8 ltac:(lia)) as [src ->]. cbn [obind hv].
  unfold c_assert. replace (RTP_VERSION =? RTP_V v) with false by (symmetry; cbool; lia).
  simpl. eauto.
Qed.

Lemma rtp_packet_version_assert_witness :
  @rtp_packet_deserialize default_build zero_packet (replicate 12 0) 12 = Crash AssertFail /\
  exists pkt, @rtp_packet_deserialize release_build zero_packet (replicate 12 0) 12 = Ret (-1, pkt).
Proof. apply (rtp_packet_version_assert _ _ _ 0); done. Defined.
