(* ===== verification/RtpCanonical.v ===== *)
(** * What parses is a packet

    The parser of RTP packets (lib/librtp/source/rtp-packet.c) returns only packets that
    the serialiser accepts, and a datagram is the only serialisation of its packet. *)

From S2P Require Import Prelude RtpUtil RtpPacket.
From stdpp Require Import list.
Open Scope Z_scope.

(** ** What is read determines the bytes *)
Lemma r16_inv p v : bytes_ok p -> nbo_r16 p = Ret v -> p = be16 v ++ adv p 2 /\ is_u16 v.
Proof.
  intros Hb. destruct p as [|b0 [|b1 p]]; try done. rewrite nbo_r16_cons. intros [= <-].
  apply Forall_cons_1 in Hb as [H0 Hb]. apply Forall_cons_1 in Hb as [H1 Hb].
  rewrite be16_join by done. split; [done|]. rewrite join16 by done. unfold is_byte, is_u16 in *. lia.
Qed.

Lemma r32_inv p v : bytes_ok p -> nbo_r32 p = Ret v -> p = be32 v ++ adv p 4 /\ is_u32 v.
Proof.
  intros Hb. destruct p as [|b0 [|b1 [|b2 [|b3 p]]]]; try done. rewrite nbo_r32_cons. intros [= <-].
  do 4 (apply Forall_cons_1 in Hb as [? Hb]).
  rewrite be32_join by done. split; [done|]. rewrite join32 by done. unfold is_byte, is_u32 in *. lia.
Qed.

(** The fields of the first word are all of it. *)
Lemma header_word_fields v ts src :
  is_u32 v -> header_word (mk_rtp_header (RTP_V v) (RTP_P v) (RTP_X v) (RTP_CC v) (RTP_M v) (RTP_PT v) (RTP_SEQ v) ts src) = v.
Proof.
  unfold is_u32, header_word, RTP_V, RTP_P, RTP_X, RTP_CC, RTP_M, RTP_PT, RTP_SEQ. intros Hv. cbn [hv hp hx cc hm pt RtpUtil.seq].
  rewrite (field_get _ 30 2 3), (field_get _ 29 1 1), (field_get _ 28 1 1), (field_get _ 24 4 15), (field_get _ 23 1 1),
    (field_get _ 16 7 127), (field_get _ 0 16 65535) by done.
  assert (E : forall k m, 0 <= k -> 0 <= m -> v / 2 ^ k = v / 2 ^ (k + m) * 2 ^ m + (v / 2 ^ k) mod 2 ^ m).
  { intros k m Hk Hm. rewrite Z.pow_add_r, <- Z.div_div by lia. rewrite Z.mul_comm. apply Z.div_mod. lia. }
  pose proof (E 0 16 ltac:(lia) ltac:(lia)). pose proof (E 16 7 ltac:(lia) ltac:(lia)). pose proof (E 23 1 ltac:(lia) ltac:(lia)).
  pose proof (E 24 4 ltac:(lia) ltac:(lia)). pose proof (E 28 1 ltac:(lia) ltac:(lia)). pose proof (E 29 1 ltac:(lia) ltac:(lia)).
  assert (Hq : (v / 2 ^ 30) mod 2 ^ 2 = v / 2 ^ 30) by (apply Z.mod_small; lia). rewrite Hq.
  change (v / 2 ^ 0) with (v / 1) in *. rewrite Z.div_1_r in *. cbn [Z.add Pos.add Pos.succ] in *. lia.
Qed.

(** ** The CSRC list *)
Lemma deserialize_csrc_inv n i ptr cs cs' :
  0 <= i -> bytes_ok ptr -> i + Z.of_nat n <= zlen cs -> deserialize_csrc n i ptr cs = Ret cs' ->
  exists vals, length vals = n /\ Forall is_u32 vals /\
    adv ptr (12 + i * 4) = flat_map be32 vals ++ adv ptr (12 + (i + Z.of_nat n) * 4) /\
    cs' = take (Z.to_nat i) cs ++ vals ++ drop (Z.to_nat i + n) cs.
Proof.
  revert i cs. induction n as [|n IH]; intros i cs Hi Hb Hl H; cbn [deserialize_csrc] in H.
  { injection H as <-. exists []. split_and!; [done|constructor|by rewrite Z.add_0_r|]. cbn [app]. by rewrite Nat.add_0_r, take_drop. }
  repeat run_inv. apply r32_inv in E as [Ep Hv]; [|by apply bytes_ok_adv].
  rewrite wrn_single in E0 by lia. injection E0 as <-.
  assert (Hi' : (Z.to_nat i < length cs)%nat) by (unfold zlen in Hl; lia).
  destruct (IH (i + 1) (<[Z.to_nat i := a]> cs)) as (vals & Hlen & Hf & Hp & ->); [lia|done| |done|].
  { unfold zlen in *. rewrite length_insert. lia. }
  exists (a :: vals). split_and!; [by rewrite <- Hlen|by constructor| |].
  - rewrite adv_adv in Ep by lia. rewrite Ep. cbn [flat_map]. rewrite <- app_assoc. f_equal.
    replace (12 + i * 4 + 4) with (12 + (i + 1) * 4) by lia. rewrite Hp. do 2 f_equal. lia.
  - replace (Z.to_nat (i + 1)) with (S (Z.to_nat i)) by lia.
    rewrite (take_S_r _ _ a), take_insert_ge, drop_insert_lt by (done || lia || by apply list_lookup_insert_eq).
    replace (S (Z.to_nat i) + n)%nat with (Z.to_nat i + S n)%nat by lia. by rewrite <- app_assoc.
Qed.

Section Canonical.
Context `{Build}.

(** The fixed header. *)
Lemma header_inv data v ts src :
  bytes_ok data -> nbo_r32 data = Ret v -> nbo_r32 (adv data 4) = Ret ts -> nbo_r32 (adv data 8) = Ret src ->
  let h := mk_rtp_header (RTP_V v) (RTP_P v) (RTP_X v) (RTP_CC v) (RTP_M v) (RTP_PT v) (RTP_SEQ v) ts src in
  header_ok h /\ data = rtp_header_bytes h ++ adv data 12.
Proof.
  intros Hb E1 E2 E3 h. apply r32_inv in E1 as [D1 H1]; [|done]. apply r32_inv in E2 as [D2 H2]; [|by apply bytes_ok_adv].
  apply r32_inv in E3 as [D3 H3]; [|by apply bytes_ok_adv]. rewrite adv_adv in D2, D3 by lia.
  assert (Hh : header_ok h) by (by apply fields_ok). split; [done|].
  rewrite rtp_header_bytes_eq by done. unfold h. rewrite header_word_fields by done. cbn [timestamp ssrc].
  rewrite D1 at 1. rewrite D2. change (4 + 4) with 8. rewrite D3. by rewrite <- !app_assoc.
Qed.

Lemma c_assert_inv b {A} (k : outcome A) a : (c_assert b ;;; k) = Ret a -> k = Ret a.
Proof. unfold c_assert. by case_match. Qed.

(** Without the padding bit the last step changes nothing. *)
Lemma padding_inv pkt pkt' data bytes :
  deserialize_padding pkt data bytes = Ret (0, pkt') -> hp (rtp pkt') = 0 -> pkt' = pkt.
Proof.
  unfold deserialize_padding. destruct (Z.eqb_spec (hp (rtp pkt)) 1) as [E|]; [|by intros [= <-]].
  destruct (rd data (bytes - 1)) as [padding|]; [|done]. cbn [obind]. destruct (_ <? _).
  - intros Hr. by apply c_assert_inv in Hr.
  - intros [= <-]. cbn [set_payload rtp]. lia.
Qed.

(** The extension: none, or two half-words and as many bytes as the second says. *)
Lemma extension_inv pkt pkt' data hdrlen r :
  bytes_ok data -> 0 <= hdrlen -> deserialize_extension pkt data hdrlen = Ret (r, pkt') -> 0 <= r ->
  r = 0 /\
  ((hx (rtp pkt) <> 1 /\ pkt' = pkt) \/
   (hx (rtp pkt) = 1 /\ exists profile words, is_u16 profile /\ is_u16 words /\
      nbo_r16 (adv data (hdrlen + 2)) = Ret words /\
      adv data hdrlen = be16 profile ++ be16 words ++ adv data (hdrlen + 4) /\
      u16 (words * 4) + 4 <= payloadlen pkt /\
      pkt' = set_payload (set_extension pkt (adv data (hdrlen + 4)) (u16 (words * 4)) profile)
               (adv data (hdrlen + (u16 (words * 4) + 4))) (payloadlen pkt - (u16 (words * 4) + 4)))).
Proof.
  intros Hb Hh. unfold deserialize_extension. destruct (Z.eqb_spec (hx (rtp pkt)) 1) as [E|E].
  2: { intros [= <- <-] _. split; [done|]. by left. }
  intros Hr Hr0. apply c_assert_inv in Hr.
  destruct (nbo_r16 (adv data hdrlen)) as [profile|] eqn:E1; [|done]. cbn [obind] in Hr.
  rewrite !adv_adv in Hr by lia.
  destruct (nbo_r16 (adv data (hdrlen + 2))) as [words|] eqn:E2; [|done]. cbn [obind] in Hr.
  pose proof E2 as E3. apply r16_inv in E1 as [D1 H1]; [|by apply bytes_ok_adv].
  apply r16_inv in E3 as [D2 H2]; [|by apply bytes_ok_adv]. rewrite adv_adv in D1, D2 by lia.
  cbn [set_extension payloadlen extlen] in Hr. destruct (Z.ltb_spec (payloadlen pkt) (u16 (words * 4) + 4)).
  - apply c_assert_inv in Hr. injection Hr as <- _. lia.
  - assert (0 <= u16 (words * 4)) by (unfold u16; lia). rewrite adv_adv in Hr by lia. injection Hr as <- <-. split; [done|]. right. split; [done|].
    exists profile, words. split_and!; [done|done|done| |lia|done].
    rewrite D1 at 1. rewrite D2. by replace (hdrlen + 2 + 2) with (hdrlen + 4) by lia.
Qed.

(** What the parser has found when it returns 0 and there is no padding. *)
Lemma deserialize_inv pkt0 data bytes pkt :
  bytes_ok data -> bytes <= zlen data -> rtp_packet_deserialize pkt0 data bytes = Ret (0, pkt) -> hp (rtp pkt) = 0 ->
  exists h vals, let hdrlen := RTP_FIXED_HEADER + cc h * 4 in
    header_ok h /\ hv h = RTP_VERSION /\ Forall is_u32 vals /\ zlen vals = cc h /\ 0 <= bytes - hdrlen /\
    data = rtp_header_bytes h ++ flat_map be32 vals ++ adv data hdrlen /\
    deserialize_extension (set_payload (set_csrc (set_rtp zero_packet h) (vals ++ drop (length vals) (replicate 16 0)))
      (adv data hdrlen) (bytes - hdrlen)) data hdrlen = Ret (0, pkt).
Proof.
  intros Hb Hl Hd Hp. unfold rtp_packet_deserialize in Hd. destruct (bytes <? RTP_FIXED_HEADER); [done|]. cbv zeta in Hd.
  destruct (nbo_r32 data) as [v|] eqn:E1; [|done]. cbn [obind] in Hd.
  destruct (nbo_r32 (adv data 4)) as [ts|] eqn:E2; [|done]. cbn [obind] in Hd.
  destruct (nbo_r32 (adv data 8)) as [src|] eqn:E3; [|done]. cbn [obind] in Hd.
  destruct (header_inv data v ts src Hb E1 E2 E3) as [Hh D]. set (h := mk_rtp_header _ _ _ _ _ _ _ _ _) in *.
  clearbody h. apply c_assert_inv in Hd. destruct (_ || _) eqn:Ec in Hd; [done|].
  apply orb_false_iff in Ec as [Ev Er]. apply negb_false_iff, Z.eqb_eq in Ev. apply Z.ltb_ge in Er.
  pose proof (ok_cc _ Hh) as Hcc. unfold RTP_FIXED_HEADER in *.
  destruct (deserialize_csrc _ _ _ _) as [cs|] eqn:Ecs; [|done]. cbn [obind] in Hd. apply c_assert_inv in Hd.
  apply deserialize_csrc_inv in Ecs as (vals & Hlen & Hf & Dv & ->); [|done|done|cbn [csrc set_rtp zero_packet]; rewrite zlen_replicate; lia].
  assert (Hz : zlen vals = cc h) by (unfold zlen; lia).
  exists h, vals. cbv zeta. split_and!; try done; [revert Er; destruct (hx h =? 0), (hp h =? 0); lia| |].
  - rewrite D at 1. f_equal. change (12 + 0 * 4) with 12 in Dv. rewrite Dv. do 2 f_equal. lia.
  - cbn [Z.to_nat take app Nat.add csrc set_rtp zero_packet] in Hd. rewrite <- Hlen in Hd.
    destruct (deserialize_extension _ data _) as [[r p2]|] eqn:Ee; [|done]. cbn [obind] in Hd.
    destruct (Z.ltb_spec r 0); [done|]. apply padding_inv in Hd as ->; [|done].
    assert (Hh0 : 0 <= 12 + cc h * 4) by lia. destruct (extension_inv _ _ _ _ _ Hb Hh0 Ee) as [-> _]; done.
Qed.
Lemma padded_csrcs vals n :
  Forall is_u32 vals -> zlen vals = n -> n <= 16 ->
  let csrcs := vals ++ drop (length vals) (replicate 16 0) in
  zlen csrcs = 16 /\ Forall is_u32 csrcs /\ take (Z.to_nat n) csrcs = vals.
Proof.
  intros Hf Hz Hn csrcs. unfold csrcs. rewrite zlen_app. unfold zlen in *. rewrite length_drop, length_replicate. split_and!; [lia| |].
  - apply Forall_app_2; [done|]. apply Forall_drop, Forall_replicate. unfold is_u32. lia.
  - rewrite <- Hz, Nat2Z.id. by rewrite take_app_length.
Qed.

(** C16. What parses is a packet: if the parser accepts a datagram without the padding bit,
    the packet it returns is one the serialiser may be given -- its fields fit their
    widths, its extension is whole words, extension and payload are there -- and, unless
    the length of the extension loses its high bits, serialising it gives the datagram
    back, byte for byte. *)
Theorem rtp_packet_deserialize_typed pkt0 data pkt buf :
  bytes_ok data -> rtp_packet_deserialize pkt0 data (zlen data) = Ret (0, pkt) -> hp (rtp pkt) = 0 ->
  packet_ok pkt /\
  ((hx (rtp pkt) = 1 -> forall words, nbo_r16 (adv data (14 + cc (rtp pkt) * 4)) = Ret words -> words < 2 ^ 14) ->
   zlen data <= zlen buf -> rtp_packet_serialize pkt buf (zlen buf) = Ret (zlen data, data ++ adv buf (zlen data))).
Proof.
  intros Hb Hd Hp. destruct (deserialize_inv pkt0 data (zlen data) pkt Hb ltac:(lia) Hd Hp)
    as (h & vals & Hh & Hv & Hf & Hz & Hroom & D & Ee).
  pose proof (ok_cc _ Hh) as Hcc. pose proof (ok_x _ Hh) as Hx. unfold RTP_FIXED_HEADER in *.
  assert (Hh0 : 0 <= 12 + cc h * 4) by lia. destruct (extension_inv _ _ _ _ _ Hb Hh0 Ee) as [_ He]; [done|].
  cbn [rtp set_payload set_csrc set_rtp payloadlen] in He.
  set (csrcs := vals ++ drop (length vals) (replicate 16 0)) in *.
  pose proof (padded_csrcs vals (cc h) Hf Hz ltac:(lia)) as Hcs. fold csrcs in Hcs.
  destruct Hcs as (Hc1 & Hc2 & Hc3).
  assert (Hok : packet_ok pkt /\ rtp pkt = h /\
    ((hx h = 1 -> forall words, nbo_r16 (adv data (14 + cc h * 4)) = Ret words -> words < 2 ^ 14) -> packet_bytes pkt = data)).
  { destruct He as [[Hx0 ->]|(Hx1 & profile & words & Hpr & Hw & Ew & De & Hlen & ->)].
    - split; [|split; [done|]].
      + constructor; cbn; try done; try lia. rewrite zlen_adv. lia.
      + intros _. unfold packet_bytes, packet_header_bytes, csrc_bytes, extension_bytes, payload_bytes.
        cbn [rtp csrc extension extlen extprofile payload payloadlen set_payload set_csrc set_rtp zero_packet set_extension].
        rewrite Hc3, (proj2 (Z.eqb_neq _ _) Hx0), app_nil_r, take_ge, <- app_assoc; [by rewrite <- D|].
        pose proof (zlen_adv data (12 + cc h * 4)). unfold zlen in *. lia.
    - split; [|split; [done|]].
      + constructor; cbn; try done; try lia; unfold u16; try lia; rewrite ?zlen_adv; unfold u16 in *; lia.
      + intros Hfit. specialize (Hfit Hx1 words). replace (14 + cc h * 4) with (12 + cc h * 4 + 2) in Hfit by lia.
        specialize (Hfit Ew). assert (Eu : u16 (words * 4) = words * 4) by (unfold is_u16, u16 in *; lia). rewrite Eu in *.
        unfold packet_bytes, packet_header_bytes, csrc_bytes, extension_bytes, payload_bytes.
        cbn [rtp csrc extension extlen extprofile payload payloadlen set_payload set_csrc set_rtp zero_packet set_extension].
        rewrite Hc3, Hx1. cbn [Z.eqb Pos.eqb]. rewrite Z.div_mul by lia.
        set (o := 12 + cc h * 4) in *. assert (0 <= words) by (unfold is_u16 in Hw; lia).
        replace (adv data (o + (words * 4 + 4))) with (adv (adv data (o + 4)) (words * 4)) by (rewrite adv_adv by lia; f_equal; lia).
        assert (Hl1 : zlen (adv (adv data (o + 4)) (words * 4)) = zlen data - o - (words * 4 + 4)) by (rewrite !zlen_adv; lia).
        rewrite (take_ge (adv (adv data (o + 4)) (words * 4))) by (unfold zlen in *; lia).
        rewrite D at 3. rewrite De. rewrite <- !app_assoc. do 4 f_equal. apply take_drop. }
  destruct Hok as (Hok & <- & Hbytes). split; [exact Hok|]. intros Hfit Hbuf. specialize (Hbytes Hfit).
  rewrite serialize_spec; [|done|rewrite Hbytes; lia]. by rewrite Hbytes.
Qed.
End Canonical.

(** A datagram with one CSRC, an extension of two words and three bytes of payload. *)
Definition sample_datagram : list Z := packet_bytes sample_packet.
Lemma rtp_packet_deserialize_typed_witness :
  packet_ok (parsed sample_packet []) /\
  @rtp_packet_serialize default_build (parsed sample_packet []) (replicate 64 170) 64
    = Ret (zlen sample_datagram, sample_datagram ++ adv (replicate 64 170) (zlen sample_datagram)).
Proof.
  assert (Hb : bytes_ok sample_datagram) by (repeat (constructor; [unfold is_byte; by vm_compute|]); constructor).
  destruct (@rtp_packet_deserialize_typed default_build zero_packet sample_datagram (parsed sample_packet []) (replicate 64 170)
              Hb eq_refl eq_refl) as [Hok Hs].
  split; [exact Hok|]. apply Hs; [|by vm_compute]. intros _ words [= <-]. by vm_compute.
Defined.
