(* ===== verification/RtpQueue.v ===== *)
(** The RTP reorder queue (lib/librtp/source/rtp-queue.c).

    A ring buffer of packet pointers that grows by 250 up to 3000, ordered by
    sequence number; packets far from the expected range are parked until four
    in a row re-synchronise the queue. *)

From S2P Require Import Prelude RtpUtil.

Definition MAX_PACKET : Z := 3000.
Definition RTP_MISORDER : Z := 300.
Definition RTP_DROPOUT : Z := 1000.
Definition RTP_SEQUENTIAL : Z := 3.
Definition RTP_SEQMOD : Z := Z.shiftl 1 16.

(** The queue holds pointers to packets and looks at their RTP header only. *)
Class RtpPointer (P : Type) := pkt_rtp : P -> rtp_header_t.

Section Queue.
Context {P : Type} `{RtpPointer P}.

Definition pseq (p : P) : Z := seq (pkt_rtp p).
Definition pts (p : P) : Z := timestamp (pkt_rtp p).

(** A cell of [items] that was never written is [None]: [realloc] does not
    initialise.  [freed] logs the packets handed to [q->free], oldest first. *)
Record rtp_queue_t := mk_queue {
  items : list (option P);
  capacity : Z;
  size : Z;
  pos : Z;
  probation : Z;
  cycles : Z;
  last_seq : Z;
  first_seq : Z;
  bad_count : Z;
  bad_seq : Z;
  bad_items : list (option P);
  threshold : Z;
  frequency : Z;
  freed : list P
}.

Definition set_ring (q : rtp_queue_t) its cap sz ps : rtp_queue_t :=
  mk_queue its cap sz ps (probation q) (cycles q) (last_seq q) (first_seq q)
    (bad_count q) (bad_seq q) (bad_items q) (threshold q) (frequency q) (freed q).
Definition set_probation (q : rtp_queue_t) v : rtp_queue_t :=
  mk_queue (items q) (capacity q) (size q) (pos q) v (cycles q) (last_seq q) (first_seq q)
    (bad_count q) (bad_seq q) (bad_items q) (threshold q) (frequency q) (freed q).
Definition set_cycles (q : rtp_queue_t) v : rtp_queue_t :=
  mk_queue (items q) (capacity q) (size q) (pos q) (probation q) v (last_seq q) (first_seq q)
    (bad_count q) (bad_seq q) (bad_items q) (threshold q) (frequency q) (freed q).
Definition set_last_seq (q : rtp_queue_t) v : rtp_queue_t :=
  mk_queue (items q) (capacity q) (size q) (pos q) (probation q) (cycles q) v (first_seq q)
    (bad_count q) (bad_seq q) (bad_items q) (threshold q) (frequency q) (freed q).
Definition set_first_seq (q : rtp_queue_t) v : rtp_queue_t :=
  mk_queue (items q) (capacity q) (size q) (pos q) (probation q) (cycles q) (last_seq q) v
    (bad_count q) (bad_seq q) (bad_items q) (threshold q) (frequency q) (freed q).
Definition set_bad (q : rtp_queue_t) n sq its : rtp_queue_t :=
  mk_queue (items q) (capacity q) (size q) (pos q) (probation q) (cycles q) (last_seq q)
    (first_seq q) n sq its (threshold q) (frequency q) (freed q).
Definition add_freed (q : rtp_queue_t) (p : P) : rtp_queue_t :=
  mk_queue (items q) (capacity q) (size q) (pos q) (probation q) (cycles q) (last_seq q)
    (first_seq q) (bad_count q) (bad_seq q) (bad_items q) (threshold q) (frequency q)
    (freed q ++ [p]).

(** Following a pointer stored in a cell. *)
Definition deref (o : option P) : outcome P :=
  match o with Some p => Ret p | None => Crash OutOfBounds end.

Definition item_at (q : rtp_queue_t) (i : Z) : outcome P :=
  do k <- cmod i (capacity q) ;;
  do o <- rd (items q) k ;;
  deref o.

(** ** Reset *)
Fixpoint free_bad (n : nat) (i : Z) (q : rtp_queue_t) : outcome rtp_queue_t :=
  match n with
  | O => Ret q
  | S n' =>
      do o <- rd (bad_items q) i ;;
      do p <- deref o ;;
      free_bad n' (i + 1) (add_freed q p)
  end.

Definition rtp_queue_reset_bad_items (q : rtp_queue_t) : outcome rtp_queue_t :=
  do q <- free_bad (Z.to_nat (bad_count q)) 0 q ;;
  Ret (set_bad q 0 0 (bad_items q)).

Fixpoint free_items (n : nat) (i : Z) (q : rtp_queue_t) : outcome rtp_queue_t :=
  match n with
  | O => Ret q
  | S n' =>
      do p <- item_at q (pos q + i) ;;
      free_items n' (i + 1) (add_freed q p)
  end.

Definition rtp_queue_reset (q : rtp_queue_t) : outcome rtp_queue_t :=
  do q <- rtp_queue_reset_bad_items q ;;
  do q <- free_items (Z.to_nat (size q)) 0 q ;;
  Ret (set_probation (set_ring q (items q) (capacity q) 0 0) RTP_SEQUENTIAL).

(** [calloc]ed, then reset with nothing to free. *)
Definition rtp_queue_create (thr freq : Z) : outcome rtp_queue_t :=
  do q <- rtp_queue_reset (mk_queue [] 0 0 0 0 0 0 0 0 0 (replicate 4 None) 0 0 []) ;;
  let q := set_probation q 1 in
  Ret (mk_queue (items q) (capacity q) (size q) (pos q) (probation q) (cycles q) (last_seq q)
         (first_seq q) (bad_count q) (bad_seq q) (bad_items q) thr freq (freed q)).

Definition rtp_queue_destroy `{Build} (q : rtp_queue_t) : outcome (list P) :=
  do q <- rtp_queue_reset q ;;
  (if negb (bool_decide (items q = [])) then c_assert (0 <? capacity q) else Ret tt) ;;;
  Ret (freed q).

(** ** Position of a sequence number: binary search by distance to the last *)
Fixpoint find_loop `{Build} (fuel : nat) (q : rtp_queue_t) (v l r : Z) : outcome Z :=
  if l <? r then
    match fuel with
    | O => Crash Diverge
    | S fuel =>
        let i := (l + r) / 2 in
        do p <- item_at q i ;;
        let vi := u16 (last_seq q - u16 (pseq p)) in
        if vi =? v then Ret (-1)
        else if vi <? v then find_loop fuel q v l i
        else c_assert (v <? vi) ;;; find_loop fuel q v (i + 1) r
    end
  else Ret l.

Definition rtp_queue_find `{Build} (q : rtp_queue_t) (sq : Z) : outcome Z :=
  find_loop (S (Z.to_nat (size q))) q (u16 (last_seq q - sq)) (pos q) (pos q + size q).

(** ** Insertion *)
Fixpoint move_items (n : nat) (cap i : Z) (its : list (option P)) : outcome (list (option P)) :=
  match n with
  | O => Ret its
  | S n' =>
      do k <- cmod i cap ;;
      do k1 <- cmod (i - 1) cap ;;
      do o <- rd its k1 ;;
      do its <- wrn its k [o] ;;
      move_items n' cap (i - 1) its
  end.

(** Room for one more item: the return code, the queue, the position. *)
Definition rtp_queue_grow `{Alloc} `{Build} (q : rtp_queue_t) (position : Z)
  : outcome (Z * rtp_queue_t * Z) :=
  if capacity q <=? size q then
    if MAX_PACKET <? size q + 1 then Ret (- E2BIG, q, position)
    else
      let cap := capacity q + 250 in
      if negb (alloc_ok (cap * 8)) then Ret (- ENOMEM, q, position)
      else
        let its := items q ++ replicate 250 None in
        if capacity q <? pos q + size q then
          c_assert (pos q <? capacity q) ;;;
          do tl <- rdn its (pos q) (capacity q - pos q) ;;
          do its <- wrn its (pos q + cap - capacity q) tl ;;
          Ret (0, set_ring q its cap (size q) (pos q + (cap - capacity q)),
               position + (cap - capacity q))
        else Ret (0, set_ring q its cap (size q) (pos q), position)
  else Ret (0, q, position).

Definition rtp_queue_insert `{Alloc} `{Build} (q : rtp_queue_t) (position : Z) (pkt : P)
  : outcome (Z * rtp_queue_t) :=
  c_assert ((pos q <=? position) && (position <=? pos q + size q)) ;;;
  do* (r, q, position) <- rtp_queue_grow q position ;;
  if r <? 0 then Ret (r, q)
  else
    do its <- move_items (Z.to_nat (pos q + size q - position)) (capacity q) (pos q + size q) (items q) ;;
    do k <- cmod position (capacity q) ;;
    do its <- wrn its k [Some pkt] ;;
    Ret (1, set_ring q its (capacity q) (size q + 1) (pos q)).

(** ** Writing a packet *)
Section Write.
Context `{Alloc} `{Build}.

Definition write_probation (q : rtp_queue_t) (pkt : P) : outcome (Z * rtp_queue_t) :=
  do q <-
    (if (0 <? size q) && (u16 (pseq pkt) =? last_seq q + 1) then
       let q := set_probation q (probation q - 1) in
       if probation q =? 0 then
         do o <- rd (items q) (pos q) ;;
         do p <- deref o ;;
         Ret (set_first_seq q (u16 (pseq p)))
       else Ret q
     else if (size q =? 0) && (probation q =? 1) then
       Ret (set_probation (set_first_seq q (u16 (pseq pkt))) (probation q - 1))
     else rtp_queue_reset q) ;;
  let q := set_last_seq q (u16 (pseq pkt)) in
  rtp_queue_insert q (pos q + size q) pkt.

(** The parked packets become the tail of the queue; a failed insertion is
    not looked at. *)
Fixpoint insert_bad (n : nat) (i : Z) (q : rtp_queue_t) : outcome rtp_queue_t :=
  match n with
  | O => Ret q
  | S n' =>
      do o <- rd (bad_items q) i ;;
      do p <- deref o ;;
      do* (_, q) <- rtp_queue_insert q (pos q + size q) p ;;
      insert_bad n' (i + 1) q
  end.

Definition write_resync (q : rtp_queue_t) (pkt : P) : outcome (Z * rtp_queue_t) :=
  do q <- insert_bad (Z.to_nat (bad_count q)) 0 q ;;
  let q := set_bad q 0 (bad_seq q) (bad_items q) in
  let q := set_last_seq q (u16 (pseq pkt)) in
  rtp_queue_insert q (pos q + size q) pkt.

Definition write_park (q : rtp_queue_t) (pkt : P) : outcome (Z * rtp_queue_t) :=
  do its <- wrn (bad_items q) (bad_count q) [Some pkt] ;;
  Ret (1, set_bad q (bad_count q + 1) ((pseq pkt + 1) mod (RTP_SEQMOD - 1)) its).

Definition write_bad (q : rtp_queue_t) (pkt : P) : outcome (Z * rtp_queue_t) :=
  if (0 <? bad_count q) && (bad_seq q =? pseq pkt) then
    if RTP_SEQUENTIAL <=? bad_count q then write_resync q pkt
    else write_park q pkt
  else
    do q <- rtp_queue_reset_bad_items q ;;
    write_park q pkt.

Definition rtp_queue_write (q : rtp_queue_t) (pkt : P) : outcome (Z * rtp_queue_t) :=
  if negb (probation q =? 0) then write_probation q pkt
  else
    let delta := u16 (pseq pkt - last_seq q) in
    if (0 <? delta) && (delta <? RTP_DROPOUT) then
      let q := if pseq pkt <? last_seq q then set_cycles q (cycles q + RTP_SEQMOD) else q in
      do q <- rtp_queue_reset_bad_items q ;;
      let q := set_last_seq q (u16 (pseq pkt)) in
      rtp_queue_insert q (pos q + size q) pkt
    else if (s16 delta <=? 0) && (s16 (first_seq q - last_seq q) <=? s16 delta) then
      do idx <- rtp_queue_find q (u16 (pseq pkt)) ;;
      if idx =? -1 then Ret (-1, q)
      else
        do q <- rtp_queue_reset_bad_items q ;;
        rtp_queue_insert q idx pkt
    else if u16 (first_seq q - pseq pkt) <? RTP_MISORDER then Ret (-1, q)
    else write_bad q pkt.

(** ** Reading a packet *)
Definition pop (q : rtp_queue_t) (first : Z) : outcome rtp_queue_t :=
  do ps <- cmod (pos q + 1) (capacity q) ;;
  Ret (set_ring (set_first_seq q first) (items q) (capacity q) (size q - 1) ps).

(** Milliseconds between the oldest and the newest packet of the queue. *)
Definition queued_ms (q : rtp_queue_t) (pkt : P) : outcome Z :=
  do last <- item_at q (pos q + size q - 1) ;;
  let t := u32 (pts last - pts pkt) in
  let t := if s32 t <? 0 then u32 (- s32 t) else t in
  if u64 (frequency q) =? 0 then Crash DivZero
  else Ret (u32 (u64 (t * 1000) / u64 (frequency q))).

Definition rtp_queue_read (q : rtp_queue_t) : outcome (option P * rtp_queue_t) :=
  if (size q <? 1) || negb (probation q =? 0) then Ret (None, q)
  else
    c_assert (pos q <? capacity q) ;;;
    do o <- rd (items q) (pos q) ;;
    do pkt <- deref o ;;
    if (threshold q =? 0) || (first_seq q =? pseq pkt) then
      do q <- pop q (u16 (first_seq q + 1)) ;;
      Ret (Some pkt, q)
    else
      do ms <- queued_ms q pkt ;;
      if ms <? u32 (threshold q) then Ret (None, q)
      else
        do q <- pop q (u16 (pseq pkt + 1)) ;;
        Ret (Some pkt, q).
End Write.
End Queue.
Arguments rtp_queue_t : clear implicits.
