(* ===== verification/RtpQueueSpec.v ===== *)
(** The reorder queue against a sequence of packets.

    [ring_ok q l]: the ring buffer of [q] holds the sequence [l].  Each
    operation of RtpQueue.v is shown to act on [l] as on a list. *)

From S2P Require Import Prelude RtpUtil RtpQueue.

Section Ring.
Context {P : Type}.
Implicit Types its : list (option P).

(** The cell of ring index [k]. *)
Definition slot its (cap ps k : Z) : option (option P) := its !! Z.to_nat ((ps + k) mod cap).

Definition ring its (cap ps : Z) (l : list P) : Prop :=
  forall k p, l !! k = Some p -> slot its cap ps (Z.of_nat k) = Some (Some p).

Lemma ring_inj cap ps j k :
  0 <= ps < cap -> 0 <= j < cap -> 0 <= k < cap ->
  (ps + j) mod cap = (ps + k) mod cap -> j = k.
Proof.
  intros ? ? ?. rewrite !mod_wrap by lia.
  destruct (Z.ltb_spec (ps + j) cap), (Z.ltb_spec (ps + k) cap); lia.
Qed.

Lemma slot_insert its cap ps m k x :
  0 <= ps < cap -> zlen its = cap -> 0 <= m < cap -> 0 <= k < cap ->
  slot (<[Z.to_nat ((ps + m) mod cap) := x]> its) cap ps k
  = if k =? m then Some x else slot its cap ps k.
Proof.
  intros ? Hl ? ?. unfold slot. pose proof (mod_range (ps + m) cap).
  pose proof (mod_range (ps + k) cap).
  destruct (Z.eqb_spec k m) as [->|Hne].
  - apply list_lookup_insert_eq. unfold zlen in Hl. lia.
  - apply list_lookup_insert_ne. intros E. apply Hne.
    apply (ring_inj cap ps); lia.
Qed.

Lemma slot_is_some its cap ps k :
  0 < cap -> zlen its = cap -> exists o, slot its cap ps k = Some o.
Proof.
  intros ? Hl. unfold slot. pose proof (mod_range (ps + k) cap).
  apply lookup_lt_is_Some. unfold zlen in Hl. lia.
Qed.

Lemma rd_slot its cap ps k o :
  0 < cap -> slot its cap ps k = Some o -> rd its ((ps + k) mod cap) = Ret o.
Proof. intros. pose proof (mod_range (ps + k) cap). by apply rd_lookup; [lia|]. Qed.

(** Shifting the [n] last of the first [m] cells up by one. *)
Lemma move_items_spec n m cap ps its :
  0 <= ps < cap -> zlen its = cap -> Z.of_nat n <= m < cap ->
  exists its', move_items n cap (ps + m) its = Ret its' /\ zlen its' = cap /\
    (forall k, 0 <= k < m - Z.of_nat n -> slot its' cap ps k = slot its cap ps k) /\
    (forall k, m - Z.of_nat n <= k < m -> slot its' cap ps (k + 1) = slot its cap ps k) /\
    (forall k, m < k < cap -> slot its' cap ps k = slot its cap ps k).
Proof.
  revert m its. induction n as [|n IH]; intros m its Hps Hl Hn.
  { exists its. repeat split; auto; lia. }
  destruct (slot_is_some its cap ps (m - 1)) as [o Ho]; [lia|done|].
  cbn [move_items]. unfold cmod. zif. cbn [obind].
  replace (ps + m - 1) with (ps + (m - 1)) by lia.
  rewrite (rd_slot its cap ps (m - 1) o) by (done || lia). cbn [obind].
  pose proof (mod_range (ps + m) cap).
  rewrite wrn_single by lia. cbn [obind].
  set (its1 := <[_ := o]> its).
  assert (Hl1 : zlen its1 = cap) by (unfold its1, zlen in *; by rewrite length_insert).
  destruct (IH (m - 1) its1) as (its' & -> & Hl' & Hlo & Hmid & Hhi); [done|done|lia|].
  exists its'. split; [done|]. split; [done|].
  assert (H1 : forall k, 0 <= k < cap ->
            slot its1 cap ps k = if k =? m then Some o else slot its cap ps k)
    by (intros; by apply slot_insert; try lia).
  repeat split; intros k Hk.
  - rewrite Hlo, H1 by lia. by zif.
  - destruct (Z.eq_dec k (m - 1)) as [->|].
    + rewrite Hhi, H1 by lia. zif. by rewrite Ho.
    + rewrite Hmid, H1 by lia. by zif.
  - rewrite Hhi, H1 by lia. by zif.
Qed.

Lemma ring_insert its cap ps l k pkt :
  0 <= ps < cap -> zlen its = cap -> zlen l < cap -> ring its cap ps l -> (k <= length l)%nat ->
  exists its', move_items (length l - k) cap (ps + zlen l) its = Ret its' /\
    (exists its'', wrn its' ((ps + Z.of_nat k) mod cap) [Some pkt] = Ret its'' /\
      zlen its'' = cap /\ ring its'' cap ps (take k l ++ pkt :: drop k l)).
Proof.
  intros Hps Hl Hll Hr Hk.
  destruct (move_items_spec (length l - k) (zlen l) cap ps its)
    as (its' & E & Hl' & Hlo & Hmid & _); [done|done|unfold zlen in *; lia|].
  exists its'. split; [done|]. pose proof (mod_range (ps + Z.of_nat k) cap).
  eexists. split; [apply wrn_single; lia|]. split.
  { unfold zlen in *. by rewrite length_insert. }
  unfold zlen in *. intros j p Hj. assert (j < S (length l))%nat as Hjl.
  { apply lookup_lt_Some in Hj. rewrite length_app, length_take in Hj. simpl in Hj.
    rewrite length_drop in Hj. lia. }
  rewrite slot_insert by (unfold zlen in *; lia).
  destruct (Z.eqb_spec (Z.of_nat j) (Z.of_nat k)) as [E1|E1].
  - assert (j = k) as -> by lia. rewrite lookup_app_r in Hj by (rewrite length_take; lia).
    rewrite length_take, Nat.min_l, Nat.sub_diag in Hj by lia. simpl in Hj. congruence.
  - destruct (decide (j < k)%nat).
    + rewrite lookup_app_l, lookup_take_lt in Hj by (try rewrite length_take; lia).
      rewrite Hlo by lia. by apply Hr.
    + rewrite lookup_app_r in Hj by (rewrite length_take; lia).
      rewrite length_take, Nat.min_l in Hj by lia.
      replace (j - k)%nat with (S (j - k - 1)) in Hj by lia. simpl in Hj.
      rewrite lookup_drop in Hj. replace (k + (j - k - 1))%nat with (j - 1)%nat in Hj by lia.
      replace (Z.of_nat j) with (Z.of_nat (j - 1) + 1) by lia.
      rewrite Hmid by lia. by apply Hr.
Qed.
End Ring.

Section Spec.
Context {P : Type} `{RtpPointer P}.
Implicit Types (q : rtp_queue_t P) (l bad : list P).

(** [q] holds the sequence [l] in its ring and parks [bad]. *)
Record queue_ok (q : rtp_queue_t P) (l bad : list P) : Prop := {
  qo_cap : 0 <= capacity q <= MAX_PACKET /\ capacity q mod 250 = 0;
  qo_items : zlen (items q) = capacity q;
  qo_size : size q = zlen l /\ zlen l <= capacity q;
  qo_pos : 0 <= pos q < capacity q \/ capacity q = 0 /\ pos q = 0;
  qo_ring : ring (items q) (capacity q) (pos q) l;
  qo_bad_count : bad_count q = zlen bad /\ zlen bad <= RTP_SEQUENTIAL;
  qo_bad_len : zlen (bad_items q) = 4;
  qo_bad : take (length bad) (bad_items q) = map Some bad
}.

(** Only the ring changed. *)
Definition ring_only (q q' : rtp_queue_t P) : Prop :=
  q' = set_ring q (items q') (capacity q') (size q') (pos q').

(** Whether [rtp_queue_insert] finds or gets room for one more item. *)
Definition has_room `{Alloc} (q : rtp_queue_t P) : bool :=
  (size q <? capacity q)
  || ((size q + 1 <=? MAX_PACKET) && alloc_ok ((capacity q + 250) * 8)).

Lemma queue_ok_congr q q' l bad :
  queue_ok q l bad ->
  items q' = items q -> capacity q' = capacity q -> size q' = size q -> pos q' = pos q ->
  bad_count q' = bad_count q -> bad_items q' = bad_items q -> queue_ok q' l bad.
Proof. intros [] E1 E2 E3 E4 E5 E6. constructor; by rewrite ?E1, ?E2, ?E3, ?E4, ?E5, ?E6. Qed.

Lemma item_at_ok q l bad k p :
  queue_ok q l bad -> l !! k = Some p -> item_at q (pos q + Z.of_nat k) = Ret p.
Proof.
  intros Hq Hk. pose proof (lookup_lt_Some _ _ _ Hk). pose proof (qo_size _ _ _ Hq).
  unfold item_at, cmod. unfold zlen in *. zif. cbn [obind].
  rewrite (rd_slot (items q) (capacity q) (pos q) _ (Some p)); [done|lia|].
  by apply (qo_ring _ _ _ Hq).
Qed.

Lemma item_at_pos q l bad p :
  queue_ok q l bad -> l !! 0%nat = Some p -> rd (items q) (pos q) = Ret (Some p).
Proof.
  intros Hq Hk. pose proof (lookup_lt_Some _ _ _ Hk). pose proof (qo_size _ _ _ Hq).
  pose proof (qo_pos _ _ _ Hq). unfold zlen in *.
  rewrite <- (rd_slot (items q) (capacity q) (pos q) 0 (Some p)).
  - by rewrite Z.add_0_r, Z.mod_small by lia.
  - lia.
  - by apply (qo_ring _ _ _ Hq 0%nat).
Qed.

Lemma ring_append (its : list (option P)) cap ps l :
  zlen its = cap -> 0 <= ps < cap \/ cap = 0 /\ ps = 0 -> ps + zlen l <= cap ->
  ring its cap ps l -> ring (its ++ replicate 250 None) (cap + 250) ps l.
Proof.
  intros Hl Hps Hfit Hr k p Hk. pose proof (lookup_lt_Some _ _ _ Hk). unfold zlen in *.
  specialize (Hr k p Hk). unfold slot in *.
  rewrite Z.mod_small in Hr |- * by lia. rewrite lookup_app_l by lia. done.
Qed.

Lemma ring_unwrap (its : list (option P)) cap ps l :
  zlen its = cap -> 0 <= ps < cap -> zlen l <= cap ->
  ring its cap ps l ->
  exists tl its', rdn (its ++ replicate 250 None) ps (cap - ps) = Ret tl /\
    wrn (its ++ replicate 250 None) (ps + (cap + 250) - cap) tl = Ret its' /\
    zlen its' = cap + 250 /\ ring its' (cap + 250) (ps + (cap + 250 - cap)) l.
Proof.
  intros Hl Hps Hll Hr.
  assert (Hs : its ++ replicate 250 None
               = take (Z.to_nat ps) its ++ drop (Z.to_nat ps) its ++ replicate 250 None)
    by (by rewrite app_assoc, take_drop).
  exists (drop (Z.to_nat ps) its). eexists. split; [rewrite Hs; apply rdn_app; zlia|].
  split; [|split].
  - unfold wrn. replace (_ && _) with true by (symmetry; cbool; zlia). done.
  - unfold zlen in *. repeat rewrite ?length_app, ?length_take, ?length_drop, ?length_replicate. lia.
  - intros k p Hk. pose proof (lookup_lt_Some _ _ _ Hk). specialize (Hr k p Hk).
    unfold slot, zlen in *.
    rewrite mod_wrap in Hr |- * by lia.
    destruct (Z.ltb_spec (ps + Z.of_nat k) cap).
    + rewrite (proj2 (Z.ltb_lt _ _)) by lia.
      rewrite lookup_app_r by (rewrite length_take, length_app, length_replicate; lia).
      rewrite length_take, length_app, length_replicate.
      rewrite lookup_app_l by (rewrite length_drop; lia).
      rewrite lookup_drop. rewrite <- Hr. f_equal. lia.
    + rewrite (proj2 (Z.ltb_ge _ _)) by lia.
      rewrite lookup_app_l by (rewrite length_take, length_app, length_replicate; lia).
      rewrite lookup_take_lt, lookup_app_l by lia. rewrite <- Hr. f_equal. lia.
Qed.

Context `{Alloc} `{Build}.

Lemma grow_spec q l bad position :
  queue_ok q l bad ->
  if has_room q then
    exists q' d, rtp_queue_grow q position = Ret (0, q', position + d) /\
      queue_ok q' l bad /\ size q' < capacity q' /\ pos q' = pos q + d /\ ring_only q q'
  else exists r, r < 0 /\ rtp_queue_grow q position = Ret (r, q, position).
Proof.
  intros Hq. unfold has_room, rtp_queue_grow.
  pose proof (qo_cap _ _ _ Hq) as [Hcap Hmod]. pose proof (qo_size _ _ _ Hq) as [Hs Hsc].
  pose proof (qo_items _ _ _ Hq). pose proof (qo_pos _ _ _ Hq) as Hpos.
  pose proof (zlen_nonneg l). unfold MAX_PACKET in *.
  destruct (Z.ltb_spec (size q) (capacity q)) as [Hlt|Hge].
  { cbn [orb]. replace (capacity q <=? size q) with false by (symmetry; cbool; lia).
    exists q, 0. rewrite !Z.add_0_r. split_and!; try done.
    unfold ring_only. by destruct q. }
  cbn [orb]. replace (capacity q <=? size q) with true by (symmetry; cbool; lia).
  destruct (Z.leb_spec (size q + 1) 3000); cbn [andb]; [|zif; by exists (-7)].
  zif. destruct (alloc_ok _); cbn [negb]; [|by exists (-12)].
  destruct (Z.ltb_spec (capacity q) (pos q + size q)) as [Hwrap|Hflat].
  - destruct (ring_unwrap (items q) (capacity q) (pos q) l)
      as (tl & its' & -> & Ew & Hl' & Hr'); [done|lia|lia|apply Hq|].
    unfold c_assert. zif. cbn [orb obind]. rewrite Ew. cbn [obind].
    eexists _, (capacity q + 250 - capacity q). split; [done|]. unfold ring_only, set_ring; simpl.
    split_and!; try lia; [|done].
    destruct Hq. constructor; simpl; try done; unfold MAX_PACKET; lia.
  - eexists _, 0. rewrite !Z.add_0_r. split; [done|]. unfold ring_only, set_ring; simpl.
    split_and!; try lia; [|done].
    destruct Hq. constructor; simpl; try done; unfold MAX_PACKET; try zlia.
    apply ring_append; [done|done|lia|done].
Qed.

Lemma insert_spec q l bad k pkt :
  queue_ok q l bad -> (k <= length l)%nat ->
  if has_room q then
    exists q', rtp_queue_insert q (pos q + Z.of_nat k) pkt = Ret (1, q') /\
      queue_ok q' (take k l ++ pkt :: drop k l) bad /\ ring_only q q'
  else exists r, r < 0 /\ rtp_queue_insert q (pos q + Z.of_nat k) pkt = Ret (r, q).
Proof.
  intros Hq Hk. pose proof (qo_size _ _ _ Hq) as [Hs Hsc].
  unfold rtp_queue_insert, c_assert. unfold zlen in Hs.
  replace (_ && _) with true by (symmetry; cbool; lia). cbn [orb obind].
  pose proof (grow_spec q l bad (pos q + Z.of_nat k) Hq) as Hg. destruct (has_room q).
  - destruct Hg as (q' & d & -> & Hq' & Hlt & Hps & Hro). cbn [obind].
    change (0 <? 0) with false. cbv iota.
    pose proof (qo_size _ _ _ Hq') as [Hs' _]. pose proof (qo_pos _ _ _ Hq').
    pose proof (zlen_nonneg l).
    destruct (ring_insert (items q') (capacity q') (pos q') l k pkt)
      as (its' & Em & its'' & Ew & Hl'' & Hr''); [lia|apply Hq'|lia|apply Hq'|done|].
    replace (Z.to_nat _) with (length l - k)%nat by (unfold zlen in *; lia).
    rewrite Hs', Em. unfold cmod. cbn [obind]. zif. cbn [obind].
    replace (pos q + Z.of_nat k + d) with (pos q' + Z.of_nat k) by lia.
    rewrite Ew. cbn [obind]. eexists. split; [done|]. split.
    + destruct Hq'. constructor; simpl; try done.
      rewrite zlen_app, zlen_cons, zlen_take, zlen_drop. unfold zlen in *. lia.
    + unfold ring_only in *. rewrite Hro at 1. done.
  - destruct Hg as (r & Hr & ->). cbn [obind]. zif. by exists r.
Qed.
End Spec.

(** ** The binary search *)
Section Find.
Context {P : Type} `{RtpPointer P}.
Implicit Types (q : rtp_queue_t P) (l : list P).

(** How far a packet is behind the newest one. *)
Definition dist (last : Z) (p : P) : Z := u16 (last - u16 (pseq p)).

(** The queue order: distances to the newest strictly decrease. *)
Definition ordered (last : Z) (l : list P) : Prop :=
  forall i j a b, (i < j)%nat -> l !! i = Some a -> l !! j = Some b -> dist last b < dist last a.

(** Linear insertion by distance; [None] for a duplicate. *)
Fixpoint insert_desc (last v : Z) (pkt : P) (l : list P) : option (list P) :=
  match l with
  | [] => Some [pkt]
  | p :: l' =>
      if dist last p =? v then None
      else if v <? dist last p then cons p <$> insert_desc last v pkt l'
      else Some (pkt :: p :: l')
  end.

Lemma ordered_tail last p l : ordered last (p :: l) -> ordered last l.
Proof. intros Ho i j a b Hij Ha Hb. by apply (Ho (S i) (S j) a b); [lia| |]. Qed.

Lemma insert_desc_dup last v pkt l k p :
  ordered last l -> l !! k = Some p -> dist last p = v -> insert_desc last v pkt l = None.
Proof.
  revert k. induction l as [|p0 l IH]; intros k Ho Hk Hv; [done|].
  simpl. destruct (Z.eqb_spec (dist last p0) v); [done|].
  destruct k as [|k]; simpl in Hk; [congruence|].
  assert (dist last p < dist last p0) by (apply (Ho 0%nat (S k)); [lia|done..]). zif.
  by rewrite (IH k) by eauto using ordered_tail.
Qed.

Lemma insert_desc_at last v pkt l k :
  (k <= length l)%nat ->
  (forall i p, (i < k)%nat -> l !! i = Some p -> v < dist last p) ->
  (forall i p, (k <= i)%nat -> l !! i = Some p -> dist last p < v) ->
  insert_desc last v pkt l = Some (take k l ++ pkt :: drop k l).
Proof.
  revert k. induction l as [|p0 l IH]; intros k Hk Hlo Hhi; simpl in *.
  { by replace k with 0%nat by lia. }
  destruct k as [|k].
  - specialize (Hhi 0%nat p0 ltac:(lia) eq_refl). do 2 zif. done.
  - specialize (Hlo 0%nat p0 ltac:(lia) eq_refl) as Hp0. do 2 zif.
    rewrite (IH k); [done|lia| |].
    + intros i p ? ?. by apply (Hlo (S i)); [lia|].
    + intros i p ? ?. by apply (Hhi (S i)); [lia|].
Qed.

Context `{Build}.

Lemma find_loop_spec fuel q l bad v lo hi :
  queue_ok q l bad -> ordered (last_seq q) l -> (lo <= hi <= length l)%nat ->
  (hi - lo < fuel)%nat ->
  (forall i p, (i < lo)%nat -> l !! i = Some p -> v < dist (last_seq q) p) ->
  (forall i p, (hi <= i)%nat -> l !! i = Some p -> dist (last_seq q) p < v) ->
  (find_loop fuel q v (pos q + Z.of_nat lo) (pos q + Z.of_nat hi) = Ret (-1) /\
   exists k p, l !! k = Some p /\ dist (last_seq q) p = v) \/
  exists k, (k <= length l)%nat /\
    find_loop fuel q v (pos q + Z.of_nat lo) (pos q + Z.of_nat hi) = Ret (pos q + Z.of_nat k) /\
    (forall i p, (i < k)%nat -> l !! i = Some p -> v < dist (last_seq q) p) /\
    (forall i p, (k <= i)%nat -> l !! i = Some p -> dist (last_seq q) p < v).
Proof.
  intros Hq Ho. revert lo hi. induction fuel as [|fuel IH]; intros lo hi Hb Hf Hlo Hhi; [lia|].
  cbn [find_loop]. destruct (Z.ltb_spec (pos q + Z.of_nat lo) (pos q + Z.of_nat hi)).
  2: { right. exists lo. assert (lo = hi) as -> by lia. split_and!; try done; lia. }
  assert (exists m, (lo <= m < hi)%nat /\
            (pos q + Z.of_nat lo + (pos q + Z.of_nat hi)) / 2 = pos q + Z.of_nat m)
    as (m & Hm & ->).
  { exists (Z.to_nat ((pos q + Z.of_nat lo + (pos q + Z.of_nat hi)) / 2 - pos q)).
    pose proof (qo_pos _ _ _ Hq). lia. }
  destruct (lookup_lt_is_Some_2 l m) as [p Hp]; [lia|].
  rewrite (item_at_ok q l bad m p) by done. cbn [obind]. fold (dist (last_seq q) p).
  destruct (Z.eqb_spec (dist (last_seq q) p) v) as [E|E]; [left; by eauto|].
  destruct (Z.ltb_spec (dist (last_seq q) p) v).
  - apply IH; try done; try lia. intros i p' Hi Hp'.
    destruct (decide (i = m)) as [->|]; [by simplify_eq|].
    enough (dist (last_seq q) p' < dist (last_seq q) p) by lia. by apply (Ho m i); [lia| |].
  - unfold c_assert. zif. cbn [orb obind].
    replace (pos q + Z.of_nat m + 1) with (pos q + Z.of_nat (S m)) by lia.
    apply IH; try done; try lia. intros i p' Hi Hp'.
    destruct (decide (i = m)) as [->|]; [simplify_eq; lia|].
    enough (dist (last_seq q) p < dist (last_seq q) p') by lia. by apply (Ho i m); [lia| |].
Qed.

(** [rtp_queue_find] ends within its fuel and finds what linear search finds. *)
Lemma find_spec q l bad sq pkt :
  queue_ok q l bad -> ordered (last_seq q) l ->
  match insert_desc (last_seq q) (u16 (last_seq q - sq)) pkt l with
  | None => rtp_queue_find q sq = Ret (-1)
  | Some l' => exists k, (k <= length l)%nat /\
      rtp_queue_find q sq = Ret (pos q + Z.of_nat k) /\ l' = take k l ++ pkt :: drop k l
  end.
Proof.
  intros Hq Ho. pose proof (qo_size _ _ _ Hq) as [Hs _]. unfold rtp_queue_find, zlen in *.
  destruct (find_loop_spec (S (Z.to_nat (size q))) q l bad (u16 (last_seq q - sq)) 0 (length l))
    as [[E (k & p & Hk & Hd)]|(k & Hk & E & Hlo & Hhi)]; try done; try lia.
  { intros i p Hi Hp. apply lookup_lt_Some in Hp. lia. }
  - rewrite Hs in *. rewrite Z.add_0_r in E. by rewrite (insert_desc_dup _ _ _ _ k p) by done.
  - rewrite Hs in *. rewrite Z.add_0_r in E. rewrite (insert_desc_at _ _ _ _ k) by done. eauto.
Qed.
End Find.

(** ** The queue as an abstract state machine *)
Section Model.
Context {P : Type} `{RtpPointer P}.
Implicit Types (q : rtp_queue_t P) (l bad : list P).

(** [m_new]: no packet was written yet. *)
Record model := mk_model {
  m_new : bool;
  m_list : list P;
  m_bad : list P;
  m_first : Z;
  m_last : Z;
  m_badseq : Z;
  m_freed : list P
}.

(** What [rtp_queue_write] promises, on sequences: the return code and the
    new state. *)
Definition spec_park (m : model) (pkt : P) : Z * model :=
  (1, mk_model (m_new m) (m_list m) (m_bad m ++ [pkt]) (m_first m) (m_last m)
        ((pseq pkt + 1) mod 65535) (m_freed m)).

Definition spec_drop_bad (m : model) : model :=
  mk_model (m_new m) (m_list m) [] (m_first m) (m_last m) 0 (m_freed m ++ m_bad m).

Definition spec_store (m : model) (l : list P) (last : Z) : model :=
  mk_model false l [] (m_first m) last 0 (m_freed m ++ m_bad m).

Definition spec_write (m : model) (pkt : P) : Z * model :=
  let s := pseq pkt in
  let delta := u16 (s - m_last m) in
  if m_new m then (1, mk_model false [pkt] [] s s (m_badseq m) (m_freed m))
  else if (0 <? delta) && (delta <? RTP_DROPOUT) then
    (1, spec_store m (m_list m ++ [pkt]) s)
  else if (s16 delta <=? 0) && (s16 (m_first m - m_last m) <=? s16 delta) then
    match insert_desc (m_last m) (u16 (m_last m - s)) pkt (m_list m) with
    | None => (-1, m)
    | Some l => (1, spec_store m l (m_last m))
    end
  else if u16 (m_first m - s) <? RTP_MISORDER then (-1, m)
  else if negb (bool_decide (length (m_bad m) = 0%nat)) && (m_badseq m =? s) then
    if bool_decide (3 <= length (m_bad m))%nat then
      (1, mk_model false (m_list m ++ m_bad m ++ [pkt]) [] (m_first m) s (m_badseq m) (m_freed m))
    else spec_park m pkt
  else spec_park (spec_drop_bad m) pkt.

Definition spec_pop (m : model) (first : Z) : model :=
  mk_model (m_new m) (tail (m_list m)) (m_bad m) first (m_last m) (m_badseq m) (m_freed m).

(** [q] implements [m]. *)
Record represents (q : rtp_queue_t P) (m : model) : Prop := {
  rep_ok : queue_ok q (m_list m) (m_bad m);
  rep_probation : probation q = if m_new m then 1 else 0;
  rep_new : m_new m = true -> m_list m = [] /\ m_bad m = [];
  rep_first : first_seq q = m_first m;
  rep_last : last_seq q = m_last m;
  rep_badseq : bad_seq q = m_badseq m;
  rep_freed : freed q = m_freed m
}.

Definition log_freed q (ps : list P) : rtp_queue_t P :=
  mk_queue (items q) (capacity q) (size q) (pos q) (probation q) (cycles q) (last_seq q)
    (first_seq q) (bad_count q) (bad_seq q) (bad_items q) (threshold q) (frequency q)
    (freed q ++ ps).

Lemma free_bad_spec pre mid rest q :
  bad_items q = map Some pre ++ map Some mid ++ rest ->
  free_bad (length mid) (zlen pre) q = Ret (log_freed q mid).
Proof.
  revert pre q. induction mid as [|p mid IH]; intros pre q Hb.
  { cbn. unfold log_freed. rewrite app_nil_r. by destruct q. }
  cbn [length free_bad]. rewrite Hb. cbn [map app].
  rewrite rd_last by (unfold zlen; by rewrite length_map). cbn [obind deref].
  specialize (IH (pre ++ [p]) (add_freed q p)).
  rewrite map_app, <- app_assoc in IH. cbn [map app] in IH.
  rewrite zlen_app in IH. change (zlen [p]) with 1 in IH. rewrite IH by done.
  unfold log_freed, add_freed. cbn. by rewrite <- app_assoc.
Qed.

Lemma reset_bad_spec q l bad :
  queue_ok q l bad ->
  rtp_queue_reset_bad_items q = Ret (set_bad (log_freed q bad) 0 0 (bad_items q)) /\
  queue_ok (set_bad (log_freed q bad) 0 0 (bad_items q)) l [].
Proof.
  intros Hq. pose proof (qo_bad_count _ _ _ Hq) as [Hc _].
  unfold rtp_queue_reset_bad_items. split.
  - rewrite Hc. unfold zlen. rewrite Nat2Z.id.
    pose proof (free_bad_spec [] bad (drop (length bad) (bad_items q)) q) as E.
    change (zlen []) with 0 in E. rewrite E; [done|].
    rewrite <- (qo_bad _ _ _ Hq). cbn [map app]. by rewrite take_drop.
  - destruct Hq. by constructor.
Qed.

Lemma free_items_spec n q l bad k :
  queue_ok q l bad -> (k + n = length l)%nat ->
  free_items n (Z.of_nat k) q = Ret (log_freed q (drop k l)).
Proof.
  revert k q. induction n as [|n IH]; intros k q Hq Hn.
  { cbn. rewrite drop_ge by lia. unfold log_freed. rewrite app_nil_r. by destruct q. }
  destruct (lookup_lt_is_Some_2 l k) as [p Hp]; [lia|].
  cbn [free_items]. rewrite (item_at_ok q l bad k p) by done. cbn [obind].
  replace (Z.of_nat k + 1) with (Z.of_nat (S k)) by lia.
  rewrite IH; [|by eapply queue_ok_congr|lia].
  rewrite (drop_S _ _ _ Hp). unfold log_freed, add_freed. cbn. by rewrite <- app_assoc.
Qed.

Lemma reset_spec q l bad :
  queue_ok q l bad ->
  exists q', rtp_queue_reset q = Ret q' /\ queue_ok q' [] [] /\ freed q' = freed q ++ bad ++ l.
Proof.
  intros Hq. destruct (reset_bad_spec _ _ _ Hq) as [E Hq1].
  unfold rtp_queue_reset. rewrite E. cbn [obind].
  set (q1 := set_bad _ _ _ _) in *. assert (Hf : freed q1 = freed q ++ bad) by done.
  clearbody q1. pose proof (qo_size _ _ _ Hq1) as [Hs _]. unfold zlen in Hs. rewrite Hs, Nat2Z.id.
  rewrite (free_items_spec _ q1 l [] 0) by done. cbn [obind drop].
  eexists. split; [done|]. split; [|cbn; by rewrite Hf, <- app_assoc].
  pose proof (qo_cap _ _ _ Hq1). pose proof (qo_items _ _ _ Hq1).
  pose proof (qo_bad_len _ _ _ Hq1). pose proof (qo_bad_count _ _ _ Hq1).
  rewrite ?zlen_nil in *.
  constructor; cbn; try done; unfold zlen, RTP_SEQUENTIAL, MAX_PACKET in *; simpl in *; lia.
Qed.

Lemma create_spec thr freq : exists q,
  rtp_queue_create thr freq = Ret q /\ represents q (mk_model true [] [] 0 0 0 []) /\
  threshold q = thr /\ frequency q = freq.
Proof.
  eexists. split; [reflexivity|]. split; [|done].
  constructor; try done. constructor; cbn; unfold MAX_PACKET, RTP_SEQUENTIAL; try done; lia.
Qed.
End Model.
Arguments model : clear implicits.

(** ** [rtp_queue_write] and [rtp_queue_read] implement the model *)
Section Refinement.
Context {P : Type} `{RtpPointer P} `{Alloc} `{Build}.
Implicit Types (q : rtp_queue_t P) (l bad : list P).

(** Room for [n] more packets: below the limit of 3000, and the allocator
    grants what the queue asks. *)
Definition roomy (n : Z) (q : rtp_queue_t P) : Prop :=
  size q + n <= MAX_PACKET /\ forall b, alloc_ok b = true.

Lemma roomy_has_room n q : 1 <= n -> roomy n q -> has_room q = true.
Proof. intros ? [? Ha]. unfold has_room. rewrite Ha. cbool. right. split; [lia|done]. Qed.

Lemma ring_only_fields q q' : ring_only q q' ->
  probation q' = probation q /\ last_seq q' = last_seq q /\ first_seq q' = first_seq q /\
  bad_count q' = bad_count q /\ bad_seq q' = bad_seq q /\ bad_items q' = bad_items q /\
  freed q' = freed q.
Proof. intros E. rewrite E. done. Qed.

Lemma ring_only_trans q1 q2 q3 : ring_only q1 q2 -> ring_only q2 q3 -> ring_only q1 q3.
Proof. unfold ring_only. intros E1 E2. rewrite E2, E1. done. Qed.

Lemma append_spec q l bad pkt :
  queue_ok q l bad -> roomy 1 q ->
  exists q', rtp_queue_insert q (pos q + size q) pkt = Ret (1, q') /\
    queue_ok q' (l ++ [pkt]) bad /\ ring_only q q'.
Proof.
  intros Hq Hr. pose proof (insert_spec q l bad (length l) pkt Hq ltac:(lia)) as Hi.
  rewrite (roomy_has_room 1) in Hi by (done || lia).
  rewrite take_ge, drop_ge in Hi by lia.
  by rewrite (proj1 (qo_size _ _ _ Hq)).
Qed.

Lemma insert_bad_spec pre mid rest q l :
  queue_ok q l (pre ++ mid) -> bad_items q = map Some pre ++ map Some mid ++ rest ->
  roomy (zlen mid) q ->
  exists q', insert_bad (length mid) (zlen pre) q = Ret q' /\
    queue_ok q' (l ++ mid) (pre ++ mid) /\ ring_only q q'.
Proof.
  revert pre q l. induction mid as [|p mid IH]; intros pre q l Hq Hb Hr.
  { exists q. rewrite app_nil_r. split_and!; try done. unfold ring_only. by destruct q. }
  rewrite zlen_cons in Hr. destruct Hr as [Hr Ha]. pose proof (zlen_nonneg mid).
  cbn [length insert_bad]. rewrite Hb. cbn [map app].
  rewrite rd_last by (unfold zlen; by rewrite length_map). cbn [obind deref].
  destruct (append_spec q l (pre ++ p :: mid) p) as (q1 & -> & Hq1 & Hro1);
    [done|split; [lia|done]|].
  cbn [obind]. destruct (ring_only_fields _ _ Hro1) as (_ & _ & _ & _ & _ & Hbi & _).
  replace (zlen pre + 1) with (zlen (pre ++ [p])) by zlia.
  destruct (IH (pre ++ [p]) q1 (l ++ [p])) as (q' & -> & Hq' & Hro').
  - by rewrite <- app_assoc.
  - by rewrite Hbi, Hb, map_app, <- app_assoc.
  - split; [|done]. rewrite (proj1 (qo_size _ _ _ Hq1)), zlen_app.
    change (zlen [p]) with 1. rewrite (proj1 (qo_size _ _ _ Hq)) in Hr. lia.
  - rewrite <- !app_assoc in Hq'. eauto using ring_only_trans.
Qed.

Lemma resync_spec q l bad pkt :
  queue_ok q l bad -> roomy 4 q ->
  exists q', write_resync q pkt = Ret (1, q') /\ queue_ok q' (l ++ bad ++ [pkt]) [] /\
    probation q' = probation q /\ last_seq q' = u16 (pseq pkt) /\ first_seq q' = first_seq q /\
    bad_seq q' = bad_seq q /\ freed q' = freed q.
Proof.
  intros Hq [Hr Ha]. pose proof (qo_bad_count _ _ _ Hq) as [Hc Hb3]. unfold RTP_SEQUENTIAL in *.
  unfold write_resync.
  destruct (insert_bad_spec [] bad (drop (length bad) (bad_items q)) q l)
    as (q1 & E & Hq1 & Hro); [done| |split; [lia|done]|].
  { rewrite <- (qo_bad _ _ _ Hq). cbn [map app]. by rewrite take_drop. }
  rewrite Hc. replace (Z.to_nat (zlen bad)) with (length bad) by (unfold zlen; lia).
  change (zlen []) with 0 in E. rewrite E. cbn [obind app]. clear E.
  destruct (ring_only_fields _ _ Hro) as (Hp & _ & Hf & _ & Hbs & _ & Hfr).
  set (q2 := set_last_seq _ _). assert (Hq2 : queue_ok q2 (l ++ bad) []).
  { destruct Hq1. by constructor. }
  destruct (append_spec q2 (l ++ bad) [] pkt) as (q' & -> & Hq' & Hro'); [done| |].
  { split; [|done]. rewrite (proj1 (qo_size _ _ _ Hq2)), zlen_app.
    rewrite (proj1 (qo_size _ _ _ Hq)) in Hr. lia. }
  exists q'. destruct (ring_only_fields _ _ Hro') as (-> & -> & -> & _ & -> & _ & ->).
  rewrite <- app_assoc in Hq'. unfold q2. cbn. by rewrite Hp, Hf, Hbs, Hfr.
Qed.

Lemma park_spec q l bad pkt :
  queue_ok q l bad -> zlen bad < 3 ->
  exists its, write_park q pkt = Ret (1, set_bad q (bad_count q + 1) ((pseq pkt + 1) mod 65535) its) /\
    queue_ok (set_bad q (bad_count q + 1) ((pseq pkt + 1) mod 65535) its) l (bad ++ [pkt]).
Proof.
  intros Hq Hb. pose proof (qo_bad_count _ _ _ Hq) as [Hc _]. pose proof (qo_bad_len _ _ _ Hq).
  unfold write_park. pose proof (zlen_nonneg bad). rewrite wrn_single by lia. cbn [obind].
  eexists. split; [done|]. pose proof (qo_bad _ _ _ Hq) as Hbi.
  destruct Hq. constructor; cbn; try done; unfold RTP_SEQUENTIAL.
  - rewrite zlen_app. change (zlen [pkt]) with 1. lia.
  - unfold zlen in *. by rewrite length_insert.
  - rewrite Hc, length_app, map_app. unfold zlen in *. rewrite Nat2Z.id. simpl.
    rewrite insert_take_drop by lia. rewrite Hbi. rewrite take_app_ge by (rewrite length_map; lia).
    rewrite length_map. by replace (length bad + 1 - length bad)%nat with 1%nat by lia.
Qed.

Lemma store_represents q q' m l last :
  represents q m -> m_new m = false -> queue_ok q' l [] ->
  probation q' = probation q -> first_seq q' = first_seq q -> last_seq q' = last ->
  bad_seq q' = 0 -> freed q' = freed q ++ m_bad m ->
  represents q' (spec_store m l last).
Proof.
  intros Hm Hn Hq Hp Hf Hl Hbs Hfr. destruct Hm. rewrite Hn in *.
  constructor; cbn; try done; congruence.
Qed.

(** Dropping the parked packets, then appending. *)
Lemma inorder_refines q m pkt :
  represents q m -> m_new m = false -> is_u16 (pseq pkt) -> roomy 4 q ->
  exists q', (do q <- rtp_queue_reset_bad_items q ;;
              let q := set_last_seq q (u16 (pseq pkt)) in
              rtp_queue_insert q (pos q + size q) pkt) = Ret (1, q') /\
    represents q' (spec_store m (m_list m ++ [pkt]) (pseq pkt)).
Proof.
  intros Hm Hn Hs [Hr Ha]. destruct (reset_bad_spec _ _ _ (rep_ok _ _ Hm)) as [-> Hq1].
  cbn [obind]. cbv zeta. set (q1 := set_last_seq _ _).
  assert (Hq2 : queue_ok q1 (m_list m) []) by (destruct Hq1; by constructor).
  destruct (append_spec q1 (m_list m) [] pkt) as (q' & -> & Hq' & Hro); [done| |].
  { split; [|done]. pose proof (proj1 (qo_size _ _ _ (rep_ok _ _ Hm))).
    pose proof (proj1 (qo_size _ _ _ Hq2)). lia. }
  exists q'. split; [done|].
  destruct (ring_only_fields _ _ Hro) as (Ep & El & Ef & _ & Ebs & _ & Efr).
  eapply store_represents; [exact Hm|done|done|..]; rewrite ?Ep, ?El, ?Ef, ?Ebs, ?Efr; try done.
  cbn. unfold u16, is_u16 in *. apply Z.mod_small. lia.
Qed.

Lemma reorder_refines q m pkt k :
  represents q m -> m_new m = false -> (k <= length (m_list m))%nat -> roomy 4 q ->
  exists q', (do q1 <- rtp_queue_reset_bad_items q ;;
              rtp_queue_insert q1 (pos q + Z.of_nat k) pkt) = Ret (1, q') /\
    represents q' (spec_store m (take k (m_list m) ++ pkt :: drop k (m_list m)) (m_last m)).
Proof.
  intros Hm Hn Hk [Hr Ha]. destruct (reset_bad_spec _ _ _ (rep_ok _ _ Hm)) as [-> Hq1].
  cbn [obind]. pose proof (insert_spec _ _ _ k pkt Hq1 Hk) as Hi.
  rewrite (roomy_has_room 1) in Hi; [|lia|split; [|done]; cbn in *; lia].
  destruct Hi as (q' & E & Hq' & Hro). cbn in E. rewrite E. exists q'. split; [done|].
  destruct (ring_only_fields _ _ Hro) as (Ep & El & Ef & _ & Ebs & _ & Efr).
  eapply store_represents; [exact Hm|done|done|..]; rewrite ?Ep, ?El, ?Ef, ?Ebs, ?Efr; try done.
  apply Hm.
Qed.

Lemma park_refines q m pkt :
  represents q m -> m_new m = false -> zlen (m_bad m) < 3 ->
  exists q', write_park q pkt = Ret (1, q') /\ represents q' (snd (spec_park m pkt)).
Proof.
  intros Hm Hn Hb. destruct (park_spec _ _ _ pkt (rep_ok _ _ Hm) Hb) as (its & E & Hq).
  eexists. split; [exact E|]. destruct Hm. rewrite Hn in *.
  by constructor; cbn; rewrite ?Hn.
Qed.

Lemma bad_refines q m pkt :
  represents q m -> m_new m = false -> is_u16 (pseq pkt) -> roomy 4 q ->
  let r := if negb (bool_decide (length (m_bad m) = 0%nat)) && (m_badseq m =? pseq pkt) then
      if bool_decide (3 <= length (m_bad m))%nat then
        (1, mk_model false (m_list m ++ m_bad m ++ [pkt]) [] (m_first m) (pseq pkt)
              (m_badseq m) (m_freed m))
      else spec_park m pkt
    else spec_park (spec_drop_bad m) pkt in
  exists q', write_bad q pkt = Ret (fst r, q') /\ represents q' (snd r).
Proof.
  intros Hm Hn Hs Hroom. pose proof (qo_bad_count _ _ _ (rep_ok _ _ Hm)) as [Hc Hb3].
  unfold write_bad. rewrite Hc, (rep_badseq _ _ Hm). unfold RTP_SEQUENTIAL in *. cbv zeta.
  replace (0 <? zlen (m_bad m)) with (negb (bool_decide (length (m_bad m) = 0%nat))).
  2: { unfold zlen. destruct (bool_decide_reflect (length (m_bad m) = 0%nat)); simpl; symmetry;
       cbool; lia. }
  destruct (negb _ && _) eqn:Eb.
  - replace (3 <=? zlen (m_bad m)) with (bool_decide (3 <= length (m_bad m))%nat).
    2: { unfold zlen. destruct (bool_decide_reflect (3 <= length (m_bad m))%nat); symmetry;
         cbool; lia. }
    destruct (bool_decide_reflect (3 <= length (m_bad m))%nat).
    + destruct (resync_spec q _ _ pkt (rep_ok _ _ Hm) Hroom)
        as (q' & -> & Hq' & Ep & El & Ef & Ebs & Efr).
      exists q'. split; [done|]. destruct Hm. rewrite Hn in *. constructor; cbn; try done;
        try congruence.
      rewrite El. unfold u16, is_u16 in *. apply Z.mod_small. lia.
    + destruct (park_refines q m pkt Hm Hn) as (q' & -> & Hq'); [unfold zlen; lia|]. by exists q'.
  - destruct (reset_bad_spec _ _ _ (rep_ok _ _ Hm)) as [-> Hq1]. cbn [obind].
    destruct (park_refines (set_bad (log_freed q (m_bad m)) 0 0 (bad_items q)) (spec_drop_bad m) pkt)
      as (q' & -> & Hq'); [|done|done|by exists q'].
    destruct Hm. rewrite Hn in *. constructor; cbn; rewrite ?Hn; try done. by f_equal.
Qed.

Lemma first_refines q m pkt :
  represents q m -> m_new m = true -> is_u16 (pseq pkt) -> roomy 4 q ->
  exists q', write_probation q pkt = Ret (1, q') /\
    represents q' (mk_model false [pkt] [] (pseq pkt) (pseq pkt) (m_badseq m) (m_freed m)).
Proof.
  intros Hm Hn Hs [Hr Ha]. destruct (rep_new _ _ Hm Hn) as [El Eb].
  pose proof (rep_ok _ _ Hm) as Hq. rewrite El, Eb in Hq.
  pose proof (proj1 (qo_size _ _ _ Hq)) as Hsz. change (zlen []) with 0 in Hsz.
  pose proof (rep_probation _ _ Hm) as Hp. rewrite Hn in Hp.
  unfold write_probation. rewrite Hsz, Hp. change (0 <? 0) with false. change (1 - 1) with 0.
  cbn [andb Z.eqb Pos.eqb obind]. cbv zeta.
  set (q1 := set_last_seq _ _).
  assert (Hq1 : queue_ok q1 [] []) by (destruct Hq; by constructor).
  destruct (append_spec q1 [] [] pkt) as (q' & E & Hq' & Hro); [done|split; [cbn; lia|done]|].
  assert (Ez : size q1 = 0) by done. rewrite Ez in *. rewrite E.
  exists q'. split; [done|].
  destruct (ring_only_fields _ _ Hro) as (Ep & Els & Ef & _ & Ebs & _ & Efr).
  assert (u16 (pseq pkt) = pseq pkt) by (unfold u16, is_u16 in *; apply Z.mod_small; lia).
  destruct Hm. constructor; cbn; rewrite ?Ep, ?Els, ?Ef, ?Ebs, ?Efr; try done.
Qed.

Lemma write_refines q m pkt :
  represents q m -> is_u16 (pseq pkt) -> roomy 4 q -> ordered (m_last m) (m_list m) ->
  exists q', rtp_queue_write q pkt = Ret (fst (spec_write m pkt), q') /\
    represents q' (snd (spec_write m pkt)).
Proof.
  intros Hm Hs Hroom Ho. pose proof (rep_probation _ _ Hm) as Hp.
  unfold rtp_queue_write, spec_write. rewrite (rep_last _ _ Hm), (rep_first _ _ Hm).
  destruct (m_new m) eqn:Hn.
  { rewrite Hp. by apply first_refines. }
  rewrite Hp. change (negb (0 =? 0)) with false. cbv iota zeta.
  destruct (_ && (_ <? RTP_DROPOUT)).
  { destruct (pseq pkt <? m_last m).
    - apply (inorder_refines (set_cycles q _)); [|done|done|exact Hroom].
      destruct Hm as [Hq]. constructor; try done. by destruct Hq; constructor.
    - by apply inorder_refines. }
  destruct (_ && _).
  { pose proof (find_spec q (m_list m) (m_bad m) (u16 (pseq pkt)) pkt (rep_ok _ _ Hm)) as Hf.
    rewrite (rep_last _ _ Hm) in Hf. specialize (Hf Ho).
    assert (Eu : u16 (pseq pkt) = pseq pkt) by (unfold u16, is_u16 in *; apply Z.mod_small; lia).
    rewrite Eu in *.
    destruct (insert_desc _ _ _ _) as [l|].
    - destruct Hf as (k & Hk & -> & ->). cbn [obind].
      replace (pos q + Z.of_nat k =? -1) with false
        by (symmetry; pose proof (qo_pos _ _ _ (rep_ok _ _ Hm)); cbool; lia).
      by apply reorder_refines.
    - rewrite Hf. cbn [obind]. by exists q. }
  destruct (_ <? RTP_MISORDER); [by exists q|].
  by apply bad_refines.
Qed.
End Refinement.
