(* ===== verification/RtpQueueProps.v ===== *)
(** Properties of the reorder queue: it implements its abstract machine, keeps
    its packets in order, neither leaks nor frees one twice; and what it does
    without a jitter buffer, the way the video receiver configures it. *)

From S2P Require Import Prelude RtpUtil RtpQueue RtpQueueSpec.

Section Read.
Context {P : Type} `{RtpPointer P}.
Implicit Types (q : rtp_queue_t P) (m : model P) (l : list P).

(** What [rtp_queue_read] promises for a threshold of [thr] milliseconds at
    [freq] Hz. *)
Definition spec_ms (freq : Z) (m : model P) (p : P) : Z :=
  let newest := default p (list.last (m_list m)) in
  let t := u32 (pts newest - pts p) in
  let t := if s32 t <? 0 then u32 (- s32 t) else t in
  u32 (u64 (t * 1000) / u64 freq).

Definition spec_read (thr freq : Z) (m : model P) : option P * model P :=
  match m_list m with
  | [] => (None, m)
  | p :: _ =>
      if m_new m then (None, m)
      else if (thr =? 0) || (m_first m =? pseq p) then
        (Some p, spec_pop m (u16 (m_first m + 1)))
      else if spec_ms freq m p <? u32 thr then (None, m)
      else (Some p, spec_pop m (u16 (pseq p + 1)))
  end.

Lemma ring_pop (its : list (option P)) cap ps p l :
  0 <= ps < cap -> zlen (p :: l) <= cap -> ring its cap ps (p :: l) ->
  ring its cap ((ps + 1) mod cap) l.
Proof.
  intros Hps Hl Hr k x Hk. specialize (Hr (S k) x Hk). rewrite zlen_cons in Hl.
  pose proof (lookup_lt_Some _ _ _ Hk). unfold slot, zlen in *.
  rewrite <- Hr. do 2 f_equal. rewrite Zplus_mod_idemp_l. f_equal. lia.
Qed.

Lemma pop_refines q m p l first :
  represents q m -> m_new m = false -> m_list m = p :: l ->
  exists q', pop q first = Ret q' /\ represents q' (spec_pop m first).
Proof.
  intros Hm Hn Hl. pose proof (rep_ok _ _ Hm) as Hq. rewrite Hl in Hq.
  pose proof (qo_size _ _ _ Hq) as [Hs Hsc]. pose proof (qo_pos _ _ _ Hq) as Hps.
  rewrite zlen_cons in *. pose proof (zlen_nonneg l).
  unfold pop, cmod. zif. cbn [obind]. eexists. split; [done|].
  pose proof (mod_range (pos q + 1) (capacity q)).
  pose proof (ring_pop (items q) (capacity q) (pos q) p l) as Hpop. rewrite zlen_cons in Hpop.
  specialize (Hpop ltac:(lia) ltac:(lia) (qo_ring _ _ _ Hq)).
  destruct Hm, Hq. unfold spec_pop. rewrite Hl, Hn in *.
  constructor; cbn; try done. constructor; cbn; try done; lia.
Qed.

Context `{Build}.

Lemma queued_ms_spec q m p l :
  represents q m -> m_list m = p :: l -> u64 (frequency q) <> 0 ->
  queued_ms q p = Ret (spec_ms (frequency q) m p).
Proof.
  intros Hm Hl Hf. pose proof (rep_ok _ _ Hm) as Hq. pose proof (qo_size _ _ _ Hq) as [Hs _].
  unfold queued_ms, spec_ms. rewrite last_lookup.
  destruct (lookup_lt_is_Some_2 (m_list m) (pred (length (m_list m)))) as [x Hx];
    [rewrite Hl; simpl; lia|].
  rewrite Hx. simpl default. unfold zlen in Hs.
  replace (pos q + size q - 1) with (pos q + Z.of_nat (pred (length (m_list m))))
    by (rewrite Hl in *; simpl in *; lia).
  rewrite (item_at_ok q _ _ _ x Hq Hx). cbn [obind]. by zif.
Qed.

Lemma read_refines q m :
  represents q m -> u64 (frequency q) <> 0 ->
  exists q', rtp_queue_read q = Ret (fst (spec_read (threshold q) (frequency q) m), q') /\
    represents q' (snd (spec_read (threshold q) (frequency q) m)).
Proof.
  intros Hm Hf. pose proof (rep_ok _ _ Hm) as Hq. pose proof (qo_size _ _ _ Hq) as [Hs _].
  unfold rtp_queue_read, spec_read. rewrite Hs, (rep_probation _ _ Hm).
  destruct (m_list m) as [|p l] eqn:Hl; [by exists q|].
  rewrite zlen_cons in *. pose proof (zlen_nonneg l). zif. cbn [orb].
  destruct (m_new m) eqn:Hn; [by exists q|]. change (negb (0 =? 0)) with false. cbv iota.
  pose proof (qo_pos _ _ _ Hq). pose proof (qo_size _ _ _ Hq) as [_ Hsc].
  rewrite zlen_cons in Hsc. unfold c_assert. zif. cbn [orb obind].
  rewrite (item_at_pos q _ _ p Hq) by done. cbn [obind deref]. rewrite (rep_first _ _ Hm).
  destruct (_ || _).
  { destruct (pop_refines q m p l (u16 (m_first m + 1)) Hm Hn Hl) as (q' & -> & Hq'). by exists q'. }
  rewrite (queued_ms_spec q m p l) by done. cbn [obind].
  destruct (_ <? _); [by exists q|].
  destruct (pop_refines q m p l (u16 (pseq p + 1)) Hm Hn Hl) as (q' & -> & Hq'). by exists q'.
Qed.
End Read.

Section Order.
Context {P : Type} `{RtpPointer P}.
Implicit Types l : list P.

Lemma insert_desc_perm last v (pkt : P) l l' :
  insert_desc last v pkt l = Some l' -> l' ≡ₚ pkt :: l.
Proof.
  revert l'. induction l as [|p l IH]; intros l'; simpl; [by intros [= <-]|].
  destruct (_ =? _); [done|]. destruct (_ <? _); [|by intros [= <-]].
  destruct (insert_desc last v pkt l) as [l1|]; simpl; [|done]. intros [= <-].
  rewrite (IH l1 eq_refl). constructor.
Qed.

Lemma ordered_cons last p l :
  (forall x, x ∈ l -> dist last x < dist last p) -> ordered last l -> ordered last (p :: l).
Proof.
  intros Hp Ho i j a b Hij Ha Hb. destruct j as [|j]; [lia|]. simpl in Hb.
  destruct i as [|i]; simpl in Ha.
  - simplify_eq. apply Hp. by eapply list_elem_of_lookup_2.
  - by apply (Ho i j); [lia| |].
Qed.

Lemma ordered_cons_inv last p l :
  ordered last (p :: l) -> (forall x, x ∈ l -> dist last x < dist last p) /\ ordered last l.
Proof.
  intros Ho. split; [|by eapply ordered_tail].
  intros x Hx. apply list_elem_of_lookup in Hx as [k Hk]. by apply (Ho 0%nat (S k)); [lia| |].
Qed.

Lemma insert_desc_ordered last (pkt : P) l l' :
  ordered last l -> insert_desc last (dist last pkt) pkt l = Some l' -> ordered last l'.
Proof.
  revert l'. induction l as [|p l IH]; intros l' Ho; simpl.
  { intros [= <-]. by apply ordered_cons; [intros x Hx; by apply not_elem_of_nil in Hx|]. }
  destruct (Z.eqb_spec (dist last p) (dist last pkt)); [done|].
  destruct (ordered_cons_inv _ _ _ Ho) as [Hp Hl].
  destruct (Z.ltb_spec (dist last pkt) (dist last p)).
  - destruct (insert_desc _ _ _ _) as [l1|] eqn:E; simpl; [|done]. intros [= <-].
    apply ordered_cons; [|by apply IH]. intros x Hx.
    rewrite (insert_desc_perm _ _ _ _ _ E) in Hx.
    apply elem_of_cons in Hx as [->|Hx]; [done|by apply Hp].
  - intros [= <-]. apply ordered_cons; [|done]. intros x Hx.
    apply elem_of_cons in Hx as [->|Hx]; [lia|]. specialize (Hp x Hx). lia.
Qed.

(** Moving the newest number forward by [d] moves every distance by [d]. *)
Lemma dist_shift last d (p : P) :
  0 <= d -> dist last p + d < 2 ^ 16 -> dist (u16 (last + d)) p = dist last p + d.
Proof. unfold dist, u16. intros. lia. Qed.

Lemma append_ordered last d (pkt : P) l :
  0 < d -> pseq pkt = u16 (last + d) -> ordered last l ->
  (forall p, p ∈ l -> dist last p + d < 2 ^ 16) ->
  ordered (pseq pkt) (l ++ [pkt]).
Proof.
  intros Hd Hs Ho Hb. induction l as [|p l IH]; simpl.
  { by apply ordered_cons; [intros x Hx; by apply not_elem_of_nil in Hx|]. }
  destruct (ordered_cons_inv _ _ _ Ho) as [Hp Hl].
  assert (Hbp := Hb p ltac:(by left)).
  apply ordered_cons; [|apply IH; [done|intros; apply Hb; by right]].
  intros x Hx. rewrite Hs, (dist_shift _ _ p) by (done || lia).
  apply elem_of_app in Hx as [Hx|Hx].
  - specialize (Hp x Hx). rewrite dist_shift by lia. lia.
  - apply list_elem_of_singleton in Hx as ->. unfold dist at 1. rewrite Hs.
    unfold dist, u16 in *. lia.
Qed.
End Order.

(** ** Safety under any allocator and any packets *)
Section Safety.
Context {P : Type} `{RtpPointer P} `{Alloc} `{Build}.
Implicit Types (q : rtp_queue_t P) (l bad : list P).

(** Every packet the queue holds or has freed. *)
Definition holdings q (l bad : list P) : list P := l ++ bad ++ freed q.

(** What a write may do: store the packet and return 1, or refuse it with a
    negative code; in both cases it keeps or frees no packet twice. *)
Definition write_ok q l bad (pkt : P) (r : Z) q' : Prop :=
  exists l' bad', queue_ok q' l' bad' /\
    (r = 1 /\ holdings q' l' bad' ⊆+ pkt :: holdings q l bad \/
     r < 0 /\ holdings q' l' bad' ⊆+ holdings q l bad).

Lemma insert_any q l bad k pkt :
  queue_ok q l bad -> (k <= length l)%nat ->
  exists r q', rtp_queue_insert q (pos q + Z.of_nat k) pkt = Ret (r, q') /\
    ring_only q q' /\
    (r = 1 /\ queue_ok q' (take k l ++ pkt :: drop k l) bad \/ r < 0 /\ q' = q).
Proof.
  intros Hq Hk. pose proof (insert_spec q l bad k pkt Hq Hk) as Hi. destruct (has_room q).
  - destruct Hi as (q' & E & Hq' & Hro). exists 1, q'. eauto.
  - destruct Hi as (r & Hr & E). exists r, q. split_and!; [done| |auto].
    unfold ring_only. by destruct q.
Qed.

Lemma holdings_insert q q' l bad k pkt :
  ring_only q q' -> holdings q' (take k l ++ pkt :: drop k l) bad ≡ₚ pkt :: holdings q l bad.
Proof.
  intros Hro. destruct (ring_only_fields _ _ Hro) as (_ & _ & _ & _ & _ & _ & Ef).
  unfold holdings. rewrite Ef. rewrite <- app_assoc. cbn [app].
  rewrite <- Permutation_middle. by rewrite app_assoc, take_drop.
Qed.

Lemma insert_write_ok q0 l0 bad0 q l bad k pkt :
  queue_ok q l bad -> (k <= length l)%nat -> holdings q l bad ⊆+ holdings q0 l0 bad0 ->
  exists r q', rtp_queue_insert q (pos q + Z.of_nat k) pkt = Ret (r, q') /\
    write_ok q0 l0 bad0 pkt r q'.
Proof.
  intros Hq Hk Hh. destruct (insert_any q l bad k pkt Hq Hk) as (r & q' & E & Hro & [[-> Hq']|[Hr ->]]).
  - exists 1, q'. split; [done|]. eexists _, _. split; [exact Hq'|]. left. split; [done|].
    rewrite holdings_insert by done. by constructor.
  - exists r, q. split; [done|]. exists l, bad. eauto.
Qed.

Lemma append_write_ok q0 l0 bad0 q l bad pkt :
  queue_ok q l bad -> holdings q l bad ⊆+ holdings q0 l0 bad0 ->
  exists r q', rtp_queue_insert q (pos q + size q) pkt = Ret (r, q') /\
    write_ok q0 l0 bad0 pkt r q'.
Proof.
  intros Hq Hh. rewrite (proj1 (qo_size _ _ _ Hq)).
  by apply (insert_write_ok _ _ _ q l bad (length l)).
Qed.

Lemma find_loop_any fuel q l bad v lo hi :
  queue_ok q l bad -> (lo <= hi <= length l)%nat -> (hi - lo < fuel)%nat ->
  find_loop fuel q v (pos q + Z.of_nat lo) (pos q + Z.of_nat hi) = Ret (-1) \/
  exists k, (k <= length l)%nat /\
    find_loop fuel q v (pos q + Z.of_nat lo) (pos q + Z.of_nat hi) = Ret (pos q + Z.of_nat k).
Proof.
  intros Hq. revert lo hi. induction fuel as [|fuel IH]; intros lo hi Hb Hf; [lia|].
  cbn [find_loop]. destruct (Z.ltb_spec (pos q + Z.of_nat lo) (pos q + Z.of_nat hi)).
  2: { right. exists lo. split; [lia|done]. }
  assert (exists m, (lo <= m < hi)%nat /\
            (pos q + Z.of_nat lo + (pos q + Z.of_nat hi)) / 2 = pos q + Z.of_nat m)
    as (m & Hm & ->).
  { exists (Z.to_nat ((pos q + Z.of_nat lo + (pos q + Z.of_nat hi)) / 2 - pos q)).
    pose proof (qo_pos _ _ _ Hq). lia. }
  destruct (lookup_lt_is_Some_2 l m) as [p Hp]; [lia|].
  rewrite (item_at_ok q l bad m p) by done. cbn [obind].
  destruct (Z.eqb_spec (u16 (last_seq q - u16 (pseq p))) v); [by left|].
  destruct (Z.ltb_spec (u16 (last_seq q - u16 (pseq p))) v); [apply IH; lia|].
  unfold c_assert. zif. cbn [orb obind].
  replace (pos q + Z.of_nat m + 1) with (pos q + Z.of_nat (S m)) by lia. apply IH; lia.
Qed.

Lemma insert_bad_any pre mid rest q l :
  queue_ok q l (pre ++ mid) -> bad_items q = map Some pre ++ map Some mid ++ rest ->
  exists q' l', insert_bad (length mid) (zlen pre) q = Ret q' /\
    queue_ok q' l' (pre ++ mid) /\ l' ⊆+ l ++ mid /\ ring_only q q'.
Proof.
  revert pre q l. induction mid as [|p mid IH]; intros pre q l Hq Hb.
  { exists q, l. rewrite !app_nil_r in *. split_and!; try done. unfold ring_only. by destruct q. }
  cbn [length insert_bad]. rewrite Hb. cbn [map app].
  rewrite rd_last by (unfold zlen; by rewrite length_map). cbn [obind deref].
  destruct (insert_any q l (pre ++ p :: mid) (length l) p Hq) as (r & q1 & E & Hro & Hc); [lia|].
  rewrite (proj1 (qo_size _ _ _ Hq)). unfold zlen at 1. rewrite E. cbn [obind]. clear E.
  replace (zlen pre + 1) with (zlen (pre ++ [p])) by zlia.
  assert (exists l1, queue_ok q1 l1 ((pre ++ [p]) ++ mid) /\ l1 ⊆+ l ++ [p]) as (l1 & Hq1 & Hl1).
  { rewrite <- app_assoc. destruct Hc as [[_ Hq1]|[_ ->]]; [|by exists l; split; [|apply submseteq_inserts_r]].
    rewrite take_ge, drop_ge in Hq1 by lia. eauto. }
  destruct (ring_only_fields _ _ Hro) as (_ & _ & _ & _ & _ & Hbi & _).
  destruct (IH (pre ++ [p]) q1 l1 Hq1) as (q' & l' & -> & Hq' & Hl' & Hro').
  { by rewrite Hbi, Hb, map_app, <- app_assoc. }
  exists q', l'. rewrite <- app_assoc in Hq'. split_and!; try done.
  - rewrite (cons_middle p l mid), app_assoc. etrans; [exact Hl'|by apply submseteq_skips_r].
  - by eapply ring_only_trans.
Qed.

Lemma resync_any q l bad pkt :
  queue_ok q l bad ->
  exists r q', write_resync q pkt = Ret (r, q') /\ write_ok q l bad pkt r q'.
Proof.
  intros Hq. pose proof (qo_bad_count _ _ _ Hq) as [Hc _]. unfold write_resync.
  destruct (insert_bad_any [] bad (drop (length bad) (bad_items q)) q l) as (q1 & l1 & E & Hq1 & Hl1 & Hro);
    [done| |].
  { rewrite <- (qo_bad _ _ _ Hq). cbn [map app]. by rewrite take_drop. }
  rewrite Hc. replace (Z.to_nat (zlen bad)) with (length bad) by (unfold zlen; lia).
  change (zlen []) with 0 in E. rewrite E. cbn [obind app] in *. cbv zeta.
  destruct (ring_only_fields _ _ Hro) as (_ & _ & _ & _ & _ & _ & Efr).
  apply (append_write_ok _ _ _ _ l1 []); [by destruct Hq1; constructor|].
  unfold holdings. cbn. rewrite Efr, !app_assoc. by apply submseteq_skips_r.
Qed.


Lemma park_any q0 l0 bad0 q l bad pkt :
  queue_ok q l bad -> zlen bad < 3 -> holdings q l bad ⊆+ holdings q0 l0 bad0 ->
  exists r q', write_park q pkt = Ret (r, q') /\ write_ok q0 l0 bad0 pkt r q'.
Proof.
  intros Hq Hb Hh. destruct (park_spec q l bad pkt Hq Hb) as (its & E & Hq').
  eexists _, _. split; [exact E|]. exists l, (bad ++ [pkt]). split; [done|]. left.
  split; [done|]. unfold holdings in *. cbn.
  transitivity (pkt :: l ++ bad ++ freed q); [|by constructor].
  apply Permutation_submseteq. solve_Permutation.
Qed.

Lemma drop_bad_any q l bad :
  queue_ok q l bad ->
  exists q', rtp_queue_reset_bad_items q = Ret q' /\ queue_ok q' l [] /\ pos q' = pos q /\
    holdings q' l [] ⊆+ holdings q l bad.
Proof.
  intros Hq. destruct (reset_bad_spec _ _ _ Hq) as [-> Hq1].
  eexists. split_and!; [done|done|done|]. unfold holdings. cbn.
  by rewrite (Permutation_app_comm (freed q) bad).
Qed.

Lemma probation_any q l bad pkt :
  queue_ok q l bad ->
  exists r q', write_probation q pkt = Ret (r, q') /\ write_ok q l bad pkt r q'.
Proof.
  intros Hq. pose proof (qo_size _ _ _ Hq) as [Hs _]. unfold write_probation. rewrite Hs.
  destruct ((0 <? zlen l) && _) eqn:Eb; [destruct l as [|p l]; [done|]|].
  { cbn [probation set_probation]. destruct (_ =? 0); cbn [obind items pos set_probation].
    - rewrite (item_at_pos q _ _ p Hq) by done. cbn [obind deref].
      apply (append_write_ok _ _ _ _ (p :: l) bad); [by destruct Hq; constructor|done].
    - apply (append_write_ok _ _ _ _ (p :: l) bad); [by destruct Hq; constructor|done]. }
  clear Eb. destruct (_ && _).
  { cbn [obind]. apply (append_write_ok _ _ _ _ l bad); [by destruct Hq; constructor|done]. }
  destruct (reset_spec q l bad Hq) as (q1 & -> & Hq1 & Ef). cbn [obind].
  apply (append_write_ok _ _ _ _ [] []); [by destruct Hq1; constructor|].
  unfold holdings. cbn. rewrite Ef, (Permutation_app_comm (freed q)), !app_assoc.
  apply submseteq_skips_r. by rewrite (Permutation_app_comm bad).
Qed.

Lemma bad_any q l bad pkt :
  queue_ok q l bad -> exists r q', write_bad q pkt = Ret (r, q') /\ write_ok q l bad pkt r q'.
Proof.
  intros Hq. pose proof (qo_bad_count _ _ _ Hq) as [Hc Hb3]. unfold write_bad, RTP_SEQUENTIAL in *.
  destruct (_ && _).
  - destruct (Z.leb_spec 3 (bad_count q)); [by apply resync_any|].
    apply (park_any _ _ _ q l bad); [done|lia|done].
  - destruct (drop_bad_any q l bad Hq) as (q1 & -> & Hq1 & _ & Hh). cbn [obind].
    by apply (park_any _ _ _ q1 l []).
Qed.

Lemma write_any q l bad pkt :
  queue_ok q l bad ->
  exists r q', rtp_queue_write q pkt = Ret (r, q') /\ write_ok q l bad pkt r q'.
Proof.
  intros Hq. unfold rtp_queue_write.
  destruct (negb _); [by apply probation_any|]. cbv zeta.
  assert (Hrefuse : forall q1, queue_ok q1 l bad -> freed q1 = freed q ->
            write_ok q l bad pkt (-1) q1).
  { intros q1 Hq1 Ef. exists l, bad. split; [done|]. right. unfold holdings. by rewrite Ef. }
  destruct (_ && (_ <? RTP_DROPOUT)).
  { set (q1 := if _ <? _ then _ else q).
    assert (Hq1 : queue_ok q1 l bad) by (unfold q1; destruct (_ <? _); [destruct Hq; by constructor|done]).
    assert (Hh1 : holdings q1 l bad = holdings q l bad) by (unfold q1; by destruct (_ <? _)).
    clearbody q1. destruct (drop_bad_any q1 l bad Hq1) as (q2 & -> & Hq2 & _ & Hh). cbn [obind].
    apply (append_write_ok _ _ _ _ l []); [by destruct Hq2; constructor|].
    unfold holdings in *. cbn. by rewrite Hh, Hh1. }
  destruct (_ && _).
  { unfold rtp_queue_find. pose proof (proj1 (qo_size _ _ _ Hq)) as Hs. unfold zlen in Hs.
    pose proof (find_loop_any (S (Z.to_nat (size q))) q l bad
                  (u16 (last_seq q - u16 (pseq pkt))) 0 (length l) Hq ltac:(lia) ltac:(lia)) as Hf.
    rewrite Z.add_0_r, <- Hs in Hf. destruct Hf as [->|(k & Hk & ->)]; cbn [obind].
    - exists (-1), q. split; [done|]. by apply Hrefuse.
    - replace (pos q + Z.of_nat k =? -1) with false
        by (symmetry; pose proof (qo_pos _ _ _ Hq); cbool; lia).
      destruct (drop_bad_any q l bad Hq) as (q2 & -> & Hq2 & Ep & Hh). cbn [obind].
      rewrite <- Ep. by apply (insert_write_ok _ _ _ _ l []). }
  destruct (_ <? RTP_MISORDER); [|by apply bad_any].
  exists (-1), q. split; [done|]. by apply Hrefuse.
Qed.

Lemma read_any q l bad :
  queue_ok q l bad -> threshold q = 0 \/ u64 (frequency q) <> 0 ->
  exists o q' l', rtp_queue_read q = Ret (o, q') /\ queue_ok q' l' bad /\
    threshold q' = threshold q /\ frequency q' = frequency q /\
    holdings q l bad = option_list o ++ holdings q' l' bad.
Proof.
  intros Hq Hf. pose proof (qo_size _ _ _ Hq) as [Hs Hsc]. pose proof (qo_pos _ _ _ Hq).
  unfold rtp_queue_read. destruct (_ || negb _) eqn:E0; [by exists None, q, l|].
  apply orb_false_iff in E0 as [E0 _]. apply Z.ltb_ge in E0.
  destruct l as [|p l]; [rewrite Hs in E0; unfold zlen in E0; simpl in E0; lia|].
  unfold c_assert. zif. cbn [orb obind].
  rewrite (item_at_pos q _ _ p Hq) by done. cbn [obind deref].
  assert (Hpop : forall first, exists q', pop q first = Ret q' /\ queue_ok q' l bad /\
            threshold q' = threshold q /\ frequency q' = frequency q /\ freed q' = freed q).
  { intros first. unfold pop, cmod. zif. cbn [obind]. eexists. split; [done|].
    pose proof (mod_range (pos q + 1) (capacity q) ltac:(lia)).
    pose proof (ring_pop (items q) (capacity q) (pos q) p l ltac:(lia) Hsc (qo_ring _ _ _ Hq)).
    rewrite zlen_cons in *. destruct Hq. split; [|done]. constructor; cbn; try done; lia. }
  assert (Hout : forall first, exists o q' l',
            (do q <- pop q first ;; Ret (Some p, q)) = Ret (o, q') /\ queue_ok q' l' bad /\
            threshold q' = threshold q /\ frequency q' = frequency q /\
            holdings q (p :: l) bad = option_list o ++ holdings q' l' bad).
  { intros first. destruct (Hpop first) as (q' & -> & Hq' & Et & Efq & Ef).
    exists (Some p), q', l. split_and!; try done. unfold holdings. by rewrite Ef. }
  destruct (Z.eqb_spec (threshold q) 0) as [|Ht]; cbn [orb]; [by apply Hout|].
  destruct (first_seq q =? pseq p); [by apply Hout|].
  unfold queued_ms.
  destruct (lookup_lt_is_Some_2 (p :: l) (length l)) as [x Hx]; [simpl; lia|].
  replace (pos q + size q - 1) with (pos q + Z.of_nat (length l))
    by (rewrite zlen_cons in *; unfold zlen in *; lia).
  rewrite (item_at_ok q _ _ _ x Hq Hx). cbn [obind]. zif. cbn [obind].
  destruct (_ <? u32 (threshold q)); [by exists None, q, (p :: l)|apply Hout].
Qed.

(** A run: packets arrive and the client reads.  What a write refuses the
    client frees, as [rtp_demuxer_input] does; [out] collects what the queue
    gave back, refused or delivered. *)
Inductive queue_event := EWrite (p : P) | ERead.

Fixpoint queue_run (evs : list queue_event) (q : rtp_queue_t P) : outcome (list P * rtp_queue_t P) :=
  match evs with
  | [] => Ret ([], q)
  | EWrite p :: evs =>
      do* (r, q) <- rtp_queue_write q p ;;
      do* (out, q) <- queue_run evs q ;;
      Ret ((if 0 <? r then out else p :: out), q)
  | ERead :: evs =>
      do* (o, q) <- rtp_queue_read q ;;
      do* (out, q) <- queue_run evs q ;;
      Ret (option_list o ++ out, q)
  end.

Definition written (evs : list queue_event) : list P :=
  omap (fun e => match e with EWrite p => Some p | ERead => None end) evs.

(** No operation touches the threshold or the clock rate. *)
Definition same_params q q' : Prop := threshold q' = threshold q /\ frequency q' = frequency q.

Ltac oparams := intros; repeat run_inv; simplify_eq/=; unfold same_params in *; repeat case_match; cbn in *;
  intuition congruence.

Lemma insert_params q position pkt r q' :
  rtp_queue_insert q position pkt = Ret (r, q') -> same_params q q'.
Proof. unfold rtp_queue_insert, rtp_queue_grow. oparams. Qed.

Lemma free_bad_params n i q q' : free_bad n i q = Ret q' -> same_params q q'.
Proof.
  revert i q. induction n as [|n IH]; intros i q; cbn [free_bad]; [oparams|].
  intros. repeat run_inv. by apply IH in H2.
Qed.

Lemma free_items_params n i q q' : free_items n i q = Ret q' -> same_params q q'.
Proof.
  revert i q. induction n as [|n IH]; intros i q; cbn [free_items]; [oparams|].
  intros. repeat run_inv. by apply IH in H2.
Qed.

Lemma reset_bad_params q q' : rtp_queue_reset_bad_items q = Ret q' -> same_params q q'.
Proof. unfold rtp_queue_reset_bad_items. intros. run_inv. apply free_bad_params in E. oparams. Qed.

Lemma reset_params q q' : rtp_queue_reset q = Ret q' -> same_params q q'.
Proof.
  unfold rtp_queue_reset. intros. do 2 run_inv.
  apply reset_bad_params in E. apply free_items_params in E0. oparams.
Qed.

Lemma insert_bad_params n i q q' : insert_bad n i q = Ret q' -> same_params q q'.
Proof.
  revert i q. induction n as [|n IH]; intros i q; cbn [insert_bad]; [oparams|].
  intros. do 4 run_inv. apply insert_params in E1. apply IH in H2. oparams.
Qed.

Lemma write_params q pkt r q' : rtp_queue_write q pkt = Ret (r, q') -> same_params q q'.
Proof.
  unfold rtp_queue_write, write_probation, write_bad, write_resync, write_park. cbv zeta. intros.
  repeat run_inv;
  repeat match goal with
  | E : rtp_queue_insert _ _ _ = _ |- _ => apply insert_params in E
  | E : rtp_queue_reset_bad_items _ = _ |- _ => apply reset_bad_params in E
  | E : rtp_queue_reset _ = _ |- _ => apply reset_params in E
  | E : insert_bad _ _ _ = _ |- _ => apply insert_bad_params in E
  end; oparams.
Qed.

(** Any number of events on any state of the queue. *)
Lemma queue_run_any evs q l bad :
  queue_ok q l bad -> threshold q = 0 \/ u64 (frequency q) <> 0 ->
  exists out q' l' bad', queue_run evs q = Ret (out, q') /\ queue_ok q' l' bad' /\
    out ++ holdings q' l' bad' ⊆+ written evs ++ holdings q l bad.
Proof.
  revert q l bad. induction evs as [|[p|] evs IH]; intros q l bad Hq Hf; cbn [queue_run].
  - exists [], q, l, bad. eauto.
  - destruct (write_any q l bad p Hq) as (r & q1 & Ew & l1 & bad1 & Hq1 & Hh).
    destruct (write_params _ _ _ _ Ew) as [Et Efq]. rewrite Ew. cbn [obind].
    destruct (IH q1 l1 bad1 Hq1) as (out & q' & l' & bad' & -> & Hq' & Hh').
    { by rewrite Et, Efq. }
    cbn [obind]. eexists _, q', l', bad'. split; [done|]. split; [done|].
    change (written (EWrite p :: evs)) with (p :: written evs).
    destruct Hh as [[-> Hh]|[Hr Hh]]; zif.
    + etrans; [exact Hh'|]. etrans; [by apply submseteq_skips_l|].
      by rewrite <- Permutation_middle.
    + cbn [app]. constructor. etrans; [exact Hh'|]. by apply submseteq_skips_l.
  - destruct (read_any q l bad Hq Hf) as (o & q1 & l1 & -> & Hq1 & Et & Efq & Hh). cbn [obind].
    destruct (IH q1 l1 bad Hq1) as (out & q' & l' & bad' & -> & Hq' & Hh').
    { by rewrite Et, Efq. }
    cbn [obind]. eexists _, q', l', bad'. split; [done|]. split; [done|].
    change (written (ERead :: evs)) with (written evs). rewrite Hh, <- app_assoc.
    rewrite (Permutation_app_swap_app (written evs)). by apply submseteq_skips_l.
Qed.

Lemma destroy_any q l bad :
  queue_ok q l bad -> rtp_queue_destroy q = Ret (freed q ++ bad ++ l).
Proof.
  intros Hq. unfold rtp_queue_destroy.
  destruct (reset_spec q l bad Hq) as (q1 & -> & Hq1 & Ef). cbn [obind].
  pose proof (qo_items _ _ _ Hq1) as Hi.
  destruct (bool_decide_reflect (items q1 = [])) as [E|E]; cbn [negb obind]; [by rewrite Ef|].
  destruct (items q1); [done|]. rewrite zlen_cons in Hi. pose proof (zlen_nonneg l0).
  unfold c_assert. zif. cbn [orb obind]. by rewrite Ef.
Qed.
End Safety.
Arguments queue_event : clear implicits.

(** ** What the machine keeps *)
Section Model.
Context {P : Type} `{RtpPointer P}.
Implicit Types (m : model P).

Definition held m : list P := m_list m ++ m_bad m ++ m_freed m.

Lemma spec_write_held m pkt :
  (m_new m = true -> m_list m = [] /\ m_bad m = []) ->
  held (snd (spec_write m pkt)) ≡ₚ
  if fst (spec_write m pkt) =? 1 then pkt :: held m else held m.
Proof.
  intros Hn. unfold spec_write, held. destruct (m_new m).
  { destruct (Hn eq_refl) as [-> ->]. done. }
  destruct (_ && (_ <? RTP_DROPOUT)); cbn; [solve_Permutation|].
  destruct (_ && (s16 _ <=? _)).
  { destruct (insert_desc _ _ _ _) as [l|] eqn:E; cbn; [|done].
    rewrite (insert_desc_perm _ _ _ _ _ E). solve_Permutation. }
  destruct (_ <? RTP_MISORDER); [done|].
  destruct (_ && _); [destruct (bool_decide _)|]; cbn; solve_Permutation.
Qed.

(** The packets span less than a turn of the sequence numbers. *)
Definition in_window m : Prop := forall p, p ∈ m_list m -> dist (m_last m) p + RTP_DROPOUT <= 2 ^ 16.

Lemma spec_write_ordered m pkt :
  is_u16 (pseq pkt) -> ordered (m_last m) (m_list m) -> in_window m -> (length (m_bad m) < 3)%nat ->
  ordered (m_last (snd (spec_write m pkt))) (m_list (snd (spec_write m pkt))).
Proof.
  intros Hs Ho Hw Hb. unfold spec_write, RTP_DROPOUT in *.
  destruct (m_new m).
  { cbn. apply ordered_cons; [intros x Hx; by apply not_elem_of_nil in Hx|].
    intros i j a b _ Ha. by rewrite lookup_nil in Ha. }
  destruct (_ && (_ <? 1000)) eqn:E; cbn.
  { cbool. apply (append_ordered (m_last m) (u16 (pseq pkt - m_last m))); [lia| |done|].
    - unfold u16, is_u16 in *. lia.
    - intros p Hp. specialize (Hw p Hp). unfold RTP_DROPOUT in Hw. lia. }
  clear E. destruct (_ && (s16 _ <=? _)).
  { destruct (insert_desc _ _ _ _) as [l|] eqn:E; cbn; [|done].
    eapply insert_desc_ordered; [exact Ho|]. unfold dist at 1.
    replace (u16 (pseq pkt)) with (pseq pkt); [exact E|].
    unfold u16, is_u16 in *. lia. }
  destruct (_ <? RTP_MISORDER); [done|].
  destruct (_ && _); [|done]. rewrite bool_decide_eq_false_2 by lia. done.
Qed.

(** A stream without loss: numbers increase by one, modulo 2^16. *)
Fixpoint contiguous (s : Z) (pkts : list P) : Prop :=
  match pkts with
  | [] => True
  | p :: pkts => pseq p = u16 s /\ contiguous (s + 1) pkts
  end.

(** Nothing queued, nothing parked, the next number expected is [s]. *)
Definition idle m (s : Z) : Prop :=
  m_list m = [] /\ m_bad m = [] /\
  (m_new m = true \/ m_first m = u16 s /\ m_last m = u16 (s - 1)).

Lemma idle_step m s pkt thr freq :
  idle m s -> pseq pkt = u16 s ->
  exists m1 m2, spec_write m pkt = (1, m1) /\ m_list m1 = [pkt] /\
    spec_read thr freq m1 = (Some pkt, m2) /\ idle m2 (s + 1).
Proof.
  intros (El & Eb & Hm) Hs.
  assert (exists m1, spec_write m pkt = (1, m1) /\ m_list m1 = [pkt] /\ m_bad m1 = [] /\
            m_new m1 = false /\ m_first m1 = u16 s /\ m_last m1 = u16 s) as
    (m1 & Ew & El1 & Eb1 & En1 & Ef1 & Ela1).
  { unfold spec_write, RTP_DROPOUT. destruct (m_new m) eqn:En.
    - eexists. split; [done|]. by rewrite Hs.
    - destruct Hm as [|[Hf Hl]]; [done|]. rewrite Hl, Hs, El.
      replace (u16 (u16 s - u16 (s - 1))) with 1 by (unfold u16; lia).
      eexists. split; [done|]. cbn. by rewrite Hf. }
  exists m1. unfold spec_read. rewrite El1, En1, Ef1, Hs, Z.eqb_refl, orb_true_r.
  eexists. split_and!; [done|done|done|]. unfold idle. cbn. rewrite El1, Eb1, Ela1.
  split_and!; try done. right. unfold u16. split; [lia|f_equal; lia].
Qed.
End Model.

Section Runs.
Context {P : Type} `{RtpPointer P} `{Build}.
Implicit Types (q : rtp_queue_t P) (m : model P).

Lemma write_read_refines `{Alloc} q m pkt :
  represents q m -> is_u16 (pseq pkt) -> roomy 4 q -> ordered (m_last m) (m_list m) ->
  u64 (frequency q) <> 0 ->
  exists q1 q2, rtp_queue_write q pkt = Ret (fst (spec_write m pkt), q1) /\
    let m1 := snd (spec_write m pkt) in
    rtp_queue_read q1 = Ret (fst (spec_read (threshold q) (frequency q) m1), q2) /\
    represents q2 (snd (spec_read (threshold q) (frequency q) m1)) /\ same_params q q2.
Proof.
  intros Hm Hs Hr Ho Hf. destruct (write_refines q m pkt Hm Hs Hr Ho) as (q1 & Ew & Hm1).
  destruct (write_params _ _ _ _ Ew) as [Et Ef].
  destruct (read_refines q1 _ Hm1) as (q2 & Er & Hm2); [by rewrite Ef|].
  exists q1, q2. split; [done|]. cbv zeta. rewrite <- Et, <- Ef. split_and!; try done.
  destruct (read_any q1 _ _ (rep_ok _ _ Hm1)) as (o & q3 & l3 & Er3 & _ & E1 & E2 & _); [right; congruence|].
  rewrite Er in Er3. simplify_eq. split; cbn in *; congruence.
Qed.

Lemma idle_roomy q m s : represents q m -> idle m s -> @roomy P always_alloc 4 q.
Proof.
  intros Hm (El & _). split; [|done]. rewrite (proj1 (qo_size _ _ _ (rep_ok _ _ Hm))), El.
  unfold MAX_PACKET. rewrite zlen_nil. lia.
Qed.

(** The client of the receiver: a read after every write. *)
Fixpoint write_then_read (pkts : list P) : list (queue_event P) :=
  match pkts with
  | [] => []
  | p :: pkts => EWrite p :: ERead :: write_then_read pkts
  end.

(** One packet through an empty queue without a jitter buffer. *)
Lemma jitter0_step q m m1 (p : P) evs :
  represents q m -> m_list m = [] -> threshold q = 0 -> u64 (frequency q) <> 0 ->
  is_u16 (pseq p) -> spec_write m p = (1, m1) -> m_list m1 = [p] -> m_new m1 = false ->
  exists q', represents q' (spec_pop m1 (u16 (m_first m1 + 1))) /\ same_params q q' /\
    @queue_run P _ always_alloc _ (EWrite p :: ERead :: evs) q
    = (do* (out, q2) <- @queue_run P _ always_alloc _ evs q' ;; Ret (p :: out, q2)).
Proof.
  intros Hm El Ht Hf Hs Ew El1 En1.
  destruct (@write_read_refines always_alloc q m p) as (q1 & q2 & Eq1 & Eq2 & Hm2 & Hp); try done.
  { split; [|done]. rewrite (proj1 (qo_size _ _ _ (rep_ok _ _ Hm))), El.
    unfold MAX_PACKET. rewrite zlen_nil. lia. }
  { rewrite El. intros i j a b _ Ha. by rewrite lookup_nil in Ha. }
  assert (Er : spec_read (threshold q) (frequency q) m1
               = (Some p, spec_pop m1 (u16 (m_first m1 + 1)))).
  { unfold spec_read. by rewrite El1, En1, Ht. }
  rewrite Ew in *. cbn in Eq1, Eq2, Hm2. rewrite Er in Eq2, Hm2. cbn in Eq2, Hm2.
  exists q2. split_and!; [done|done|]. cbn [queue_run]. rewrite Eq1. cbn [obind].
  rewrite Eq2. cbn [obind]. change (0 <? 1) with true. cbv iota.
  destruct (queue_run evs q2) as [[out q3]|c]; done.
Qed.

Lemma stream_run (pkts : list P) s q m :
  represents q m -> idle m s -> contiguous s pkts -> u64 (frequency q) <> 0 ->
  exists q' m', @queue_run P _ always_alloc _ (write_then_read pkts) q = Ret (pkts, q') /\
    represents q' m' /\ idle m' (s + zlen pkts).
Proof.
  revert s q m. induction pkts as [|p pkts IH]; intros s q m Hm Hi Hc Hf.
  { exists q, m. by rewrite Z.add_0_r. }
  destruct Hc as [Hs Hc].
  destruct (idle_step m s p (threshold q) (frequency q) Hi Hs) as (m1 & m2 & Ew & El & Er & Hi2).
  destruct (@write_read_refines always_alloc q m p) as (q1 & q2 & Eq1 & Eq2 & Hm2 & [_ Ef]);
    try done; [rewrite Hs; unfold is_u16, u16; lia|by eapply idle_roomy| |].
  { destruct Hi as (-> & _). intros i j a b _ Ha. by rewrite lookup_nil in Ha. }
  rewrite Ew in *. cbn in Eq1, Eq2, Hm2. rewrite Er in Eq2, Hm2. cbn in Eq2, Hm2.
  destruct (IH (s + 1) q2 m2 Hm2 Hi2 Hc) as (q' & m' & Erun & Hm' & Hi'); [congruence|].
  exists q', m'. cbn. rewrite Eq1. cbn. rewrite Eq2. cbn.
  rewrite Erun. cbn. split_and!; try done.
  rewrite zlen_cons. by rewrite Z.add_assoc.
Qed.
End Runs.

(** ** The properties *)
Section Properties.
Context {P : Type} `{RtpPointer P}.
Implicit Types (q : rtp_queue_t P) (m : model P).


(** C18. [rtp_queue_read] refines the abstract machine: it delivers the oldest
    packet when it is the expected one, when there is no jitter buffer, or when
    the queue spans [threshold] milliseconds, and nothing otherwise. *)
Theorem rtp_queue_read_refines `{Build} q m :
  represents q m -> u64 (frequency q) <> 0 ->
  exists q', rtp_queue_read q = Ret (fst (spec_read (threshold q) (frequency q) m), q') /\
    represents q' (snd (spec_read (threshold q) (frequency q) m)).
Proof. apply read_refines. Qed.

(** C19. Any run of a queue, under any allocator and for any packets: nothing
    is accessed out of bounds, no assertion fails, every loop ends, and no
    packet is given back, freed or destroyed twice. *)
Theorem rtp_queue_run_safe `{Alloc} `{Build} thr freq (evs : list (queue_event P)) :
  thr = 0 \/ u64 freq <> 0 ->
  exists q0 out q' released,
    rtp_queue_create thr freq = Ret q0 /\ queue_run evs q0 = Ret (out, q') /\
    rtp_queue_destroy q' = Ret released /\ out ++ released ⊆+ written evs.
Proof.
  intros Hf. destruct (create_spec (P:=P) thr freq) as (q0 & Ec & Hm & Et & Ef).
  destruct (queue_run_any evs q0 [] [] (rep_ok _ _ Hm)) as (out & q' & l' & bad' & Er & Hq' & Hh).
  { by rewrite Et, Ef. }
  exists q0, out, q', (freed q' ++ bad' ++ l'). split_and!; [done|done|by apply destroy_any|].
  pose proof (rep_freed _ _ Hm) as Efr. unfold holdings in Hh. rewrite Efr in Hh. cbn in Hh.
  rewrite app_nil_r in Hh. etrans; [|exact Hh]. apply Permutation_submseteq. solve_Permutation.
Qed.

(** C0. With room for four more packets a write loses nothing: the packets in
    the queue, parked or freed afterwards are those before it, and the new one
    exactly when the write returns 1. *)
Theorem rtp_queue_write_no_leak `{Alloc} `{Build} q m pkt :
  represents q m -> is_u16 (pseq pkt) -> roomy 4 q -> ordered (m_last m) (m_list m) ->
  exists r q' m', rtp_queue_write q pkt = Ret (r, q') /\ represents q' m' /\
    held m' ≡ₚ if r =? 1 then pkt :: held m else held m.
Proof.
  intros Hm Hs Hr Ho. destruct (write_refines q m pkt Hm Hs Hr Ho) as (q' & E & Hm').
  eexists _, q', _. split; [exact E|]. split; [exact Hm'|].
  apply spec_write_held. apply (rep_new _ _ Hm).
Qed.

(** C0. A write keeps the queue sorted by sequence number (by distance to the
    newest, so across the wrap at 2^16) unless it re-synchronises: the new
    packet is put in its place and a duplicate is refused. *)
Theorem rtp_queue_write_ordered `{Alloc} `{Build} q m pkt :
  represents q m -> is_u16 (pseq pkt) -> roomy 4 q -> ordered (m_last m) (m_list m) ->
  in_window m -> (length (m_bad m) < 3)%nat ->
  exists r q' m', rtp_queue_write q pkt = Ret (r, q') /\ represents q' m' /\
    ordered (m_last m') (m_list m').
Proof.
  intros Hm Hs Hr Ho Hw Hb. destruct (write_refines q m pkt Hm Hs Hr Ho) as (q' & E & Hm').
  eexists _, q', _. split; [exact E|]. split; [exact Hm'|]. by apply spec_write_ordered.
Qed.

(** C32. A stream without loss goes straight through, for any threshold, from
    any first sequence number and across the wrap at 2^16: each packet is
    accepted and the read that follows delivers it. *)
Theorem rtp_queue_lossless `{Build} thr freq s (pkts : list P) :
  u64 freq <> 0 -> contiguous s pkts ->
  exists q0 q', rtp_queue_create thr freq = Ret q0 /\
    @queue_run P _ always_alloc _ (write_then_read pkts) q0 = Ret (pkts, q') /\ size q' = 0.
Proof.
  intros Hf Hc. destruct (create_spec (P:=P) thr freq) as (q0 & Ec & Hm & Et & Ef).
  destruct (stream_run pkts s q0 _ Hm) as (q' & m' & Er & Hm' & (El & _)); try done.
  { split; [done|]. split; [done|by left]. }
  { by rewrite Ef. }
  exists q0, q'. split_and!; [done|done|].
  by rewrite (proj1 (qo_size _ _ _ (rep_ok _ _ Hm'))), El.
Qed.

(** C0. Without a jitter buffer one lost packet lets a duplicate through: the
    read after the gap moves the expected number by one instead of past the
    delivered packet, so a second copy of it is accepted and delivered. *)
Theorem rtp_queue_jitter0_redelivers `{Build} freq (p0 p2 p2' : P) s :
  u64 freq <> 0 -> pseq p0 = u16 s -> pseq p2 = u16 (s + 2) -> pseq p2' = u16 (s + 2) ->
  exists q0 q', rtp_queue_create 0 freq = Ret q0 /\
    @queue_run P _ always_alloc _ (write_then_read [p0; p2; p2']) q0 = Ret ([p0; p2; p2'], q').
Proof.
  intros Hf E0 E2 E2'. destruct (create_spec (P:=P) 0 freq) as (q0 & Ec & Hm & Et & Ef).
  assert (forall x, is_u16 (u16 x)) as Hu by (unfold is_u16, u16; lia).
  exists q0. cbn [write_then_read].
  destruct (jitter0_step q0 _ (mk_model false [p0] [] (pseq p0) (pseq p0) 0 []) p0
              [EWrite p2; ERead; EWrite p2'; ERead] Hm) as (q1 & Hm1 & [Et1 Ef1] & E);
    try done; [by rewrite Ef|by rewrite E0|].
  rewrite E. clear E.
  destruct (jitter0_step q1 _ (mk_model false [p2] [] (u16 (s + 1)) (u16 (s + 2)) 0 []) p2
              [EWrite p2'; ERead] Hm1) as (q2 & Hm2 & [Et2 Ef2] & E);
    try done; [by rewrite Et1|by rewrite Ef1, Ef|by rewrite E2| |].
  { cbn. unfold spec_write. cbn. rewrite E0, E2.
    replace (u16 (u16 (s + 2) - u16 s)) with 2 by (unfold u16; lia). cbn.
    unfold spec_store. cbn. do 2 f_equal. unfold u16. lia. }
  rewrite E. clear E.
  destruct (jitter0_step q2 _ (mk_model false [p2'] [] (u16 (s + 2)) (u16 (s + 2)) 0 []) p2'
              [] Hm2) as (q3 & Hm3 & _ & E);
    try done; [by rewrite Et2, Et1|by rewrite Ef2, Ef1, Ef|by rewrite E2'| |].
  { cbn. unfold spec_write. cbn. rewrite E2'.
    replace (u16 (u16 (s + 1) + 1)) with (u16 (s + 2)) by (unfold u16; lia).
    rewrite Z.sub_diag. cbn. unfold spec_store. cbn. done. }
  rewrite E. exists q3. done.
Qed.
End Properties.

(** ** Concrete instances *)
#[export] Instance header_pointer : RtpPointer rtp_header_t := fun h => h.

Definition numbered (s : Z) : rtp_header_t := mk_rtp_header 2 0 0 0 0 96 s (3600 * s) 1.

Lemma numbered_u16 s : (0 <=? s) && (s <? 65536) = true -> is_u16 (pseq (numbered s)).
Proof. unfold is_u16. cbn. intros. cbool. lia. Qed.

Definition fresh_queue : rtp_queue_t rtp_header_t :=
  mk_queue [] 0 0 0 1 0 0 0 0 0 (replicate 4 None) 100 90000 [].

Definition fresh_model : model rtp_header_t := mk_model true [] [] 0 0 0 [].

Lemma fresh_represents : represents fresh_queue fresh_model.
Proof. by destruct (create_spec (P:=rtp_header_t) 100 90000) as (q & [= <-] & ? & _). Qed.

Lemma ordered_nil {P} `{RtpPointer P} last : ordered last (@nil P).
Proof. intros i j a b _ Ha. by rewrite lookup_nil in Ha. Qed.

Lemma fresh_roomy : @roomy rtp_header_t always_alloc 4 fresh_queue.
Proof. split; [cbn; unfold MAX_PACKET; lia|done]. Qed.


Lemma rtp_queue_read_refines_witness :
  exists q', @rtp_queue_read _ _ default_build fresh_queue = Ret (None, q') /\ represents q' fresh_model.
Proof.
  apply (@rtp_queue_read_refines _ _ default_build fresh_queue fresh_model fresh_represents
           ltac:(vm_compute; discriminate)).
Defined.

Lemma rtp_queue_run_safe_witness :
  exists q0 out q' released,
    rtp_queue_create (P:=rtp_header_t) 0 0 = Ret q0 /\
    @queue_run _ _ never_alloc default_build [EWrite (numbered 1); ERead] q0 = Ret (out, q') /\
    @rtp_queue_destroy _ default_build q' = Ret released /\ out ++ released ⊆+ [numbered 1].
Proof.
  apply (@rtp_queue_run_safe rtp_header_t _ never_alloc default_build 0 0
           [EWrite (numbered 1); ERead]). by left.
Defined.

Lemma rtp_queue_write_no_leak_witness :
  exists r q' m',
    @rtp_queue_write _ _ always_alloc default_build fresh_queue (numbered 7) = Ret (r, q') /\
    represents q' m' /\ held m' ≡ₚ if r =? 1 then numbered 7 :: held fresh_model else held fresh_model.
Proof.
  apply (@rtp_queue_write_no_leak _ _ always_alloc default_build fresh_queue fresh_model
           (numbered 7) fresh_represents (numbered_u16 7 eq_refl) fresh_roomy (ordered_nil 0)).
Defined.

Lemma rtp_queue_write_ordered_witness :
  exists r q' m',
    @rtp_queue_write _ _ always_alloc default_build fresh_queue (numbered 7) = Ret (r, q') /\
    represents q' m' /\ ordered (m_last m') (m_list m').
Proof.
  apply (@rtp_queue_write_ordered _ _ always_alloc default_build fresh_queue fresh_model
           (numbered 7) fresh_represents (numbered_u16 7 eq_refl) fresh_roomy (ordered_nil 0)).
  - intros p Hp. by apply not_elem_of_nil in Hp.
  - cbn. lia.
Defined.

Lemma rtp_queue_lossless_witness :
  exists q0 q', rtp_queue_create 100 90000 = Ret q0 /\
    @queue_run _ _ always_alloc default_build
      (write_then_read [numbered 65534; numbered 65535; numbered 0]) q0
    = Ret ([numbered 65534; numbered 65535; numbered 0], q') /\ size q' = 0.
Proof.
  apply (rtp_queue_lossless (H0:=default_build) 100 90000 65534
           [numbered 65534; numbered 65535; numbered 0]); [vm_compute; discriminate|done].
Defined.

Lemma rtp_queue_jitter0_redelivers_witness :
  exists q0 q', rtp_queue_create 0 90000 = Ret q0 /\
    @queue_run _ _ always_alloc default_build
      (write_then_read [numbered 10; numbered 12; numbered 12]) q0
    = Ret ([numbered 10; numbered 12; numbered 12], q').
Proof.
  apply (rtp_queue_jitter0_redelivers (H0:=default_build) 90000 _ _ _ 10); [vm_compute; discriminate|done..].
Defined.
