(* ===== verification/AnnexB.v ===== *)
(** Splitting an H.264/H.265 elementary stream into NAL units
    (lib/librtp/payload/rtp-h264-bitstream.c): Annex B start codes, or AVCC
    length prefixes when the buffer parses that way.

    A [(const uint8_t* nalu, int bytes)] argument of the handler is the list of
    those bytes: what the handler may read. *)

From S2P Require Import Prelude RtpUtil.

Section Bitstream.
Context `{Build}.

(** [0x01 == data[i] && 0x00 == data[i - 1] && 0x00 == data[i - 2]] *)
Definition startcode_at (data : list Z) (i : Z) : outcome bool :=
  do a <- rd data i ;;
  if negb (a =? 1) then Ret false
  else
    do b <- rd data (i - 1) ;;
    if negb (b =? 0) then Ret false
    else
      do c <- rd data (i - 2) ;;
      Ret (c =? 0).

Fixpoint startcode_loop (fuel : nat) (data : list Z) (bytes i : Z) : outcome (option Z) :=
  if i + 1 <? bytes then
    match fuel with
    | O => Crash Diverge
    | S fuel =>
        do found <- startcode_at data i ;;
        if found : bool then Ret (Some (i + 1)) else startcode_loop fuel data bytes (i + 1)
    end
  else Ret None.

(** The offset behind the first start code. *)
Definition h264_startcode (data : list Z) (bytes : Z) : outcome (option Z) :=
  startcode_loop (Z.to_nat bytes) data bytes 2.

Fixpoint avcc_length_loop (k : nat) (h264 : list Z) (bytes i n : Z) : outcome Z :=
  match k with
  | O => Ret n
  | S k =>
      if i <? bytes then
        do b <- rd h264 i ;;
        avcc_length_loop k h264 bytes (i + 1) (Z.lor (u32 (Z.shiftl n 8)) b)
      else Ret n
  end.

Definition h264_avcc_length (h264 : list Z) (bytes avcc : Z) : outcome Z :=
  c_assert ((3 <=? avcc) && (avcc <=? 4)) ;;;
  do n <- avcc_length_loop (Z.to_nat avcc) h264 bytes 0 0 ;;
  Ret (if bytes <=? avcc then -1 else s32 n).

Fixpoint avcc_valid_loop (fuel : nat) (h264 : list Z) (bytes avcc : Z) : outcome bool :=
  if avcc + 1 <? bytes then
    match fuel with
    | O => Crash Diverge
    | S fuel =>
        do n <- h264_avcc_length h264 bytes avcc ;;
        if n <? 0 then Ret false
        else
          do m <- c_int (n + avcc) ;;
          if bytes <? m then Ret false
          else avcc_valid_loop fuel (adv h264 m) (bytes - m) avcc
    end
  else Ret (0 =? bytes).

Definition h264_avcc_bitstream_valid (h264 : list Z) (bytes avcc : Z) : outcome bool :=
  avcc_valid_loop (Z.to_nat bytes) h264 bytes avcc.

(** 0: Annex B, > 0: AVCC, < 0: neither. *)
Definition h264_bitstream_format (h264 : list Z) (bytes : Z) : outcome Z :=
  if bytes <? 4 then Ret (-1)
  else
    do b0 <- rd h264 0 ;;
    do b1 <- rd h264 1 ;;
    do b2 <- rd h264 2 ;;
    let n := Z.lor (Z.lor (Z.shiftl b0 16) (Z.shiftl b1 8)) b2 in
    do b3 <- rd h264 3 ;;
    if (0 =? n) && (b3 <=? 1) then Ret 0
    else if 1 =? n then
      do v4 <- h264_avcc_bitstream_valid h264 bytes 4 ;;
      Ret (if v4 : bool then 4 else 0)
    else
      do v4 <- h264_avcc_bitstream_valid h264 bytes 4 ;;
      if v4 : bool then Ret 4
      else
        do v3 <- h264_avcc_bitstream_valid h264 bytes 3 ;;
        Ret (if v3 : bool then 3 else -1).

Context {S : Type} (handler : S -> list Z -> Z -> Z -> outcome (Z * S)).

(** [bytes] is [end - p]; the length is used as a [uint32_t]. *)
Fixpoint avcc_nalu_loop (fuel : nat) (p : list Z) (bytes avcc r : Z) (s : S) : outcome (Z * S) :=
  do n <- h264_avcc_length p bytes avcc ;;
  let n := u32 n in
  if (0 =? r) && (n + avcc <=? bytes) then
    match fuel with
    | O => Crash Diverge
    | Datatypes.S fuel =>
        c_assert (0 <? n) ;;;
        do* (r, s) <-
          (if 0 <? n then
             do nalu <- rdn p avcc n ;;
             handler s nalu (s32 n) (if avcc + n <? bytes then 0 else 1)
           else Ret (r, s)) ;;
        avcc_nalu_loop fuel (adv p (n + avcc)) (bytes - (n + avcc)) avcc r s
    end
  else Ret (r, s).

Definition h264_avcc_nalu (h264 : list Z) (bytes avcc : Z) (s : S) : outcome (Z * S) :=
  avcc_nalu_loop (Z.to_nat bytes) h264 bytes avcc 0 s.

(** [while (n > 0 && 0 == p[n - 1]) n--] *)
Fixpoint trim_zeros (k : nat) (p : list Z) : outcome Z :=
  match k with
  | O => Ret 0
  | Datatypes.S k' =>
      do b <- rd p (Z.of_nat k') ;;
      if b =? 0 then trim_zeros k' p else Ret (Z.of_nat k)
  end.

Fixpoint annexb_loop (fuel : nat) (p : list Z) (bytes : Z) (s : S) : outcome (Z * S) :=
  match fuel with
  | O => Crash Diverge
  | Datatypes.S fuel =>
      do next <- h264_startcode p bytes ;;
      let n := match next with Some o => o - 3 | None => bytes end in
      do n <- (if n <=? 0 then Ret n else trim_zeros (Z.to_nat n) p) ;;
      c_assert (0 <? n) ;;;
      do* (r, s) <-
        (if 0 <? n then
           do nalu <- rdn p 0 n ;;
           handler s nalu n (match next with Some _ => 0 | None => 1 end)
         else Ret (0, s)) ;;
      match next with
      | Some o => if 0 =? r then annexb_loop fuel (adv p o) (bytes - o) s else Ret (r, s)
      | None => Ret (r, s)
      end
  end.

Definition rtp_h264_annexb_nalu (h264 : list Z) (bytes : Z) (s : S) : outcome (Z * S) :=
  do avcc <- h264_bitstream_format h264 bytes ;;
  if 0 <? avcc then h264_avcc_nalu h264 bytes avcc s
  else
    do p <- h264_startcode h264 bytes ;;
    match p with
    | Some o => annexb_loop (Z.to_nat bytes) (adv h264 o) (bytes - o) s
    | None => Ret (0, s)
    end.
End Bitstream.
