(* ===== verification/AnnexBProps.v ===== *)
(** Properties of the elementary-stream splitter: what it hands over on Annex B
    and AVCC streams, memory safety, and the length that overflows. *)

From S2P Require Import Prelude RtpUtil AnnexB.

Section Startcode.
Context `{Build}.
Implicit Types data : list Z.

(** A start code ends at index [i]. *)
Definition sc_at data (i : Z) : Prop :=
  data !! Z.to_nat i = Some 1 /\ data !! Z.to_nat (i - 1) = Some 0 /\
  data !! Z.to_nat (i - 2) = Some 0.

Lemma rd_in data i : 0 <= i < zlen data -> exists b, rd data i = Ret b /\ data !! Z.to_nat i = Some b.
Proof.
  intros Hi. destruct (lookup_lt_is_Some_2 data (Z.to_nat i)) as [b Hb]; [unfold zlen in *; lia|].
  exists b. split; [|done]. by apply rd_lookup; [lia|].
Qed.

Lemma startcode_at_spec data i :
  2 <= i < zlen data ->
  (startcode_at data i = Ret true /\ sc_at data i) \/
  (startcode_at data i = Ret false /\ ~ sc_at data i).
Proof.
  intros Hi. unfold startcode_at, sc_at.
  destruct (rd_in data i) as (a & -> & Ea); [lia|]. rewrite Ea. cbn [obind].
  destruct (Z.eqb_spec a 1) as [->|Hne]; cbn [negb]; [|right; split; [done|intros (? & ? & ?); congruence]].
  destruct (rd_in data (i - 1)) as (b & -> & Eb); [lia|]. rewrite Eb. cbn [obind].
  destruct (Z.eqb_spec b 0) as [->|Hne]; cbn [negb]; [|right; split; [done|intros (? & ? & ?); congruence]].
  destruct (rd_in data (i - 2)) as (c & -> & Ec); [lia|]. rewrite Ec. cbn [obind].
  destruct (Z.eqb_spec c 0) as [->|Hne]; [by left|right; split; [done|intros (? & ? & ?); congruence]].
Qed.

Lemma startcode_loop_spec fuel data bytes i :
  2 <= i -> bytes <= zlen data -> bytes - i < Z.of_nat fuel ->
  (startcode_loop fuel data bytes i = Ret None /\
     forall j, i <= j -> j + 1 < bytes -> ~ sc_at data j) \/
  exists k, i <= k /\ k + 1 < bytes /\ sc_at data k /\
    (forall j, i <= j < k -> ~ sc_at data j) /\
    startcode_loop fuel data bytes i = Ret (Some (k + 1)).
Proof.
  revert i. induction fuel as [|fuel IH]; intros i Hi Hb Hf; cbn [startcode_loop].
  { zif. left. split; [done|]. lia. }
  destruct (Z.ltb_spec (i + 1) bytes); [|left; split; [done|lia]].
  destruct (startcode_at_spec data i) as [[-> Hsc]|[-> Hsc]]; [lia|..]; cbn [obind].
  { right. exists i. split_and!; try done; try lia. }
  destruct (IH (i + 1)) as [[-> Hno]|(k & ? & ? & Hk & Hno & ->)]; [lia|lia|lia|..].
  - left. split; [done|]. intros j ? ?. destruct (Z.eq_dec i j) as [<-|]; [done|]. apply Hno; lia.
  - right. exists k. split_and!; try done; try lia. intros j ?.
    destruct (Z.eq_dec i j) as [<-|]; [done|]. apply Hno; lia.
Qed.

Lemma h264_startcode_spec data bytes :
  bytes <= zlen data ->
  (h264_startcode data bytes = Ret None /\
     forall j, 2 <= j -> j + 1 < bytes -> ~ sc_at data j) \/
  exists k, 2 <= k /\ k + 1 < bytes /\ sc_at data k /\
    (forall j, 2 <= j < k -> ~ sc_at data j) /\
    h264_startcode data bytes = Ret (Some (k + 1)).
Proof. intros. apply startcode_loop_spec; lia. Qed.

Lemma trim_zeros_any k p :
  Z.of_nat k <= zlen p -> exists n, trim_zeros k p = Ret n /\ 0 <= n <= Z.of_nat k.
Proof.
  induction k as [|k IH]; intros Hk; cbn [trim_zeros]; [by exists 0|].
  destruct (rd_in p (Z.of_nat k)) as (b & -> & _); [lia|]. cbn [obind].
  destruct (b =? 0); [destruct IH as (n & -> & ?); [lia|]; exists n; split; [done|lia]|].
  eexists. split; [done|lia].
Qed.

Lemma zlen_diff (u : list Z) z : 0 <= Z.of_nat (length u + z) - zlen u.
Proof. unfold zlen. lia. Qed.

(** Trailing zeros go, and nothing else. *)
Lemma trim_zeros_spec u z rest :
  u <> [] -> list.last u <> Some 0 ->
  trim_zeros (length u + z) (u ++ replicate z 0 ++ rest) = Ret (zlen u).
Proof.
  intros Hu Hl. revert rest. induction z as [|z IH]; intros rest.
  - rewrite Nat.add_0_r. cbn [replicate app].
    destruct u as [|b u _] using rev_ind; [done|]. rewrite last_snoc in Hl.
    assert (b <> 0) by congruence.
    rewrite length_app, Nat.add_1_r. cbn [trim_zeros]. rewrite <- app_assoc. cbn [app].
    rewrite rd_last by done. cbn [obind]. zif. unfold zlen. rewrite length_app. simpl. f_equal. lia.
  - rewrite <- plus_n_Sm. cbn [trim_zeros].
    rewrite rd_app_r by (unfold zlen; lia).
    rewrite rd_app_l by (rewrite zlen_replicate; unfold zlen; lia).
    rewrite (proj2 (rd_lookup (replicate (S z) 0) (Z.of_nat (length u + z) - zlen u) 0 (zlen_diff u z))).
    2: { apply lookup_replicate. split; [done|]. unfold zlen. lia. }
    cbn [obind]. change (0 =? 0) with true. cbv iota.
    rewrite replicate_S_end, <- app_assoc. apply (IH (0 :: rest)).
Qed.
Lemma slice_ok (p : list Z) off n :
  bytes_ok p -> 0 <= off -> 0 <= n -> off + n <= zlen p ->
  bytes_ok (take (Z.to_nat n) (drop (Z.to_nat off) p)) /\
  zlen (take (Z.to_nat n) (drop (Z.to_nat off) p)) = n.
Proof. intros Hb ? ? ?. split; [by apply Forall_take, Forall_drop|]. zlia. Qed.
End Startcode.

(** ** Memory safety *)
Section Safety.
Context `{Build} {S : Type} (handler : S -> list Z -> Z -> Z -> outcome (Z * S)) (I : S -> Prop).
Hypothesis handler_safe : forall s nalu n last,
  I s -> bytes_ok nalu -> n = zlen nalu -> 0 < n ->
  post (handler s nalu n last) (fun '(_, s') => I s').

Lemma annexb_loop_safe fuel p bytes s :
  I s -> bytes_ok p -> 0 < bytes <= zlen p -> bytes <= Z.of_nat fuel ->
  post (annexb_loop handler fuel p bytes s) (fun '(_, s') => I s').
Proof.
  revert p bytes s. induction fuel as [|fuel IH]; intros p bytes s Hs Hp Hb Hf; [lia|].
  cbn [annexb_loop].
  assert (exists next, h264_startcode p bytes = Ret next /\
            match next with Some o => 3 <= o < bytes | None => True end) as (next & -> & Hn).
  { destruct (h264_startcode_spec p bytes) as [[-> _]|(k & ? & ? & _ & _ & ->)]; [lia|by eexists|].
    eexists. split; [done|]. cbn. lia. }
  cbn [obind]. cbv zeta. set (n0 := match next with Some o => _ | None => _ end).
  assert (Hn0 : 0 <= n0 <= bytes) by (unfold n0; destruct next; lia).
  assert (exists n, (if n0 <=? 0 then Ret n0 else trim_zeros (Z.to_nat n0) p) = Ret n /\ 0 <= n <= bytes)
    as (n & -> & Hnn).
  { destruct (Z.leb_spec n0 0); [exists n0; split; [done|lia]|].
    destruct (trim_zeros_any (Z.to_nat n0) p) as (n & -> & ?); [lia|]. exists n. split; [done|lia]. }
  cbn [obind]. ostep. ostep. ostep. eapply (post_mono _ (fun '(_, s') => I s')).
  - ostep; [|by ostep]. cbool. ostep. apply post_rdn; try lia.
    destruct (slice_ok p 0 n) as [? ?]; try (done || lia). by apply handler_safe.
  - intros [r s'] Hs'. destruct next as [o|]; [|done]. ostep; [|done].
    apply IH; try done; [auto with zlist|rewrite zlen_adv; lia|lia].
Qed.

Lemma avcc_length_loop_post k h264 bytes i n :
  bytes_ok h264 -> 0 <= i -> bytes <= zlen h264 -> 0 <= n < 2 ^ 32 ->
  post (avcc_length_loop k h264 bytes i n) (fun n' => 0 <= n' < 2 ^ 32).
Proof.
  intros Hb. revert i n. induction k as [|k IH]; intros i n ? ? ?; [done|]. cbn [avcc_length_loop].
  ostep; [|done]. cbool. ostep. apply post_rd; [lia|]. intros b Hbb.
  apply rd_byte in Hbb; [|done]. unfold is_byte in *.
  apply IH; [lia|done|]. unfold u32. rewrite Z.shiftl_mul_pow2 by lia.
  rewrite (lor_add _ _ 8) by lia. lia.
Qed.

Lemma avcc_length_post h264 bytes avcc :
  bytes_ok h264 -> bytes <= zlen h264 ->
  post (h264_avcc_length h264 bytes avcc)
    (fun n => if bytes <=? avcc then n = -1 else - 2 ^ 31 <= n < 2 ^ 31).
Proof.
  intros Hb Hl. unfold h264_avcc_length. ostep. ostep. ostep.
  eapply post_mono; [by apply avcc_length_loop_post|]. intros n Hn. ostep. cbn beta.
  destruct (bytes <=? avcc); [done|]. unfold s32. lia.
Qed.

Lemma avcc_nalu_safe fuel p bytes avcc r s :
  I s -> bytes_ok p -> 0 <= bytes <= zlen p -> bytes < 2 ^ 31 -> bytes <= Z.of_nat fuel ->
  3 <= avcc <= 4 ->
  post (avcc_nalu_loop handler fuel p bytes avcc r s) (fun '(_, s') => I s').
Proof.
  revert p bytes r s. induction fuel as [|fuel IH]; intros p bytes r s Hs Hp Hb Hb31 Hf Ha;
    cbn [avcc_nalu_loop]; ostep; (eapply post_mono; [by apply avcc_length_post; try lia|]);
    intros n Hn; cbv zeta.
  - ostep; [|done]. cbool. destruct (Z.leb_spec bytes avcc); unfold u32 in *; lia.
  - ostep; [|done]. cbool. destruct (Z.leb_spec bytes avcc); [unfold u32 in *; lia|].
    assert (Hu : 0 <= u32 n) by (unfold u32; lia).
    ostep. ostep. ostep. eapply (post_mono _ (fun '(_, s') => I s')).
    + ostep; [|by ostep]. cbool. ostep. apply post_rdn; try lia.
      destruct (slice_ok p avcc (u32 n)) as [? ?]; try (done || lia).
      apply handler_safe; try done; unfold s32, u32 in *; lia.
    + intros [r' s'] Hs'. apply IH; try done; [auto with zlist|rewrite zlen_adv; lia|lia|lia].
Qed.

Lemma annexb_nalu_safe h264 bytes s fmt :
  I s -> bytes_ok h264 -> 0 <= bytes <= zlen h264 -> bytes < 2 ^ 31 ->
  h264_bitstream_format h264 bytes = Ret fmt ->
  post (rtp_h264_annexb_nalu handler h264 bytes s) (fun '(_, s') => I s').
Proof.
  intros Hs Hb Hl Hb31 Ef. unfold rtp_h264_annexb_nalu. rewrite Ef. cbn [obind].
  destruct (Z.ltb_spec 0 fmt).
  - apply avcc_nalu_safe; try (done || lia). revert Ef. unfold h264_bitstream_format.
    intros Ef. repeat run_inv; repeat case_match; lia.
  - assert (exists next, h264_startcode h264 bytes = Ret next /\
            match next with Some o => 3 <= o < bytes | None => True end) as (next & -> & Hn).
    { destruct (h264_startcode_spec h264 bytes) as [[-> _]|(k & ? & ? & _ & _ & ->)]; [lia|by eexists|].
      eexists. split; [done|]. cbn. lia. }
    cbn [obind]. destruct next as [o|]; [|done].
    apply annexb_loop_safe; [done|auto with zlist|rewrite zlen_adv; lia|lia].
Qed.
End Safety.

(** ** Annex B streams *)

(** A NAL unit as the encoder leaves it: not empty, not ending in a zero byte,
    and without the emulated start code 00 00 01. *)
Record nal_ok (u : list Z) : Prop := {
  nal_bytes : bytes_ok u;
  nal_last : exists b, list.last u = Some b /\ b <> 0;
  nal_clean : forall i, u !! i = Some 0 -> u !! S i = Some 0 -> u !! S (S i) <> Some 1
}.

(** Units behind start codes of [k] zeros and a one. *)
Definition coded (us : list (nat * list Z)) : list Z :=
  flat_map (fun '(k, u) => replicate k 0 ++ 1 :: u) us.

(** The handler on each unit in order, the last one marked, up to its first
    non-zero return. *)
Fixpoint feed {S} (handler : S -> list Z -> Z -> Z -> outcome (Z * S)) (us : list (list Z)) (s : S)
  : outcome (Z * S) :=
  match us with
  | [] => Ret (0, s)
  | u :: us =>
      do* (r, s) <- handler s u (zlen u) (match us with [] => 1 | _ => 0 end) ;;
      if 0 =? r then feed handler us s else Ret (r, s)
  end.

Section Annexb.
Context `{Build}.

Lemma nal_nonempty u : nal_ok u -> u <> [].
Proof. by intros [_ (b & E & _) _] ->. Qed.

(** In [u], zeros, [tl] a start code is inside [u] or inside [tl]. *)
Lemma sc_at_zeros u k tl j :
  nal_ok u \/ u = [] -> 2 <= j < zlen u + Z.of_nat k -> ~ sc_at (u ++ replicate k 0 ++ tl) j.
Proof.
  intros Hu Hj (E1 & E2 & E3). destruct (Z.lt_ge_cases j (zlen u)) as [Hlt|Hge].
  - destruct Hu as [Hu| ->]; [|unfold zlen in *; simpl in *; lia].
    unfold zlen in *. rewrite !lookup_app_l in E1, E2, E3 by lia.
    apply (nal_clean _ Hu (Z.to_nat (j - 2))); [done|..].
    + by replace (S (Z.to_nat (j - 2))) with (Z.to_nat (j - 1)) by lia.
    + by replace (S (S (Z.to_nat (j - 2)))) with (Z.to_nat j) by lia.
  - unfold zlen in *. rewrite lookup_app_r, lookup_app_l in E1 by (rewrite ?length_replicate; lia).
    apply lookup_replicate in E1 as [? _]. done.
Qed.

Lemma startcode_none u z :
  nal_ok u -> h264_startcode (u ++ replicate z 0) (zlen (u ++ replicate z 0)) = Ret None.
Proof.
  intros Hu. destruct (h264_startcode_spec (u ++ replicate z 0) (zlen (u ++ replicate z 0)))
    as [[E _]|(k & Hk & Hk' & Hsc & _ & _)]; [lia|done|].
  exfalso. rewrite zlen_app, zlen_replicate in Hk'.
  apply (sc_at_zeros u z [] k); [by left|lia|]. by rewrite app_nil_r.
Qed.

Lemma startcode_some u k v rest :
  nal_ok u \/ u = [] -> (2 <= k)%nat -> v <> [] ->
  h264_startcode (u ++ replicate k 0 ++ 1 :: v ++ rest)
    (zlen (u ++ replicate k 0 ++ 1 :: v ++ rest)) = Ret (Some (zlen u + Z.of_nat k + 1)).
Proof.
  intros Hu Hk Hv. set (p := u ++ _).
  assert (Hlen : zlen u + Z.of_nat k + 1 < zlen p).
  { unfold p. rewrite !zlen_app, zlen_replicate, zlen_cons, zlen_app.
    destruct v; [done|]. rewrite zlen_cons. pose proof (zlen_nonneg v). pose proof (zlen_nonneg rest). lia. }
  pose proof (zlen_nonneg u).
  assert (Hsc : sc_at p (zlen u + Z.of_nat k)).
  { unfold sc_at, p, zlen. split_and!.
    - rewrite lookup_app_r, lookup_app_r by (rewrite ?length_replicate; lia).
      rewrite length_replicate.
      by replace (Z.to_nat _ - _ - _)%nat with 0%nat by lia.
    - rewrite lookup_app_r, lookup_app_l by (rewrite ?length_replicate; lia).
      apply lookup_replicate. split; [done|lia].
    - rewrite lookup_app_r, lookup_app_l by (rewrite ?length_replicate; lia).
      apply lookup_replicate. split; [done|lia]. }
  destruct (h264_startcode_spec p (zlen p)) as [[_ Hno]|(j & Hj & Hj' & Hsj & Hno & ->)]; [lia|..].
  - exfalso. by apply (Hno (zlen u + Z.of_nat k)); [lia|lia|].
  - do 2 f_equal. enough (j = zlen u + Z.of_nat k) by lia.
    destruct (Z.lt_trichotomy j (zlen u + Z.of_nat k)) as [Hlt|[->|Hgt]]; [|done|].
    + exfalso. by apply (sc_at_zeros u k (1 :: v ++ rest) j); [|lia|].
    + exfalso. by apply (Hno (zlen u + Z.of_nat k)); [lia|].
Qed.

Context {S : Type} (handler : S -> list Z -> Z -> Z -> outcome (Z * S)).

Lemma feed_cons u v us s :
  feed handler (u :: v :: us) s
  = (do* (r, s) <- handler s u (zlen u) 0 ;;
     if 0 =? r then feed handler (v :: us) s else Ret (r, s)).
Proof. done. Qed.

Lemma annexb_loop_spec us u z fuel s :
  nal_ok u -> Forall (fun '(k, v) => (2 <= k)%nat /\ nal_ok v) us ->
  (length us < fuel)%nat ->
  annexb_loop handler fuel (u ++ coded us ++ replicate z 0)
    (zlen (u ++ coded us ++ replicate z 0)) s
  = feed handler (u :: map snd us) s.
Proof.
  revert u fuel s. induction us as [|[k v] us IH]; intros u fuel s Hu Hus Hf;
    (destruct fuel as [|fuel]; [simpl in Hf; lia|]); cbn [annexb_loop].
  - cbn [coded flat_map app map feed]. rewrite startcode_none by done. cbn [obind]. cbv zeta.
    rewrite zlen_app, zlen_replicate. pose proof (nal_nonempty _ Hu).
    assert (0 < zlen u) by (destruct u; [done|unfold zlen; simpl; lia]).
    zif. replace (Z.to_nat _) with (length u + z)%nat by (unfold zlen; lia).
    pose proof (trim_zeros_spec u z []) as Ht. rewrite app_nil_r in Ht. rewrite Ht; [|done|].
    2: { destruct (nal_last _ Hu) as (b & -> & ?). congruence. }
    cbn [obind]. unfold c_assert. zif. cbn [orb obind]. rewrite rdn_all by done. cbn [obind].
    destruct (handler s u (zlen u) 1) as [[r s']|c]; [|done]. cbn [obind].
    destruct (Z.eqb_spec 0 r) as [<-|]; done.
  - apply Forall_cons_1 in Hus as [[Hk Hv] Hus].
    cbn [coded flat_map map snd]. fold (coded us).
    rewrite <- !app_assoc. cbn [app]. rewrite startcode_some by (eauto using nal_nonempty).
    cbn [obind]. cbv zeta. pose proof (nal_nonempty _ Hu).
    assert (0 < zlen u) by (destruct u; [done|unfold zlen; simpl; lia]).
    replace (zlen u + Z.of_nat k + 1 - 3) with (Z.of_nat (length u + (k - 2))) by (unfold zlen; lia).
    rewrite Nat2Z.id. assert (0 < length u)%nat by (unfold zlen in *; lia). zif.
    replace (replicate k 0) with (replicate (k - 2) 0 ++ replicate 2 (0 : Z))
      by (rewrite <- replicate_add; f_equal; lia).
    rewrite <- app_assoc, trim_zeros_spec; [|done|].
    2: { destruct (nal_last _ Hu) as (b & -> & ?). congruence. }
    cbn [obind]. unfold c_assert. zif. cbn [orb obind].
    rewrite rdn_all by done. cbn [obind]. rewrite feed_cons.
    destruct (handler s u (zlen u) 0) as [[r s']|c]; [|done]. cbn [obind].
    destruct (0 =? r); [|done].
    specialize (IH v fuel s' Hv Hus). rewrite <- IH by (simpl in Hf; lia).
    set (T := v ++ coded us ++ _).
    rewrite !app_assoc, <- (app_assoc _ _ (1 :: T)).
    assert (El : adv ((u ++ replicate (k - 2) 0) ++ replicate 2 0 ++ 1 :: T) (zlen u + Z.of_nat k + 1) = T).
    { rewrite app_assoc. change (1 :: T) with ([1] ++ T). rewrite app_assoc.
      apply adv_app. rewrite !zlen_app, !zlen_replicate. change (zlen [1]) with 1. lia. }
    rewrite El. f_equal. rewrite !zlen_app, !zlen_replicate, zlen_cons. lia.
Qed.

Lemma format_annexb k v rest :
  (3 <= k)%nat -> h264_bitstream_format (replicate k 0 ++ 1 :: v ++ rest)
    (zlen (replicate k 0 ++ 1 :: v ++ rest)) = Ret 0.
Proof.
  intros Hk. unfold h264_bitstream_format.
  rewrite zlen_app, zlen_replicate, zlen_cons. pose proof (zlen_nonneg (v ++ rest)). zif.
  destruct k as [|[|[|k]]]; try lia. cbn [replicate app].
  destruct k; done.
Qed.

Lemma annexb_stream_spec k u us z s :
  (3 <= k)%nat -> nal_ok u -> Forall (fun '(k, v) => (2 <= k)%nat /\ nal_ok v) us ->
  let stream := coded ((k, u) :: us) ++ replicate z 0 in
  rtp_h264_annexb_nalu handler stream (zlen stream) s = feed handler (u :: map snd us) s.
Proof.
  intros Hk Hu Hus. cbn [coded flat_map]. fold (coded us). cbv zeta.
  rewrite <- !app_assoc. cbn [app].
  set (T := u ++ coded us ++ replicate z 0).
  unfold rtp_h264_annexb_nalu. unfold T. rewrite format_annexb by done. fold T. cbn [obind].
  change (0 <? 0) with false. cbv iota.
  unfold T. pose proof (startcode_some [] k u (coded us ++ replicate z 0) (or_intror eq_refl)) as Es.
  cbn [app] in Es. rewrite Es by (auto using nal_nonempty; lia).
  fold T. cbn [obind app]. change (zlen []) with 0.
  assert (E : adv (replicate k 0 ++ 1 :: T) (0 + Z.of_nat k + 1) = T).
  { change (1 :: T) with ([1] ++ T). rewrite app_assoc. apply adv_app.
    rewrite zlen_app, zlen_replicate. change (zlen [1]) with 1. lia. }
  rewrite E. rewrite zlen_app, zlen_replicate, zlen_cons.
  replace (Z.of_nat k + (1 + zlen T) - (0 + Z.of_nat k + 1)) with (zlen T) by lia.
  apply annexb_loop_spec; try done.
  assert (length us <= length (coded us))%nat.
  { clear. induction us as [|[k v] us IH]; [done|]. cbn [coded flat_map length].
    fold (coded us). rewrite !length_app. simpl. lia. }
  unfold T, zlen. rewrite !length_app. lia.
Qed.
End Annexb.

(** ** AVCC streams *)
Definition avcc_coded (us : list (list Z)) : list Z := flat_map (fun u => be32 (zlen u) ++ u) us.

Definition avcc_unit (u : list Z) : Prop := bytes_ok u /\ 2 <= zlen u < 2 ^ 31 - 4.

Section Avcc.
Context `{Build}.

Lemma avcc_length_be32 n x bytes :
  0 <= n < 2 ^ 31 -> 4 < bytes -> h264_avcc_length (be32 n ++ x) bytes 4 = Ret n.
Proof.
  intros Hn Hb. unfold h264_avcc_length. change ((3 <=? 4) && (4 <=? 4)) with true.
  cbn [c_assert orb obind]. change (Z.to_nat 4) with 4%nat. unfold be32. cbn [avcc_length_loop app].
  repeat zif.
  change (rd (?a :: ?b :: ?c :: ?d :: x) 0) with (Ret a).
  change (rd (?a :: ?b :: ?c :: ?d :: x) (0 + 1)) with (Ret b).
  change (rd (?a :: ?b :: ?c :: ?d :: x) (0 + 1 + 1)) with (Ret c).
  change (rd (?a :: ?b :: ?c :: ?d :: x) (0 + 1 + 1 + 1)) with (Ret d). cbn [obind].
  f_equal. rewrite !Z.shiftl_mul_pow2, !Z.shiftr_div_pow2 by lia. unfold u8, u32.
  rewrite !(lor_add _ _ 8) by lia. unfold s32. lia.
Qed.

Lemma avcc_coded_cons u us : avcc_coded (u :: us) = be32 (zlen u) ++ u ++ avcc_coded us.
Proof. unfold avcc_coded. cbn [flat_map]. by rewrite <- app_assoc. Qed.

Lemma avcc_skip u us : adv (avcc_coded (u :: us)) (zlen u + 4) = avcc_coded us.
Proof.
  rewrite avcc_coded_cons, app_assoc. apply adv_app. rewrite zlen_app, zlen_be32. lia.
Qed.

Lemma avcc_valid us fuel :
  Forall avcc_unit us -> (length us <= fuel)%nat ->
  avcc_valid_loop fuel (avcc_coded us) (zlen (avcc_coded us)) 4 = Ret true.
Proof.
  revert us. induction fuel as [|fuel IH]; intros [|u us] Hus Hf; try (simpl in Hf; lia); try done.
  apply Forall_cons_1 in Hus as [[_ Hu] Hus]. cbn [avcc_valid_loop].
  assert (Hl : zlen (avcc_coded (u :: us)) = zlen u + 4 + zlen (avcc_coded us)).
  { rewrite avcc_coded_cons, !zlen_app, zlen_be32. lia. }
  pose proof (zlen_nonneg (avcc_coded us)). zif.
  rewrite avcc_coded_cons at 1. rewrite avcc_length_be32 by lia. cbn [obind]. zif.
  unfold c_int. do 2 zif. cbn [andb obind]. zif. rewrite avcc_skip, Hl.
  replace (zlen u + 4 + zlen (avcc_coded us) - (zlen u + 4)) with (zlen (avcc_coded us)) by lia.
  apply IH; [done|simpl in Hf; lia].
Qed.

Lemma length_avcc_coded us : (length us <= length (avcc_coded us))%nat.
Proof.
  induction us as [|u us IH]; [done|]. rewrite avcc_coded_cons, !length_app. simpl. lia.
Qed.

Lemma format_avcc u us :
  Forall avcc_unit (u :: us) ->
  h264_bitstream_format (avcc_coded (u :: us)) (zlen (avcc_coded (u :: us))) = Ret 4.
Proof.
  intros Hus. pose proof (Forall_cons_1 _ _ _ Hus) as [[_ Hu] _].
  unfold h264_bitstream_format, h264_avcc_bitstream_valid.
  rewrite (avcc_valid (u :: us)) by (done || (pose proof (length_avcc_coded (u :: us)); unfold zlen; lia)).
  rewrite avcc_coded_cons, !zlen_app, zlen_be32.
  pose proof (zlen_nonneg (avcc_coded us)). zif. unfold be32.
  change (rd ([?a; ?b; ?c; ?d] ++ ?x) 0) with (Ret a).
  change (rd ([?a; ?b; ?c; ?d] ++ ?x) 1) with (Ret b).
  change (rd ([?a; ?b; ?c; ?d] ++ ?x) 2) with (Ret c).
  change (rd ([?a; ?b; ?c; ?d] ++ ?x) 3) with (Ret d). cbn [obind]. cbv zeta.
  rewrite !Z.shiftl_mul_pow2, !Z.shiftr_div_pow2 by lia. unfold u8.
  rewrite (lor_add (_ * 2 ^ 16) _ 16), (lor_add _ _ 8) by lia.
  set (n := _ + _ + _). assert (Hn : n = zlen u / 256) by (unfold n; lia). clearbody n.
  replace ((0 =? n) && _) with false by (symmetry; cbool; lia).
  by destruct (1 =? n).
Qed.

Context {S : Type} (handler : S -> list Z -> Z -> Z -> outcome (Z * S)).

Lemma avcc_nalu_loop_end fuel r s : avcc_nalu_loop handler fuel [] 0 4 r s = Ret (r, s).
Proof.
  assert (E : h264_avcc_length [] 0 4 = Ret (-1)) by done.
  destruct fuel; cbn [avcc_nalu_loop]; rewrite E; cbn [obind]; cbv zeta; by destruct (0 =? r).
Qed.

Lemma avcc_nalu_stop fuel us r s :
  Forall avcc_unit us -> r <> 0 ->
  avcc_nalu_loop handler fuel (avcc_coded us) (zlen (avcc_coded us)) 4 r s = Ret (r, s).
Proof.
  intros Hus Hr. destruct us as [|u us]; [apply avcc_nalu_loop_end|].
  apply Forall_cons_1 in Hus as [[_ Hu] _]. pose proof (zlen_nonneg (avcc_coded us)).
  rewrite avcc_coded_cons, !zlen_app, zlen_be32.
  destruct fuel; cbn [avcc_nalu_loop]; rewrite avcc_length_be32 by lia; cbn [obind]; cbv zeta; by zif.
Qed.

Lemma avcc_nalu_spec us fuel s :
  Forall avcc_unit us -> (length us <= fuel)%nat ->
  avcc_nalu_loop handler fuel (avcc_coded us) (zlen (avcc_coded us)) 4 0 s = feed handler us s.
Proof.
  revert us s. induction fuel as [|fuel IH]; intros [|u us] s Hus Hf; try (simpl in Hf; lia);
    try apply avcc_nalu_loop_end.
  pose proof (Forall_cons_1 _ _ _ Hus) as [[_ Hu] Hus'].
  assert (Hl : zlen (avcc_coded (u :: us)) = zlen u + 4 + zlen (avcc_coded us)).
  { rewrite avcc_coded_cons, !zlen_app, zlen_be32. lia. }
  pose proof (zlen_nonneg (avcc_coded us)). cbn [avcc_nalu_loop].
  rewrite avcc_coded_cons at 1. rewrite avcc_length_be32 by lia. cbn [obind]. cbv zeta.
  replace (u32 (zlen u)) with (zlen u) by (unfold u32; lia).
  change (0 =? 0) with true. cbn [andb]. zif. unfold c_assert. zif. cbn [orb obind].
  rewrite avcc_coded_cons at 1. rewrite rdn_app by done. cbn [obind].
  replace (s32 (zlen u)) with (zlen u) by (unfold s32; lia).
  rewrite avcc_skip, Hl.
  replace (zlen u + 4 + zlen (avcc_coded us) - (zlen u + 4)) with (zlen (avcc_coded us)) by lia.
  assert (Hlast : (if 4 + zlen u <? zlen u + 4 + zlen (avcc_coded us) then 0 else 1)
                  = match us with [] => 1 | _ => 0 end).
  { destruct us as [|v us]; [change (zlen (avcc_coded [])) with 0 in *; by zif|].
    rewrite avcc_coded_cons, !zlen_app, zlen_be32.
    pose proof (zlen_nonneg v). pose proof (zlen_nonneg (avcc_coded us)). by zif. }
  rewrite Hlast. cbn [feed]. destruct (handler s u (zlen u) _) as [[r s']|c]; [|done]. cbn [obind].
  destruct (Z.eqb_spec 0 r) as [<-|]; [apply IH; [done|simpl in Hf; lia]|].
  by apply avcc_nalu_stop; [|lia].
Qed.

Lemma avcc_stream_spec u us s :
  Forall avcc_unit (u :: us) ->
  rtp_h264_annexb_nalu handler (avcc_coded (u :: us)) (zlen (avcc_coded (u :: us))) s
  = feed handler (u :: us) s.
Proof.
  intros Hus. unfold rtp_h264_annexb_nalu. rewrite format_avcc by done. cbn [obind].
  change (0 <? 4) with true. cbv iota. apply avcc_nalu_spec; [done|].
  pose proof (length_avcc_coded (u :: us)). unfold zlen. lia.
Qed.
End Avcc.

(** ** The properties *)
Section Properties.
Context `{Build} {S : Type} (handler : S -> list Z -> Z -> Z -> outcome (Z * S)).

(** C33. Annex B streams: units behind start codes of any number of zeros (three
    at the first, two or more at the others) and with zeros behind the last are
    handed over one by one, in order, without start codes or padding, the last
    one marked, up to the first error of the handler. *)
Theorem rtp_h264_annexb_nalu_splits k u us z s :
  (3 <= k)%nat -> nal_ok u -> Forall (fun '(k, v) => (2 <= k)%nat /\ nal_ok v) us ->
  let stream := coded ((k, u) :: us) ++ replicate z 0 in
  rtp_h264_annexb_nalu handler stream (zlen stream) s = feed handler (u :: map snd us) s.
Proof. apply annexb_stream_spec. Qed.

(** C0. AVCC streams: the format detection recognises units of at least two
    bytes behind 4-byte lengths, and they are handed over like Annex B units,
    whatever start codes they contain. *)
Theorem rtp_h264_annexb_nalu_avcc u us s :
  Forall avcc_unit (u :: us) ->
  rtp_h264_annexb_nalu handler (avcc_coded (u :: us)) (zlen (avcc_coded (u :: us))) s
  = feed handler (u :: us) s.
Proof. apply avcc_stream_spec. Qed.

(** C0. Any buffer whose format detection returns: no access outside it, every
    loop ends, and the handler only gets non-empty slices of it. *)
Theorem rtp_h264_annexb_nalu_safe (I : S -> Prop) h264 bytes s fmt :
  (forall s nalu n last, I s -> bytes_ok nalu -> n = zlen nalu -> 0 < n ->
     post (handler s nalu n last) (fun '(_, s') => I s')) ->
  I s -> bytes_ok h264 -> 0 <= bytes <= zlen h264 -> bytes < 2 ^ 31 ->
  h264_bitstream_format h264 bytes = Ret fmt ->
  post (rtp_h264_annexb_nalu handler h264 bytes s) (fun '(_, s') => I s').
Proof. intros. by eapply annexb_nalu_safe. Qed.
End Properties.

(** C0. The detection does not return on every buffer: a first length of
    2^31 - 4 or more makes [n + avcc] overflow an [int]. *)
Theorem h264_bitstream_format_overflow `{Build} n x :
  2 ^ 31 - 4 <= n < 2 ^ 31 -> 2 <= zlen x ->
  h264_bitstream_format (be32 n ++ x) (4 + zlen x) = Crash IntOverflow.
Proof.
  intros Hn Hx. unfold h264_bitstream_format. zif.
  assert (Hv : h264_avcc_bitstream_valid (be32 n ++ x) (4 + zlen x) 4 = Crash IntOverflow).
  { unfold h264_avcc_bitstream_valid. destruct (Z.to_nat (4 + zlen x)) as [|f] eqn:E; [lia|].
    cbn [avcc_valid_loop]. zif. rewrite avcc_length_be32 by lia. cbn [obind]. zif.
    unfold c_int. by do 2 zif. }
  rewrite Hv. unfold be32. change (rd ([?a; ?b; ?c; ?d] ++ ?x) 0) with (Ret a).
  change (rd ([?a; ?b; ?c; ?d] ++ ?x) 1) with (Ret b).
  change (rd ([?a; ?b; ?c; ?d] ++ ?x) 2) with (Ret c).
  change (rd ([?a; ?b; ?c; ?d] ++ ?x) 3) with (Ret d). cbn [obind]. cbv zeta.
  rewrite !Z.shiftl_mul_pow2, !Z.shiftr_div_pow2 by lia. unfold u8.
  rewrite (lor_add (_ * 2 ^ 16) _ 16), (lor_add _ _ 8) by lia.
  set (m := _ + _ + _). assert (Hm : m = n / 256) by (unfold m; lia). clearbody m.
  replace (0 =? m) with false by (symmetry; cbool; lia). cbn [andb]. by zif.
Qed.

(** A handler that collects the units with their mark. *)
Definition collect (s : list (list Z * Z)) (nalu : list Z) (n last : Z)
  : outcome (Z * list (list Z * Z)) := Ret (0, s ++ [(nalu, last)]).

Definition sample_nal (b : Z) : list Z := [b; 1; 7; 0; 0; 3; b].
Lemma sample_nal_ok b : 0 < b < 256 -> nal_ok (sample_nal b).
Proof.
  intros Hb. split.
  - repeat constructor; unfold is_byte; lia.
  - exists b. split; [done|lia].
  - intros i. do 7 (destruct i as [|i]; [simpl; congruence|]). by simpl.
Qed.

Lemma rtp_h264_annexb_nalu_splits_witness :
  let stream := coded [(3%nat, sample_nal 64); (2%nat, sample_nal 66)] ++ replicate 2 0 in
  @rtp_h264_annexb_nalu default_build _ collect stream (zlen stream) []
  = feed collect [sample_nal 64; sample_nal 66] [].
Proof.
  apply (@rtp_h264_annexb_nalu_splits default_build _ collect 3 (sample_nal 64) [(2%nat, sample_nal 66)] 2).
  - lia.
  - apply sample_nal_ok. lia.
  - apply Forall_singleton. split; [lia|apply sample_nal_ok; lia].
Defined.

Lemma rtp_h264_annexb_nalu_avcc_witness :
  let stream := avcc_coded [[64; 0; 0; 1; 5]; [66; 1]] in
  @rtp_h264_annexb_nalu default_build _ collect stream (zlen stream) []
  = Ret (0, [([64; 0; 0; 1; 5], 0); ([66; 1], 1)]).
Proof.
  apply (@rtp_h264_annexb_nalu_avcc default_build _ collect [64; 0; 0; 1; 5] [[66; 1]]).
  repeat constructor; unfold is_byte; try lia; done.
Defined.

Lemma rtp_h264_annexb_nalu_safe_witness :
  @post default_build _ (@rtp_h264_annexb_nalu default_build _ collect (replicate 9 0) 9 [])
    (fun '(_, _) => True).
Proof.
  apply (@rtp_h264_annexb_nalu_safe default_build _ collect (fun _ => True) (replicate 9 0) 9 [] 0);
    try done.
  apply Forall_replicate. unfold is_byte. lia.
Defined.

Lemma h264_bitstream_format_overflow_witness :
  @h264_bitstream_format default_build [127; 255; 255; 255; 9; 9] 6 = Crash IntOverflow.
Proof. apply (h264_bitstream_format_overflow (H:=default_build) (2 ^ 31 - 1) [9; 9]); [lia|done]. Defined.
