(* ===== verification/Payload.v ===== *)
(** The payload interface between the RTP layer and the video code
    (lib/librtp/include/rtp-payload.h, payload/rtp-payload-internal.h) and what
    the H.264, H.265 and H.266 packers share. *)

From S2P Require Import Prelude RtpUtil RtpPacket.

Definition RTP_PAYLOAD_FLAG_PACKET_LOST : Z := 256.
Definition RTP_PAYLOAD_FLAG_PACKET_CORRUPT : Z := 512.
Definition RTP_PAYLOAD_MAX_SIZE : Z := 10 * 1024 * 1024.

(** The client's callbacks, on the client's state [S].  [h_alloc] grants a block
    or not; [h_packet] gets the bytes it may read, the timestamp and the flags,
    and returns 0 to go on. *)
Record rtp_payload_t (S : Type) := mk_payload {
  h_alloc : S -> Z -> option (list Z) * S;
  h_free : S -> S;
  h_packet : S -> list Z -> Z -> Z -> Z * S
}.
Arguments mk_payload {S}.
Arguments h_alloc {S}.
Arguments h_free {S}.
Arguments h_packet {S}.

(** The allocator gives at least what it is asked for. *)
Definition alloc_sized {S} (h : rtp_payload_t S) : Prop :=
  forall s n buf s', h_alloc h s n = (Some buf, s') -> n <= zlen buf.

(** A client that grants every block, accepts every packet and keeps them. *)
Definition delivery : Type := list Z * Z * Z.
Definition log_handler : rtp_payload_t (list delivery) :=
  mk_payload (fun s n => (Some (replicate (Z.to_nat n) 0), s)) (fun s => s)
    (fun s data ts flags => (0, s ++ [(data, ts, flags)])).

(** A client that grants every block and accepts every packet: a packet that fills the
    block it was granted changes its state by [g]. *)
Definition accepts {S} (h : rtp_payload_t S) (g : S -> delivery -> S) : Prop :=
  forall s n, 0 <= n -> exists buf s1, h_alloc h s n = (Some buf, s1) /\ n <= zlen buf /\
    forall data ts fl, zlen data = n -> exists s2, h_packet h s1 data ts fl = (0, s2) /\ h_free h s2 = g s (data, ts, fl).

Definition snoc (log : list delivery) (d : delivery) : list delivery := log ++ [d].

Lemma log_accepts : accepts log_handler snoc.
Proof.
  intros s n Hn. eexists _, _. split; [done|]. split; [rewrite zlen_replicate; lia|].
  intros data ts fl _. by eexists.
Qed.

Lemma fold_snoc l log : fold_left snoc l log = log ++ l.
Proof.
  revert log. induction l as [|d l IH]; intros log; [by rewrite app_nil_r|].
  cbn [fold_left]. rewrite IH. unfold snoc. by rewrite <- app_assoc.
Qed.

Lemma log_alloc_sized : alloc_sized log_handler.
Proof. intros s n buf s' [= <- <-]. rewrite zlen_replicate. lia. Qed.

(** ** Maximum packet size (rtp-payload.c) *)
Definition rtp_packet_setsize (bytes : Z) : Z := if bytes <? 564 then 564 else bytes.
Definition s_max_packet_size : Z := 1434.

(** ** The packer state *)
Record rtp_packer := mk_packer {
  ppkt : rtp_packet_t;
  psize : Z
}.

Definition set_pkt (pk : rtp_packer) (p : rtp_packet_t) : rtp_packer := mk_packer p (psize pk).

Definition with_m (h : rtp_header_t) (m : Z) : rtp_header_t :=
  mk_rtp_header (hv h) (hp h) (hx h) (cc h) m (pt h) (seq h) (timestamp h) (ssrc h).
Definition with_seq (h : rtp_header_t) (s : Z) : rtp_header_t :=
  mk_rtp_header (hv h) (hp h) (hx h) (cc h) (hm h) (pt h) s (timestamp h) (ssrc h).
Definition with_timestamp (h : rtp_header_t) (ts : Z) : rtp_header_t :=
  mk_rtp_header (hv h) (hp h) (hx h) (cc h) (hm h) (pt h) (seq h) ts (ssrc h).

Definition set_m (pk : rtp_packer) (m : Z) : rtp_packer :=
  set_pkt pk (set_rtp (ppkt pk) (with_m (rtp (ppkt pk)) m)).
(** [++packer->pkt.rtp.seq], a 16-bit field. *)
Definition next_seq (pk : rtp_packer) : rtp_packer :=
  set_pkt pk (set_rtp (ppkt pk) (with_seq (rtp (ppkt pk)) (u16 (seq (rtp (ppkt pk)) + 1)))).
Definition set_ts (pk : rtp_packer) (ts : Z) : rtp_packer :=
  set_pkt pk (set_rtp (ppkt pk) (with_timestamp (rtp (ppkt pk)) ts)).
Definition set_data (pk : rtp_packer) (data : list Z) (n : Z) : rtp_packer :=
  set_pkt pk (set_payload (ppkt pk) data n).

(** [calloc], then the version, the payload type (7 bits of a [uint8_t]), the
    first sequence number and the source. *)
Definition pack_create (size ptype sq src : Z) : rtp_packer :=
  mk_packer (set_rtp zero_packet (mk_rtp_header RTP_VERSION 0 0 0 0 (u8 ptype mod 2 ^ 7) sq 0 src)) size.

Definition pack_get_info (pk : rtp_packer) : Z * Z :=
  (seq (rtp (ppkt pk)), timestamp (rtp (ppkt pk))).

Section Pack.
Context `{Build} {S : Type} (h : rtp_payload_t S).

(** ** A NAL unit in a packet of its own
    ([rtp_h264_pack_nalu], [rtp_h265_pack_nalu], [rtp_h266_pack_nalu] behind
    their length checks; [vcl]: the unit is a slice
    of a picture, which its byte [at_] tells). *)
Definition pack_single_at (at_ : Z) (pk : rtp_packer) (s : S) (nalu : list Z) (bytes mark : Z)
    (vcl : Z -> bool) : outcome (Z * (rtp_packer * S)) :=
  let pk := set_data pk nalu bytes in
  let n := RTP_FIXED_HEADER + payloadlen (ppkt pk) in
  let '(rtp, s) := h_alloc h s n in
  match rtp with
  | None => Ret (- ENOMEM, (pk, s))
  | Some buf =>
      do b <- rd nalu at_ ;;
      let pk := set_m pk (if vcl b then mark else 0) in
      do* (n, buf) <- rtp_packet_serialize (ppkt pk) buf n ;;
      if negb (n =? RTP_FIXED_HEADER + payloadlen (ppkt pk)) then
        c_assert false ;;;
        Ret (-1, (pk, s))
      else
        let pk := next_seq pk in
        do data <- rdn buf 0 n ;;
        let '(r, s) := h_packet h s data (timestamp (RtpPacket.rtp (ppkt pk))) 0 in
        let s := h_free h s in
        Ret (r, (pk, s))
  end.

Definition pack_single : rtp_packer -> S -> list Z -> Z -> Z -> (Z -> bool) -> outcome (Z * (rtp_packer * S)) :=
  pack_single_at 0.

(** ** A NAL unit in fragments: the loop of [rtp_h264_pack_fu_a] and
    [rtp_h265_pack_fu], which differ in the bytes [hdr] before the FU header and
    in the [mask] of its type. *)
Definition FU_START : Z := 128.
Definition FU_END : Z := 64.

Fixpoint pack_fu_loop (fuel : nat) (hdr : list Z) (mask : Z) (pk : rtp_packer) (s : S)
    (fu_header : Z) (ptr : list Z) (bytes mark r : Z) : outcome (Z * (rtp_packer * S)) :=
  let N_FU_HEADER := zlen hdr + 1 in
  if (0 =? r) && (0 <? bytes) then
    match fuel with
    | O => Crash Diverge
    | Datatypes.S fuel =>
        do* (fu_header, len) <-
          (if bytes + RTP_FIXED_HEADER <=? psize pk - N_FU_HEADER then
             c_assert (0 =? Z.land fu_header FU_START) ;;;
             Ret (Z.lor FU_END (Z.land fu_header mask), bytes)
           else Ret (fu_header, psize pk - RTP_FIXED_HEADER - N_FU_HEADER)) ;;
        let pk := set_data pk ptr len in
        let n := RTP_FIXED_HEADER + N_FU_HEADER + len in
        let '(rtp, s) := h_alloc h s n in
        match rtp with
        | None => Ret (- ENOMEM, (pk, s))
        | Some buf =>
            let pk := set_m pk (if Z.land FU_END fu_header =? 0 then 0 else mark) in
            do* (n, buf) <- rtp_packet_serialize_header (ppkt pk) buf n ;;
            if negb (n =? RTP_FIXED_HEADER) then
              c_assert false ;;;
              Ret (-1, (pk, s))
            else
              do buf <- wrn buf n (hdr ++ [fu_header]) ;;
              do src <- rdn ptr 0 len ;;
              do buf <- wrn buf (n + N_FU_HEADER) src ;;
              do data <- rdn buf 0 (n + N_FU_HEADER + len) ;;
              let '(r, s) := h_packet h s data (timestamp (RtpPacket.rtp (ppkt pk))) 0 in
              let s := h_free h s in
              pack_fu_loop fuel hdr mask (next_seq pk) s (Z.land fu_header mask)
                (adv ptr len) (bytes - len) mark r
        end
    end
  else Ret (r, (pk, s)).
End Pack.
