(* ===== verification/PayloadSpec.v ===== *)
(** What the packers emit: one packet per NAL unit that fits, fragments of it
    otherwise, with consecutive sequence numbers. *)

From S2P Require Import Prelude RtpUtil RtpPacket Payload.

(** The packer holds a header a packet can be built from, without CSRC list and
    extension, as [pack_create] leaves it. *)
Record packer_ok (pk : rtp_packer) : Prop := {
  pko_header : header_ok (rtp (ppkt pk));
  pko_version : hv (rtp (ppkt pk)) = RTP_VERSION;
  pko_p : hp (rtp (ppkt pk)) = 0;
  pko_x : hx (rtp (ppkt pk)) = 0;
  pko_cc : cc (rtp (ppkt pk)) = 0;
  pko_csrc : zlen (csrc (ppkt pk)) = 16 /\ Forall is_u32 (csrc (ppkt pk));
  pko_ext : extlen (ppkt pk) = 0 /\ is_u16 (extprofile (ppkt pk))
}.

(** A packet with that header, the marker [m] and the payload [pl]. *)
Definition video_packet (hd : rtp_header_t) (m : Z) (pl : list Z) : rtp_packet_t :=
  mk_rtp_packet (with_m hd m) (replicate 16 0) [] 0 0 pl (zlen pl).

Definition advance (hd : rtp_header_t) (n : Z) : rtp_header_t := with_seq hd (u16 (seq hd + n)).

(** Payloads with their markers, sent from header [hd] on. *)
Fixpoint emit (hd : rtp_header_t) (units : list (Z * list Z)) : list delivery :=
  match units with
  | [] => []
  | (m, pl) :: units =>
      (packet_bytes (video_packet hd m pl), timestamp hd, 0) :: emit (advance hd 1) units
  end.

(** The header up to its marker, which every packet sets. *)
Definition stream (hd : rtp_header_t) : rtp_header_t := with_m hd 0.

(** [pk'] is [pk] after [n] packets. *)
Record moved (pk : rtp_packer) (n : Z) (pk' : rtp_packer) : Prop := {
  mv_ok : packer_ok pk';
  mv_size : psize pk' = psize pk;
  mv_stream : stream (rtp (ppkt pk')) = stream (advance (rtp (ppkt pk)) n)
}.

(** The payloads of the fragments: [hdr], the FU header (start 0x80, end 0x40,
    type [ty]) and at most [c] bytes of the unit. *)
Fixpoint fragments (fuel : nat) (hdr : list Z) (c : Z) (first : bool) (ty mark : Z) (data : list Z)
  : list (Z * list Z) :=
  match fuel with
  | O => []
  | S fuel =>
      let st := if first then 128 else 0 in
      if zlen data <=? c then [(mark, hdr ++ [st + 64 + ty] ++ data)]
      else (0, hdr ++ [st + ty] ++ take (Z.to_nat c) data)
             :: fragments fuel hdr c false ty mark (adv data c)
  end.

Section Headers.
Implicit Types hd : rtp_header_t.

Lemma emit_stream hd units : emit (stream hd) units = emit hd units.
Proof.
  revert hd. induction units as [|[m pl] units IH]; intros hd; [done|].
  cbn [emit]. f_equal. rewrite <- (IH (advance hd 1)), <- IH. done.
Qed.

Lemma emit_app hd us1 us2 :
  is_u16 (seq hd) -> emit hd (us1 ++ us2) = emit hd us1 ++ emit (advance hd (zlen us1)) us2.
Proof.
  revert hd. induction us1 as [|[m pl] us1 IH]; intros hd Hs.
  - cbn. unfold advance. rewrite zlen_nil, Z.add_0_r, u16_small by done. by destruct hd.
  - cbn [emit app]. rewrite IH by (cbn; unfold is_u16, u16; lia). cbn [app].
    f_equal. f_equal. unfold advance. cbn. f_equal. rewrite zlen_cons. unfold u16. f_equal. lia.
Qed.

Lemma with_m_ok hd m : header_ok hd -> 0 <= m < 2 -> header_ok (with_m hd m).
Proof. intros [] ?. by constructor. Qed.
Lemma advance_ok hd n : header_ok hd -> header_ok (advance hd n).
Proof. intros []. constructor; try done. cbn. unfold is_u16, u16. lia. Qed.
Lemma advance_0 hd : header_ok hd -> advance hd 0 = hd.
Proof. intros Hh. unfold advance. rewrite Z.add_0_r, u16_small by apply Hh. by destruct hd. Qed.
Lemma advance_advance hd n m : advance (advance hd n) m = advance hd (n + m).
Proof. unfold advance. cbn. f_equal. unfold u16. lia. Qed.
End Headers.

(** A header without CSRC list, extension and padding. *)
Record plain (hd : rtp_header_t) : Prop := {
  pl_header : header_ok hd;
  pl_version : hv hd = RTP_VERSION;
  pl_p : hp hd = 0;
  pl_x : hx hd = 0;
  pl_cc : cc hd = 0
}.

Lemma packer_plain pk : packer_ok pk -> plain (rtp (ppkt pk)).
Proof. intros []. by constructor. Qed.

Lemma advance_plain hd n : plain hd -> plain (advance hd n).
Proof. intros []. constructor; try done. by apply advance_ok. Qed.

Lemma with_ts_plain hd ts : plain hd -> is_u32 ts -> plain (with_timestamp hd ts).
Proof. intros [[]] ?. by constructor. Qed.

(** The receiver parses what [emit] sends. *)
Lemma deserialize_video `{Build} pkt0 hd m pl :
  plain hd -> 0 <= m < 2 ->
  exists pkt, rtp_packet_deserialize pkt0 (packet_bytes (video_packet hd m pl))
                (zlen (packet_bytes (video_packet hd m pl))) = Ret (0, pkt) /\
    rtp pkt = with_m hd m /\ payload pkt = pl /\ payloadlen pkt = zlen pl.
Proof.
  intros [] Hm. set (vp := video_packet hd m pl).
  assert (Hok : packet_ok vp).
  { constructor; cbn; try done; try (pose proof (zlen_nonneg pl); lia).
    - by apply with_m_ok.
    - repeat constructor; unfold is_u32; lia. }
  exists (parsed vp []). rewrite <- (app_nil_r (packet_bytes vp)) at 1.
  rewrite deserialize_spec by done. split; [done|]. unfold parsed. cbn. split_and!; try done.
  rewrite app_nil_r. unfold payload_bytes. cbn. unfold zlen. by rewrite Nat2Z.id, firstn_all.
Qed.

Section PackerOk.
Implicit Types pk : rtp_packer.

Lemma pack_create_ok size ptype sq src :
  is_u16 sq -> is_u32 src -> packer_ok (pack_create size ptype sq src).
Proof.
  intros. constructor; try done.
  - constructor; try done; cbn; try lia.
  - cbn. split; [done|]. repeat constructor; unfold is_u32; lia.
Qed.

Lemma set_data_ok pk data n : packer_ok pk -> packer_ok (set_data pk data n).
Proof. intros []. by constructor. Qed.
Lemma set_m_ok pk m : packer_ok pk -> 0 <= m < 2 -> packer_ok (set_m pk m).
Proof. intros [] ?. constructor; try done. by apply with_m_ok. Qed.
Lemma next_seq_ok pk : packer_ok pk -> packer_ok (next_seq pk).
Proof. intros []. constructor; try done. by apply advance_ok. Qed.
Lemma set_ts_ok pk ts : packer_ok pk -> is_u32 ts -> packer_ok (set_ts pk ts).
Proof. intros [[]] ?. constructor; try done. Qed.

Lemma moved_refl pk : packer_ok pk -> moved pk 0 pk.
Proof. intros Hp. split; [done|done|]. by rewrite advance_0 by apply Hp. Qed.

Lemma moved_trans pk pk1 pk2 n m : moved pk n pk1 -> moved pk1 m pk2 -> moved pk (n + m) pk2.
Proof.
  intros [] [Ho Hs Hst]. split; [done|congruence|]. rewrite Hst, <- advance_advance.
  assert (E : forall a b k, stream a = stream b -> stream (advance a k) = stream (advance b k)).
  { intros [] [] k [= -> -> -> -> -> -> -> ->]. done. }
  by apply E.
Qed.

Lemma moved_emit pk n pk1 us :
  moved pk n pk1 -> emit (rtp (ppkt pk1)) us = emit (advance (rtp (ppkt pk)) n) us.
Proof. intros [_ _ Hst]. by rewrite <- emit_stream, Hst, emit_stream. Qed.

(** One packet: the payload, the marker, then the next number. *)
Lemma moved_step pk data n m :
  packer_ok pk -> 0 <= m < 2 -> moved pk 1 (next_seq (set_m (set_data pk data n) m)).
Proof. intros. split; [|done|done]. apply next_seq_ok, set_m_ok; [by apply set_data_ok|done]. Qed.

Lemma packer_packet_ok pk data n m :
  packer_ok pk -> 0 <= m < 2 -> 0 <= n <= zlen data -> packet_ok (ppkt (set_m (set_data pk data n) m)).
Proof.
  intros [] Hm Hn. constructor; cbn; try done; try lia; try apply pko_csrc0; try apply pko_ext0.
  - by apply with_m_ok.
Qed.

Lemma packer_header_bytes pk data n m :
  packer_ok pk -> packet_header_bytes (ppkt (set_m (set_data pk data n) m))
                  = rtp_header_bytes (with_m (rtp (ppkt pk)) m).
Proof.
  intros []. unfold packet_header_bytes, csrc_bytes, extension_bytes. cbn.
  by rewrite pko_x0, pko_cc0.
Qed.

Lemma video_packet_ok pk m pl :
  packer_ok pk -> 0 <= m < 2 -> packet_ok (video_packet (rtp (ppkt pk)) m pl).
Proof.
  intros [] Hm. constructor; cbn; try done; try (pose proof (zlen_nonneg pl); lia).
  - by apply with_m_ok.
  - repeat constructor; unfold is_u32; lia.
Qed.

Lemma video_packet_bytes pk m pl :
  packer_ok pk ->
  packet_bytes (video_packet (rtp (ppkt pk)) m pl)
  = rtp_header_bytes (with_m (rtp (ppkt pk)) m) ++ pl.
Proof.
  intros []. unfold packet_bytes, packet_header_bytes, csrc_bytes, extension_bytes, payload_bytes.
  cbn [video_packet rtp with_m cc hx csrc payload payloadlen]. rewrite pko_x0, pko_cc0. cbn [Z.eqb].
  change (Z.to_nat 0) with 0%nat. cbn [take flat_map app]. rewrite app_nil_r.
  unfold zlen. by rewrite Nat2Z.id, firstn_all.
Qed.
End PackerOk.

(** Any client whose allocator gives what it is asked for: safe, and the
    assertions hold. *)
Section AnyClient.
Context `{Build} {S : Type} (h : rtp_payload_t S).
Hypothesis h_sized : alloc_sized h.

Definition packer_kept pk (res : Z * (rtp_packer * S)) : Prop :=
  packer_ok (fst (snd res)) /\ psize (fst (snd res)) = psize pk.

Lemma pack_single_at_safe i pk s nalu mark vcl :
  packer_ok pk -> 0 <= mark < 2 -> 0 <= i < zlen nalu ->
  exists res, pack_single_at h i pk s nalu (zlen nalu) mark vcl = Ret res /\ packer_kept pk res.
Proof.
  intros Hp Hmark Hl. destruct (lookup_lt_is_Some_2 nalu (Z.to_nat i)) as [b0 Eb]; [unfold zlen in *; lia|].
  apply rd_lookup in Eb; [|lia]. set (m := if vcl b0 : bool then mark else 0).
  assert (Hm : 0 <= m < 2) by (unfold m; destruct (vcl b0); lia).
  unfold pack_single_at. cbv zeta. cbn [set_data set_pkt ppkt set_payload payloadlen].
  destruct (h_alloc h s _) as [[buf0|] s1] eqn:Ea.
  2: { eexists. split; [done|]. split; [by apply set_data_ok|done]. }
  apply h_sized in Ea. rewrite Eb. cbn [obind]. fold m.
  set (pk1 := set_m _ m).
  assert (Hok : packet_ok (ppkt pk1)) by (apply (packer_packet_ok pk); [done|done|lia]).
  assert (Hb : zlen (packet_bytes (ppkt pk1)) = RTP_FIXED_HEADER + zlen nalu).
  { unfold packet_bytes. rewrite zlen_app, (zlen_payload_bytes _ Hok).
    unfold pk1. rewrite packer_header_bytes by done. rewrite zlen_rtp_header_bytes. done. }
  rewrite serialize_spec; [|done|lia]. cbn [obind]. rewrite Hb.
  change (payloadlen (ppkt pk1)) with (zlen nalu). rewrite Z.eqb_refl. cbn [negb].
  rewrite rdn_all by done. cbn [obind].
  destruct (h_packet h s1 _ _ 0) as [r s2]. eexists. split; [done|].
  by destruct (moved_step pk nalu (zlen nalu) m Hp Hm).
Qed.

Lemma pack_single_safe pk s nalu mark vcl :
  packer_ok pk -> 0 <= mark < 2 -> 0 < zlen nalu ->
  exists res, pack_single h pk s nalu (zlen nalu) mark vcl = Ret res /\ packer_kept pk res.
Proof. intros. apply pack_single_at_safe; [done..|lia]. Qed.
End AnyClient.

Section Pack.
Context `{Build}.

Lemma pack_single_at_accepted {S} (h : rtp_payload_t S) g i pk s nalu mark vcl b0 :
  accepts h g -> packer_ok pk -> 0 <= mark < 2 -> rd nalu i = Ret b0 ->
  let m := if vcl b0 : bool then mark else 0 in
  exists pk', pack_single_at h i pk s nalu (zlen nalu) mark vcl
              = Ret (0, (pk', fold_left g (emit (rtp (ppkt pk)) [(m, nalu)]) s)) /\ moved pk 1 pk'.
Proof.
  intros Hh Hp Hmark Eb m. assert (Hm : 0 <= m < 2) by (unfold m; destruct (vcl b0); lia).
  pose proof (zlen_nonneg nalu). unfold pack_single_at. cbv zeta.
  cbn [set_data set_pkt ppkt set_payload payloadlen]. unfold RTP_FIXED_HEADER.
  destruct (Hh s (12 + zlen nalu) ltac:(lia)) as (buf & s1 & -> & Hbuf & Hpkt).
  rewrite Eb. cbn [obind]. fold m. set (pkt := ppkt (set_m _ m)).
  assert (Hok : packet_ok pkt) by (apply (packer_packet_ok pk); [done|done|lia]).
  assert (Hb : packet_bytes pkt = rtp_header_bytes (with_m (rtp (ppkt pk)) m) ++ nalu).
  { unfold packet_bytes. unfold pkt at 1. rewrite packer_header_bytes by done. f_equal.
    unfold payload_bytes. cbn. unfold zlen. rewrite Nat2Z.id. apply firstn_all. }
  assert (Hz : zlen (rtp_header_bytes (with_m (rtp (ppkt pk)) m) ++ nalu) = 12 + zlen nalu)
    by (rewrite zlen_app, zlen_rtp_header_bytes; done).
  rewrite serialize_spec; [|done|by rewrite Hb, Hz].
  rewrite Hb, Hz. cbn [obind]. change (payloadlen pkt) with (zlen nalu). rewrite Z.eqb_refl. cbn [negb].
  rewrite rdn_all by done. cbn [obind].
  destruct (Hpkt _ (timestamp (rtp (ppkt pk))) 0 Hz) as (s2 & E1 & E2).
  set (pk1 := next_seq _). change (timestamp (rtp (ppkt pk1))) with (timestamp (rtp (ppkt pk))). rewrite E1, E2.
  exists pk1. split; [|by apply moved_step].
  cbn [emit fold_left]. rewrite video_packet_bytes by done. done.
Qed.

Lemma pack_single_at_spec i pk log nalu mark vcl b0 :
  packer_ok pk -> 0 <= mark < 2 -> rd nalu i = Ret b0 ->
  let m := if vcl b0 : bool then mark else 0 in
  exists pk', pack_single_at log_handler i pk log nalu (zlen nalu) mark vcl
              = Ret (0, (pk', log ++ emit (rtp (ppkt pk)) [(m, nalu)])) /\ moved pk 1 pk'.
Proof. intros. rewrite <- fold_snoc. by apply pack_single_at_accepted; [apply log_accepts|..]. Qed.

Lemma pack_single_spec pk log nalu mark vcl b0 rest :
  packer_ok pk -> 0 <= mark < 2 -> nalu = b0 :: rest ->
  let m := if vcl b0 : bool then mark else 0 in
  exists pk', pack_single log_handler pk log nalu (zlen nalu) mark vcl
              = Ret (0, (pk', log ++ emit (rtp (ppkt pk)) [(m, nalu)])) /\ moved pk 1 pk'.
Proof. intros ? ? ->. by apply pack_single_at_spec. Qed.

(** A packet with a descriptor [hd] and [len] bytes of the frame behind it. *)
Lemma piece_buffer pk ptr len hd m buf0 :
  packer_ok pk -> 0 <= m < 2 -> 0 <= len <= zlen ptr ->
  RTP_FIXED_HEADER + zlen hd + len <= zlen buf0 ->
  let N := zlen hd in
  let n := RTP_FIXED_HEADER + N + len in
  let pkt := ppkt (set_m (set_data pk ptr len) m) in
  (do* (n, buf) <- rtp_packet_serialize_header pkt buf0 n ;;
   if negb (n =? RTP_FIXED_HEADER) then Ret []
   else
     do buf <- wrn buf n hd ;;
     do src <- rdn ptr 0 len ;;
     do buf <- wrn buf (n + N) src ;;
     rdn buf 0 (n + N + len))
  = Ret (packet_bytes (video_packet (rtp (ppkt pk)) m (hd ++ take (Z.to_nat len) ptr))) /\
  exists buf, rtp_packet_serialize_header pkt buf0 n = Ret (RTP_FIXED_HEADER, buf).
Proof.
  intros Hp Hm Hl Hbuf N n pkt. pose proof (zlen_nonneg hd).
  assert (Hok : packet_ok pkt) by by apply packer_packet_ok.
  assert (Hb : packet_header_bytes pkt = rtp_header_bytes (with_m (rtp (ppkt pk)) m))
    by by apply packer_header_bytes.
  unfold RTP_FIXED_HEADER in *.
  rewrite serialize_header_spec; [|done|].
  2: { rewrite Hb, zlen_rtp_header_bytes. unfold n, N. lia. }
  rewrite Hb, zlen_rtp_header_bytes. split; [|by eexists]. cbn [obind]. change (12 =? 12) with true.
  cbn [negb]. rewrite video_packet_bytes by done. set (hb := rtp_header_bytes _). assert (Hhb : zlen hb = 12) by done.
  set (rest := adv _ 12).
  assert (Hrest : N + len <= zlen rest) by (unfold rest; rewrite zlen_adv; unfold N; lia).
  clearbody hb rest.
  rewrite wrn_app by (unfold N in *; lia).
  cbn [obind]. rewrite <- (take_drop (Z.to_nat len) ptr) at 1.
  assert (Hsrc : zlen (take (Z.to_nat len) ptr) = len) by (rewrite zlen_take; lia).
  rewrite rdn_all by done. cbn [obind].
  rewrite wrn_app; [|rewrite zlen_app; unfold N; lia|rewrite zlen_adv; unfold N in *; lia].
  cbn [obind]. rewrite rdn_all by (rewrite !zlen_app; unfold N; lia).
  by rewrite <- !app_assoc.
Qed.

Context (hdr : list Z) (mask k ty : Z).
Hypothesis mask_k : mask = 2 ^ k - 1 /\ 0 <= k <= 6.
Hypothesis type_fits : 0 <= ty <= mask.

Definition fu_header_of (first : bool) : Z := (if first then 128 else 0) + ty.

Lemma pow_k : 1 <= 2 ^ k <= 64.
Proof. destruct mask_k. change 64 with (2 ^ 6). split; [|apply Z.pow_le_mono_r; lia]. lia. Qed.

Lemma fu_type_bits first :
  Z.land (fu_header_of first) mask = ty /\
  Z.land (fu_header_of first) FU_START = (if first then 128 else 0) /\
  Z.land FU_END (fu_header_of first) = 0.
Proof.
  pose proof pow_k. destruct mask_k as [Em Hk]. unfold fu_header_of.
  assert (Hty : 0 <= ty < 2 ^ 6) by lia.
  assert (E : (if first then 128 else 0) + ty = Z.lor (if first then 128 else 0) ty).
  { symmetry. apply (lor_add _ _ 6); [lia|by destruct first|done]. }
  rewrite E. split_and!.
  - rewrite Em, land_ones_mod, <- E by lia.
    destruct first; [|rewrite Z.add_0_l; apply Z.mod_small; lia].
    replace 128 with (2 ^ (7 - k) * 2 ^ k) by (rewrite <- Z.pow_add_r by lia; by replace (7 - k + k) with 7 by lia).
    rewrite Z.add_comm, Z.mod_add by lia. apply Z.mod_small. lia.
  - rewrite Z.land_comm, Z.land_lor_distr_r. unfold FU_START.
    assert (Z.land 128 ty = 0) as ->.
    { apply Z.bits_inj'. intros i Hi. rewrite Z.land_spec, Z.bits_0.
      destruct (Z.eq_dec i 7) as [->|].
      - rewrite <- (Z.mod_small ty (2 ^ 6)) by lia. rewrite Z.mod_pow2_bits_high by lia. done.
      - change 128 with (2 ^ 7). rewrite Z.pow2_bits_false by lia. done. }
    by destruct first.
  - rewrite Z.land_lor_distr_r. unfold FU_END.
    assert (Z.land 64 ty = 0) as ->.
    { apply Z.bits_inj'. intros i Hi. rewrite Z.land_spec, Z.bits_0.
      destruct (Z.eq_dec i 6) as [->|].
      - rewrite <- (Z.mod_small ty (2 ^ 6)) by lia. rewrite Z.mod_pow2_bits_high by lia. done.
      - change 64 with (2 ^ 6). rewrite Z.pow2_bits_false by lia. done. }
    by destruct first.
Qed.

Lemma fu_end_bits : Z.lor FU_END ty = 64 + ty /\ Z.land (64 + ty) mask = ty /\ Z.land FU_END (64 + ty) <> 0.
Proof.
  pose proof pow_k. destruct mask_k as [Em Hk].
  assert (E : Z.lor FU_END ty = 64 + ty) by (apply (lor_add _ _ 6); [lia|done|lia]).
  split_and!; [done| |].
  - rewrite Em, land_ones_mod by lia.
    replace 64 with (2 ^ (6 - k) * 2 ^ k) by (rewrite <- Z.pow_add_r by lia; by replace (6 - k + k) with 6 by lia).
    rewrite Z.add_comm, Z.mod_add by lia. apply Z.mod_small. lia.
  - rewrite <- E. unfold FU_END. rewrite Z.land_lor_distr_r. change (Z.land 64 64) with 64.
    intros E0. apply Z.lor_eq_0_iff in E0 as [E0 _]. done.
Qed.

(** One turn of the loop: [len] bytes behind the FU header [fh]. *)
Lemma pack_fu_buffer pk ptr len fh m buf0 :
  packer_ok pk -> 0 <= m < 2 -> 0 <= len <= zlen ptr ->
  RTP_FIXED_HEADER + (zlen hdr + 1) + len <= zlen buf0 ->
  let N := zlen hdr + 1 in
  let n := RTP_FIXED_HEADER + N + len in
  let pl := hdr ++ [fh] ++ take (Z.to_nat len) ptr in
  let pkt := ppkt (set_m (set_data pk ptr len) m) in
  (do* (n, buf) <- rtp_packet_serialize_header pkt buf0 n ;;
   if negb (n =? RTP_FIXED_HEADER) then Ret []
   else
     do buf <- wrn buf n (hdr ++ [fh]) ;;
     do src <- rdn ptr 0 len ;;
     do buf <- wrn buf (n + N) src ;;
     rdn buf 0 (n + N + len))
  = Ret (packet_bytes (video_packet (rtp (ppkt pk)) m pl)) /\
  exists buf, rtp_packet_serialize_header pkt buf0 n = Ret (RTP_FIXED_HEADER, buf).
Proof.
  intros Hp Hm Hl Hbuf. assert (E : zlen (hdr ++ [fh]) = zlen hdr + 1) by (rewrite zlen_app; done).
  pose proof (piece_buffer pk ptr len (hdr ++ [fh]) m buf0 Hp Hm Hl) as Hpb.
  rewrite E in Hpb. rewrite <- app_assoc in Hpb. by apply Hpb.
Qed.

Lemma pack_fu_loop_accepted {S} (h : rtp_payload_t S) g fuel pk s first data mark :
  accepts h g -> packer_ok pk -> 0 <= mark < 2 ->
  let c := psize pk - RTP_FIXED_HEADER - (zlen hdr + 1) in
  0 < c -> 0 < zlen data -> (first = true -> c < zlen data) -> (length data <= fuel)%nat ->
  let units := fragments fuel hdr c first ty mark data in
  exists pk', pack_fu_loop h fuel hdr mask pk s (fu_header_of first) data (zlen data) mark 0
              = Ret (0, (pk', fold_left g (emit (rtp (ppkt pk)) units) s)) /\ moved pk (zlen units) pk'.
Proof.
  intros Hh. revert pk s first data. induction fuel as [|fuel IH]; intros pk s first data Hp Hmark c Hc Hd Hf Hfuel.
  { unfold zlen in Hd. lia. }
  cbn [pack_fu_loop fragments]. cbv zeta. zif. cbn [Z.eqb andb].
  destruct (fu_type_bits first) as (Eland & Est & Eend). pose proof (zlen_nonneg hdr).
  assert (Hcond : (zlen data + RTP_FIXED_HEADER <=? psize pk - (zlen hdr + 1)) = (zlen data <=? c)).
  { unfold c. destruct (Z.leb_spec (zlen data + RTP_FIXED_HEADER) (psize pk - (zlen hdr + 1))); symmetry; cbool; lia. }
  rewrite Hcond. clear Hcond. fold c.
  assert (Hturn : forall fh len m, 0 <= m < 2 -> 0 <= len <= zlen data ->
    let pl := hdr ++ [fh] ++ take (Z.to_nat len) data in
    exists buf s1 buf1 src buf2 s2,
      h_alloc h s (RTP_FIXED_HEADER + (zlen hdr + 1) + len) = (Some buf, s1) /\
      rtp_packet_serialize_header (ppkt (set_m (set_data pk data len) m)) buf (RTP_FIXED_HEADER + (zlen hdr + 1) + len)
        = Ret (RTP_FIXED_HEADER, buf1) /\
      rdn data 0 len = Ret src /\
      (do b <- wrn buf1 RTP_FIXED_HEADER (hdr ++ [fh]) ;; wrn b (RTP_FIXED_HEADER + (zlen hdr + 1)) src) = Ret buf2 /\
      rdn buf2 0 (RTP_FIXED_HEADER + (zlen hdr + 1) + len) = Ret (packet_bytes (video_packet (rtp (ppkt pk)) m pl)) /\
      h_packet h s1 (packet_bytes (video_packet (rtp (ppkt pk)) m pl)) (timestamp (rtp (ppkt pk))) 0 = (0, s2) /\
      h_free h s2 = g s (packet_bytes (video_packet (rtp (ppkt pk)) m pl), timestamp (rtp (ppkt pk)), 0)).
  { intros fh len m Hm Hlen pl. unfold RTP_FIXED_HEADER in *.
    destruct (Hh s (12 + (zlen hdr + 1) + len) ltac:(lia)) as (buf & s1 & Ea & Hbuf & Hpkt).
    destruct (pack_fu_buffer pk data len fh m buf) as [Eb [buf1 Es]]; [done|done|done|unfold RTP_FIXED_HEADER; lia|].
    unfold RTP_FIXED_HEADER in *. rewrite Es in Eb. cbn [obind] in Eb. rewrite Z.eqb_refl in Eb. cbn [negb] in Eb.
    destruct (wrn buf1 _ _) as [b|] eqn:E1; [|done]. cbn [obind] in Eb.
    destruct (rdn data 0 len) as [src|] eqn:E2; [|done]. cbn [obind] in Eb.
    destruct (wrn b _ _) as [buf2|] eqn:E3; [|done]. cbn [obind] in Eb.
    assert (Hz : zlen (packet_bytes (video_packet (rtp (ppkt pk)) m pl)) = 12 + (zlen hdr + 1) + len).
    { rewrite video_packet_bytes, zlen_app, zlen_rtp_header_bytes by done. unfold pl.
      rewrite !zlen_app, zlen_take. change (zlen [fh]) with 1. unfold RTP_FIXED_HEADER. lia. }
    destruct (Hpkt _ (timestamp (rtp (ppkt pk))) 0 Hz) as (s2 & E4 & E5).
    exists buf, s1, buf1, src, buf2, s2. rewrite E1. cbn [obind]. by split_and!. }
  destruct (Z.leb_spec (zlen data) c) as [Hlast|Hmore].
  - destruct first; [specialize (Hf eq_refl); lia|]. rewrite Est, Eland.
    change (0 =? 0) with true. cbn [c_assert orb obind].
    destruct fu_end_bits as (-> & Em & Ee).
    destruct (Hturn (64 + ty) (zlen data) mark) as (buf & s1 & buf1 & src & buf2 & s2 & -> & T); [done|pose proof (zlen_nonneg data); lia|].
    rewrite (proj2 (Z.eqb_neq _ _) Ee). destruct T as (-> & E2 & E3 & E4 & E5 & E6).
    cbn [obind]. rewrite Z.eqb_refl. cbn [negb]. rewrite E2. destruct (wrn buf1 _ _) as [b|]; [|done].
    cbn [obind] in E3 |- *. rewrite E3. cbn [obind]. rewrite E4. cbn [obind].
    change (timestamp (rtp (ppkt (set_m (set_data pk data (zlen data)) mark)))) with (timestamp (rtp (ppkt pk))).
    rewrite E5, E6. rewrite Z.sub_diag. set (pk1 := next_seq _). exists pk1. split.
    + destruct fuel; cbn [pack_fu_loop]; change (0 <? 0) with false; rewrite ?andb_false_r;
        cbn [emit fold_left]; unfold zlen; rewrite Nat2Z.id, firstn_all; by rewrite Z.add_0_l.
    + by apply moved_step.
  - cbn [obind]. destruct (Hturn (fu_header_of first) c 0) as (buf & s1 & buf1 & src & buf2 & s2 & -> & T); [lia|lia|].
    rewrite Eend. change (0 =? 0) with true. cbv iota. destruct T as (-> & E2 & E3 & E4 & E5 & E6).
    cbn [obind]. rewrite Z.eqb_refl. cbn [negb]. rewrite E2. destruct (wrn buf1 _ _) as [b|]; [|done].
    cbn [obind] in E3 |- *. rewrite E3. cbn [obind]. rewrite E4. cbn [obind].
    change (timestamp (rtp (ppkt (set_m (set_data pk data c) 0)))) with (timestamp (rtp (ppkt pk))).
    rewrite E5, E6, Eland.
    pose proof (moved_step pk data c 0 Hp ltac:(lia)) as Hmv. set (pk1 := next_seq _) in *.
    replace (zlen data - c) with (zlen (adv data c)) by (rewrite zlen_adv; lia).
    destruct (IH pk1 (g s (packet_bytes (video_packet (rtp (ppkt pk)) 0 (hdr ++ [fu_header_of first] ++ take (Z.to_nat c) data)), timestamp (rtp (ppkt pk)), 0)) false (adv data c)) as (pk2 & E7 & Hmv2); try done.
    + apply Hmv.
    + rewrite zlen_adv. lia.
    + unfold adv. rewrite length_drop. unfold zlen in *. lia.
    + assert (Ec1 : psize pk1 - RTP_FIXED_HEADER - (zlen hdr + 1) = c) by done. rewrite Ec1 in *.
      exists pk2. change (fu_header_of false) with (0 + ty) in E7. rewrite Z.add_0_l in E7. split.
      * etrans; [exact E7|]. cbn [emit fold_left]. fold (fu_header_of first).
        by rewrite (moved_emit _ _ _ _ Hmv).
      * rewrite zlen_cons. by eapply moved_trans.
Qed.

Lemma pack_fu_loop_spec fuel pk log first data mark :
  packer_ok pk -> 0 <= mark < 2 ->
  let c := psize pk - RTP_FIXED_HEADER - (zlen hdr + 1) in
  0 < c -> 0 < zlen data -> (first = true -> c < zlen data) -> (length data <= fuel)%nat ->
  let units := fragments fuel hdr c first ty mark data in
  exists pk', pack_fu_loop log_handler fuel hdr mask pk log (fu_header_of first) data (zlen data) mark 0
              = Ret (0, (pk', log ++ emit (rtp (ppkt pk)) units)) /\ moved pk (zlen units) pk'.
Proof. intros. rewrite <- fold_snoc. by apply pack_fu_loop_accepted; [apply log_accepts|..]. Qed.

Context {S : Type} (h : rtp_payload_t S).
Hypothesis h_sized : alloc_sized h.

Lemma pack_fu_loop_safe fuel pk s first data mark r :
  packer_ok pk -> 0 <= mark < 2 ->
  let c := psize pk - RTP_FIXED_HEADER - (zlen hdr + 1) in
  0 < c -> (first = true -> c < zlen data) -> (length data <= fuel)%nat ->
  exists res, pack_fu_loop h fuel hdr mask pk s (fu_header_of first) data (zlen data) mark r = Ret res /\
    packer_kept pk res.
Proof.
  revert pk s first data r.
  induction fuel as [|fuel IH]; intros pk s first data r Hp Hmark c Hc Hf Hfuel.
  { destruct data; [|simpl in Hfuel; lia]. cbn [pack_fu_loop]. change (0 <? zlen []) with false.
    rewrite andb_false_r. by eexists. }
  cbn [pack_fu_loop]. cbv zeta. destruct ((0 =? r) && _) eqn:Eb0; [|by eexists]. cbool.
  destruct Eb0 as [_ Hd].
  destruct (fu_type_bits first) as (Eland & Est & Eend).
  assert (Hturn : forall fh len m s0, 0 <= m < 2 -> 0 < len <= zlen data -> len <= c ->
            fh = fu_header_of first \/ fh = 64 + ty -> exists res,
    (let '(rtp, s) := h_alloc h s0 (RTP_FIXED_HEADER + (zlen hdr + 1) + len) in
     match rtp with
     | None => Ret (- ENOMEM, (set_data pk data len, s))
     | Some buf =>
         let pk := set_m (set_data pk data len) m in
         do* (n, buf) <- rtp_packet_serialize_header (ppkt pk) buf (RTP_FIXED_HEADER + (zlen hdr + 1) + len) ;;
         if negb (n =? RTP_FIXED_HEADER) then c_assert false ;;; Ret (-1, (pk, s))
         else
           do buf <- wrn buf n (hdr ++ [fh]) ;;
           do src <- rdn data 0 len ;;
           do buf <- wrn buf (n + (zlen hdr + 1)) src ;;
           do out <- rdn buf 0 (n + (zlen hdr + 1) + len) ;;
           let '(r, s) := h_packet h s out (timestamp (RtpPacket.rtp (ppkt pk))) 0 in
           pack_fu_loop h fuel hdr mask (next_seq pk) (h_free h s) (Z.land fh mask)
             (adv data len) (zlen data - len) mark r
     end) = Ret res /\ packer_kept pk res).
  { intros fh len m s0 Hm Hlen Hlc Hfh. destruct (h_alloc h s0 _) as [[buf0|] s1] eqn:Ea.
    2: { eexists. split; [done|]. split; [by apply set_data_ok|done]. }
    apply h_sized in Ea. cbv zeta.
    destruct (pack_fu_buffer pk data len fh m buf0) as [Eb [buf Es]]; [done|done|lia|lia|].
    rewrite Es in Eb |- *. cbn [obind] in Eb |- *. rewrite Z.eqb_refl in Eb |- *. cbn [negb] in Eb |- *.
    destruct (wrn buf _ _) as [buf1|]; [|done]. cbn [obind] in Eb |- *.
    destruct (rdn data 0 _) as [src|]; [|done]. cbn [obind] in Eb |- *.
    destruct (wrn buf1 _ _) as [buf2|]; [|done]. cbn [obind] in Eb |- *. rewrite Eb.
    cbn [obind]. destruct (h_packet h s1 _ _ 0) as [r' s2].
    assert (Efh : Z.land fh mask = fu_header_of false).
    { unfold fu_header_of at 1. destruct Hfh as [->| ->]; [by rewrite Eland|].
      by destruct fu_end_bits as (_ & -> & _). }
    rewrite Efh. replace (zlen data - len) with (zlen (adv data len)) by (rewrite zlen_adv; lia).
    pose proof (moved_step pk data len m Hp Hm) as [Hp1 Hs1 _]. set (pk1 := next_seq _) in *.
    destruct (IH pk1 (h_free h s2) false (adv data len) r') as (res & -> & [Hok Hsz]); try done.
    - unfold adv. rewrite length_drop. unfold zlen in *. lia.
    - exists res. split; [done|]. split; [done|]. congruence. }
  destruct (Z.leb_spec (zlen data + RTP_FIXED_HEADER) (psize pk - (zlen hdr + 1))).
  - destruct first; [specialize (Hf eq_refl); unfold c in *; lia|].
    rewrite Est, Eland. change (0 =? 0) with true. cbn [c_assert orb obind].
    destruct fu_end_bits as (-> & _ & Ee). rewrite (proj2 (Z.eqb_neq _ _) Ee).
    apply Hturn; [done|lia|unfold c; lia|by right].
  - cbn [obind]. rewrite Eend. change (0 =? 0) with true. cbv iota.
    apply Hturn; [lia|unfold c in *; lia|done|by left].
Qed.
End Pack.
