(* ===== verification/H265.v ===== *)
(** H.265 over RTP, RFC 7798 (lib/librtp/payload/rtp-h265-pack.c and
    rtp-h265-unpack.c). *)

From S2P Require Import Prelude RtpUtil RtpPacket AnnexB Payload.

Definition H265_TYPE (v : Z) : Z := Z.land (Z.shiftr v 1) 63.
Definition H265_RTP_FU : Z := 49.

Definition start_code : list Z := [0; 0; 0; 1].

(** ** Packing *)
Module Pack.
Section Ops.
Context `{Build} {S : Type} (h : rtp_payload_t S).

Definition rtp_h265_pack_nalu (pk : rtp_packer) (s : S) (nalu : list Z) (bytes mark : Z)
  : outcome (Z * (rtp_packer * S)) :=
  if bytes <? 3 then Ret (-1, (pk, s))
  else pack_single h pk s nalu bytes mark (fun b => H265_TYPE b <? 32).

Definition rtp_h265_pack_fu (pk : rtp_packer) (s : S) (ptr : list Z) (bytes mark : Z)
  : outcome (Z * (rtp_packer * S)) :=
  if bytes <? 3 then Ret (-1, (pk, s))
  else
    do b0 <- rd ptr 0 ;;
    do b1 <- rd ptr 1 ;;
    let nalu_header :=
      Z.lor (Z.shiftl (Z.lor (Z.land b0 129) (Z.shiftl H265_RTP_FU 1)) 8) b1 in
    let fu_header := Z.land (Z.shiftr b0 1) 63 in
    let ptr := adv ptr 2 in
    let bytes := bytes - 2 in
    c_assert (0 <? bytes) ;;;
    pack_fu_loop h (Z.to_nat bytes) [u8 (Z.shiftr nalu_header 8); Z.land nalu_header 255] 63
      pk s (Z.lor fu_header FU_START) ptr bytes mark 0.

Definition rtp_h265_pack_handler (st : rtp_packer * S) (nalu : list Z) (bytes last : Z)
  : outcome (Z * (rtp_packer * S)) :=
  let '(pk, s) := st in
  let mark := if last =? 0 then 0 else 1 in
  if bytes + RTP_FIXED_HEADER <=? psize pk then rtp_h265_pack_nalu pk s nalu bytes mark
  else rtp_h265_pack_fu pk s nalu bytes mark.

Definition rtp_h265_pack_input (pk : rtp_packer) (s : S) (h265 : list Z) (bytes ts : Z)
  : outcome (Z * (rtp_packer * S)) :=
  let pk := set_ts pk ts in
  rtp_h264_annexb_nalu rtp_h265_pack_handler h265 bytes (pk, s).
End Ops.
End Pack.

(** ** Unpacking *)
Module Unpack.
(** [ptr] is the reassembly buffer, of [capacity] bytes. *)
Record rtp_decode_h265_t := mk_decode {
  dseq : Z;
  dtimestamp : Z;
  ptr : list Z;
  size : Z;
  capacity : Z;
  flags : Z;
  using_donl_field : bool
}.

Definition set_flags (u : rtp_decode_h265_t) (f sz : Z) : rtp_decode_h265_t :=
  mk_decode (dseq u) (dtimestamp u) (ptr u) sz (capacity u) f (using_donl_field u).
Definition set_buf (u : rtp_decode_h265_t) (p : list Z) (sz cap : Z) : rtp_decode_h265_t :=
  mk_decode (dseq u) (dtimestamp u) p sz cap (flags u) (using_donl_field u).
Definition set_dts (u : rtp_decode_h265_t) (ts : Z) : rtp_decode_h265_t :=
  mk_decode (dseq u) ts (ptr u) (size u) (capacity u) (flags u) (using_donl_field u).
Definition set_dseq (u : rtp_decode_h265_t) (sq : Z) : rtp_decode_h265_t :=
  mk_decode sq (dtimestamp u) (ptr u) (size u) (capacity u) (flags u) (using_donl_field u).

Definition rtp_h265_unpack_create : rtp_decode_h265_t := mk_decode 0 0 [] 0 0 (-1) false.

Section Ops.
Context `{Alloc} `{Build} {S : Type} (h : rtp_payload_t S).

(** Handing a unit to the client clears the flags and the buffer. *)
Definition deliver (u : rtp_decode_h265_t) (s : S) (data : list Z) (ts : Z)
  : Z * (rtp_decode_h265_t * S) :=
  let '(r, s) := h_packet h s data ts (flags u) in (r, (set_flags u 0 0, s)).

Fixpoint ap_loop (fuel : nat) (u : rtp_decode_h265_t) (s : S) (p : list Z)
    (bytes n ts r : Z) : outcome (Z * (rtp_decode_h265_t * S)) :=
  if (0 =? r) && (n <? bytes) then
    match fuel with
    | O => Crash Diverge
    | Datatypes.S fuel =>
        let bytes := bytes - (n - 2) in
        let p := adv p (n - 2) in
        do len <- nbo_r16 p ;;
        if (bytes <? len + 2) || (len <? 3) then
          c_assert false ;;;
          Ret (- EINVAL, (set_flags u RTP_PAYLOAD_FLAG_PACKET_LOST 0, s))
        else
          do b <- rd p 2 ;;
          c_assert ((0 <=? H265_TYPE b) && (H265_TYPE b <? 48)) ;;;
          do data <- rdn p 2 len ;;
          let '(r, (u, s)) := deliver u s data ts in
          ap_loop fuel u s (adv p (len + 2)) (bytes - (len + 2))
            (2 + (if using_donl_field u then 1 else 0)) ts r
    end
  else Ret (if 0 =? r then 1 else r, (u, s)).

Definition rtp_h265_unpack_ap (u : rtp_decode_h265_t) (s : S) (p : list Z) (bytes ts : Z)
  : outcome (Z * (rtp_decode_h265_t * S)) :=
  ap_loop (Z.to_nat bytes) u s (adv p 2) (bytes - 2)
    (2 + (if using_donl_field u then 2 else 0)) ts 0.

(** [realloc] to the needed size and a quarter, or 128000 more. *)
Definition fu_grow (u : rtp_decode_h265_t) (bytes n : Z) : bool * rtp_decode_h265_t :=
  if capacity u <? size u + bytes - n + 2 then
    let sz := size u + bytes + 2 in
    let sz := sz + (if 128000 <? sz / 4 then sz / 4 else 128000) in
    if alloc_ok sz then
      (true, set_buf u (ptr u ++ replicate (Z.to_nat (sz - capacity u)) heap_byte) (size u) sz)
    else (false, set_flags u RTP_PAYLOAD_FLAG_PACKET_LOST 0)
  else (true, u).

(** The second half of [rtp_h265_unpack_fu]: append the fragment, deliver the
    unit at the end bit. *)
Definition fu_append (u : rtp_decode_h265_t) (s : S) (p : list Z) (bytes n ts fuheader : Z)
  : outcome (Z * (rtp_decode_h265_t * S)) :=
  let u := set_dts u ts in
  do u <-
    (if n <? bytes then
       c_assert (size u + bytes - n <=? capacity u) ;;;
       do src <- rdn p n (bytes - n) ;;
       do buf <- wrn (ptr u) (size u) src ;;
       Ret (set_buf u buf (size u + (bytes - n)) (capacity u))
     else Ret u) ;;
  if negb (Z.land fuheader FU_END =? 0) then
    do unit <- rdn (ptr u) 0 (size u) ;;
    let '(r, (u, s)) := deliver u s (start_code ++ unit) ts in
    Ret (if 0 =? r then 1 else r, (u, s))
  else Ret (1, (u, s)).

Definition rtp_h265_unpack_fu (u : rtp_decode_h265_t) (s : S) (p : list Z) (bytes ts : Z)
  : outcome (Z * (rtp_decode_h265_t * S)) :=
  let n := 1 + (if using_donl_field u then 4 else 2) in
  if (bytes <? n) || (RTP_PAYLOAD_MAX_SIZE <? size u + bytes - n) then
    c_assert false ;;;
    Ret (- EINVAL, (u, s))
  else
    let '(ok, u) := fu_grow u bytes n in
    if negb ok then Ret (- ENOMEM, (u, s))
    else
      do fuheader <- rd p 2 ;;
      if negb (Z.land fuheader FU_START =? 0) then
        c_assert (2 <? capacity u) ;;;
        do b0 <- rd p 0 ;;
        do b1 <- rd p 1 ;;
        let t := Z.lor (u8 (Z.shiftl (Z.land fuheader 63) 1)) (Z.land b0 129) in
        do buf <- wrn (ptr u) 0 [t; b1] ;;
        c_assert ((0 <=? H265_TYPE t) && (H265_TYPE t <=? 63)) ;;;
        fu_append (set_buf u buf 2 (capacity u)) s p bytes n ts fuheader
      else if 0 =? size u then
        Ret (0, (set_flags u RTP_PAYLOAD_FLAG_PACKET_LOST (size u), s))
      else
        c_assert (0 <? size u) ;;;
        fu_append u s p bytes n ts fuheader.

(** The switch of [rtp_h265_unpack_input]. *)
Definition unpack_payload (u : rtp_decode_h265_t) (s : S) (p : list Z) (len ts : Z)
  : outcome (Z * (rtp_decode_h265_t * S)) :=
  do b0 <- rd p 0 ;;
  let nal := H265_TYPE b0 in
  if 50 <? nal then Ret (0, (u, s))
  else if nal =? 48 then rtp_h265_unpack_ap u s p len ts
  else if nal =? 49 then rtp_h265_unpack_fu u s p len ts
  else if nal =? 50 then c_assert false ;;; Ret (0, (u, s))
  else
    do unit <- rdn p 0 len ;;
    let '(r, (u, s)) := deliver u s (start_code ++ unit) ts in
    Ret (if 0 =? r then 1 else r, (u, s)).

Definition rtp_h265_unpack_input (u : rtp_decode_h265_t) (s : S) (packet : list Z) (bytes : Z)
  : outcome (Z * (rtp_decode_h265_t * S)) :=
  do* (r, pkt) <- rtp_packet_deserialize zero_packet packet bytes ;;
  if negb (r =? 0) || (payloadlen pkt <? (if using_donl_field u then 5 else 3)) then
    Ret (- EINVAL, (u, s))
  else
    let sq := u16 (seq (rtp pkt)) in
    let u := if flags u =? -1 then set_dseq (set_flags u 0 (size u)) (u16 (sq - 1)) else u in
    let u := if negb (sq =? u16 (dseq u + 1))
             then set_flags u RTP_PAYLOAD_FLAG_PACKET_LOST 0 else u in
    let u := set_dseq u sq in
    c_assert (2 <? payloadlen pkt) ;;;
    unpack_payload u s (payload pkt) (payloadlen pkt) (timestamp (rtp pkt)).
End Ops.
End Unpack.
