(* ===== verification/H265Props.v ===== *)
(** Properties of the H.265 packer and unpacker: what is sent, that the receiver
    rebuilds it, and memory safety on any datagram. *)

From S2P Require Import Prelude RtpUtil RtpPacket AnnexB AnnexBProps Payload PayloadSpec H265.

(** ** What the packer emits *)
Module PackSpec.
Import H265.Pack.

Definition fu_hdr (nal : list Z) : list Z :=
  match nal with
  | b0 :: b1 :: _ => [Z.lor (Z.land b0 129) 98; b1]
  | _ => []
  end.

(** The payloads of one NAL unit for packets of [sz] bytes. *)
Definition nal_payloads (sz : Z) (mark : Z) (nal : list Z) : list (Z * list Z) :=
  let ty := H265_TYPE (default 0 (head nal)) in
  if zlen nal + RTP_FIXED_HEADER <=? sz then [(if ty <? 32 then mark else 0, nal)]
  else fragments (length nal - 2) (fu_hdr nal) (sz - RTP_FIXED_HEADER - 3) true ty mark (adv nal 2).

(** Only the last unit of an access unit carries the marker. *)
Fixpoint au_payloads (sz : Z) (nals : list (list Z)) : list (Z * list Z) :=
  match nals with
  | [] => []
  | nal :: nals =>
      nal_payloads sz (match nals with [] => 1 | _ => 0 end) nal ++ au_payloads sz nals
  end.

Lemma fu_header_bytes b0 b1 :
  is_byte b0 -> is_byte b1 ->
  let w := Z.lor (Z.shiftl (Z.lor (Z.land b0 129) (Z.shiftl H265_RTP_FU 1)) 8) b1 in
  [u8 (Z.shiftr w 8); Z.land w 255] = [Z.lor (Z.land b0 129) 98; b1].
Proof.
  intros H0 H1. change (Z.shiftl H265_RTP_FU 1) with 98. cbv zeta.
  assert (Hb : (0 <=? Z.lor (Z.land b0 129) 98) && (Z.lor (Z.land b0 129) 98 <? 256) = true).
  { revert b0 H0. apply byte_cases. by vm_compute. }
  cbool. unfold is_byte in H1. set (x := Z.lor (Z.land b0 129) 98) in *.
  rewrite Z.shiftl_mul_pow2, (lor_add _ _ 8), Z.shiftr_div_pow2 by lia.
  change 255 with (2 ^ 8 - 1). rewrite land_ones_mod by lia. unfold u8. do 2 f_equal; [lia|].
  f_equal. lia.
Qed.

Lemma h265_type_range b : 0 <= H265_TYPE b <= 63.
Proof. unfold H265_TYPE. change 63 with (2 ^ 6 - 1). rewrite land_ones_mod by lia. lia. Qed.

Section Spec.
Context `{Build} {S : Type} (h : rtp_payload_t S) (g : S -> delivery -> S).
Hypothesis Hacc : accepts h g.

Lemma h265_pack_handler_spec pk s nal last :
  packer_ok pk -> 564 <= psize pk -> bytes_ok nal -> 3 <= zlen nal ->
  let units := nal_payloads (psize pk) (if last =? 0 then 0 else 1) nal in
  exists pk', rtp_h265_pack_handler h (pk, s) nal (zlen nal) last
              = Ret (0, (pk', fold_left g (emit (rtp (ppkt pk)) units) s)) /\ moved pk (zlen units) pk'.
Proof.
  intros Hp Hsz Hb Hl units. unfold rtp_h265_pack_handler, units, nal_payloads.
  set (mark := if last =? 0 then 0 else 1).
  assert (Hmark : 0 <= mark < 2) by (unfold mark; destruct (last =? 0); lia).
  destruct nal as [|b0 [|b1 rest]]; try (unfold zlen in Hl; simpl in Hl; lia).
  unfold RTP_FIXED_HEADER. cbn [head default]. destruct (Z.leb_spec (zlen (b0 :: b1 :: rest) + 12) (psize pk)).
  - unfold rtp_h265_pack_nalu. zif.
    by apply (pack_single_at_accepted h g 0 pk s _ mark (fun b => H265_TYPE b <? 32) b0).
  - unfold rtp_h265_pack_fu. zif.
    change (rd (b0 :: b1 :: rest) 0) with (Ret b0). change (rd (b0 :: b1 :: rest) 1) with (Ret b1).
    cbn [obind]. cbv zeta. unfold c_assert. zif. cbn [orb obind].
    pose proof (Forall_cons_1 _ _ _ Hb) as [Hb0 Hb01]. pose proof (Forall_cons_1 _ _ _ Hb01) as [Hb1 _].
    rewrite fu_header_bytes by done. cbn [fu_hdr].
    set (hdr := [_; b1]). set (data := adv (b0 :: b1 :: rest) 2).
    assert (Hdl : zlen data = zlen (b0 :: b1 :: rest) - 2).
    { unfold data. rewrite zlen_adv. lia. }
    rewrite <- Hdl. fold (H265_TYPE b0). pose proof (h265_type_range b0).
    replace (Z.lor (H265_TYPE b0) FU_START) with (fu_header_of (H265_TYPE b0) true).
    2: { unfold fu_header_of, FU_START. rewrite Z.lor_comm. symmetry. apply (lor_add _ _ 6); lia. }
    replace (length (b0 :: b1 :: rest) - 2)%nat with (Z.to_nat (zlen data)) by (unfold zlen in *; lia).
    pose proof (pack_fu_loop_accepted hdr 63 6 (H265_TYPE b0) ltac:(lia) ltac:(lia) h g
      (Z.to_nat (zlen data)) pk s true data mark Hacc Hp Hmark) as Hs.
    cbv zeta in Hs. change (zlen hdr + 1) with 3 in Hs. unfold RTP_FIXED_HEADER in Hs.
    apply Hs; try lia. unfold zlen. lia.
Qed.

Lemma h265_au_payloads_cons sz nal nals :
  au_payloads sz (nal :: nals)
  = nal_payloads sz (match nals with [] => 1 | _ => 0 end) nal ++ au_payloads sz nals.
Proof. done. Qed.

Lemma h265_feed_spec pk s nals :
  packer_ok pk -> 564 <= psize pk -> Forall (fun u => nal_ok u /\ 3 <= zlen u) nals ->
  exists pk', feed (rtp_h265_pack_handler h) nals (pk, s)
              = Ret (0, (pk', fold_left g (emit (rtp (ppkt pk)) (au_payloads (psize pk) nals)) s)) /\
              moved pk (zlen (au_payloads (psize pk) nals)) pk'.
Proof.
  revert pk s. induction nals as [|nal nals IH]; intros pk s Hp Hsz Hn.
  { exists pk. split; [done|]. by apply moved_refl. }
  apply Forall_cons_1 in Hn as [[Hok Hl] Hn]. cbn [feed]. rewrite h265_au_payloads_cons.
  set (last := match nals with [] => 1 | _ => 0 end).
  destruct (h265_pack_handler_spec pk s nal last Hp Hsz (nal_bytes _ Hok) Hl) as (pk1 & -> & Hm1).
  cbn [obind Z.eqb]. replace (if last =? 0 then 0 else 1) with last in * by by unfold last; destruct nals.
  destruct (IH pk1 (fold_left g (emit (rtp (ppkt pk)) (nal_payloads (psize pk) last nal)) s))
    as (pk2 & -> & Hm2); [apply Hm1|by rewrite (mv_size _ _ _ Hm1)|done|].
  rewrite (mv_size _ _ _ Hm1), (moved_emit _ _ _ _ Hm1) in *. exists pk2. split.
  - by rewrite emit_app, fold_left_app by apply Hp.
  - rewrite zlen_app. by eapply moved_trans.
Qed.
End Spec.
End PackSpec.

(** ** What the unpacker rebuilds *)
Module UnpackSpec.
Import H265.Unpack.

(** The unpacker expects number [sq] and has reassembled [acc]. *)
Record ready (u : rtp_decode_h265_t) (sq : Z) (acc : list Z) : Prop := {
  rdy_donl : using_donl_field u = false;
  rdy_cap : zlen (ptr u) = capacity u;
  rdy_big : capacity u = 0 \/ 128000 <= capacity u;
  rdy_sync : flags u = -1 /\ acc = [] \/ flags u = 0 /\ u16 (dseq u + 1) = u16 sq;
  rdy_buf : exists rest, ptr u = acc ++ rest;
  rdy_size : size u = zlen acc
}.

Lemma h265_create_ready sq : ready rtp_h265_unpack_create sq [].
Proof. constructor; try done; [by left|by left|by exists []]. Qed.

(** The packets of [ds] one after the other, up to one that is not handled. *)
Fixpoint recv `{Alloc} `{Build} {S} (h : rtp_payload_t S) (u : rtp_decode_h265_t) (s : S)
    (ds : list delivery) : outcome (Z * (rtp_decode_h265_t * S)) :=
  match ds with
  | [] => Ret (1, (u, s))
  | (bytes, _, _) :: ds =>
      do* (r, st) <- rtp_h265_unpack_input h u s bytes (zlen bytes) ;;
      if r =? 1 then recv h (fst st) (snd st) ds else Ret (r, st)
  end.

Section Spec.
Context `{Alloc} `{Build}.
Hypothesis grants : forall n, alloc_ok n = true.

(** State after the sequence check of an expected packet. *)
Record synced (u : rtp_decode_h265_t) (sq : Z) (acc : list Z) : Prop := {
  syn_donl : using_donl_field u = false;
  syn_cap : zlen (ptr u) = capacity u;
  syn_big : capacity u = 0 \/ 128000 <= capacity u;
  syn_flags : flags u = 0;
  syn_seq : dseq u = u16 sq;
  syn_buf : exists rest, ptr u = acc ++ rest;
  syn_size : size u = zlen acc
}.

Lemma h265_synced_ready u sq acc : synced u sq acc -> ready u (sq + 1) acc.
Proof.
  intros []. constructor; try done. right. split; [done|]. rewrite syn_seq0. unfold u16. lia.
Qed.

Lemma h265_input_ready u s sq acc hd m pl :
  ready u sq acc -> plain hd -> u16 (seq hd) = u16 sq -> 0 <= m < 2 -> 3 <= zlen pl ->
  exists u1, synced u1 sq acc /\
    rtp_h265_unpack_input log_handler u s (packet_bytes (video_packet hd m pl))
      (zlen (packet_bytes (video_packet hd m pl)))
    = unpack_payload log_handler u1 s pl (zlen pl) (timestamp hd).
Proof.
  intros [] Hh Hs Hm Hl. unfold rtp_h265_unpack_input.
  destruct (deserialize_video zero_packet hd m pl Hh Hm) as (pkt & -> & Er & Ep & El). cbn [obind].
  rewrite El, Er, Ep, rdy_donl0. zif. cbn [orb negb]. change (0 =? 0) with true. cbn [negb orb].
  unfold c_assert. zif. cbn [orb obind with_m seq timestamp]. rewrite Hs.
  eexists. split; [|done].
  destruct rdy_sync0 as [[Ef Ea]|[Ef Eq]].
  - rewrite Ef. cbn [Z.eqb Pos.eqb]. cbn [set_dseq dseq].
    replace (u16 (u16 (u16 sq - 1) + 1)) with (u16 sq) by (unfold u16; lia).
    rewrite Z.eqb_refl. by constructor.
  - rewrite Ef. cbn [Z.eqb]. rewrite Eq, Z.eqb_refl. by constructor.
Qed.

Lemma h265_unpack_single u s sq acc pl ts b0 rest :
  synced u sq acc -> pl = b0 :: rest -> H265_TYPE b0 < 48 ->
  exists u', unpack_payload log_handler u s pl (zlen pl) ts
             = Ret (1, (u', s ++ [(start_code ++ pl, ts, 0)])) /\ ready u' (sq + 1) [].
Proof.
  intros [] -> Ht. unfold unpack_payload. change (rd (b0 :: rest) 0) with (Ret b0). cbn [obind].
  do 4 zif. pose proof (rdn_all (b0 :: rest) (zlen (b0 :: rest)) [] eq_refl) as Er.
  rewrite app_nil_r in Er. rewrite Er. cbn [obind]. unfold deliver. cbn. rewrite syn_flags0.
  eexists. split; [done|]. constructor; try done; [|by eexists].
  right. split; [done|]. cbn. rewrite syn_seq0. unfold u16. lia.
Qed.

Lemma h265_grow_spec u sq acc bytes n :
  synced u sq acc -> 3 <= n <= bytes ->
  exists u1, fu_grow u bytes n = (true, u1) /\ synced u1 sq acc /\
    size u + bytes - n + 2 <= capacity u1 /\ 128000 <= capacity u1.
Proof.
  intros Hu Hn. pose proof (syn_size _ _ _ Hu). pose proof (syn_cap _ _ _ Hu).
  pose proof (zlen_nonneg acc). unfold fu_grow.
  destruct (Z.ltb_spec (capacity u) (size u + bytes - n + 2)); [|exists u; split_and!; try done].
  2: { destruct (syn_big _ _ _ Hu); [lia|done]. }
  rewrite grants. eexists. split; [done|].
  set (sz := size u + bytes + 2 + _).
  assert (size u + bytes + 2 + 128000 <= sz) by (unfold sz; destruct (Z.ltb_spec 128000 ((size u + bytes + 2) / 4)); lia).
  clearbody sz. destruct Hu as [? ? ? ? ? [rest Er] ?]. split; [|cbn; lia].
  constructor; try done; cbn.
  - rewrite zlen_app, zlen_replicate. lia.
  - right. lia.
  - exists (rest ++ replicate (Z.to_nat (sz - capacity u)) heap_byte). by rewrite Er, app_assoc.
Qed.

Lemma h265_append_spec u s sq acc c0 c1 fh chunk ts :
  synced u sq acc -> zlen acc + zlen chunk <= capacity u ->
  let pl := [c0; c1; fh] ++ chunk in
  let fin := negb (Z.land fh FU_END =? 0) in
  exists u', fu_append log_handler u s pl (zlen pl) 3 ts fh
             = Ret (1, (u', if fin then s ++ [(start_code ++ acc ++ chunk, ts, 0)] else s)) /\
    ready u' (sq + 1) (if fin then [] else acc ++ chunk).
Proof.
  intros Hu Hcap pl fin. unfold fu_append. cbv zeta.
  assert (Hpl : zlen pl = 3 + zlen chunk) by (unfold pl; by rewrite zlen_app).
  assert (exists u1,
    (if 3 <? zlen pl then
       c_assert (size (set_dts u ts) + zlen pl - 3 <=? capacity (set_dts u ts)) ;;;
       do src <- rdn pl 3 (zlen pl - 3) ;;
       do buf <- wrn (ptr (set_dts u ts)) (size (set_dts u ts)) src ;;
       Ret (set_buf (set_dts u ts) buf (size (set_dts u ts) + (zlen pl - 3)) (capacity (set_dts u ts)))
     else Ret (set_dts u ts)) = Ret u1 /\ synced u1 sq (acc ++ chunk)) as (u1 & -> & Hu1).
  { destruct Hu as [? Hc ? ? ? [rest Er] Hs]. rewrite Hpl.
    destruct (Z.ltb_spec 3 (3 + zlen chunk)).
    - unfold c_assert. cbn [set_dts size capacity ptr]. rewrite Hs. zif. cbn [orb obind].
      pose proof (rdn_app [c0; c1; fh] chunk [] 3 (zlen chunk) eq_refl eq_refl) as Erd.
      rewrite app_nil_r in Erd. fold pl in Erd.
      replace (3 + zlen chunk - 3) with (zlen chunk) by lia. rewrite Erd. cbn [obind].
      rewrite Er in Hc |- *. rewrite zlen_app in Hc. rewrite wrn_app by (done || lia). cbn [obind].
      eexists. split; [done|]. constructor; try done; cbn.
      + rewrite !zlen_app, zlen_adv. lia.
      + by eexists.
      + by rewrite zlen_app.
    - assert (chunk = []) as -> by (destruct chunk; [done|]; rewrite zlen_cons in *; pose proof (zlen_nonneg chunk); lia).
      eexists. split; [done|]. constructor; try done; cbn; rewrite app_nil_r; [by eexists|done]. }
  cbn [obind]. fold fin. destruct fin; [|eexists; split; [done|by apply h265_synced_ready]].
  destruct Hu1 as [? ? ? Hf Hq [rest Er] Hs]. rewrite Er, Hs, rdn_all by done. cbn [obind].
  unfold deliver. cbn. rewrite Hf. eexists. split; [done|].
  constructor; try done; [|by eexists]. right. split; [done|]. cbn. rewrite Hq. unfold u16. lia.
Qed.

(** One fragment of the unit [b0 :: b1 :: ...]. *)
Lemma h265_unpack_fragment u s sq acc b0 b1 fh chunk ts first last :
  synced u sq acc -> is_byte b0 -> H265_TYPE b0 < 48 ->
  fh = (if first : bool then 128 else 0) + (if last : bool then 64 else 0) + H265_TYPE b0 ->
  (first = false -> acc <> []) -> zlen acc + zlen chunk <= RTP_PAYLOAD_MAX_SIZE ->
  let pl := [Z.lor (Z.land b0 129) 98; b1; fh] ++ chunk in
  let acc1 := (if first then [b0; b1] else acc) ++ chunk in
  exists u', unpack_payload log_handler u s pl (zlen pl) ts
             = Ret (1, (u', if last then s ++ [(start_code ++ acc1, ts, 0)] else s)) /\
    ready u' (sq + 1) (if last then [] else acc1).
Proof.
  intros Hu Hb Ht Hfh Hacc Hmax pl acc1.
  assert (Hbits : let c := Z.lor (Z.land b0 129) 98 in
     (H265_TYPE c =? 49) && (Z.lor (u8 (Z.shiftl (Z.land fh 63) 1)) (Z.land c 129) =? b0)
     && eqb (negb (Z.land fh FU_START =? 0)) first && eqb (negb (Z.land fh FU_END =? 0)) last
     && ((0 <=? H265_TYPE b0) && (H265_TYPE b0 <=? 63)) = true).
  { subst fh. clear -Hb. revert b0 Hb. destruct first, last; apply byte_cases; by vm_compute. }
  cbv zeta in Hbits. cbool. destruct Hbits as ((((H49 & Ht0) & Hst) & Hen) & Hty).
  apply eqb_prop in Hst. apply eqb_prop in Hen.
  unfold unpack_payload. change (rd pl 0) with (Ret (Z.lor (Z.land b0 129) 98)). cbn [obind].
  cbv zeta. rewrite H49. cbn [Z.ltb Z.compare Pos.compare Pos.compare_cont Z.eqb Pos.eqb].
  assert (Hpl : zlen pl = 3 + zlen chunk) by (unfold pl; by rewrite zlen_app).
  pose proof (zlen_nonneg chunk). pose proof (zlen_nonneg acc).
  unfold rtp_h265_unpack_fu. rewrite (syn_donl _ _ _ Hu), (syn_size _ _ _ Hu). cbv zeta.
  change (1 + 2) with 3. replace (_ || _) with false by (symmetry; cbool; lia).
  destruct (h265_grow_spec u sq acc (zlen pl) 3 Hu ltac:(lia)) as (u1 & -> & Hu1 & Hcap & Hbig).
  rewrite (syn_size _ _ _ Hu) in Hcap. cbn [negb].
  change (rd pl 2) with (Ret fh). cbn [obind]. rewrite Hst. destruct first.
  - unfold c_assert. zif. cbn [orb obind].
    change (rd pl 0) with (Ret (Z.lor (Z.land b0 129) 98)). change (rd pl 1) with (Ret b1). cbn [obind].
    rewrite Ht0. destruct Hu1 as [? Hc ? ? ? [rest Er] Hs].
    rewrite Er in *. rewrite (wrn_app [] (acc ++ rest)) by (done || (change (zlen [b0; b1]) with 2; lia)).
    cbn [obind app]. replace (_ && _) with true by (symmetry; cbool; lia). cbn [orb obind].
    set (u2 := set_buf _ _ _ _).
    pose proof (h265_append_spec u2 s sq [b0; b1] (Z.lor (Z.land b0 129) 98) b1 fh chunk ts) as Ha.
    cbv zeta in Ha. rewrite Hen in Ha. apply Ha; [|cbn; change (zlen [b0; b1]) with 2; lia].
    constructor; try done; cbn.
    + change (zlen [b0; b1]) with 2. rewrite !zlen_cons, zlen_adv. lia.
    + by eexists.
  - rewrite (syn_size _ _ _ Hu1). specialize (Hacc eq_refl).
    assert (0 < zlen acc) by (destruct acc; [done|]; rewrite zlen_cons; pose proof (zlen_nonneg acc); lia).
    zif. unfold c_assert. zif. cbn [orb obind].
    pose proof (h265_append_spec u1 s sq acc (Z.lor (Z.land b0 129) 98) b1 fh chunk ts Hu1) as Ha.
    cbv zeta in Ha. rewrite Hen in Ha. apply Ha. lia.
Qed.

Lemma h265_recv_app u s ds1 ds2 u1 s1 :
  recv log_handler u s ds1 = Ret (1, (u1, s1)) ->
  recv log_handler u s (ds1 ++ ds2) = recv log_handler u1 s1 ds2.
Proof.
  revert u s. induction ds1 as [|[[bytes ?] ?] ds1 IH]; intros u s; cbn [recv app].
  { by intros [= <- <-]. }
  destruct (rtp_h265_unpack_input log_handler u s bytes (zlen bytes)) as [[r [u2 s2]]|c]; [|done].
  cbn [obind fst snd]. destruct (Z.eqb_spec r 1); [apply IH|by intros [= -> -> ->]].
Qed.

Lemma h265_recv_step u s sq acc hd m pl units s1 s2 acc1 :
  ready u sq acc -> plain hd -> u16 (seq hd) = u16 sq -> 0 <= m < 2 -> 3 <= zlen pl ->
  (forall u2, synced u2 sq acc -> exists u1,
     unpack_payload log_handler u2 s pl (zlen pl) (timestamp hd) = Ret (1, (u1, s1)) /\
     ready u1 (sq + 1) acc1) ->
  (forall u2, ready u2 (sq + 1) acc1 ->
     exists u3, recv log_handler u2 s1 (emit (advance hd 1) units) = Ret (1, (u3, s2)) /\
       ready u3 (sq + 1 + zlen units) []) ->
  exists u3, recv log_handler u s (emit hd ((m, pl) :: units)) = Ret (1, (u3, s2)) /\
    ready u3 (sq + zlen ((m, pl) :: units)) [].
Proof.
  intros Hu Hh Hs Hm Hl Hone Hrest. cbn [emit recv].
  destruct (h265_input_ready u s sq acc hd m pl Hu Hh Hs Hm Hl) as (u2 & Hu2 & ->).
  destruct (Hone u2 Hu2) as (u3 & -> & Hu3). cbn [obind fst snd]. change (1 =? 1) with true.
  destruct (Hrest u3 Hu3) as (u4 & -> & Hu4). exists u4. split; [done|].
  rewrite zlen_cons. by rewrite Z.add_assoc.
Qed.

Lemma h265_recv_fragments fuel u s sq acc hd c first mark b0 b1 data :
  ready u sq acc -> plain hd -> u16 (seq hd) = u16 sq -> 0 <= mark < 2 -> is_byte b0 ->
  H265_TYPE b0 < 48 -> 0 < c -> 0 < zlen data -> (length data <= fuel)%nat ->
  (first = false -> acc <> []) -> (if first then 2 else 0) + zlen acc + zlen data <= RTP_PAYLOAD_MAX_SIZE ->
  let units := fragments fuel [Z.lor (Z.land b0 129) 98; b1] c first (H265_TYPE b0) mark data in
  exists u', recv log_handler u s (emit hd units)
    = Ret (1, (u', s ++ [(start_code ++ (if first then [b0; b1] else acc) ++ data, timestamp hd, 0)])) /\
    ready u' (sq + zlen units) [].
Proof.
  revert u sq acc hd first data.
  induction fuel as [|fuel IH]; intros u sq acc hd first data Hu Hh Hs Hmark Hb Ht Hc Hd Hf Hacc Hmax.
  { unfold zlen in Hd. lia. }
  pose proof (zlen_nonneg acc). cbv zeta in *. cbn [fragments].
  destruct (Z.leb_spec (zlen data) c).
  - eapply (h265_recv_step _ _ _ _ _ _ _ _ _ _ []); try done.
    + rewrite !zlen_app. change (zlen [_; b1]) with 2. change (zlen [_]) with 1. lia.
    + intros u2 Hu2. apply (h265_unpack_fragment u2 s sq acc b0 b1 _ data _ first true Hu2); try done; destruct first; lia.
    + intros u2 Hu2. exists u2. split; [done|]. by rewrite Z.add_0_r.
  - set (chunk := take (Z.to_nat c) data).
    assert (Hch : zlen chunk = c) by (unfold chunk; rewrite zlen_take; lia).
    assert (Had : zlen (adv data c) = zlen data - c) by (rewrite zlen_adv; lia).
    assert (Hsplit : chunk ++ adv data c = data) by apply take_drop.
    assert (Hne : chunk <> []) by (intros E; rewrite E in Hch; change (zlen []) with 0 in Hch; lia).
    eapply (h265_recv_step _ _ _ _ _ _ _ _ s); try done.
    + rewrite !zlen_app. change (zlen [_; b1]) with 2. change (zlen [_]) with 1. lia.
    + intros u2 Hu2. eapply (h265_unpack_fragment u2 s sq acc b0 b1 _ chunk _ first false Hu2); try done; destruct first; lia.
    + intros u2 Hu2.
      destruct (IH u2 (sq + 1) ((if first then [b0; b1] else acc) ++ chunk) (advance hd 1) false (adv data c) Hu2)
        as (u3 & E3 & Hu3); try done.
      * by apply advance_plain.
      * cbn. revert Hs. unfold u16. lia.
      * lia.
      * unfold zlen in Had. lia.
      * intros _ E. apply app_eq_nil in E as [_ E]. done.
      * rewrite zlen_app. destruct first; [change (zlen [b0; b1]) with 2|]; lia.
      * exists u3. split; [|done]. rewrite E3. do 4 f_equal. rewrite <- !app_assoc, Hsplit. done.
Qed.

Lemma h265_recv_nal u s sq hd sz mark nal :
  ready u sq [] -> plain hd -> u16 (seq hd) = u16 sq -> 0 <= mark < 2 -> 564 <= sz ->
  bytes_ok nal -> 3 <= zlen nal <= RTP_PAYLOAD_MAX_SIZE -> H265_TYPE (default 0 (head nal)) < 48 ->
  let units := PackSpec.nal_payloads sz mark nal in
  exists u', recv log_handler u s (emit hd units)
    = Ret (1, (u', s ++ [(start_code ++ nal, timestamp hd, 0)])) /\ ready u' (sq + zlen units) [].
Proof.
  intros Hu Hh Hs Hmark Hsz Hb Hl Ht units. unfold units, PackSpec.nal_payloads. clear units.
  destruct nal as [|b0 [|b1 rest]]; try (unfold zlen in Hl; simpl in Hl; lia). cbn [head default] in *.
  pose proof (Forall_cons_1 _ _ _ Hb) as [Hb0 _]. cbv zeta. unfold RTP_FIXED_HEADER.
  destruct (Z.leb_spec (zlen (b0 :: b1 :: rest) + 12) sz).
  - eapply (h265_recv_step _ _ _ _ _ _ _ _ _ _ []); try done; [destruct (_ <? 32); lia|lia| |].
    + intros u2 Hu2. by eapply h265_unpack_single.
    + intros u2 Hu2. exists u2. split; [done|]. by rewrite Z.add_0_r.
  - change (adv (b0 :: b1 :: rest) 2) with rest.
    assert (Hlr : zlen (b0 :: b1 :: rest) = 2 + zlen rest) by (rewrite !zlen_cons; lia).
    replace (length (b0 :: b1 :: rest) - 2)%nat with (length rest) by (simpl; lia).
    cbn [PackSpec.fu_hdr].
    apply (h265_recv_fragments (length rest) u s sq [] hd (sz - 12 - 3) true mark b0 b1 rest); try done; try lia.
    change (zlen []) with 0. lia.
Qed.

Lemma h265_recv_au nals u s sq hd sz :
  ready u sq [] -> plain hd -> u16 (seq hd) = u16 sq -> 564 <= sz ->
  Forall (fun nal => bytes_ok nal /\ 3 <= zlen nal <= RTP_PAYLOAD_MAX_SIZE /\
                     H265_TYPE (default 0 (head nal)) < 48) nals ->
  let units := PackSpec.au_payloads sz nals in
  exists u', recv log_handler u s (emit hd units)
    = Ret (1, (u', s ++ map (fun nal => (start_code ++ nal, timestamp hd, 0)) nals)) /\
    ready u' (sq + zlen units) [].
Proof.
  revert u s sq hd. induction nals as [|nal nals IH]; intros u s sq hd Hu Hh Hs Hsz Hn.
  { exists u. cbn. rewrite app_nil_r, Z.add_0_r. done. }
  apply Forall_cons_1 in Hn as [(Hb & Hl & Ht) Hn]. rewrite PackSpec.h265_au_payloads_cons. cbv zeta.
  set (mark := match nals with [] => 1 | _ => 0 end).
  assert (Hmark : 0 <= mark < 2) by (unfold mark; destruct nals; lia).
  destruct (h265_recv_nal u s sq hd sz mark nal Hu Hh Hs Hmark Hsz Hb Hl Ht) as (u1 & E1 & Hu1).
  set (us := PackSpec.nal_payloads sz mark nal) in *.
  destruct (IH u1 (s ++ [(start_code ++ nal, timestamp hd, 0)]) (sq + zlen us) (advance hd (zlen us)) Hu1)
    as (u2 & E2 & Hu2); try done.
  { by apply advance_plain. }
  { cbn. revert Hs. unfold u16. lia. }
  exists u2. rewrite emit_app by apply (ok_seq _ (pl_header _ Hh)). rewrite (h265_recv_app _ _ _ _ _ _ E1), E2.
  split; [|by rewrite zlen_app, Z.add_assoc]. cbn [map]. by rewrite <- app_assoc.
Qed.
End Spec.
End UnpackSpec.

(** ** Memory safety of the unpacker *)
Module UnpackSafe.
Import H265.Unpack.

Record decode_ok (u : rtp_decode_h265_t) : Prop := {
  dok_cap : zlen (ptr u) = capacity u;
  dok_size : 0 <= size u <= capacity u
}.

Lemma h265_create_ok : decode_ok rtp_h265_unpack_create.
Proof. by constructor. Qed.

Section Safe.
Context `{Alloc} `{Build} {S : Type} (h : rtp_payload_t S).

Definition kept (res : Z * (rtp_decode_h265_t * S)) : Prop := decode_ok (fst (snd res)).

Lemma set_flags_ok u f : decode_ok u -> decode_ok (set_flags u f 0).
Proof. intros []. constructor; cbn; [done|lia]. Qed.

Lemma h265_deliver_ok u s data ts r u' s' :
  decode_ok u -> deliver h u s data ts = (r, (u', s')) ->
  decode_ok u' /\ using_donl_field u' = using_donl_field u.
Proof.
  unfold deliver. intros Hu. destruct (h_packet h s data ts (flags u)). intros [= <- <- <-].
  split; [by apply set_flags_ok|done].
Qed.

Lemma ap_loop_safe fuel u s p bytes n ts r :
  decode_ok u -> bytes_ok p -> bytes <= zlen p -> 2 <= n <= 4 -> bytes <= Z.of_nat fuel ->
  post (ap_loop h fuel u s p bytes n ts r) kept.
Proof.
  revert u s p bytes n r. induction fuel as [|fuel IH]; intros u s p bytes n r Hu Hp Hl Hn Hf;
    cbn [ap_loop].
  { zif. rewrite andb_false_r. by ostep. }
  ostep; [|by ostep]. cbool. cbv zeta.
  ostep. apply post_r16; [rewrite zlen_adv; lia|auto with zlist|]. intros len Hlen.
  ostep; cbool.
  { ostep. ostep. ostep. by apply set_flags_ok. }
  assert (len + 2 <= bytes - (n - 2) /\ 3 <= len) as [? ?] by lia.
  ostep. apply post_rd; [rewrite zlen_adv; lia|]. intros b _. ostep. ostep. ostep.
  apply post_rdn; [lia|lia|rewrite zlen_adv; lia|].
  destruct (deliver h u s _ ts) as [r' [u' s']] eqn:E.
  destruct (h265_deliver_ok _ _ _ _ _ _ _ Hu E) as [Hu' _].
  apply IH; [done|auto with zlist|rewrite !zlen_adv; lia|destruct (using_donl_field u'); lia|lia].
Qed.

Lemma h265_grow_safe u bytes n :
  decode_ok u -> 0 <= n <= bytes ->
  let '(ok, u') := fu_grow u bytes n in
  decode_ok u' /\ (ok = true -> size u' = size u /\ size u + bytes - n + 2 <= capacity u').
Proof.
  intros Hu Hn. unfold fu_grow. destruct (Z.ltb_spec (capacity u) (size u + bytes - n + 2)); [|done].
  set (sz := size u + bytes + 2 + _).
  assert (size u + bytes + 2 + 128000 <= sz)
    by (unfold sz; destruct (Z.ltb_spec 128000 ((size u + bytes + 2) / 4)); lia).
  clearbody sz. destruct Hu. destruct (alloc_ok sz); split; try done; try (constructor; cbn; [|lia]).
  - rewrite zlen_app, zlen_replicate. lia.
  - cbn. lia.
  - done.
Qed.

Lemma h265_append_safe u s p bytes n ts fh :
  decode_ok u -> 0 <= n <= bytes -> bytes <= zlen p -> size u + bytes - n <= capacity u ->
  post (fu_append h u s p bytes n ts fh) kept.
Proof.
  intros [Hc Hs] Hn Hl Hroom. unfold fu_append. cbv zeta. ostep.
  apply (post_mono _ decode_ok).
  - ostep; [|ostep; by constructor]. ostep. ostep. ostep. apply post_rdn; [lia|lia|lia|].
    ostep. apply post_wrn_len; cbn [set_dts ptr size]; [lia|rewrite zlen_take, zlen_drop; lia|].
    intros buf Hbuf. ostep. constructor; cbn; lia.
  - intros u1 [Hc1 Hs1]. ostep; [|by ostep]. ostep. apply post_rdn; [lia|lia|lia|].
    destruct (deliver h u1 s _ ts) as [r' [u' s']] eqn:E.
    ostep. by eapply h265_deliver_ok.
Qed.

Lemma h265_fu_safe u s p bytes ts :
  decode_ok u -> bytes_ok p -> 3 <= bytes <= zlen p ->
  post (rtp_h265_unpack_fu h u s p bytes ts) kept.
Proof.
  intros Hu Hp Hl. unfold rtp_h265_unpack_fu. cbv zeta. set (n := 1 + _).
  assert (Hn : 3 <= n) by (unfold n; destruct (using_donl_field u); lia).
  ostep; [ostep; ostep; by ostep|]. cbool.
  pose proof (h265_grow_safe u bytes n Hu ltac:(lia)) as Hg.
  destruct (fu_grow u bytes n) as [ok u1]. destruct Hg as [Hu1 Hok].
  ostep; [by ostep|]. destruct ok; [|done]. destruct (Hok eq_refl) as [Hs1 Hroom].
  pose proof (dok_size _ Hu). pose proof (dok_cap _ Hu1).
  ostep. apply post_rd; [lia|]. intros fh _. ostep.
  - ostep. ostep. ostep. apply post_rd; [lia|]. intros b0 _. ostep. apply post_rd; [lia|]. intros b1 _.
    ostep. apply post_wrn_len; [lia|change (zlen [_; b1]) with 2; lia|]. intros buf Hbuf.
    ostep. ostep. apply h265_append_safe; cbn; [|lia|lia|lia]. constructor; cbn; lia.
  - ostep; [ostep; destruct Hu1; by constructor|]. ostep. ostep. apply h265_append_safe; [done|lia|lia|lia].
Qed.

Lemma h265_unpack_payload_safe u s p len ts :
  decode_ok u -> bytes_ok p -> 3 <= len <= zlen p -> post (unpack_payload h u s p len ts) kept.
Proof.
  intros Hu Hp Hl. unfold unpack_payload. ostep. apply post_rd; [lia|]. intros b0 _. cbv zeta.
  ostep; [by ostep|]. ostep.
  { apply ap_loop_safe; [done|auto with zlist|rewrite zlen_adv; lia|destruct (using_donl_field u); lia|lia]. }
  ostep; [by apply h265_fu_safe|]. ostep; [ostep; ostep; by ostep|].
  ostep. apply post_rdn; [lia|lia|lia|].
  destruct (deliver h u s _ ts) as [r' [u' s']] eqn:E. ostep. by eapply h265_deliver_ok.
Qed.

Lemma h265_unpack_input_safe u s packet bytes :
  decode_ok u -> bytes_ok packet -> bytes <= zlen packet ->
  post (rtp_h265_unpack_input h u s packet bytes) kept.
Proof.
  intros Hu Hb Hl. unfold rtp_h265_unpack_input. ostep.
  eapply post_mono; [by apply deserialize_post|]. intros [r pkt] Hr.
  ostep; [by ostep|]. cbool. destruct H1 as [Hr0 Hlen].
  destruct Hr as [->|[_ Hok]]; [done|].
  cbv zeta. ostep. ostep. destruct Hok as [_ _ [off [Ep Hoff]] _ Hroom _].
  apply h265_unpack_payload_safe.
  - set (u1 := if flags u =? -1 then _ else u).
    assert (Hu1 : decode_ok u1) by (unfold u1; destruct (flags u =? -1); destruct Hu; by constructor).
    destruct (negb _); [|destruct Hu1; by constructor].
    apply set_flags_ok with (f := RTP_PAYLOAD_FLAG_PACKET_LOST) in Hu1. destruct Hu1. by constructor.
  - rewrite Ep. auto with zlist.
  - split; [|done]. destruct (using_donl_field u); lia.
Qed.
End Safe.
End UnpackSafe.

(** ** The properties *)
Section Properties.
Import H265.Pack H265.Unpack PackSpec UnpackSpec UnpackSafe.

(** An access unit as the encoder delivers it: units of at least three bytes
    behind start codes, zeros at the end. *)
Definition access_unit (k : nat) (u : list Z) (us : list (nat * list Z)) (z : nat) : list Z :=
  coded ((k, u) :: us) ++ replicate z 0.

Definition unit_ok (u : list Z) : Prop := nal_ok u /\ 3 <= zlen u.
Definition unit_fits (u : list Z) : Prop :=
  zlen u <= RTP_PAYLOAD_MAX_SIZE /\ H265_TYPE (default 0 (head u)) < 48.

Lemma pack_input_accepted `{Build} {S} (h : rtp_payload_t S) g pk k u us z ts s :
  accepts h g -> packer_ok pk -> 564 <= psize pk -> is_u32 ts ->
  (3 <= k)%nat -> unit_ok u -> Forall (fun '(k, v) => (2 <= k)%nat /\ unit_ok v) us ->
  let stream := access_unit k u us z in
  let units := au_payloads (psize pk) (u :: map snd us) in
  exists pk', rtp_h265_pack_input h pk s stream (zlen stream) ts
              = Ret (0, (pk', fold_left g (emit (with_timestamp (rtp (ppkt pk)) ts) units) s)) /\
              moved (set_ts pk ts) (zlen units) pk'.
Proof.
  intros Hh Hp Hsz Hts Hk [Hu Hul] Hus. cbv zeta. unfold rtp_h265_pack_input, access_unit.
  rewrite annexb_stream_spec; [|done|done|].
  2: { eapply Forall_impl; [|exact Hus]. intros [k' v] (? & ? & _). done. }
  apply (h265_feed_spec h g Hh (set_ts pk ts)); [by apply set_ts_ok|done|].
  constructor; [done|]. apply Forall_map. eapply Forall_impl; [|exact Hus].
  intros [k' v] (_ & Hv). done.
Qed.

Lemma pack_input_spec `{Build} pk k u us z ts log :
  packer_ok pk -> 564 <= psize pk -> is_u32 ts ->
  (3 <= k)%nat -> unit_ok u -> Forall (fun '(k, v) => (2 <= k)%nat /\ unit_ok v) us ->
  let stream := access_unit k u us z in
  let units := au_payloads (psize pk) (u :: map snd us) in
  exists pk', rtp_h265_pack_input log_handler pk log stream (zlen stream) ts
              = Ret (0, (pk', log ++ emit (with_timestamp (rtp (ppkt pk)) ts) units)) /\
              moved (set_ts pk ts) (zlen units) pk'.
Proof. intros. rewrite <- fold_snoc. by apply pack_input_accepted; [apply log_accepts|..]. Qed.

(** C20. What the packer hands its client for an access unit, any client that grants every
    block and accepts every packet: every NAL unit in order, whole when it fits the packet
    size, in fragments otherwise, with consecutive sequence numbers, the timestamp, and the
    marker on the last slice or fragment of the last unit -- and nothing else, whatever
    the blocks it is granted contain. *)
Theorem rtp_h265_pack_emits `{Build} {S} (h : rtp_payload_t S) g pk k u us z ts s :
  accepts h g -> packer_ok pk -> 564 <= psize pk -> is_u32 ts ->
  (3 <= k)%nat -> unit_ok u -> Forall (fun '(k, v) => (2 <= k)%nat /\ unit_ok v) us ->
  let stream := access_unit k u us z in
  let units := au_payloads (psize pk) (u :: map snd us) in
  exists pk', rtp_h265_pack_input h pk s stream (zlen stream) ts
              = Ret (0, (pk', fold_left g (emit (with_timestamp (rtp (ppkt pk)) ts) units) s)) /\
              moved (set_ts pk ts) (zlen units) pk'.
Proof. apply pack_input_accepted. Qed.

(** C13. Round trip: the packets the packer makes of an access unit, given in
    order to an unpacker that expects the first of them, make it deliver every
    NAL unit behind a start code, unchanged, in order, with the timestamp and
    no loss flag; and it then expects the next packet. *)
Theorem rtp_h265_roundtrip `{Alloc} `{Build} pk k u us z ts d :
  (forall n, alloc_ok n = true) -> packer_ok pk -> 564 <= psize pk -> is_u32 ts ->
  (3 <= k)%nat -> unit_ok u -> Forall (fun '(k, v) => (2 <= k)%nat /\ unit_ok v) us ->
  Forall unit_fits (u :: map snd us) -> ready d (seq (rtp (ppkt pk))) [] ->
  let stream := access_unit k u us z in
  exists pk' packets d',
    rtp_h265_pack_input log_handler pk [] stream (zlen stream) ts = Ret (0, (pk', packets)) /\
    recv log_handler d [] packets
      = Ret (1, (d', map (fun nal => (start_code ++ nal, ts, 0)) (u :: map snd us))) /\
    ready d' (seq (rtp (ppkt pk'))) [].
Proof.
  intros Hg Hp Hsz Hts Hk Hu Hus Hfit Hd stream.
  destruct (pack_input_spec pk k u us z ts [] Hp Hsz Hts Hk Hu Hus) as (pk' & E & Hm).
  set (units := au_payloads (psize pk) (u :: map snd us)) in *.
  destruct (h265_recv_au Hg (u :: map snd us) d [] (seq (rtp (ppkt pk)))
              (with_timestamp (rtp (ppkt pk)) ts) (psize pk) Hd) as (d' & Er & Hd'); try done.
  { by apply with_ts_plain, Hts; apply packer_plain. }
  { assert (Hall : Forall unit_ok (u :: map snd us)).
    { constructor; [done|]. apply Forall_map. eapply Forall_impl; [|exact Hus]. intros [k' v] [_ Hv]. done. }
    apply Forall_forall. intros v Hv.
    destruct (proj1 (Forall_forall _ _) Hall v Hv) as [Hok Hl].
    destruct (proj1 (Forall_forall _ _) Hfit v Hv) as [Hmax Ht].
    split_and!; try done. apply Hok. }
  eexists _, _, d'. split; [exact E|]. split; [exact Er|]. fold units in Hd'.
  assert (Hst : seq (rtp (ppkt pk')) = u16 (seq (rtp (ppkt pk)) + zlen units))
    by exact (f_equal seq (mv_stream _ _ _ Hm)).
  rewrite Hst.
  destruct Hd' as [? ? ? Hsync ? ?]. constructor; try done.
  destruct Hsync as [?|[? Hq]]; [by left|right]. split; [done|].
  rewrite Hq. cbn [with_timestamp seq]. unfold u16. lia.
Qed.

(** C0. Memory safety of the unpacker: any datagram, in any state, with any
    allocator and client, is unpacked without an access outside the datagram
    or the reassembly buffer, and every loop ends. *)
Theorem rtp_h265_unpack_safe `{Alloc} `{Build} {S} (h : rtp_payload_t S) u s packet bytes :
  decode_ok u -> bytes_ok packet -> bytes <= zlen packet ->
  post (rtp_h265_unpack_input h u s packet bytes) (fun '(_, (u', _)) => decode_ok u').
Proof.
  intros. eapply post_mono; [by apply h265_unpack_input_safe|]. by intros [r [u' s']].
Qed.

Lemma h265_pack_handler_safe `{Build} {S} (h : rtp_payload_t S) sz st nalu n last :
  alloc_sized h -> 564 <= sz -> packer_ok (fst st) /\ psize (fst st) = sz -> bytes_ok nalu ->
  n = zlen nalu -> 0 < n ->
  exists r st', rtp_h265_pack_handler h st nalu n last = Ret (r, st') /\
    packer_ok (fst st') /\ psize (fst st') = sz.
Proof.
  intros Hh Hsz [Hp Hps] Hb -> Hn. destruct st as [pk s]. cbn [fst] in *.
  unfold rtp_h265_pack_handler. set (mark := if last =? 0 then 0 else 1).
  assert (Hmark : 0 <= mark < 2) by (unfold mark; destruct (last =? 0); lia).
  unfold RTP_FIXED_HEADER. destruct (Z.leb_spec (zlen nalu + 12) (psize pk)).
  - unfold rtp_h265_pack_nalu. destruct (zlen nalu <? 3); [by eexists _, _|].
    destruct (pack_single_safe h Hh pk s nalu mark (fun b => H265_TYPE b <? 32) Hp Hmark Hn)
      as ([r st'] & -> & [? ?]). eexists _, _. split; [done|]. split; [done|]. cbn in *. congruence.
  - unfold rtp_h265_pack_fu. destruct nalu as [|b0 [|b1 rest]];
      try (unfold zlen in *; simpl in *; lia). zif.
    change (rd (b0 :: b1 :: rest) 0) with (Ret b0). change (rd (b0 :: b1 :: rest) 1) with (Ret b1).
    cbn [obind]. cbv zeta. unfold c_assert. zif. cbn [orb obind].
    pose proof (Forall_cons_1 _ _ _ Hb) as [Hb0 Hb01]. pose proof (Forall_cons_1 _ _ _ Hb01) as [Hb1 _].
    rewrite fu_header_bytes by done. set (hdr := [_; b1]).
    change (adv (b0 :: b1 :: rest) 2) with rest. rewrite !zlen_cons in *.
    replace (1 + (1 + zlen rest) - 2) with (zlen rest) by lia.
    fold (H265_TYPE b0). pose proof (h265_type_range b0).
    replace (Z.lor (H265_TYPE b0) FU_START) with (fu_header_of (H265_TYPE b0) true).
    2: { unfold fu_header_of, FU_START. rewrite Z.lor_comm. symmetry. apply (lor_add _ _ 6); lia. }
    destruct (pack_fu_loop_safe hdr 63 6 (H265_TYPE b0) ltac:(lia) ltac:(lia) h Hh
                (Z.to_nat (zlen rest)) pk s true rest mark 0 Hp Hmark) as ([r st'] & -> & [? ?]).
    + unfold RTP_FIXED_HEADER. change (zlen hdr) with 2. lia.
    + intros _. unfold RTP_FIXED_HEADER. change (zlen hdr) with 2. lia.
    + unfold zlen. lia.
    + eexists _, _. split; [done|]. split; [done|]. cbn in *. congruence.
Qed.

(** C0. Safety of the packer: any buffer whose format detection returns, any
    client whose allocator gives what it is asked for and whose callback may
    fail: nothing outside the buffers is touched, the fragmentation loop ends,
    and the packer stays usable. *)
Theorem rtp_h265_pack_safe `{Build} {S} (h : rtp_payload_t S) pk s h265 bytes ts fmt :
  alloc_sized h -> packer_ok pk -> 564 <= psize pk -> is_u32 ts ->
  bytes_ok h265 -> 0 <= bytes <= zlen h265 -> bytes < 2 ^ 31 ->
  h264_bitstream_format h265 bytes = Ret fmt ->
  post (rtp_h265_pack_input h pk s h265 bytes ts)
    (fun '(_, (pk', _)) => packer_ok pk' /\ psize pk' = psize pk).
Proof.
  intros Hh Hp Hsz Hts Hb Hl Hb31 Ef. unfold rtp_h265_pack_input.
  eapply post_mono; [eapply (annexb_nalu_safe _ (fun st => packer_ok (fst st) /\ psize (fst st) = psize pk))|].
  - intros st nalu n last Hst Hnb Hn Hpos.
    destruct (h265_pack_handler_safe h (psize pk) st nalu n last Hh Hsz Hst Hnb Hn Hpos) as (r & st' & -> & ?).
    done.
  - split; [by apply set_ts_ok|done].
  - done.
  - done.
  - done.
  - exact Ef.
  - by intros [r [pk' s']].
Qed.

Lemma fragments_fit fuel hdr c first ty mark data :
  0 < c -> Forall (fun '(_, pl) => zlen pl <= zlen hdr + 1 + c) (fragments fuel hdr c first ty mark data).
Proof.
  intros Hc. revert first data. induction fuel as [|fuel IH]; intros first data; [constructor|].
  cbn [fragments]. destruct (Z.leb_spec (zlen data) c).
  - apply Forall_singleton. rewrite !zlen_app. change (zlen [_]) with 1. lia.
  - constructor; [|apply IH]. rewrite !zlen_app, zlen_take. change (zlen [_]) with 1. lia.
Qed.

Lemma au_payloads_fit sz nals :
  564 <= sz -> Forall (fun u => 3 <= zlen u) nals ->
  Forall (fun '(_, pl) => zlen pl <= sz - RTP_FIXED_HEADER) (au_payloads sz nals).
Proof.
  intros Hsz. unfold RTP_FIXED_HEADER. induction nals as [|nal nals IH]; intros Hn; [constructor|].
  apply Forall_cons_1 in Hn as [Hl Hn]. rewrite h265_au_payloads_cons. apply Forall_app. split; [|by apply IH].
  unfold nal_payloads. cbv zeta. unfold RTP_FIXED_HEADER.
  destruct (Z.leb_spec (zlen nal + 12) sz); [apply Forall_singleton; lia|].
  destruct nal as [|b0 [|b1 rest]]; try (unfold zlen in Hl; simpl in Hl; lia). cbn [fu_hdr].
  eapply Forall_impl; [|apply fragments_fit; lia]. intros [m pl]. change (zlen [_; b1]) with 2. lia.
Qed.

Lemma emit_fit hd units n :
  Forall (fun '(_, pl) => zlen pl <= n - RTP_FIXED_HEADER) units -> plain hd ->
  Forall (fun '(bytes, _, _) => zlen bytes <= n) (emit hd units).
Proof.
  revert hd. induction units as [|[m pl] units IH]; intros hd Hu Hh; [constructor|].
  apply Forall_cons_1 in Hu as [Hl Hu]. cbn [emit]. constructor; [|by apply IH, advance_plain].
  destruct Hh as [_ _ _ Hx Hc]. unfold packet_bytes, packet_header_bytes, csrc_bytes, extension_bytes,
    payload_bytes. cbn [video_packet rtp with_m cc hx csrc payload payloadlen].
  rewrite Hx, Hc. cbn [Z.eqb]. change (Z.to_nat 0) with 0%nat. cbn [take flat_map app].
  unfold RTP_FIXED_HEADER in Hl. rewrite ?app_nil_r, !zlen_app, zlen_rtp_header_bytes, zlen_take. lia.
Qed.

(** C34. No packet exceeds the configured packet size. *)
Theorem rtp_h265_packets_fit `{Build} pk k u us z ts :
  packer_ok pk -> 564 <= psize pk -> is_u32 ts ->
  (3 <= k)%nat -> unit_ok u -> Forall (fun '(k, v) => (2 <= k)%nat /\ unit_ok v) us ->
  exists pk' packets,
    rtp_h265_pack_input log_handler pk [] (access_unit k u us z) (zlen (access_unit k u us z)) ts
      = Ret (0, (pk', packets)) /\
    Forall (fun '(bytes, _, _) => zlen bytes <= psize pk) packets.
Proof.
  intros Hp Hsz Hts Hk Hu Hus.
  destruct (pack_input_spec pk k u us z ts [] Hp Hsz Hts Hk Hu Hus) as (pk' & E & _).
  eexists _, _. split; [exact E|]. apply emit_fit.
  - apply au_payloads_fit; [done|]. constructor; [apply Hu|]. apply Forall_map.
    eapply Forall_impl; [|exact Hus]. intros [k' v] (_ & _ & Hv). exact Hv.
  - apply with_ts_plain, Hts. by apply packer_plain.
Qed.


(** The units of an aggregation packet behind their 16-bit sizes. *)
Definition aggregated (us : list (list Z)) : list Z := flat_map (fun u => be16 (zlen u) ++ u) us.

Definition ap_unit (u : list Z) : Prop :=
  bytes_ok u /\ 3 <= zlen u < 2 ^ 16 /\ H265_TYPE (default 0 (head u)) < 48.

Lemma ap_loop_spec `{Build} us u s fuel ts :
  using_donl_field u = false -> Forall ap_unit us -> (length us <= fuel)%nat ->
  exists u', ap_loop log_handler fuel u s (aggregated us) (zlen (aggregated us)) 2 ts 0
    = Ret (1, (u', s ++ match us with
                        | [] => []
                        | v :: us => (v, ts, flags u) :: map (fun v => (v, ts, 0)) us
                        end)).
Proof.
  revert u s fuel. induction us as [|v us IH]; intros u s fuel Hd Hus Hf.
  { exists u. destruct fuel; cbn; by rewrite app_nil_r. }
  destruct fuel as [|fuel]; [simpl in Hf; lia|].
  apply Forall_cons_1 in Hus as [(Hb & Hl & Ht) Hus].
  unfold aggregated. cbn [flat_map]. fold (aggregated us). rewrite <- app_assoc.
  pose proof (zlen_nonneg (aggregated us)). cbn [ap_loop].
  rewrite !zlen_app, zlen_be16. zif. cbn [Z.eqb andb]. cbv zeta. change (2 - 2) with 0.
  rewrite adv_0, Z.sub_0_r, nbo_r16_be16, u16_small by (unfold is_u16; lia). cbn [obind].
  replace (_ || _) with false by (symmetry; cbool; lia).
  destruct v as [|b rest]; [unfold zlen in Hl; simpl in Hl; lia|]. change (H265_TYPE b < 48) in Ht.
  set (v := b :: rest) in *.
  change (rd (be16 (zlen v) ++ v ++ aggregated us) 2) with (Ret b). cbn [obind].
  pose proof (h265_type_range b). unfold c_assert.
  do 2 zif. cbn [andb orb obind].
  rewrite rdn_app by done. cbn [obind]. unfold deliver. cbn [h_packet log_handler].
  rewrite app_assoc, adv_app by (rewrite zlen_app, zlen_be16; lia).
  replace (2 + (zlen v + zlen (aggregated us)) - (zlen v + 2)) with (zlen (aggregated us)) by lia.
  cbn [set_flags using_donl_field]. rewrite Hd. change (2 + 0) with 2.
  destruct (IH (set_flags u 0 0) (s ++ [(v, ts, flags u)]) fuel) as (u' & E); [done|done|simpl in Hf; lia|].
  exists u'. etrans; [exact E|]. rewrite <- app_assoc. do 4 f_equal. by destruct us.
Qed.

(** C0. The units of an aggregation packet are delivered in order, but bare: the
    start code that single units and fragmented units get is missing. *)
Theorem rtp_h265_ap_delivers_bare `{Alloc} `{Build} u s h0 h1 us ts :
  using_donl_field u = false -> H265_TYPE h0 = 48 -> us <> [] -> Forall ap_unit us ->
  let p := [h0; h1] ++ aggregated us in
  exists u', unpack_payload log_handler u s p (zlen p) ts
    = Ret (1, (u', s ++ match us with
                        | [] => []
                        | v :: us => (v, ts, flags u) :: map (fun v => (v, ts, 0)) us
                        end)).
Proof.
  intros Hd Ht Hne Hus p. unfold unpack_payload. change (rd p 0) with (Ret h0). cbn [obind]. cbv zeta.
  rewrite Ht. cbn [Z.ltb Z.compare Pos.compare Pos.compare_cont Z.eqb Pos.eqb].
  unfold rtp_h265_unpack_ap. rewrite Hd. unfold p. rewrite (adv_app [h0; h1]) by done.
  rewrite zlen_app. change (zlen [h0; h1]) with 2. change (2 + 0) with 2.
  replace (2 + zlen (aggregated us) - 2) with (zlen (aggregated us)) by lia.
  apply ap_loop_spec; [done|done|].
  assert (length us <= length (aggregated us))%nat.
  { clear. induction us as [|v us IH]; [done|]. unfold aggregated. cbn [flat_map length].
    fold (aggregated us). rewrite !length_app. simpl. lia. }
  unfold zlen. lia.
Qed.
End Properties.

(** ** Concrete instances: a parameter set and a slice of 3000 bytes, sent from
    sequence number 65534 on. *)
Definition sample_packer : rtp_packer := pack_create s_max_packet_size 96 65534 305419896.

Lemma sample_packer_ok : packer_ok sample_packer.
Proof. by apply pack_create_ok; unfold is_u16, is_u32; lia. Qed.

Definition slice (n : nat) : list Z := 2 :: 1 :: replicate n 5.

Lemma h265_slice_ok n : (0 < n)%nat -> unit_ok (slice n).
Proof.
  intros Hn. split.
  - split.
    + repeat constructor; try (unfold is_byte; lia). apply Forall_replicate. unfold is_byte. lia.
    + exists 5. split; [|done]. destruct n as [|n]; [lia|]. unfold slice. rewrite replicate_S_end.
      by rewrite !app_comm_cons, last_snoc.
    + intros i Hi. exfalso. unfold slice in Hi. destruct i as [|[|i]]; simpl in Hi; try congruence.
      apply lookup_replicate in Hi as [? _]. done.
  - unfold slice. rewrite !zlen_cons, zlen_replicate. lia.
Qed.

Lemma sample_units :
  unit_ok (sample_nal 64) /\ Forall (fun '(k, v) => (2 <= k)%nat /\ unit_ok v) [(3%nat, slice 2998)].
Proof.
  split.
  - split; [apply sample_nal_ok; lia|done].
  - apply Forall_singleton. split; [lia|apply h265_slice_ok; lia].
Qed.

Lemma sample_fits : Forall unit_fits [sample_nal 64; slice 2998].
Proof. repeat constructor; unfold RTP_PAYLOAD_MAX_SIZE; try (by vm_compute); simpl; lia. Qed.

Lemma rtp_h265_pack_emits_witness :
  let stream := access_unit 3 (sample_nal 64) [(3%nat, slice 2998)] 0 in
  let units := PackSpec.au_payloads 1434 [sample_nal 64; slice 2998] in
  exists pk', @H265.Pack.rtp_h265_pack_input default_build _ log_handler sample_packer [] stream (zlen stream) 90
              = Ret (0, (pk', fold_left snoc (emit (with_timestamp (rtp (ppkt sample_packer)) 90) units) [])) /\
    moved (set_ts sample_packer 90) (zlen units) pk'.
Proof.
  apply (@rtp_h265_pack_emits default_build _ log_handler snoc sample_packer 3 (sample_nal 64) [(3%nat, slice 2998)] 0 90 []);
    [apply log_accepts|apply sample_packer_ok|done|done|lia|apply sample_units|apply sample_units].
Defined.

Lemma rtp_h265_roundtrip_witness :
  let stream := access_unit 3 (sample_nal 64) [(3%nat, slice 2998)] 0 in
  exists pk' packets d',
    @H265.Pack.rtp_h265_pack_input default_build _ log_handler sample_packer [] stream (zlen stream) 90
      = Ret (0, (pk', packets)) /\
    @UnpackSpec.recv always_alloc default_build _ log_handler H265.Unpack.rtp_h265_unpack_create [] packets
      = Ret (1, (d', [(start_code ++ sample_nal 64, 90, 0); (start_code ++ slice 2998, 90, 0)])) /\
    UnpackSpec.ready d' (seq (rtp (ppkt pk'))) [].
Proof.
  apply (@rtp_h265_roundtrip always_alloc default_build sample_packer 3 (sample_nal 64) [(3%nat, slice 2998)]
           0 90 H265.Unpack.rtp_h265_unpack_create);
    [done|apply sample_packer_ok|done|done|lia|apply sample_units|apply sample_units|apply sample_fits
    |apply UnpackSpec.h265_create_ready].
Defined.

Lemma rtp_h265_unpack_safe_witness :
  @post release_build _
    (@H265.Unpack.rtp_h265_unpack_input never_alloc release_build _ log_handler
       H265.Unpack.rtp_h265_unpack_create [] (replicate 40 129) 40)
    (fun '(_, (u', _)) => UnpackSafe.decode_ok u').
Proof.
  apply (@rtp_h265_unpack_safe never_alloc release_build); [apply UnpackSafe.h265_create_ok| |done].
  apply Forall_replicate. unfold is_byte. lia.
Defined.

Lemma rtp_h265_pack_safe_witness :
  @post default_build _
    (@H265.Pack.rtp_h265_pack_input default_build _ log_handler sample_packer [] (replicate 40 0) 40 7)
    (fun '(_, (pk', _)) => packer_ok pk' /\ psize pk' = psize sample_packer).
Proof.
  apply (@rtp_h265_pack_safe default_build _ log_handler sample_packer [] (replicate 40 0) 40 7 0);
    [apply log_alloc_sized|apply sample_packer_ok|done|done| |done|done|done].
  apply Forall_replicate. unfold is_byte. lia.
Defined.

Lemma rtp_h265_packets_fit_witness :
  let stream := access_unit 3 (sample_nal 64) [(3%nat, slice 2998)] 0 in
  exists pk' packets,
    @H265.Pack.rtp_h265_pack_input default_build _ log_handler sample_packer [] stream (zlen stream) 90
      = Ret (0, (pk', packets)) /\
    Forall (fun '(bytes, _, _) => zlen bytes <= 1434) packets.
Proof.
  apply (@rtp_h265_packets_fit default_build sample_packer 3 (sample_nal 64) [(3%nat, slice 2998)] 0 90);
    [apply sample_packer_ok|done|done|lia|apply sample_units|apply sample_units].
Defined.

(** Mid-unit state: three bytes reassembled, packet 9 handled last. *)
Definition mid_unit : H265.Unpack.rtp_decode_h265_t :=
  H265.Unpack.mk_decode 9 90 [2; 1; 5; 0; 0] 3 5 0 false.


Lemma rtp_h265_ap_delivers_bare_witness :
  exists u', @H265.Unpack.unpack_payload always_alloc default_build _ log_handler mid_unit []
               [96; 1; 0; 3; 2; 1; 5; 0; 4; 2; 1; 6; 6] 13 90
    = Ret (1, (u', [([2; 1; 5], 90, 0); ([2; 1; 6; 6], 90, 0)])).
Proof.
  apply (@rtp_h265_ap_delivers_bare always_alloc default_build mid_unit [] 96 1 [[2; 1; 5]; [2; 1; 6; 6]] 90);
    try done.
  repeat constructor; unfold is_byte; try lia; by vm_compute.
Defined.
