(* ===== verification/H264.v ===== *)
(** H.264 over RTP, RFC 6184 (lib/librtp/payload/rtp-h264-pack.c and
    rtp-h264-unpack.c; the functions in comments there are not modelled). *)

From S2P Require Import Prelude RtpUtil RtpPacket AnnexB Payload.

Definition H264_NAL (v : Z) : Z := Z.land v 31.

(** ** Packing *)
Module Pack.
Section Ops.
Context `{Build} {S : Type} (h : rtp_payload_t S).

Definition rtp_h264_pack_nalu (pk : rtp_packer) (s : S) (nalu : list Z) (bytes mark : Z)
  : outcome (Z * (rtp_packer * S)) :=
  pack_single h pk s nalu bytes mark (fun b => H264_NAL b <=? 5).

Definition rtp_h264_pack_fu_a (pk : rtp_packer) (s : S) (nalu : list Z) (bytes mark : Z)
  : outcome (Z * (rtp_packer * S)) :=
  do b0 <- rd nalu 0 ;;
  let fu_indicator := Z.lor (Z.land b0 224) 28 in
  let fu_header := Z.land b0 31 in
  let nalu := adv nalu 1 in
  let bytes := bytes - 1 in
  c_assert (0 <? bytes) ;;;
  pack_fu_loop h (Z.to_nat bytes) [fu_indicator] 31 pk s (Z.lor fu_header FU_START) nalu bytes mark 0.

Definition rtp_h264_pack_handler (st : rtp_packer * S) (nalu : list Z) (bytes last : Z)
  : outcome (Z * (rtp_packer * S)) :=
  let '(pk, s) := st in
  let mark := if last =? 0 then 0 else 1 in
  if bytes + RTP_FIXED_HEADER <=? psize pk then rtp_h264_pack_nalu pk s nalu bytes mark
  else rtp_h264_pack_fu_a pk s nalu bytes mark.

Definition rtp_h264_pack_input (pk : rtp_packer) (s : S) (h264 : list Z) (bytes ts : Z)
  : outcome (Z * (rtp_packer * S)) :=
  let pk := set_ts pk ts in
  rtp_h264_annexb_nalu rtp_h264_pack_handler h264 bytes (pk, s).
End Ops.
End Pack.

(** ** Unpacking *)
Module Unpack.
(** [ptr] is the reassembly buffer, of [capacity] bytes. *)
Record rtp_decode_h264_t := mk_decode {
  dseq : Z;
  dtimestamp : Z;
  ptr : list Z;
  size : Z;
  capacity : Z;
  flags : Z
}.

Definition set_flags (u : rtp_decode_h264_t) (f sz : Z) : rtp_decode_h264_t :=
  mk_decode (dseq u) (dtimestamp u) (ptr u) sz (capacity u) f.
Definition set_buf (u : rtp_decode_h264_t) (p : list Z) (sz cap : Z) : rtp_decode_h264_t :=
  mk_decode (dseq u) (dtimestamp u) p sz cap (flags u).
Definition set_dts (u : rtp_decode_h264_t) (ts : Z) : rtp_decode_h264_t :=
  mk_decode (dseq u) ts (ptr u) (size u) (capacity u) (flags u).
Definition set_dseq (u : rtp_decode_h264_t) (sq : Z) : rtp_decode_h264_t :=
  mk_decode sq (dtimestamp u) (ptr u) (size u) (capacity u) (flags u).

Definition rtp_h264_unpack_create : rtp_decode_h264_t := mk_decode 0 0 [] 0 0 (-1).

Definition start_code : list Z := [0; 0; 0; 1].

Section Ops.
Context `{Alloc} `{Build} {S : Type} (h : rtp_payload_t S).

(** The start code and the unit go to the client in two calls, the second
    only when the first returned 0; the flags and the buffer are cleared. *)
Definition deliver (u : rtp_decode_h264_t) (s : S) (data : list Z) (ts : Z)
  : Z * (rtp_decode_h264_t * S) :=
  let '(r, s) := h_packet h s start_code ts (flags u) in
  let '(r, s) := if r =? 0 then h_packet h s data ts (flags u) else (r, s) in
  (r, (set_flags u 0 0, s)).

(** Cases 24 and 25 of the switch. *)
Fixpoint stap_loop (fuel : nat) (u : rtp_decode_h264_t) (s : S) (p : list Z)
    (bytes_left ts r : Z) : outcome (Z * (rtp_decode_h264_t * S)) :=
  let result := (if 0 =? r then 1 else r, (u, s)) in
  if 2 <? bytes_left then
    match fuel with
    | O => Crash Diverge
    | Datatypes.S fuel =>
        do len <- nbo_r16 p ;;
        if (bytes_left <? len + 2) || (len <? 2) then Ret result
        else
          do data <- rdn p 2 len ;;
          let '(r, (u, s)) := deliver u s data ts in
          stap_loop fuel u s (adv p (len + 2)) (bytes_left - (len + 2)) ts r
    end
  else Ret result.

(** Cases 26 and 27: [n] bytes of timestamp offset, which are skipped. *)
Fixpoint mtap_loop (fuel : nat) (u : rtp_decode_h264_t) (s : S) (p : list Z)
    (bytes_left n ts r : Z) : outcome (Z * (rtp_decode_h264_t * S)) :=
  let result := (if 0 =? r then 1 else r, (u, s)) in
  if 2 <? bytes_left then
    match fuel with
    | O => Crash Diverge
    | Datatypes.S fuel =>
        do len <- nbo_r16 p ;;
        if bytes_left <? len + 2 then Ret result
        else if len <? 1 + n then Ret result
        else
          do data <- rdn p (2 + 1 + n) (len - 1 - n) ;;
          let '(r, (u, s)) := deliver u s data ts in
          mtap_loop fuel u s (adv p (len + 2)) (bytes_left - (len + 2)) n ts r
    end
  else Ret result.

Definition fu_grow (u : rtp_decode_h264_t) (bytes n : Z) : bool * rtp_decode_h264_t :=
  if capacity u <? size u + bytes - n + 1 then
    let newcap := size u + bytes + 1 in
    let newcap := newcap + (if 128000 <? newcap / 4 then newcap / 4 else 128000) in
    if alloc_ok newcap then
      (true, set_buf u (ptr u ++ replicate (Z.to_nat (newcap - capacity u)) heap_byte) (size u) newcap)
    else (false, set_flags u RTP_PAYLOAD_FLAG_PACKET_LOST 0)
  else (true, u).

(** The second half of [rtp_h264_unpack_fu]: append the fragment, deliver the
    unit at the end bit. *)
Definition fu_append (u : rtp_decode_h264_t) (s : S) (p : list Z) (bytes n ts fuheader : Z)
  : outcome (Z * (rtp_decode_h264_t * S)) :=
  let u := set_dts u ts in
  do u <-
    (if n <? bytes then
       do src <- rdn p n (bytes - n) ;;
       do buf <- wrn (ptr u) (size u) src ;;
       Ret (set_buf u buf (size u + (bytes - n)) (capacity u))
     else Ret u) ;;
  if negb (Z.land fuheader FU_END =? 0) then
    do unit <- rdn (ptr u) 0 (size u) ;;
    let '(r, (u, s)) := deliver u s unit ts in
    Ret (if 0 =? r then 1 else r, (u, s))
  else Ret (1, (u, s)).

Definition rtp_h264_unpack_fu (u : rtp_decode_h264_t) (s : S) (p : list Z) (bytes ts : Z) (fu_b : bool)
  : outcome (Z * (rtp_decode_h264_t * S)) :=
  let n := if fu_b then 4 else 2 in
  if bytes <? n then Ret (- EINVAL, (u, s))
  else if RTP_PAYLOAD_MAX_SIZE <? size u + bytes - n then Ret (- EINVAL, (u, s))
  else
    let '(ok, u) := fu_grow u bytes n in
    if negb ok then Ret (- ENOMEM, (u, s))
    else
      do fuheader <- rd p 1 ;;
      if negb (Z.land fuheader FU_START =? 0) then
        do b0 <- rd p 0 ;;
        do buf <- wrn (ptr u) 0 [Z.lor (Z.land b0 224) (Z.land fuheader 31)] ;;
        fu_append (set_buf u buf 1 (capacity u)) s p bytes n ts fuheader
      else if size u =? 0 then
        Ret (0, (set_flags u RTP_PAYLOAD_FLAG_PACKET_LOST (size u), s))
      else fu_append u s p bytes n ts fuheader.

(** The switch of [rtp_h264_unpack_input]. *)
Definition unpack_payload (u : rtp_decode_h264_t) (s : S) (p : list Z) (len ts : Z)
  : outcome (Z * (rtp_decode_h264_t * S)) :=
  do nalt <- rd p 0 ;;
  let t := H264_NAL nalt in
  if (t =? 0) || (t =? 31) then Ret (0, (u, s))
  else if (t =? 24) || (t =? 25) then
    let n := if t =? 25 then 3 else 1 in
    stap_loop (Z.to_nat len) u s (adv p n) (len - n) ts 0
  else if (t =? 26) || (t =? 27) then
    let n := if t =? 27 then 3 else 2 in
    mtap_loop (Z.to_nat len) u s (adv p 3) (len - 3) n ts 0
  else if t =? 28 then rtp_h264_unpack_fu u s p len ts false
  else if t =? 29 then rtp_h264_unpack_fu u s p len ts true
  else
    do data <- rdn p 0 len ;;
    let '(r, (u, s)) := deliver u s data ts in
    Ret (if 0 =? r then 1 else r, (u, s)).

Definition rtp_h264_unpack_input (u : rtp_decode_h264_t) (s : S) (packet : list Z) (bytes : Z)
  : outcome (Z * (rtp_decode_h264_t * S)) :=
  do* (r, pkt) <- rtp_packet_deserialize zero_packet packet bytes ;;
  if negb (r =? 0) || (payloadlen pkt <? 1) then Ret (- EINVAL, (u, s))
  else
    let sq := u16 (seq (rtp pkt)) in
    let u := if flags u =? -1 then set_dseq (set_flags u 0 (size u)) (u16 (sq - 1)) else u in
    let u := if negb (sq =? u16 (dseq u + 1))
             then set_flags u RTP_PAYLOAD_FLAG_PACKET_LOST 0 else u in
    let u := set_dseq u sq in
    unpack_payload u s (payload pkt) (payloadlen pkt) (timestamp (rtp pkt)).
End Ops.
End Unpack.
