(* ===== verification/H264Props.v ===== *)
(** Properties of the H.264 packer and unpacker: what is sent, that the receiver
    rebuilds it, and memory safety on any datagram. *)

From S2P Require Import Prelude RtpUtil RtpPacket AnnexB AnnexBProps Payload PayloadSpec H264.

(** ** What the packer emits *)
Module PackSpec.
Import H264.Pack.

Definition fu_indicator (b0 : Z) : Z := Z.lor (Z.land b0 224) 28.

(** The payloads of one NAL unit for packets of [sz] bytes. *)
Definition nal_payloads (sz : Z) (mark : Z) (nal : list Z) : list (Z * list Z) :=
  let b0 := default 0 (head nal) in
  if zlen nal + RTP_FIXED_HEADER <=? sz then [(if H264_NAL b0 <=? 5 then mark else 0, nal)]
  else fragments (length nal - 1) [fu_indicator b0] (sz - RTP_FIXED_HEADER - 2) true (H264_NAL b0) mark
         (adv nal 1).

(** Only the last unit of an access unit carries the marker. *)
Fixpoint au_payloads (sz : Z) (nals : list (list Z)) : list (Z * list Z) :=
  match nals with
  | [] => []
  | nal :: nals =>
      nal_payloads sz (match nals with [] => 1 | _ => 0 end) nal ++ au_payloads sz nals
  end.

Lemma h264_type_range b : 0 <= H264_NAL b <= 31.
Proof. unfold H264_NAL. change 31 with (2 ^ 5 - 1). rewrite land_ones_mod by lia. lia. Qed.

Section Spec.
Context `{Build}.

Lemma first_header b0 : Z.lor (Z.land b0 31) FU_START = fu_header_of (H264_NAL b0) true.
Proof.
  pose proof (h264_type_range b0). unfold fu_header_of, FU_START. fold (H264_NAL b0).
  rewrite Z.lor_comm. apply (lor_add _ _ 6); lia.
Qed.

Lemma h264_pack_handler_spec pk log nal last :
  packer_ok pk -> 564 <= psize pk -> 0 < zlen nal ->
  let units := nal_payloads (psize pk) (if last =? 0 then 0 else 1) nal in
  exists pk', rtp_h264_pack_handler log_handler (pk, log) nal (zlen nal) last
              = Ret (0, (pk', log ++ emit (rtp (ppkt pk)) units)) /\ moved pk (zlen units) pk'.
Proof.
  intros Hp Hsz Hl units. unfold rtp_h264_pack_handler, units, nal_payloads.
  set (mark := if last =? 0 then 0 else 1).
  assert (Hmark : 0 <= mark < 2) by (unfold mark; destruct (last =? 0); lia).
  destruct nal as [|b0 rest]; [done|]. change (default 0 (head (b0 :: rest))) with b0.
  unfold RTP_FIXED_HEADER. destruct (Z.leb_spec (zlen (b0 :: rest) + 12) (psize pk)).
  - by apply (pack_single_spec pk log _ mark (fun b => H264_NAL b <=? 5) b0 rest).
  - unfold rtp_h264_pack_fu_a. change (rd (b0 :: rest) 0) with (Ret b0). cbn [obind]. cbv zeta.
    rewrite zlen_cons in *. unfold c_assert. zif. cbn [orb obind].
    change (adv (b0 :: rest) 1) with rest. replace (1 + zlen rest - 1) with (zlen rest) by lia.
    rewrite first_header. fold (fu_indicator b0). pose proof (h264_type_range b0).
    replace (length (b0 :: rest) - 1)%nat with (Z.to_nat (zlen rest)) by (unfold zlen; simpl; lia).
    pose proof (pack_fu_loop_spec [fu_indicator b0] 31 5 (H264_NAL b0) ltac:(lia) ltac:(lia)
      (Z.to_nat (zlen rest)) pk log true rest mark Hp Hmark) as Hs.
    cbv zeta in Hs. change (zlen [fu_indicator b0] + 1) with 2 in Hs. unfold RTP_FIXED_HEADER in Hs.
    apply Hs; try lia. unfold zlen. lia.
Qed.

Lemma h264_au_payloads_cons sz nal nals :
  au_payloads sz (nal :: nals)
  = nal_payloads sz (match nals with [] => 1 | _ => 0 end) nal ++ au_payloads sz nals.
Proof. done. Qed.

Lemma h264_feed_spec pk log nals :
  packer_ok pk -> 564 <= psize pk -> Forall nal_ok nals ->
  exists pk', feed (rtp_h264_pack_handler log_handler) nals (pk, log)
              = Ret (0, (pk', log ++ emit (rtp (ppkt pk)) (au_payloads (psize pk) nals))) /\
              moved pk (zlen (au_payloads (psize pk) nals)) pk'.
Proof.
  revert pk log. induction nals as [|nal nals IH]; intros pk log Hp Hsz Hn.
  { exists pk. split; [cbn; by rewrite app_nil_r|]. by apply moved_refl. }
  apply Forall_cons_1 in Hn as [Hok Hn]. cbn [feed]. rewrite h264_au_payloads_cons.
  set (last := match nals with [] => 1 | _ => 0 end).
  destruct (h264_pack_handler_spec pk log nal last Hp Hsz) as (pk1 & -> & Hm1).
  { destruct nal; [by apply nal_nonempty in Hok|]. rewrite zlen_cons. pose proof (zlen_nonneg nal). lia. }
  cbn [obind Z.eqb]. replace (if last =? 0 then 0 else 1) with last in * by by unfold last; destruct nals.
  destruct (IH pk1 (log ++ emit (rtp (ppkt pk)) (nal_payloads (psize pk) last nal)))
    as (pk2 & -> & Hm2); [apply Hm1|by rewrite (mv_size _ _ _ Hm1)|done|].
  rewrite (mv_size _ _ _ Hm1), (moved_emit _ _ _ _ Hm1) in *. exists pk2. split.
  - by rewrite emit_app, <- app_assoc by apply Hp.
  - rewrite zlen_app. by eapply moved_trans.
Qed.

Lemma h264_pack_handler_safe {S} (h : rtp_payload_t S) sz st nalu n last :
  alloc_sized h -> 564 <= sz -> packer_ok (fst st) /\ psize (fst st) = sz -> n = zlen nalu -> 0 < n ->
  exists r st', rtp_h264_pack_handler h st nalu n last = Ret (r, st') /\
    packer_ok (fst st') /\ psize (fst st') = sz.
Proof.
  intros Hh Hsz [Hp Hps] -> Hn. destruct st as [pk s]. cbn [fst] in *.
  unfold rtp_h264_pack_handler. set (mark := if last =? 0 then 0 else 1).
  assert (Hmark : 0 <= mark < 2) by (unfold mark; destruct (last =? 0); lia).
  unfold RTP_FIXED_HEADER. destruct (Z.leb_spec (zlen nalu + 12) (psize pk)).
  - destruct (pack_single_safe h Hh pk s nalu mark (fun b => H264_NAL b <=? 5) Hp Hmark Hn)
      as ([r st'] & E & [? ?]). unfold rtp_h264_pack_nalu. rewrite E.
    eexists _, _. split; [done|]. split; [done|]. cbn in *. congruence.
  - unfold rtp_h264_pack_fu_a. destruct nalu as [|b0 rest]; [done|].
    change (rd (b0 :: rest) 0) with (Ret b0). cbn [obind]. cbv zeta. rewrite zlen_cons in *.
    unfold c_assert. zif. cbn [orb obind]. change (adv (b0 :: rest) 1) with rest.
    replace (1 + zlen rest - 1) with (zlen rest) by lia. rewrite first_header.
    pose proof (h264_type_range b0).
    destruct (pack_fu_loop_safe [Z.lor (Z.land b0 224) 28] 31 5 (H264_NAL b0) ltac:(lia) ltac:(lia) h Hh
                (Z.to_nat (zlen rest)) pk s true rest mark 0 Hp Hmark) as ([r st'] & -> & [? ?]).
    + unfold RTP_FIXED_HEADER. change (zlen [_]) with 1. lia.
    + intros _. unfold RTP_FIXED_HEADER. change (zlen [_]) with 1. lia.
    + unfold zlen. lia.
    + eexists _, _. split; [done|]. split; [done|]. cbn in *. congruence.
Qed.
End Spec.
End PackSpec.

(** ** What the unpacker rebuilds *)
Module UnpackSpec.
Import H264.Unpack.

(** The unpacker expects number [sq] and has reassembled [acc]. *)
Record ready (u : rtp_decode_h264_t) (sq : Z) (acc : list Z) : Prop := {
  rdy_cap : zlen (ptr u) = capacity u;
  rdy_sync : flags u = -1 /\ acc = [] \/ flags u = 0 /\ u16 (dseq u + 1) = u16 sq;
  rdy_buf : exists rest, ptr u = acc ++ rest;
  rdy_size : size u = zlen acc
}.

Lemma h264_create_ready sq : ready rtp_h264_unpack_create sq [].
Proof. constructor; try done; [by left|by exists []]. Qed.

(** A unit as the client gets it: the start code, then the bytes. *)
Definition delivered (nal : list Z) (ts : Z) : list delivery := [(start_code, ts, 0); (nal, ts, 0)].

(** The packets of [ds] one after the other, up to one that is not handled. *)
Fixpoint recv `{Alloc} `{Build} {S} (h : rtp_payload_t S) (u : rtp_decode_h264_t) (s : S)
    (ds : list delivery) : outcome (Z * (rtp_decode_h264_t * S)) :=
  match ds with
  | [] => Ret (1, (u, s))
  | (bytes, _, _) :: ds =>
      do* (r, st) <- rtp_h264_unpack_input h u s bytes (zlen bytes) ;;
      if r =? 1 then recv h (fst st) (snd st) ds else Ret (r, st)
  end.

Section Spec.
Context `{Alloc} `{Build}.
Hypothesis grants : forall n, alloc_ok n = true.

(** State after the sequence check of an expected packet. *)
Record synced (u : rtp_decode_h264_t) (sq : Z) (acc : list Z) : Prop := {
  syn_cap : zlen (ptr u) = capacity u;
  syn_flags : flags u = 0;
  syn_seq : dseq u = u16 sq;
  syn_buf : exists rest, ptr u = acc ++ rest;
  syn_size : size u = zlen acc
}.

Lemma h264_synced_ready u sq acc : synced u sq acc -> ready u (sq + 1) acc.
Proof.
  intros []. constructor; try done. right. split; [done|]. rewrite syn_seq0. unfold u16. lia.
Qed.

Lemma h264_input_ready u s sq acc hd m pl :
  ready u sq acc -> plain hd -> u16 (seq hd) = u16 sq -> 0 <= m < 2 -> 1 <= zlen pl ->
  exists u1, synced u1 sq acc /\
    rtp_h264_unpack_input log_handler u s (packet_bytes (video_packet hd m pl))
      (zlen (packet_bytes (video_packet hd m pl)))
    = unpack_payload log_handler u1 s pl (zlen pl) (timestamp hd).
Proof.
  intros [] Hh Hs Hm Hl. unfold rtp_h264_unpack_input.
  destruct (deserialize_video zero_packet hd m pl Hh Hm) as (pkt & -> & Er & Ep & El). cbn [obind].
  rewrite El, Er, Ep. zif. change (0 =? 0) with true. cbn [negb orb with_m seq timestamp]. rewrite Hs.
  eexists. split; [|done].
  destruct rdy_sync0 as [[Ef Ea]|[Ef Eq]].
  - rewrite Ef. cbn [Z.eqb Pos.eqb]. cbn [set_dseq dseq].
    replace (u16 (u16 (u16 sq - 1) + 1)) with (u16 sq) by (unfold u16; lia).
    rewrite Z.eqb_refl. by constructor.
  - rewrite Ef. cbn [Z.eqb]. rewrite Eq, Z.eqb_refl. by constructor.
Qed.

Lemma h264_unpack_single u s sq acc pl ts b0 rest :
  synced u sq acc -> pl = b0 :: rest -> 1 <= H264_NAL b0 <= 23 ->
  exists u', unpack_payload log_handler u s pl (zlen pl) ts = Ret (1, (u', s ++ delivered pl ts)) /\
    ready u' (sq + 1) [].
Proof.
  intros [] -> Ht. unfold unpack_payload. change (rd (b0 :: rest) 0) with (Ret b0). cbn [obind].
  cbv zeta. do 8 zif. cbn [orb].
  pose proof (rdn_all (b0 :: rest) (zlen (b0 :: rest)) [] eq_refl) as Er.
  rewrite app_nil_r in Er. rewrite Er. cbn [obind]. unfold deliver. cbn. rewrite syn_flags0.
  eexists. split; [by rewrite <- app_assoc|]. constructor; try done; [|by eexists].
  right. split; [done|]. cbn. rewrite syn_seq0. unfold u16. lia.
Qed.

Lemma h264_grow_spec u sq acc bytes n :
  synced u sq acc -> 2 <= n <= bytes ->
  exists u1, fu_grow u bytes n = (true, u1) /\ synced u1 sq acc /\ size u + bytes - n + 1 <= capacity u1.
Proof.
  intros Hu Hn. pose proof (syn_size _ _ _ Hu). pose proof (syn_cap _ _ _ Hu).
  pose proof (zlen_nonneg acc). unfold fu_grow.
  destruct (Z.ltb_spec (capacity u) (size u + bytes - n + 1)); [|by exists u].
  rewrite grants. eexists. split; [done|].
  set (sz := size u + bytes + 1 + _).
  assert (size u + bytes + 1 + 128000 <= sz)
    by (unfold sz; destruct (Z.ltb_spec 128000 ((size u + bytes + 1) / 4)); lia).
  clearbody sz. destruct Hu as [? ? ? [rest Er] ?]. split; [|cbn; lia].
  constructor; try done; cbn.
  - rewrite zlen_app, zlen_replicate. lia.
  - exists (rest ++ replicate (Z.to_nat (sz - capacity u)) heap_byte). by rewrite Er, app_assoc.
Qed.

Lemma h264_append_spec u s sq acc c0 fh chunk ts :
  synced u sq acc -> zlen acc + zlen chunk <= capacity u ->
  let pl := [c0; fh] ++ chunk in
  let fin := negb (Z.land fh FU_END =? 0) in
  exists u', fu_append log_handler u s pl (zlen pl) 2 ts fh
             = Ret (1, (u', if fin then s ++ delivered (acc ++ chunk) ts else s)) /\
    ready u' (sq + 1) (if fin then [] else acc ++ chunk).
Proof.
  intros Hu Hcap pl fin. unfold fu_append. cbv zeta.
  assert (Hpl : zlen pl = 2 + zlen chunk) by (unfold pl; by rewrite zlen_app).
  assert (exists u1,
    (if 2 <? zlen pl then
       do src <- rdn pl 2 (zlen pl - 2) ;;
       do buf <- wrn (ptr (set_dts u ts)) (size (set_dts u ts)) src ;;
       Ret (set_buf (set_dts u ts) buf (size (set_dts u ts) + (zlen pl - 2)) (capacity (set_dts u ts)))
     else Ret (set_dts u ts)) = Ret u1 /\ synced u1 sq (acc ++ chunk)) as (u1 & -> & Hu1).
  { destruct Hu as [Hc ? ? [rest Er] Hs]. rewrite Hpl.
    destruct (Z.ltb_spec 2 (2 + zlen chunk)).
    - cbn [set_dts size capacity ptr]. rewrite Hs.
      pose proof (rdn_app [c0; fh] chunk [] 2 (zlen chunk) eq_refl eq_refl) as Erd.
      rewrite app_nil_r in Erd. fold pl in Erd.
      replace (2 + zlen chunk - 2) with (zlen chunk) by lia. rewrite Erd. cbn [obind].
      rewrite Er in Hc |- *. rewrite zlen_app in Hc. rewrite wrn_app by (done || lia). cbn [obind].
      eexists. split; [done|]. constructor; try done; cbn.
      + rewrite !zlen_app, zlen_adv. lia.
      + by eexists.
      + by rewrite zlen_app.
    - assert (chunk = []) as -> by (destruct chunk; [done|]; rewrite zlen_cons in *; pose proof (zlen_nonneg chunk); lia).
      eexists. split; [done|]. constructor; try done; cbn; rewrite app_nil_r; [by eexists|done]. }
  cbn [obind]. fold fin. destruct fin; [|eexists; split; [done|by apply h264_synced_ready]].
  destruct Hu1 as [? Hf Hq [rest Er] Hs]. rewrite Er, Hs, rdn_all by done. cbn [obind].
  unfold deliver. cbn. rewrite Hf. eexists. split; [by rewrite <- app_assoc|].
  constructor; try done; [|by eexists]. right. split; [done|]. cbn. rewrite Hq. unfold u16. lia.
Qed.

(** One fragment of the unit [b0 :: ...]. *)
Lemma h264_unpack_fragment u s sq acc b0 fh chunk ts first last :
  synced u sq acc -> is_byte b0 ->
  fh = (if first : bool then 128 else 0) + (if last : bool then 64 else 0) + H264_NAL b0 ->
  (first = false -> acc <> []) -> zlen acc + zlen chunk <= RTP_PAYLOAD_MAX_SIZE ->
  let pl := [PackSpec.fu_indicator b0; fh] ++ chunk in
  let acc1 := (if first then [b0] else acc) ++ chunk in
  exists u', unpack_payload log_handler u s pl (zlen pl) ts
             = Ret (1, (u', if last then s ++ delivered acc1 ts else s)) /\
    ready u' (sq + 1) (if last then [] else acc1).
Proof.
  intros Hu Hb Hfh Hacc Hmax pl acc1.
  assert (Hbits : let c := PackSpec.fu_indicator b0 in
     (H264_NAL c =? 28) && (Z.lor (Z.land c 224) (Z.land fh 31) =? b0)
     && eqb (negb (Z.land fh FU_START =? 0)) first && eqb (negb (Z.land fh FU_END =? 0)) last = true).
  { subst fh. clear -Hb. revert b0 Hb. destruct first, last; apply byte_cases; by vm_compute. }
  cbv zeta in Hbits. cbool. destruct Hbits as (((H28 & Ht0) & Hst) & Hen).
  apply eqb_prop in Hst. apply eqb_prop in Hen.
  unfold unpack_payload. change (rd pl 0) with (Ret (PackSpec.fu_indicator b0)). cbn [obind].
  cbv zeta. rewrite H28. cbn [Z.ltb Z.compare Pos.compare Pos.compare_cont Z.eqb Pos.eqb orb].
  assert (Hpl : zlen pl = 2 + zlen chunk) by (unfold pl; by rewrite zlen_app).
  pose proof (zlen_nonneg chunk). pose proof (zlen_nonneg acc).
  unfold rtp_h264_unpack_fu. rewrite (syn_size _ _ _ Hu). cbv zeta iota. do 2 zif.
  destruct (h264_grow_spec u sq acc (zlen pl) 2 Hu ltac:(lia)) as (u1 & -> & Hu1 & Hcap).
  rewrite (syn_size _ _ _ Hu) in Hcap. cbn [negb].
  change (rd pl 1) with (Ret fh). cbn [obind]. rewrite Hst. destruct first.
  - change (rd pl 0) with (Ret (PackSpec.fu_indicator b0)). cbn [obind].
    rewrite Ht0. destruct Hu1 as [Hc ? ? [rest Er] Hs].
    rewrite Er in *. rewrite (wrn_app [] (acc ++ rest)) by (done || (change (zlen [b0]) with 1; lia)).
    cbn [obind app]. set (u2 := set_buf _ _ _ _).
    pose proof (h264_append_spec u2 s sq [b0] (PackSpec.fu_indicator b0) fh chunk ts) as Ha.
    cbv zeta in Ha. rewrite Hen in Ha. apply Ha; [|cbn; change (zlen [b0]) with 1; lia].
    constructor; try done; cbn.
    + change (zlen [b0]) with 1. rewrite !zlen_cons, zlen_adv. lia.
    + by eexists.
  - rewrite (syn_size _ _ _ Hu1). specialize (Hacc eq_refl).
    assert (0 < zlen acc) by (destruct acc; [done|]; rewrite zlen_cons; pose proof (zlen_nonneg acc); lia).
    zif. pose proof (h264_append_spec u1 s sq acc (PackSpec.fu_indicator b0) fh chunk ts Hu1) as Ha.
    cbv zeta in Ha. rewrite Hen in Ha. apply Ha. lia.
Qed.

Lemma h264_recv_app u s ds1 ds2 u1 s1 :
  recv log_handler u s ds1 = Ret (1, (u1, s1)) ->
  recv log_handler u s (ds1 ++ ds2) = recv log_handler u1 s1 ds2.
Proof.
  revert u s. induction ds1 as [|[[bytes ?] ?] ds1 IH]; intros u s; cbn [recv app].
  { by intros [= <- <-]. }
  destruct (rtp_h264_unpack_input log_handler u s bytes (zlen bytes)) as [[r [u2 s2]]|c]; [|done].
  cbn [obind fst snd]. destruct (Z.eqb_spec r 1); [apply IH|by intros [= -> -> ->]].
Qed.

Lemma h264_recv_step u s sq acc hd m pl units s1 s2 acc1 :
  ready u sq acc -> plain hd -> u16 (seq hd) = u16 sq -> 0 <= m < 2 -> 1 <= zlen pl ->
  (forall u2, synced u2 sq acc -> exists u1,
     unpack_payload log_handler u2 s pl (zlen pl) (timestamp hd) = Ret (1, (u1, s1)) /\
     ready u1 (sq + 1) acc1) ->
  (forall u2, ready u2 (sq + 1) acc1 ->
     exists u3, recv log_handler u2 s1 (emit (advance hd 1) units) = Ret (1, (u3, s2)) /\
       ready u3 (sq + 1 + zlen units) []) ->
  exists u3, recv log_handler u s (emit hd ((m, pl) :: units)) = Ret (1, (u3, s2)) /\
    ready u3 (sq + zlen ((m, pl) :: units)) [].
Proof.
  intros Hu Hh Hs Hm Hl Hone Hrest. cbn [emit recv].
  destruct (h264_input_ready u s sq acc hd m pl Hu Hh Hs Hm Hl) as (u2 & Hu2 & ->).
  destruct (Hone u2 Hu2) as (u3 & -> & Hu3). cbn [obind fst snd]. change (1 =? 1) with true.
  destruct (Hrest u3 Hu3) as (u4 & -> & Hu4). exists u4. split; [done|].
  rewrite zlen_cons. by rewrite Z.add_assoc.
Qed.

Lemma h264_recv_fragments fuel u s sq acc hd c first mark b0 data :
  ready u sq acc -> plain hd -> u16 (seq hd) = u16 sq -> 0 <= mark < 2 -> is_byte b0 ->
  0 < c -> 0 < zlen data -> (length data <= fuel)%nat ->
  (first = false -> acc <> []) ->
  (if first then 1 else 0) + zlen acc + zlen data <= RTP_PAYLOAD_MAX_SIZE ->
  let units := fragments fuel [PackSpec.fu_indicator b0] c first (H264_NAL b0) mark data in
  exists u', recv log_handler u s (emit hd units)
    = Ret (1, (u', s ++ delivered ((if first then [b0] else acc) ++ data) (timestamp hd))) /\
    ready u' (sq + zlen units) [].
Proof.
  revert u sq acc hd first data.
  induction fuel as [|fuel IH]; intros u sq acc hd first data Hu Hh Hs Hmark Hb Hc Hd Hf Hacc Hmax.
  { unfold zlen in Hd. lia. }
  pose proof (zlen_nonneg acc). cbv zeta in *. cbn [fragments].
  destruct (Z.leb_spec (zlen data) c).
  - eapply (h264_recv_step _ _ _ _ _ _ _ _ _ _ []); try done.
    + rewrite !zlen_app. change (zlen [_]) with 1. lia.
    + intros u2 Hu2. apply (h264_unpack_fragment u2 s sq acc b0 _ data _ first true Hu2); try done; destruct first; lia.
    + intros u2 Hu2. exists u2. split; [done|]. by rewrite Z.add_0_r.
  - set (chunk := take (Z.to_nat c) data).
    assert (Hch : zlen chunk = c) by (unfold chunk; rewrite zlen_take; lia).
    assert (Had : zlen (adv data c) = zlen data - c) by (rewrite zlen_adv; lia).
    assert (Hsplit : chunk ++ adv data c = data) by apply take_drop.
    assert (Hne : chunk <> []) by (intros E; rewrite E in Hch; change (zlen []) with 0 in Hch; lia).
    eapply (h264_recv_step _ _ _ _ _ _ _ _ s); try done.
    + rewrite !zlen_app. change (zlen [_]) with 1. lia.
    + intros u2 Hu2. eapply (h264_unpack_fragment u2 s sq acc b0 _ chunk _ first false Hu2); try done; destruct first; lia.
    + intros u2 Hu2.
      destruct (IH u2 (sq + 1) ((if first then [b0] else acc) ++ chunk) (advance hd 1) false (adv data c) Hu2)
        as (u3 & E3 & Hu3); try done.
      * by apply advance_plain.
      * cbn. revert Hs. unfold u16. lia.
      * lia.
      * unfold zlen in Had. lia.
      * intros _ E. apply app_eq_nil in E as [_ E]. done.
      * rewrite zlen_app. destruct first; [change (zlen [b0]) with 1|]; lia.
      * exists u3. split; [|done]. rewrite E3. do 4 f_equal. rewrite <- !app_assoc, Hsplit. done.
Qed.

(** What the unpacker can rebuild: types 1 to 23. *)
Definition unit_fits (nal : list Z) : Prop :=
  zlen nal <= RTP_PAYLOAD_MAX_SIZE /\ 1 <= H264_NAL (default 0 (head nal)) <= 23.

Lemma h264_recv_nal u s sq hd sz mark nal :
  ready u sq [] -> plain hd -> u16 (seq hd) = u16 sq -> 0 <= mark < 2 -> 564 <= sz ->
  nal_ok nal -> unit_fits nal ->
  let units := PackSpec.nal_payloads sz mark nal in
  exists u', recv log_handler u s (emit hd units)
    = Ret (1, (u', s ++ delivered nal (timestamp hd))) /\ ready u' (sq + zlen units) [].
Proof.
  intros Hu Hh Hs Hmark Hsz Hn [Hl Ht] units. unfold units, PackSpec.nal_payloads. clear units.
  destruct nal as [|b0 rest]; [by apply nal_nonempty in Hn|].
  change (default 0 (head (b0 :: rest))) with b0 in *.
  pose proof (Forall_cons_1 _ _ _ (nal_bytes _ Hn)) as [Hb0 _]. cbv zeta. unfold RTP_FIXED_HEADER.
  pose proof (zlen_nonneg rest). rewrite zlen_cons in *.
  destruct (Z.leb_spec (1 + zlen rest + 12) sz).
  - eapply (h264_recv_step _ _ _ _ _ _ _ _ _ _ []); try done; [destruct (_ <=? 5); lia|rewrite zlen_cons; lia| |].
    + intros u2 Hu2. by eapply h264_unpack_single.
    + intros u2 Hu2. exists u2. split; [done|]. by rewrite Z.add_0_r.
  - change (adv (b0 :: rest) 1) with rest.
    replace (length (b0 :: rest) - 1)%nat with (length rest) by (simpl; lia).
    apply (h264_recv_fragments (length rest) u s sq [] hd (sz - 12 - 2) true mark b0 rest); try done; try lia.
Qed.

Lemma h264_recv_au nals u s sq hd sz :
  ready u sq [] -> plain hd -> u16 (seq hd) = u16 sq -> 564 <= sz ->
  Forall nal_ok nals -> Forall unit_fits nals ->
  let units := PackSpec.au_payloads sz nals in
  exists u', recv log_handler u s (emit hd units)
    = Ret (1, (u', s ++ flat_map (fun nal => delivered nal (timestamp hd)) nals)) /\
    ready u' (sq + zlen units) [].
Proof.
  revert u s sq hd. induction nals as [|nal nals IH]; intros u s sq hd Hu Hh Hs Hsz Hn Hfit.
  { exists u. cbn. rewrite app_nil_r, Z.add_0_r. done. }
  apply Forall_cons_1 in Hn as [Hok Hn]. apply Forall_cons_1 in Hfit as [Hf Hfit].
  rewrite PackSpec.h264_au_payloads_cons. cbv zeta.
  set (mark := match nals with [] => 1 | _ => 0 end).
  assert (Hmark : 0 <= mark < 2) by (unfold mark; destruct nals; lia).
  destruct (h264_recv_nal u s sq hd sz mark nal Hu Hh Hs Hmark Hsz Hok Hf) as (u1 & E1 & Hu1).
  set (us := PackSpec.nal_payloads sz mark nal) in *.
  destruct (IH u1 (s ++ delivered nal (timestamp hd)) (sq + zlen us) (advance hd (zlen us)) Hu1)
    as (u2 & E2 & Hu2); try done.
  { by apply advance_plain. }
  { cbn. revert Hs. unfold u16. lia. }
  exists u2. rewrite emit_app by apply (ok_seq _ (pl_header _ Hh)). rewrite (h264_recv_app _ _ _ _ _ _ E1), E2.
  split; [|by rewrite zlen_app, Z.add_assoc]. cbn [flat_map]. by rewrite <- app_assoc.
Qed.
End Spec.
End UnpackSpec.

(** ** Memory safety of the unpacker *)
Module UnpackSafe.
Import H264.Unpack.

Record decode_ok (u : rtp_decode_h264_t) : Prop := {
  dok_cap : zlen (ptr u) = capacity u;
  dok_size : 0 <= size u <= capacity u
}.

Lemma h264_create_ok : decode_ok rtp_h264_unpack_create.
Proof. by constructor. Qed.

Section Safe.
Context `{Alloc} `{Build} {S : Type} (h : rtp_payload_t S).

Definition kept (res : Z * (rtp_decode_h264_t * S)) : Prop := decode_ok (fst (snd res)).

Lemma h264_deliver_ok u s data ts r u' s' :
  decode_ok u -> deliver h u s data ts = (r, (u', s')) -> decode_ok u'.
Proof.
  unfold deliver. intros []. destruct (h_packet h s start_code ts (flags u)) as [r1 s1].
  destruct (if r1 =? 0 then _ else _) as [r2 s2]. intros [= <- <- <-]. constructor; cbn; [done|lia].
Qed.

Lemma stap_safe fuel u s p bytes ts r :
  decode_ok u -> bytes_ok p -> bytes <= zlen p -> bytes <= Z.of_nat fuel ->
  post (stap_loop h fuel u s p bytes ts r) kept.
Proof.
  revert u s p bytes r. induction fuel as [|fuel IH]; intros u s p bytes r Hu Hp Hl Hf; cbn [stap_loop];
    cbv zeta; (ostep; [|by ostep]); cbool; [lia|].
  ostep. apply post_r16; [lia|done|]. intros len Hlen. ostep; [by ostep|]. cbool.
  ostep. apply post_rdn; [lia|lia|lia|]. destruct (deliver h u s _ ts) as [r' [u' s']] eqn:E.
  apply IH; [by eapply h264_deliver_ok|auto with zlist|rewrite zlen_adv; lia|lia].
Qed.

Lemma mtap_safe fuel u s p bytes n ts r :
  decode_ok u -> bytes_ok p -> bytes <= zlen p -> 2 <= n <= 3 -> bytes <= Z.of_nat fuel ->
  post (mtap_loop h fuel u s p bytes n ts r) kept.
Proof.
  revert u s p bytes r. induction fuel as [|fuel IH]; intros u s p bytes r Hu Hp Hl Hn Hf; cbn [mtap_loop];
    cbv zeta; (ostep; [|by ostep]); cbool; [lia|].
  ostep. apply post_r16; [lia|done|]. intros len Hlen. do 2 (ostep; [by ostep|]). cbool.
  ostep. apply post_rdn; [lia|lia|lia|]. destruct (deliver h u s _ ts) as [r' [u' s']] eqn:E.
  apply IH; [by eapply h264_deliver_ok|auto with zlist|rewrite zlen_adv; lia|lia|lia].
Qed.

Lemma h264_grow_safe u bytes n :
  decode_ok u -> 0 <= n <= bytes ->
  let '(ok, u') := fu_grow u bytes n in
  decode_ok u' /\ (ok = true -> size u' = size u /\ size u + bytes - n + 1 <= capacity u').
Proof.
  intros Hu Hn. unfold fu_grow. destruct (Z.ltb_spec (capacity u) (size u + bytes - n + 1)); [|done].
  set (sz := size u + bytes + 1 + _).
  assert (size u + bytes + 1 + 128000 <= sz)
    by (unfold sz; destruct (Z.ltb_spec 128000 ((size u + bytes + 1) / 4)); lia).
  clearbody sz. destruct Hu. destruct (alloc_ok sz); split; try done; try (constructor; cbn; [|lia]).
  - rewrite zlen_app, zlen_replicate. lia.
  - cbn. lia.
  - done.
Qed.

Lemma h264_append_safe u s p bytes n ts fh :
  decode_ok u -> 0 <= n <= bytes -> bytes <= zlen p -> size u + bytes - n <= capacity u ->
  post (fu_append h u s p bytes n ts fh) kept.
Proof.
  intros [Hc Hs] Hn Hl Hroom. unfold fu_append. cbv zeta. ostep.
  apply (post_mono _ decode_ok).
  - ostep; [|ostep; by constructor]. ostep. apply post_rdn; [lia|lia|lia|].
    ostep. apply post_wrn_len; cbn [set_dts ptr size]; [lia|rewrite zlen_take, zlen_drop; lia|].
    intros buf Hbuf. ostep. constructor; cbn; lia.
  - intros u1 [Hc1 Hs1]. ostep; [|by ostep]. ostep. apply post_rdn; [lia|lia|lia|].
    destruct (deliver h u1 s _ ts) as [r' [u' s']] eqn:E.
    ostep. by eapply h264_deliver_ok.
Qed.

Lemma h264_fu_safe u s p bytes ts fu_b :
  decode_ok u -> bytes_ok p -> bytes <= zlen p ->
  post (rtp_h264_unpack_fu h u s p bytes ts fu_b) kept.
Proof.
  intros Hu Hp Hl. unfold rtp_h264_unpack_fu. cbv zeta. set (n := if fu_b then 4 else 2).
  assert (Hn : 2 <= n) by (unfold n; destruct fu_b; lia).
  ostep; [by ostep|]. ostep; [by ostep|]. cbool.
  pose proof (h264_grow_safe u bytes n Hu ltac:(lia)) as Hg.
  destruct (fu_grow u bytes n) as [ok u1]. destruct Hg as [Hu1 Hok].
  ostep; [by ostep|]. destruct ok; [|done]. destruct (Hok eq_refl) as [Hs1 Hroom].
  pose proof (dok_size _ Hu). pose proof (dok_cap _ Hu1).
  ostep. apply post_rd; [lia|]. intros fh _. ostep.
  - ostep. apply post_rd; [lia|]. intros b0 _.
    ostep. apply post_wrn_len; [lia|change (zlen [_]) with 1; lia|]. intros buf Hbuf.
    apply h264_append_safe; cbn; [|lia|lia|lia]. constructor; cbn; lia.
  - ostep; [ostep; destruct Hu1; by constructor|]. apply h264_append_safe; [done|lia|lia|lia].
Qed.

Lemma h264_unpack_payload_safe u s p len ts :
  decode_ok u -> bytes_ok p -> 1 <= len <= zlen p -> post (unpack_payload h u s p len ts) kept.
Proof.
  intros Hu Hp Hl. unfold unpack_payload. ostep. apply post_rd; [lia|]. intros b0 _. cbv zeta.
  ostep; [by ostep|]. ostep.
  { set (n := if H264_NAL b0 =? 25 then 3 else 1). assert (1 <= n <= 3) by (unfold n; destruct (_ =? 25); lia).
    apply stap_safe; [done|auto with zlist|rewrite zlen_adv; lia|lia]. }
  ostep.
  { set (n := if H264_NAL b0 =? 27 then 3 else 2). assert (2 <= n <= 3) by (unfold n; destruct (_ =? 27); lia).
    apply mtap_safe; [done|auto with zlist|rewrite zlen_adv; lia|done|lia]. }
  do 2 (ostep; [apply h264_fu_safe; [done|done|lia]|]).
  ostep. apply post_rdn; [lia|lia|lia|].
  destruct (deliver h u s _ ts) as [r' [u' s']] eqn:E. ostep. by eapply h264_deliver_ok.
Qed.

Lemma h264_unpack_input_safe u s packet bytes :
  decode_ok u -> bytes_ok packet -> bytes <= zlen packet ->
  post (rtp_h264_unpack_input h u s packet bytes) kept.
Proof.
  intros Hu Hb Hl. unfold rtp_h264_unpack_input. ostep.
  eapply post_mono; [by apply deserialize_post|]. intros [r pkt] Hr.
  ostep; [by ostep|]. cbool. destruct H1 as [Hr0 Hlen].
  destruct Hr as [->|[_ Hok]]; [done|].
  cbv zeta. destruct Hok as [_ _ [off [Ep Hoff]] _ Hroom _].
  apply h264_unpack_payload_safe.
  - destruct Hu. constructor; destruct (flags u =? -1), (negb _); cbn; lia.
  - rewrite Ep. auto with zlist.
  - lia.
Qed.
End Safe.
End UnpackSafe.

(** ** The properties *)
Section Properties.
Import H264.Pack H264.Unpack PackSpec UnpackSpec UnpackSafe.


(** C0. Memory safety of the unpacker: any datagram, in any state, with any
    allocator and client, is unpacked without an access outside the datagram
    or the reassembly buffer, and every loop ends. *)
Theorem rtp_h264_unpack_safe `{Alloc} `{Build} {S} (h : rtp_payload_t S) u s packet bytes :
  decode_ok u -> bytes_ok packet -> bytes <= zlen packet ->
  post (rtp_h264_unpack_input h u s packet bytes) (fun '(_, (u', _)) => decode_ok u').
Proof.
  intros. eapply post_mono; [by apply h264_unpack_input_safe|]. by intros [r [u' s']].
Qed.

(** C0. Safety of the packer: any buffer whose format detection returns, any
    client whose allocator gives what it is asked for and whose callback may
    fail: nothing outside the buffers is touched, the fragmentation loop ends,
    and the packer stays usable. *)
Theorem rtp_h264_pack_safe `{Build} {S} (h : rtp_payload_t S) pk s h264 bytes ts fmt :
  alloc_sized h -> packer_ok pk -> 564 <= psize pk -> is_u32 ts ->
  bytes_ok h264 -> 0 <= bytes <= zlen h264 -> bytes < 2 ^ 31 ->
  h264_bitstream_format h264 bytes = Ret fmt ->
  post (rtp_h264_pack_input h pk s h264 bytes ts)
    (fun '(_, (pk', _)) => packer_ok pk' /\ psize pk' = psize pk).
Proof.
  intros Hh Hp Hsz Hts Hb Hl Hb31 Ef. unfold rtp_h264_pack_input.
  eapply post_mono; [eapply (annexb_nalu_safe _ (fun st => packer_ok (fst st) /\ psize (fst st) = psize pk))|].
  - intros st nalu n last Hst Hnb Hn Hpos.
    destruct (h264_pack_handler_safe h (psize pk) st nalu n last Hh Hsz Hst Hn Hpos) as (r & st' & -> & ?).
    done.
  - split; [by apply set_ts_ok|done].
  - done.
  - done.
  - done.
  - exact Ef.
  - by intros [r [pk' s']].
Qed.

(** C0. An aggregation packet whose client refuses a unit goes on: the loop has
    no [0 == r] test, so the next unit is still handed over, and a refusal that
    is not the last one is not reported. *)
Theorem rtp_h264_stap_ignores_refusal `{Alloc} `{Build} u ts :
  let refuse_first := mk_payload (fun (s : list (list Z)) _ => (None, s)) (fun s => s)
      (fun s data _ _ => (match s with [] => 1 | _ => 0 end, s ++ [data])) in
  exists u', unpack_payload refuse_first u [] [24; 0; 2; 65; 9; 0; 2; 65; 8] 9 ts
    = Ret (1, (u', [start_code; start_code; [65; 8]])).
Proof. by eexists. Qed.
End Properties.

Definition sample_packer264 : rtp_packer := pack_create s_max_packet_size 96 65534 305419896.

Lemma sample_packer264_ok : packer_ok sample_packer264.
Proof. by apply pack_create_ok; unfold is_u16, is_u32; lia. Qed.

(** A slice of 3000 bytes. *)
Definition slice264 : list Z := 101 :: replicate 2999 5.

Lemma slice264_ok : nal_ok slice264.
Proof.
  split.
  - constructor; [unfold is_byte; lia|]. apply Forall_replicate. unfold is_byte. lia.
  - exists 5. split; [|done]. unfold slice264. change 2999%nat with (S 2998). rewrite replicate_S_end.
    by rewrite app_comm_cons, last_snoc.
  - intros i Hi. exfalso. unfold slice264 in Hi. destruct i as [|i]; [simpl in Hi; congruence|].
    change ((101 :: replicate 2999 5) !! S i) with (replicate 2999 5 !! i) in Hi.
    apply lookup_replicate in Hi as [? _]. done.
Qed.


Lemma rtp_h264_unpack_safe_witness :
  @post release_build _
    (@H264.Unpack.rtp_h264_unpack_input never_alloc release_build _ log_handler
       H264.Unpack.rtp_h264_unpack_create [] (replicate 40 129) 40)
    (fun '(_, (u', _)) => UnpackSafe.decode_ok u').
Proof.
  apply (@rtp_h264_unpack_safe never_alloc release_build); [apply UnpackSafe.h264_create_ok| |done].
  apply Forall_replicate. unfold is_byte. lia.
Defined.

Lemma rtp_h264_pack_safe_witness :
  @post default_build _
    (@H264.Pack.rtp_h264_pack_input default_build _ log_handler sample_packer264 [] (replicate 40 0) 40 7)
    (fun '(_, (pk', _)) => packer_ok pk' /\ psize pk' = psize sample_packer264).
Proof.
  apply (@rtp_h264_pack_safe default_build _ log_handler sample_packer264 [] (replicate 40 0) 40 7 0);
    [apply log_alloc_sized|apply sample_packer264_ok|done|done| |done|done|done].
  apply Forall_replicate. unfold is_byte. lia.
Defined.
