(* ===== verification/PayloadHelper.v ===== *)
(** The frame assembler most payload formats share
    (lib/librtp/payload/rtp-payload-helper.c) and the formats that add nothing
    to the payload: the common one (rtp-pack.c, rtp-unpack.c), MPEG-2 transport
    streams (rtp-ts-pack.c, rtp-ts-unpack.c), MPEG-4 visual streams
    (rtp-mp4v-es-pack.c, rtp-mp4v-es-unpack.c). *)

From S2P Require Import Prelude RtpUtil RtpPacket Payload.

(** ** The assembler *)
(** [buf] is [ptr], of [hcapacity] bytes. *)
Record rtp_payload_helper_t := mk_helper {
  hlost : Z;
  hseq : Z;
  hts : Z;
  hbuf : list Z;
  hsize : Z;
  hcapacity : Z;
  hmaxsize : Z;
  hflags : Z
}.

Definition rtp_payload_helper_create : rtp_payload_helper_t :=
  mk_helper 0 0 0 [] 0 0 RTP_PAYLOAD_MAX_SIZE (-1).

Definition set_lost (u : rtp_payload_helper_t) (n : Z) : rtp_payload_helper_t :=
  mk_helper n (hseq u) (hts u) (hbuf u) (hsize u) (hcapacity u) (hmaxsize u) (hflags u).
Definition set_hseq (u : rtp_payload_helper_t) (sq : Z) : rtp_payload_helper_t :=
  mk_helper (hlost u) sq (hts u) (hbuf u) (hsize u) (hcapacity u) (hmaxsize u) (hflags u).
Definition set_hts (u : rtp_payload_helper_t) (ts : Z) : rtp_payload_helper_t :=
  mk_helper (hlost u) (hseq u) ts (hbuf u) (hsize u) (hcapacity u) (hmaxsize u) (hflags u).
Definition set_hbuf (u : rtp_payload_helper_t) (buf : list Z) (sz cap : Z) : rtp_payload_helper_t :=
  mk_helper (hlost u) (hseq u) (hts u) buf sz cap (hmaxsize u) (hflags u).
Definition set_hflags (u : rtp_payload_helper_t) (f : Z) : rtp_payload_helper_t :=
  mk_helper (hlost u) (hseq u) (hts u) (hbuf u) (hsize u) (hcapacity u) (hmaxsize u) f.

Section Helper.
Context `{Alloc} `{Build} {S : Type} (h : rtp_payload_t S).

(** A frame is over: delivered when it is not empty and nothing of it was lost.
    RTP_ENABLE_COURRUPT_PACKET is not defined in the build. *)
Definition rtp_payload_onframe (u : rtp_payload_helper_t) (s : S)
  : outcome (Z * (rtp_payload_helper_t * S)) :=
  do* (r, (u, s)) <-
    (if (0 <? hsize u) && (0 =? hlost u) then
       do frame <- rdn (hbuf u) 0 (hsize u) ;;
       let f := Z.lor (hflags u) (if hlost u =? 0 then 0 else RTP_PAYLOAD_FLAG_PACKET_CORRUPT) in
       let '(r, s) := h_packet h s frame (hts u) f in
       Ret (r, (set_hflags u (Z.ldiff (hflags u) RTP_PAYLOAD_FLAG_PACKET_LOST), s))
     else Ret (0, (u, s))) ;;
  let u := if hlost u =? 0 then u
           else set_hflags u (Z.lor (hflags u) RTP_PAYLOAD_FLAG_PACKET_LOST) in
  Ret (r, (set_hbuf (set_lost u 0) (hbuf u) 0 (hcapacity u), s)).

Definition rtp_payload_check (u : rtp_payload_helper_t) (s : S) (pkt : rtp_packet_t)
  : outcome (rtp_payload_helper_t * S) :=
  let sq := u16 (seq (rtp pkt)) in
  let ts := timestamp (rtp pkt) in
  let u := if hflags u =? -1
           then set_hts (set_hseq (set_hflags u 0) (u16 (seq (rtp pkt) - 1))) (u32 (ts + 1))
           else u in
  let lost := if sq =? u16 (hseq u + 1) then 0 else 1 in
  let u := if lost =? 0 then u else set_lost u 1 in
  let u := set_hseq u sq in
  do* (u, s) <-
    (if ts =? hts u then Ret (u, s)
     else
       do* (_, (u, s)) <- rtp_payload_onframe u s ;;
       Ret (if lost =? 0 then u else set_lost u lost, s)) ;;
  Ret (set_hts u ts, s).

Definition rtp_payload_write (u : rtp_payload_helper_t) (pkt : rtp_packet_t)
  : outcome (Z * rtp_payload_helper_t) :=
  do size <- c_int (hsize u + payloadlen pkt) ;;
  if (hmaxsize u <? size) || (size <? 0) then Ret (- EINVAL, u)
  else
    let cap := size + (if 16000 <? size / 4 then size / 4 else 16000) in
    if (hcapacity u <? size) && negb (alloc_ok cap) then Ret (- ENOMEM, set_lost u 1)
    else
      let u := if hcapacity u <? size
               then set_hbuf u (hbuf u ++ replicate (Z.to_nat (cap - hcapacity u)) heap_byte) (hsize u) cap
               else u in
      c_assert (hsize u + payloadlen pkt <=? hcapacity u) ;;;
      do src <- rdn (payload pkt) 0 (payloadlen pkt) ;;
      do buf <- wrn (hbuf u) (hsize u) src ;;
      Ret (0, set_hbuf u buf (hsize u + payloadlen pkt) (hcapacity u)).

(** ** Unpackers *)
(** Every packet is a frame. *)
Definition rtp_decode_rfc2250 (u : rtp_payload_helper_t) (s : S) (packet : list Z) (bytes : Z)
  : outcome (Z * (rtp_payload_helper_t * S)) :=
  do* (r, pkt) <- rtp_packet_deserialize zero_packet packet bytes ;;
  if negb (r =? 0) then Ret (- EINVAL, (u, s))
  else
    c_assert (0 <=? payloadlen pkt) ;;;
    do* (r, s) <-
      (if 0 <? payloadlen pkt then
         do data <- rdn (payload pkt) 0 (payloadlen pkt) ;;
         Ret (h_packet h s data (timestamp (rtp pkt)) 0)
       else Ret (0, s)) ;;
    Ret (if 0 =? r then 1 else r, (u, s)).

(** A frame ends with its timestamp; the marker says the source changed. *)
Definition rtp_decode_ts (u : rtp_payload_helper_t) (s : S) (packet : list Z) (bytes : Z)
  : outcome (Z * (rtp_payload_helper_t * S)) :=
  do* (r, pkt) <- rtp_packet_deserialize zero_packet packet bytes ;;
  if negb (r =? 0) then Ret (- EINVAL, (u, s))
  else
    do* (u, s) <- rtp_payload_check u s pkt ;;
    do* (u, s) <-
      (if negb (hm (rtp pkt) =? 0) then
         do* (_, us) <- rtp_payload_onframe (set_lost u 1) s ;; Ret us
       else Ret (u, s)) ;;
    do* (_, u) <- rtp_payload_write u pkt ;;
    Ret (if hlost u =? 0 then 1 else 0, (u, s)).

(** A frame ends with its timestamp or with the marker. *)
Definition rtp_decode_mp4v_es (u : rtp_payload_helper_t) (s : S) (packet : list Z) (bytes : Z)
  : outcome (Z * (rtp_payload_helper_t * S)) :=
  do* (r, pkt) <- rtp_packet_deserialize zero_packet packet bytes ;;
  if negb (r =? 0) then Ret (- EINVAL, (u, s))
  else
    do* (u, s) <- rtp_payload_check u s pkt ;;
    c_assert (0 <? payloadlen pkt) ;;;
    do* (r, u) <-
      (if (hlost u =? 0) && (0 <? payloadlen pkt) then rtp_payload_write u pkt else Ret (0, u)) ;;
    if negb (r =? 0) then Ret (- ENOMEM, (u, s))
    else
      do* (u, s) <-
        (if negb (hm (rtp pkt) =? 0) then do* (_, us) <- rtp_payload_onframe u s ;; Ret us
         else Ret (u, s)) ;;
      Ret (if hlost u =? 0 then 1 else 0, (u, s)).

(** ** Packers.  The loop the three share: [mark] gives the marker from the bytes
    left behind the packet. *)
Fixpoint pack_chunks (fuel : nat) (mark : Z -> Z) (pk : rtp_packer) (s : S) (ptr : list Z)
    (bytes r : Z) : outcome (Z * (rtp_packer * S)) :=
  if (0 =? r) && (0 <? bytes) then
    match fuel with
    | O => Crash Diverge
    | Datatypes.S fuel =>
        let len := if bytes + RTP_FIXED_HEADER <=? psize pk then bytes
                   else psize pk - RTP_FIXED_HEADER in
        let pk := set_data pk ptr len in
        let n := RTP_FIXED_HEADER + len in
        let '(rtp, s) := h_alloc h s n in
        match rtp with
        | None => Ret (- ENOMEM, (pk, s))
        | Some buf =>
            let pk := set_m pk (mark (bytes - len)) in
            do* (n, buf) <- rtp_packet_serialize (ppkt pk) buf n ;;
            if negb (n =? RTP_FIXED_HEADER + len) then c_assert false ;;; Ret (-1, (pk, s))
            else
              do data <- rdn buf 0 n ;;
              let '(r, s) := h_packet h s data (timestamp (RtpPacket.rtp (ppkt pk))) 0 in
              let s := h_free h s in
              pack_chunks fuel mark (next_seq pk) s (adv ptr len) (bytes - len) r
        end
    end
  else Ret (r, (pk, s)).

(** The same timestamp twice in a row is a mistake of the client. *)
Definition fresh_timestamp (pk : rtp_packer) (ts : Z) : bool :=
  negb (timestamp (rtp (ppkt pk)) =? ts) || bool_decide (payload (ppkt pk) = []).

Definition rtp_pack_input (pk : rtp_packer) (s : S) (data : list Z) (bytes ts : Z)
  : outcome (Z * (rtp_packer * S)) :=
  c_assert (fresh_timestamp pk ts) ;;;
  pack_chunks (Z.to_nat bytes) (fun _ => 0) (set_m (set_ts pk ts) 0) s data bytes 0.

Definition rtp_ts_pack_input (pk : rtp_packer) (s : S) (data : list Z) (bytes ts : Z)
  : outcome (Z * (rtp_packer * S)) :=
  pack_chunks (Z.to_nat bytes) (fun _ => 0) (set_ts pk ts) s data bytes 0.

Definition rtp_mp4v_es_encode_input (pk : rtp_packer) (s : S) (data : list Z) (bytes ts : Z)
  : outcome (Z * (rtp_packer * S)) :=
  c_assert (fresh_timestamp pk ts) ;;;
  pack_chunks (Z.to_nat bytes) (fun left => if 0 =? left then 1 else 0) (set_ts pk ts) s data bytes 0.
End Helper.

(** ** Creation *)
Definition TS_PACKET_SIZE : Z := 188.
Definition RTP_PAYLOAD_MP2T : Z := 33.

(** A transport stream payload holds whole packets of 188 bytes. *)
Definition rtp_ts_pack_create (size ptype sq src : Z) : option rtp_packer :=
  if RTP_PAYLOAD_MP2T =? u8 ptype then
    let size := Z.quot (size - RTP_FIXED_HEADER) TS_PACKET_SIZE * TS_PACKET_SIZE + RTP_FIXED_HEADER in
    if size <? 64 then None else Some (pack_create size ptype sq src)
  else Some (pack_create size ptype sq src).
