(* ===== verification/HelperProps.v ===== *)
(** The frame assembler and the formats built on it: safe on any packet, and an
    MPEG-4 visual frame survives packing and unpacking. *)

From S2P Require Import Prelude RtpUtil RtpPacket Payload PayloadSpec PayloadHelper.

(** ** Safety *)
Record helper_ok (u : rtp_payload_helper_t) : Prop := {
  hok_cap : zlen (hbuf u) = hcapacity u;
  hok_size : 0 <= hsize u <= hcapacity u;
  hok_max : hmaxsize u = RTP_PAYLOAD_MAX_SIZE;
  hok_fits : hsize u <= hmaxsize u
}.

Lemma helper_create_ok : helper_ok rtp_payload_helper_create.
Proof. by constructor. Qed.

Section Safety.
Context `{Alloc} `{Build} {S : Type} (h : rtp_payload_t S).

Lemma set_lost_ok u n : helper_ok u -> helper_ok (set_lost u n).
Proof. intros []. by constructor. Qed.
Lemma set_hseq_ok u n : helper_ok u -> helper_ok (set_hseq u n).
Proof. intros []. by constructor. Qed.
Lemma set_hts_ok u n : helper_ok u -> helper_ok (set_hts u n).
Proof. intros []. by constructor. Qed.
Lemma set_hflags_ok u n : helper_ok u -> helper_ok (set_hflags u n).
Proof. intros []. by constructor. Qed.
Hint Resolve set_lost_ok set_hseq_ok set_hts_ok set_hflags_ok : core.

Definition helper_kept {A} (res : A * (rtp_payload_helper_t * S)) : Prop := helper_ok (fst (snd res)).

Lemma onframe_safe u s : helper_ok u -> post (rtp_payload_onframe h u s) helper_kept.
Proof.
  intros Hu. unfold rtp_payload_onframe. ostep.
  eapply (post_mono _ helper_kept).
  { apply post_if; intros Hc; [|done]. ostep. apply post_rdn; [lia|apply Hu| |].
    - destruct Hu. lia.
    - destruct (h_packet h s _ _ _) as [r s']. cbv zeta. ostep. unfold helper_kept. simpl. auto. }
  intros [r [u' s']] Hu'. unfold helper_kept in *. simpl in *.
  set (u2 := if hlost u' =? 0 then u' else _).
  assert (Hk : helper_ok u2) by (unfold u2; case_match; auto). clearbody u2.
  destruct Hk. constructor; simpl in *; try done; lia.
Qed.

Lemma check_safe u s pkt :
  helper_ok u -> post (rtp_payload_check h u s pkt) (fun us => helper_ok (fst us)).
Proof.
  intros Hu. unfold rtp_payload_check. cbv zeta.
  set (u1 := if hflags u =? -1 then _ else u).
  assert (H1 : helper_ok u1) by (unfold u1; case_match; auto). clearbody u1.
  set (lost := if _ =? _ then 0 else 1).
  set (u2 := if lost =? 0 then u1 else _).
  assert (H2 : helper_ok u2) by (unfold u2; case_match; auto). clearbody u2 lost.
  ostep. eapply (post_mono _ (fun us => helper_ok (fst us))).
  { apply post_if; intros _; [ostep; simpl; auto|]. ostep.
    eapply post_mono; [apply onframe_safe; auto|]. intros [r [u' s']] Hu'. ostep.
    unfold helper_kept in Hu'. simpl in *. case_match; auto. }
  intros [u' s'] Hu'. ostep. simpl in *. auto.
Qed.

Lemma write_safe u pkt :
  helper_ok u -> 0 <= payloadlen pkt <= zlen (payload pkt) -> payloadlen pkt <= RTP_PAYLOAD_MAX_SIZE ->
  post (rtp_payload_write u pkt) (fun ru => helper_ok (snd ru)).
Proof.
  intros Hu Hp Hb. pose proof Hu as [Hc Hs Hm Hf]. unfold rtp_payload_write, RTP_PAYLOAD_MAX_SIZE in *.
  ostep. apply post_int; [lia|]. cbv zeta. apply post_if; intros Hcond; [done|].
  apply orb_false_iff in Hcond as [Hc1 Hc2]. apply Z.ltb_ge in Hc1, Hc2.
  set (sz := hsize u + payloadlen pkt) in *.
  set (cap := sz + (if 16000 <? sz / 4 then sz / 4 else 16000)).
  apply post_if; intros Hg; [simpl; auto|].
  set (u1 := if hcapacity u <? sz then _ else u).
  assert (Hu1 : zlen (hbuf u1) = hcapacity u1 /\ sz <= hcapacity u1 /\ hsize u1 = hsize u /\
            hmaxsize u1 = hmaxsize u).
  { unfold u1. destruct (Z.ltb_spec (hcapacity u) sz); [|done]. simpl.
    assert (sz <= cap) by (unfold cap; destruct (_ <? _) eqn:E; [apply Z.ltb_lt in E|]; lia).
    rewrite zlen_app, zlen_replicate, Hc. split_and!; try done. lia. }
  destruct Hu1 as (E1 & E2 & E3 & E4). clearbody u1. rewrite E3. ostep.
  apply post_assert. intros _. ostep. apply post_rdn; [lia|lia|lia|]. ostep.
  apply post_wrn_len; [lia| |].
  { rewrite zlen_take. change (drop (Z.to_nat 0) (payload pkt)) with (payload pkt). unfold sz in *. lia. }
  intros b Eb. ostep. constructor; simpl; unfold sz, RTP_PAYLOAD_MAX_SIZE in *; lia.
Qed.

(** The three decoders, on the parsed packet. *)
Definition decoded (res : Z * (rtp_payload_helper_t * S)) : Prop := helper_ok (fst (snd res)).

Lemma decode_post (u : rtp_payload_helper_t) s packet bytes (k : rtp_packet_t -> outcome (Z * (rtp_payload_helper_t * S))) :
  helper_ok u -> bytes_ok packet -> bytes <= zlen packet -> bytes <= RTP_PAYLOAD_MAX_SIZE ->
  (forall pkt, 0 <= payloadlen pkt <= zlen (payload pkt) -> payloadlen pkt <= RTP_PAYLOAD_MAX_SIZE ->
     post (k pkt) decoded) ->
  post (do* (r, pkt) <- rtp_packet_deserialize zero_packet packet bytes ;;
        if negb (r =? 0) then Ret (- EINVAL, (u, s)) else k pkt) decoded.
Proof.
  intros Hu Hb Hl Hm Hk. ostep. eapply post_mono; [by apply deserialize_post|].
  intros [r pkt] [->|[-> Hp]]; [done|]. destruct Hp as [[] _ _ ? ? _].
  unfold RTP_FIXED_HEADER in *. apply Hk; lia.
Qed.

Lemma rfc2250_safe u s packet bytes :
  helper_ok u -> bytes_ok packet -> bytes <= zlen packet -> bytes <= RTP_PAYLOAD_MAX_SIZE ->
  post (rtp_decode_rfc2250 h u s packet bytes) decoded.
Proof.
  intros Hu Hb Hl Hm. apply decode_post; [done..|]. intros pkt Hp Hp'.
  ostep. apply post_assert. intros _. ostep. eapply (post_mono _ (fun _ => True)).
  - apply post_if; intros Hc; [|done]. ostep. apply post_rdn; [lia|lia|lia|done].
  - intros [r s'] _. by ostep.
Qed.

Lemma ts_safe u s packet bytes :
  helper_ok u -> bytes_ok packet -> bytes <= zlen packet -> bytes <= RTP_PAYLOAD_MAX_SIZE ->
  post (rtp_decode_ts h u s packet bytes) decoded.
Proof.
  intros Hu Hb Hl Hm. apply decode_post; [done..|]. intros pkt Hp Hp'.
  ostep. eapply post_mono; [by apply check_safe|]. intros [u1 s1] Hu1. ostep.
  eapply (post_mono _ (fun us => helper_ok (fst us))).
  { apply post_if; intros _; [|done]. ostep. eapply post_mono; [apply onframe_safe; auto|].
    intros [r us]. done. }
  intros [u2 s2] Hu2. ostep. eapply post_mono; [by apply write_safe|]. intros [r u3] Hu3. by ostep.
Qed.

Lemma mp4v_safe u s packet bytes :
  helper_ok u -> bytes_ok packet -> bytes <= zlen packet -> bytes <= RTP_PAYLOAD_MAX_SIZE ->
  post (rtp_decode_mp4v_es h u s packet bytes) decoded.
Proof.
  intros Hu Hb Hl Hm. apply decode_post; [done..|]. intros pkt Hp Hp'.
  ostep. eapply post_mono; [by apply check_safe|]. intros [u1 s1] Hu1. ostep.
  apply post_assert. intros _. ostep. eapply (post_mono _ (fun ru => helper_ok (snd ru))).
  { apply post_if; intros _; [by apply write_safe|done]. }
  intros [r u2] Hu2. apply post_if; intros _; [done|]. ostep.
  eapply (post_mono _ (fun us => helper_ok (fst us))).
  { apply post_if; intros _; [|done]. ostep. eapply post_mono; [by apply onframe_safe|].
    intros [r' us]. done. }
  intros [u3 s3] Hu3. by ostep.
Qed.
End Safety.

(** ** Packing: the payloads, with their markers *)
Fixpoint chunks (fuel : nat) (c : Z) (mark : Z -> Z) (data : list Z) : list (Z * list Z) :=
  match fuel with
  | O => []
  | S fuel =>
      if zlen data <=? c then [(mark 0, data)]
      else (mark (zlen data - c), take (Z.to_nat c) data) :: chunks fuel c mark (adv data c)
  end.

Section Packing.
Context `{Build}.

(** One packet of [len] bytes. *)
Lemma chunk_buffer pk ptr len m :
  packer_ok pk -> 0 <= m < 2 -> 0 <= len <= zlen ptr ->
  let pkt := ppkt (set_m (set_data pk ptr len) m) in
  let bs := packet_bytes (video_packet (rtp (ppkt pk)) m (take (Z.to_nat len) ptr)) in
  rtp_packet_serialize pkt (replicate (Z.to_nat (RTP_FIXED_HEADER + len)) 0) (RTP_FIXED_HEADER + len)
  = Ret (RTP_FIXED_HEADER + len, bs) /\ zlen bs = RTP_FIXED_HEADER + len.
Proof.
  intros Hp Hm Hl pkt bs. assert (Hok : packet_ok pkt) by by apply packer_packet_ok.
  assert (Hb : packet_bytes pkt = bs).
  { unfold bs. rewrite video_packet_bytes by done. unfold packet_bytes, pkt.
    by rewrite packer_header_bytes by done. }
  assert (Hz : zlen bs = RTP_FIXED_HEADER + len).
  { unfold bs. rewrite video_packet_bytes by done.
    rewrite zlen_app, zlen_rtp_header_bytes, zlen_take. unfold RTP_FIXED_HEADER. lia. }
  split; [|done]. unfold RTP_FIXED_HEADER in *.
  rewrite serialize_spec; [|done|rewrite Hb, zlen_replicate; lia].
  rewrite Hb, Hz. do 2 f_equal. unfold adv. rewrite drop_ge; [by rewrite app_nil_r|].
  rewrite length_replicate. lia.
Qed.

Lemma pack_chunks_spec fuel mark pk log data :
  packer_ok pk -> (forall n, 0 <= mark n < 2) ->
  let c := psize pk - RTP_FIXED_HEADER in
  0 < c -> 0 < zlen data -> (length data <= fuel)%nat ->
  let units := chunks fuel c mark data in
  exists pk', pack_chunks log_handler fuel mark pk log data (zlen data) 0
              = Ret (0, (pk', log ++ emit (rtp (ppkt pk)) units)) /\ moved pk (zlen units) pk'.
Proof.
  revert pk log data. induction fuel as [|fuel IH]; intros pk log data Hp Hmark c Hc Hd Hfuel.
  { unfold zlen in Hd. lia. }
  cbn [pack_chunks chunks]. cbv zeta. zif. cbn [Z.eqb andb].
  set (len := if zlen data + _ <=? _ then _ else _).
  assert (Hlen : len = if zlen data <=? c then zlen data else c).
  { unfold len, c, RTP_FIXED_HEADER. repeat case_match; cbool; lia. }
  clearbody len.
  assert (Hl : 0 < len <= zlen data) by (subst len; destruct (Z.leb_spec (zlen data) c); lia).
  cbn [h_alloc log_handler].
  destruct (chunk_buffer pk data len (mark (zlen data - len)) Hp (Hmark _) ltac:(lia)) as [Es Ez].
  rewrite Es. cbn [obind]. rewrite Z.eqb_refl. cbn [negb].
  pose proof (rdn_all _ _ [] (eq_sym Ez)) as Er. rewrite app_nil_r in Er. rewrite Er. clear Er Es Ez.
  cbn [obind h_packet h_free log_handler].
  pose proof (moved_step pk data len (mark (zlen data - len)) Hp (Hmark _)) as Hmv.
  set (pk1 := next_seq _) in *. set (ev := (packet_bytes _, _, 0)).
  destruct (Z.leb_spec (zlen data) c).
  - subst len. exists pk1. split; [|done]. rewrite Z.sub_diag.
    destruct fuel; cbn [pack_chunks]; cbn [Z.eqb Z.ltb Z.compare andb]; do 3 f_equal;
      unfold ev; rewrite Z.sub_diag; cbn [emit]; unfold zlen; by rewrite Nat2Z.id, firstn_all.
  - subst len. replace (zlen data - c) with (zlen (adv data c)) by (rewrite zlen_adv; lia).
    destruct (IH pk1 (log ++ [ev]) (adv data c)) as (pk2 & E2 & Hmv2); try done.
    + apply Hmv.
    + rewrite zlen_adv. lia.
    + unfold adv. rewrite length_drop. unfold zlen in *. lia.
    + change (psize pk1 - RTP_FIXED_HEADER) with c in *. exists pk2. split.
      * etrans; [exact E2|]. rewrite <- app_assoc. cbn [app emit].
        rewrite (moved_emit _ _ _ _ Hmv). unfold ev. rewrite zlen_adv.
        by replace (Z.max 0 (zlen data - Z.max 0 c)) with (zlen data - c) by lia.
      * rewrite zlen_cons. by eapply moved_trans.
Qed.
End Packing.

(** ** Unpacking MPEG-4 visual *)
(** The assembler expects packet [sq] and holds [acc] of its frame. *)
Record gathering (u : rtp_payload_helper_t) (sq ts : Z) (acc : list Z) : Prop := {
  ga_cap : zlen (hbuf u) = hcapacity u;
  ga_max : hmaxsize u = RTP_PAYLOAD_MAX_SIZE;
  ga_lost : hlost u = 0;
  ga_sync : hflags u = -1 /\ acc = [] \/ hflags u = 0 /\ u16 (hseq u + 1) = u16 sq;
  ga_ts : acc = [] \/ hts u = ts;
  ga_buf : exists rest, hbuf u = acc ++ rest;
  ga_size : hsize u = zlen acc
}.

Lemma helper_create_gathering sq ts : gathering rtp_payload_helper_create sq ts [].
Proof. constructor; try done; [by left|by left|by exists []]. Qed.

Fixpoint recv_mp4v `{Alloc} `{Build} {S} (h : rtp_payload_t S) (u : rtp_payload_helper_t) (s : S)
    (ds : list delivery) : outcome (Z * (rtp_payload_helper_t * S)) :=
  match ds with
  | [] => Ret (1, (u, s))
  | (bytes, _, _) :: ds =>
      do* (r, st) <- rtp_decode_mp4v_es h u s bytes (zlen bytes) ;;
      if r =? 1 then recv_mp4v h (fst st) (snd st) ds else Ret (r, st)
  end.

Section Unpacking.
Context `{Alloc} `{Build}.
Hypothesis grants : forall n, alloc_ok n = true.
Implicit Types (u : rtp_payload_helper_t) (s : list delivery).

(** An expected packet changes neither the bytes gathered nor the loss flag. *)
Lemma check_gathering u s sq acc pkt :
  gathering u sq (timestamp (rtp pkt)) acc -> u16 (seq (rtp pkt)) = u16 sq ->
  exists u', rtp_payload_check log_handler u s pkt = Ret (u', s) /\
    gathering u' (sq + 1) (timestamp (rtp pkt)) acc /\ hflags u' = 0 /\ hts u' = timestamp (rtp pkt).
Proof.
  intros [] Hs. unfold rtp_payload_check. rewrite Hs. cbv zeta.
  set (u1 := if hflags u =? -1 then _ else u).
  assert (Hu1 : hflags u1 = 0 /\ u16 (hseq u1 + 1) = u16 sq /\ hlost u1 = 0 /\ hsize u1 = hsize u /\
            hbuf u1 = hbuf u /\ hcapacity u1 = hcapacity u /\ hmaxsize u1 = hmaxsize u /\
            (acc = [] \/ hts u1 = timestamp (rtp pkt))).
  { unfold u1. destruct ga_sync0 as [[Ef Ea]|[Ef Eq]]; rewrite Ef; simpl; [|by split_and!].
    split_and!; try done; [|by left]. unfold u16 in *. lia. }
  destruct Hu1 as (Ef & Eq & El & Esz & Eb & Ec & Em & Et). clearbody u1.
  rewrite Eq, Z.eqb_refl. change (0 =? 0) with true. cbv iota.
  set (u2 := set_hseq u1 (u16 sq)).
  assert (Hk : gathering (set_hts u2 (timestamp (rtp pkt))) (sq + 1) (timestamp (rtp pkt)) acc).
  { constructor; simpl; rewrite ?Esz, ?Eb, ?Ec; try done; [congruence| |by right].
    right. split; [done|]. unfold u16. lia. }
  destruct (Z.eqb_spec (timestamp (rtp pkt)) (hts u2)) as [E|E]; cbn [obind].
  { eexists. by split_and!. }
  destruct Et as [->|Et]; [|by subst u2; simpl in E; congruence].
  unfold rtp_payload_onframe. change (hsize u2) with (hsize u1). rewrite Esz, ga_size0.
  change (0 <? zlen []) with false. cbn [andb obind]. change (hlost u2) with (hlost u1). rewrite El.
  cbn [Z.eqb obind]. eexists. split; [done|]. split; [|done].
  destruct Hk. constructor; simpl in *; try done.
Qed.

Lemma write_gathering u sq acc pkt :
  gathering u sq (timestamp (rtp pkt)) acc -> hflags u = 0 -> payloadlen pkt = zlen (payload pkt) ->
  zlen (acc ++ payload pkt) <= RTP_PAYLOAD_MAX_SIZE -> hts u = timestamp (rtp pkt) ->
  exists u', rtp_payload_write u pkt = Ret (0, u') /\ hflags u' = 0 /\ hts u' = timestamp (rtp pkt) /\
    gathering u' sq (timestamp (rtp pkt)) (acc ++ payload pkt).
Proof.
  intros [] Ef Hl Hm Ht. unfold rtp_payload_write. rewrite Hl, ga_size0.
  unfold RTP_PAYLOAD_MAX_SIZE in *. rewrite <- zlen_app. set (sz := zlen (acc ++ payload pkt)) in *.
  pose proof (zlen_nonneg acc). pose proof (zlen_nonneg (payload pkt)).
  assert (Hsz : sz = zlen acc + zlen (payload pkt)) by apply zlen_app.
  unfold c_int. do 2 zif. cbn [andb obind]. rewrite ga_max0. do 2 zif. cbn [orb].
  rewrite grants. cbn [negb]. rewrite andb_false_r.
  set (u1 := if hcapacity u <? sz then _ else u).
  assert (Hu1 : zlen (hbuf u1) = hcapacity u1 /\ sz <= hcapacity u1 /\ hsize u1 = zlen acc /\
            hmaxsize u1 = hmaxsize u /\ hflags u1 = 0 /\ hlost u1 = 0 /\ hseq u1 = hseq u /\
            hts u1 = hts u /\ exists rest, hbuf u1 = acc ++ rest).
  { unfold u1. destruct (Z.ltb_spec (hcapacity u) sz); [|by split_and!]. simpl.
    set (cap := sz + _). assert (sz <= cap) by (unfold cap; destruct (Z.ltb_spec 16000 (sz / 4)); lia).
    rewrite zlen_app, zlen_replicate. split_and!; try done; [lia|].
    destruct ga_buf0 as [rest ->]. eexists. by rewrite <- app_assoc. }
  destruct Hu1 as (E1 & E2 & E3 & E4 & E5 & E6 & E7 & E8 & rest & E9). clearbody u1.
  unfold c_assert. rewrite E3. zif. cbn [orb obind].
  pose proof (rdn_all (payload pkt) _ [] eq_refl) as Er. rewrite app_nil_r in Er. rewrite Er.
  cbn [obind]. rewrite E9 in E1 |- *. rewrite zlen_app in E1.
  rewrite wrn_app by lia. cbn [obind]. eexists. split; [done|]. simpl.
  rewrite E5, E8. split_and!; try done. constructor; simpl; try done.
  - rewrite !zlen_app, zlen_adv. lia.
  - unfold RTP_PAYLOAD_MAX_SIZE. congruence.
  - right. split; [done|]. rewrite E7. destruct ga_sync0 as [[E ?]|[_ ?]]; [congruence|done].
  - right. congruence.
  - by eexists.
Qed.

(** A frame is over: nothing to deliver, or what was gathered. *)
Lemma onframe_gathering u s sq ts acc :
  gathering u sq ts acc -> acc = [] \/ hflags u = 0 /\ hts u = ts ->
  exists u', rtp_payload_onframe log_handler u s
    = Ret (0, (u', s ++ if bool_decide (acc = []) then [] else [(acc, ts, 0)])) /\
    (forall ts', gathering u' sq ts' []) /\ hflags u' = hflags u /\ hts u' = hts u.
Proof.
  intros [] Hf. unfold rtp_payload_onframe. rewrite ga_size0, ga_lost0.
  assert (Hk : forall ts', gathering (set_hbuf (set_lost u 0) (hbuf u) 0 (hcapacity u)) sq ts' []).
  { intros ts'. constructor; simpl; try done; [|by left|by eexists].
    destruct ga_sync0 as [[? _]|?]; [by left|by right]. }
  destruct acc as [|b acc].
  { cbn [zlen length]. change (0 <? zlen []) with false. cbn [andb obind]. rewrite ga_lost0. cbn [Z.eqb].
    rewrite app_nil_r. eexists. by split_and!. }
  destruct Hf as [?|[Ef Et]]; [done|]. rewrite zlen_cons in *. pose proof (zlen_nonneg acc). zif. cbn [andb Z.eqb].
  destruct ga_buf0 as [rest Eb]. rewrite Eb, rdn_all by (rewrite zlen_cons; lia).
  cbn [obind h_packet log_handler]. change (hlost (set_hflags u _)) with (hlost u).
  rewrite ga_lost0, Ef, Et. cbn [Z.eqb obind]. eexists. split; [done|]. split; [|by split].
  intros ts'. constructor; simpl; try done; [|by left|by eexists].
  right. split; [done|]. destruct ga_sync0 as [[E _]|[_ ?]]; [congruence|done].
Qed.

Lemma mp4v_step u s sq acc hd m pl :
  gathering u sq (timestamp hd) acc -> plain hd -> u16 (seq hd) = u16 sq -> 0 <= m < 2 ->
  0 < zlen pl -> zlen (acc ++ pl) <= RTP_PAYLOAD_MAX_SIZE ->
  exists u', rtp_decode_mp4v_es log_handler u s (packet_bytes (video_packet hd m pl))
               (zlen (packet_bytes (video_packet hd m pl)))
    = Ret (1, (u', s ++ if m =? 0 then [] else [(acc ++ pl, timestamp hd, 0)])) /\
    gathering u' (sq + 1) (timestamp hd) (if m =? 0 then acc ++ pl else []).
Proof.
  intros Hu Hh Hs Hm Hl Hb. unfold rtp_decode_mp4v_es.
  destruct (deserialize_video zero_packet hd m pl Hh Hm) as (pkt & -> & Er & Ep & El). cbn [obind negb Z.eqb].
  assert (Ets : timestamp (rtp pkt) = timestamp hd) by by rewrite Er.
  destruct (check_gathering u s sq acc pkt) as (u1 & -> & Hu1 & Ef1 & Et1).
  { by rewrite Ets. } { by rewrite Er. }
  cbn [obind]. rewrite El. unfold c_assert. zif. cbn [orb obind]. rewrite (ga_lost _ _ _ _ Hu1).
  cbn [Z.eqb andb].
  destruct (write_gathering u1 (sq + 1) acc pkt Hu1 Ef1) as (u2 & -> & Ef2 & Et2 & Hu2); [congruence|by rewrite Ep|done|].
  rewrite Ep in Hu2. rewrite Ets in *. cbn [obind negb Z.eqb]. rewrite Er. cbn [with_m hm].
  destruct (Z.eqb_spec m 0); cbn [negb obind].
  { rewrite (ga_lost _ _ _ _ Hu2). eexists. by rewrite app_nil_r. }
  destruct (onframe_gathering u2 s _ _ _ Hu2) as (u3 & -> & Hu3 & _); [by right|]. cbn [obind].
  rewrite bool_decide_eq_false_2 by (intros E; apply app_eq_nil in E as [_ ->]; by cbn in Hl).
  rewrite (ga_lost _ _ _ _ (Hu3 0)). eexists. by split.
Qed.

Lemma mp4v_recv_chunks fuel u s sq acc hd c data :
  gathering u sq (timestamp hd) acc -> plain hd -> u16 (seq hd) = u16 sq ->
  0 < c -> 0 < zlen data -> (length data <= fuel)%nat -> zlen (acc ++ data) <= RTP_PAYLOAD_MAX_SIZE ->
  let units := chunks fuel c (fun left => if 0 =? left then 1 else 0) data in
  exists u', recv_mp4v log_handler u s (emit hd units)
             = Ret (1, (u', s ++ [(acc ++ data, timestamp hd, 0)])) /\
    forall ts, gathering u' (sq + zlen units) ts [].
Proof.
  revert u s sq acc hd data.
  induction fuel as [|fuel IH]; intros u s sq acc hd data Hu Hh Hs Hc Hd Hfuel Hb.
  { unfold zlen in Hd. lia. }
  cbn [chunks]. destruct (Z.leb_spec (zlen data) c); cbn [emit recv_mp4v]; cbv zeta.
  - change (0 =? 0) with true. cbv iota.
    destruct (mp4v_step u s sq acc hd 1 data Hu Hh Hs) as (u1 & -> & Hu1); try done.
    cbn [obind fst snd]. exists u1. split; [done|]. change (zlen [(1, data)]) with 1.
    intros ts. destruct Hu1. by constructor; try done; left.
  - zif. assert (Htk : zlen (take (Z.to_nat c) data) = c) by (rewrite zlen_take; lia).
    destruct (mp4v_step u s sq acc hd 0 (take (Z.to_nat c) data) Hu Hh Hs) as (u1 & -> & Hu1); [done|lia| |].
    { rewrite zlen_app in *. lia. }
    cbn [obind fst snd Z.eqb Pos.eqb] in *. rewrite app_nil_r.
    destruct (IH u1 s (sq + 1) (acc ++ take (Z.to_nat c) data) (advance hd 1) (adv data c)) as (u2 & E & Hu2).
    + done.
    + by apply advance_plain.
    + cbn. unfold u16 in *. lia.
    + done.
    + rewrite zlen_adv. lia.
    + unfold adv. rewrite length_drop. unfold zlen in *. lia.
    + unfold adv. by rewrite <- app_assoc, take_drop.
    + unfold adv in *. rewrite <- app_assoc, take_drop in E. exists u2. split; [exact E|].
      intros ts. rewrite zlen_cons, Z.add_assoc. apply Hu2.
Qed.
End Unpacking.

(** ** The property *)
Section Properties.
Context `{Alloc} `{Build}.

(** C0. An MPEG-4 visual frame of any length up to 10 MB, cut into packets of
    any size and fed to the unpacker in order, is delivered once, whole, with its
    timestamp and no flag; and the unpacker then expects the packet the packer
    numbers next, so frames can follow each other. *)
Theorem rtp_mp4v_es_roundtrip pk u frame ts :
  (forall n, alloc_ok n = true) -> packer_ok pk -> RTP_FIXED_HEADER < psize pk -> is_u32 ts ->
  fresh_timestamp pk ts = true -> 0 < zlen frame <= RTP_PAYLOAD_MAX_SIZE ->
  gathering u (seq (rtp (ppkt pk))) ts [] ->
  exists pk' packets u',
    rtp_mp4v_es_encode_input log_handler pk [] frame (zlen frame) ts = Ret (0, (pk', packets)) /\
    recv_mp4v log_handler u [] packets = Ret (1, (u', [(frame, ts, 0)])) /\
    packer_ok pk' /\ forall ts', gathering u' (seq (rtp (ppkt pk'))) ts' [].
Proof.
  intros Hg Hp Hsz Hts Hfr Hf Hu. unfold rtp_mp4v_es_encode_input. rewrite Hfr. cbn [c_assert orb obind].
  set (mark := fun left : Z => if 0 =? left then 1 else 0).
  destruct (pack_chunks_spec (Z.to_nat (zlen frame)) mark (set_ts pk ts) [] frame) as (pk' & E & Hm).
  { by apply set_ts_ok. }
  { intros n. unfold mark. destruct (0 =? n); lia. }
  { cbn. lia. }
  { lia. }
  { unfold zlen. lia. }
  destruct (mp4v_recv_chunks Hg (Z.to_nat (zlen frame)) u [] (seq (rtp (ppkt pk))) []
              (with_timestamp (rtp (ppkt pk)) ts) (psize pk - RTP_FIXED_HEADER) frame Hu) as (u' & Er & Hu'); try done.
  { by apply with_ts_plain, Hts; apply packer_plain. }
  { lia. }
  { lia. }
  { unfold zlen. lia. }
  { apply Hf. }
  eexists pk', _, u'. split; [exact E|]. split; [exact Er|]. split; [apply Hm|]. intros ts'.
  assert (Hst : seq (rtp (ppkt pk')) = u16 (seq (rtp (ppkt pk)) + zlen (chunks (Z.to_nat (zlen frame))
     (psize (set_ts pk ts) - RTP_FIXED_HEADER) mark frame))) by exact (f_equal seq (mv_stream _ _ _ Hm)).
  rewrite Hst. destruct (Hu' ts') as [? ? ? Hsync ? ? ?]. constructor; try done.
  destruct Hsync as [?|[? Hq]]; [by left|right]. split; [done|].
  rewrite Hq. cbn [psize set_ts set_pkt]. unfold u16. by rewrite Zmod_mod.
Qed.
End Properties.

Lemma rtp_mp4v_es_roundtrip_witness :
  let pk := pack_create 564 97 65535 7 in
  let frame := replicate 2000 9 in
  exists pk' packets u',
    @rtp_mp4v_es_encode_input default_build _ log_handler pk [] frame (zlen frame) 3000 = Ret (0, (pk', packets)) /\
    @recv_mp4v always_alloc default_build _ log_handler rtp_payload_helper_create [] packets
      = Ret (1, (u', [(frame, 3000, 0)])) /\
    packer_ok pk' /\ forall ts', gathering u' (seq (rtp (ppkt pk'))) ts' [].
Proof.
  apply (@rtp_mp4v_es_roundtrip always_alloc default_build (pack_create 564 97 65535 7)
           rtp_payload_helper_create (replicate 2000 9) 3000).
  - done.
  - apply pack_create_ok; done.
  - done.
  - done.
  - reflexivity.
  - rewrite zlen_replicate. done.
  - apply helper_create_gathering.
Defined.
