(* ===== verification/PayloadDesc.v ===== *)
(** The formats that put a descriptor before each piece of a frame and gather the
    frame with the helper: VP8 and VP9 (rtp-vp8-pack.c, rtp-vp8-unpack.c,
    rtp-vp9-pack.c, rtp-vp9-unpack.c), MPEG-4 audio (rtp-mp4a-latm-pack.c,
    rtp-mp4a-latm-unpack.c, rtp-mpeg4-generic-pack.c, rtp-mpeg4-generic-unpack.c),
    MPEG-1/2 streams (rtp-mpeg1or2es-pack.c, rtp-mpeg1or2es-unpack.c) and program
    streams (rtp-ps-unpack.c). *)

From S2P Require Import Prelude RtpUtil RtpPacket Payload PayloadHelper.

Definition bit_set (b m : Z) : bool := negb (Z.land b m =? 0).

Section Unpack.
Context `{Alloc} `{Build} {S : Type} (h : rtp_payload_t S).

(** [pkt.payload = ptr; pkt.payloadlen = len], with [ptr] at [p] of the payload. *)
Definition piece (pkt : rtp_packet_t) (p len : Z) : rtp_packet_t := set_payload pkt (adv (payload pkt) p) len.

(** [if (pkt.rtp.m) rtp_payload_onframe(helper);] *)
Definition end_at_marker (u : rtp_payload_helper_t) (s : S) (pkt : rtp_packet_t)
  : outcome (rtp_payload_helper_t * S) :=
  if negb (hm (rtp pkt) =? 0) then do* (_, us) <- rtp_payload_onframe h u s ;; Ret us else Ret (u, s).

(** ** VP8.  A pointer into the payload is its index, [pend] is the length. *)
Definition vp8_descriptor (pkt : rtp_packet_t) : outcome (bool * Z) :=
  let pend := payloadlen pkt in
  do b0 <- rd (payload pkt) 0 ;;
  let p := 1 in
  do p <-
    (if bit_set b0 128 && (p <? pend) then
       do b1 <- rd (payload pkt) p ;;
       let p := p + 1 in
       do p <-
         (if bit_set b1 128 && (p <? pend) then
            do b2 <- rd (payload pkt) p ;;
            let p := if bit_set b2 128 && (p + 1 <? pend) then p + 1 else p in
            Ret (p + 1)
          else Ret p) ;;
       let p := if bit_set b1 64 && (p <? pend) then p + 1 else p in
       let p := if (bit_set b1 32 || bit_set b1 16) && (p <? pend) then p + 1 else p in
       Ret p
     else Ret p) ;;
  Ret (bit_set b0 16, p).

(** What VP8 and VP9 do behind the descriptor. *)
Definition gather (u : rtp_payload_helper_t) (s : S) (pkt : rtp_packet_t) (start : bool) (p : Z)
  : outcome (Z * (rtp_payload_helper_t * S)) :=
  let pend := payloadlen pkt in
  if pend <=? p then c_assert false ;;; Ret (-1, (set_lost u 1, s))
  else
    do* (u, s) <- (if start then do* (_, us) <- rtp_payload_onframe h u s ;; Ret us else Ret (u, s)) ;;
    do* (_, u) <- rtp_payload_write u (piece pkt p (pend - p)) ;;
    do* (u, s) <- end_at_marker u s pkt ;;
    Ret (1, (u, s)).

Definition rtp_decode_vp8 (u : rtp_payload_helper_t) (s : S) (packet : list Z) (bytes : Z)
  : outcome (Z * (rtp_payload_helper_t * S)) :=
  do* (r, pkt) <- rtp_packet_deserialize zero_packet packet bytes ;;
  if negb (r =? 0) || (payloadlen pkt <? 1) then Ret (- EINVAL, (u, s))
  else
    do* (u, s) <- rtp_payload_check h u s pkt ;;
    do* (start, p) <- vp8_descriptor pkt ;;
    gather u s pkt start p.

(** ** VP9 *)
(** The reference indices: as written, the second byte is read before its bound is
    checked. *)
Definition vp9_references (pkt : rtp_packet_t) (p : Z) : outcome Z :=
  do d0 <- rd (payload pkt) p ;;
  do p <-
    (if bit_set d0 1 then
       do d1 <- rd (payload pkt) (p + 1) ;;
       let p := if bit_set d1 1 && (p + 1 <? payloadlen pkt) then p + 1 else p in
       Ret (p + 1)
     else Ret p) ;;
  Ret (p + 1).

(** [for (j = 0; j < R && ptr < pend; j++) ptr++;] *)
Fixpoint vp9_skip (r : nat) (pend p : Z) : Z :=
  match r with
  | O => p
  | Datatypes.S r => if p <? pend then vp9_skip r pend (p + 1) else p
  end.

(** [n] is what is left of [N_G]. *)
Fixpoint vp9_pictures (n : nat) (pkt : rtp_packet_t) (p : Z) : outcome Z :=
  match n with
  | O => Ret p
  | Datatypes.S n =>
      if p <? payloadlen pkt then
        do b <- rd (payload pkt) p ;;
        vp9_pictures n pkt (vp9_skip (Z.to_nat (Z.land (Z.shiftr b 2) 3)) (payloadlen pkt) (p + 1))
      else Ret p
  end.

(** The scalability structure; the bit of [G] is the one the source takes. *)
Definition vp9_scalability (pkt : rtp_packet_t) (p : Z) : outcome Z :=
  let pend := payloadlen pkt in
  do b <- rd (payload pkt) p ;;
  let n_s := Z.land (Z.shiftr b 5) 7 + 1 in
  let p := p + 1 in
  let p := if bit_set b 16 then p + n_s * 4 else p in
  if bit_set b 128 && (p <? pend) then
    do n_g <- rd (payload pkt) p ;;
    vp9_pictures (Z.to_nat n_g) pkt (p + 1)
  else Ret p.

(** The start of a frame is taken from bit 7, as written. *)
Definition vp9_descriptor (pkt : rtp_packet_t) : outcome (bool * Z) :=
  let pend := payloadlen pkt in
  do b0 <- rd (payload pkt) 0 ;;
  let p := 1 in
  do p <-
    (if bit_set b0 128 && (p <? pend) then
       do b <- rd (payload pkt) p ;;
       let p := if bit_set b 128 && (p + 1 <? pend) then p + 1 else p in
       Ret (p + 1)
     else Ret p) ;;
  let p := if bit_set b0 32 && (p <? pend) then (if bit_set b0 16 then p else p + 1) + 1 else p in
  do p <- (if bit_set b0 64 && bit_set b0 16 && (p <? pend) then vp9_references pkt p else Ret p) ;;
  do p <- (if bit_set b0 2 && (p <? pend) then vp9_scalability pkt p else Ret p) ;;
  Ret (bit_set b0 128, p).

Definition rtp_decode_vp9 (u : rtp_payload_helper_t) (s : S) (packet : list Z) (bytes : Z)
  : outcome (Z * (rtp_payload_helper_t * S)) :=
  do* (r, pkt) <- rtp_packet_deserialize zero_packet packet bytes ;;
  if negb (r =? 0) || (payloadlen pkt <? 1) then Ret (- EINVAL, (u, s))
  else
    do* (u, s) <- rtp_payload_check h u s pkt ;;
    do* (start, p) <- vp9_descriptor pkt ;;
    gather u s pkt start p.

(** ** MPEG-4 audio, LATM *)
(** A length in bytes of 255 with a smaller one at the end. *)
Fixpoint latm_length (fuel : nat) (pkt : rtp_packet_t) (p len : Z) : outcome (Z * Z) :=
  if p <? payloadlen pkt then
    match fuel with
    | O => Crash Diverge
    | Datatypes.S fuel =>
        do b <- rd (payload pkt) p ;;
        do len <- c_int (len + b) ;;
        if negb (b =? 255) then Ret (p + 1, len) else latm_length fuel pkt (p + 1) len
    end
  else Ret (p, len).

(** [None] is the early return. *)
Fixpoint latm_elements (fuel : nat) (u : rtp_payload_helper_t) (s : S) (pkt : rtp_packet_t) (p : Z)
  : outcome (bool * (rtp_payload_helper_t * S)) :=
  let pend := payloadlen pkt in
  if p <? pend then
    match fuel with
    | O => Crash Diverge
    | Datatypes.S fuel =>
        do* (p, len) <- latm_length (Z.to_nat pend) pkt p 0 ;;
        if pend <? p + len then c_assert false ;;; Ret (false, (set_lost u 1, s))
        else
          do* (_, u) <- rtp_payload_write u (piece pkt p len) ;;
          do* (u, s) <-
            (if (p + len <? pend) || negb (hm (rtp pkt) =? 0) then
               do* (_, us) <- rtp_payload_onframe h u s ;; Ret us
             else Ret (u, s)) ;;
          latm_elements fuel u s pkt (p + len)
    end
  else Ret (true, (u, s)).

Definition rtp_decode_mp4a_latm (u : rtp_payload_helper_t) (s : S) (packet : list Z) (bytes : Z)
  : outcome (Z * (rtp_payload_helper_t * S)) :=
  do* (r, pkt) <- rtp_packet_deserialize zero_packet packet bytes ;;
  if negb (r =? 0) || (payloadlen pkt <? 4) then Ret (- EINVAL, (u, s))
  else
    do* (u, s) <- rtp_payload_check h u s pkt ;;
    do* (ok, (u, s)) <-
      (if 0 =? hsize u then latm_elements (Z.to_nat (payloadlen pkt)) u s pkt 0
       else
         do* (_, u) <- rtp_payload_write u pkt ;;
         do us <- end_at_marker u s pkt ;;
         Ret (true, us)) ;;
    if ok : bool then Ret (if hlost u =? 0 then 1 else 0, (u, s)) else Ret (-1, (u, s)).

(** ** MPEG-4 audio, generic *)
(** [n] access units are left, the header of the next is at [p], its data at [pau]. *)
Fixpoint au_loop (n : nat) (many : bool) (u : rtp_payload_helper_t) (s : S) (pkt : rtp_packet_t) (p pau : Z)
  : outcome (bool * (rtp_payload_helper_t * S)) :=
  match n with
  | O => Ret (true, (u, s))
  | Datatypes.S n =>
      do b0 <- rd (payload pkt) p ;;
      do b1 <- rd (payload pkt) (p + 1) ;;
      let size := Z.shiftr (Z.lor (Z.shiftl b0 8) (Z.land b1 248)) 3 in
      if payloadlen pkt <? pau + size then c_assert false ;;; Ret (false, (set_lost u 1, s))
      else
        do* (_, u) <- rtp_payload_write u (piece pkt pau size) ;;
        do* (u, s) <-
          (if many || negb (hm (rtp pkt) =? 0) then
             do* (_, us) <- rtp_payload_onframe h u s ;; Ret us
           else Ret (u, s)) ;;
        au_loop n many u s pkt (p + 2) (pau + size)
  end.

Definition rtp_decode_mpeg4_generic (u : rtp_payload_helper_t) (s : S) (packet : list Z) (bytes : Z)
  : outcome (Z * (rtp_payload_helper_t * S)) :=
  do* (r, pkt) <- rtp_packet_deserialize zero_packet packet bytes ;;
  if negb (r =? 0) || (payloadlen pkt <? 4) then Ret (- EINVAL, (u, s))
  else
    do* (u, s) <- rtp_payload_check h u s pkt ;;
    do b0 <- rd (payload pkt) 0 ;;
    do b1 <- rd (payload pkt) 1 ;;
    let au_header_length := (Z.shiftl b0 8 + b1 + 7) / 8 in
    if (payloadlen pkt <? au_header_length) || (au_header_length <? 2)
    then c_assert false ;;; Ret (-1, (set_lost u 1, s))
    else
      let au_numbers := au_header_length / 2 in
      c_assert (0 =? au_header_length mod 2) ;;;
      do* (ok, (u, s)) <-
        au_loop (Z.to_nat au_numbers) (1 <? au_numbers) u s pkt 2 (2 + au_header_length) ;;
      if ok : bool then Ret (if hlost u =? 0 then 1 else 0, (u, s)) else Ret (-1, (u, s)).

(** ** MPEG program streams: a pack header starts a frame *)
Definition s_mpeg2_packet_start : list Z := [0; 0; 1; 186].

Definition rtp_decode_ps (u : rtp_payload_helper_t) (s : S) (packet : list Z) (bytes : Z)
  : outcome (Z * (rtp_payload_helper_t * S)) :=
  do* (r, pkt) <- rtp_packet_deserialize zero_packet packet bytes ;;
  if negb (r =? 0) then Ret (- EINVAL, (u, s))
  else
    do* (u, s) <- rtp_payload_check h u s pkt ;;
    do start <-
      (if 4 <? payloadlen pkt then
         do head <- rdn (payload pkt) 0 4 ;; Ret (bool_decide (head = s_mpeg2_packet_start))
       else Ret false) ;;
    do* (u, s) <-
      (if start : bool then do* (_, us) <- rtp_payload_onframe h u s ;; Ret us else Ret (u, s)) ;;
    do* (_, u) <- rtp_payload_write u pkt ;;
    Ret (if hlost u =? 0 then 1 else 0, (u, s)).

(** ** MPEG-1/2 elementary streams *)
Definition RTP_PAYLOAD_MP3 : Z := 14.
Definition RTP_PAYLOAD_MPV : Z := 32.
Definition MPEG2VIDEO_EXTENSION_HEADER : Z := 4.

(** The byte behind the four of the header is read whether it exists or not. *)
Definition rtp_decode_mpeg2es (u : rtp_payload_helper_t) (s : S) (packet : list Z) (bytes : Z)
  : outcome (Z * (rtp_payload_helper_t * S)) :=
  do* (r, pkt) <- rtp_packet_deserialize zero_packet packet bytes ;;
  if negb (r =? 0) || (payloadlen pkt <? 4) then Ret (- EINVAL, (u, s))
  else if negb (pt (rtp pkt) =? RTP_PAYLOAD_MP3) && negb (pt (rtp pkt) =? RTP_PAYLOAD_MPV)
  then c_assert false ;;; Ret (- EINVAL, (u, s))
  else
    do* (u, s) <- rtp_payload_check h u s pkt ;;
    do u <-
      (if hlost u =? 0 then
         do n <-
           (if pt (rtp pkt) =? RTP_PAYLOAD_MPV then
              do b <- rd (payload pkt) 4 ;;
              Ret (if bit_set b MPEG2VIDEO_EXTENSION_HEADER then 8 else 4)
            else Ret 4) ;;
         c_assert (4 <? payloadlen pkt) ;;;
         (if n <? payloadlen pkt then
            do* (_, u) <- rtp_payload_write u (piece pkt n (payloadlen pkt - n)) ;; Ret u
          else Ret u)
       else Ret u) ;;
    do* (u, s) <-
      (if negb (hm (rtp pkt) =? 0) && (pt (rtp pkt) =? RTP_PAYLOAD_MPV) then
         do* (_, us) <- rtp_payload_onframe h u s ;; Ret us
       else Ret (u, s)) ;;
    Ret (if hlost u =? 0 then 1 else 0, (u, s)).
End Unpack.

(** ** Packing.  One loop: cut what is left, write the RTP header, the descriptor
    [hdr] and the bytes, hand the packet over.  [hdr] and [mark] get whether the
    packet is the first of the frame, the bytes sent before it and the bytes left
    behind it; [nh] is the length of the descriptor; [strict] is the comparison with
    [<] for [<=]; [clear]: the marker is cleared once it is written; [check] is
    what a format asserts of the piece. *)
Record descriptor := mk_desc {
  d_hdr : bool -> Z -> Z -> list Z;
  d_len : bool -> Z;
  d_mark : bool -> Z -> Z;
  d_strict : bool;
  d_clear : bool;
  d_check : bool -> Z -> bool
}.

Definition no_check (first : bool) (left : Z) : bool := true.

Definition piece_len (d : descriptor) (size : Z) (first : bool) (bytes : Z) : Z :=
  let need := bytes + d_len d first + RTP_FIXED_HEADER in
  if (if d_strict d then need <? size else need <=? size) then bytes
  else size - d_len d first - RTP_FIXED_HEADER.

Section Pack.
Context `{Build} {S : Type} (h : rtp_payload_t S).

Fixpoint pack_pieces (fuel : nat) (d : descriptor) (pk : rtp_packer) (s : S) (first : bool)
    (ptr : list Z) (sent bytes r : Z) : outcome (Z * (rtp_packer * S)) :=
  if (0 =? r) && (0 <? bytes) then
    match fuel with
    | O => Crash Diverge
    | Datatypes.S fuel =>
        let len := piece_len d (psize pk) first bytes in
        c_assert (d_check d first (bytes - len)) ;;;
        let pk := set_data pk ptr len in
        let N := d_len d first in
        let '(rtp, s) := h_alloc h s (RTP_FIXED_HEADER + N + len) in
        match rtp with
        | None => Ret (- ENOMEM, (pk, s))
        | Some buf =>
            let pk := set_m pk (d_mark d first (bytes - len)) in
            do* (n, buf) <- rtp_packet_serialize_header (ppkt pk) buf (RTP_FIXED_HEADER + N + len) ;;
            if negb (n =? RTP_FIXED_HEADER) then c_assert false ;;; Ret (-1, (pk, s))
            else
              do buf <- wrn buf n (d_hdr d first sent (bytes - len)) ;;
              do src <- rdn ptr 0 len ;;
              do buf <- wrn buf (n + N) src ;;
              do data <- rdn buf 0 (n + N + len) ;;
              let '(r, s) := h_packet h s data (timestamp (RtpPacket.rtp (ppkt pk))) 0 in
              let s := h_free h s in
              let pk := if d_clear d then set_m pk 0 else pk in
              pack_pieces fuel d (next_seq pk) s false (adv ptr len) (sent + len) (bytes - len) r
        end
    end
  else Ret (r, (pk, s)).

Definition last_mark (first : bool) (left : Z) : Z := if 0 =? left then 1 else 0.

(** *** VP8 *)
Definition vp8_desc : descriptor :=
  mk_desc (fun first _ _ => [if first then 16 else 0]) (fun _ => 1) last_mark false false no_check.

Definition rtp_vp8_pack_input (pk : rtp_packer) (s : S) (data : list Z) (bytes ts : Z)
  : outcome (Z * (rtp_packer * S)) :=
  pack_pieces (Z.to_nat bytes) vp8_desc (set_ts pk ts) s true data 0 bytes 0.

(** *** VP9 *)
Definition vp9_desc : descriptor :=
  mk_desc (fun first _ left => [Z.lor (if first then 8 else 0) (if 0 =? left then 4 else 0)]) (fun _ => 1)
    last_mark true false no_check.

Definition rtp_vp9_pack_input (pk : rtp_packer) (s : S) (data : list Z) (bytes ts : Z)
  : outcome (Z * (rtp_packer * S)) :=
  pack_pieces (Z.to_nat bytes) vp9_desc (set_ts pk ts) s true data 0 bytes 0.

(** *** MPEG-4 audio, LATM.  The length of the element stands before its first
    piece; RTP_MP4A_LATM_SKIP_ADTS is not defined in the build. *)
Definition latm_header (bytes : Z) : list Z :=
  replicate (Z.to_nat (bytes / 255)) 255 ++ [bytes mod 255].

Definition latm_desc (bytes : Z) : descriptor :=
  mk_desc (fun first _ _ => if first then latm_header bytes else [])
    (fun first => if first then bytes / 255 + 1 else 0) last_mark false false no_check.

Definition rtp_mp4a_latm_pack_input (pk : rtp_packer) (s : S) (data : list Z) (bytes ts : Z)
  : outcome (Z * (rtp_packer * S)) :=
  c_assert (fresh_timestamp pk ts) ;;;
  let pk := set_ts pk ts in
  let len := Z.quot bytes 255 + 1 in
  if (400 <? len) || (len <? 0) then c_assert false ;;; Ret (- E2BIG, (pk, s))
  else if len =? 0 then Crash OutOfBounds   (* memset(hd, 255, -1) *)
  else pack_pieces (Z.to_nat bytes) (latm_desc bytes) pk s true data 0 bytes 0.

(** *** MPEG-4 audio, generic: every piece has the length of the whole unit *)
Definition generic_desc (size : Z) : descriptor :=
  mk_desc (fun _ _ _ => [0; 16; u8 (Z.shiftr size 5); u8 (Z.shiftl (Z.land size 31) 3)]) (fun _ => 4)
    last_mark false false no_check.

Definition rtp_mpeg4_generic_pack_input (pk : rtp_packer) (s : S) (data : list Z) (bytes ts : Z)
  : outcome (Z * (rtp_packer * S)) :=
  pack_pieces (Z.to_nat bytes) (generic_desc bytes) (set_ts pk ts) s true data 0 bytes 0.

(** *** MPEG-1/2 audio: the marker is on the first packet of all *)
Definition mp3_desc (m : Z) : descriptor :=
  mk_desc (fun _ sent _ => [0; 0; u8 (Z.shiftr sent 8); u8 sent]) (fun _ => 4)
    (fun first _ => if first then m else 0) false true no_check.

Definition rtp_mpeg2es_pack_audio (pk : rtp_packer) (s : S) (audio : list Z) (bytes : Z)
  : outcome (Z * (rtp_packer * S)) :=
  pack_pieces (Z.to_nat bytes) (mp3_desc (hm (rtp (ppkt pk)))) pk s true audio 0 bytes 0.

(** *** MPEG-1/2 video *)
Definition MPEG2VIDEO_PICTURE : Z := 0.
Definition MPEG2VIDEO_SEQUENCE : Z := 179.
Definition MPEG2VIDEO_GROUP : Z := 184.

Record mpeg2_video_header_t := mk_mpeg2 {
  begin_of_sequence : Z; frame_type : Z; temporal_reference : Z; FBV : Z; BFC : Z; FFV : Z; FFC : Z
}.

Definition slice_desc (v : mpeg2_video_header_t) (marker : bool) : descriptor :=
  mk_desc
    (fun first _ left =>
       let begin_of_slice := if first then 1 else 0 in
       let end_of_slice := if left =? 0 then 1 else 0 in
       let bos := if negb (begin_of_sequence v =? 0) && first then 1 else 0 in
       [Z.land (u8 (Z.shiftr (temporal_reference v) 8)) 3; u8 (temporal_reference v);
        u8 (Z.lor (Z.lor (Z.lor (Z.shiftl bos 5) (Z.shiftl begin_of_slice 4)) (Z.shiftl end_of_slice 3))
              (frame_type v));
        u8 (Z.lor (Z.lor (Z.lor (Z.shiftl (FBV v) 7) (Z.shiftl (BFC v) 4)) (Z.shiftl (FFV v) 3)) (FFC v))])
    (fun _ => 4) (fun _ left => if marker && (0 =? left) then 1 else 0) false false no_check.

Definition rtp_mpeg2es_pack_slice (pk : rtp_packer) (s : S) (video : list Z) (bytes : Z)
    (v : mpeg2_video_header_t) (marker : bool) : outcome (Z * (rtp_packer * S)) :=
  pack_pieces (Z.to_nat bytes) (slice_desc v marker) pk s true video 0 bytes 0.

(** A pointer into the stream is its index, [pend] its length. *)
Fixpoint start_code_find (fuel : nat) (data : list Z) (p pend : Z) : outcome Z :=
  if p + 4 <? pend then
    match fuel with
    | O => Crash Diverge
    | Datatypes.S fuel =>
        do b0 <- rd data p ;;
        do b1 <- rd data (p + 1) ;;
        do b2 <- rd data (p + 2) ;;
        if (0 =? b0) && (0 =? b1) && (1 =? b2) then Ret p else start_code_find fuel data (p + 1) pend
    end
  else Ret pend.

Definition mpeg2_start_code_prefix_find (data : list Z) (p pend : Z) : outcome Z :=
  start_code_find (Z.to_nat (pend - p)) data p pend.

Definition mpeg2_video_header_parse (v : mpeg2_video_header_t) (data : list Z) (bytes : Z)
  : outcome mpeg2_video_header_t :=
  if bytes <? 4 then Ret v
  else
    do b3 <- rd data 3 ;;
    if MPEG2VIDEO_PICTURE =? b3 then
      if bytes <? 9 then Ret v
      else
        do b4 <- rd data 4 ;;
        do b5 <- rd data 5 ;;
        do b7 <- rd data 7 ;;
        do b8 <- rd data 8 ;;
        let ft := Z.land (Z.shiftr b5 3) 7 in
        let tr := Z.lor (Z.shiftl b4 2) (Z.shiftr b5 6) in
        let ffv := Z.land (Z.shiftr b7 2) 1 in
        let ffc := Z.lor (Z.shiftl (Z.land b7 3) 1) (Z.land (Z.shiftr b8 7) 1) in
        if 2 =? ft then Ret (mk_mpeg2 (begin_of_sequence v) ft tr (FBV v) (BFC v) ffv ffc)
        else if 3 =? ft then
          Ret (mk_mpeg2 (begin_of_sequence v) ft tr (Z.land (Z.shiftr b8 6) 1) (Z.land (Z.shiftr b8 3) 7) ffv ffc)
        else Ret (mk_mpeg2 (begin_of_sequence v) ft tr (FBV v) (BFC v) (FFV v) (FFC v))
    else if (MPEG2VIDEO_SEQUENCE =? b3) || (MPEG2VIDEO_GROUP =? b3)
    then Ret (mk_mpeg2 1 (frame_type v) (temporal_reference v) (FBV v) (BFC v) (FFV v) (FFC v))
    else Ret v.

(** Slices that fit into one packet together. *)
Fixpoint merge_slices (fuel : nat) (size : Z) (data : list Z) (p pnext pend : Z) (v : mpeg2_video_header_t)
  : outcome (Z * mpeg2_video_header_t) :=
  if pnext - p + 4 + RTP_FIXED_HEADER <? size then
    match fuel with
    | O => Crash Diverge
    | Datatypes.S fuel =>
        do pnn <- mpeg2_start_code_prefix_find data (pnext + 4) pend ;;
        if size <? pnn - p + 4 + RTP_FIXED_HEADER then Ret (pnext, v)
        else
          do v <- mpeg2_video_header_parse v (adv data pnext) (pend - pnext) ;;
          merge_slices fuel size data p pnn pend v
    end
  else Ret (pnext, v).

Fixpoint pack_video_loop (fuel : nat) (pk : rtp_packer) (s : S) (video : list Z) (p pend : Z)
    (v : mpeg2_video_header_t) (r : Z) : outcome (Z * (rtp_packer * S)) :=
  if (p <? pend) && (0 =? r) then
    match fuel with
    | O => Crash Diverge
    | Datatypes.S fuel =>
        let v := mk_mpeg2 0 (frame_type v) (temporal_reference v) (FBV v) (BFC v) (FFV v) (FFC v) in
        do v <- mpeg2_video_header_parse v (adv video p) (pend - p) ;;
        do* (pnext, v) <-
          (if pend - p + 4 + RTP_FIXED_HEADER <=? psize pk then Ret (pend, v)
           else
             do pnext <- mpeg2_start_code_prefix_find video (p + 4) pend ;;
             merge_slices (Z.to_nat pend) (psize pk) video p pnext pend v) ;;
        do* (r, (pk, s)) <- rtp_mpeg2es_pack_slice pk s (adv video p) (pnext - p) v (pnext =? pend) ;;
        pack_video_loop fuel pk s video pnext pend v r
    end
  else Ret (r, (pk, s)).

Definition rtp_mpeg2es_pack_video (pk : rtp_packer) (s : S) (video : list Z) (bytes : Z)
  : outcome (Z * (rtp_packer * S)) :=
  do p <- mpeg2_start_code_prefix_find video 0 bytes ;;
  pack_video_loop (Z.to_nat bytes) pk s video p bytes (mk_mpeg2 0 0 0 0 0 0 0) 0.

Definition rtp_mpeg2es_pack_input (pk : rtp_packer) (s : S) (data : list Z) (bytes ts : Z)
  : outcome (Z * (rtp_packer * S)) :=
  c_assert (fresh_timestamp pk ts) ;;;
  let pk := set_ts pk ts in
  if RTP_PAYLOAD_MP3 =? pt (rtp (ppkt pk)) then rtp_mpeg2es_pack_audio pk s data bytes
  else rtp_mpeg2es_pack_video pk s data bytes.
End Pack.

Definition rtp_mpeg2es_pack_create `{Build} (size ptype sq src : Z) : outcome rtp_packer :=
  c_assert ((RTP_PAYLOAD_MP3 =? ptype) || (RTP_PAYLOAD_MPV =? ptype)) ;;;
  Ret (set_m (pack_create size ptype sq src) (if RTP_PAYLOAD_MP3 =? ptype then 1 else 0)).
