(* ===== verification/PayloadDescProps.v ===== *)
(** The formats with descriptors: their decoders are safe on any packet, and for
    every format that obeys the laws of [FrameFormat] a frame that is packed and
    unpacked arrives as it was. *)

From S2P Require Import Prelude RtpUtil RtpPacket Payload PayloadSpec PayloadHelper HelperProps PayloadDesc.

(** ** Safety *)
Section Safety.
Context `{Alloc} `{Build} {S : Type} (h : rtp_payload_t S).

Definition kept (us : rtp_payload_helper_t * S) : Prop := helper_ok (fst us).

Lemma onframe_kept u s :
  helper_ok u -> post (do* (_, us) <- rtp_payload_onframe h u s ;; Ret us) kept.
Proof. intros Hu. ostep. eapply post_mono; [by apply onframe_safe|]. by intros [r us]. Qed.

Lemma onframe_if_kept (b : bool) u s :
  helper_ok u ->
  post (if b then do* (_, us) <- rtp_payload_onframe h u s ;; Ret us else Ret (u, s)) kept.
Proof. intros Hu. apply post_if; intros _; [by apply onframe_kept|done]. Qed.

Lemma lost_ok u n : helper_ok u -> helper_ok (set_lost u n).
Proof. intros []. by constructor. Qed.

(** What a decoder may rely on behind the parser. *)
Record payload_ok (pkt : rtp_packet_t) : Prop := {
  pk_len : 0 <= payloadlen pkt <= zlen (payload pkt);
  pk_max : payloadlen pkt <= RTP_PAYLOAD_MAX_SIZE;
  pk_bytes : bytes_ok (payload pkt)
}.

Lemma piece_write_safe u pkt p len :
  helper_ok u -> payload_ok pkt -> 0 <= p -> 0 <= len -> p + len <= payloadlen pkt ->
  post (rtp_payload_write u (piece pkt p len)) (fun ru => helper_ok (snd ru)).
Proof.
  intros Hu [] Hp Hl Hle. apply write_safe; [done|cbn; rewrite zlen_adv; lia|cbn; lia].
Qed.

Lemma decode_parsed (u : rtp_payload_helper_t) s packet bytes min max
    (k : rtp_packet_t -> outcome (Z * (rtp_payload_helper_t * S))) :
  helper_ok u -> bytes_ok packet -> bytes <= zlen packet -> bytes <= max -> max <= RTP_PAYLOAD_MAX_SIZE ->
  (forall pkt, payload_ok pkt -> min <= payloadlen pkt <= max -> post (k pkt) decoded) ->
  post (do* (r, pkt) <- rtp_packet_deserialize zero_packet packet bytes ;;
        if negb (r =? 0) || (payloadlen pkt <? min) then Ret (- EINVAL, (u, s)) else k pkt) decoded.
Proof.
  intros Hu Hb Hl Hm Hmax Hk. ostep. eapply post_mono; [by apply deserialize_post|].
  intros [r pkt] [->|[-> Hp]]; [done|]. cbn [negb Z.eqb orb].
  destruct (Z.ltb_spec (payloadlen pkt) min); [done|].
  destruct Hp as [[] _ (off & Eoff & _) ? ? ?]. unfold RTP_FIXED_HEADER in *. apply Hk; [|lia].
  constructor; [lia|lia|]. rewrite Eoff. by apply bytes_ok_adv.
Qed.

Lemma gather_safe u s pkt (start : bool) p :
  helper_ok u -> payload_ok pkt -> 0 <= p -> post (gather h u s pkt start p) decoded.
Proof.
  intros Hu Hp H1. unfold gather. cbv zeta. apply post_if; intros Hc; cbool.
  { ostep. apply post_assert. intros _. ostep. by apply lost_ok. }
  ostep. eapply post_mono; [by apply onframe_if_kept|]. intros [u1 s1] Hu1. ostep.
  eapply post_mono; [apply piece_write_safe; [exact Hu1|done|lia..]|]. intros [r u2] Hu2. ostep.
  eapply post_mono; [by apply onframe_if_kept|]. intros [u3 s3] Hu3. by ostep.
Qed.

Lemma post_rd_any (p : list Z) i (Q : Z -> Prop) : 0 <= i < zlen p -> (forall b, Q b) -> post (rd p i) Q.
Proof. intros Hi HQ. by apply post_rd. Qed.

(** *** VP8 *)
Lemma vp8_descriptor_safe pkt :
  payload_ok pkt -> 1 <= payloadlen pkt -> post (vp8_descriptor pkt) (fun bp => 0 <= snd bp).
Proof.
  intros [] Hl. unfold vp8_descriptor. cbv zeta. ostep. apply post_rd_any; [lia|]. intros b0.
  ostep. eapply (post_mono _ (fun p => 0 <= p)); [|intros p Hp; by ostep].
  apply post_if; intros Hc; [|done]. cbool. ostep. apply post_rd_any; [lia|]. intros b1. ostep.
  eapply (post_mono _ (fun p => 0 <= p)).
  { apply post_if; intros Hc1; [|done]. cbool. ostep. apply post_rd_any; [lia|]. intros b2. ostep.
    case_match; lia. }
  intros p Hp. ostep. repeat case_match; lia.
Qed.

Lemma vp8_safe u s packet bytes :
  helper_ok u -> bytes_ok packet -> bytes <= zlen packet -> bytes <= RTP_PAYLOAD_MAX_SIZE ->
  post (rtp_decode_vp8 h u s packet bytes) decoded.
Proof.
  intros Hu Hb Hl Hm. apply (decode_parsed _ _ _ _ _ RTP_PAYLOAD_MAX_SIZE); [done..|]. intros pkt Hp H1.
  ostep. eapply post_mono; [by apply check_safe|]. intros [u1 s1] Hu1. ostep.
  eapply post_mono; [apply vp8_descriptor_safe; [done|lia]|]. intros [start p] Hs. by apply gather_safe.
Qed.

(** *** LATM: the length of an element is at most 255 for each byte of the packet,
    an [int] for packets up to 8 MB. *)
Lemma latm_length_safe fuel pkt p len :
  payload_ok pkt -> payloadlen pkt <= 2 ^ 23 -> 0 <= p <= payloadlen pkt -> 0 <= len <= 255 * p -> payloadlen pkt - p <= Z.of_nat fuel ->
  post (latm_length fuel pkt p len) (fun pl => p <= fst pl /\ 0 <= snd pl /\ (p < payloadlen pkt -> p < fst pl)).
Proof.
  intros Hp Hmax. pose proof Hp as []. revert p len.
  induction fuel as [|fuel IH]; intros p len H1 H2 H3; cbn [latm_length].
  { zif. apply post_ret. cbn. lia. }
  apply post_if; intros Hc; cbool; [|cbn; lia]. ostep. apply post_rd; [lia|]. intros b Hb.
  assert (is_byte b) by by eapply rd_byte.
  unfold is_byte in *. ostep. apply post_int; [lia|]. apply post_if; intros Hc1; [cbn; lia|].
  eapply post_mono; [apply IH; lia|]. intros [q l]. cbn. lia.
Qed.

Lemma latm_elements_safe fuel u s pkt p :
  helper_ok u -> payload_ok pkt -> payloadlen pkt <= 2 ^ 23 -> 0 <= p -> payloadlen pkt - p <= Z.of_nat fuel ->
  post (latm_elements h fuel u s pkt p) (fun res => helper_ok (fst (snd res))).
Proof.
  intros Hu Hp Hmax. revert u s p Hu. induction fuel as [|fuel IH]; intros u s p Hu H1 H2; cbn [latm_elements]; cbv zeta.
  { zif. done. }
  apply post_if; intros Hc; cbool; [|done]. ostep.
  eapply post_mono; [apply latm_length_safe; try done; lia|]. intros [q len] (Hq & Hl & Hq'). cbn [fst snd] in *.
  apply post_if; intros Hc1; cbool. { ostep. apply post_assert. intros _. ostep. by apply lost_ok. }
  ostep. eapply post_mono; [apply piece_write_safe; [done|done|lia..]|]. intros [r u1] Hu1. ostep.
  eapply post_mono; [by apply onframe_if_kept|]. intros [u2 s2] Hu2. apply IH; [done|lia..].
Qed.

Lemma latm_safe u s packet bytes :
  helper_ok u -> bytes_ok packet -> bytes <= zlen packet -> bytes <= 2 ^ 23 ->
  post (rtp_decode_mp4a_latm h u s packet bytes) decoded.
Proof.
  intros Hu Hb Hl Hm. apply (decode_parsed _ _ _ _ _ (2 ^ 23)); [done..|]. intros pkt Hp H1.
  ostep. eapply post_mono; [by apply check_safe|]. intros [u1 s1] Hu1. ostep.
  eapply (post_mono _ (fun res => helper_ok (fst (snd res)))).
  { apply post_if; intros _; [apply latm_elements_safe; [done|done|lia..]|]. pose proof Hp as []. ostep.
    eapply post_mono; [by apply write_safe|]. intros [r u2] Hu2. ostep.
    eapply post_mono; [by apply onframe_if_kept|]. intros us Hus. by ostep. }
  intros [ok [u2 s2]] Hu2. by destruct ok.
Qed.

(** *** Generic: the headers lie in front of the data. *)
Lemma au_loop_safe n many u s pkt p pau :
  helper_ok u -> payload_ok pkt -> 0 <= p -> p + 2 * Z.of_nat n <= pau ->
  n = O \/ p + 2 <= payloadlen pkt ->
  post (au_loop h n many u s pkt p pau) (fun res => helper_ok (fst (snd res))).
Proof.
  intros Hu Hp. revert u s p pau Hu. induction n as [|n IH]; intros u s p pau Hu H1 H2 H3; cbn [au_loop]; [done|].
  cbv zeta. pose proof Hp as []. ostep. apply post_rd; [lia|]. intros b0 Hb0. ostep. apply post_rd; [lia|].
  intros b1 Hb1. set (size := Z.shiftr _ 3).
  assert (0 <= size).
  { apply Z.shiftr_nonneg, Z.lor_nonneg. split; [apply Z.shiftl_nonneg|apply Z.land_nonneg; by right].
    by apply (rd_byte _ _ _ pk_bytes0 Hb0). }
  apply post_if; intros Hc; cbool. { ostep. apply post_assert. intros _. ostep. by apply lost_ok. }
  ostep. eapply post_mono; [apply piece_write_safe; [done|done|lia..]|]. intros [r u1] Hu1. ostep.
  eapply post_mono; [by apply onframe_if_kept|]. intros [u2 s2] Hu2. apply IH; [done|lia..].
Qed.

Lemma mpeg4_generic_safe u s packet bytes :
  helper_ok u -> bytes_ok packet -> bytes <= zlen packet -> bytes <= RTP_PAYLOAD_MAX_SIZE ->
  post (rtp_decode_mpeg4_generic h u s packet bytes) decoded.
Proof.
  intros Hu Hb Hl Hm. apply (decode_parsed _ _ _ _ _ RTP_PAYLOAD_MAX_SIZE); [done..|]. intros pkt Hp H1. pose proof Hp as [].
  ostep. eapply post_mono; [by apply check_safe|]. intros [u1 s1] Hu1.
  ostep. apply post_rd_any; [lia|]. intros b0. ostep. apply post_rd_any; [lia|]. intros b1. cbv zeta.
  set (n := _ / 8). apply post_if; intros Hc; cbool.
  { ostep. apply post_assert. intros _. ostep. by apply lost_ok. }
  ostep. apply post_assert. intros _. ostep.
  eapply post_mono; [apply au_loop_safe; [done|done|lia..]|]. intros [ok [u2 s2]] Hu2. by destruct ok.
Qed.

(** *** Program streams *)
Lemma ps_safe u s packet bytes :
  helper_ok u -> bytes_ok packet -> bytes <= zlen packet -> bytes <= RTP_PAYLOAD_MAX_SIZE ->
  post (rtp_decode_ps h u s packet bytes) decoded.
Proof.
  intros Hu Hb Hl Hm. apply decode_post; [done..|]. intros pkt Hp Hp'.
  ostep. eapply post_mono; [by apply check_safe|]. intros [u1 s1] Hu1.
  ostep. eapply (post_mono _ (fun _ => True)).
  { apply post_if; intros Hc; [|done]. cbool. ostep. apply post_rdn; [lia..|done]. }
  intros start _. ostep. eapply post_mono; [by apply onframe_if_kept|]. intros [u2 s2] Hu2. ostep.
  eapply post_mono; [by apply write_safe|]. intros [r u3] Hu3. by ostep.
Qed.
End Safety.

(** ** What the packers send: the pieces of a frame behind their descriptors *)
Fixpoint pieces (fuel : nat) (d : descriptor) (size : Z) (first : bool) (sent : Z) (data : list Z)
  : list (Z * list Z) :=
  match fuel with
  | O => []
  | S fuel =>
      let len := piece_len d size first (zlen data) in
      (d_mark d first (zlen data - len), d_hdr d first sent (zlen data - len) ++ take (Z.to_nat len) data)
        :: (if len <? zlen data then pieces fuel d size false (sent + len) (adv data len) else [])
  end.

Record descriptor_ok (d : descriptor) (size : Z) : Prop := {
  do_len : forall first sent left, zlen (d_hdr d first sent left) = d_len d first;
  do_mark : forall first left, 0 <= d_mark d first left < 2;
  do_room : forall first, RTP_FIXED_HEADER + d_len d first < size;
  do_check : forall left, d_check d false left = true
}.

(** The comparison with [<] cuts a frame as the one with [<=] does. *)
Lemma piece_len_min d size first bytes :
  piece_len d size first bytes = Z.min bytes (size - d_len d first - RTP_FIXED_HEADER).
Proof. unfold piece_len. destruct (d_strict d); case_match; cbool; lia. Qed.

Section PackSpec.
Context `{Build}.

Lemma pack_pieces_spec fuel d pk log first data sent :
  packer_ok pk -> descriptor_ok d (psize pk) -> 0 < zlen data -> (length data <= fuel)%nat ->
  (first = true -> d_check d true (zlen data - piece_len d (psize pk) true (zlen data)) = true) ->
  let units := pieces fuel d (psize pk) first sent data in
  exists pk', pack_pieces log_handler fuel d pk log first data sent (zlen data) 0
              = Ret (0, (pk', log ++ emit (rtp (ppkt pk)) units)) /\ moved pk (zlen units) pk'.
Proof.
  intros Hp Hd. revert pk log first data sent Hp Hd.
  induction fuel as [|fuel IH]; intros pk log first data sent Hp Hd Hz Hfuel Hck.
  { unfold zlen in Hz. lia. }
  cbn [pack_pieces pieces]. cbv zeta. zif. cbn [Z.eqb andb].
  assert (Hck' : d_check d first (zlen data - piece_len d (psize pk) first (zlen data)) = true)
    by (destruct first; [by apply Hck|apply Hd]).
  rewrite Hck'. cbn [c_assert orb obind]. clear Hck Hck'.
  pose proof (piece_len_min d (psize pk) first (zlen data)) as Hlen.
  set (len := piece_len _ _ _ _) in *. pose proof (do_room _ _ Hd first).
  assert (Hl : 0 < len <= zlen data) by lia. cbn [h_alloc log_handler].
  set (hd := d_hdr d first sent (zlen data - len)). set (m := d_mark d first (zlen data - len)).
  assert (Hm : 0 <= m < 2) by apply Hd.
  assert (Hhd : d_len d first = zlen hd) by (symmetry; apply Hd). rewrite Hhd in *.
  destruct (piece_buffer pk data len hd m (replicate (Z.to_nat (RTP_FIXED_HEADER + zlen hd + len)) 0))
    as [Eb [buf Es]]; [done|done|lia|rewrite zlen_replicate; lia|].
  rewrite Es in Eb |- *. cbn [obind] in Eb |- *. rewrite Z.eqb_refl in Eb |- *. cbn [negb] in Eb |- *.
  destruct (wrn buf _ _) as [buf1|]; [|done]. cbn [obind] in Eb |- *.
  destruct (rdn data 0 _) as [src|]; [|done]. cbn [obind] in Eb |- *.
  destruct (wrn buf1 _ _) as [buf2|]; [|done]. cbn [obind] in Eb |- *. rewrite Eb.
  cbn [obind h_packet h_free log_handler].
  set (pk1 := next_seq _).
  assert (Hmv : moved pk 1 pk1).
  { destruct (moved_step pk data len m Hp Hm) as [Ho Hs Hst]. unfold pk1. case_match; [|done].
    constructor; [|done|done]. apply next_seq_ok, set_m_ok; [|lia]. by apply set_m_ok, Hm; apply set_data_ok. }
  clearbody pk1. set (ev := (packet_bytes _, _, 0)). clear Eb Es.
  destruct (Z.ltb_spec len (zlen data)) as [Hmore|Hlast].
  - replace (zlen data - len) with (zlen (adv data len)) by (rewrite zlen_adv; lia).
    destruct (IH pk1 (log ++ [ev]) false (adv data len) (sent + len)) as (pk2 & E2 & Hmv2).
    + apply Hmv.
    + by rewrite (mv_size _ _ _ Hmv).
    + rewrite zlen_adv. lia.
    + unfold adv. rewrite length_drop. unfold zlen in *. lia.
    + done.
    + rewrite (mv_size _ _ _ Hmv) in E2, Hmv2. exists pk2. split.
      * etrans; [exact E2|]. rewrite <- app_assoc. cbn [app emit].
        by rewrite (moved_emit _ _ _ _ Hmv).
      * rewrite zlen_cons. by eapply moved_trans.
  - exists pk1. split; [|done]. replace (zlen data - len) with 0 by lia.
    by destruct fuel; cbn [pack_pieces]; change (0 <? 0) with false; rewrite ?andb_false_r.
Qed.
End PackSpec.

(** ** From packer to unpacker *)
Fixpoint recv_frames {U S} (decode : U -> S -> list Z -> Z -> outcome (Z * (U * S)))
    (u : U) (s : S) (ds : list delivery) : outcome (Z * (U * S)) :=
  match ds with
  | [] => Ret (1, (u, s))
  | (bytes, _, _) :: ds =>
      do* (r, st) <- decode u s bytes (zlen bytes) ;;
      if r =? 1 then recv_frames decode (fst st) (snd st) ds else Ret (r, st)
  end.

(** What a format with a descriptor promises: its packer is the loop, and its
    unpacker takes the next piece of a frame to what was gathered of it.
    [ff_fits size n]: frames of [n] bytes pass packets of [size] bytes;
    [ff_whole]: only in one packet. *)
Class FrameFormat `{Alloc} `{Build} := {
  ff_desc : Z -> descriptor;
  ff_input : rtp_packer -> list delivery -> list Z -> Z -> Z -> outcome (Z * (rtp_packer * list delivery));
  ff_decode : rtp_payload_helper_t -> list delivery -> list Z -> Z ->
              outcome (Z * (rtp_payload_helper_t * list delivery));
  ff_fits : Z -> Z -> Prop;
  ff_whole : bool;
  ff_check : forall n left, d_check (ff_desc n) true left = true;
  ff_desc_ok : forall size n, ff_fits size n -> descriptor_ok (ff_desc n) size;
  ff_one : forall size n, ff_fits size n -> ff_whole = true -> piece_len (ff_desc n) size true n = n;
  ff_input_pieces : forall pk s frame ts,
    ff_fits (psize pk) (zlen frame) -> fresh_timestamp pk ts = true ->
    ff_input pk s frame (zlen frame) ts
    = pack_pieces log_handler (Z.to_nat (zlen frame)) (ff_desc (zlen frame)) (set_ts pk ts) s true frame 0
        (zlen frame) 0;
  ff_step : forall size u s sq hd acc chunk rest,
    let frame := acc ++ chunk ++ rest in
    let left := zlen rest in
    let first := bool_decide (acc = []) in
    ff_fits size (zlen frame) -> (ff_whole = true -> acc = [] /\ rest = []) ->
    chunk <> [] -> zlen frame <= RTP_PAYLOAD_MAX_SIZE ->
    gathering u sq (timestamp hd) acc -> plain hd -> u16 (seq hd) = u16 sq ->
    let pl := d_hdr (ff_desc (zlen frame)) first (zlen acc) left ++ chunk in
    let packet := packet_bytes (video_packet hd (d_mark (ff_desc (zlen frame)) first left) pl) in
    exists u', ff_decode u s packet (zlen packet)
               = Ret (1, (u', s ++ if left =? 0 then [(frame, timestamp hd, 0)] else [])) /\
      gathering u' (sq + 1) (timestamp hd) (if left =? 0 then [] else acc ++ chunk)
}.

Lemma gathering_nil u sq ts ts' : gathering u sq ts [] -> gathering u sq ts' [].
Proof. intros []. by constructor; try done; left. Qed.

Lemma gathering_u16 u sq sq' ts acc : gathering u sq ts acc -> u16 sq = u16 sq' -> gathering u sq' ts acc.
Proof.
  intros [? ? ? Hs ? ? ?] E. constructor; try done. destruct Hs as [?|[? ?]]; [by left|right]. split; [done|congruence].
Qed.

Section Frames.
Context `{FrameFormat}.

Lemma recv_pieces fuel size u s sq hd acc data :
  let frame := acc ++ data in
  let units := pieces fuel (ff_desc (zlen frame)) size (bool_decide (acc = [])) (zlen acc) data in
  ff_fits size (zlen frame) -> (ff_whole = true -> acc = []) ->
  0 < zlen data -> (length data <= fuel)%nat -> zlen frame <= RTP_PAYLOAD_MAX_SIZE ->
  gathering u sq (timestamp hd) acc -> plain hd -> u16 (seq hd) = u16 sq ->
  exists u', recv_frames ff_decode u s (emit hd units) = Ret (1, (u', s ++ [(frame, timestamp hd, 0)])) /\
    gathering u' (sq + zlen units) (timestamp hd) [].
Proof.
  cbv zeta. intros Hfits. pose proof (ff_desc_ok _ _ Hfits) as Hd.
  revert u s sq hd acc data Hfits Hd. induction fuel as [|fuel IH]; intros u s sq hd acc data Hfits Hd Hw Hz Hfuel Hmax Hu Hh Hs.
  { unfold zlen in Hz. lia. }
  cbn [pieces]. set (frame := acc ++ data) in *. set (first := bool_decide _) in *.
  pose proof (piece_len_min (ff_desc (zlen frame)) size first (zlen data)) as Hlen.
  set (len := piece_len _ _ _ _) in *. pose proof (do_room _ _ Hd first).
  assert (Hl : 0 < len <= zlen data) by lia.
  set (chunk := take (Z.to_nat len) data). set (rest := adv data len).
  assert (Ed : data = chunk ++ rest) by (symmetry; apply take_drop).
  assert (Ec : zlen chunk = len) by (unfold chunk; rewrite zlen_take; lia).
  assert (Er : zlen rest = zlen data - len) by (unfold rest; rewrite zlen_adv; lia).
  assert (Ef : frame = acc ++ chunk ++ rest) by by rewrite <- Ed.
  assert (Hone : ff_whole = true -> len = zlen data).
  { intros Hw'. specialize (Hw Hw'). unfold len, first, frame in *. rewrite Hw in *.
    rewrite bool_decide_eq_true_2 by done. by apply (ff_one size). }
  destruct (ff_step size u s sq hd acc chunk rest) as (u1 & E1 & Hu1); rewrite <- ?Ef; try done.
  { intros Hw'. split; [by apply Hw|]. apply Hone in Hw'. destruct rest as [|b rest']; [done|].
    rewrite zlen_cons in Er. pose proof (zlen_nonneg rest'). lia. }
  { intros E. rewrite E in Ec. change (zlen []) with 0 in Ec. lia. }
  rewrite <- Ef in E1. fold first in E1. rewrite Er in E1, Hu1. cbn [emit recv_frames].
  rewrite E1. cbn [obind fst snd Z.eqb Pos.eqb].
  destruct (Z.ltb_spec len (zlen data)) as [Hmore|Hlast].
  - rewrite (proj2 (Z.eqb_neq (zlen data - len) 0)) in Hu1 |- * by lia. rewrite app_nil_r.
    assert (Hf1 : acc ++ chunk <> []) by (intros E; apply app_eq_nil in E as [_ E]; rewrite E in Ec; change (zlen []) with 0 in Ec; lia).
    specialize (IH u1 s (sq + 1) (advance hd 1) (acc ++ chunk) rest).
    rewrite <- app_assoc, <- Ed in IH. fold frame in IH.
    rewrite bool_decide_eq_false_2, zlen_app, Ec in IH by done.
    destruct IH as (u2 & E2 & Hu2); try done.
    + intros Hw'. apply Hone in Hw'. lia.
    + lia.
    + unfold rest, adv. rewrite length_drop. unfold zlen in *. lia.
    + by apply advance_plain.
    + cbn. unfold u16 in *. lia.
    + exists u2. split; [exact E2|]. rewrite zlen_cons, Z.add_assoc. exact Hu2.
  - rewrite (proj2 (Z.eqb_eq (zlen data - len) 0)) in Hu1 |- * by lia. exists u1. by split.
Qed.

End Frames.

(** ** The formats *)
Section Steps.
Context `{Alloc} `{Build}.
Hypothesis grants : forall n, alloc_ok n = true.
Implicit Types (u : rtp_payload_helper_t) (s : list delivery).

(** The assembler between the checks of a packet of timestamp [ts]. *)
Definition inside u (sq ts : Z) (acc : list Z) : Prop :=
  gathering u sq ts acc /\ hflags u = 0 /\ hts u = ts.

Lemma inside_nil u sq ts : (forall ts', gathering u sq ts' []) -> hflags u = 0 -> hts u = ts -> inside u sq ts [].
Proof. intros Hu Ef Et. split; [apply Hu|by split]. Qed.

Lemma piece_inside u sq acc pkt pre chunk :
  inside u sq (timestamp (rtp pkt)) acc -> payload pkt = pre ++ chunk ->
  zlen (acc ++ chunk) <= RTP_PAYLOAD_MAX_SIZE ->
  exists u', rtp_payload_write u (piece pkt (zlen pre) (zlen chunk)) = Ret (0, u') /\
    inside u' sq (timestamp (rtp pkt)) (acc ++ chunk).
Proof.
  intros (Hu & Ef & Et) Ep Hm.
  assert (Ec : payload (piece pkt (zlen pre) (zlen chunk)) = chunk).
  { cbn. rewrite Ep. unfold adv, zlen. rewrite Nat2Z.id. apply drop_app_length. }
  destruct (write_gathering grants u sq acc (piece pkt (zlen pre) (zlen chunk)) Hu Ef)
    as (u' & E & Ef' & Et' & Hu'); [by rewrite Ec|by rewrite Ec|done|].
  rewrite Ec in Hu'. by exists u'.
Qed.

Lemma end_inside u s sq acc pkt :
  inside u sq (timestamp (rtp pkt)) acc -> acc <> [] ->
  exists u', end_at_marker log_handler u s pkt
    = Ret (u', s ++ if hm (rtp pkt) =? 0 then [] else [(acc, timestamp (rtp pkt), 0)]) /\
    inside u' sq (timestamp (rtp pkt)) (if hm (rtp pkt) =? 0 then acc else []).
Proof.
  intros (Hu & Ef & Et) Ha. unfold end_at_marker. destruct (Z.eqb_spec (hm (rtp pkt)) 0); cbn [negb].
  { exists u. by rewrite app_nil_r. }
  destruct (onframe_gathering u s _ _ _ Hu) as (u' & -> & Hu' & Ef' & Et'); [by right|]. cbn [obind].
  rewrite bool_decide_eq_false_2 by done. exists u'. split; [done|]. apply inside_nil; [done|congruence..].
Qed.

Lemma start_inside (start : bool) u s sq ts acc :
  inside u sq ts acc -> (start = true -> acc = []) ->
  exists u', (if start then do* (_, us) <- rtp_payload_onframe log_handler u s ;; Ret us else Ret (u, s)) = Ret (u', s) /\
    inside u' sq ts acc.
Proof.
  intros Hi Hs. destruct start; [|by exists u]. rewrite Hs in * by done. destruct Hi as (Hu & Ef & Et).
  destruct (onframe_gathering u s _ _ _ Hu) as (u' & -> & Hu' & Ef' & Et'); [by left|]. cbn [obind].
  rewrite bool_decide_eq_true_2, app_nil_r by done. exists u'. split; [done|]. apply inside_nil; [done|congruence..].
Qed.

Lemma gather_inside u s sq acc pkt pre chunk start :
  inside u sq (timestamp (rtp pkt)) acc -> payload pkt = pre ++ chunk -> payloadlen pkt = zlen (pre ++ chunk) ->
  chunk <> [] -> zlen (acc ++ chunk) <= RTP_PAYLOAD_MAX_SIZE -> (start = true -> acc = []) ->
  exists u', gather log_handler u s pkt start (zlen pre)
    = Ret (1, (u', s ++ if hm (rtp pkt) =? 0 then [] else [(acc ++ chunk, timestamp (rtp pkt), 0)])) /\
    inside u' sq (timestamp (rtp pkt)) (if hm (rtp pkt) =? 0 then acc ++ chunk else []).
Proof.
  intros Hi Ep El Hc Hm Hs. unfold gather. cbv zeta. rewrite El, zlen_app.
  assert (0 < zlen chunk) by (destruct chunk as [|b chunk]; [done|]; rewrite zlen_cons; pose proof (zlen_nonneg chunk); lia).
  pose proof (zlen_nonneg pre). zif.
  destruct (start_inside start u s _ _ _ Hi Hs) as (u1 & -> & Hi1). cbn [obind].
  replace (zlen pre + zlen chunk - zlen pre) with (zlen chunk) by lia.
  destruct (piece_inside u1 sq acc pkt pre chunk Hi1 Ep Hm) as (u2 & -> & Hi2). cbn [obind].
  destruct (end_inside u2 s _ _ _ Hi2) as (u3 & -> & Hi3).
  { intros E. by apply app_eq_nil in E as [_ ->]. }
  cbn [obind]. by exists u3.
Qed.

(** The packet of a piece, parsed and checked. *)
Lemma checked u s sq acc hd m pl :
  gathering u sq (timestamp hd) acc -> plain hd -> u16 (seq hd) = u16 sq -> 0 <= m < 2 ->
  let packet := packet_bytes (video_packet hd m pl) in
  exists pkt u', rtp_packet_deserialize zero_packet packet (zlen packet) = Ret (0, pkt) /\
    rtp_payload_check log_handler u s pkt = Ret (u', s) /\ inside u' (sq + 1) (timestamp (rtp pkt)) acc /\
    payload pkt = pl /\ payloadlen pkt = zlen pl /\ hm (rtp pkt) = m /\ timestamp (rtp pkt) = timestamp hd.
Proof.
  intros Hu Hh Hs Hm packet. destruct (deserialize_video zero_packet hd m pl Hh Hm) as (pkt & E & Er & Ep & El).
  destruct (check_gathering u s sq acc pkt) as (u' & Ec & Hu' & Ef & Et); [by rewrite Er..|].
  exists pkt, u'. rewrite Er. split_and!; try done; by rewrite Er in *.
Qed.

Lemma last_mark_range first left : 0 <= last_mark first left < 2.
Proof. unfold last_mark. case_match; lia. Qed.

Lemma last_mark_zero first left : (last_mark first left =? 0) = negb (left =? 0).
Proof. unfold last_mark. destruct (Z.eqb_spec 0 left), (Z.eqb_spec left 0); done || lia. Qed.

Lemma last_piece (acc chunk rest : list Z) (ts : Z) :
  (if zlen rest =? 0 then [(acc ++ chunk ++ rest, ts, 0)] else []) =
  if zlen rest =? 0 then [(acc ++ chunk, ts, 0)] else [].
Proof.
  destruct rest as [|b rest]; [by rewrite app_nil_r|]. rewrite zlen_cons. pose proof (zlen_nonneg rest).
  by rewrite (proj2 (Z.eqb_neq _ _)) by lia.
Qed.

(** A step of VP8 or VP9, whose descriptor is one byte. *)
Lemma one_byte_step (descriptor_of : rtp_packet_t -> outcome (bool * Z)) u s sq hd acc b chunk rest first :
  let left := zlen rest in
  let decode u s packet bytes :=
    do* (r, pkt) <- rtp_packet_deserialize zero_packet packet bytes ;;
    if negb (r =? 0) || (payloadlen pkt <? 1) then Ret (- EINVAL, (u, s))
    else
      do* (u, s) <- rtp_payload_check log_handler u s pkt ;;
      do* (start, p) <- descriptor_of pkt ;;
      gather log_handler u s pkt start p in
  (forall pkt, payload pkt = [b] ++ chunk -> payloadlen pkt = zlen ([b] ++ chunk) ->
     exists start, descriptor_of pkt = Ret (start, 1) /\ (start = true -> acc = [])) ->
  chunk <> [] -> zlen (acc ++ chunk ++ rest) <= RTP_PAYLOAD_MAX_SIZE ->
  gathering u sq (timestamp hd) acc -> plain hd -> u16 (seq hd) = u16 sq ->
  let packet := packet_bytes (video_packet hd (last_mark first left) ([b] ++ chunk)) in
  exists u', decode u s packet (zlen packet)
             = Ret (1, (u', s ++ if left =? 0 then [(acc ++ chunk ++ rest, timestamp hd, 0)] else [])) /\
    gathering u' (sq + 1) (timestamp hd) (if left =? 0 then [] else acc ++ chunk).
Proof.
  intros left decode Hd Hc Hm Hu Hh Hs packet. subst left decode packet. cbv beta.
  rewrite last_piece. assert (Hz : zlen (acc ++ chunk) <= RTP_PAYLOAD_MAX_SIZE).
  { rewrite app_assoc, zlen_app in Hm. pose proof (zlen_nonneg rest). lia. }
  destruct (checked u s sq acc hd _ ([b] ++ chunk) Hu Hh Hs (last_mark_range first (zlen rest)))
    as (pkt & u1 & -> & Ec & Hi & Ep & El & Emk & Et).
  cbn [obind]. rewrite El, zlen_app. change (zlen [b]) with 1. pose proof (zlen_nonneg chunk). zif.
  cbn [Z.eqb negb orb]. rewrite Ec. cbn [obind]. destruct (Hd pkt Ep El) as (start & -> & Hstart). cbn [obind].
  destruct (gather_inside u1 s _ acc pkt [b] chunk start Hi Ep El Hc Hz Hstart) as (u2 & E & Hi2).
  change (zlen [b]) with 1 in E. rewrite E, Emk, Et in *. rewrite last_mark_zero in *. exists u2.
  destruct (zlen rest =? 0); cbn [negb] in *; split; try done; apply Hi2.
Qed.
End Steps.

Section Instances.
Context `{Alloc} `{Build}.
Hypothesis grants : forall n, alloc_ok n = true.

Lemma one_byte_desc_ok hdr size strict :
  RTP_FIXED_HEADER + 1 < size ->
  descriptor_ok (mk_desc (fun first _ left => [hdr first left]) (fun _ => 1) last_mark strict false no_check) size.
Proof. intros Hs. constructor; [done|apply last_mark_range|done|done]. Qed.

Definition vp8_format : FrameFormat.
Proof.
  refine {| ff_desc := fun _ => vp8_desc; ff_input := rtp_vp8_pack_input log_handler;
            ff_decode := rtp_decode_vp8 log_handler; ff_whole := false;
            ff_fits := fun size _ => RTP_FIXED_HEADER + 1 < size |}.
  - done.
  - intros size n. apply (one_byte_desc_ok (fun first _ => if first : bool then 16 else 0)).
  - done.
  - done.
  - intros. apply (one_byte_step grants vp8_descriptor); try done. intros pkt Ep El. exists first.
    split; [|by intros ?%bool_decide_eq_true].
    unfold vp8_descriptor. rewrite Ep. by destruct first.
Defined.

Definition vp9_format : FrameFormat.
Proof.
  refine {| ff_desc := fun _ => vp9_desc; ff_input := rtp_vp9_pack_input log_handler;
            ff_decode := rtp_decode_vp9 log_handler; ff_whole := false;
            ff_fits := fun size _ => RTP_FIXED_HEADER + 1 < size |}.
  - done.
  - intros size n.
    apply (one_byte_desc_ok (fun first left => Z.lor (if first : bool then 8 else 0) (if 0 =? left then 4 else 0))).
  - done.
  - done.
  - intros. apply (one_byte_step grants vp9_descriptor); try done. intros pkt Ep El. exists false.
    split; [|done]. unfold vp9_descriptor. rewrite Ep. by destruct first, (0 =? left).
Defined.

(** The length of an element, read back. *)
Lemma latm_length_spec fuel pkt pre k r rest len :
  payload pkt = pre ++ replicate k 255 ++ [r] ++ rest -> payloadlen pkt = zlen (payload pkt) ->
  0 <= r < 255 -> 0 <= len -> len + 255 * Z.of_nat k + r < 2 ^ 31 -> (k < fuel)%nat ->
  latm_length fuel pkt (zlen pre) len = Ret (zlen pre + Z.of_nat k + 1, len + 255 * Z.of_nat k + r).
Proof.
  intros Ep El Hr Hl Hm Hf. rewrite Ep, !zlen_app, zlen_replicate in El.
  pose proof (zlen_nonneg rest). change (zlen [r]) with 1 in El.
  revert pre len fuel Ep El Hl Hm Hf. induction k as [|k IH]; intros pre len fuel Ep El Hl Hm Hf;
    (destruct fuel as [|fuel]; [lia|]); cbn [latm_length]; zif; cbn [replicate app] in Ep; rewrite Ep.
  - rewrite rd_last by done. cbn [obind]. unfold c_int. do 2 zif. cbn [andb obind]. zif. cbn [negb].
    do 2 f_equal; lia.
  - rewrite rd_last by done. cbn [obind]. unfold c_int. do 2 zif. cbn [andb obind]. zif. cbn [negb].
    specialize (IH (pre ++ [255]) (len + 255) fuel). rewrite zlen_app in IH. change (zlen [255]) with 1 in IH.
    rewrite IH; [do 2 f_equal; lia|by rewrite Ep, <- app_assoc|lia..].
Qed.

Lemma latm_elements_end fuel u (s : list delivery) pkt p :
  payloadlen pkt <= p -> latm_elements log_handler fuel u s pkt p = Ret (true, (u, s)).
Proof. intros Hp. destruct fuel; cbn [latm_elements]; cbv zeta; by zif. Qed.

Definition latm_format : FrameFormat.
Proof.
  refine {| ff_desc := latm_desc; ff_input := rtp_mp4a_latm_pack_input log_handler;
            ff_decode := rtp_decode_mp4a_latm log_handler; ff_whole := true;
            ff_fits := fun size n => 3 <= n < 255 * 400 /\ RTP_FIXED_HEADER + (n / 255 + 1) + n <= size |}.
  - done.
  - intros size n [Hn Hs]. constructor.
    + intros [] sent left; [|done]. cbn. unfold latm_header. rewrite zlen_app, zlen_replicate.
      change (zlen [_]) with 1. lia.
    + apply last_mark_range.
    + intros []; cbn; lia.
    + done.
  - intros size n [Hn Hs] _. rewrite piece_len_min. cbn. lia.
  - intros pk s frame ts [Hn Hs] Hfr. unfold rtp_mp4a_latm_pack_input. rewrite Hfr. cbn [c_assert orb obind].
    cbv zeta. rewrite Z.quot_div_nonneg by lia. do 3 zif. done.
  - intros size u s sq hd acc chunk rest frame left first [Hn Hsz] Hw Hc Hm Hu Hh Hs.
    destruct Hw as [-> ->]; [done|]. subst frame left first. rewrite app_nil_r in *. cbn [app] in *.
    change (zlen []) with 0. rewrite bool_decide_eq_true_2 by done. cbn [d_hdr latm_desc d_mark last_mark Z.eqb].
    set (hdr := latm_header (zlen chunk)). set (packet := packet_bytes _).
    destruct (checked u s sq [] hd 1 (hdr ++ chunk) Hu Hh Hs) as (pkt & u1 & E & Ec & Hi & Ep & El & Emk & Et); [done|].
    assert (Hhdr : zlen hdr = zlen chunk / 255 + 1).
    { unfold hdr, latm_header. rewrite zlen_app, zlen_replicate. change (zlen [_]) with 1. lia. }
    unfold rtp_decode_mp4a_latm. fold packet in E. rewrite E. cbn [obind]. rewrite El, zlen_app, Hhdr.
    zif. cbn [Z.eqb negb orb]. rewrite Ec. cbn [obind]. destruct (Hi) as (Hg & Ef & Ets).
    rewrite (ga_size _ _ _ _ Hg). change (zlen (@nil Z)) with 0. cbv iota.
    set (n := Z.to_nat (zlen chunk / 255 + 1 + zlen chunk)). 
    replace n with (S (pred n)) by lia. cbn [latm_elements]. cbv zeta. rewrite El, zlen_app, Hhdr. zif.
    pose proof (latm_length_spec (Z.to_nat (zlen chunk / 255 + 1 + zlen chunk)) pkt [] (Z.to_nat (zlen chunk / 255))
      (zlen chunk mod 255) chunk 0) as Hll. change (zlen []) with 0 in Hll.
    rewrite Hll; [|rewrite Ep; unfold hdr, latm_header; by rewrite <- app_assoc|by rewrite El, Ep|lia..].
    cbn [obind]. replace (0 + Z.of_nat (Z.to_nat (zlen chunk / 255)) + 1) with (zlen hdr) by lia.
    replace (0 + 255 * Z.of_nat (Z.to_nat (zlen chunk / 255)) + zlen chunk mod 255) with (zlen chunk) by lia.
    rewrite <- Hhdr. zif.
    destruct (piece_inside grants u1 _ [] pkt hdr chunk Hi Ep Hm) as (u2 & -> & Hi2). cbn [obind app] in *.
    rewrite Emk. cbn [Z.eqb negb]. rewrite orb_true_r. destruct Hi2 as (Hg2 & Ef2 & Et2).
    destruct (onframe_gathering u2 s _ _ _ Hg2) as (u3 & -> & Hg3 & _); [by right|]. cbn [obind].
    rewrite bool_decide_eq_false_2, Et by done.
    rewrite latm_elements_end by (rewrite El, zlen_app; lia). cbn [obind].
    rewrite (ga_lost _ _ _ _ (Hg3 0)). eexists. split; [done|apply Hg3].
Defined.

(** The 13 bits of the size in the header of an access unit. *)
Lemma au_size_spec n :
  0 <= n < 8192 ->
  Z.shiftr (Z.lor (Z.shiftl (u8 (Z.shiftr n 5)) 8) (Z.land (u8 (Z.shiftl (Z.land n 31) 3)) 248)) 3 = n.
Proof.
  intros Hn. change 31 with (2 ^ 5 - 1). rewrite (Z.shiftr_div_pow2 n), (land_ones_mod n 5), !Z.shiftl_mul_pow2 by lia.
  set (lo := u8 (n mod 2 ^ 5 * 2 ^ 3)).
  assert (Hlo : lo = n mod 32 * 8) by (unfold lo, u8; lia).
  assert (Z.land lo 248 = lo) as ->.
  { assert (Hb : 0 <= lo < 256 /\ lo mod 8 = 0) by lia. destruct Hb as [Hb Hm]. clear Hlo. revert Hm Hb.
    clearbody lo. intros Hm Hb. apply Z.eqb_eq.
    assert (Hc : (if lo mod 8 =? 0 then Z.land lo 248 =? lo else true) = true).
    { revert lo Hb Hm. intros lo Hb _. revert lo Hb.
      by apply (byte_cases (fun lo => if lo mod 8 =? 0 then Z.land lo 248 =? lo else true)). }
    by rewrite Hm in Hc. }
  rewrite (lor_add _ _ 8); [|lia|apply Z.mod_mul; lia|lia].
  rewrite Z.shiftr_div_pow2 by lia. unfold u8. lia.
Qed.

Definition generic_format : FrameFormat.
Proof.
  refine {| ff_desc := generic_desc; ff_input := rtp_mpeg4_generic_pack_input log_handler;
            ff_decode := rtp_decode_mpeg4_generic log_handler; ff_whole := true;
            ff_fits := fun size n => 0 < n < 8192 /\ RTP_FIXED_HEADER + 4 + n <= size |}.
  - done.
  - intros size n [Hn Hs]. constructor; [done|apply last_mark_range| |done]. intros []; cbn; lia.
  - intros size n [Hn Hs] _. rewrite piece_len_min. cbn. lia.
  - done.
  - intros size u s sq hd acc chunk rest frame left first [Hn Hsz] Hw Hc Hm Hu Hh Hs.
    destruct Hw as [-> ->]; [done|]. subst frame left first. rewrite app_nil_r in *. cbn [app] in *.
    change (zlen []) with 0. rewrite bool_decide_eq_true_2 by done. cbn [d_hdr generic_desc d_mark last_mark Z.eqb].
    set (b2 := u8 _). set (b3 := u8 _). set (hdr := [0; 16; b2; b3]). set (packet := packet_bytes _).
    destruct (checked u s sq [] hd 1 (hdr ++ chunk) Hu Hh Hs) as (pkt & u1 & E & Ec & Hi & Ep & El & Emk & Et); [done|].
    unfold rtp_decode_mpeg4_generic. fold packet in E. rewrite E. cbn [obind]. rewrite El, zlen_app.
    change (zlen hdr) with 4. zif. cbn [Z.eqb negb orb]. rewrite Ec. cbn [obind]. rewrite Ep.
    change (rd (hdr ++ chunk) 0) with (Ret 0). change (rd (hdr ++ chunk) 1) with (Ret 16). cbn [obind].
    change ((Z.shiftl 0 8 + 16 + 7) / 8) with 2. cbv zeta. zif. change (2 <? 2) with false. cbn [orb].
    change (Z.to_nat (2 / 2)) with 1%nat. change (1 <? 2 / 2) with false. change (2 mod 2) with 0.
    cbn [c_assert orb obind au_loop]. rewrite Ep, El, zlen_app. change (zlen hdr) with 4.
    change (rd (hdr ++ chunk) 2) with (Ret b2). change (rd (hdr ++ chunk) (2 + 1)) with (Ret b3). cbn [obind].
    unfold b2, b3. rewrite au_size_spec by lia. change (2 + 2) with 4. zif.
    change (piece pkt 4) with (piece pkt (zlen hdr)).
    destruct (piece_inside grants u1 _ [] pkt hdr chunk Hi Ep Hm) as (u2 & -> & Hi2). cbn [obind app] in *.
    rewrite Emk. cbn [Z.eqb negb]. destruct Hi2 as (Hg2 & Ef2 & Et2).
    destruct (onframe_gathering u2 s _ _ _ Hg2) as (u3 & -> & Hg3 & _); [by right|]. cbn [obind].
    rewrite bool_decide_eq_false_2, Et by done.
    rewrite (ga_lost _ _ _ _ (Hg3 0)).
    eexists. split; [done|apply Hg3].
Defined.
End Instances.

