(* ===== verification/H266.v ===== *)
(** H.266 over RTP (lib/librtp/payload/rtp-h266-pack.c and rtp-h266-unpack.c).
    The state of the unpacker has the fields of the one for H.265. *)

From S2P Require Import Prelude RtpUtil RtpPacket AnnexB Payload H265 PayloadHelper PayloadDesc.

Definition H266_TYPE (v : Z) : Z := Z.land (Z.shiftr v 3) 31.
Definition H266_RTP_AP : Z := 28.
Definition H266_RTP_FU : Z := 29.
Definition H266_NAL_OPI : Z := 12.
Definition FU_MARK : Z := 32.

(** ** Packing *)
Module Pack.
(** The fragments of a unit of type [ty] behind the header [nalu_header]. *)
Definition h266_fu_header (ty mark : Z) (first : bool) (left : Z) : Z :=
  let fu_header := if first then Z.lor ty FU_START else ty in
  if 0 =? left then Z.lor (Z.lor FU_END (if mark =? 0 then 0 else FU_MARK)) (Z.land fu_header 31) else fu_header.

Definition h266_fu_desc (nalu_header ty mark : Z) : descriptor :=
  mk_desc
    (fun first _ left =>
       [u8 (Z.shiftr nalu_header 8); Z.land nalu_header 255; h266_fu_header ty mark first left])
    (fun _ => 3) (fun _ left => if 0 =? left then mark else 0) false false
    (fun first left => negb (first && (0 =? left))).

Section Ops.
Context `{Build} {S : Type} (h : rtp_payload_t S).

Definition rtp_h266_pack_nalu (pk : rtp_packer) (s : S) (nalu : list Z) (bytes mark : Z)
  : outcome (Z * (rtp_packer * S)) :=
  pack_single_at h 1 pk s nalu bytes mark (fun b => H266_TYPE b <? H266_NAL_OPI).

Definition rtp_h266_pack_fu (pk : rtp_packer) (s : S) (ptr : list Z) (bytes mark : Z)
  : outcome (Z * (rtp_packer * S)) :=
  if bytes <? 3 then Ret (-1, (pk, s))
  else
    do b0 <- rd ptr 0 ;;
    do b1 <- rd ptr 1 ;;
    let nalu_header := Z.lor (Z.shiftl b0 8) (Z.lor (Z.land b1 7) (Z.shiftl H266_RTP_FU 3)) in
    let ty := H266_TYPE b1 in
    let ptr := adv ptr 2 in
    let bytes := bytes - 2 in
    c_assert (0 <? bytes) ;;;
    pack_pieces h (Z.to_nat bytes) (h266_fu_desc nalu_header ty mark) pk s true ptr 0 bytes 0.

Definition rtp_h266_pack_handler (st : rtp_packer * S) (nalu : list Z) (bytes last : Z)
  : outcome (Z * (rtp_packer * S)) :=
  let '(pk, s) := st in
  let mark := if last =? 0 then 0 else 1 in
  if bytes + RTP_FIXED_HEADER <=? psize pk then rtp_h266_pack_nalu pk s nalu bytes mark
  else rtp_h266_pack_fu pk s nalu bytes mark.

Definition rtp_h266_pack_input (pk : rtp_packer) (s : S) (h266 : list Z) (bytes ts : Z)
  : outcome (Z * (rtp_packer * S)) :=
  let pk := set_ts pk ts in
  rtp_h264_annexb_nalu rtp_h266_pack_handler h266 bytes (pk, s).
End Ops.
End Pack.

(** ** Unpacking *)
Module Unpack.
Import H265.Unpack.

Definition rtp_decode_h266_t : Type := rtp_decode_h265_t.
Definition rtp_h266_unpack_create : rtp_decode_h266_t := mk_decode 0 0 [] 0 0 (-1) false.

Section Ops.
Context `{Alloc} `{Build} {S : Type} (h : rtp_payload_t S).

Fixpoint h266_ap_loop (fuel : nat) (u : rtp_decode_h266_t) (s : S) (p : list Z)
    (bytes n ts r : Z) : outcome (Z * (rtp_decode_h266_t * S)) :=
  if (0 =? r) && (n <? bytes) then
    match fuel with
    | O => Crash Diverge
    | Datatypes.S fuel =>
        let bytes := bytes - (n - 2) in
        let p := adv p (n - 2) in
        do len <- nbo_r16 p ;;
        if (bytes <? len + 2) || (len <? 3) then
          c_assert false ;;;
          Ret (- EINVAL, (set_flags u RTP_PAYLOAD_FLAG_PACKET_LOST 0, s))
        else
          do b <- rd p 3 ;;
          c_assert ((0 <=? H266_TYPE b) && (H266_TYPE b <? 31)) ;;;
          do data <- rdn p 2 len ;;
          let '(r, (u, s)) := deliver h u s data ts in
          h266_ap_loop fuel u s (adv p (len + 2)) (bytes - (len + 2))
            (2 + (if using_donl_field u then 1 else 0)) ts r
    end
  else Ret (if 0 =? r then 1 else r, (u, s)).

Definition rtp_h266_unpack_ap (u : rtp_decode_h266_t) (s : S) (p : list Z) (bytes ts : Z)
  : outcome (Z * (rtp_decode_h266_t * S)) :=
  h266_ap_loop (Z.to_nat bytes) u s (adv p 2) (bytes - 2)
    (2 + (if using_donl_field u then 2 else 0)) ts 0.

(** The second half of [rtp_h266_unpack_fu]. *)
Definition h266_fu_append (u : rtp_decode_h266_t) (s : S) (p : list Z) (bytes n ts fuheader : Z)
  : outcome (Z * (rtp_decode_h266_t * S)) :=
  let u := set_dts u ts in
  do u <-
    (if n <? bytes then
       c_assert (size u + bytes - n <=? capacity u) ;;;
       do src <- rdn p n (bytes - n) ;;
       do buf <- wrn (ptr u) (size u) src ;;
       Ret (set_buf u buf (size u + (bytes - n)) (capacity u))
     else Ret u) ;;
  if negb (Z.land fuheader FU_END =? 0) then
    do unit <- rdn (ptr u) 0 (size u) ;;
    let '(r, (u, s)) := deliver h u s unit ts in
    Ret (if 0 =? r then 1 else r, (u, s))
  else Ret (1, (u, s)).

Definition rtp_h266_unpack_fu (u : rtp_decode_h266_t) (s : S) (p : list Z) (bytes ts : Z)
  : outcome (Z * (rtp_decode_h266_t * S)) :=
  let n := 1 + (if using_donl_field u then 4 else 2) in
  if (bytes <? n) || (RTP_PAYLOAD_MAX_SIZE <? size u + bytes - n) then
    c_assert false ;;;
    Ret (- EINVAL, (u, s))
  else
    let '(ok, u) := fu_grow u bytes n in
    if negb ok then Ret (- ENOMEM, (u, s))
    else
      do fuheader <- rd p 2 ;;
      if negb (Z.land fuheader FU_START =? 0) then
        c_assert (2 <? capacity u) ;;;
        do b0 <- rd p 0 ;;
        do b1 <- rd p 1 ;;
        let t := Z.lor (u8 (Z.shiftl (Z.land fuheader 31) 3)) (Z.land b1 7) in
        do buf <- wrn (ptr u) 0 [b0; t] ;;
        c_assert ((0 <=? H266_TYPE t) && (H266_TYPE t <=? 31)) ;;;
        h266_fu_append (set_buf u buf 2 (capacity u)) s p bytes n ts fuheader
      else if 0 =? size u then
        Ret (0, (set_flags u RTP_PAYLOAD_FLAG_PACKET_LOST (size u), s))
      else
        c_assert (0 <? size u) ;;;
        h266_fu_append u s p bytes n ts fuheader.

(** The switch of [rtp_h266_unpack_input].  The type is taken from the first byte,
    as written; the second holds it. *)
Definition h266_unpack_payload (u : rtp_decode_h266_t) (s : S) (p : list Z) (len ts : Z)
  : outcome (Z * (rtp_decode_h266_t * S)) :=
  do b0 <- rd p 0 ;;
  let nal := H266_TYPE b0 in
  if 31 <? nal then Ret (0, (u, s))
  else if nal =? H266_RTP_AP then rtp_h266_unpack_ap u s p len ts
  else if nal =? H266_RTP_FU then rtp_h266_unpack_fu u s p len ts
  else
    do unit <- rdn p 0 len ;;
    let '(r, (u, s)) := deliver h u s unit ts in
    Ret (if 0 =? r then 1 else r, (u, s)).

Definition rtp_h266_unpack_input (u : rtp_decode_h266_t) (s : S) (packet : list Z) (bytes : Z)
  : outcome (Z * (rtp_decode_h266_t * S)) :=
  do* (r, pkt) <- rtp_packet_deserialize zero_packet packet bytes ;;
  if negb (r =? 0) || (payloadlen pkt <? (if using_donl_field u then 5 else 3)) then
    Ret (- EINVAL, (u, s))
  else
    let sq := u16 (seq (rtp pkt)) in
    let u := if flags u =? -1 then set_dseq (set_flags u 0 (size u)) (u16 (sq - 1)) else u in
    let u := if negb (sq =? u16 (dseq u + 1))
             then set_flags u RTP_PAYLOAD_FLAG_PACKET_LOST 0 else u in
    let u := set_dseq u sq in
    c_assert (2 <? payloadlen pkt) ;;;
    h266_unpack_payload u s (payload pkt) (payloadlen pkt) (timestamp (rtp pkt)).
End Ops.
End Unpack.
