(* ===== verification/H266Props.v ===== *)
(** H.266: the unpacker is safe on any packet, the packer sends every unit whole or
    in fragments, and the unpacker, which looks for the type in the wrong byte,
    hands the fragments to the client as they are. *)

From S2P Require Import Prelude RtpUtil RtpPacket AnnexB AnnexBProps Payload PayloadSpec H265 H265Props PayloadHelper PayloadDesc PayloadDescProps H266.

(** ** Memory safety of the unpacker *)
Module UnpackSafe.
Import H265.Unpack H265Props.UnpackSafe H266.Unpack.

Section Safe.
Context `{Alloc} `{Build} {S : Type} (h : rtp_payload_t S).

Lemma h266_ap_loop_safe fuel u s p bytes n ts r :
  decode_ok u -> bytes_ok p -> bytes <= zlen p -> 2 <= n <= 4 -> bytes <= Z.of_nat fuel ->
  post (h266_ap_loop h fuel u s p bytes n ts r) kept.
Proof.
  revert u s p bytes n r. induction fuel as [|fuel IH]; intros u s p bytes n r Hu Hp Hl Hn Hf;
    cbn [h266_ap_loop].
  { zif. rewrite andb_false_r. by ostep. }
  ostep; [|by ostep]. cbool. cbv zeta.
  ostep. apply post_r16; [rewrite zlen_adv; lia|auto with zlist|]. intros len Hlen.
  ostep; cbool.
  { ostep. ostep. ostep. by apply set_flags_ok. }
  assert (len + 2 <= bytes - (n - 2) /\ 3 <= len) as [? ?] by lia.
  ostep. apply post_rd; [rewrite zlen_adv; lia|]. intros b _. ostep. ostep. ostep.
  apply post_rdn; [lia|lia|rewrite zlen_adv; lia|].
  destruct (deliver h u s _ ts) as [r' [u' s']] eqn:E.
  destruct (h265_deliver_ok h _ _ _ _ _ _ _ Hu E) as [Hu' _].
  apply IH; [done|auto with zlist|rewrite !zlen_adv; lia|destruct (using_donl_field u'); lia|lia].
Qed.

Lemma h266_append_safe u s p bytes n ts fh :
  decode_ok u -> 0 <= n <= bytes -> bytes <= zlen p -> size u + bytes - n <= capacity u ->
  post (h266_fu_append h u s p bytes n ts fh) kept.
Proof.
  intros [Hc Hs] Hn Hl Hroom. unfold h266_fu_append. cbv zeta. ostep.
  apply (post_mono _ decode_ok).
  - ostep; [|ostep; by constructor]. ostep. ostep. ostep. apply post_rdn; [lia|lia|lia|].
    ostep. apply post_wrn_len; cbn [set_dts ptr size]; [lia|rewrite zlen_take, zlen_drop; lia|].
    intros buf Hbuf. ostep. constructor; cbn; lia.
  - intros u1 [Hc1 Hs1]. ostep; [|by ostep]. ostep. apply post_rdn; [lia|lia|lia|].
    destruct (deliver h u1 s _ ts) as [r' [u' s']] eqn:E.
    ostep. by eapply (h265_deliver_ok h).
Qed.

Lemma h266_fu_safe u s p bytes ts :
  decode_ok u -> bytes_ok p -> 3 <= bytes <= zlen p ->
  post (rtp_h266_unpack_fu h u s p bytes ts) kept.
Proof.
  intros Hu Hp Hl. unfold rtp_h266_unpack_fu. cbv zeta. set (n := 1 + _).
  assert (Hn : 3 <= n) by (unfold n; destruct (using_donl_field u); lia).
  ostep; [ostep; ostep; by ostep|]. cbool.
  pose proof (h265_grow_safe u bytes n Hu ltac:(lia)) as Hg.
  destruct (fu_grow u bytes n) as [ok u1]. destruct Hg as [Hu1 Hok].
  ostep; [by ostep|]. destruct ok; [|done]. destruct (Hok eq_refl) as [Hs1 Hroom].
  pose proof (dok_size _ Hu). pose proof (dok_cap _ Hu1).
  ostep. apply post_rd; [lia|]. intros fh _. ostep.
  - ostep. ostep. ostep. apply post_rd; [lia|]. intros b0 _. ostep. apply post_rd; [lia|]. intros b1 _.
    ostep. apply post_wrn_len; [lia|change (zlen [b0; _]) with 2; lia|]. intros buf Hbuf.
    ostep. ostep. apply h266_append_safe; cbn; [|lia|lia|lia]. constructor; cbn; lia.
  - ostep; [ostep; destruct Hu1; by constructor|]. ostep. ostep. apply h266_append_safe; [done|lia|lia|lia].
Qed.

Lemma h266_unpack_payload_safe u s p len ts :
  decode_ok u -> bytes_ok p -> 3 <= len <= zlen p -> post (h266_unpack_payload h u s p len ts) kept.
Proof.
  intros Hu Hp Hl. unfold h266_unpack_payload. ostep. apply post_rd; [lia|]. intros b0 _. cbv zeta.
  ostep; [by ostep|]. ostep.
  { apply h266_ap_loop_safe; [done|auto with zlist|rewrite zlen_adv; lia|destruct (using_donl_field u); lia|lia]. }
  ostep; [by apply h266_fu_safe|]. ostep. apply post_rdn; [lia|lia|lia|].
  destruct (deliver h u s _ ts) as [r' [u' s']] eqn:E. ostep. by eapply (h265_deliver_ok h).
Qed.

Lemma h266_unpack_input_safe u s packet bytes :
  decode_ok u -> bytes_ok packet -> bytes <= zlen packet ->
  post (rtp_h266_unpack_input h u s packet bytes) kept.
Proof.
  intros Hu Hb Hl. unfold rtp_h266_unpack_input. ostep.
  eapply post_mono; [by apply deserialize_post|]. intros [r pkt] Hr.
  ostep; [by ostep|]. cbool. destruct H1 as [Hr0 Hlen].
  destruct Hr as [->|[_ Hok]]; [done|].
  cbv zeta. ostep. ostep. destruct Hok as [_ _ [off [Ep Hoff]] _ Hroom _].
  apply h266_unpack_payload_safe.
  - set (u1 := if flags u =? -1 then _ else u).
    assert (Hu1 : decode_ok u1) by (unfold u1; destruct (flags u =? -1); destruct Hu; by constructor).
    destruct (negb _); [|destruct Hu1; by constructor].
    apply set_flags_ok with (f := RTP_PAYLOAD_FLAG_PACKET_LOST) in Hu1. destruct Hu1. by constructor.
  - rewrite Ep. auto with zlist.
  - split; [|done]. destruct (using_donl_field u); lia.
Qed.
End Safe.
End UnpackSafe.

(** ** What the packer sends *)
Module PackSpec.
Import H266.Pack.

Definition fu_word (b0 b1 : Z) : Z := Z.lor (Z.shiftl b0 8) (Z.lor (Z.land b1 7) (Z.shiftl H266_RTP_FU 3)).

(** The payloads of one NAL unit for packets of [sz] bytes. *)
Definition nal_payloads (sz mark : Z) (nal : list Z) : list (Z * list Z) :=
  match nal with
  | b0 :: b1 :: _ =>
      if zlen nal + RTP_FIXED_HEADER <=? sz
      then [(if H266_TYPE b1 <? H266_NAL_OPI then mark else 0, nal)]
      else pieces (length nal - 2) (h266_fu_desc (fu_word b0 b1) (H266_TYPE b1) mark) sz true 0 (adv nal 2)
  | _ => []
  end.

Fixpoint au_payloads (sz : Z) (nals : list (list Z)) : list (Z * list Z) :=
  match nals with
  | [] => []
  | nal :: nals => nal_payloads sz (match nals with [] => 1 | _ => 0 end) nal ++ au_payloads sz nals
  end.

Lemma fu_word_high b0 b1 : is_byte b0 -> is_byte b1 -> u8 (Z.shiftr (fu_word b0 b1) 8) = b0.
Proof.
  intros H0 H1. unfold fu_word. change (Z.shiftl H266_RTP_FU 3) with 232.
  assert (Hb : (0 <=? Z.lor (Z.land b1 7) 232) && (Z.lor (Z.land b1 7) 232 <? 256) = true).
  { revert b1 H1. apply byte_cases. by vm_compute. }
  cbool. unfold is_byte in H0. set (x := Z.lor (Z.land b1 7) 232) in *.
  rewrite Z.shiftl_mul_pow2, (lor_add _ _ 8), Z.shiftr_div_pow2 by lia. unfold u8. lia.
Qed.

Lemma h266_desc_ok w ty mark size :
  0 <= mark < 2 -> RTP_FIXED_HEADER + 3 < size -> descriptor_ok (h266_fu_desc w ty mark) size.
Proof.
  intros Hm Hs. constructor; [done| |done|done]. intros first left. cbn. case_match; lia.
Qed.

Section Spec.
Context `{Build}.

Lemma h266_pack_handler_spec pk log nal last :
  packer_ok pk -> 564 <= psize pk -> 3 <= zlen nal ->
  let units := nal_payloads (psize pk) (if last =? 0 then 0 else 1) nal in
  exists pk', rtp_h266_pack_handler log_handler (pk, log) nal (zlen nal) last
              = Ret (0, (pk', log ++ emit (rtp (ppkt pk)) units)) /\ moved pk (zlen units) pk'.
Proof.
  intros Hp Hsz Hl units. unfold rtp_h266_pack_handler, units, nal_payloads.
  set (mark := if last =? 0 then 0 else 1).
  assert (Hmark : 0 <= mark < 2) by (unfold mark; destruct (last =? 0); lia).
  destruct nal as [|b0 [|b1 rest]]; try (unfold zlen in Hl; simpl in Hl; lia).
  unfold RTP_FIXED_HEADER. destruct (Z.leb_spec (zlen (b0 :: b1 :: rest) + 12) (psize pk)).
  - by apply (pack_single_at_spec 1 pk log _ mark (fun b => H266_TYPE b <? H266_NAL_OPI) b1).
  - unfold rtp_h266_pack_fu. zif.
    change (rd (b0 :: b1 :: rest) 0) with (Ret b0). change (rd (b0 :: b1 :: rest) 1) with (Ret b1).
    cbn [obind]. cbv zeta. unfold c_assert. zif. cbn [orb obind]. fold (fu_word b0 b1).
    set (data := adv (b0 :: b1 :: rest) 2).
    assert (Hdl : zlen data = zlen (b0 :: b1 :: rest) - 2) by (unfold data; rewrite zlen_adv; lia).
    rewrite <- Hdl. replace (length (b0 :: b1 :: rest) - 2)%nat with (Z.to_nat (zlen data)) by (unfold zlen in *; lia).
    apply pack_pieces_spec; try done.
    + apply h266_desc_ok; [done|unfold RTP_FIXED_HEADER; lia].
    + lia.
    + unfold zlen. lia.
    + intros _. rewrite piece_len_min. cbn [d_len d_check h266_fu_desc andb].
      unfold RTP_FIXED_HEADER. by rewrite (proj2 (Z.eqb_neq _ _)) by lia.
Qed.

Lemma h266_feed_spec pk log nals :
  packer_ok pk -> 564 <= psize pk -> Forall (fun u => nal_ok u /\ 3 <= zlen u) nals ->
  exists pk', feed (rtp_h266_pack_handler log_handler) nals (pk, log)
              = Ret (0, (pk', log ++ emit (rtp (ppkt pk)) (au_payloads (psize pk) nals))) /\
              moved pk (zlen (au_payloads (psize pk) nals)) pk'.
Proof.
  revert pk log. induction nals as [|nal nals IH]; intros pk log Hp Hsz Hn.
  { exists pk. split; [cbn; by rewrite app_nil_r|]. by apply moved_refl. }
  apply Forall_cons_1 in Hn as [[Hok Hl] Hn]. cbn [feed]. cbn [au_payloads].
  set (last := match nals with [] => 1 | _ => 0 end).
  destruct (h266_pack_handler_spec pk log nal last Hp Hsz Hl) as (pk1 & -> & Hm1).
  cbn [obind Z.eqb]. replace (if last =? 0 then 0 else 1) with last in * by by unfold last; destruct nals.
  destruct (IH pk1 (log ++ emit (rtp (ppkt pk)) (nal_payloads (psize pk) last nal)))
    as (pk2 & -> & Hm2); [apply Hm1|by rewrite (mv_size _ _ _ Hm1)|done|].
  rewrite (mv_size _ _ _ Hm1), (moved_emit _ _ _ _ Hm1) in *. exists pk2. split.
  - by rewrite emit_app, <- app_assoc by apply Hp.
  - rewrite zlen_app. by eapply moved_trans.
Qed.

Lemma h266_pack_input_spec pk k u us z ts log :
  packer_ok pk -> 564 <= psize pk -> is_u32 ts ->
  (3 <= k)%nat -> unit_ok u -> Forall (fun '(k, v) => (2 <= k)%nat /\ unit_ok v) us ->
  let stream := access_unit k u us z in
  let units := au_payloads (psize pk) (u :: map snd us) in
  exists pk', rtp_h266_pack_input log_handler pk log stream (zlen stream) ts
              = Ret (0, (pk', log ++ emit (with_timestamp (rtp (ppkt pk)) ts) units)) /\
              moved (set_ts pk ts) (zlen units) pk'.
Proof.
  intros Hp Hsz Hts Hk [Hu Hul] Hus. cbv zeta. unfold rtp_h266_pack_input, access_unit.
  rewrite annexb_stream_spec; [|done|done|].
  2: { eapply Forall_impl; [|exact Hus]. intros [k' v] (? & ? & _). done. }
  apply (h266_feed_spec (set_ts pk ts)); [by apply set_ts_ok|done|].
  constructor; [done|]. apply Forall_map. eapply Forall_impl; [|exact Hus].
  intros [k' v] (_ & Hv). done.
Qed.
End Spec.

(** A payload the unpacker takes for a unit of its own. *)
Definition bare (p : Z * list Z) : Prop :=
  0 <= fst p < 2 /\ 3 <= zlen (snd p) /\ exists b, head (snd p) = Some b /\ H266_TYPE b <> 28 /\ H266_TYPE b <> 29.

Lemma pieces_bare fuel w ty mark size first sent data :
  0 <= mark < 2 -> H266_TYPE (u8 (Z.shiftr w 8)) <> 28 -> H266_TYPE (u8 (Z.shiftr w 8)) <> 29 ->
  Forall bare (pieces fuel (h266_fu_desc w ty mark) size first sent data).
Proof.
  intros Hm H28 H29. revert first sent data. induction fuel as [|fuel IH]; intros first sent data; [constructor|].
  cbn [pieces]. cbv zeta. apply Forall_cons_2; [|case_match; [apply IH|constructor]].
  split_and!; cbn [fst snd d_mark d_hdr h266_fu_desc].
  - case_match; lia.
  - case_match; lia.
  - rewrite zlen_app. change (zlen [_; _; _]) with 3. pose proof (zlen_nonneg (take (Z.to_nat (piece_len (h266_fu_desc w ty mark) size first (zlen data))) data)). lia.
  - by eexists.
Qed.

Lemma payloads_bare sz mark nal b0 :
  bytes_ok nal -> 3 <= zlen nal -> 0 <= mark < 2 -> head nal = Some b0 -> H266_TYPE b0 <> 28 -> H266_TYPE b0 <> 29 ->
  Forall bare (nal_payloads sz mark nal).
Proof.
  intros Hb Hl Hm Eh H28 H29. destruct nal as [|b [|b1 rest]]; try (unfold zlen in Hl; simpl in Hl; lia).
  injection Eh as ->. cbn [nal_payloads]. case_match.
  - apply Forall_singleton. split_and!; cbn [fst snd]; [case_match; lia|case_match; lia|done|by eexists].
  - apply Forall_cons_1 in Hb as [Hb0 Hb]. apply Forall_cons_1 in Hb as [Hb1 _].
    apply pieces_bare; [done|by rewrite fu_word_high..].
Qed.
End PackSpec.

(** ** What the unpacker makes of it *)
Section Properties.
Import H265.Unpack H265Props.UnpackSpec H266.Pack H266.Unpack PackSpec.
Context `{Alloc} `{Build}.

Lemma h266_bare_step u s sq hd m pl :
  ready u sq [] -> plain hd -> u16 (seq hd) = u16 sq -> bare (m, pl) ->
  let packet := packet_bytes (video_packet hd m pl) in
  exists u', rtp_h266_unpack_input log_handler u s packet (zlen packet)
             = Ret (1, (u', s ++ [(pl, timestamp hd, 0)])) /\ ready u' (sq + 1) [].
Proof.
  intros [] Hh Hs (Hm & Hl & b & Eb & H28 & H29) packet. cbn [fst snd] in *. subst packet.
  unfold rtp_h266_unpack_input.
  destruct (deserialize_video zero_packet hd m pl Hh Hm) as (pkt & -> & Er & Ep & El). cbn [obind].
  rewrite El, Er, Ep, rdy_donl0. zif. change (0 =? 0) with true. cbn [orb negb].
  unfold c_assert. zif. cbn [orb obind with_m seq timestamp]. rewrite Hs.
  destruct pl as [|b' rest]; [done|]. injection Eb as ->.
  set (u1 := set_dseq _ _).
  assert (Hu1 : flags u1 = 0 /\ dseq u1 = u16 sq /\ using_donl_field u1 = false /\ zlen (ptr u1) = capacity u1 /\
            (capacity u1 = 0 \/ 128000 <= capacity u1)).
  { unfold u1. destruct rdy_sync0 as [[Ef _]|[Ef Eq]]; rewrite Ef; cbn [Z.eqb Pos.eqb].
    - cbn [set_dseq dseq]. replace (u16 (u16 (u16 sq - 1) + 1)) with (u16 sq) by (unfold u16; lia).
      rewrite Z.eqb_refl. by split_and!.
    - rewrite Eq, Z.eqb_refl. by split_and!. }
  clearbody u1. destruct Hu1 as (Ef & Eq & Ed & Ec & Eb).
  unfold h266_unpack_payload. change (rd (b :: rest) 0) with (Ret b). cbn [obind].
  assert (0 <= H266_TYPE b <= 31).
  { unfold H266_TYPE. change 31 with (2 ^ 5 - 1). rewrite land_ones_mod by lia. lia. }
  unfold H266_RTP_AP, H266_RTP_FU. do 3 zif.
  pose proof (rdn_all (b :: rest) (zlen (b :: rest)) [] eq_refl) as Er'. rewrite app_nil_r in Er'. rewrite Er'.
  cbn [obind]. unfold deliver. cbn [h_packet log_handler]. rewrite Ef. cbn [Z.eqb].
  eexists. split; [done|]. constructor; cbn; try done; [|by eexists].
  right. split; [done|]. rewrite Eq. unfold u16. lia.
Qed.

Lemma h266_recv_bare u s sq hd units :
  ready u sq [] -> plain hd -> u16 (seq hd) = u16 sq -> Forall bare units ->
  exists u', recv_frames (rtp_h266_unpack_input log_handler) u s (emit hd units)
             = Ret (1, (u', s ++ map (fun '(_, pl) => (pl, timestamp hd, 0)) units)) /\
    ready u' (sq + zlen units) [].
Proof.
  intros Hu Hh Hs Hb. revert u s sq hd Hu Hh Hs.
  induction Hb as [|[m pl] units Hb _ IH]; intros u s sq hd Hu Hh Hs.
  { exists u. cbn. by rewrite app_nil_r, Z.add_0_r. }
  cbn [emit recv_frames]. destruct (h266_bare_step u s sq hd m pl Hu Hh Hs Hb) as (u1 & -> & Hu1).
  cbn [obind fst snd Z.eqb Pos.eqb].
  destruct (IH u1 (s ++ [(pl, timestamp hd, 0)]) (sq + 1) (advance hd 1) Hu1) as (u2 & E & Hu2).
  { by apply advance_plain. } { cbn. unfold u16 in *. lia. }
  exists u2. rewrite E, <- app_assoc, zlen_cons, Z.add_assoc. by split.
Qed.

Definition layer_ok (u : list Z) : Prop :=
  exists b, head u = Some b /\ H266_TYPE b <> 28 /\ H266_TYPE b <> 29.

(** C0. The H.266 unpacker looks for the payload type in the first byte of the
    payload, where the layer stands, and not in the second.  So of an access unit
    the packer sent, a client receives one delivery for each packet, with its
    payload: every NAL unit that fits a packet whole, but of a longer one its
    fragments with their headers, never the unit. *)
Theorem rtp_h266_fragments_delivered_bare pk k u us z ts d :
  packer_ok pk -> 564 <= psize pk -> is_u32 ts ->
  (3 <= k)%nat -> unit_ok u -> Forall (fun '(k, v) => (2 <= k)%nat /\ unit_ok v) us ->
  Forall layer_ok (u :: map snd us) -> ready d (seq (rtp (ppkt pk))) [] ->
  let stream := access_unit k u us z in
  let units := au_payloads (psize pk) (u :: map snd us) in
  exists pk' packets d',
    rtp_h266_pack_input log_handler pk [] stream (zlen stream) ts = Ret (0, (pk', packets)) /\
    recv_frames (rtp_h266_unpack_input log_handler) d [] packets
      = Ret (1, (d', map (fun '(_, pl) => (pl, ts, 0)) units)).
Proof.
  intros Hp Hsz Hts Hk Hu Hus Hlay Hd stream units.
  destruct (h266_pack_input_spec pk k u us z ts [] Hp Hsz Hts Hk Hu Hus) as (pk' & E & _).
  destruct (h266_recv_bare d [] (seq (rtp (ppkt pk))) (with_timestamp (rtp (ppkt pk)) ts) units Hd)
    as (d' & Er & _); try done.
  { by apply with_ts_plain, Hts; apply packer_plain. }
  { assert (Hall : Forall unit_ok (u :: map snd us)).
    { apply Forall_cons_2; [done|]. apply Forall_map. eapply Forall_impl; [|exact Hus]. by intros [k' v] [_ Hv]. }
    unfold units. clear -Hall Hlay. induction Hall as [|nal nals [Hok Hl] _ IH]; [constructor|].
    apply Forall_cons_1 in Hlay as [(b & Eb & H28 & H29) Hlay]. cbn [au_payloads]. apply Forall_app_2; [|by apply IH].
    eapply payloads_bare; try done; [apply Hok|by destruct nals]. }
  by eexists pk', _, d'.
Qed.
End Properties.

(** A parameter set, then a slice that takes three packets: four deliveries. *)
Definition h266_slice (n : nat) : list Z := 0 :: 9 :: replicate n 5.

Lemma h266_slice_ok n : (0 < n)%nat -> unit_ok (h266_slice n).
Proof.
  intros Hn. split.
  - split.
    + repeat constructor; try (unfold is_byte; lia). apply Forall_replicate. unfold is_byte. lia.
    + exists 5. split; [|done]. destruct n as [|n]; [lia|]. unfold h266_slice. rewrite replicate_S_end.
      by rewrite !app_comm_cons, last_snoc.
    + intros i Hi Hi1. exfalso. revert Hi1. unfold h266_slice. destruct i as [|i]; [by intros [=]|]. simpl.
      intros [? _]%lookup_replicate. done.
  - unfold h266_slice. rewrite !zlen_cons, zlen_replicate. lia.
Qed.

Lemma rtp_h266_fragments_delivered_bare_witness :
  let stream := access_unit 3 (sample_nal 64) [(3%nat, h266_slice 2998)] 0 in
  let units := PackSpec.au_payloads 1434 [sample_nal 64; h266_slice 2998] in
  zlen units = 4 /\
  exists pk' packets d',
    @H266.Pack.rtp_h266_pack_input default_build _ log_handler sample_packer [] stream (zlen stream) 90
      = Ret (0, (pk', packets)) /\
    recv_frames (@H266.Unpack.rtp_h266_unpack_input always_alloc default_build _ log_handler)
      H266.Unpack.rtp_h266_unpack_create [] packets
      = Ret (1, (d', map (fun '(_, pl) => (pl, 90, 0)) units)).
Proof.
  split; [by vm_compute|].
  apply (@rtp_h266_fragments_delivered_bare always_alloc default_build sample_packer 3 (sample_nal 64)
           [(3%nat, h266_slice 2998)] 0 90 H266.Unpack.rtp_h266_unpack_create).
  - apply sample_packer_ok.
  - done.
  - done.
  - lia.
  - apply sample_units.
  - apply Forall_singleton. split; [lia|apply h266_slice_ok; lia].
  - repeat (apply Forall_cons_2; [eexists; by vm_compute|]). constructor.
  - apply H265Props.UnpackSpec.h265_create_ready.
Defined.
