(* ===== verification/AV1.v ===== *)
(** AV1 over RTP (lib/librtp/payload/rtp-av1-pack.c and rtp-av1-unpack.c): OBUs
    behind LEB128 sizes, cut at the end of a packet. *)

From S2P Require Import Prelude RtpUtil RtpPacket Payload.

Definition bit_of (b m : Z) : bool := negb (Z.land b m =? 0).

(** ** LEB128.  [k] of the ten bytes of a number are left, [i] are read. *)
Fixpoint leb128_loop (k : nat) (i : Z) (data : list Z) (p bytes v : Z) : outcome (Z * Z) :=
  match k with
  | O => Ret (p + i, v)
  | S k =>
      if i <? bytes then
        do b <- rd data (p + i) ;;
        let v := Z.lor v (u64 (Z.shiftl (Z.land b 127) (i * 7))) in
        if Z.land b 128 =? 0 then Ret (p + (i + 1), v) else leb128_loop k (i + 1) data p bytes v
      else Ret (p + i, v)
  end.

(** The index behind the number and the number, as a [uint64_t]. *)
Definition leb128 (data : list Z) (p bytes : Z) : outcome (Z * Z) := leb128_loop 10 0 data p bytes 0.

Fixpoint leb128_bytes (k : nat) (size bytes : Z) : list Z :=
  match k with
  | O => []
  | S k =>
      if 0 <? bytes then
        let b := Z.land size 127 in
        let size := Z.shiftr size 7 in
        Z.lor b (if 0 <? size then 128 else 0) :: (if 0 =? size then [] else leb128_bytes k size (bytes - 1))
      else []
  end.

(** What is stored for the [int64_t] [size] in a buffer of [bytes] bytes. *)
Definition leb128_write (size bytes : Z) : list Z := leb128_bytes 10 size bytes.

Definition OBU_SEQUENCE_HEADER : Z := 1.
Definition OBU_TEMPORAL_DELIMITER : Z := 2.

(** ** Packing *)
Module Pack.
Definition AV1_AGGREGATION_HEADER_Z : Z := 128.
Definition AV1_AGGREGATION_HEADER_Y : Z := 64.
Definition AV1_AGGREGATION_HEADER_N : Z := 8.

(** [packet] is [ptr], the packet that is being filled. *)
Record rtp_encode_av1_t := mk_encode {
  pkr : rtp_packer;
  packet : option (list Z);
  offset : Z;
  aggregation : Z
}.

Definition rtp_av1_pack_create (size ptype sq src : Z) : rtp_encode_av1_t :=
  mk_encode (pack_create size ptype sq src) None 0 0.

Definition set_pkr (u : rtp_encode_av1_t) (p : rtp_packer) : rtp_encode_av1_t :=
  mk_encode p (packet u) (offset u) (aggregation u).
Definition set_packet (u : rtp_encode_av1_t) (b : option (list Z)) (off : Z) : rtp_encode_av1_t :=
  mk_encode (pkr u) b off (aggregation u).
Definition set_aggregation (u : rtp_encode_av1_t) (a : Z) : rtp_encode_av1_t :=
  mk_encode (pkr u) (packet u) (offset u) a.

Section Ops.
Context `{Build} {S : Type} (h : rtp_payload_t S).

Definition rtp_av1_pack_flush (u : rtp_encode_av1_t) (s : S) (aggr : Z)
  : outcome (Z * (rtp_encode_av1_t * S)) :=
  match packet u with
  | None => Ret (0, (u, s))
  | Some buf =>
      if offset u <=? RTP_FIXED_HEADER then Ret (0, (u, s))
      else
        do buf <- wrn buf RTP_FIXED_HEADER [aggr] ;;
        let len := offset u - RTP_FIXED_HEADER in
        let u := set_packet (set_pkr u (set_data (pkr u) (payload (ppkt (pkr u))) len)) (Some buf) (offset u) in
        do* (n, buf) <- rtp_packet_serialize_header (ppkt (pkr u)) buf (psize (pkr u)) ;;
        if negb (n =? RTP_FIXED_HEADER) then c_assert false ;;; Ret (-1, (set_packet u (Some buf) (offset u), s))
        else
          let u := set_pkr u (set_m (next_seq (pkr u)) 0) in
          let u := set_aggregation u (Z.ldiff (aggregation u) (Z.lor AV1_AGGREGATION_HEADER_N AV1_AGGREGATION_HEADER_Z)) in
          do data <- rdn buf 0 (n + len) ;;
          let '(r, s) := h_packet h s data (timestamp (rtp (ppkt (pkr u)))) 0 in
          let s := h_free h s in
          Ret (r, (set_packet u None 0, s))
  end.

Fixpoint rtp_av1_pack_obu (fuel : nat) (u : rtp_encode_av1_t) (s : S) (obu : list Z) (bytes : Z)
  : outcome (Z * (rtp_encode_av1_t * S)) :=
  if 0 <? bytes then
    match fuel with
    | O => Crash Diverge
    | Datatypes.S fuel =>
        let size := psize (pkr u) in
        let '(mem, (u, s)) :=
          match packet u with
          | Some buf => (Some buf, (u, s))
          | None =>
              let '(b, s) := h_alloc h s size in
              (b, (match b with Some _ => set_packet u b (RTP_FIXED_HEADER + 1) | None => u end, s))
          end in
        match mem with
        | None => Ret (- ENOMEM, (u, s))
        | Some buf =>
            c_assert (size <? 16383) ;;;
            let n := if size <? offset u + bytes + (if 127 <? bytes then 2 else 1)
                     then size - offset u - 2 else bytes in
            let leb := leb128_write n (size - offset u) in
            do buf <- wrn buf (offset u) leb ;;
            do src <- rdn obu 0 n ;;
            do buf <- wrn buf (offset u + zlen leb) src ;;
            let u := set_packet u (Some buf) (offset u + zlen leb + n) in
            let bytes := bytes - n in
            do* (r, (u, s)) <-
              (if size - offset u <? 8
               then rtp_av1_pack_flush u s (Z.lor (aggregation u) (if 0 <? bytes then AV1_AGGREGATION_HEADER_Y else 0))
               else Ret (0, (u, s))) ;;
            if negb (0 =? r) then Ret (r, (u, s))
            else
              let u := if 0 <? bytes then set_aggregation u (Z.lor (aggregation u) AV1_AGGREGATION_HEADER_Z) else u in
              rtp_av1_pack_obu fuel u s (adv obu n) bytes
        end
    end
  else Ret (0, (u, s)).

(** The length of the OBU at [i] of the stream, [None] for one that does not fit.
    The sum of a pointer and a size of 2^63 and more has no meaning. *)
Definition obu_length (raw : list Z) (bytes i b : Z) : outcome (option Z) :=
  let off := if bit_of b 4 then 2 else 1 in
  if bit_of b 2 then
    do* (p, len) <- leb128 raw (i + off) (u64 (s32 (bytes - i - off))) ;;
    if 2 ^ 63 <=? len then Crash OutOfBounds
    else if bytes <? p + len then Ret None
    else Ret (Some (len + p - i))
  else Ret (Some (bytes - i)).

Definition obu_type (b : Z) : Z := Z.land (Z.shiftr b 3) 15.

Fixpoint obu_loop (fuel : nat) (u : rtp_encode_av1_t) (s : S) (raw : list Z) (bytes i r : Z)
  : outcome (option Z * (rtp_encode_av1_t * S)) :=
  if (i <? bytes) && (0 =? r) then
    match fuel with
    | O => Crash Diverge
    | Datatypes.S fuel =>
        do b <- rd raw i ;;
        do len <- obu_length raw bytes i b ;;
        match len with
        | None => Ret (None, (u, s))
        | Some len =>
            if obu_type b =? OBU_TEMPORAL_DELIMITER then obu_loop fuel u s raw bytes (i + len) r
            else
              let u := set_aggregation u
                (Z.lor (aggregation u) (if obu_type b =? OBU_SEQUENCE_HEADER then AV1_AGGREGATION_HEADER_N else 0)) in
              do* (r, (u, s)) <- rtp_av1_pack_obu (Z.to_nat len) u s (adv raw i) len ;;
              obu_loop fuel u s raw bytes (i + len) r
        end
    end
  else Ret (Some r, (u, s)).

(** Of the two inputs of the file the table uses this one. *)
Definition rtp_av1_pack_input_obu (u : rtp_encode_av1_t) (s : S) (data : list Z) (bytes ts : Z)
  : outcome (Z * (rtp_encode_av1_t * S)) :=
  let u := mk_encode (set_m (set_ts (pkr u) ts) 0) None (offset u) 0 in
  do* (r, (u, s)) <- obu_loop (Z.to_nat bytes) u s data bytes 0 0 ;;
  match r with
  | None => Ret (-1, (u, s))
  | Some _ => rtp_av1_pack_flush (set_pkr u (set_m (pkr u) 1)) s (aggregation u)
  end.
End Ops.
End Pack.

(** ** Unpacking *)
Module Unpack.
Definition N_MAX_OBU : Z := 255.
Definition N_RESERVED_OBU_SIZE_FIELD : Z := 2.

(** [arr] is [obu.arr], an offset and a length for each OBU, of [obu.cap] cells;
    [buf] is [ptr.ptr], of [ptr.cap] bytes. *)
Record rtp_decode_av1_t := mk_decode {
  lost : Z;
  dseq : Z;
  dtimestamp : Z;
  flags : Z;
  arr : list (Z * Z);
  num : Z;
  buf : list Z;
  blen : Z
}.

Definition rtp_av1_unpack_create : rtp_decode_av1_t := mk_decode 0 0 0 (-1) [] 0 [] 0.

Definition set_lost (u : rtp_decode_av1_t) (l : Z) : rtp_decode_av1_t :=
  mk_decode l (dseq u) (dtimestamp u) (flags u) (arr u) (num u) (buf u) (blen u).
Definition set_pos (u : rtp_decode_av1_t) (sq ts : Z) : rtp_decode_av1_t :=
  mk_decode (lost u) sq ts (flags u) (arr u) (num u) (buf u) (blen u).
Definition set_flags (u : rtp_decode_av1_t) (f : Z) : rtp_decode_av1_t :=
  mk_decode (lost u) (dseq u) (dtimestamp u) f (arr u) (num u) (buf u) (blen u).
Definition set_arr (u : rtp_decode_av1_t) (a : list (Z * Z)) (n : Z) : rtp_decode_av1_t :=
  mk_decode (lost u) (dseq u) (dtimestamp u) (flags u) a n (buf u) (blen u).
Definition set_buf (u : rtp_decode_av1_t) (b : list Z) (n : Z) : rtp_decode_av1_t :=
  mk_decode (lost u) (dseq u) (dtimestamp u) (flags u) (arr u) (num u) b n.

Section Ops.
Context `{Alloc} `{Build} {S : Type} (h : rtp_payload_t S).

(** Room for [bytes] more of the frame; [Ret None] is granted. *)
Definition grow_buf (u : rtp_decode_av1_t) (size : Z) : option rtp_decode_av1_t :=
  if zlen (buf u) <=? size then
    let size := size + (if 16000 <? size / 4 then size / 4 else 16000) in
    if alloc_ok size
    then Some (set_buf u (buf u ++ replicate (Z.to_nat (size - zlen (buf u))) heap_byte) (blen u))
    else None
  else Some u.

(** The error of a table that does not grow. *)
Definition grow_arr (u : rtp_decode_av1_t) (start : Z) : Z + rtp_decode_av1_t :=
  if zlen (arr u) <=? num u + start then
    if N_MAX_OBU <=? zlen (arr u) then inl (- E2BIG)
    else if alloc_ok (8 * (zlen (arr u) + 8)) then inr (set_arr u (arr u ++ replicate 8 (0, 0)) (num u))
    else inl (- ENOMEM)
  else inr u.

(** A new OBU: its header, its size field as it is or two bytes for one.  Returns the
    index behind what was read. *)
Definition obu_start (u : rtp_decode_av1_t) (data : list Z) (p pend : Z) : outcome (Z * rtp_decode_av1_t) :=
  do a <- wrn (arr u) (num u) [(blen u, 0)] ;;
  let u := set_arr u a (num u) in
  do head <- rd data p ;;
  do b <- wrn (buf u) (blen u) [head] ;;
  let u := set_buf u b (blen u + 1) in
  let p := p + 1 in
  do* (p, u) <-
    (if bit_of head 4 then
       do ext <- rd data p ;;
       do b <- wrn (buf u) (blen u) [ext] ;;
       Ret (p + 1, set_buf u b (blen u + 1))
     else Ret (p, u)) ;;
  do* (p, u) <-
    (if bit_of head 2 then
       do* (p, n) <- leb128 data p (pend - p) ;;
       let leb := leb128_write (s64 n) (zlen (buf u) - blen u) in
       do b <- wrn (buf u) (blen u) leb ;;
       Ret (p, set_buf u b (blen u + zlen leb))
     else Ret (p, set_buf u (buf u) (blen u + N_RESERVED_OBU_SIZE_FIELD))) ;;
  Ret (p, set_arr u (arr u) (num u + 1)).

(** [data] is the payload, the element is at [p]. *)
Definition rtp_av1_unpack_obu_append (u : rtp_decode_av1_t) (data : list Z) (p bytes start : Z)
  : outcome (Z * rtp_decode_av1_t) :=
  let pend := p + bytes in
  do size <- c_int (blen u + bytes + 9 + 2) ;;
  if (RTP_PAYLOAD_MAX_SIZE <? size) || (size <? 0) || (bytes <? 2) then Ret (- EINVAL, u)
  else
    match grow_buf u size with
    | None => Ret (- ENOMEM, set_lost u 1)
    | Some u =>
        match grow_arr u start with
        | inl e => Ret (e, u)
        | inr u =>
            do* (p, u) <- (if negb (start =? 0) then obu_start u data p pend else Ret (p, u)) ;;
            do* (o, l) <- rd (arr u) (num u - 1) ;;
            do a <- wrn (arr u) (num u - 1) [(o, l + (pend - p))] ;;
            do src <- rdn data p (pend - p) ;;
            do b <- wrn (buf u) (blen u) src ;;
            Ret (0, set_buf (set_arr u a (num u)) b (blen u + (pend - p)))
        end
    end.

(** [assert(unpacker->lost || (leb128(data, 9, &len) && len == arr[i].len))] *)
Definition assert_size (u : rtp_decode_av1_t) (p len : Z) : outcome unit :=
  if NDEBUG || negb (lost u =? 0) then Ret tt
  else do* (_, n) <- leb128 (buf u) p 9 ;; c_assert (s64 n =? len).

(** The sizes of the OBUs from number [i] on; [k] are left. *)
Fixpoint write_sizes (k : nat) (i : Z) (u : rtp_decode_av1_t) : outcome rtp_decode_av1_t :=
  match k with
  | O => Ret u
  | Datatypes.S k =>
      do* (off, len) <- rd (arr u) i ;;
      do b0 <- rd (buf u) off ;;
      let data := off + (if bit_of b0 4 then 2 else 1) in
      if bit_of b0 2 then
        assert_size u data len ;;;
        write_sizes k (i + 1) u
      else
        do b <- wrn (buf u) off [Z.lor b0 2] ;;
        let leb := leb128_write len 9 in
        let n := zlen leb in
        do u <-
          (if negb (n =? N_RESERVED_OBU_SIZE_FIELD) then
             do tl <- rdn b (data + N_RESERVED_OBU_SIZE_FIELD) (blen u - (data + N_RESERVED_OBU_SIZE_FIELD)) ;;
             do b <- wrn b (data + n) tl ;;
             do rest <- rdn (arr u) (i + 1) (num u - (i + 1)) ;;
             c_assert (forallb (fun ol => N_RESERVED_OBU_SIZE_FIELD <? fst ol + n) rest) ;;;
             do a <- wrn (arr u) (i + 1) (map (fun ol => (fst ol + n - N_RESERVED_OBU_SIZE_FIELD, snd ol)) rest) ;;
             Ret (set_arr (set_buf u b (blen u - (N_RESERVED_OBU_SIZE_FIELD - n))) a (num u))
           else Ret (set_buf u b (blen u))) ;;
        do b <- wrn (buf u) data leb ;;
        write_sizes k (i + 1) (set_buf u b (blen u))
  end.

Definition rtp_av1_unpack_onframe (u : rtp_decode_av1_t) (s : S) : outcome (Z * (rtp_decode_av1_t * S)) :=
  do first <- (if num u <? zlen (arr u) then do* (_, l) <- rd (arr u) 0 ;; Ret (0 <? l) else Ret false) ;;
  do* (r, (u, s)) <-
    (if first && (0 =? lost u) then
       do u <- write_sizes (Z.to_nat (num u)) 0 u ;;
       do frame <- rdn (buf u) 0 (blen u) ;;
       let f := Z.lor (flags u) (if lost u =? 0 then 0 else RTP_PAYLOAD_FLAG_PACKET_CORRUPT) in
       let '(r, s) := h_packet h s frame (dtimestamp u) f in
       Ret (r, (set_flags u (Z.ldiff (flags u) RTP_PAYLOAD_FLAG_PACKET_LOST), s))
     else Ret (0, (u, s))) ;;
  let u := if lost u =? 0 then u else set_flags u (Z.lor (flags u) RTP_PAYLOAD_FLAG_PACKET_LOST) in
  let u := set_buf (set_lost u 0) (buf u) 0 in
  Ret (r, (set_arr u (replicate (length (arr u)) (0, 0)) 0, s)).

(** The elements behind the aggregation header: the next is at [p] and has number
    [i], a [uint8_t]; [false] is the early return.  A negative size moves back, so a
    turn is determined by [p] and [i] and more than 256 turns for each byte repeat
    one. *)
Fixpoint element_loop (fuel : nat) (u : rtp_decode_av1_t) (data : list Z) (p pend i w z : Z)
  : outcome (bool * rtp_decode_av1_t) :=
  if p <? pend then
    match fuel with
    | O => Crash Diverge
    | Datatypes.S fuel =>
        do* (p, size) <-
          (if (i <? w) || (0 =? w) then do* (p, n) <- leb128 data p (pend - p) ;; Ret (p, s64 n)
           else Ret (p, pend - p)) ;;
        if pend <? p + size then Ret (false, set_lost u 1)
        else
          do* (_, u) <-
            rtp_av1_unpack_obu_append u data p (s32 size) (if negb (1 =? i) || (0 =? z) then 1 else 0) ;;
          element_loop fuel u data (p + size) pend (u8 (i + 1)) w z
    end
  else Ret (true, u).

Definition rtp_av1_unpack_input (u : rtp_decode_av1_t) (s : S) (packet : list Z) (bytes : Z)
  : outcome (Z * (rtp_decode_av1_t * S)) :=
  do* (r, pkt) <- rtp_packet_deserialize zero_packet packet bytes ;;
  if negb (r =? 0) || (payloadlen pkt <? 1) then Ret (- EINVAL, (u, s))
  else
    let sq := u16 (seq (rtp pkt)) in
    let ts := timestamp (rtp pkt) in
    let u := if flags u =? -1 then set_pos (set_flags u 0) (u16 (seq (rtp pkt) - 1)) (dtimestamp u) else u in
    let gap := negb (sq =? u16 (dseq u + 1)) in
    let u := if gap then set_buf (set_flags u RTP_PAYLOAD_FLAG_PACKET_LOST) (buf u) 0 else u in
    do* (u, s) <-
      (if negb (ts =? dtimestamp u) then
         do* (_, (u, s)) <- rtp_av1_unpack_onframe u s ;;
         Ret (if gap then set_lost u 1 else u, s)
       else Ret (u, s)) ;;
    let u := set_pos u sq ts in
    do b0 <- rd (payload pkt) 0 ;;
    let z := Z.land b0 128 in
    let w := Z.shiftr (Z.land b0 48) 4 in
    let n := Z.land b0 8 in
    c_assert ((n =? 0) || (0 =? z)) ;;;
    do* (u, s) <-
      (if (0 =? z) && (1 =? n) then do* (_, us) <- rtp_av1_unpack_onframe u s ;; Ret us else Ret (u, s)) ;;
    do* (ok, u) <-
      element_loop (256 * (Z.to_nat (payloadlen pkt) + 1)) u (payload pkt) 1 (payloadlen pkt) 1 w z ;;
    if negb ok then Ret (-1, (u, s))
    else
      do* (u, s) <-
        (if negb (hm (rtp pkt) =? 0) then do* (_, us) <- rtp_av1_unpack_onframe u s ;; Ret us else Ret (u, s)) ;;
      Ret (1, (u, s)).
End Ops.
End Unpack.
