(* ===== verification/AV1Props.v ===== *)
(** AV1: sizes written are read back; what the unpacker does to a frame whose
    start was lost, and to a fragment of one byte. *)

From S2P Require Import Prelude RtpUtil RtpPacket Payload PayloadSpec AV1.

(** ** LEB128 *)
Lemma leb_bits d c :
  0 <= d < 128 -> c = 128 \/ c = 0 -> Z.land (Z.lor d c) 127 = d /\ Z.land (Z.lor d c) 128 = c.
Proof.
  intros Hd Hc. assert (E : Z.lor d c = d + c).
  { rewrite Z.lor_comm, Z.add_comm. apply (lor_add _ _ 7); [lia| |done]. by destruct Hc as [->| ->]. }
  rewrite E. set (x := d + c). assert (Hx : is_byte x) by (unfold is_byte, x; lia). split.
  - change 127 with (2 ^ 7 - 1). rewrite land_ones_mod by lia. unfold x. lia.
  - assert (Eb : (Z.land x 128 =? if x <? 128 then 0 else 128) = true).
    { clearbody x. revert x Hx. by apply byte_cases. }
    apply Z.eqb_eq in Eb. rewrite Eb. unfold x. destruct (Z.ltb_spec (d + c) 128); lia.
Qed.

Lemma leb_digit v i d :
  0 <= i -> 0 <= v < 2 ^ (i * 7) -> 0 <= d -> d * 2 ^ (i * 7) < 2 ^ 64 ->
  Z.lor v (u64 (Z.shiftl d (i * 7))) = v + d * 2 ^ (i * 7).
Proof.
  intros Hi Hv Hd Hn. rewrite Z.shiftl_mul_pow2 by lia.
  assert (0 <= d * 2 ^ (i * 7)) by nia. unfold u64. rewrite Z.mod_small by lia.
  rewrite Z.lor_comm, (lor_add _ _ (i * 7)); [lia|lia|apply Z.mod_mul; lia|done].
Qed.

Lemma leb128_loop_spec k k' i data pre rest p n room bytes v :
  data = pre ++ leb128_bytes k n room ++ rest -> zlen pre = p + i -> 0 <= i ->
  0 <= n < 2 ^ (7 * Z.of_nat k) -> Z.of_nat k <= room -> (0 < k)%nat ->
  (k <= k')%nat -> i + zlen (leb128_bytes k n room) <= bytes ->
  0 <= v < 2 ^ (i * 7) -> n * 2 ^ (i * 7) < 2 ^ 64 ->
  leb128_loop k' i data p bytes v = Ret (p + i + zlen (leb128_bytes k n room), v + n * 2 ^ (i * 7)).
Proof.
  revert k' i pre n room v. induction k as [|k IH]; intros k' i pre n room v Ed Ep Hi Hn Hr Hk Hk' Hb Hv Hm; [lia|].
  cbn [leb128_bytes] in *. assert (E0 : (0 <? room) = true) by (apply Z.ltb_lt; lia). rewrite E0 in *.
  set (more := Z.shiftr n 7) in *. assert (Hmore : more = n / 128) by (unfold more; by rewrite Z.shiftr_div_pow2 by lia).
  set (d := Z.land n 127) in *.
  assert (Hd : d = n mod 128) by (unfold d; change 127 with (2 ^ 7 - 1); by rewrite land_ones_mod by lia).
  clearbody more d. destruct k' as [|k']; [lia|]. cbn [leb128_loop]. rewrite zlen_cons in Hb |- *.
  set (tl := if 0 =? more then [] else _) in *. pose proof (zlen_nonneg tl). zif.
  set (c := if 0 <? more then 128 else 0) in *.
  assert (Er : rd data (p + i) = Ret (Z.lor d c)) by (rewrite Ed; apply (rd_last pre); lia).
  rewrite Er. cbn [obind].
  destruct (leb_bits d c) as [-> ->]; [lia|unfold c; case_match; auto|].
  assert (0 < 2 ^ (i * 7)) by (apply Z.pow_pos_nonneg; lia).
  set (P := 2 ^ (i * 7)) in *.
  assert (HdP : d * P <= n * P) by (apply Z.mul_le_mono_nonneg_r; lia).
  rewrite leb_digit; [|lia|exact Hv|lia|fold P; lia]. fold P.
  unfold c. destruct (Z.ltb_spec 0 more).
  2: { assert (more = 0) by lia. unfold tl in *. rewrite (proj2 (Z.eqb_eq 0 more)) by lia. rewrite (zlen_nil (A:=Z)).
       cbn [Z.eqb]. do 2 f_equal; [lia|]. replace d with n by lia. done. }
  change (128 =? 0) with false. cbv iota. unfold tl in *. rewrite (proj2 (Z.eqb_neq 0 more)) in * by lia.
  assert (E7 : 2 ^ ((i + 1) * 7) = 128 * P).
  { unfold P. replace ((i + 1) * 7) with (7 + i * 7) by lia. rewrite Z.pow_add_r by lia. done. }
  assert (Ek : 2 ^ (7 * Z.of_nat (S k)) = 128 * 2 ^ (7 * Z.of_nat k)).
  { replace (7 * Z.of_nat (S k)) with (7 + 7 * Z.of_nat k) by lia. rewrite Z.pow_add_r by lia. done. }
  assert (Hk0 : (0 < k)%nat).
  { destruct k as [|k]; [|lia]. change (2 ^ (7 * Z.of_nat 1)) with 128 in Hn. lia. }
  rewrite (IH k' (i + 1) (pre ++ [Z.lor d 128]) more (room - 1)).
  - do 2 f_equal; [lia|]. rewrite E7. replace n with (128 * more + d) by lia. ring.
  - by rewrite Ed, <- app_assoc.
  - rewrite zlen_app. change (zlen [_]) with 1. lia.
  - lia.
  - lia.
  - lia.
  - done.
  - lia.
  - lia.
  - rewrite E7. assert (d * P <= 127 * P) by (apply Z.mul_le_mono_nonneg_r; lia). lia.
  - rewrite E7. assert (128 * more * P <= n * P) by (apply Z.mul_le_mono_nonneg_r; lia). lia.
Qed.

(** A size below 2^63 is read back where it was written. *)
Lemma leb128_roundtrip data pre rest n room bytes :
  data = pre ++ leb128_write n room ++ rest -> 0 <= n < 2 ^ 63 -> 10 <= room ->
  zlen (leb128_write n room) <= bytes ->
  leb128 data (zlen pre) bytes = Ret (zlen pre + zlen (leb128_write n room), n).
Proof.
  intros Ed Hn Hr Hb. unfold leb128, leb128_write in *.
  rewrite (leb128_loop_spec 10 10 0 data pre rest (zlen pre) n room); try done; try lia.
  do 2 f_equal; lia.
Qed.

(** ** A frame whose first packet was lost *)
Section Unpack.
Import AV1.Unpack.
Context `{Alloc} `{Build} {S : Type} (h : rtp_payload_t S).
Hypothesis grants : forall n, alloc_ok n = true.

(** Between two frames: nothing gathered, no OBU in the table. *)
Record between (u : rtp_decode_av1_t) : Prop := {
  bt_num : num u = 0;
  bt_len : blen u = 0;
  bt_arr : Forall (fun ol => ol = (0, 0)) (arr u);
  bt_cap : zlen (arr u) <= N_MAX_OBU
}.

Lemma av1_create_between : between rtp_av1_unpack_create.
Proof. by constructor. Qed.

Lemma onframe_between u s :
  between u -> exists u', rtp_av1_unpack_onframe h u s = Ret (0, (u', s)) /\ between u'.
Proof.
  intros []. unfold rtp_av1_unpack_onframe. rewrite bt_num0.
  assert (E : (if 0 <? zlen (arr u) then do* (_, l) <- rd (arr u) 0 ;; Ret (0 <? l) else Ret false) = Ret false).
  { destruct (arr u) as [|ol a]; [done|]. rewrite zlen_cons. pose proof (zlen_nonneg a). zif.
    apply Forall_cons_1 in bt_arr0 as [-> _]. done. }
  rewrite E. cbn [obind andb]. eexists. split; [done|].
  constructor; cbn; try done.
  - by apply Forall_replicate.
  - rewrite zlen_replicate. by destruct (lost u =? 0).
Qed.

(** A continuation finds no OBU to continue. *)
Lemma append_underflow u data p bytes :
  between u -> 2 <= bytes < 2 ^ 16 -> rtp_av1_unpack_obu_append u data p bytes 0 = Crash OutOfBounds.
Proof.
  intros [] Hb. unfold rtp_av1_unpack_obu_append. rewrite bt_len0. cbv zeta. unfold c_int, RTP_PAYLOAD_MAX_SIZE.
  rewrite (proj2 (Z.leb_le _ _)), (proj2 (Z.ltb_lt (0 + bytes + 9 + 2) _)) by lia. cbn [andb obind].
  do 3 zif. cbn [orb].
  assert (Hg : exists u1, grow_buf u (0 + bytes + 9 + 2) = Some u1 /\ num u1 = 0 /\ arr u1 = arr u).
  { unfold grow_buf. rewrite grants. case_match; eexists; split_and!; done. }
  destruct Hg as (u1 & -> & En & Ea).
  assert (Hg : exists u2, grow_arr u1 0 = inr u2 /\ num u2 = 0).
  { unfold grow_arr. rewrite grants, Ea, En. destruct (Z.leb_spec (zlen (arr u)) (0 + 0)); [|by eexists].
    unfold N_MAX_OBU. zif. by eexists. }
  destruct Hg as (u2 & -> & En2). cbn [Z.eqb negb obind]. rewrite En2. done.
Qed.
End Unpack.

Section Lost.
Import AV1.Unpack.
Context `{Alloc} `{Build} {S : Type} (h : rtp_payload_t S).

(** C0. When the first packet of a frame is lost, the next one starts with the
    continuation of an OBU the unpacker does not have, and the unpacker counts its
    bytes in the cell before its table: a heap underflow, whatever it handled
    before, for every client. *)
Theorem rtp_av1_lost_start_underflow u s hd m b0 fragment rest :
  (forall n, alloc_ok n = true) -> between u -> plain hd -> 0 <= m < 2 ->
  Z.land b0 128 = 128 -> Z.land b0 48 = 0 -> Z.land b0 8 = 0 -> 2 <= zlen fragment < 2 ^ 16 ->
  let packet := packet_bytes (video_packet hd m ([b0] ++ leb128_write (zlen fragment) 10 ++ fragment ++ rest)) in
  rtp_av1_unpack_input h u s packet (zlen packet) = Crash OutOfBounds.
Proof.
  intros Hg Hu Hh Hm Hz Hw Hn Hf packet. unfold rtp_av1_unpack_input, packet.
  set (leb := leb128_write (zlen fragment) 10). set (pl := [b0] ++ leb ++ fragment ++ rest).
  destruct (deserialize_video zero_packet hd m pl Hh Hm) as (pkt & -> & Er & Ep & El). cbn [obind].
  assert (Hpl : zlen pl = 1 + (zlen leb + (zlen fragment + zlen rest))) by (unfold pl; by rewrite !zlen_app).
  pose proof (zlen_nonneg leb). pose proof (zlen_nonneg rest). rewrite El, Ep. zif. cbn [Z.eqb negb orb].
  set (u1 := if flags u =? -1 then _ else u).
  assert (Hu1 : between u1) by (unfold u1; destruct Hu; case_match; by constructor). clearbody u1.
  set (gap := negb (u16 (RtpUtil.seq (rtp pkt)) =? _)). set (u2 := if gap then _ else u1).
  assert (Hu2 : between u2) by (unfold u2; destruct Hu1; case_match; by constructor). clearbody u2.
  assert (Hck : exists u3, (if negb (timestamp (rtp pkt) =? dtimestamp u2) then
         do* (_, (u, s)) <- rtp_av1_unpack_onframe h u2 s ;; Ret (if gap then set_lost u 1 else u, s)
       else Ret (u2, s)) = Ret (u3, s) /\ between u3).
  { case_match; [|by exists u2]. destruct (onframe_between h u2 s Hu2) as (u3 & -> & Hu3). cbn [obind].
    eexists. split; [done|]. destruct Hu3; case_match; by constructor. }
  destruct Hck as (u3 & -> & Hu3). cbn [obind]. change (rd pl 0) with (Ret b0). cbn [obind].
  rewrite Hz, Hw, Hn. change (Z.shiftr 0 4) with 0. cbn [Z.eqb c_assert orb obind andb].
  destruct (256 * (Z.to_nat (zlen pl) + 1))%nat as [|fuel] eqn:Efuel; [lia|]. clear Efuel. cbn [element_loop].
  zif. change (1 <? 0) with false. change (0 =? 0) with true. cbn [orb].
  rewrite (leb128_roundtrip pl [b0] (fragment ++ rest) (zlen fragment) 10); [|done|lia|lia|fold leb; lia].
  fold leb. cbn [obind]. change (zlen [b0]) with 1.
  assert (Es : s64 (zlen fragment) = zlen fragment) by (unfold s64; lia). rewrite Es.
  assert (Es2 : s32 (zlen fragment) = zlen fragment) by (unfold s32; lia).
  zif. rewrite Es2. change (if negb (1 =? 1) || (0 =? 128) then 1 else 0) with 0.
  rewrite (append_underflow Hg (set_pos u3 _ _)); [done| |done].
  destruct Hu3. by constructor.
Qed.
End Lost.

(** Packet 6 of a frame that packet 5 starts, first after a frame that ended. *)
Lemma rtp_av1_lost_start_underflow_witness :
  let hd := mk_rtp_header 2 0 0 0 0 96 6 90 1 in
  let packet := packet_bytes (video_packet hd 1 ([128] ++ leb128_write 3 10 ++ [7; 7; 7] ++ [])) in
  @AV1.Unpack.rtp_av1_unpack_input always_alloc release_build _ log_handler AV1.Unpack.rtp_av1_unpack_create []
    packet (zlen packet) = Crash OutOfBounds.
Proof.
  apply (@rtp_av1_lost_start_underflow always_alloc release_build _ log_handler AV1.Unpack.rtp_av1_unpack_create []
           (mk_rtp_header 2 0 0 0 0 96 6 90 1) 1 128 [7; 7; 7] []); done.
Defined.

(** ** A fragment of one byte *)
(** One OBU of 1420 bytes. *)
Definition sample_obu : list Z := [50] ++ leb128_write 1417 9 ++ replicate 1417 7.

(** C0. The packer leaves one byte of this OBU for a second packet, the unpacker
    refuses elements of one byte without a word, and the frame is delivered one byte
    short with no flag; a build with assertions stops at the wrong size. *)
Theorem rtp_av1_one_byte_fragment_lost :
  let u := AV1.Pack.rtp_av1_pack_create 1434 96 5 7 in
  exists u' p1 p2,
    @AV1.Pack.rtp_av1_pack_input_obu release_build _ log_handler u [] sample_obu (zlen sample_obu) 90
      = Ret (0, (u', [(p1, 90, 0); (p2, 90, 0)])) /\
    zlen p2 = 15 /\
    (let run b := do* (_, (d, s)) <- @AV1.Unpack.rtp_av1_unpack_input always_alloc b _ log_handler
                                       AV1.Unpack.rtp_av1_unpack_create [] p1 (zlen p1) ;;
                  do* (r, (d, s)) <- @AV1.Unpack.rtp_av1_unpack_input always_alloc b _ log_handler d s p2 (zlen p2) ;;
                  Ret (r, s) in
     run release_build = Ret (1, [(take 1419 sample_obu, 90, 0)]) /\ run default_build = Crash AssertFail).
Proof.
  eexists _, _, _. split; [vm_compute; reflexivity|]. split; [reflexivity|]. split; vm_compute; reflexivity.
Qed.
