(* ===== verification/Registry.v ===== *)
(** The table of static payload types (lib/librtp/source/rtp-profile.c) and the
    choice of a payload format from a number and a name
    (lib/librtp/payload/rtp-payload.c). *)

From Stdlib Require Import String Ascii.
From S2P Require Import Prelude RtpUtil RtpPacket Payload H264 H265 PayloadHelper PayloadDesc H266 AV1.

(** ** Static payload types *)
Definition RTP_TYPE_UNKNOWN : Z := 0.
Definition RTP_TYPE_AUDIO : Z := 1.
Definition RTP_TYPE_VIDEO : Z := 2.
Definition RTP_TYPE_SYSTEM : Z := 3.

Record rtp_profile_t := mk_profile {
  prof_payload : Z;
  avtype : Z;
  channels : Z;
  prof_frequency : Z;
  prof_name : string
}.

Definition s_profiles : list rtp_profile_t := [
  mk_profile 0 RTP_TYPE_AUDIO 1 8000 "PCMU";
  mk_profile 1 RTP_TYPE_UNKNOWN 1 8000 "FS-1016 CELP";
  mk_profile 2 RTP_TYPE_UNKNOWN 1 8000 "G721";
  mk_profile 3 RTP_TYPE_AUDIO 1 8000 "GSM";
  mk_profile 4 RTP_TYPE_AUDIO 1 8000 "G723";
  mk_profile 5 RTP_TYPE_AUDIO 1 8000 "DVI4";
  mk_profile 6 RTP_TYPE_AUDIO 1 16000 "DVI4";
  mk_profile 7 RTP_TYPE_AUDIO 1 8000 "LPC";
  mk_profile 8 RTP_TYPE_AUDIO 1 8000 "PCMA";
  mk_profile 9 RTP_TYPE_AUDIO 1 8000 "G722";
  mk_profile 10 RTP_TYPE_AUDIO 2 44100 "L16";
  mk_profile 11 RTP_TYPE_AUDIO 1 44100 "L16";
  mk_profile 12 RTP_TYPE_AUDIO 1 8000 "QCELP";
  mk_profile 13 RTP_TYPE_AUDIO 1 8000 "CN";
  mk_profile 14 RTP_TYPE_AUDIO 2 90000 "MPA";
  mk_profile 15 RTP_TYPE_AUDIO 1 8000 "G728";
  mk_profile 16 RTP_TYPE_AUDIO 1 11025 "DVI4";
  mk_profile 17 RTP_TYPE_AUDIO 1 22050 "DVI4";
  mk_profile 18 RTP_TYPE_AUDIO 1 8000 "G729";
  mk_profile 19 RTP_TYPE_UNKNOWN 0 0 "CN";
  mk_profile 20 RTP_TYPE_UNKNOWN 0 0 EmptyString;
  mk_profile 21 RTP_TYPE_UNKNOWN 0 0 EmptyString;
  mk_profile 22 RTP_TYPE_UNKNOWN 0 0 EmptyString;
  mk_profile 23 RTP_TYPE_UNKNOWN 0 0 EmptyString;
  mk_profile 24 RTP_TYPE_UNKNOWN 0 0 EmptyString;
  mk_profile 25 RTP_TYPE_VIDEO 0 90000 "CELB";
  mk_profile 26 RTP_TYPE_VIDEO 0 90000 "JPEG";
  mk_profile 27 RTP_TYPE_UNKNOWN 0 0 EmptyString;
  mk_profile 28 RTP_TYPE_VIDEO 0 90000 "nv";
  mk_profile 29 RTP_TYPE_UNKNOWN 0 0 EmptyString;
  mk_profile 30 RTP_TYPE_UNKNOWN 0 0 EmptyString;
  mk_profile 31 RTP_TYPE_VIDEO 0 90000 "H261";
  mk_profile 32 RTP_TYPE_VIDEO 0 90000 "MPV";
  mk_profile 33 RTP_TYPE_SYSTEM 0 90000 "MP2T";
  mk_profile 34 RTP_TYPE_VIDEO 0 90000 "H263";
  mk_profile 96 RTP_TYPE_VIDEO 0 90000 "MPG4";
  mk_profile 97 RTP_TYPE_SYSTEM 0 90000 "MP2P";
  mk_profile 98 RTP_TYPE_VIDEO 0 90000 "H264";
  mk_profile 96 RTP_TYPE_VIDEO 0 90000 "H265";
  mk_profile 100 RTP_TYPE_VIDEO 0 90000 "VP8";
  mk_profile 101 RTP_TYPE_VIDEO 0 90000 "VP9";
  mk_profile 102 RTP_TYPE_VIDEO 0 90000 "H265"
].

(** The table is indexed, not searched. *)
Definition rtp_profile_find (payload : Z) : outcome (option rtp_profile_t) :=
  if (payload <? 0) || (35 <=? payload) then Ret None
  else
    do p <- rd s_profiles payload ;;
    Ret (if RTP_TYPE_UNKNOWN =? avtype p then None else Some p).

(** ** Formats *)
Definition lower (c : ascii) : ascii :=
  let n := nat_of_ascii c in
  if (Nat.leb 65 n && Nat.leb n 90)%bool then ascii_of_nat (n + 32) else c.

(** [0 == strcasecmp(a, b)] *)
Fixpoint strcasecmp (a b : string) : bool :=
  match a, b with
  | EmptyString, EmptyString => true
  | String c a, String d b => Ascii.eqb (lower c) (lower d) && strcasecmp a b
  | _, _ => false
  end.

(** The formats of librtp, each the name of an encoder and of a decoder. *)
Inductive format :=
| F_H264 | F_H265 | F_H266 | F_MP4V_ES | F_MP4A_LATM | F_MPEG4_GENERIC
| F_VP8 | F_VP9 | F_AV1 | F_PS | F_TS | F_COMMON | F_MPEG1OR2ES.

#[export] Instance format_eq_dec : EqDecision format.
Proof. solve_decision. Defined.

Record rtp_payload_delegate_t := mk_delegate { encoder : format; decoder : format }.

Definition RTP_PAYLOAD_DYNAMIC : Z := 96.
Definition RTP_PAYLOAD_AV1X : Z := 35.

(** The names, in the order they are compared. *)
Definition named_codecs : list (string * rtp_payload_delegate_t) := [
  ("H264", mk_delegate F_H264 F_H264);
  ("H265", mk_delegate F_H265 F_H265);
  ("HEVC", mk_delegate F_H265 F_H265);
  ("H266", mk_delegate F_H266 F_H266);
  ("MP4V-ES", mk_delegate F_MP4V_ES F_MP4V_ES);
  ("MPEG4", mk_delegate F_MP4V_ES F_MP4V_ES);
  ("MP4A-LATM", mk_delegate F_MP4A_LATM F_MP4A_LATM);
  ("mpeg4-generic", mk_delegate F_MPEG4_GENERIC F_MPEG4_GENERIC);
  ("VP8", mk_delegate F_VP8 F_VP8);
  ("VP9", mk_delegate F_VP9 F_VP9);
  ("AV1", mk_delegate F_AV1 F_AV1);
  ("MP2P", mk_delegate F_TS F_PS);
  ("PS", mk_delegate F_TS F_PS);
  ("MP1S", mk_delegate F_TS F_TS);
  ("opus", mk_delegate F_COMMON F_COMMON);
  ("G726-16", mk_delegate F_COMMON F_COMMON);
  ("G726-24", mk_delegate F_COMMON F_COMMON);
  ("G726-32", mk_delegate F_COMMON F_COMMON);
  ("G726-40", mk_delegate F_COMMON F_COMMON);
  ("G7221", mk_delegate F_COMMON F_COMMON)
]%string.

Fixpoint by_name (name : string) (l : list (string * rtp_payload_delegate_t))
  : option rtp_payload_delegate_t :=
  match l with
  | [] => None
  | (n, d) :: l => if strcasecmp name n then Some d else by_name name l
  end.

Definition by_number (payload : Z) : option rtp_payload_delegate_t :=
  if (payload =? 0) || (payload =? 8) || (payload =? 9) || (payload =? 18)
  then Some (mk_delegate F_COMMON F_COMMON)
  else if (payload =? 14) || (payload =? 32) then Some (mk_delegate F_MPEG1OR2ES F_MPEG1OR2ES)
  else if payload =? RTP_PAYLOAD_MP2T then Some (mk_delegate F_TS F_TS)
  else if payload =? RTP_PAYLOAD_AV1X then Some (mk_delegate F_AV1 F_AV1)
  else None.

(** [None] is the -1 of the code; the build defines neither DEBUG nor _DEBUG. *)
Definition rtp_payload_find `{Build} (payload : Z) (encoding : option string)
  : outcome (option rtp_payload_delegate_t) :=
  c_assert ((0 <=? payload) && (payload <=? 127)) ;;;
  Ret match encoding with
      | Some name => if RTP_PAYLOAD_DYNAMIC <=? payload then by_name name named_codecs
                     else by_number payload
      | None => by_number payload
      end.

Example find_hevc : @rtp_payload_find default_build 96 (Some "hevc"%string) = Ret (Some (mk_delegate F_H265 F_H265)).
Proof. reflexivity. Qed.
Example find_static : @rtp_payload_find default_build 33 (Some "H265"%string) = Ret (Some (mk_delegate F_TS F_TS)).
Proof. reflexivity. Qed.

(** ** The virtual tables *)
(** What a format gives to the RTP layer.  [None] is the null pointer of a failed
    allocation (or of a packet size a transport stream does not fit into). *)
Record rtp_payload_encode_t (S : Type) := mk_encode {
  enc_state : Type;
  enc_create : Z -> Z -> Z -> Z -> outcome (option enc_state);
  enc_get_info : enc_state -> Z * Z;
  enc_input : rtp_payload_t S -> enc_state -> S -> list Z -> Z -> Z -> outcome (Z * (enc_state * S))
}.
Arguments mk_encode {S}.
Arguments enc_state {S}.
Arguments enc_create {S}.
Arguments enc_get_info {S}.
Arguments enc_input {S}.

Record rtp_payload_decode_t (S : Type) := mk_decode {
  dec_state : Type;
  dec_create : option dec_state;
  dec_input : rtp_payload_t S -> dec_state -> S -> list Z -> Z -> outcome (Z * (dec_state * S))
}.
Arguments mk_decode {S}.
Arguments dec_state {S}.
Arguments dec_create {S}.
Arguments dec_input {S}.

Section Tables.
Context `{Alloc} `{Build} {S : Type}.

(** [calloc] of that many bytes. *)
Definition allocated {A} (bytes : Z) (a : A) : option A := if alloc_ok bytes then Some a else None.

(** A packer that is a packet and a size: 152 bytes. *)
Definition packer_create (size ptype sq src : Z) : outcome (option rtp_packer) :=
  Ret (allocated 152 (pack_create size ptype sq src)).

Definition packer_encode (input : rtp_payload_t S -> rtp_packer -> S -> list Z -> Z -> Z -> outcome (Z * (rtp_packer * S)))
  : rtp_payload_encode_t S := mk_encode rtp_packer packer_create pack_get_info input.

Definition rtp_h264_encode : rtp_payload_encode_t S := packer_encode H264.Pack.rtp_h264_pack_input.
Definition rtp_h265_encode : rtp_payload_encode_t S := packer_encode H265.Pack.rtp_h265_pack_input.
Definition rtp_h266_encode : rtp_payload_encode_t S := packer_encode H266.Pack.rtp_h266_pack_input.
Definition rtp_mp4v_es_encode : rtp_payload_encode_t S := packer_encode rtp_mp4v_es_encode_input.
Definition rtp_mp4a_latm_encode : rtp_payload_encode_t S := packer_encode rtp_mp4a_latm_pack_input.
Definition rtp_mpeg4_generic_encode : rtp_payload_encode_t S := packer_encode rtp_mpeg4_generic_pack_input.
Definition rtp_vp8_encode : rtp_payload_encode_t S := packer_encode rtp_vp8_pack_input.
Definition rtp_vp9_encode : rtp_payload_encode_t S := packer_encode rtp_vp9_pack_input.
Definition rtp_common_encode : rtp_payload_encode_t S := packer_encode rtp_pack_input.
Definition rtp_av1_encode : rtp_payload_encode_t S :=
  mk_encode AV1.Pack.rtp_encode_av1_t
    (fun size ptype sq src => Ret (allocated 168 (AV1.Pack.rtp_av1_pack_create size ptype sq src)))
    (fun u => pack_get_info (AV1.Pack.pkr u)) AV1.Pack.rtp_av1_pack_input_obu.
Definition rtp_ts_encode : rtp_payload_encode_t S :=
  mk_encode rtp_packer
    (fun size ptype sq src => Ret (if alloc_ok 152 then rtp_ts_pack_create size ptype sq src else None))
    pack_get_info rtp_ts_pack_input.
Definition rtp_mpeg1or2es_encode : rtp_payload_encode_t S :=
  mk_encode rtp_packer
    (fun size ptype sq src =>
       if alloc_ok 152 then do p <- rtp_mpeg2es_pack_create size ptype sq src ;; Ret (Some p) else Ret None)
    pack_get_info rtp_mpeg2es_pack_input.

(** An unpacker that gathers with the helper: 72 bytes. *)
Definition helper_decode
    (input : rtp_payload_t S -> rtp_payload_helper_t -> S -> list Z -> Z -> outcome (Z * (rtp_payload_helper_t * S)))
  : rtp_payload_decode_t S :=
  mk_decode rtp_payload_helper_t (allocated 72 rtp_payload_helper_create) input.

Definition rtp_h264_decode : rtp_payload_decode_t S :=
  mk_decode H264.Unpack.rtp_decode_h264_t (allocated 64 H264.Unpack.rtp_h264_unpack_create)
    H264.Unpack.rtp_h264_unpack_input.
Definition rtp_h265_decode : rtp_payload_decode_t S :=
  mk_decode H265.Unpack.rtp_decode_h265_t (allocated 64 H265.Unpack.rtp_h265_unpack_create)
    H265.Unpack.rtp_h265_unpack_input.
Definition rtp_h266_decode : rtp_payload_decode_t S :=
  mk_decode H266.Unpack.rtp_decode_h266_t (allocated 64 H266.Unpack.rtp_h266_unpack_create)
    H266.Unpack.rtp_h266_unpack_input.
Definition rtp_av1_decode : rtp_payload_decode_t S :=
  mk_decode AV1.Unpack.rtp_decode_av1_t (allocated 80 AV1.Unpack.rtp_av1_unpack_create)
    AV1.Unpack.rtp_av1_unpack_input.
Definition rtp_mp4v_es_decode : rtp_payload_decode_t S := helper_decode rtp_decode_mp4v_es.
Definition rtp_mp4a_latm_decode : rtp_payload_decode_t S := helper_decode rtp_decode_mp4a_latm.
Definition rtp_mpeg4_generic_decode : rtp_payload_decode_t S := helper_decode rtp_decode_mpeg4_generic.
Definition rtp_vp8_decode : rtp_payload_decode_t S := helper_decode rtp_decode_vp8.
Definition rtp_vp9_decode : rtp_payload_decode_t S := helper_decode rtp_decode_vp9.
Definition rtp_ps_decode : rtp_payload_decode_t S := helper_decode rtp_decode_ps.
Definition rtp_mpeg1or2es_decode : rtp_payload_decode_t S := helper_decode rtp_decode_mpeg2es.
Definition rtp_common_decode : rtp_payload_decode_t S := helper_decode rtp_decode_rfc2250.
Definition rtp_ts_decode : rtp_payload_decode_t S := helper_decode rtp_decode_ts.

(** Program streams have no packer of their own. *)
Definition encoder_of (f : format) : rtp_payload_encode_t S :=
  match f with
  | F_H264 => rtp_h264_encode
  | F_H265 => rtp_h265_encode
  | F_H266 => rtp_h266_encode
  | F_MP4V_ES => rtp_mp4v_es_encode
  | F_MP4A_LATM => rtp_mp4a_latm_encode
  | F_MPEG4_GENERIC => rtp_mpeg4_generic_encode
  | F_VP8 => rtp_vp8_encode
  | F_VP9 => rtp_vp9_encode
  | F_AV1 => rtp_av1_encode
  | F_PS | F_TS => rtp_ts_encode
  | F_COMMON => rtp_common_encode
  | F_MPEG1OR2ES => rtp_mpeg1or2es_encode
  end.

Definition decoder_of (f : format) : rtp_payload_decode_t S :=
  match f with
  | F_H264 => rtp_h264_decode
  | F_H265 => rtp_h265_decode
  | F_H266 => rtp_h266_decode
  | F_MP4V_ES => rtp_mp4v_es_decode
  | F_MP4A_LATM => rtp_mp4a_latm_decode
  | F_MPEG4_GENERIC => rtp_mpeg4_generic_decode
  | F_VP8 => rtp_vp8_decode
  | F_VP9 => rtp_vp9_decode
  | F_AV1 => rtp_av1_decode
  | F_PS => rtp_ps_decode
  | F_TS => rtp_ts_decode
  | F_COMMON => rtp_common_decode
  | F_MPEG1OR2ES => rtp_mpeg1or2es_decode
  end.

(** ** The dispatch: a table and the state its functions work on *)
Record encode_ctx := mk_encode_ctx { e_table : rtp_payload_encode_t S; e_packer : enc_state e_table }.
Record decode_ctx := mk_decode_ctx { d_table : rtp_payload_decode_t S; d_packer : dec_state d_table }.

Definition rtp_payload_encode_create (getsize payload : Z) (name : option string) (sq src : Z)
  : outcome (option encode_ctx) :=
  if negb (alloc_ok 24) then Ret None
  else
    do c <- rtp_payload_find payload name ;;
    match c with
    | None => Ret None
    | Some c =>
        do p <- enc_create (encoder_of (encoder c)) getsize (u8 payload) sq src ;;
        Ret (option_map (mk_encode_ctx (encoder_of (encoder c))) p)
    end.

Definition rtp_payload_decode_create (payload : Z) (name : option string) : outcome (option decode_ctx) :=
  if negb (alloc_ok 24) then Ret None
  else
    do c <- rtp_payload_find payload name ;;
    Ret match c with
        | None => None
        | Some c =>
            match dec_create (decoder_of (decoder c)) with
            | None => None
            | Some p => Some (mk_decode_ctx (decoder_of (decoder c)) p)
            end
        end.

Definition rtp_payload_encode_getinfo (c : encode_ctx) : Z * Z := enc_get_info (e_table c) (e_packer c).

Definition rtp_payload_encode_input (h : rtp_payload_t S) (c : encode_ctx) (s : S) (data : list Z)
    (bytes ts : Z) : outcome (Z * (encode_ctx * S)) :=
  do* (r, (p, s)) <- enc_input (e_table c) h (e_packer c) s data bytes ts ;;
  Ret (r, (mk_encode_ctx (e_table c) p, s)).

Definition rtp_payload_decode_input (h : rtp_payload_t S) (c : decode_ctx) (s : S) (packet : list Z)
    (bytes : Z) : outcome (Z * (decode_ctx * S)) :=
  do* (r, (p, s)) <- dec_input (d_table c) h (d_packer c) s packet bytes ;;
  Ret (r, (mk_decode_ctx (d_table c) p, s)).
End Tables.
Arguments encode_ctx : clear implicits.
Arguments decode_ctx : clear implicits.
