(* ===== verification/RegistryProps.v ===== *)
(** What the RTP layer may rely on when it calls a payload format through its
    table: the laws of a decoder, and which formats obey them. *)

From Stdlib Require Import String.
From S2P Require Import Prelude RtpUtil RtpPacket Payload PayloadSpec H264 H264Props H265 H265Props PayloadHelper HelperProps PayloadDesc PayloadDescProps H266 H266Props AV1 AV1Props Registry.

(** ** The laws of a decoder, for datagrams of at most [max] bytes *)
Class DecoderLaws `{Build} {S : Type} (max : Z) (d : rtp_payload_decode_t S) := {
  dec_ok : dec_state d -> Prop;
  dec_create_ok : forall u, dec_create d = Some u -> dec_ok u;
  dec_input_ok : forall h u s packet bytes,
    dec_ok u -> bytes_ok packet -> bytes <= zlen packet -> bytes <= max ->
    post (dec_input d h u s packet bytes) (fun '(_, (u', _)) => dec_ok u')
}.

(** The formats whose decoders keep to the datagram: the others read past the end of
    some packet, except LATM, whose length counter leaves the [int] on packets beyond
    8 MB. *)
Definition safe_format (max : Z) (f : format) : bool :=
  match f with
  | F_VP9 | F_AV1 | F_MPEG1OR2ES => false
  | F_MP4A_LATM => max <=? 2 ^ 23
  | _ => true
  end.

Section Instances.
Context `{Alloc} `{Build} {S : Type} (max : Z).

(** The laws for a table whose creation is one allocation. *)
Lemma allocated_some {A} n (a b : A) : allocated n a = Some b -> b = a.
Proof. unfold allocated. case_match; [by intros [= <-]|done]. Qed.

Definition h264_laws : DecoderLaws (S:=S) max rtp_h264_decode.
Proof.
  refine {| dec_ok := H264Props.UnpackSafe.decode_ok : dec_state rtp_h264_decode -> Prop |}.
  - intros u Hu. apply allocated_some in Hu as ->. apply H264Props.UnpackSafe.h264_create_ok.
  - intros h u s packet bytes Hu Hb Hl _. eapply post_mono; [by apply H264Props.UnpackSafe.h264_unpack_input_safe|].
    by intros [r [u' s']].
Defined.

Definition h265_laws : DecoderLaws (S:=S) max rtp_h265_decode.
Proof.
  refine {| dec_ok := H265Props.UnpackSafe.decode_ok : dec_state rtp_h265_decode -> Prop |}.
  - intros u Hu. apply allocated_some in Hu as ->. apply H265Props.UnpackSafe.h265_create_ok.
  - intros h u s packet bytes Hu Hb Hl _. eapply post_mono; [by apply H265Props.UnpackSafe.h265_unpack_input_safe|].
    by intros [r [u' s']].
Defined.

Definition h266_laws : DecoderLaws (S:=S) max rtp_h266_decode.
Proof.
  refine {| dec_ok := H265Props.UnpackSafe.decode_ok : dec_state rtp_h266_decode -> Prop |}.
  - intros u Hu. apply allocated_some in Hu as ->. apply H265Props.UnpackSafe.h265_create_ok.
  - intros h u s packet bytes Hu Hb Hl _. eapply post_mono; [by apply H266Props.UnpackSafe.h266_unpack_input_safe|].
    by intros [r [u' s']].
Defined.

(** The formats that gather with the helper share its invariant. *)
Definition helper_laws input :
  (forall h u s packet bytes, helper_ok u -> bytes_ok packet -> bytes <= zlen packet -> bytes <= max ->
     post (input h u s packet bytes) decoded) -> DecoderLaws (S:=S) max (helper_decode input).
Proof.
  intros Hin. refine {| dec_ok := helper_ok : dec_state (helper_decode input) -> Prop |}.
  - intros u Hu. apply allocated_some in Hu as ->. apply helper_create_ok.
  - intros. eapply post_mono; [by apply Hin|]. by intros [r [u' s']].
Defined.

Hypothesis max_size : max <= RTP_PAYLOAD_MAX_SIZE.

Definition decoder_laws (f : format) : safe_format max f = true -> DecoderLaws (S:=S) max (decoder_of f).
Proof.
  destruct f; intros Hf; try discriminate Hf; cbn [decoder_of];
    [apply h264_laws|apply h265_laws|apply h266_laws|apply helper_laws; intros..].
  - apply mp4v_safe; done || lia.
  - apply Z.leb_le in Hf. apply latm_safe; done || lia.
  - apply mpeg4_generic_safe; done || lia.
  - apply vp8_safe; done || lia.
  - apply ps_safe; done || lia.
  - apply ts_safe; done || lia.
  - apply rfc2250_safe; done || lia.
Defined.

(** A context the registry made, and what its format promises of its state. *)
Definition ctx_ok (c : decode_ctx S) : Prop :=
  exists (L : DecoderLaws max (d_table c)), @dec_ok _ _ _ _ L (d_packer c).

Lemma decode_create_ok payload name c :
  (forall dg, rtp_payload_find payload name = Ret (Some dg) -> safe_format max (decoder dg) = true) ->
  rtp_payload_decode_create payload name = Ret (Some c) -> ctx_ok c.
Proof.
  intros Hs. unfold rtp_payload_decode_create. destruct (negb _); [done|].
  destruct (rtp_payload_find payload name) as [[dg|]|]; simpl; [|done..]. destruct (dec_create _) as [p|] eqn:Ep; [|done].
  intros [= <-]. exists (decoder_laws (decoder dg) (Hs dg eq_refl)). by apply dec_create_ok.
Qed.

Lemma decode_input_ok h c s packet bytes :
  ctx_ok c -> bytes_ok packet -> bytes <= zlen packet -> bytes <= max ->
  post (rtp_payload_decode_input h c s packet bytes) (fun '(_, (c', _)) => ctx_ok c').
Proof.
  intros [L Hc] Hb Hl Hm. unfold rtp_payload_decode_input. ostep.
  eapply post_mono; [by apply (dec_input_ok h)|]. intros [r [u' s']] Hu. ostep. by exists L.
Qed.

(** The datagrams of a receiver, one after the other. *)
Fixpoint decode_run (h : rtp_payload_t S) (c : decode_ctx S) (s : S) (packets : list (list Z))
  : outcome (decode_ctx S * S) :=
  match packets with
  | [] => Ret (c, s)
  | p :: packets => do* (_, (c, s)) <- rtp_payload_decode_input h c s p (zlen p) ;; decode_run h c s packets
  end.

Lemma decode_run_ok h c s packets :
  ctx_ok c -> Forall (fun p => bytes_ok p /\ zlen p <= max) packets ->
  post (decode_run h c s packets) (fun '(c', _) => ctx_ok c').
Proof.
  intros Hc Hp. revert c s Hc. induction Hp as [|p packets [Hb Hl] _ IH]; intros c s Hc; cbn [decode_run]; [done|].
  ostep. eapply post_mono; [by apply decode_input_ok|]. intros [r [c' s']] Hc'. by apply IH.
Qed.
End Instances.

(** ** Which formats are safe *)
(** From a new context on, no datagram makes the decoder of [f] touch memory
    outside its objects or run forever, whatever the client does. *)
Definition decoder_safe `{Alloc} `{Build} (f : format) : Prop :=
  forall (h : rtp_payload_t (list delivery)) s p packets,
    dec_create (decoder_of f) = Some p -> Forall (fun q => bytes_ok q /\ zlen q <= 2 ^ 16) packets ->
    post (decode_run h (mk_decode_ctx (decoder_of f) p) s packets) (fun _ => True).

Section Exact.
Context `{Alloc} `{Build}.
Hypothesis grants : forall n, alloc_ok n = true.

(** One datagram that takes the decoder out of its bounds. *)
Definition killer (f : format) : list Z :=
  [128; 32; 0; 6; 0; 0; 0; 90; 0; 0; 0; 1] ++
  match f with
  | F_VP9 => [80; 1]
  | F_AV1 => [128; 2; 7; 7]
  | _ => [0; 0; 0; 0]
  end.

Lemma killer_kills f p :
  safe_format (2 ^ 16) f = false -> dec_create (decoder_of f) = Some p ->
  decode_run log_handler (mk_decode_ctx (decoder_of f) p) [] [killer f] = Crash OutOfBounds.
Proof.
  intros Hs Hc. destruct f; try discriminate Hs; apply allocated_some in Hc as ->; cbn [decode_run]; cbv zeta;
    unfold rtp_payload_decode_input; cbn [d_table d_packer decoder_of].
  - by vm_compute.
  - change (dec_input rtp_av1_decode) with (@AV1.Unpack.rtp_av1_unpack_input _ _ (list delivery)).
    pose proof (rtp_av1_lost_start_underflow log_handler AV1.Unpack.rtp_av1_unpack_create []
      (mk_rtp_header 2 0 0 0 0 32 6 90 1) 0 128 [7; 7] [] grants av1_create_between) as Hk.
    cbv zeta in Hk. change (packet_bytes _) with (killer F_AV1) in Hk.
    rewrite Hk; [reflexivity|by repeat constructor|lia|reflexivity..|by vm_compute].
  - by vm_compute.
Qed.

(** C7. Of the thirteen formats exactly ten are safe to receive: for VP9, AV1 and the
    MPEG-1/2 streams one datagram is enough to make the decoder leave its buffers;
    the others keep to theirs on every sequence of datagrams, with every client. *)
Theorem decoder_safe_iff f : decoder_safe f <-> safe_format (2 ^ 16) f = true.
Proof.
  split.
  - intros Hs. destruct (safe_format _ f) eqn:E; [done|]. exfalso.
    assert (Hc : exists p, dec_create (decoder_of (S:=list delivery) f) = Some p).
    { destruct f; try discriminate E; (eexists; cbn; unfold allocated; rewrite grants; reflexivity). }
    destruct Hc as [p Hp]. specialize (Hs log_handler [] p [killer f] Hp).
    rewrite (killer_kills f p E Hp) in Hs. cbn [post] in Hs. apply Hs.
    apply Forall_singleton. unfold killer. destruct f; try discriminate E;
      (split; [repeat (apply Forall_cons_2; [unfold is_byte; lia|]); constructor|done]).
  - intros Hf h s p packets Hp Hq. eapply post_mono; [|by intros].
    apply (decode_run_ok (2 ^ 16)); [|done].
    exists (decoder_laws (2 ^ 16) ltac:(done) f Hf). by apply dec_create_ok.
Qed.
End Exact.

Lemma decoder_safe_iff_witness :
  @decoder_safe always_alloc default_build F_VP8 /\ ~ @decoder_safe always_alloc default_build F_VP9.
Proof.
  split; [by apply (proj2 (@decoder_safe_iff always_alloc default_build (fun _ => eq_refl) F_VP8))|].
  intros Hs. by apply (proj1 (@decoder_safe_iff always_alloc default_build (fun _ => eq_refl) F_VP9)) in Hs.
Defined.
