(* ===== verification/CDouble.v ===== *)
(** The floating-point arithmetic the session uses: IEEE 754 binary64 ([double])
    and binary32 ([float]), rounding to nearest even, computed by the
    specification of the Standard Library. *)

From Stdlib Require Export SpecFloat.
From S2P Require Import Prelude.

(** What a conversion to an integer type gives when the value does not fit: the
    standard leaves it undefined, the hardware gives something. *)
Class Fpu := { out_of_range : spec_float -> Z }.
Definition saturating : Fpu := {| out_of_range _ := 2 ^ 32 - 1 |}.

(** ** [double] *)
Definition d_of_int (z : Z) : spec_float := binary_normalize 53 1024 z 0 false.
Definition d_add : spec_float -> spec_float -> spec_float := SFadd 53 1024.
Definition d_sub : spec_float -> spec_float -> spec_float := SFsub 53 1024.
Definition d_mul : spec_float -> spec_float -> spec_float := SFmul 53 1024.
Definition d_div : spec_float -> spec_float -> spec_float := SFdiv 53 1024.
Definition d_lt : spec_float -> spec_float -> bool := SFltb.
Definition d_le : spec_float -> spec_float -> bool := SFleb.
Definition d_zero : spec_float := S754_zero false.

(** ** [float] *)
Definition f_of_int (z : Z) : spec_float := binary_normalize 24 128 z 0 false.
Definition f_mul : spec_float -> spec_float -> spec_float := SFmul 24 128.
Definition f_div : spec_float -> spec_float -> spec_float := SFdiv 24 128.

(** ** Conversion to an integer: the fraction is dropped *)
Definition truncate (x : spec_float) : option Z :=
  match x with
  | S754_zero _ => Some 0
  | S754_finite s m e =>
      let a := if 0 <=? e then Z.pos m * 2 ^ e else Z.pos m / 2 ^ (- e) in
      Some (if s then - a else a)
  | _ => None
  end.

Definition to_u32 `{Fpu} (x : spec_float) : Z :=
  match truncate x with
  | Some z => if (0 <=? z) && (z <? 2 ^ 32) then z else u32 (out_of_range x)
  | None => u32 (out_of_range x)
  end.

Definition to_int `{Fpu} (x : spec_float) : Z :=
  match truncate x with
  | Some z => if (- 2 ^ 31 <=? z) && (z <? 2 ^ 31) then z else s32 (out_of_range x)
  | None => s32 (out_of_range x)
  end.

Lemma to_u32_range `{Fpu} x : 0 <= to_u32 x < 2 ^ 32.
Proof.
  unfold to_u32, u32. destruct (truncate x) as [z|]; [|lia].
  destruct (Z.leb_spec 0 z), (Z.ltb_spec z (2 ^ 32)); simpl; lia.
Qed.

Lemma to_int_range `{Fpu} x : - 2 ^ 31 <= to_int x < 2 ^ 31.
Proof.
  unfold to_int, s32. destruct (truncate x) as [z|]; [|lia].
  destruct (Z.leb_spec (- 2 ^ 31) z), (Z.ltb_spec z (2 ^ 31)); simpl; lia.
Qed.

(** 1/16 of a jitter of 160 is 10; 1/3 is rounded as the hardware rounds it. *)
Example d_div_exact : d_div (d_of_int 160) (d_of_int 16) = d_of_int 10.
Proof. reflexivity. Qed.
Example d_div_third :
  d_div (d_of_int 1) (d_of_int 3) = S754_finite false 6004799503160661 (-54).
Proof. reflexivity. Qed.
Example truncate_half : truncate (d_div (d_of_int (-7)) (d_of_int 2)) = Some (-3).
Proof. reflexivity. Qed.
