(* ===== verification/RtpTime.v ===== *)
(** Wall clock and NTP time (lib/librtp/source/rtp-time.c): microseconds since
    1970 and 32.32 fixed-point seconds since 1900. *)

From S2P Require Import Prelude.

(** 1/1/1970 in seconds since 1/1/1900. *)
Definition NTP_EPOCH : Z := 0x83AA7E80.

Definition clock2ntp (clock : Z) : Z :=
  let ntp := u64 (Z.shiftl (u64 (clock / 1000000 + NTP_EPOCH)) 32) in
  Z.lor ntp (u32 (u64 (Z.shiftl (clock mod 1000000) 26) / 15625)).

Definition ntp2clock (ntp : Z) : Z :=
  let clock := u64 (u32 (u32 (Z.shiftr ntp 32) - NTP_EPOCH) * 1000000) in
  u64 (clock + Z.shiftr (u64 (Z.land ntp (2 ^ 32 - 1) * 15625)) 26).

(** The seconds and the fraction of an NTP time. *)
Lemma clock2ntp_split clock :
  0 <= clock < 2 ^ 64 ->
  clock2ntp clock = u32 (clock / 1000000 + NTP_EPOCH) * 2 ^ 32 + (clock mod 1000000) * 2 ^ 26 / 15625.
Proof.
  intros Hc. unfold clock2ntp, NTP_EPOCH. rewrite !Z.shiftl_mul_pow2 by lia.
  assert (Hr : 0 <= clock mod 1000000 < 1000000) by (apply Z.mod_pos_bound; lia).
  assert (Hs : 0 <= clock / 1000000 < 2 ^ 45) by (split; [apply Z.div_pos|apply Z.div_lt_upper_bound]; lia).
  set (r := clock mod 1000000) in *. set (s := clock / 1000000) in *. clearbody r s.
  unfold u64, u32. rewrite (Z.mod_small (r * 2 ^ 26)), (Z.mod_small (s + 0x83AA7E80)) by lia.
  assert (Hf : 0 <= r * 2 ^ 26 / 15625 < 2 ^ 32).
  { split; [apply Z.div_pos; lia|apply Z.div_lt_upper_bound; lia]. }
  rewrite (Z.mod_small (r * 2 ^ 26 / 15625)) by lia.
  change (2 ^ 64) with (2 ^ 32 * 2 ^ 32). rewrite Z.mul_mod_distr_r by lia.
  by rewrite (lor_add _ _ 32) by (try apply Z.mod_pos_bound; lia).
Qed.

Lemma ntp2clock_split s f :
  0 <= s < 2 ^ 32 -> 0 <= f < 2 ^ 32 ->
  ntp2clock (s * 2 ^ 32 + f) = u32 (s - NTP_EPOCH) * 1000000 + f * 15625 / 2 ^ 26.
Proof.
  intros Hs Hf. unfold ntp2clock. rewrite !Z.shiftr_div_pow2 by lia. rewrite land_ones_mod by lia.
  rewrite Z.div_add_l, (Z.div_small f) by lia. rewrite Z.add_0_r.
  rewrite (Z.add_comm (s * _)), Z.mod_add, (Z.mod_small f) by lia.
  assert (Hq : 0 <= f * 15625 / 2 ^ 26 < 1000000).
  { split; [apply Z.div_pos; lia|apply Z.div_lt_upper_bound; lia]. }
  set (q := u32 (s - NTP_EPOCH)). assert (Hu : 0 <= u32 (u32 s - NTP_EPOCH) < 2 ^ 32).
  { unfold u32 at 1. apply Z.mod_pos_bound. lia. }
  replace (u32 (u32 s - NTP_EPOCH)) with q in *;
    [|unfold q, u32; by rewrite (Z.mod_small s) by lia].
  unfold u64. rewrite (Z.mod_small (f * 15625)), (Z.mod_small (q * _)) by lia.
  apply Z.mod_small. lia.
Qed.

(** C0. A clock before the year 2106 survives the way to NTP time and back up to
    one microsecond, never forwards: the fraction is rounded down twice. *)
Theorem clock_ntp_roundtrip clock :
  0 <= clock < 2 ^ 32 * 1000000 ->
  clock - 1 <= ntp2clock (clock2ntp clock) <= clock.
Proof.
  intros Hc. rewrite clock2ntp_split by lia.
  pose proof (Z.div_mod clock 1000000 ltac:(lia)) as Hdm.
  assert (Hr : 0 <= clock mod 1000000 < 1000000) by (apply Z.mod_pos_bound; lia).
  assert (Hs : 0 <= clock / 1000000 < 2 ^ 32) by (split; [apply Z.div_pos|apply Z.div_lt_upper_bound]; lia).
  set (r := clock mod 1000000) in *. set (s := clock / 1000000) in *. clearbody r s.
  assert (Hf : 15625 * (r * 2 ^ 26 / 15625) <= r * 2 ^ 26 < 15625 * (r * 2 ^ 26 / 15625) + 15625).
  { pose proof (Z.div_mod (r * 2 ^ 26) 15625 ltac:(lia)).
    pose proof (Z.mod_pos_bound (r * 2 ^ 26) 15625 ltac:(lia)). lia. }
  set (f := r * 2 ^ 26 / 15625) in *. clearbody f.
  assert (0 <= f < 2 ^ 32) by lia.
  rewrite ntp2clock_split by (done || (unfold u32; apply Z.mod_pos_bound; lia)).
  assert (Hq : r - 1 <= f * 15625 / 2 ^ 26 <= r).
  { split; [apply Z.div_le_lower_bound; lia|apply Z.div_le_upper_bound; lia]. }
  replace (u32 (u32 (s + NTP_EPOCH) - NTP_EPOCH)) with s; [lia|].
  unfold u32. rewrite Zminus_mod_idemp_l. replace (s + NTP_EPOCH - NTP_EPOCH) with s by lia.
  by rewrite Z.mod_small by lia.
Qed.

Lemma clock_ntp_roundtrip_witness :
  1597463063913627 - 1 <= ntp2clock (clock2ntp 1597463063913627) <= 1597463063913627.
Proof. apply (clock_ntp_roundtrip 1597463063913627). lia. Defined.

(** The instant of [rtp_time_test]. *)
Example ntp_of_2020 : ntp2clock 0xe2e1d897e9c38b05 = 1597463063913140.
Proof. reflexivity. Qed.
Example ntp_of_2020_back : clock2ntp (ntp2clock 0xe2e1d897e9c38b05) = 0xe2e1d897e9c38b04.
Proof. reflexivity. Qed.
