(* ===== verification/RtpMember.v ===== *)
(** Session members (lib/librtp/source/rtp-member.c, rtp-member-list.c).

    Members are counted objects that several lists point to, so they live in a
    store of addresses: reaching a freed member is an invalid access. *)

From stdpp Require Import gmap.
From S2P Require Import Prelude RtpUtil CDouble.

Definition RTP_PROBATION : Z := 2.

Record rtcp_sdes_item_t := mk_sdes { sdes_pt : Z; sdes_len : Z; sdes_data : option (list Z) }.

Record rtcp_sr_t := mk_sr {
  sr_ssrc : Z; ntpmsw : Z; ntplsw : Z; rtpts : Z; spc : Z; soc : Z
}.

(** The RTP reception (or sending) state of a member. *)
Record rtp_source := mk_source {
  rtp_seq : Z;
  rtp_timestamp : Z;
  rtp_clock : Z;
  rtp_packets : Z;
  rtp_bytes : Z;
  jitter : spec_float;
  rtp_packets0 : Z;
  rtp_expected0 : Z;
  rtp_probation : Z;
  rtp_seq_base : Z;
  rtp_seq_bad : Z;
  rtp_seq_cycles : Z
}.

Record rtp_member := mk_member {
  ref : Z;
  mssrc : Z;
  rtcp_sr : rtcp_sr_t;
  sdes : list rtcp_sdes_item_t;
  rtcp_clock : Z;
  source : rtp_source
}.

Definition set_ref (m : rtp_member) (n : Z) : rtp_member :=
  mk_member n (mssrc m) (rtcp_sr m) (sdes m) (rtcp_clock m) (source m).
Definition set_sdes (m : rtp_member) (its : list rtcp_sdes_item_t) : rtp_member :=
  mk_member (ref m) (mssrc m) (rtcp_sr m) its (rtcp_clock m) (source m).
Definition set_source (m : rtp_member) (s : rtp_source) : rtp_member :=
  mk_member (ref m) (mssrc m) (rtcp_sr m) (sdes m) (rtcp_clock m) s.
Definition set_report (m : rtp_member) (sr : rtcp_sr_t) (clock : Z) : rtp_member :=
  mk_member (ref m) (mssrc m) sr (sdes m) clock (source m).

(** ** The store: allocated members by address; [brk] was never allocated *)
Record store := mk_store { cells : gmap nat rtp_member; brk : nat }.

Definition load (σ : store) (a : nat) : outcome rtp_member :=
  match cells σ !! a with Some m => Ret m | None => Crash OutOfBounds end.
Definition save (σ : store) (a : nat) (m : rtp_member) : store :=
  mk_store (<[a := m]> (cells σ)) (brk σ).
Definition free_cell (σ : store) (a : nat) : store :=
  mk_store (delete a (cells σ)) (brk σ).

(** Following a pointer that may be NULL, or that was never set. *)
Definition pointee {A} (o : option A) : outcome A :=
  match o with Some a => Ret a | None => Crash OutOfBounds end.

(** ** Members *)
Definition SIZEOF_MEMBER : Z := 248.

Definition new_member (s : Z) : rtp_member :=
  mk_member 1 s (mk_sr s 0 0 0 0 0) (replicate 9 (mk_sdes 0 0 None)) 0
    (mk_source 0 0 0 0 0 d_zero 0 0 RTP_PROBATION 0 0 0).

Definition rtp_member_create `{Alloc} (σ : store) (s : Z) : option nat * store :=
  if alloc_ok SIZEOF_MEMBER then
    (Some (brk σ), mk_store (<[brk σ := new_member s]> (cells σ)) (S (brk σ)))
  else (None, σ).

Definition rtp_member_addref `{Build} (σ : store) (a : nat) : outcome store :=
  do m <- load σ a ;;
  c_assert (0 <? ref m) ;;;
  Ret (save σ a (set_ref m (ref m + 1))).

Fixpoint free_sdes `{Build} (i : Z) (its : list rtcp_sdes_item_t) : outcome unit :=
  match its with
  | [] => Ret tt
  | it :: its =>
      (match sdes_data it with
       | Some _ => c_assert (sdes_pt it =? i) ;;; c_assert (0 <? sdes_len it)
       | None => Ret tt
       end) ;;;
      free_sdes (i + 1) its
  end.

Definition rtp_member_release `{Build} (σ : store) (a : nat) : outcome store :=
  do m <- load σ a ;;
  c_assert (0 <? ref m) ;;;
  if ref m - 1 =? 0 then free_sdes 0 (sdes m) ;;; Ret (free_cell σ a)
  else Ret (save σ a (set_ref m (ref m - 1))).

(** [realloc]: the old bytes that fit, then uninitialised ones. *)
Definition c_realloc `{Alloc} (old : option (list Z)) (n : Z) : list Z :=
  let old := take (Z.to_nat n) (default [] old) in
  old ++ replicate (Z.to_nat (n - zlen old)) heap_byte.

Definition rtp_member_setvalue `{Alloc} `{Build} (σ : store) (member : option nat)
    (item : Z) (data : list Z) (bytes : Z) : outcome (Z * store) :=
  c_assert ((1 <=? item) && (item <=? 8)) ;;;
  if (item <? 0) || (9 <=? item) || (255 <? bytes) then Ret (-1, σ)
  else
    do a <- pointee member ;;
    do m <- load σ a ;;
    do it <- rd (sdes m) item ;;
    if (sdes_len it <? bytes) && negb (alloc_ok bytes) then Ret (-1, σ)
    else
      let buf := if sdes_len it <? bytes then Some (c_realloc (sdes_data it) bytes)
                 else sdes_data it in
      do buf <-
        (if 0 <? bytes then
           do b <- pointee buf ;;
           do src <- rdn data 0 bytes ;;
           do b <- wrn b 0 src ;;
           Ret (Some b)
         else Ret buf) ;;
      do its <- wrn (sdes m) item [mk_sdes (u8 item) (u8 bytes) buf] ;;
      Ret (0, save σ a (set_sdes m its)).

(** ** Lists of members: the first two in place, the others in an array *)
Definition N_SOURCE : Z := 2.

Record rtp_member_list := mk_list {
  lmembers : list (option nat);
  lptr : list (option nat);
  lcount : Z;
  lcapacity : Z
}.

Definition rtp_member_list_create `{Alloc} : option rtp_member_list :=
  if alloc_ok 32 then Some (mk_list [None; None] [] 0 0) else None.

(** The [i]-th pointer. *)
Definition list_at (p : rtp_member_list) (i : Z) : outcome nat :=
  do o <- (if i <? N_SOURCE then rd (lmembers p) i else rd (lptr p) (i - N_SOURCE)) ;;
  pointee o.

Fixpoint release_from `{Build} (n : nat) (i : Z) (σ : store) (p : rtp_member_list) : outcome store :=
  match n with
  | O => Ret σ
  | S n =>
      do a <- list_at p i ;;
      do σ <- rtp_member_release σ a ;;
      release_from n (i + 1) σ p
  end.

Definition rtp_member_list_destroy `{Build} (σ : store) (p : rtp_member_list) : outcome store :=
  do σ <- release_from (Z.to_nat (lcount p)) 0 σ p ;;
  (if negb (bool_decide (lptr p = [])) then c_assert (0 <? lcapacity p) else Ret tt) ;;;
  Ret σ.

Definition rtp_member_list_count (p : rtp_member_list) : Z := lcount p.

Definition rtp_member_list_get (p : rtp_member_list) (index : Z) : outcome (option nat) :=
  if (lcount p <=? index) || (index <? 0) then Ret None
  else if N_SOURCE <=? index then rd (lptr p) (index - N_SOURCE) else rd (lmembers p) index.

Fixpoint find_from (n : nat) (i : Z) (σ : store) (p : rtp_member_list) (s : Z)
  : outcome (option nat) :=
  match n with
  | O => Ret None
  | S n =>
      do a <- list_at p i ;;
      do m <- load σ a ;;
      if mssrc m =? s then Ret (Some a) else find_from n (i + 1) σ p s
  end.

Definition rtp_member_list_find (σ : store) (p : rtp_member_list) (s : Z) : outcome (option nat) :=
  find_from (Z.to_nat (lcount p)) 0 σ p s.

(** The array with room for one more pointer; [None]: no memory. *)
Definition list_grow `{Alloc} (p : rtp_member_list) : option rtp_member_list :=
  if lcapacity p <=? lcount p - N_SOURCE then
    if alloc_ok ((lcapacity p + 8) * 8) then
      Some (mk_list (lmembers p) (lptr p ++ replicate 8 None) (lcount p) (lcapacity p + 8))
    else None
  else Some p.

Definition rtp_member_list_add `{Alloc} `{Build} (σ : store) (p : rtp_member_list) (a : nat)
  : outcome (Z * (store * rtp_member_list)) :=
  match (if N_SOURCE <=? lcount p then list_grow p else Some p) with
  | None => Ret (- ENOMEM, (σ, p))
  | Some p =>
      do p <-
        (if N_SOURCE <=? lcount p then
           do its <- wrn (lptr p) (lcount p - N_SOURCE) [Some a] ;;
           Ret (mk_list (lmembers p) its (lcount p) (lcapacity p))
         else
           do its <- wrn (lmembers p) (lcount p) [Some a] ;;
           Ret (mk_list its (lptr p) (lcount p) (lcapacity p))) ;;
      do σ <- rtp_member_addref σ a ;;
      Ret (0, (σ, mk_list (lmembers p) (lptr p) (lcount p + 1) (lcapacity p)))
  end.

(** The moves that close the gap at [i]. *)
Definition list_unlink (p : rtp_member_list) (i : Z) : outcome rtp_member_list :=
  if i <? N_SOURCE then
    do ms <-
      (if i + 1 <? N_SOURCE then
         do t <- rdn (lmembers p) (i + 1) (N_SOURCE - i - 1) ;;
         wrn (lmembers p) i t
       else Ret (lmembers p)) ;;
    if N_SOURCE <? lcount p then
      do o <- rd (lptr p) 0 ;;
      do ms <- wrn ms (N_SOURCE - 1) [o] ;;
      do t <- rdn (lptr p) 1 (lcount p - N_SOURCE - 1) ;;
      do its <- wrn (lptr p) 0 t ;;
      Ret (mk_list ms its (lcount p) (lcapacity p))
    else Ret (mk_list ms (lptr p) (lcount p) (lcapacity p))
  else if i + 1 <? lcount p then
    do t <- rdn (lptr p) (i + 1 - N_SOURCE) (lcount p - i - 1) ;;
    do its <- wrn (lptr p) (i - N_SOURCE) t ;;
    Ret (mk_list (lmembers p) its (lcount p) (lcapacity p))
  else Ret p.

Fixpoint delete_from `{Build} (n : nat) (i : Z) (σ : store) (p : rtp_member_list) (s : Z)
  : outcome (Z * (store * rtp_member_list)) :=
  match n with
  | O => Ret (-1, (σ, p))
  | S n =>
      do a <- list_at p i ;;
      do m <- load σ a ;;
      if mssrc m =? s then
        do p <- list_unlink p i ;;
        do σ <- rtp_member_release σ a ;;
        Ret (0, (σ, mk_list (lmembers p) (lptr p) (lcount p - 1) (lcapacity p)))
      else delete_from n (i + 1) σ p s
  end.

Definition rtp_member_list_delete `{Build} (σ : store) (p : rtp_member_list) (s : Z)
  : outcome (Z * (store * rtp_member_list)) :=
  delete_from (Z.to_nat (lcount p)) 0 σ p s.
