(* ===== verification/RtpMemberSpec.v ===== *)
(** Members and member lists: the invariant that counts references, and the
    lists as lists of addresses. *)

From Stdlib Require Import Permutation.
From stdpp Require Import gmap.
From S2P Require Import Prelude RtpUtil CDouble RtpMember.

(** ** The store *)
Record item_ok (it : rtcp_sdes_item_t) : Prop := {
  item_len : 0 <= sdes_len it < 256;
  item_data : match sdes_data it with
              | Some d => sdes_len it <= zlen d
              | None => sdes_len it = 0
              end
}.

Definition member_ok (m : rtp_member) : Prop :=
  length (sdes m) = 9%nat /\ Forall item_ok (sdes m).

(** How many of the pointers in [roots] point to [a]. *)
Definition refs (roots : list nat) (a : nat) : Z := Z.of_nat (count_occ Nat.eq_dec roots a).

(** Every pointer of [roots] points to an allocated member, and every allocated
    member counts the pointers to it. *)
Record heap_ok (σ : store) (roots : list nat) : Prop := {
  heap_cell : forall a m, cells σ !! a = Some m ->
    ref m = refs roots a /\ 0 < refs roots a /\ member_ok m;
  heap_root : forall a, 0 < refs roots a -> is_Some (cells σ !! a);
  heap_brk : forall a, is_Some (cells σ !! a) -> (a < brk σ)%nat
}.

Lemma refs_cons r a b : refs (b :: r) a = refs r a + (if decide (b = a) then 1 else 0).
Proof. unfold refs. destruct (decide (b = a)); [rewrite count_occ_cons_eq|rewrite count_occ_cons_neq]; auto; lia. Qed.

Lemma refs_nonneg r a : 0 <= refs r a.
Proof. unfold refs. lia. Qed.

Lemma refs_in r a : a ∈ r <-> 0 < refs r a.
Proof. unfold refs. rewrite list_elem_of_In, (count_occ_In Nat.eq_dec). lia. Qed.

Lemma refs_perm r r' a : r ≡ₚ r' -> refs r a = refs r' a.
Proof. intros HP. unfold refs. by rewrite (proj1 (Permutation_count_occ Nat.eq_dec r r') HP a). Qed.

#[export] Instance heap_ok_perm σ : Proper (Permutation ==> iff) (heap_ok σ).
Proof.
  assert (Hone : forall r r', r ≡ₚ r' -> heap_ok σ r -> heap_ok σ r').
  { intros r r' HP [Hc Hr Hb]. split; auto; intros a; [intros m|]; rewrite <-!(refs_perm r r' a HP); auto. }
  intros r r' HP. split; apply Hone; [done|by symmetry].
Qed.

Section Store.
Context `{Build}.

Lemma load_root σ roots a (Q : rtp_member -> Prop) :
  heap_ok σ roots -> a ∈ roots ->
  (forall m, cells σ !! a = Some m -> ref m = refs roots a -> 0 < ref m -> member_ok m -> Q m) ->
  post (load σ a) Q.
Proof.
  intros [Hc Hr Hb] Ha HQ. apply refs_in in Ha as Ha'. destruct (Hr a Ha') as [m Hm].
  unfold load. rewrite Hm. simpl. destruct (Hc a m Hm) as (?&?&?). apply HQ; auto; lia.
Qed.

Lemma new_member_ok s : member_ok (new_member s).
Proof. split; [done|]. apply Forall_replicate. split; simpl; lia. Qed.

Lemma create_heap `{Alloc} σ roots s :
  heap_ok σ roots ->
  match rtp_member_create σ s with
  | (Some a, σ') => heap_ok σ' (a :: roots) /\ cells σ' !! a = Some (new_member s) /\
      (a ∉ roots) /\ (forall b, b ∈ roots -> cells σ' !! b = cells σ !! b)
  | (None, σ') => σ' = σ
  end.
Proof.
  intros [Hc Hr Hb]. unfold rtp_member_create. destruct (alloc_ok _); [|done].
  assert (Hn : refs roots (brk σ) = 0).
  { pose proof (refs_nonneg roots (brk σ)). destruct (decide (0 < refs roots (brk σ))) as [Hp|]; [|lia].
    specialize (Hb _ (Hr _ Hp)). lia. }
  assert (Hfresh : brk σ ∉ roots) by (rewrite refs_in; lia).
  assert (Hother : forall b, 0 < refs roots b -> b <> brk σ) by (intros b Hb' ->; lia).
  split_and!; [split; simpl| | |].
  - intros a m. rewrite refs_cons. destruct (decide (brk σ = a)) as [<-|Hne].
    + rewrite lookup_insert_eq. intros [= <-]. rewrite Hn. split_and!; [done|lia|apply new_member_ok].
    + rewrite lookup_insert_ne by done. rewrite Z.add_0_r. apply Hc.
  - intros a. rewrite refs_cons. destruct (decide (brk σ = a)) as [<-|Hne].
    + rewrite lookup_insert_eq. by eexists.
    + rewrite lookup_insert_ne by done. rewrite Z.add_0_r. apply Hr.
  - intros a Ha. destruct (decide (brk σ = a)) as [<-|Hne]; [lia|].
    rewrite lookup_insert_ne in Ha by done. specialize (Hb _ Ha). lia.
  - simpl. by rewrite lookup_insert_eq.
  - done.
  - intros b Hb'. simpl. rewrite lookup_insert_ne; [done|]. apply refs_in in Hb'. by apply not_eq_sym, Hother.
Qed.

(** Writing a member whose count is kept. *)
Lemma save_heap σ roots a m m' :
  heap_ok σ roots -> cells σ !! a = Some m -> ref m' = ref m -> member_ok m' ->
  heap_ok (save σ a m') roots.
Proof.
  intros [Hc Hr Hb] Hm Href Hok. destruct (Hc a m Hm) as (?&?&?). split; simpl.
  - intros b mb. destruct (decide (a = b)) as [<-|Hne].
    + rewrite lookup_insert_eq. intros [= <-]. split_and!; [lia|lia|done].
    + rewrite lookup_insert_ne by done. apply Hc.
  - intros b Hb'. destruct (decide (a = b)) as [<-|Hne]; [rewrite lookup_insert_eq; by eexists|].
    rewrite lookup_insert_ne by done. by apply Hr.
  - intros b Hb'. destruct (decide (a = b)) as [<-|Hne]; [apply Hb; by eexists|].
    rewrite lookup_insert_ne in Hb' by done. by apply Hb.
Qed.

Lemma addref_heap σ roots a :
  heap_ok σ roots -> a ∈ roots ->
  post (rtp_member_addref σ a) (fun σ' => heap_ok σ' (a :: roots) /\
    exists m, cells σ !! a = Some m /\ σ' = save σ a (set_ref m (ref m + 1))).
Proof.
  intros Hh Ha. unfold rtp_member_addref. ostep. eapply load_root; [done..|].
  intros m Hm Hrm Hpos Hok. ostep. apply post_assert. intros _. ostep. split; [|eauto].
  destruct Hh as [Hc Hr Hb]. split; simpl.
  - intros b mb. rewrite refs_cons. destruct (decide (a = b)) as [<-|Hne].
    + rewrite lookup_insert_eq. intros [= <-]. simpl. split_and!; [lia|lia|done].
    + rewrite lookup_insert_ne by done. rewrite Z.add_0_r. apply Hc.
  - intros b. rewrite refs_cons. destruct (decide (a = b)) as [<-|Hne]; [rewrite lookup_insert_eq; by eexists|].
    rewrite lookup_insert_ne by done. rewrite Z.add_0_r. apply Hr.
  - intros b Hb'. destruct (decide (a = b)) as [<-|Hne]; [apply Hb; by eexists|].
    rewrite lookup_insert_ne in Hb' by done. by apply Hb.
Qed.

Lemma free_sdes_post its i : post (free_sdes i its) (fun _ => True).
Proof.
  revert i. induction its as [|it its IH]; intros i; simpl; [done|]. ostep.
  apply post_mono with (P := fun _ => True); [|intros; apply IH].
  destruct (sdes_data it); [|done]. ostep. apply post_assert. intros _.
  by apply post_assert.
Qed.

(** A released member is freed exactly when that was the last pointer. *)
Lemma release_heap σ roots a :
  heap_ok σ (a :: roots) ->
  post (rtp_member_release σ a) (fun σ' => heap_ok σ' roots /\
    forall b, b <> a -> cells σ' !! b = cells σ !! b).
Proof.
  intros Hh. unfold rtp_member_release. ostep. eapply load_root; [done|left|].
  intros m Hm Hrm Hpos Hok. ostep. apply post_assert. intros _.
  rewrite refs_cons, decide_True in Hrm by done. destruct Hh as [Hc Hr Hb].
  assert (Hoth : forall b, a <> b -> refs (a :: roots) b = refs roots b).
  { intros b Hne. rewrite refs_cons, decide_False by done. lia. }
  destruct (Z.eqb_spec (ref m - 1) 0) as [Hz|Hz].
  - ostep. eapply post_mono; [apply free_sdes_post|]. intros [] _. split; [split; simpl|].
    + intros b mb. destruct (decide (a = b)) as [<-|Hne]; [by rewrite lookup_delete_eq|].
      rewrite lookup_delete_ne by done. rewrite <-(Hoth b Hne). apply Hc.
    + intros b Hp. destruct (decide (a = b)) as [<-|Hne]; [lia|].
      rewrite lookup_delete_ne by done. apply Hr. by rewrite (Hoth b Hne).
    + intros b Hb'. apply Hb. destruct (decide (a = b)) as [<-|Hne]; [by eexists|].
      by rewrite lookup_delete_ne in Hb' by done.
    + intros b Hne. simpl. by rewrite lookup_delete_ne by done.
  - ostep. pose proof (refs_nonneg roots a). split; [split; simpl|].
    + intros b mb. destruct (decide (a = b)) as [<-|Hne].
      * rewrite lookup_insert_eq. intros [= <-]. simpl. split_and!; [lia|lia|done].
      * rewrite lookup_insert_ne by done. rewrite <-(Hoth b Hne). apply Hc.
    + intros b Hp. destruct (decide (a = b)) as [<-|Hne]; [rewrite lookup_insert_eq; by eexists|].
      rewrite lookup_insert_ne by done. apply Hr. by rewrite (Hoth b Hne).
    + intros b Hb'. apply Hb. destruct (decide (a = b)) as [<-|Hne]; [by eexists|].
      by rewrite lookup_insert_ne in Hb' by done.
    + intros b Hne. simpl. by rewrite lookup_insert_ne by done.
Qed.
End Store.

(** ** Lists *)
(** [p] holds the pointers [l]. *)
Record list_rep (p : rtp_member_list) (l : list nat) : Prop := {
  rep_count : lcount p = zlen l;
  rep_two : length (lmembers p) = 2%nat;
  rep_capacity : zlen (lptr p) = lcapacity p;
  rep_room : lcount p <= 2 + lcapacity p;
  rep_slots : take (length l) (lmembers p ++ lptr p) = Some <$> l
}.

(** The first member of a list with an SSRC, and its position. *)
Definition ssrc_of (σ : store) (a : nat) : option Z := mssrc <$> cells σ !! a.

Definition has_ssrc (σ : store) (s : Z) (a : nat) : Prop := ssrc_of σ a = Some s.
#[export] Instance has_ssrc_dec σ s a : Decision (has_ssrc σ s a) := decide (ssrc_of σ a = Some s).

Definition spec_find (σ : store) (l : list nat) (s : Z) : option nat :=
  snd <$> list_find (has_ssrc σ s) l.

Definition spec_delete (σ : store) (l : list nat) (s : Z) : list nat :=
  match list_find (has_ssrc σ s) l with
  | Some (i, _) => delete i l
  | None => l
  end.

Lemma rep_lookup p l i a :
  list_rep p l -> l !! i = Some a -> (lmembers p ++ lptr p) !! i = Some (Some a).
Proof.
  intros Hr Hi. assert (Hlt : (i < length l)%nat) by (apply lookup_lt_Some in Hi; done).
  rewrite <-(lookup_take_lt _ (length l) i) by done.
  rewrite (rep_slots _ _ Hr), list_lookup_fmap, Hi. done.
Qed.

Lemma list_at_spec p l (i : nat) a :
  list_rep p l -> l !! i = Some a -> list_at p (Z.of_nat i) = Ret a.
Proof.
  intros Hr Hi. pose proof (rep_lookup _ _ _ _ Hr Hi) as HL. unfold list_at, N_SOURCE.
  pose proof (rep_two _ _ Hr) as H2. destruct (Z.ltb_spec (Z.of_nat i) 2).
  - rewrite lookup_app_l in HL by lia. rewrite (proj2 (rd_lookup _ (Z.of_nat i) (Some a) ltac:(lia))); [done|].
    by rewrite Nat2Z.id.
  - rewrite lookup_app_r, H2 in HL by lia. rewrite (proj2 (rd_lookup _ (Z.of_nat i - 2) (Some a) ltac:(lia))); [done|].
    by replace (Z.to_nat (Z.of_nat i - 2)) with (i - 2)%nat by lia.
Qed.

Lemma rep_nil ms its : length ms = 2%nat -> list_rep (mk_list ms its 0 (zlen its)) [].
Proof. intros. pose proof (zlen_nonneg its). by split; simpl; [| | |lia|]. Qed.

Lemma create_rep `{Alloc} p : rtp_member_list_create = Some p -> list_rep p [].
Proof. unfold rtp_member_list_create. destruct (alloc_ok 32); intros [= <-]. by apply (rep_nil _ []). Qed.

(** All pointers of the list are allocated. *)
Definition live (σ : store) (l : list nat) : Prop := Forall (fun a => is_Some (cells σ !! a)) l.

Lemma find_from_spec σ p l s n i :
  list_rep p l -> live σ l -> (n + i = length l)%nat ->
  find_from n (Z.of_nat i) σ p s = Ret (spec_find σ (drop i l) s).
Proof.
  intros Hr Hl. revert i. induction n as [|n IH]; intros i Hn; simpl.
  - by rewrite drop_ge by lia.
  - destruct (lookup_lt_is_Some_2 l i) as [a Ha]; [lia|].
    rewrite (list_at_spec _ _ _ _ Hr Ha). cbn [obind].
    destruct (proj1 (Forall_lookup _ _) Hl _ _ Ha) as [m Hm]. unfold load. rewrite Hm. cbn [obind].
    rewrite (drop_S _ _ _ Ha). unfold spec_find. cbn [list_find].
    destruct (Z.eqb_spec (mssrc m) s) as [He|He].
    + rewrite decide_True; [done|]. unfold has_ssrc, ssrc_of. rewrite Hm. simpl. by rewrite He.
    + rewrite decide_False; [|unfold has_ssrc, ssrc_of; rewrite Hm; simpl; congruence].
      replace (Z.of_nat i + 1) with (Z.of_nat (S i)) by lia. rewrite IH by lia.
      unfold spec_find. by destruct (list_find _ (drop (S i) l)) as [[? ?]|].
Qed.

Lemma find_spec_list σ p l s :
  list_rep p l -> live σ l -> rtp_member_list_find σ p s = Ret (spec_find σ l s).
Proof.
  intros Hr Hl. unfold rtp_member_list_find. rewrite (rep_count _ _ Hr).
  change 0 with (Z.of_nat 0). rewrite (find_from_spec _ _ l) by (done || (unfold zlen; lia)). done.
Qed.

Lemma get_spec p l i :
  list_rep p l -> 0 <= i < zlen l -> exists a, rtp_member_list_get p i = Ret (Some a) /\ l !! Z.to_nat i = Some a.
Proof.
  intros Hr Hi. destruct (lookup_lt_is_Some_2 l (Z.to_nat i)) as [a Ha]; [unfold zlen in Hi; lia|].
  exists a. split; [|done]. pose proof (rep_lookup _ _ _ _ Hr Ha) as HL. pose proof (rep_two _ _ Hr) as H2.
  unfold rtp_member_list_get, N_SOURCE. rewrite (rep_count _ _ Hr). do 2 zif.
  destruct (Z.leb_spec 2 i).
  - rewrite lookup_app_r, H2 in HL by lia. apply rd_lookup; [lia|].
    by replace (Z.to_nat (i - 2)) with (Z.to_nat i - 2)%nat by lia.
  - rewrite lookup_app_l in HL by lia. apply rd_lookup; [lia|done].
Qed.

(** ** Closing a gap *)
Lemma delete_last {A} (s : list A) n : (0 < n <= length s)%nat -> delete (n - 1)%nat (take n s) = take (n - 1) s.
Proof.
  intros Hn. rewrite delete_take_drop, take_take, drop_ge, app_nil_r by (rewrite length_take; lia).
  by rewrite Nat.min_l by lia.
Qed.

Lemma memmove_delete {A} (s : list A) j n :
  0 <= j < n -> n <= zlen s ->
  exists t s', rdn s (j + 1) (n - j - 1) = Ret t /\ wrn s j t = Ret s' /\ zlen s' = zlen s /\
    take (Z.to_nat n - 1) s' = delete (Z.to_nat j) (take (Z.to_nat n) s).
Proof.
  intros Hj Hn. unfold zlen in *. unfold rdn. do 2 zif. unfold zlen. zif. cbn [andb].
  set (t := take (Z.to_nat (n - j - 1)) (drop (Z.to_nat (j + 1)) s)).
  assert (Ht : length t = Z.to_nat (n - j - 1)) by (unfold t; rewrite length_take, length_drop; lia).
  exists t. unfold wrn, zlen. rewrite Ht. do 2 zif. cbn [andb]. eexists. split_and!; [done..| |].
  - rewrite !length_app, length_take, length_drop, Ht. lia.
  - rewrite delete_take_drop, take_app, length_take, take_take.
    rewrite !take_take, take_app, Ht. rewrite (take_ge t) by lia.
    replace (Z.to_nat n - 1 - Z.to_nat j `min` length s - Z.to_nat (n - j - 1))%nat with 0%nat by lia.
    rewrite take_0, app_nil_r. f_equal; [f_equal; lia|].
    unfold t. rewrite skipn_firstn_comm. f_equal; [lia|]. f_equal. lia.
Qed.

Lemma fmap_delete {A B} (f : A -> B) (l : list A) (i : nat) : f <$> delete i l = delete i (f <$> l).
Proof. by rewrite !delete_take_drop, fmap_app, fmap_take, fmap_drop. Qed.

Lemma unlink_spec p l (i : nat) :
  list_rep p l -> (i < length l)%nat ->
  exists p', list_unlink p (Z.of_nat i) = Ret p' /\
    list_rep (mk_list (lmembers p') (lptr p') (lcount p' - 1) (lcapacity p')) (delete i l).
Proof.
  intros [Hc H2 Hcap Hroom Hs] Hi. destruct p as [ms its cnt cap]. simpl in *. subst cap cnt.
  assert (HL : zlen (delete i l) = zlen l - 1).
  { unfold zlen. rewrite length_delete by (by apply lookup_lt_is_Some_2). lia. }
  assert (Hfin : forall ms' its', length ms' = 2%nat -> zlen its' = zlen its ->
      take (length l - 1) (ms' ++ its') = delete i (take (length l) (ms ++ its)) ->
      list_rep (mk_list ms' its' (zlen l - 1) (zlen its)) (delete i l)).
  { intros ms' its' Hm Hi' Ht. split; simpl; [lia|done|lia|lia|].
    rewrite fmap_delete, <-Hs, <-Ht. f_equal. unfold zlen in HL. lia. }
  assert (Hlast : (length l - 1 = i)%nat ->
      take (length l - 1) (ms ++ its) = delete i (take (length l) (ms ++ its))).
  { intros <-. symmetry. apply delete_last. rewrite length_app. unfold zlen in Hroom. lia. }
  assert (Hcat : forall k (a b : list (option nat)), length a = 2%nat ->
      take (S (S k)) (a ++ b) = a ++ take k b).
  { intros k a b Ha. destruct a as [|? [|? [|]]]; done. }
  unfold list_unlink, N_SOURCE. cbn [lmembers lptr lcount lcapacity].
  destruct (Z.ltb_spec (Z.of_nat i) 2) as [Hi2|Hi2].
  - destruct ms as [|x [|y [|]]]; try done.
    assert (Hms : (if Z.of_nat i + 1 <? 2
        then do t <- rdn [x; y] (Z.of_nat i + 1) (2 - Z.of_nat i - 1) ;; wrn [x; y] (Z.of_nat i) t
        else Ret [x; y]) = Ret [if decide (i = 0%nat) then y else x; y]).
    { assert (i = 0%nat \/ i = 1%nat) as [->| ->] by lia; done. }
    rewrite Hms. cbn [obind]. clear Hms.
    assert (Hz : [if decide (i = 0%nat) then y else x] = delete i [x; y]).
    { assert (i = 0%nat \/ i = 1%nat) as [->| ->] by lia; done. }
    destruct (Z.ltb_spec 2 (zlen l)) as [Hl|Hl].
    + destruct its as [|o its]; [change (zlen (@nil (option nat))) with 0 in *; lia|].
      change (rd (o :: its) 0) with (Ret o). cbn [obind].
      change (wrn [?a; y] (2 - 1) [o]) with (Ret [a; o]). cbn [obind].
      replace (zlen l - 2 - 1) with (zlen l - 2 - 0 - 1) by lia. change (rdn (o :: its) 1) with (rdn (o :: its) (0 + 1)).
      destruct (memmove_delete (o :: its) 0 (zlen l - 2)) as (t & s' & Hrd & Hwr & Hs' & Ht); [lia|lia|].
      rewrite Hrd. cbn [obind]. rewrite Hwr. cbn [obind]. eexists. split; [done|]. cbn [lmembers lptr lcount lcapacity].
      apply Hfin; [done|done|]. unfold zlen in Hl, Ht.
      destruct (length l) as [|[|[|k]]] eqn:E; try lia.
      replace (Z.to_nat (Z.of_nat (S (S (S k))) - 2)) with (S k) in Ht by lia. simpl in Ht.
      rewrite Nat.sub_0_r in Ht. replace (S (S (S k)) - 1)%nat with (S (S k)) by lia.
      rewrite !Hcat by done. rewrite Ht. simpl.
      assert (i = 0%nat \/ i = 1%nat) as [->| ->] by lia; done.
    + eexists. split; [done|]. cbn [lmembers lptr lcount lcapacity]. apply Hfin; [done|done|].
      unfold zlen in Hl. destruct l as [|? [|? [|]]]; simpl in *; try lia;
        assert (i = 0%nat \/ i = 1%nat) as [->| ->] by lia; try done; lia.
  - destruct (Z.ltb_spec (Z.of_nat i + 1) (zlen l)) as [Hl|Hl].
    + replace (Z.of_nat i + 1 - 2) with (Z.of_nat i - 2 + 1) by lia.
      replace (zlen l - Z.of_nat i - 1) with (zlen l - 2 - (Z.of_nat i - 2) - 1) by lia.
      destruct (memmove_delete its (Z.of_nat i - 2) (zlen l - 2)) as (t & s' & Hrd & Hwr & Hs' & Ht); [lia|lia|].
      rewrite Hrd. cbn [obind]. rewrite Hwr. cbn [obind]. eexists. split; [done|]. cbn [lmembers lptr lcount lcapacity].
      apply Hfin; [done|done|]. unfold zlen in Hl, Ht.
      destruct (length l) as [|[|k]] eqn:E; try lia.
      replace (Z.to_nat (Z.of_nat (S (S k)) - 2)) with k in Ht by lia.
      destruct i as [|[|i]]; try lia.
      replace (Z.to_nat (Z.of_nat (S (S i)) - 2)) with i in Ht by lia.
      destruct k as [|k]; [lia|]. replace (S (S (S k)) - 1)%nat with (S (S k)) by lia.
      rewrite !Hcat by done. replace (S k - 1)%nat with k in Ht by lia. rewrite Ht.
      destruct ms as [|? [|? [|]]]; done.
    + eexists. split; [done|]. cbn [lmembers lptr lcount lcapacity]. apply Hfin; [done|done|].
      apply Hlast. unfold zlen in Hl. lia.
Qed.

(** ** The operations on lists *)
Section Lists.
Context `{Build}.

Lemma rep_append ms its l a :
  list_rep (mk_list ms its (zlen l) (zlen its)) l -> zlen l < 2 + zlen its ->
  if 2 <=? zlen l
  then exists its', wrn its (zlen l - 2) [Some a] = Ret its' /\
         list_rep (mk_list ms its' (zlen l + 1) (zlen its)) (l ++ [a])
  else exists ms', wrn ms (zlen l) [Some a] = Ret ms' /\
         list_rep (mk_list ms' its (zlen l + 1) (zlen its)) (l ++ [a]).
Proof.
  intros [_ H2 _ _ Hs] Hroom. simpl in *. pose proof (zlen_nonneg l) as Hl. unfold zlen in *.
  assert (Hfin : forall ms' its', length ms' = 2%nat -> length its' = length its ->
      ms' ++ its' = <[length l := Some a]> (ms ++ its) ->
      list_rep (mk_list ms' its' (Z.of_nat (length l) + 1) (Z.of_nat (length its))) (l ++ [a])).
  { intros ms' its' Hm Hi He. split; simpl; unfold zlen; rewrite ?length_app; simpl; try lia.
    rewrite fmap_app, <-Hs, Nat.add_1_r, He. simpl.
    rewrite (take_S_r _ (length l) (Some a)); [by rewrite take_insert_ge by lia|].
    apply list_lookup_insert_eq. rewrite length_app. lia. }
  destruct (Z.leb_spec 2 (Z.of_nat (length l))).
  - eexists. split; [apply wrn_single; unfold zlen; lia|]. apply Hfin; [done|by rewrite length_insert|].
    rewrite insert_app_r_alt by lia. do 2 f_equal. lia.
  - eexists. split; [apply wrn_single; unfold zlen; lia|]. apply Hfin; [by rewrite length_insert|done|].
    rewrite insert_app_l by lia. do 2 f_equal. lia.
Qed.

Lemma heap_live σ roots l : heap_ok σ roots -> (forall a, a ∈ l -> a ∈ roots) -> live σ l.
Proof.
  intros Hh Hin. apply Forall_forall. intros a Ha%list_elem_of_In. apply (heap_root _ _ Hh a). apply (proj1 (refs_in _ _)).
  apply Hin, Ha.
Qed.

(** Adding appends the pointer, or changes nothing when there is no memory. *)
Lemma add_list `{Alloc} σ p l roots a :
  list_rep p l -> heap_ok σ roots -> a ∈ roots ->
  post (rtp_member_list_add σ p a) (fun '(r, (σ', p')) =>
    r = - ENOMEM /\ σ' = σ /\ p' = p \/
    r = 0 /\ list_rep p' (l ++ [a]) /\ heap_ok σ' (a :: roots) /\
      exists m, cells σ !! a = Some m /\ σ' = save σ a (set_ref m (ref m + 1))).
Proof.
  intros Hr Hh Ha. unfold rtp_member_list_add.
  assert (Hgrow : match (if N_SOURCE <=? lcount p then list_grow p else Some p) with
                  | None => True
                  | Some p' => list_rep p' l /\ lcount p' < 2 + lcapacity p'
                  end).
  { destruct Hr as [Hc H2 Hcap Hroom Hs]. unfold N_SOURCE, list_grow.
    pose proof (zlen_nonneg l). pose proof (zlen_nonneg (lptr p)).
    destruct (Z.leb_spec 2 (lcount p)); [|split; [by split|lia]].
    destruct (Z.leb_spec (lcapacity p) (lcount p - N_SOURCE)) as [Hfull|Hfull]; unfold N_SOURCE in Hfull;
      [|split; [by split|lia]].
    destruct (alloc_ok _); [|done]. split; [|simpl; lia]. split; simpl; [done|done| |lia|].
    - rewrite zlen_app. change (zlen _) with 8 at 2. lia.
    - rewrite app_assoc, take_app_le; [done|]. rewrite length_app. unfold zlen in *. lia. }
  destruct (if N_SOURCE <=? lcount p then list_grow p else Some p) as [p'|]; [|ostep; by left].
  destruct Hgrow as [Hr' Hroom']. destruct p' as [ms its cnt cap]. simpl in Hroom'.
  assert (cnt = zlen l /\ cap = zlen its) as [-> ->] by (destruct Hr'; simpl in *; lia).
  pose proof (rep_append _ _ _ a Hr' Hroom') as Happ. unfold N_SOURCE. cbn [lmembers lptr lcount lcapacity].
  assert (Hlink : post (rtp_member_addref σ a) (fun σ' => heap_ok σ' (a :: roots) /\
      exists m, cells σ !! a = Some m /\ σ' = save σ a (set_ref m (ref m + 1)))) by by apply addref_heap.
  destruct (2 <=? zlen l).
  - destruct Happ as (its' & -> & Hrep). cbn [obind lmembers lptr lcount lcapacity]. ostep.
    eapply post_mono; [exact Hlink|]. intros σ' [Hh' Hs']. ostep. right.
    simpl. split_and!; [done| |done|done].
    destruct Hrep; by split.
  - destruct Happ as (ms' & -> & Hrep). cbn [obind lmembers lptr lcount lcapacity]. ostep.
    eapply post_mono; [exact Hlink|]. intros σ' [Hh' Hs']. ostep. right. done.
Qed.

Lemma delete_from_spec σ p l rest s n i :
  list_rep p l -> heap_ok σ (l ++ rest) -> (n + i = length l)%nat ->
  Forall (fun a => ~ has_ssrc σ s a) (take i l) ->
  post (delete_from n (Z.of_nat i) σ p s) (fun '(_, (σ', p')) =>
    list_rep p' (spec_delete σ l s) /\ heap_ok σ' (spec_delete σ l s ++ rest)).
Proof.
  intros Hr Hh. revert i. induction n as [|n IH]; intros i Hn Hpre; simpl.
  - rewrite take_ge in Hpre by lia. unfold spec_delete. rewrite (proj2 (list_find_None _ l)); done.
  - destruct (lookup_lt_is_Some_2 l i) as [a Ha]; [lia|].
    rewrite (list_at_spec _ _ _ _ Hr Ha). cbn [obind]. ostep.
    eapply load_root; [done|apply elem_of_app; left; by eapply list_elem_of_lookup_2|].
    intros m Hm _ _ _. destruct (Z.eqb_spec (mssrc m) s) as [He|He].
    + assert (Hf : list_find (has_ssrc σ s) l = Some (i, a)).
      { apply list_find_Some. split_and!; [done|unfold has_ssrc, ssrc_of; rewrite Hm; simpl; by rewrite He|].
        intros j y Hj Hlt. apply (proj1 (Forall_lookup _ _) Hpre j). by rewrite lookup_take_lt. }
      unfold spec_delete. rewrite Hf.
      destruct (unlink_spec p l i Hr) as (p' & -> & Hrep); [lia|]. cbn [obind]. ostep.
      eapply post_mono; [apply (release_heap _ (delete i l ++ rest))|].
      * eapply heap_ok_perm; [|exact Hh]. symmetry. exact (Permutation_app_tail rest (delete_Permutation l i a Ha)).
      * intros σ' [Hh' _]. ostep. by split.
    + replace (Z.of_nat i + 1) with (Z.of_nat (S i)) by lia. apply IH; [lia|].
      rewrite (take_S_r _ _ _ Ha). apply Forall_app. split; [done|]. apply Forall_singleton.
      unfold has_ssrc, ssrc_of. rewrite Hm. simpl. congruence.
Qed.

(** Deleting removes the first pointer to a member with that SSRC. *)
Lemma delete_list σ p l rest s :
  list_rep p l -> heap_ok σ (l ++ rest) ->
  post (rtp_member_list_delete σ p s) (fun '(_, (σ', p')) =>
    list_rep p' (spec_delete σ l s) /\ heap_ok σ' (spec_delete σ l s ++ rest)).
Proof.
  intros Hr Hh. unfold rtp_member_list_delete. rewrite (rep_count _ _ Hr). unfold zlen. rewrite Nat2Z.id.
  change 0 with (Z.of_nat 0). apply delete_from_spec; [done..|lia|constructor].
Qed.

Lemma release_from_spec σ p l rest n i :
  list_rep p l -> heap_ok σ (drop i l ++ rest) -> (n + i = length l)%nat ->
  post (release_from n (Z.of_nat i) σ p) (fun σ' => heap_ok σ' rest).
Proof.
  intros Hr. revert i σ. induction n as [|n IH]; intros i σ Hh Hn; simpl.
  - by rewrite drop_ge in Hh by lia.
  - destruct (lookup_lt_is_Some_2 l i) as [a Ha]; [lia|].
    rewrite (list_at_spec _ _ _ _ Hr Ha). cbn [obind]. ostep. rewrite (drop_S _ _ _ Ha) in Hh.
    eapply post_mono; [by apply release_heap|]. intros σ' [Hh' _].
    replace (Z.of_nat i + 1) with (Z.of_nat (S i)) by lia. apply IH; [done|lia].
Qed.

(** Destroying a list gives back all its pointers. *)
Lemma destroy_list σ p l rest :
  list_rep p l -> heap_ok σ (l ++ rest) ->
  post (rtp_member_list_destroy σ p) (fun σ' => heap_ok σ' rest).
Proof.
  intros Hr Hh. unfold rtp_member_list_destroy. ostep. rewrite (rep_count _ _ Hr). unfold zlen.
  rewrite Nat2Z.id. change 0 with (Z.of_nat 0).
  eapply post_mono; [apply (release_from_spec _ _ l rest); [done|by rewrite drop_0|lia]|].
  intros σ' Hh'. ostep. destruct (negb _); [apply post_assert; intros _|]; simpl; done.
Qed.

(** What [find] returns is in the list. *)
Lemma spec_find_in σ l s a : spec_find σ l s = Some a -> a ∈ l /\ has_ssrc σ s a.
Proof.
  unfold spec_find. destruct (list_find _ l) as [[i b]|] eqn:E; [|done]. intros [= ->].
  apply list_find_Some in E as (Hi & Hs & _). split; [by eapply list_elem_of_lookup_2|done].
Qed.

(** Setting an item keeps the store well formed, whatever the item. *)
Lemma setvalue_heap `{Alloc} σ roots a item data bytes :
  heap_ok σ roots -> a ∈ roots -> 0 <= bytes <= zlen data ->
  post (rtp_member_setvalue σ (Some a) item data bytes) (fun '(_, σ') => heap_ok σ' roots).
Proof.
  intros Hh Ha Hb. unfold rtp_member_setvalue. ostep. apply post_assert. intros _.
  apply post_if; intros Hi; [done|]. cbool. destruct Hi as [[Hi0 Hi9] Hb255]. cbn [pointee obind]. ostep.
  eapply load_root; [done..|]. intros m Hm Hrm Hpos [Hlen Hits]. ostep.
  apply post_rd; [unfold zlen; lia|]. intros it Hit.
  pose proof (proj1 (Forall_lookup _ _) Hits _ _ Hit) as [Hl Hd].
  apply post_if; intros Hal; [done|]. ostep.
  set (buf := if sdes_len it <? bytes then Some (c_realloc (sdes_data it) bytes) else sdes_data it).
  assert (Hbuf : match buf with Some d => bytes <= zlen d | None => bytes = 0 end).
  { unfold buf. destruct (Z.ltb_spec (sdes_len it) bytes).
    - unfold c_realloc. rewrite zlen_app, zlen_replicate. unfold zlen. lia.
    - destruct (sdes_data it); lia. }
  apply post_mono with (P := fun b => match b with Some d => bytes <= zlen d | None => bytes = 0 end).
  { apply post_if; intros Hp; cbool; [|done]. destruct buf as [d|]; [|lia]. cbn [pointee obind]. ostep.
    apply post_rdn; [lia..|]. ostep. apply post_wrn_len; [lia| |].
    - rewrite zlen_take, zlen_drop. lia.
    - intros d' Hd'. apply post_ret. lia. }
  clear buf Hbuf. intros buf Hbuf. ostep. rewrite wrn_single by (unfold zlen; lia). ostep.
  eapply save_heap; [done..|]. split; simpl; [by rewrite length_insert|].
  apply Forall_insert; [done|]. assert (Hu : u8 bytes = bytes) by (unfold u8; apply Z.mod_small; lia).
  split; simpl; rewrite Hu; [lia|]. by destruct buf.
Qed.
End Lists.

Lemma empty_heap : heap_ok (mk_store ∅ 0) [].
Proof.
  split; simpl; [intros a m Hm; by rewrite lookup_empty in Hm|unfold refs; simpl; lia|].
  intros a [m Hm]. by rewrite lookup_empty in Hm.
Qed.

Section Properties.
Context `{Alloc} `{Build}.

End Properties.

(** A list of one member, which another pointer holds as well. *)
Definition one_member : store :=
  mk_store {[0%nat := set_ref (new_member 5) 2]} 1.

Lemma one_member_ok : heap_ok one_member ([0%nat] ++ [0%nat]).
Proof.
  split; simpl.
  - intros a m. rewrite lookup_singleton_Some. intros [<- <-]. split_and!; [done|done|apply new_member_ok].
  - intros a Hp. destruct (decide (0%nat = a)) as [<-|Hne]; [rewrite lookup_singleton_eq; by eexists|].
    rewrite !refs_cons, !decide_False in Hp by done. unfold refs in Hp. simpl in Hp. lia.
  - intros a [m Hm]. rewrite lookup_singleton_Some in Hm. lia.
Qed.

