(* ===== verification/Rtcp.v ===== *)
(** The RTP session, receiving side (lib/librtp/source/rtcp.c; rtcp_xxx_unpack of
    rtcp-sr.c, rtcp-rr.c, rtcp-sdec.c, rtcp-bye.c, rtcp-app.c, rtcp-rtpfb.c,
    rtcp-psfb.c, rtcp-xr.c; create and destroy of rtp.c). *)

From stdpp Require Import gmap.
From S2P Require Import Prelude RtpUtil RtpPacket CDouble RtpMember.

Definition RTP_DROPOUT : Z := 500.
Definition RTP_MISORDER : Z := 100.

(** ** Sequence numbers, RFC 3550 A.1 *)
Definition set_seq (s : rtp_source) (sq : Z) : rtp_source :=
  mk_source sq (rtp_timestamp s) (rtp_clock s) (rtp_packets s) (rtp_bytes s) (jitter s)
    (rtp_packets0 s) (rtp_expected0 s) (rtp_probation s) (rtp_seq_base s) (rtp_seq_bad s)
    (rtp_seq_cycles s).
Definition set_source_probation (s : rtp_source) (n : Z) : rtp_source :=
  mk_source (rtp_seq s) (rtp_timestamp s) (rtp_clock s) (rtp_packets s) (rtp_bytes s) (jitter s)
    (rtp_packets0 s) (rtp_expected0 s) n (rtp_seq_base s) (rtp_seq_bad s) (rtp_seq_cycles s).
Definition set_seq_cycles (s : rtp_source) (n : Z) : rtp_source :=
  mk_source (rtp_seq s) (rtp_timestamp s) (rtp_clock s) (rtp_packets s) (rtp_bytes s) (jitter s)
    (rtp_packets0 s) (rtp_expected0 s) (rtp_probation s) (rtp_seq_base s) (rtp_seq_bad s) n.
Definition set_seq_bad (s : rtp_source) (n : Z) : rtp_source :=
  mk_source (rtp_seq s) (rtp_timestamp s) (rtp_clock s) (rtp_packets s) (rtp_bytes s) (jitter s)
    (rtp_packets0 s) (rtp_expected0 s) (rtp_probation s) (rtp_seq_base s) n (rtp_seq_cycles s).
Definition set_received (s : rtp_source) (clock ts packets bytes : Z) (j : spec_float) : rtp_source :=
  mk_source (rtp_seq s) ts clock packets bytes j
    (rtp_packets0 s) (rtp_expected0 s) (rtp_probation s) (rtp_seq_base s) (rtp_seq_bad s)
    (rtp_seq_cycles s).

Definition rtp_seq_init (s : rtp_source) (sq : Z) : rtp_source :=
  mk_source sq (rtp_timestamp s) (rtp_clock s) 0 0 d_zero 0 0 0 sq (Z.shiftl 1 16 + 1) 0.

Definition rtp_seq_update (s : rtp_source) (sq : Z) : Z * rtp_source :=
  let delta := u16 (sq - rtp_seq s) in
  if 0 <? rtp_probation s then
    if rtp_seq s + 1 =? sq then
      let s := set_source_probation (set_seq s sq) (rtp_probation s - 1) in
      if 0 =? rtp_probation s then (1, rtp_seq_init s sq) else (0, s)
    else (0, set_seq (set_source_probation s RTP_PROBATION) sq)
  else if delta <? RTP_DROPOUT then
    let s := if sq <? rtp_seq s
             then set_seq_cycles s (u32 (rtp_seq_cycles s + Z.shiftl 1 16)) else s in
    (1, set_seq s sq)
  else if delta <=? Z.shiftl 1 16 - RTP_MISORDER then
    if u32 (rtp_seq_bad s + 1) =? sq then (1, rtp_seq_init s sq)
    else (0, set_seq_bad s sq)
  else (1, s).

(** ** Messages to the application *)
Record rtcp_rb_t := mk_rb {
  rb_ssrc : Z; fraction : Z; cumulative : Z; exthsn : Z; rb_jitter : Z; lsr : Z; dlsr : Z
}.

(** What the session needs of the feedback and extended report formats: the
    messages they make of their part of a packet (the [switch] of
    [rtcp_rtpfb_unpack] and [rtcp_psfb_unpack], one block of [rtcp_xr_unpack]). *)
Class RtcpFeedback := {
  fb_body : Type;
  rtpfb_fci : rtcp_header_t -> list Z -> Z -> outcome (list fb_body);
  psfb_fci : rtcp_header_t -> list Z -> Z -> outcome (list fb_body);
  xr_block : rtcp_header_t -> list Z -> Z -> outcome (list fb_body)
}.

Inductive rtcp_body `{RtcpFeedback} :=
| BodyRb (rb : rtcp_rb_t)
| BodySdes (pt len : Z) (data : list Z)
| BodyBye (bytes : Z) (reason : option (list Z))
| BodyApp (subtype : Z) (name : list Z) (data : list Z) (bytes : Z)
| BodyFb (b : fb_body).

(** [mtype] is [None] when the code never sets the field. *)
Record rtcp_msg_t `{RtcpFeedback} := mk_msg { mtype : option Z; mfrom : Z; mbody : rtcp_body }.

Definition RTCP_SR : Z := 200.
Definition RTCP_RR : Z := 201.
Definition RTCP_SDES : Z := 202.
Definition RTCP_BYE : Z := 203.
Definition RTCP_APP : Z := 204.
Definition RTCP_RTPFB : Z := 205.
Definition RTCP_PSFB : Z := 206.
Definition RTCP_XR : Z := 207.

Definition RTP_SENDER : Z := 1.
Definition RTP_RECEIVER : Z := 2.

(** ** The session.  [events] logs the messages handed to [on_rtcp]. *)
Record rtp_context `{RtcpFeedback} := mk_context {
  heap : store;
  members : rtp_member_list;
  senders : rtp_member_list;
  self : nat;
  avg_rtcp_size : Z;
  rtcp_bw : Z;
  rtcp_cycle : Z;
  frequence : Z;
  init : Z;
  role : Z;
  events : list rtcp_msg_t
}.

Arguments mk_context {_}.
Arguments mk_msg {_}.
Arguments BodyRb {_}.
Arguments BodySdes {_}.
Arguments BodyBye {_}.
Arguments BodyApp {_}.
Arguments BodyFb {_}.

Section Session.
Context `{RtcpFeedback}.

Definition set_heap (c : rtp_context) (σ : store) : rtp_context :=
  mk_context σ (members c) (senders c) (self c) (avg_rtcp_size c) (rtcp_bw c) (rtcp_cycle c)
    (frequence c) (init c) (role c) (events c).
Definition set_members (c : rtp_context) (σ : store) (l : rtp_member_list) : rtp_context :=
  mk_context σ l (senders c) (self c) (avg_rtcp_size c) (rtcp_bw c) (rtcp_cycle c)
    (frequence c) (init c) (role c) (events c).
Definition set_senders (c : rtp_context) (σ : store) (l : rtp_member_list) : rtp_context :=
  mk_context σ (members c) l (self c) (avg_rtcp_size c) (rtcp_bw c) (rtcp_cycle c)
    (frequence c) (init c) (role c) (events c).
Definition set_avg (c : rtp_context) (n : Z) : rtp_context :=
  mk_context (heap c) (members c) (senders c) (self c) n (rtcp_bw c) (rtcp_cycle c)
    (frequence c) (init c) (role c) (events c).
Definition set_cycle (c : rtp_context) (n : Z) : rtp_context :=
  mk_context (heap c) (members c) (senders c) (self c) (avg_rtcp_size c) (rtcp_bw c) n
    (frequence c) (init c) (role c) (events c).
Definition set_init (c : rtp_context) (n : Z) : rtp_context :=
  mk_context (heap c) (members c) (senders c) (self c) (avg_rtcp_size c) (rtcp_bw c) (rtcp_cycle c)
    (frequence c) n (role c) (events c).
Definition set_role (c : rtp_context) (n : Z) : rtp_context :=
  mk_context (heap c) (members c) (senders c) (self c) (avg_rtcp_size c) (rtcp_bw c) (rtcp_cycle c)
    (frequence c) (init c) n (events c).
Definition on_rtcp (c : rtp_context) (m : rtcp_msg_t) : rtp_context :=
  mk_context (heap c) (members c) (senders c) (self c) (avg_rtcp_size c) (rtcp_bw c) (rtcp_cycle c)
    (frequence c) (init c) (role c) (events c ++ [m]).

Context `{Alloc} `{Build} `{Fpu}.

Definition rtp_member_fetch (c : rtp_context) (s : Z) : outcome (option nat * rtp_context) :=
  do p <- rtp_member_list_find (heap c) (members c) s ;;
  match p with
  | Some a => Ret (Some a, c)
  | None =>
      do q <- rtp_member_list_find (heap c) (senders c) s ;;
      c_assert (bool_decide (q = None)) ;;;
      match rtp_member_create (heap c) s with
      | (None, σ) => Ret (None, set_heap c σ)
      | (Some a, σ) =>
          do* (_, (σ, l)) <- rtp_member_list_add σ (members c) a ;;
          do σ <- rtp_member_release σ a ;;
          Ret (Some a, set_members c σ l)
      end
  end.

Definition rtp_sender_fetch (c : rtp_context) (s : Z) : outcome (option nat * rtp_context) :=
  do p <- rtp_member_list_find (heap c) (senders c) s ;;
  match p with
  | Some a => Ret (Some a, c)
  | None =>
      do* (p, c) <- rtp_member_fetch c s ;;
      match p with
      | None => Ret (None, c)
      | Some a =>
          do* (_, (σ, l)) <- rtp_member_list_add (heap c) (senders c) a ;;
          Ret (Some a, set_senders c σ l)
      end
  end.

(** ** An RTP packet *)
Definition interarrival (s : rtp_source) (now freq ts : Z) : Z :=
  let elapsed := u32 (u64 (u64 (now - rtp_clock s) * u64 freq) / 1000000) in
  let D := s32 (u32 (elapsed - u32 (ts - rtp_timestamp s))) in
  if D <? 0 then s32 (- D) else D.

Definition update_jitter (s : rtp_source) (now freq ts : Z) : spec_float :=
  if negb (rtp_packets s =? 0) then
    let D := d_of_int (interarrival s now freq ts) in
    d_add (jitter s) (d_div (d_sub D (jitter s)) (d_of_int 16))
  else d_zero.

Definition rtcp_input_rtp (now : Z) (c : rtp_context) (data : list Z) (bytes : Z)
  : outcome (Z * rtp_context) :=
  do* (r, pkt) <- rtp_packet_deserialize zero_packet data bytes ;;
  if negb (r =? 0) then Ret (-1, c)
  else
    c_assert (2 =? hv (rtp pkt)) ;;;
    do* (sender, c) <- rtp_sender_fetch c (ssrc (rtp pkt)) ;;
    match sender with
    | None => Ret (-1, c)
    | Some a =>
        do m <- load (heap c) a ;;
        let '(ok, s) := rtp_seq_update (source m) (u16 (seq (rtp pkt))) in
        if ok =? 0 then Ret (0, set_heap c (save (heap c) a (set_source m s)))
        else
          let ts := timestamp (rtp pkt) in
          let s := set_received s now ts (u32 (rtp_packets s + 1))
                     (u64 (rtp_bytes s + payloadlen pkt))
                     (update_jitter s now (frequence c) ts) in
          Ret (1, set_heap c (save (heap c) a (set_source m s)))
    end.

(** ** Reports *)
Definition rtcp_block (p : list Z) : outcome rtcp_rb_t :=
  do s <- nbo_r32 p ;;
  do fr <- rd p 4 ;;
  do b5 <- rd p 5 ;;
  do b6 <- rd p 6 ;;
  do b7 <- rd p 7 ;;
  do ext <- nbo_r32 (adv p 8) ;;
  do ji <- nbo_r32 (adv p 12) ;;
  do ls <- nbo_r32 (adv p 16) ;;
  do dl <- nbo_r32 (adv p 20) ;;
  Ret (mk_rb s fr (Z.lor (Z.lor (Z.shiftl b5 16) (Z.shiftl b6 8)) b7) ext ji ls dl).

Fixpoint report_loop (n : nat) (c : rtp_context) (from : Z) (p : list Z) : outcome rtp_context :=
  match n with
  | O => Ret c
  | S n =>
      do rb <- rtcp_block p ;;
      report_loop n (on_rtcp c (mk_msg (Some RTCP_RR) from (BodyRb rb))) from (adv p 24)
  end.

Definition rtcp_sr_unpack (now : Z) (c : rtp_context) (h : rtcp_header_t) (ptr : list Z) (bytes : Z)
  : outcome rtp_context :=
  if bytes <? 24 + rc h * 24 then c_assert false ;;; Ret c
  else
    do from <- nbo_r32 ptr ;;
    do* (sender, c) <- rtp_sender_fetch c from ;;
    match sender with
    | None => Ret c
    | Some a =>
        c_assert (negb (bool_decide (a = self c))) ;;;
        do m <- load (heap c) a ;;
        c_assert (sr_ssrc (rtcp_sr m) =? from) ;;;
        do msw <- nbo_r32 (adv ptr 4) ;;
        do lsw <- nbo_r32 (adv ptr 8) ;;
        do rts <- nbo_r32 (adv ptr 12) ;;
        do pc <- nbo_r32 (adv ptr 16) ;;
        do oc <- nbo_r32 (adv ptr 20) ;;
        let sr := mk_sr (sr_ssrc (rtcp_sr m)) msw lsw rts pc oc in
        let c := set_heap c (save (heap c) a (set_report m sr now)) in
        report_loop (Z.to_nat (rc h)) c from (adv ptr 24)
    end.

Definition rtcp_rr_unpack (now : Z) (c : rtp_context) (h : rtcp_header_t) (ptr : list Z) (bytes : Z)
  : outcome rtp_context :=
  if bytes <? 4 + rc h * 24 then c_assert false ;;; Ret c
  else
    do from <- nbo_r32 ptr ;;
    do* (receiver, c) <- rtp_member_fetch c from ;;
    match receiver with
    | None => Ret c
    | Some a =>
        c_assert (negb (bool_decide (a = self c))) ;;;
        do m <- load (heap c) a ;;
        c_assert (sr_ssrc (rtcp_sr m) =? from) ;;;
        let c := set_heap c (save (heap c) a (set_report m (rtcp_sr m) now)) in
        report_loop (Z.to_nat (rc h)) c from (adv ptr 4)
    end.

(** ** Source descriptions.  [addr] is the address of [ptr]: items are padded to
    a multiple of 4 of the address, not of the offset. *)
Fixpoint sdes_items (fuel : nat) (c : rtp_context) (member : option nat) (from : Z)
    (ptr : list Z) (bytes o : Z) : outcome (bool * (rtp_context * Z)) :=
  if o + 2 <=? bytes then
    do t <- rd ptr o ;;
    if t =? 0 then Ret (true, (c, o))
    else
      match fuel with
      | O => Crash Diverge
      | S fuel =>
          do len <- rd ptr (o + 1) ;;
          let data := adv ptr (o + 2) in
          if bytes <? o + 2 + len then c_assert false ;;; Ret (false, (c, o))
          else
            let c := on_rtcp c (mk_msg None from (BodySdes t len data)) in
            do* (_, σ) <-
              (if (1 <=? t) && (t <=? 7) then rtp_member_setvalue (heap c) member t data len
               else Ret (0, heap c)) ;;
            sdes_items fuel (set_heap c σ) member from ptr bytes (o + 2 + len)
      end
  else Ret (true, (c, o)).

Fixpoint sdes_chunks (n : nat) (addr : Z) (c : rtp_context) (ptr : list Z) (bytes o : Z)
  : outcome rtp_context :=
  match n with
  | O => Ret c
  | S n =>
      if o + 8 <=? bytes then
        do from <- nbo_r32 (adv ptr o) ;;
        do* (member, c) <- rtp_member_fetch c from ;;
        do* (ok, (c, o)) <- sdes_items (Z.to_nat bytes) c member from ptr bytes (o + 4) ;;
        if negb ok then Ret c
        else sdes_chunks n addr c ptr bytes ((addr + o + 3) / 4 * 4 - addr)
      else Ret c
  end.

Definition rtcp_sdes_unpack (addr : Z) (c : rtp_context) (h : rtcp_header_t) (ptr : list Z) (bytes : Z)
  : outcome rtp_context :=
  c_assert (rc h <=? rlength h) ;;;
  sdes_chunks (Z.to_nat (rc h)) addr c ptr bytes 0.

(** ** Members that leave *)
Definition drop_ssrc (c : rtp_context) (s : Z) : outcome rtp_context :=
  do* (_, (σ, l)) <- rtp_member_list_delete (heap c) (members c) s ;;
  let c := set_members c σ l in
  do* (_, (σ, l)) <- rtp_member_list_delete (heap c) (senders c) s ;;
  Ret (set_senders c σ l).

(** The loop reads the SSRCs one place too far: the first one is skipped and the
    word behind the last one is taken. *)
Fixpoint bye_loop (n : nat) (i : Z) (c : rtp_context) (ptr : list Z) (body : rtcp_body)
  : outcome rtp_context :=
  match n with
  | O => Ret c
  | S n =>
      do s <- nbo_r32 (adv ptr (4 + i * 4)) ;;
      do c <- drop_ssrc c s ;;
      bye_loop n (i + 1) (on_rtcp c (mk_msg (Some RTCP_BYE) s body)) ptr body
  end.

Definition bye_reason (h : rtcp_header_t) (ptr : list Z) (bytes : Z) : outcome rtcp_body :=
  if rc h * 4 + 1 <? bytes then
    do len <- rd ptr (rc h * 4) ;;
    if bytes <? 1 + len + rc h * 4 then c_assert false ;;; Ret (BodyBye 0 None)
    else Ret (BodyBye len (Some (adv ptr (rc h * 4 + 1))))
  else Ret (BodyBye 0 None).

Definition rtcp_bye_unpack (c : rtp_context) (h : rtcp_header_t) (ptr : list Z) (bytes : Z)
  : outcome rtp_context :=
  c_assert (rc h * 4 <=? bytes) ;;;
  if (rc h <? 1) || (bytes <? rc h * 4) then Ret c
  else
    do from <- nbo_r32 ptr ;;
    do c <- drop_ssrc c from ;;
    do body <- bye_reason h ptr bytes ;;
    bye_loop (Z.to_nat (rc h)) 0 (on_rtcp c (mk_msg (Some RTCP_BYE) from body)) ptr body.

(** ** Application packets, feedback, extended reports *)
Definition rtcp_app_unpack (c : rtp_context) (h : rtcp_header_t) (ptr : list Z) (bytes : Z)
  : outcome rtp_context :=
  if bytes <? 8 then c_assert false ;;; Ret c
  else
    do from <- nbo_r32 ptr ;;
    do name <- rdn ptr 4 4 ;;
    Ret (on_rtcp c (mk_msg (Some RTCP_APP) from (BodyApp (rc h) name (adv ptr 8) (bytes - 8)))).

Definition deliver_fb (c : rtp_context) (type from : Z) (l : list fb_body) : rtp_context :=
  foldl (fun c b => on_rtcp c (mk_msg (Some type) from (BodyFb b))) c l.

Definition rtcp_rtpfb_unpack (c : rtp_context) (h : rtcp_header_t) (ptr : list Z) (bytes : Z)
  : outcome rtp_context :=
  if bytes <? 8 then c_assert false ;;; Ret c
  else
    do from <- nbo_r32 ptr ;;
    do* (sender, c) <- rtp_sender_fetch c from ;;
    match sender with
    | None => Ret c
    | Some _ =>
        do l <- rtpfb_fci h ptr bytes ;;
        Ret (deliver_fb c (Z.lor RTCP_RTPFB (Z.shiftl (rc h) 8)) from l)
    end.

Definition rtcp_psfb_unpack (c : rtp_context) (h : rtcp_header_t) (ptr : list Z) (bytes : Z)
  : outcome rtp_context :=
  if bytes <? 8 then c_assert false ;;; Ret c
  else
    do from <- nbo_r32 ptr ;;
    do* (sender, c) <- rtp_sender_fetch c from ;;
    match sender with
    | None => Ret c
    | Some a =>
        c_assert (negb (bool_decide (a = self c))) ;;;
        do l <- psfb_fci h ptr bytes ;;
        Ret (deliver_fb c (Z.lor RTCP_PSFB (Z.shiftl (rc h) 8)) from l)
    end.

(** The body of the loop changes neither [ptr] nor [bytes]. *)
Fixpoint xr_loop (fuel : nat) (c : rtp_context) (h : rtcp_header_t) (from : Z)
    (ptr : list Z) (bytes : Z) : outcome rtp_context :=
  if 4 <=? bytes then
    match fuel with
    | O => Crash Diverge
    | S fuel =>
        do bt <- rd ptr 0 ;;
        do l <- xr_block h ptr bytes ;;
        xr_loop fuel (deliver_fb c (Z.lor RTCP_XR (Z.shiftl bt 8)) from l) h from ptr bytes
    end
  else Ret c.

Definition rtcp_xr_unpack (fuel : nat) (c : rtp_context) (h : rtcp_header_t) (ptr : list Z) (bytes : Z)
  : outcome rtp_context :=
  if bytes <? 8 then c_assert false ;;; Ret c
  else
    do from <- nbo_r32 ptr ;;
    do* (sender, c) <- rtp_sender_fetch c from ;;
    match sender with
    | None => Ret c
    | Some a =>
        c_assert (negb (bool_decide (a = self c))) ;;;
        xr_loop fuel c h from (adv ptr 4) (bytes - 4)
    end.

(** ** Compound packets.  [addr] is the address of [data]. *)
Definition rtcp_header_of (w : Z) : rtcp_header_t :=
  mk_rtcp_header (RTCP_V w) (RTCP_P w) (RTCP_RC w) (RTCP_PT w) (RTCP_LEN w).

(** The switch of [rtcp_parse]. *)
Definition rtcp_dispatch (now addr : Z) (c : rtp_context) (h : rtcp_header_t) (ptr : list Z) (bytes : Z)
  : outcome rtp_context :=
  let t := rpt h in
  if t =? RTCP_SR then rtcp_sr_unpack now c h ptr bytes
  else if t =? RTCP_RR then rtcp_rr_unpack now c h ptr bytes
  else if t =? RTCP_SDES then rtcp_sdes_unpack addr c h ptr bytes
  else if t =? RTCP_BYE then rtcp_bye_unpack c h ptr bytes
  else if t =? RTCP_APP then rtcp_app_unpack c h ptr bytes
  else if t =? RTCP_RTPFB then rtcp_rtpfb_unpack c h ptr bytes
  else if t =? RTCP_PSFB then rtcp_psfb_unpack c h ptr bytes
  else if t =? RTCP_XR then rtcp_xr_unpack (Z.to_nat bytes) c h ptr bytes
  else c_assert false ;;; Ret c.

(** The header of [rtcp_parse] and the bytes of the packet without its padding;
    [None]: malformed. *)
Definition rtcp_frame (data : list Z) (bytes : Z) : outcome (option (rtcp_header_t * Z)) :=
  do w <- nbo_r32 data ;;
  let h := rtcp_header_of w in
  let n := rlength h * 4 + 4 in
  if (bytes <? n) || negb (2 =? rv h) then Ret None
  else if rp h =? 0 then Ret (Some (h, n))
  else if rlength h <? 1 then Ret None
  else
    do pad <- rd data (n - 1) ;;
    if rlength h * 4 <? pad then Ret None else Ret (Some (h, n - pad)).

Definition rtcp_parse (now addr : Z) (c : rtp_context) (data : list Z) (bytes : Z)
  : outcome (Z * rtp_context) :=
  c_assert (4 <=? bytes) ;;;
  do o <- rtcp_frame data bytes ;;
  match o with
  | None => c_assert false ;;; Ret (-1, c)
  | Some (h, n) =>
      do c <- rtcp_dispatch now (addr + 4) c h (adv data 4) (n - 4) ;;
      Ret ((rlength h + 1) * 4, c)
  end.

Definition next_avg (avg r : Z) : Z :=
  to_int (d_add (d_div (d_mul (d_of_int avg) (d_of_int 1)) (d_of_int 16))
                (d_div (d_mul (d_of_int r) (d_of_int 15)) (d_of_int 16))).

Fixpoint rtcp_compound (fuel : nat) (now addr : Z) (c : rtp_context) (p : list Z) (bytes : Z)
  : outcome rtp_context :=
  if 4 <? bytes then
    match fuel with
    | O => Crash Diverge
    | S fuel =>
        do* (r, c) <- rtcp_parse now addr c p bytes ;;
        if r <=? 0 then Ret c
        else
          rtcp_compound fuel now (addr + r) (set_avg c (next_avg (avg_rtcp_size c) r))
            (adv p r) (bytes - r)
    end
  else Ret c.

Definition rtcp_input_rtcp (now addr : Z) (c : rtp_context) (data : list Z) (bytes : Z)
  : outcome (Z * rtp_context) :=
  do c <- rtcp_compound (Z.to_nat bytes) now addr c data bytes ;;
  Ret (0, c).

(** ** Creating and destroying a session *)
Definition SIZEOF_CONTEXT : Z := 64.

Definition rtp_create (now s ts freq bandwidth : Z) (sender : bool) : outcome (option rtp_context) :=
  if negb (alloc_ok SIZEOF_CONTEXT) then Ret None
  else
    let '(a, σ) := rtp_member_create (mk_store ∅ 0) s in
    match a, rtp_member_list_create, rtp_member_list_create with
    | Some a, Some ms, Some ss =>
        do m <- load σ a ;;
        let src := source m in
        let src := set_received src now ts (rtp_packets src) (rtp_bytes src) (jitter src) in
        do* (_, (σ, ms)) <- rtp_member_list_add (save σ a (set_source m src)) ms a ;;
        Ret (Some (mk_context σ ms ss a 0
               (to_int (d_mul (d_of_int bandwidth) (d_div (d_of_int 5) (d_of_int 100))))
               0 freq 1 (if sender then RTP_SENDER else RTP_RECEIVER) []))
    | Some a, _, _ => do _ <- rtp_member_release σ a ;; Ret None
    | None, _, _ => Ret None
    end.

Definition rtp_destroy (c : rtp_context) : outcome store :=
  do σ <- rtp_member_list_destroy (heap c) (members c) ;;
  do σ <- rtp_member_list_destroy σ (senders c) ;;
  rtp_member_release σ (self c).

Definition rtp_onreceived (now : Z) (c : rtp_context) (data : list Z) (bytes : Z) :=
  rtcp_input_rtp now c data bytes.
Definition rtp_onreceived_rtcp (now addr : Z) (c : rtp_context) (data : list Z) (bytes : Z) :=
  rtcp_input_rtcp now addr c data bytes.
End Session.
