(* ===== verification/Rtpfb.v ===== *)
(** Transport-layer feedback, RFC 4585 and its extensions
    (lib/librtp/source/rtcp-rtpfb.c): the formats of the feedback control
    information, read from a packet and written to one. *)

From S2P Require Import Prelude RtpUtil.

(** ** Data.  Arrays with their count are lists; a payload is the buffer from the
    place pointed to on. *)
Record rtcp_nack_t := mk_nack { pid : Z; blp : Z }.
Record rtcp_tmmbr_t := mk_tmmbr { tm_ssrc : Z; tm_exp : Z; tm_mantissa : Z; overhead : Z }.
Record rtcp_ecn_t := mk_ecn {
  ext_highest_seq : Z;
  ect0 : Z;
  ect1 : Z;
  ect_ce_counter : Z;
  not_ect_counter : Z;
  lost_packets_counter : Z;
  duplication_counter : Z
}.
Record rtcp_ccfb_t := mk_ccfb { c_seq : Z; c_received : Z; c_ecn : Z; c_ato : Z }.

Inductive rtcp_rtpfb_u :=
| FbNack (l : list rtcp_nack_t)
| FbTmmbr (l : list rtcp_tmmbr_t)
| FbEcn (e : rtcp_ecn_t)
| FbPs (target cmd len id : Z) (payload : list Z)
| FbDbi (delay s q : Z)
| FbCcfb (ssrc begin timestamp : Z) (l : list rtcp_ccfb_t)
| FbTcc01 (begin timestamp cc : Z) (l : list rtcp_ccfb_t).

Definition RTCP_RTPFB_NACK : Z := 1.
Definition RTCP_RTPFB_TMMBR : Z := 3.
Definition RTCP_RTPFB_TMMBN : Z := 4.
Definition RTCP_RTPFB_SRREQ : Z := 5.
Definition RTCP_RTPFB_RAMS : Z := 6.
Definition RTCP_RTPFB_TLLEI : Z := 7.
Definition RTCP_RTPFB_ECN : Z := 8.
Definition RTCP_RTPFB_PS : Z := 9.
Definition RTCP_RTPFB_DBI : Z := 10.
Definition RTCP_RTPFB_CCFB : Z := 11.
Definition RTCP_RTPFB_TCC01 : Z := 15.

(** ** The shape most formats share: an array of entries of a fixed size, read to
    a local array of [cap] entries or to the heap *)
Section Entries.
Context {A : Type}.

Definition scratch `{Alloc} (n cap size : Z) : bool := (n <=? cap) || alloc_ok (n * size).

Fixpoint read_entries (entry : list Z -> outcome A) (size : Z) (n : nat) (ptr : list Z)
  : outcome (list A) :=
  match n with
  | O => Ret []
  | S n =>
      do a <- entry ptr ;;
      do l <- read_entries entry size n (adv ptr size) ;;
      Ret (a :: l)
  end.

(** As many entries as fit; the bytes they take. *)
Fixpoint write_entries (entry : A -> list Z) (size : Z) (l : list A) (buf : list Z) (off bytes : Z)
  : outcome (Z * list Z) :=
  match l with
  | [] => Ret (0, buf)
  | a :: l =>
      if size <=? bytes then
        do buf <- wrn buf off (entry a) ;;
        do* (n, buf) <- write_entries entry size l buf (off + size) (bytes - size) ;;
        Ret (size + n, buf)
      else Ret (0, buf)
  end.
End Entries.

(** ** Reading.  Each reader returns its result and the messages it hands to
    [on_rtcp]. *)
Section Read.
Context `{Alloc} `{Build}.

Definition nack_entry (ptr : list Z) : outcome rtcp_nack_t :=
  do p <- nbo_r16 ptr ;;
  do b <- nbo_r16 (adv ptr 2) ;;
  Ret (mk_nack p b).

Definition rtcp_rtpfb_nack_unpack (ptr : list Z) (bytes : Z) : outcome (Z * list rtcp_rtpfb_u) :=
  if negb (scratch (bytes / 4) 32 4) then Ret (- ENOMEM, [])
  else
    do l <- read_entries nack_entry 4 (Z.to_nat (bytes / 4)) ptr ;;
    Ret (0, [FbNack l]).

Definition tmmbr_entry (ptr : list Z) : outcome rtcp_tmmbr_t :=
  do s <- nbo_r32 ptr ;;
  do b4 <- rd ptr 4 ;;
  do b5 <- rd ptr 5 ;;
  do b6 <- rd ptr 6 ;;
  do b7 <- rd ptr 7 ;;
  Ret (mk_tmmbr s (Z.land (Z.shiftr b4 2) 0x3F)
    (Z.lor (Z.lor (Z.shiftl (Z.land b4 0x03) 15) (Z.shiftl b5 7)) (Z.land (Z.shiftr b6 1) 0x7F))
    (Z.lor (Z.shiftl (Z.land b6 0x01) 8) b7)).

Definition rtcp_rtpfb_tmmbr_unpack (ptr : list Z) (bytes : Z) : outcome (Z * list rtcp_rtpfb_u) :=
  if negb (scratch (bytes / 8) 4 8) then Ret (- ENOMEM, [])
  else
    do l <- read_entries tmmbr_entry 8 (Z.to_nat (bytes / 8)) ptr ;;
    Ret (0, [FbTmmbr l]).

Definition rtcp_rtpfb_tmmbn_unpack (ptr : list Z) (bytes : Z) : outcome (Z * list rtcp_rtpfb_u) :=
  if negb (scratch (bytes / 8) 4 8) then Ret (- ENOMEM, [])
  else
    do l <- read_entries tmmbr_entry 8 (Z.to_nat (bytes / 8)) ptr ;;
    Ret (0, [FbTmmbr l]).

Definition rtcp_rtpfb_srreq_unpack (ptr : list Z) (bytes : Z) : outcome (Z * list rtcp_rtpfb_u) :=
  c_assert (bytes =? 0) ;;; Ret (0, []).

Definition rtcp_rtpfb_rams_unpack (ptr : list Z) (bytes : Z) : outcome (Z * list rtcp_rtpfb_u) :=
  if bytes <? 4 then Ret (-1, []) else do _ <- rd ptr 0 ;; Ret (0, []).

Definition rtcp_rtpfb_tllei_unpack (ptr : list Z) (bytes : Z) : outcome (Z * list rtcp_rtpfb_u) :=
  if negb (scratch (bytes / 4) 32 4) then Ret (- ENOMEM, [])
  else
    do l <- read_entries nack_entry 4 (Z.to_nat (bytes / 4)) ptr ;;
    Ret (0, [FbNack l]).

(** Twenty bytes of ECN counters. *)
Definition ecn_counters (ptr : list Z) : outcome rtcp_ecn_t :=
  do hs <- nbo_r32 ptr ;;
  do e0 <- nbo_r32 (adv ptr 4) ;;
  do e1 <- nbo_r32 (adv ptr 8) ;;
  do ce <- nbo_r16 (adv ptr 12) ;;
  do ne <- nbo_r16 (adv ptr 14) ;;
  do lp <- nbo_r16 (adv ptr 16) ;;
  do dc <- nbo_r16 (adv ptr 18) ;;
  Ret (mk_ecn hs e0 e1 ce ne lp dc).

Definition rtcp_rtpfb_ecn_unpack (ptr : list Z) (bytes : Z) : outcome (Z * list rtcp_rtpfb_u) :=
  if bytes <? 20 then Ret (-1, []) else do e <- ecn_counters ptr ;; Ret (0, [FbEcn e]).

(** The messages delivered before the loop stops count, whatever it returns. *)
Fixpoint ps_loop (fuel : nat) (ptr : list Z) (bytes : Z) : outcome (Z * list rtcp_rtpfb_u) :=
  if 8 <=? bytes then
    match fuel with
    | O => Crash Diverge
    | S fuel =>
        do target <- nbo_r32 ptr ;;
        do b4 <- rd ptr 4 ;;
        do len <- rd ptr 5 ;;
        do id <- nbo_r16 (adv ptr 6) ;;
        if bytes <? len * 4 + 8 then c_assert false ;;; Ret (-1, [])
        else
          do* (r, l) <- ps_loop fuel (adv ptr (8 + len * 4)) (bytes - (8 + len * 4)) ;;
          Ret (r, FbPs target (Z.shiftr b4 4) len id (adv ptr 8) :: l)
    end
  else Ret (0, []).

Definition rtcp_rtpfb_ps_unpack (ptr : list Z) (bytes : Z) : outcome (Z * list rtcp_rtpfb_u) :=
  ps_loop (Z.to_nat bytes) ptr bytes.

Definition rtcp_rtpfb_dbi_unpack (ptr : list Z) (bytes : Z) : outcome (Z * list rtcp_rtpfb_u) :=
  if bytes <? 4 then Ret (-1, [])
  else
    do delay <- nbo_r16 ptr ;;
    do b2 <- rd ptr 2 ;;
    Ret (0, [FbDbi delay (Z.land (Z.shiftr b2 7) 0x01) (Z.land (Z.shiftr b2 6) 0x01)]).

(** *** Congestion control feedback, RFC 8888 *)
Fixpoint ccfb_reports (n : nat) (sq : Z) (ptr : list Z) : outcome (list rtcp_ccfb_t) :=
  match n with
  | O => Ret []
  | S n =>
      do b0 <- rd ptr 0 ;;
      do b1 <- rd ptr 1 ;;
      do l <- ccfb_reports n (u16 (sq + 1)) (adv ptr 2) ;;
      Ret (mk_ccfb sq (Z.land (Z.shiftr b0 7) 0x01) (Z.land (Z.shiftr b0 5) 0x03)
             (Z.lor (Z.shiftl (Z.land b0 0x1F) 8) b1) :: l)
  end.

Fixpoint ccfb_loop (fuel : nat) (ptr : list Z) (bytes : Z) : outcome (Z * list rtcp_rtpfb_u) :=
  if 8 <=? bytes then
    match fuel with
    | O => Crash Diverge
    | S fuel =>
        do s <- nbo_r32 ptr ;;
        do begin <- nbo_r16 (adv ptr 4) ;;
        do num <- nbo_r16 (adv ptr 6) ;;
        let ptr := adv ptr 8 in
        let bytes := bytes - 8 in
        if bytes <? (num * 2 + 3) / 4 * 4 then c_assert false ;;; Ret (-1, [])
        else if negb (scratch num 32 8) then Ret (- ENOMEM, [])
        else
          do l <- ccfb_reports (Z.to_nat num) begin ptr ;;
          let pad := (num + 1) / 2 * 2 in
          c_assert (pad * 2 <=? bytes) ;;;
          do* (r, ms) <- ccfb_loop fuel (adv ptr (pad * 2)) (bytes - pad * 2) ;;
          Ret (r, FbCcfb s begin 0 l :: ms)
    end
  else
    do bytes <- (if 4 <=? bytes then do _ <- nbo_r32 ptr ;; Ret (bytes - 4) else Ret bytes) ;;
    c_assert (0 =? bytes) ;;; Ret (0, []).

Definition rtcp_rtpfb_ccfb_unpack (ptr : list Z) (bytes : Z) : outcome (Z * list rtcp_rtpfb_u) :=
  (if 4 <=? bytes then do _ <- nbo_r32 (adv ptr (bytes - 4)) ;; Ret tt else Ret tt) ;;;
  ccfb_loop (Z.to_nat bytes) ptr bytes.

(** *** Transport-wide congestion control *)
(** The packet symbols of a chunk: a run, seven of two bits, fourteen of one. *)
Definition tcc_symbols (chunk : Z) : list Z :=
  if Z.land chunk 0x8000 =? 0 then
    replicate (Z.to_nat (Z.land chunk 0x1FFF)) (Z.land (Z.shiftr chunk 13) 0x03)
  else if negb (Z.land chunk 0x4000 =? 0) then
    map (fun j => Z.land (Z.shiftr chunk (2 * (6 - j))) 0x03) [0; 1; 2; 3; 4; 5; 6]
  else
    map (fun j => if negb (Z.land chunk (Z.shiftl 1 (13 - j)) =? 0) then 1 else 0)
      [0; 1; 2; 3; 4; 5; 6; 7; 8; 9; 10; 11; 12; 13].

Fixpoint tcc_entries (sq : Z) (symbols : list Z) : list rtcp_ccfb_t :=
  match symbols with
  | [] => []
  | e :: symbols =>
      mk_ccfb sq (if e =? 0 then 0 else 1) e 0 :: tcc_entries (u16 (sq + 1)) symbols
  end.

(** The chunks; gives back the rest of the packet. *)
Fixpoint tcc_chunks (fuel : nat) (i sq num : Z) (arr : list rtcp_ccfb_t) (ptr : list Z) (bytes : Z)
  : outcome (list rtcp_ccfb_t * (list Z * Z)) :=
  if (2 <=? bytes) && (i <? num) then
    match fuel with
    | O => Crash Diverge
    | S fuel =>
        do chunk <- nbo_r16 ptr ;;
        let symbols := take (Z.to_nat (num - i)) (tcc_symbols chunk) in
        do arr <- wrn arr i (tcc_entries sq symbols) ;;
        tcc_chunks fuel (i + zlen symbols) (u16 (sq + zlen symbols)) num arr (adv ptr 2) (bytes - 2)
    end
  else Ret (arr, (ptr, bytes)).

Definition set_ato (c : rtcp_ccfb_t) (ato : Z) : rtcp_ccfb_t :=
  mk_ccfb (c_seq c) (c_received c) (c_ecn c) ato.

(** The arrival times of the received packets; [None]: one byte of two is left. *)
Fixpoint tcc_deltas (arr : list rtcp_ccfb_t) (ptr : list Z) (bytes : Z)
  : outcome (option (list rtcp_ccfb_t)) :=
  match arr with
  | [] => Ret (Some [])
  | c :: arr' =>
      if bytes <=? 0 then Ret (Some arr)
      else if c_received c =? 0 then
        do o <- tcc_deltas arr' ptr bytes ;;
        Ret (option_map (cons c) o)
      else
        c_assert ((c_ecn c =? 1) || (c_ecn c =? 2)) ;;;
        if c_ecn c =? 1 then
          do b <- rd ptr 0 ;;
          do o <- tcc_deltas arr' (adv ptr 1) (bytes - 1) ;;
          Ret (option_map (cons (set_ato c (Z.shiftr b 2))) o)
        else if bytes <? 2 then c_assert false ;;; Ret None
        else
          do w <- nbo_r16 ptr ;;
          do o <- tcc_deltas arr' (adv ptr 2) (bytes - 2) ;;
          Ret (option_map (cons (set_ato c (Z.shiftr (s16 w) 2))) o)
  end.

Definition rtcp_rtpfb_tcc01_unpack (ptr : list Z) (bytes : Z) : outcome (Z * list rtcp_rtpfb_u) :=
  if bytes <? 8 then Ret (-1, [])
  else
    do sq <- nbo_r16 ptr ;;
    do num <- nbo_r16 (adv ptr 2) ;;
    do b4 <- rd ptr 4 ;;
    do b5 <- rd ptr 5 ;;
    do b6 <- rd ptr 6 ;;
    do cc <- rd ptr 7 ;;
    let ts := Z.lor (Z.lor (Z.shiftl b4 16) (Z.shiftl b5 8)) b6 in
    let timestamp :=
      s32 (Z.lor ts (if negb (Z.land ts 0x00800000 =? 0) then 0xFF000000 else 0)) in
    if negb (scratch num 32 8) then Ret (- ENOMEM, [])
    else
      let arr := replicate (Z.to_nat num) (mk_ccfb 0 0 0 0) in
      do* (arr, (ptr, bytes)) <-
        tcc_chunks (Z.to_nat bytes) 0 sq num arr (adv ptr 8) (bytes - 8) ;;
      do o <- tcc_deltas arr ptr bytes ;;
      match o with
      | None => Ret (-1, [])
      | Some arr => Ret (0, [FbTcc01 sq timestamp cc arr])
      end.

(** *** The [switch] of [rtcp_rtpfb_unpack] *)
Definition rtpfb_unpack_fci (fmt : Z) (ptr : list Z) (bytes : Z) : outcome (Z * list rtcp_rtpfb_u) :=
  let p := adv ptr 8 in
  let n := bytes - 8 in
  if fmt =? RTCP_RTPFB_NACK then rtcp_rtpfb_nack_unpack p n
  else if fmt =? RTCP_RTPFB_TMMBR then rtcp_rtpfb_tmmbr_unpack p n
  else if fmt =? RTCP_RTPFB_TMMBN then rtcp_rtpfb_tmmbn_unpack p n
  else if fmt =? RTCP_RTPFB_SRREQ then rtcp_rtpfb_srreq_unpack p n
  else if fmt =? RTCP_RTPFB_RAMS then rtcp_rtpfb_rams_unpack p n
  else if fmt =? RTCP_RTPFB_TLLEI then rtcp_rtpfb_tllei_unpack p n
  else if fmt =? RTCP_RTPFB_ECN then rtcp_rtpfb_ecn_unpack p n
  else if fmt =? RTCP_RTPFB_PS then rtcp_rtpfb_ps_unpack p n
  else if fmt =? RTCP_RTPFB_DBI then rtcp_rtpfb_dbi_unpack p n
  else if fmt =? RTCP_RTPFB_CCFB then rtcp_rtpfb_ccfb_unpack (adv ptr 4) (bytes - 4)
  else if fmt =? RTCP_RTPFB_TCC01 then rtcp_rtpfb_tcc01_unpack p n
  else c_assert false ;;; Ret (0, []).
End Read.

(** ** Writing: the result (bytes written, or negative) and the buffer *)
Section Write.
Context `{Build}.

Definition nack_bytes (e : rtcp_nack_t) : list Z := be16 (pid e) ++ be16 (blp e).
Definition rtcp_rtpfb_nack_pack (l : list rtcp_nack_t) (buf : list Z) (off bytes : Z)
  : outcome (Z * list Z) := write_entries nack_bytes 4 l buf off bytes.

Definition tmmbr_bytes (e : rtcp_tmmbr_t) : list Z :=
  be32 (tm_ssrc e) ++
  be32 (Z.lor (Z.lor (Z.shiftl (Z.land (tm_exp e) 0x3F) 26)
                     (Z.shiftl (Z.land (tm_mantissa e) 0x1FFFF) 9)) (Z.land (overhead e) 0x1FF)).
Definition rtcp_rtpfb_tmmbr_pack (l : list rtcp_tmmbr_t) (buf : list Z) (off bytes : Z)
  : outcome (Z * list Z) := write_entries tmmbr_bytes 8 l buf off bytes.
Definition rtcp_rtpfb_tmmbn_pack (l : list rtcp_tmmbr_t) (buf : list Z) (off bytes : Z)
  : outcome (Z * list Z) := rtcp_rtpfb_tmmbr_pack l buf off bytes.
Definition rtcp_rtpfb_tllei_pack (l : list rtcp_nack_t) (buf : list Z) (off bytes : Z)
  : outcome (Z * list Z) := rtcp_rtpfb_nack_pack l buf off bytes.

Definition ecn_bytes (e : rtcp_ecn_t) : list Z :=
  be32 (ext_highest_seq e) ++ be32 (ect0 e) ++ be32 (ect1 e) ++
  be16 (ect_ce_counter e) ++ be16 (not_ect_counter e) ++
  be16 (lost_packets_counter e) ++ be16 (duplication_counter e).
Definition rtcp_rtpfb_ecn_pack (e : rtcp_ecn_t) (buf : list Z) (off bytes : Z)
  : outcome (Z * list Z) :=
  if bytes <? 20 then Ret (-1, buf) else do buf <- wrn buf off (ecn_bytes e) ;; Ret (20, buf).

Definition rtcp_rtpfb_ps_pack (target cmd len id : Z) (payload buf : list Z) (off bytes : Z)
  : outcome (Z * list Z) :=
  if bytes <? 8 + len * 4 then Ret (-1, buf)
  else
    do buf <- wrn buf off
      (be32 target ++
       be32 (Z.lor (Z.lor (Z.shiftl (Z.land cmd 0x0F) 28) (Z.shiftl (Z.land len 0xFF) 16)) id)) ;;
    do buf <- (if 0 <? len then
                 do src <- rdn payload 0 (len * 4) ;; wrn buf (off + 8) src
               else Ret buf) ;;
    Ret (8 + len * 4, buf).

(** As written: every report carries the arrival time of the first one. *)
Definition ccfb_bytes (first c : rtcp_ccfb_t) : list Z :=
  be16 (Z.lor (Z.lor (if c_received c =? 0 then 0 else 0x8000) (Z.shiftl (Z.land (c_ecn c) 0x03) 13))
              (Z.land (c_ato first) 0x1FFF)).

Definition rtcp_rtpfb_ccfb_pack (s begin : Z) (l : list rtcp_ccfb_t) (timestamp : Z)
    (buf : list Z) (off bytes : Z) : outcome (Z * list Z) :=
  let count := zlen l in
  if (bytes <? 8 + count * 2 + 4) || (0xFFFF <? count) then Ret (-1, buf)
  else
    do buf <- wrn buf off (be32 s ++ be16 begin ++ be16 count) ;;
    do buf <- wrn buf (off + 8) (concat (map (ccfb_bytes (hd (mk_ccfb 0 0 0 0) l)) l)) ;;
    do buf <- nbo_w32 buf (off + 8 + count * 2) timestamp ;;
    Ret (8 + count * 2 + 4, buf).

(** *** Transport-wide congestion control *)
(** 250 us units in two bytes; [tcc_big]: one byte is not enough. *)
Definition ato4 (c : rtcp_ccfb_t) : Z := u16 (Z.shiftl (c_ato c) 2).
Definition tcc_big (c : rtcp_ccfb_t) : bool := 0xFF <? ato4 c.

(** The reports that are received or not like the first one: how many, the bytes
    per arrival time, whether they are received. *)
Fixpoint tcc_run (recv : Z) (l : list rtcp_ccfb_t) (k two received : Z) : Z * (Z * Z) :=
  match l with
  | c :: l =>
      if c_received c =? recv then
        tcc_run recv l (k + 1) (if negb (c_received c =? 0) && tcc_big c then 2 else two)
          (Z.lor received (c_received c))
      else (k, (two, received))
  | [] => (k, (two, received))
  end.

(** How many reports a vector takes, and the bits per symbol. *)
Fixpoint tcc_detect (l : list rtcp_ccfb_t) (k two : Z) : Z * Z :=
  match l with
  | c :: l =>
      if k <? 14 / two then
        tcc_detect l (k + 1) (if negb (c_received c =? 0) && tcc_big c then 2 else two)
      else (k, two)
  | [] => (k, two)
  end.

Fixpoint tcc_vector (l : list rtcp_ccfb_t) (k two : Z) (wide : bool) (chunk : Z) : Z * Z :=
  match l with
  | c :: l =>
      if k <? 14 / two then
        tcc_vector l (k + 1) two wide
          (if negb (c_received c =? 0) then
             Z.lor chunk (Z.shiftl (if tcc_big c then 2 else 1) (if wide then 12 - k * 2 else 13 - k))
           else chunk)
      else (k, chunk)
  | [] => (k, chunk)
  end.

(** The next chunk and the number of reports it stands for. *)
Definition tcc_chunk (c : rtcp_ccfb_t) (l : list rtcp_ccfb_t) : Z * Z :=
  let two := if negb (c_received c =? 0) && tcc_big c then 2 else 1 in
  let '(k, (two, received)) := tcc_run (c_received c) l 1 two (c_received c) in
  if 14 / two <? k then
    (k, Z.lor (if negb (received =? 0) then (if 2 =? two then 0x4000 else 0x2000) else 0) (u16 k))
  else
    let '(k, two) := tcc_detect (c :: l) 0 1 in
    let wide := (2 =? two) || (k <=? 7) in
    tcc_vector (c :: l) 0 two wide (Z.lor 0x8000 (if wide then 0x4000 else 0)).

(** [bytes] is what the code thinks is left: it forgets the eight bytes before
    the chunks.  The write position is [off]. *)
Fixpoint tcc_write_chunks (fuel : nat) (l : list rtcp_ccfb_t) (buf : list Z) (off bytes : Z)
  : outcome (list Z * (Z * Z)) :=
  match l with
  | c :: l' =>
      if 2 <=? bytes then
        match fuel with
        | O => Crash Diverge
        | S fuel =>
            let '(k, chunk) := tcc_chunk c l' in
            do buf <- nbo_w16 buf off chunk ;;
            tcc_write_chunks fuel (drop (Z.to_nat k) l) buf (off + 2) (bytes - 2)
        end
      else Ret (buf, (off, bytes))
  | [] => Ret (buf, (off, bytes))
  end.

(** The state of the second pass: the reports left, the buffer, the write
    position, the bytes left. *)
Record tcc_state := mk_tcc { tc_left : list rtcp_ccfb_t; tc_buf : list Z; tc_off : Z; tc_bytes : Z }.

Definition tcc_put (l : list rtcp_ccfb_t) (st : tcc_state) (bs : list Z) : outcome tcc_state :=
  do buf <- wrn (tc_buf st) (tc_off st) bs ;;
  Ret (mk_tcc l buf (tc_off st + zlen bs) (tc_bytes st - zlen bs)).
Definition tcc_skip (l : list rtcp_ccfb_t) (st : tcc_state) : tcc_state :=
  mk_tcc l (tc_buf st) (tc_off st) (tc_bytes st).

(** A run; [false]: no room. *)
Fixpoint tcc_run_deltas (n : nat) (sq chunk : Z) (st : tcc_state) : outcome (bool * tcc_state) :=
  match n, tc_left st with
  | S n, c :: l =>
      c_assert (sq =? c_seq c) ;;;
      if negb (sq =? c_seq c) then tcc_run_deltas n (u32 (sq + 1)) chunk st
      else if negb (Z.land chunk 0x4000 =? 0) then
        if tc_bytes st <? 2 then Ret (false, st)
        else do st <- tcc_put l st (be16 (ato4 c)) ;; tcc_run_deltas n (u32 (sq + 1)) chunk st
      else if negb (Z.land chunk 0x2000 =? 0) then
        if tc_bytes st <? 1 then Ret (false, st)
        else do st <- tcc_put l st [u8 (ato4 c)] ;; tcc_run_deltas n (u32 (sq + 1)) chunk st
      else tcc_run_deltas n (u32 (sq + 1)) chunk (tcc_skip l st)
  | _, _ => Ret (true, st)
  end.

Fixpoint tcc_wide_deltas (n : nat) (k chunk : Z) (st : tcc_state) : outcome tcc_state :=
  match n, tc_left st with
  | S n, c :: l =>
      if 2 <=? tc_bytes st then
        if c_received c =? 0 then tcc_wide_deltas n (k + 1) chunk (tcc_skip l st)
        else if Z.land (Z.shiftr chunk (2 * (6 - k))) 0x03 =? 1 then
          do st <- tcc_put l st [u8 (ato4 c)] ;; tcc_wide_deltas n (k + 1) chunk st
        else
          do st <- tcc_put l st (be16 (ato4 c)) ;; tcc_wide_deltas n (k + 1) chunk st
      else Ret st
  | _, _ => Ret st
  end.

Fixpoint tcc_narrow_deltas (n : nat) (st : tcc_state) : outcome tcc_state :=
  match n, tc_left st with
  | S n, c :: l =>
      if 1 <=? tc_bytes st then
        if c_received c =? 0 then tcc_narrow_deltas n (tcc_skip l st)
        else do st <- tcc_put l st [u8 (ato4 c)] ;; tcc_narrow_deltas n st
      else Ret st
  | _, _ => Ret st
  end.

(** The second pass reads the chunks back at [p]. *)
Fixpoint tcc_write_deltas (fuel : nat) (p : Z) (st : tcc_state) : outcome (bool * tcc_state) :=
  match tc_left st with
  | c :: _ =>
      if 1 <=? tc_bytes st then
        match fuel with
        | O => Crash Diverge
        | S fuel =>
            do chunk <- nbo_r16 (adv (tc_buf st) p) ;;
            if Z.land chunk 0x8000 =? 0 then
              do* (ok, st) <- tcc_run_deltas (Z.to_nat (Z.land chunk 0x1FFF)) (c_seq c) chunk st ;;
              if ok then tcc_write_deltas fuel (p + 2) st else Ret (false, st)
            else if negb (Z.land chunk 0x4000 =? 0) then
              do st <- tcc_wide_deltas 7 0 chunk st ;; tcc_write_deltas fuel (p + 2) st
            else
              do st <- tcc_narrow_deltas 14 st ;; tcc_write_deltas fuel (p + 2) st
        end
      else Ret (true, st)
  | [] => Ret (true, st)
  end.

(** Up to a multiple of four bytes; the last one counts them. *)
Fixpoint tcc_padding (fuel : nat) (k n : Z) (buf : list Z) (off bytes : Z) : outcome (Z * list Z) :=
  match fuel with
  | S fuel =>
      if negb (n mod 4 =? 0) && (0 <? bytes) then
        do buf <- wrn buf off [if (n + 1) mod 4 =? 0 then k + 1 else 0] ;;
        tcc_padding fuel (k + 1) (n + 1) buf (off + 1) (bytes - 1)
      else Ret (n, buf)
  | O => Ret (n, buf)
  end.

Definition rtcp_rtpfb_tcc01_pack (begin : Z) (l : list rtcp_ccfb_t) (timestamp cc : Z)
    (buf : list Z) (off bytes : Z) : outcome (Z * list Z) :=
  let count := zlen l in
  if (bytes <? 8) || (count <? 1) then Ret (-1, buf)
  else
    do buf <- wrn buf off
      (be16 begin ++ be16 count ++
       be32 (Z.lor (Z.shiftl (Z.land timestamp 0xFFFFFF) 8) cc)) ;;
    do* (buf, (o, n)) <- tcc_write_chunks (length l) l buf (off + 8) bytes ;;
    do* (ok, st) <- tcc_write_deltas (length buf) (off + 8) (mk_tcc l buf o n) ;;
    if ok then
      tcc_padding 4 0 (tc_off st - off) (tc_buf st) (tc_off st) (tc_bytes st)
    else Ret (-1, tc_buf st).

(** *** The [switch] of [rtcp_rtpfb_pack]; a union read as another of its members
    than the one that was set has no meaning here. *)
Definition rtpfb_pack_fci (id : Z) (u : rtcp_rtpfb_u) (buf : list Z) (off bytes : Z)
  : outcome (option (Z * list Z)) :=
  let some m := do r <- m ;; Ret (Some r) in
  if id =? RTCP_RTPFB_NACK then
    match u with FbNack l => some (rtcp_rtpfb_nack_pack l buf off bytes) | _ => Crash OutOfBounds end
  else if id =? RTCP_RTPFB_TMMBR then
    match u with FbTmmbr l => some (rtcp_rtpfb_tmmbr_pack l buf off bytes) | _ => Crash OutOfBounds end
  else if id =? RTCP_RTPFB_TMMBN then
    match u with FbTmmbr l => some (rtcp_rtpfb_tmmbn_pack l buf off bytes) | _ => Crash OutOfBounds end
  else if id =? RTCP_RTPFB_TLLEI then
    match u with FbNack l => some (rtcp_rtpfb_tllei_pack l buf off bytes) | _ => Crash OutOfBounds end
  else if id =? RTCP_RTPFB_ECN then
    match u with FbEcn e => some (rtcp_rtpfb_ecn_pack e buf off bytes) | _ => Crash OutOfBounds end
  else if id =? RTCP_RTPFB_PS then
    match u with
    | FbPs target cmd len i payload => some (rtcp_rtpfb_ps_pack target cmd len i payload buf off bytes)
    | _ => Crash OutOfBounds
    end
  else if id =? RTCP_RTPFB_CCFB then
    match u with
    | FbCcfb s begin ts l => some (rtcp_rtpfb_ccfb_pack s begin l ts buf off bytes)
    | _ => Crash OutOfBounds
    end
  else if id =? RTCP_RTPFB_TCC01 then
    match u with
    | FbTcc01 begin ts cc l => some (rtcp_rtpfb_tcc01_pack begin l ts cc buf off bytes)
    | _ => Crash OutOfBounds
    end
  else c_assert false ;;; Ret None.
End Write.

(** The second example of [rtcp_rtpfb_tcc01_test]. *)
Example tcc01_test_data2 :
  @rtcp_rtpfb_tcc01_unpack always_alloc default_build
    [0x00; 0x05; 0x00; 0x07; 0x00; 0x00; 0x05; 0x00; 0xd2; 0x82; 0x00; 0x02; 0x00; 0x01;
     0x00; 0x04; 0x00; 0x00; 0x00; 0x03] 20 =
  Ret (0, [FbTcc01 5 5 0
    [mk_ccfb 5 1 1 0; mk_ccfb 6 0 0 0; mk_ccfb 7 1 2 128; mk_ccfb 8 1 2 64; mk_ccfb 9 0 0 0;
     mk_ccfb 10 0 0 0; mk_ccfb 11 1 2 256]]).
Proof. vm_compute. reflexivity. Qed.
