(* ===== verification/Psfb.v ===== *)
(** Payload-specific feedback, RFC 4585 and its extensions
    (lib/librtp/source/rtcp-psfb.c). *)

From S2P Require Import Prelude RtpUtil Rtpfb.

(** ** Data *)
Record rtcp_sli_t := mk_sli { sl_first : Z; sl_number : Z; sl_picture_id : Z }.
Record rtcp_fir_t := mk_fir { fi_ssrc : Z; fi_sn : Z; fi_index : Z }.
Record rtcp_vbcm_t := mk_vbcm { vb_ssrc : Z; vb_sn : Z; vb_pt : Z; vb_len : Z; vb_payload : list Z }.
Record rtcp_lrr_t := mk_lrr {
  lr_ssrc : Z; lr_sn : Z; lr_c : Z; lr_payload : Z; ttid : Z; tlid : Z; ctid : Z; clid : Z
}.
Record rtcp_remb_t := mk_remb { re_ssrc : Z; re_exp : Z; re_mantissa : Z }.

Inductive rtcp_psfb_u :=
| FbPli
| FbSli (l : list rtcp_sli_t)
| FbFir (l : list rtcp_fir_t)
| FbRpsi (pt len : Z) (payload : list Z)
| FbVbcm (v : rtcp_vbcm_t)
| FbPslei (l : list Z)
| FbLrr (l : list rtcp_lrr_t)
| FbAfb (l : list rtcp_remb_t).

Definition RTCP_PSFB_PLI : Z := 1.
Definition RTCP_PSFB_SLI : Z := 2.
Definition RTCP_PSFB_RPSI : Z := 3.
Definition RTCP_PSFB_FIR : Z := 4.
Definition RTCP_PSFB_TSTR : Z := 5.
Definition RTCP_PSFB_TSTN : Z := 6.
Definition RTCP_PSFB_VBCM : Z := 7.
Definition RTCP_PSFB_PSLEI : Z := 8.
Definition RTCP_PSFB_ROI : Z := 9.
Definition RTCP_PSFB_LRR : Z := 10.
Definition RTCP_PSFB_AFB : Z := 15.

(** ** Reading *)
Section Read.
Context `{Alloc} `{Build}.

Definition rtcp_psfb_pli_unpack (bytes : Z) : outcome (Z * list rtcp_psfb_u) :=
  c_assert (0 =? bytes) ;;; Ret (0, [FbPli]).

Definition sli_entry (ptr : list Z) : outcome rtcp_sli_t :=
  do b0 <- rd ptr 0 ;;
  do b1 <- rd ptr 1 ;;
  do b2 <- rd ptr 2 ;;
  do b3 <- rd ptr 3 ;;
  Ret (mk_sli (Z.lor (Z.shiftl b0 5) (Z.shiftr b1 3))
    (Z.lor (Z.lor (Z.shiftl (Z.land b1 0x07) 10) (Z.shiftl b2 2)) (Z.shiftr b3 6))
    (Z.land b3 0x3F)).
Definition rtcp_psfb_sli_unpack (ptr : list Z) (bytes : Z) : outcome (Z * list rtcp_psfb_u) :=
  if negb (scratch (bytes / 4) 32 4) then Ret (- ENOMEM, [])
  else
    do l <- read_entries sli_entry 4 (Z.to_nat (bytes / 4)) ptr ;;
    Ret (0, [FbSli l]).

Definition rtcp_psfb_rpsi_unpack (ptr : list Z) (bytes : Z) : outcome (Z * list rtcp_psfb_u) :=
  if bytes <? 4 then Ret (-1, [])
  else
    do pb <- rd ptr 0 ;;
    do b1 <- rd ptr 1 ;;
    Ret (0, [FbRpsi (Z.land b1 0x7F) (u32 (u32 bytes * 8 - pb)) (adv ptr 2)]).

(** The index is not part of this format and stays 0. *)
Definition fir_entry (ptr : list Z) : outcome rtcp_fir_t :=
  do s <- nbo_r32 ptr ;;
  do sn <- rd ptr 4 ;;
  Ret (mk_fir s sn 0).
Definition rtcp_psfb_fir_unpack (ptr : list Z) (bytes : Z) : outcome (Z * list rtcp_psfb_u) :=
  if negb (scratch (bytes / 8) 32 8) then Ret (- ENOMEM, [])
  else
    do l <- read_entries fir_entry 8 (Z.to_nat (bytes / 8)) ptr ;;
    Ret (0, [FbFir l]).

Definition tstr_entry (ptr : list Z) : outcome rtcp_fir_t :=
  do s <- nbo_r32 ptr ;;
  do sn <- rd ptr 4 ;;
  do b7 <- rd ptr 7 ;;
  Ret (mk_fir s sn (Z.land b7 0x1F)).
Definition rtcp_psfb_tstr_unpack (ptr : list Z) (bytes : Z) : outcome (Z * list rtcp_psfb_u) :=
  if negb (scratch (bytes / 8) 32 8) then Ret (- ENOMEM, [])
  else
    do l <- read_entries tstr_entry 8 (Z.to_nat (bytes / 8)) ptr ;;
    Ret (0, [FbFir l]).
Definition rtcp_psfb_tstn_unpack (ptr : list Z) (bytes : Z) : outcome (Z * list rtcp_psfb_u) :=
  if negb (scratch (bytes / 8) 32 8) then Ret (- ENOMEM, [])
  else
    do l <- read_entries tstr_entry 8 (Z.to_nat (bytes / 8)) ptr ;;
    Ret (0, [FbFir l]).

(** [bytes] is a [size_t]: the padding of the payload may be longer than what is
    left, and then it wraps. *)
Fixpoint vbcm_loop (fuel : nat) (ptr : list Z) (bytes : Z) : outcome (Z * list rtcp_psfb_u) :=
  if 8 <? bytes then
    match fuel with
    | O => Crash Diverge
    | S fuel =>
        do s <- nbo_r32 ptr ;;
        do sn <- rd ptr 4 ;;
        do b5 <- rd ptr 5 ;;
        do len <- nbo_r16 (adv ptr 6) ;;
        if bytes <? len + 8 then Ret (-1, [])
        else
          let size := 8 + (len + 3) / 4 * 4 in
          do* (r, l) <- vbcm_loop fuel (adv ptr size) (u64 (bytes - size)) ;;
          Ret (r, FbVbcm (mk_vbcm s sn (Z.land b5 0x7F) len (adv ptr 8)) :: l)
    end
  else Ret (0, []).
Definition rtcp_psfb_vbcm_unpack (ptr : list Z) (bytes : Z) : outcome (Z * list rtcp_psfb_u) :=
  vbcm_loop (S (length ptr)) ptr bytes.

Definition rtcp_psfb_pslei_unpack (ptr : list Z) (bytes : Z) : outcome (Z * list rtcp_psfb_u) :=
  if negb (scratch (bytes / 4) 32 4) then Ret (- ENOMEM, [])
  else
    do l <- read_entries nbo_r32 4 (Z.to_nat (bytes / 4)) ptr ;;
    Ret (0, [FbPslei l]).

Definition lrr_entry (ptr : list Z) : outcome rtcp_lrr_t :=
  do s <- nbo_r32 ptr ;;
  do sn <- rd ptr 4 ;;
  do b5 <- rd ptr 5 ;;
  do b8 <- rd ptr 8 ;;
  do b9 <- rd ptr 9 ;;
  do b10 <- rd ptr 10 ;;
  do b11 <- rd ptr 11 ;;
  Ret (mk_lrr s sn (Z.land (Z.shiftr b5 7) 0x01) (Z.land b5 0x7F)
    (Z.land b8 0x07) b9 (Z.land b10 0x07) b11).
Definition rtcp_psfb_lrr_unpack (ptr : list Z) (bytes : Z) : outcome (Z * list rtcp_psfb_u) :=
  if negb (scratch (bytes / 12) 32 12) then Ret (- ENOMEM, [])
  else
    do l <- read_entries lrr_entry 12 (Z.to_nat (bytes / 12)) ptr ;;
    Ret (0, [FbLrr l]).

Definition rtcp_psfb_roi_unpack (ptr : list Z) (bytes : Z) : outcome (Z * list rtcp_psfb_u) :=
  Ret (0, []).

(** "REMB" *)
Definition remb_id : list Z := [82; 69; 77; 66].
Definition rtcp_psfb_afb_unpack (ptr : list Z) (bytes : Z) : outcome (Z * list rtcp_psfb_u) :=
  if 8 <=? bytes then
    do id <- rdn ptr 0 4 ;;
    if bool_decide (id = remb_id) then
      do n <- rd ptr 4 ;;
      do b5 <- rd ptr 5 ;;
      do w6 <- nbo_r16 (adv ptr 6) ;;
      let exp := Z.land (Z.shiftr b5 2) 0x3F in
      let mantissa := Z.lor (Z.shiftl (Z.land b5 0x3) 16) w6 in
      if bytes - 8 <? n * 4 then Ret (-1, [])
      else if negb (scratch n 4 8) then Ret (- ENOMEM, [])
      else
        do l <- read_entries nbo_r32 4 (Z.to_nat n) (adv ptr 8) ;;
        Ret (0, [FbAfb (map (fun s => mk_remb s exp mantissa) l)])
    else Ret (0, [])
  else Ret (0, []).

(** The [switch] of [rtcp_psfb_unpack]. *)
Definition psfb_unpack_fci (fmt : Z) (ptr : list Z) (bytes : Z) : outcome (Z * list rtcp_psfb_u) :=
  let p := adv ptr 8 in
  let n := bytes - 8 in
  if fmt =? RTCP_PSFB_PLI then rtcp_psfb_pli_unpack n
  else if fmt =? RTCP_PSFB_SLI then rtcp_psfb_sli_unpack p n
  else if fmt =? RTCP_PSFB_RPSI then rtcp_psfb_rpsi_unpack p n
  else if fmt =? RTCP_PSFB_FIR then rtcp_psfb_fir_unpack p n
  else if fmt =? RTCP_PSFB_TSTR then rtcp_psfb_tstr_unpack p n
  else if fmt =? RTCP_PSFB_TSTN then rtcp_psfb_tstn_unpack p n
  else if fmt =? RTCP_PSFB_VBCM then rtcp_psfb_vbcm_unpack p n
  else if fmt =? RTCP_PSFB_PSLEI then rtcp_psfb_pslei_unpack p n
  else if fmt =? RTCP_PSFB_ROI then rtcp_psfb_roi_unpack p n
  else if fmt =? RTCP_PSFB_LRR then rtcp_psfb_lrr_unpack p n
  else if fmt =? RTCP_PSFB_AFB then rtcp_psfb_afb_unpack p n
  else c_assert false ;;; Ret (0, []).
End Read.

(** ** Writing *)
Section Write.
Context `{Build}.

Definition rtcp_psfb_pli_pack (buf : list Z) (off bytes : Z) : outcome (Z * list Z) := Ret (0, buf).

(** As written: always the first indication. *)
Definition sli_bytes (e : rtcp_sli_t) : list Z :=
  be32 (Z.lor (Z.lor (Z.shiftl (Z.land (sl_first e) 0x1FFFF) 19)
                     (Z.shiftl (Z.land (sl_number e) 0x1FFFF) 6)) (Z.land (sl_picture_id e) 0x3F)).
Definition rtcp_psfb_sli_pack (l : list rtcp_sli_t) (buf : list Z) (off bytes : Z)
  : outcome (Z * list Z) :=
  write_entries (fun _ => sli_bytes (hd (mk_sli 0 0 0) l)) 4 l buf off bytes.

Definition rtcp_psfb_rpsi_pack (pt : Z) (payload : list Z) (bits : Z) (buf : list Z) (off bytes : Z)
  : outcome (Z * list Z) :=
  let len := u32 (bits + 7) / 8 in
  let size := (2 + len + 3) / 4 * 4 in
  if bytes <? size then Ret (-1, buf)
  else
    do buf <- wrn buf off [u8 (size * 8 - (2 * 8 + bits)); pt] ;;
    do src <- rdn payload 0 len ;;
    do buf <- wrn buf (off + 2) src ;;
    Ret (size, buf).

Definition fir_bytes (e : rtcp_fir_t) : list Z :=
  be32 (fi_ssrc e) ++ be32 (Z.shiftl (fi_sn e) 24).
Definition rtcp_psfb_fir_pack (l : list rtcp_fir_t) (buf : list Z) (off bytes : Z)
  : outcome (Z * list Z) := write_entries fir_bytes 8 l buf off bytes.

Definition tstr_bytes (e : rtcp_fir_t) : list Z :=
  be32 (fi_ssrc e) ++ be32 (Z.lor (Z.shiftl (fi_sn e) 24) (fi_index e)).
Definition rtcp_psfb_tstr_pack (l : list rtcp_fir_t) (buf : list Z) (off bytes : Z)
  : outcome (Z * list Z) := write_entries tstr_bytes 8 l buf off bytes.
Definition rtcp_psfb_tstn_pack (l : list rtcp_fir_t) (buf : list Z) (off bytes : Z)
  : outcome (Z * list Z) := rtcp_psfb_tstr_pack l buf off bytes.

Definition rtcp_psfb_vbcm_pack (v : rtcp_vbcm_t) (buf : list Z) (off bytes : Z)
  : outcome (Z * list Z) :=
  let size := 8 + (vb_len v + 3) / 4 * 4 in
  if bytes <? size then Ret (-1, buf)
  else
    do buf <- wrn buf off (be32 (vb_ssrc v) ++ [u8 (vb_sn v); u8 (vb_pt v)] ++ be16 (vb_len v)) ;;
    do src <- rdn (vb_payload v) 0 (vb_len v) ;;
    do buf <- wrn buf (off + 8) src ;;
    Ret (size, buf).

Definition rtcp_psfb_pslei_pack (l : list Z) (buf : list Z) (off bytes : Z) : outcome (Z * list Z) :=
  write_entries be32 4 l buf off bytes.

(** As written: the three words of an entry go to the same place. *)
Fixpoint rtcp_psfb_lrr_pack (l : list rtcp_lrr_t) (buf : list Z) (off bytes : Z)
  : outcome (Z * list Z) :=
  match l with
  | [] => Ret (0, buf)
  | e :: l =>
      if 12 <=? bytes then
        do buf <- nbo_w32 buf off (lr_ssrc e) ;;
        do buf <- nbo_w32 buf off
          (Z.lor (Z.lor (Z.shiftl (lr_sn e) 24) (Z.shiftl (Z.land (lr_c e) 0x01) 23))
                 (Z.shiftl (Z.land (lr_payload e) 0x7F) 16)) ;;
        do buf <- nbo_w32 buf off
          (Z.lor (Z.lor (Z.lor (Z.shiftl (Z.land (ttid e) 0x07) 24) (Z.shiftl (Z.land (tlid e) 0xFF) 16))
                        (Z.shiftl (Z.land (ctid e) 0x07) 8)) (Z.land (clid e) 0xFF)) ;;
        do* (n, buf) <- rtcp_psfb_lrr_pack l buf (off + 12) (bytes - 12) ;;
        Ret (12 + n, buf)
      else Ret (0, buf)
  end.

Definition rtcp_psfb_remb_pack (l : list rtcp_remb_t) (buf : list Z) (off bytes : Z)
  : outcome (Z * list Z) :=
  let count := zlen l in
  if (count <? 1) || (255 <? count) || (s32 bytes <? 4 + 4 + count * 4) then Ret (- E2BIG, buf)
  else
    do first <- rd l 0 ;;
    do buf <- wrn buf off
      (remb_id ++
       be32 (Z.lor (Z.lor (Z.shiftl count 24) (Z.shiftl (re_exp first) 18)) (re_mantissa first))) ;;
    do buf <- wrn buf (off + 8) (concat (map (fun e => be32 (re_ssrc e)) l)) ;;
    Ret (4 + 4 + count * 4, buf).

(** The [switch] of [rtcp_psfb_pack]. *)
Definition psfb_pack_fci (id : Z) (u : rtcp_psfb_u) (buf : list Z) (off bytes : Z)
  : outcome (option (Z * list Z)) :=
  let some m := do r <- m ;; Ret (Some r) in
  if id =? RTCP_PSFB_PLI then some (rtcp_psfb_pli_pack buf off bytes)
  else if id =? RTCP_PSFB_SLI then
    match u with FbSli l => some (rtcp_psfb_sli_pack l buf off bytes) | _ => Crash OutOfBounds end
  else if id =? RTCP_PSFB_RPSI then
    match u with
    | FbRpsi pt len payload => some (rtcp_psfb_rpsi_pack pt payload len buf off bytes)
    | _ => Crash OutOfBounds
    end
  else if id =? RTCP_PSFB_FIR then
    match u with FbFir l => some (rtcp_psfb_fir_pack l buf off bytes) | _ => Crash OutOfBounds end
  else if id =? RTCP_PSFB_TSTR then
    match u with FbFir l => some (rtcp_psfb_tstr_pack l buf off bytes) | _ => Crash OutOfBounds end
  else if id =? RTCP_PSFB_TSTN then
    match u with FbFir l => some (rtcp_psfb_tstn_pack l buf off bytes) | _ => Crash OutOfBounds end
  else if id =? RTCP_PSFB_VBCM then
    match u with FbVbcm v => some (rtcp_psfb_vbcm_pack v buf off bytes) | _ => Crash OutOfBounds end
  else if id =? RTCP_PSFB_PSLEI then
    match u with FbPslei l => some (rtcp_psfb_pslei_pack l buf off bytes) | _ => Crash OutOfBounds end
  else if id =? RTCP_PSFB_LRR then
    match u with FbLrr l => some (rtcp_psfb_lrr_pack l buf off bytes) | _ => Crash OutOfBounds end
  else if id =? RTCP_PSFB_AFB then
    match u with FbAfb l => some (rtcp_psfb_remb_pack l buf off bytes) | _ => Crash OutOfBounds end
  else c_assert false ;;; Ret None.
End Write.

(** The example of [rtcp_rtpfb_remb_test]. *)
Example remb_test :
  let data := [0x52; 0x45; 0x4d; 0x42; 0x03; 0x07; 0xfb; 0x93; 0x23; 0x45; 0x67; 0x89;
               0x23; 0x45; 0x67; 0x8a; 0x23; 0x45; 0x67; 0x8b] in
  let l := map (fun s => mk_remb s 1 0x3fb93) [0x23456789; 0x2345678a; 0x2345678b] in
  @rtcp_psfb_afb_unpack always_alloc data 20 = Ret (0, [FbAfb l]) /\
  rtcp_psfb_remb_pack l (replicate 20 0) 0 20 = Ret (20, data).
Proof. vm_compute. split; reflexivity. Qed.
