(* ===== verification/RtcpXr.v ===== *)
(** Extended reports, RFC 3611 (lib/librtp/source/rtcp-xr.c): the formats of the
    report blocks. *)

From S2P Require Import Prelude RtpUtil Rtpfb.

(** ** Data *)
Record rtcp_dlrr_t := mk_dlrr { dl_ssrc : Z; dl_lrr : Z; dl_dlrr : Z }.

Inductive rtcp_xr_u :=
| XrRle (source begin end_seq : Z) (chunk : list Z) (count : Z)
| XrPrt (source begin end_seq : Z) (timestamp : list Z) (count : Z)
| XrRrt (ntp : Z)
| XrDlrr (l : list rtcp_dlrr_t)
| XrEcn (e : rtcp_ecn_t).

Definition RTCP_XR_LRLE : Z := 1.
Definition RTCP_XR_DRLE : Z := 2.
Definition RTCP_XR_PRT : Z := 3.
Definition RTCP_XR_RRT : Z := 4.
Definition RTCP_XR_DLRR : Z := 5.
Definition RTCP_XR_ECN : Z := 13.

Section Read.
Context `{Alloc}.

(** The array [n] entries are read to: [cap] of them on the stack, or the heap
    when [large]; zeroed for [n].  [None]: no memory. *)
Definition zeroed {A} (zero junk : A) (n cap size : Z) (large : bool) : outcome (option (list A)) :=
  if large then
    if alloc_ok (n * size) then Ret (Some (replicate (Z.to_nat n) zero)) else Ret None
  else
    do arr <- wrn (replicate (Z.to_nat cap) junk) 0 (replicate (Z.to_nat n) zero) ;;
    Ret (Some arr).

(** ** Run lengths *)
Definition rle_bits (chunk : Z) : list bool :=
  if Z.land chunk 0x8000 =? 0 then
    replicate (Z.to_nat (Z.land chunk 0x3FFF)) (negb (Z.land chunk 0x4000 =? 0))
  else
    map (fun j => negb (Z.land chunk (Z.shiftl 1 (14 - j)) =? 0))
      [0; 1; 2; 3; 4; 5; 6; 7; 8; 9; 10; 11; 12; 13; 14].

Fixpoint rle_store (bits : list bool) (i num : Z) (v : list Z) : outcome (Z * list Z) :=
  match bits with
  | [] => Ret (i, v)
  | b :: bits =>
      if i <? num then
        do v <-
          (if b then
             do old <- rd v (i / 8) ;;
             wrn v (i / 8) [Z.lor old (Z.shiftl 1 (7 - i mod 8))]
           else Ret v) ;;
        rle_store bits (i + 1) num v
      else Ret (i, v)
  end.

(** As written: the first chunk is looked for where the sequence numbers are, and
    the last one is left. *)
Fixpoint rle_loop (fuel : nat) (i num : Z) (v : list Z) (ptr : list Z) (len : Z) : outcome (list Z) :=
  if 2 <? len then
    match fuel with
    | O => Crash Diverge
    | S fuel =>
        do chunk <- nbo_r16 ptr ;;
        do* (i, v) <- rle_store (rle_bits chunk) i num v ;;
        rle_loop fuel i num v (adv ptr 2) (len - 2)
    end
  else Ret v.

Definition rtcp_xr_lrle_unpack (ptr : list Z) (bytes : Z) : outcome (Z * list rtcp_xr_u) :=
  do len <- nbo_r16 (adv ptr 2) ;;
  if (bytes <? 8) || (bytes <? (len + 1) * 4) then Ret (-1, [])
  else
    let len := len * 4 in
    if len <? 8 then Ret (0, [])
    else
      do source <- nbo_r32 (adv ptr 4) ;;
      do sq <- nbo_r16 (adv ptr 8) ;;
      do last <- nbo_r16 (adv ptr 10) ;;
      let num := u32 (last - sq) in
      let size := u32 (num + 7) / 8 in
      do o <- zeroed 0 heap_byte size 32 1 (32 <? size) ;;
      match o with
      | None => Ret (- ENOMEM, [])
      | Some v =>
          do v <- rle_loop (Z.to_nat len) 0 num v (adv ptr 8) (len - 8) ;;
          Ret (0, [XrRle source sq last v (s32 num)])
      end.

(** The same text once more. *)
Definition rtcp_xr_drle_unpack (ptr : list Z) (bytes : Z) : outcome (Z * list rtcp_xr_u) :=
  do len <- nbo_r16 (adv ptr 2) ;;
  if (bytes <? 8) || (bytes <? (len + 1) * 4) then Ret (-1, [])
  else
    let len := len * 4 in
    if len <? 8 then Ret (0, [])
    else
      do source <- nbo_r32 (adv ptr 4) ;;
      do sq <- nbo_r16 (adv ptr 8) ;;
      do last <- nbo_r16 (adv ptr 10) ;;
      let num := u32 (last - sq) in
      let size := u32 (num + 7) / 8 in
      do o <- zeroed 0 heap_byte size 32 1 (32 <? size) ;;
      match o with
      | None => Ret (- ENOMEM, [])
      | Some v =>
          do v <- rle_loop (Z.to_nat len) 0 num v (adv ptr 8) (len - 8) ;;
          Ret (0, [XrRle source sq last v (s32 num)])
      end.

(** ** Receipt times.  The number of times comes from the length of the block,
    the size of the array from the sequence numbers. *)
Fixpoint prt_loop (fuel : nat) (i : Z) (ts : list Z) (ptr : list Z) (len : Z) : outcome (list Z) :=
  if 4 <? len then
    match fuel with
    | O => Crash Diverge
    | S fuel =>
        do t <- nbo_r32 ptr ;;
        do ts <- wrn ts i [t] ;;
        prt_loop fuel (i + 1) ts (adv ptr 4) (len - 4)
    end
  else Ret ts.

Definition rtcp_xr_prt_unpack (ptr : list Z) (bytes : Z) : outcome (Z * list rtcp_xr_u) :=
  do len <- nbo_r16 (adv ptr 2) ;;
  if (bytes <? 8) || (bytes <? (len + 1) * 4) then Ret (-1, [])
  else
    let len := len * 4 in
    if len <? 8 then Ret (0, [])
    else
      do source <- nbo_r32 (adv ptr 4) ;;
      do sq <- nbo_r16 (adv ptr 8) ;;
      do last <- nbo_r16 (adv ptr 10) ;;
      let num := u32 (last - sq) in
      do o <- zeroed 0 heap_byte num 32 4 (32 <? num) ;;
      match o with
      | None => Ret (- ENOMEM, [])
      | Some ts =>
          do ts <- prt_loop (Z.to_nat len) 0 ts (adv ptr 8) (len - 8) ;;
          Ret (0, [XrPrt source sq last ts (s32 num)])
      end.

(** ** Reference times, delays, ECN counters *)
Definition rtcp_xr_rrt_unpack (ptr : list Z) (bytes : Z) : outcome (Z * list rtcp_xr_u) :=
  do len <- nbo_r16 (adv ptr 2) ;;
  if (bytes <? 12) || (bytes <? (len + 1) * 4) then Ret (-1, [])
  else
    do hi <- nbo_r32 (adv ptr 4) ;;
    do lo <- nbo_r32 (adv ptr 8) ;;
    Ret (0, [XrRrt (Z.lor (Z.shiftl hi 32) lo)]).

Definition dlrr_entry (ptr : list Z) : outcome rtcp_dlrr_t :=
  do s <- nbo_r32 ptr ;;
  do lrr <- nbo_r32 (adv ptr 4) ;;
  do dlrr <- nbo_r32 (adv ptr 8) ;;
  Ret (mk_dlrr s lrr dlrr).

(** As written: the array has 32 entries, and the heap is used from 385 entries
    on (the size of the array in bytes is 384). *)
Definition rtcp_xr_dlrr_unpack (ptr : list Z) (bytes : Z) : outcome (Z * list rtcp_xr_u) :=
  do len <- nbo_r16 (adv ptr 2) ;;
  if (bytes <? 8) || (bytes <? (len + 1) * 4) then Ret (-1, [])
  else
    let num := len / 3 in
    do o <- zeroed (mk_dlrr 0 0 0) (mk_dlrr 0 0 0) num 32 12 (384 <? num) ;;
    match o with
    | None => Ret (- ENOMEM, [])
    | Some _ =>
        do l <- read_entries dlrr_entry 12 (Z.to_nat num) (adv ptr 4) ;;
        Ret (0, [XrDlrr l])
    end.

(** As written: the counters are read from the start of the block. *)
Definition rtcp_xr_ecn_unpack (ptr : list Z) (bytes : Z) : outcome (Z * list rtcp_xr_u) :=
  do len <- nbo_r16 (adv ptr 2) ;;
  if (bytes <? 24) || (bytes <? (len + 1) * 4) then Ret (-1, [])
  else do e <- ecn_counters ptr ;; Ret (0, [XrEcn e]).

(** The [switch] of [rtcp_xr_unpack]. *)
Definition xr_unpack_block (ptr : list Z) (bytes : Z) : outcome (Z * list rtcp_xr_u) :=
  do bt <- rd ptr 0 ;;
  if bt =? RTCP_XR_LRLE then rtcp_xr_lrle_unpack ptr bytes
  else if bt =? RTCP_XR_DRLE then rtcp_xr_drle_unpack ptr bytes
  else if bt =? RTCP_XR_PRT then rtcp_xr_prt_unpack ptr bytes
  else if bt =? RTCP_XR_RRT then rtcp_xr_rrt_unpack ptr bytes
  else if bt =? RTCP_XR_DLRR then rtcp_xr_dlrr_unpack ptr bytes
  else if bt =? RTCP_XR_ECN then rtcp_xr_ecn_unpack ptr bytes
  else Ret (0, []).
End Read.

(** ** Writing *)
Section Write.
Context `{Build}.

Definition rtcp_xr_rrt_pack (ntp : Z) (buf : list Z) (off bytes : Z) : outcome (Z * list Z) :=
  if bytes <? 12 then Ret (-1, buf)
  else
    do buf <- wrn buf off
      (be32 (Z.lor (Z.shiftl RTCP_XR_RRT 24) 2) ++ be32 (u32 (Z.shiftr ntp 32)) ++ be32 (u32 ntp)) ;;
    Ret (12, buf).

Definition dlrr_bytes (e : rtcp_dlrr_t) : list Z :=
  be32 (dl_ssrc e) ++ be32 (dl_lrr e) ++ be32 (dl_dlrr e).
Definition rtcp_xr_dlrr_pack (l : list rtcp_dlrr_t) (buf : list Z) (off bytes : Z)
  : outcome (Z * list Z) :=
  if s32 bytes <? 4 + zlen l * 12 then Ret (-1, buf)
  else
    do buf <- nbo_w32 buf off (Z.lor (Z.shiftl RTCP_XR_DLRR 24) (zlen l * 3)) ;;
    do* (n, buf) <- write_entries dlrr_bytes 12 l buf (off + 4) (bytes - 4) ;;
    Ret (4 + n, buf).

Definition rtcp_xr_ecn_pack (e : rtcp_ecn_t) (buf : list Z) (off bytes : Z) : outcome (Z * list Z) :=
  if bytes <? 24 then Ret (-1, buf)
  else
    do buf <- wrn buf off (be32 (Z.lor (Z.shiftl RTCP_XR_ECN 24) 5) ++ ecn_bytes e) ;;
    Ret (24, buf).

(** The [switch] of [rtcp_xr_pack]. *)
Definition xr_pack_block (id : Z) (u : rtcp_xr_u) (buf : list Z) (off bytes : Z)
  : outcome (option (Z * list Z)) :=
  let some m := do r <- m ;; Ret (Some r) in
  if id =? RTCP_XR_RRT then
    match u with XrRrt ntp => some (rtcp_xr_rrt_pack ntp buf off bytes) | _ => Crash OutOfBounds end
  else if id =? RTCP_XR_DLRR then
    match u with XrDlrr l => some (rtcp_xr_dlrr_pack l buf off bytes) | _ => Crash OutOfBounds end
  else if id =? RTCP_XR_ECN then
    match u with XrEcn e => some (rtcp_xr_ecn_pack e buf off bytes) | _ => Crash OutOfBounds end
  else c_assert false ;;; Ret None.
End Write.
