(* ===== verification/Feedback.v ===== *)
(** Feedback and extended reports of a session: the formats of Rtpfb.v, Psfb.v
    and RtcpXr.v as an instance of the interface the session uses, and the three
    operations that write such a packet (rtcp_rtpfb_pack, rtcp_psfb_pack,
    rtcp_xr_pack; rtp_rtcp_rtpfb, rtp_rtcp_psfb, rtp_rtcp_xr of
    lib/librtp/source/rtp.c). *)

From stdpp Require Import gmap.
From S2P Require Import Prelude RtpUtil CDouble RtpMember Rtcp Rtpfb Psfb RtcpXr.

Inductive rtcp_fb :=
| FbRtp (media : Z) (u : rtcp_rtpfb_u)
| FbPay (media : Z) (u : rtcp_psfb_u)
| FbXr (u : rtcp_xr_u).

#[local] Instance rtcp_formats `{Alloc} `{Build} : RtcpFeedback := {|
  fb_body := rtcp_fb;
  rtpfb_fci h ptr bytes :=
    do media <- nbo_r32 (adv ptr 4) ;;
    do* (_, l) <- rtpfb_unpack_fci (rc h) ptr bytes ;;
    Ret (map (FbRtp media) l);
  psfb_fci h ptr bytes :=
    do media <- nbo_r32 (adv ptr 4) ;;
    do* (_, l) <- psfb_unpack_fci (rc h) ptr bytes ;;
    Ret (map (FbPay media) l);
  xr_block _ ptr bytes :=
    do* (_, l) <- xr_unpack_block ptr bytes ;;
    Ret (map FbXr l)
|}.

Section Pack.
Context `{Alloc} `{Build}.

(** The result of a format is not looked at: a negative one makes a short
    packet. *)
Definition rtcp_rtpfb_pack (c : rtp_context) (buf : list Z) (bytes id media : Z) (u : rtcp_rtpfb_u)
  : outcome (Z * list Z) :=
  if bytes <? 12 then Ret (12, buf)
  else
    do o <- rtpfb_pack_fci id u buf 12 (u32 (bytes - 12)) ;;
    match o with
    | None => Ret (-1, buf)
    | Some (r, buf) =>
        let len := u16 (Z.quot (r + 8 + 3) 4) in
        do buf <- nbo_write_rtcp_header buf 0 (mk_rtcp_header 2 0 id RTCP_RTPFB len) ;;
        do me <- load (heap c) (self c) ;;
        do buf <- nbo_w32 buf 4 (mssrc me) ;;
        do buf <- nbo_w32 buf 8 media ;;
        Ret (len * 4 + 4, buf)
    end.

Definition rtcp_psfb_pack (c : rtp_context) (buf : list Z) (bytes id media : Z) (u : rtcp_psfb_u)
  : outcome (Z * list Z) :=
  if bytes <? 12 then Ret (12, buf)
  else
    do o <- psfb_pack_fci id u buf 12 (u32 (bytes - 12)) ;;
    match o with
    | None => Ret (-1, buf)
    | Some (r, buf) =>
        let len := u16 (Z.quot (r + 8 + 3) 4) in
        do buf <- nbo_write_rtcp_header buf 0 (mk_rtcp_header 2 0 id RTCP_PSFB len) ;;
        do me <- load (heap c) (self c) ;;
        do buf <- nbo_w32 buf 4 (mssrc me) ;;
        do buf <- nbo_w32 buf 8 media ;;
        Ret (len * 4 + 4, buf)
    end.

Definition rtcp_xr_pack (c : rtp_context) (buf : list Z) (bytes id : Z) (u : rtcp_xr_u)
  : outcome (Z * list Z) :=
  if bytes <? 8 then Ret (8, buf)
  else
    do o <- xr_pack_block id u buf 8 (u32 (bytes - 8)) ;;
    match o with
    | None => Ret (-1, buf)
    | Some (r, buf) =>
        let len := u16 (Z.quot (r + 4 + 3) 4) in
        do buf <- nbo_write_rtcp_header buf 0 (mk_rtcp_header 2 0 id RTCP_XR len) ;;
        do me <- load (heap c) (self c) ;;
        do buf <- nbo_w32 buf 4 (mssrc me) ;;
        Ret (len * 4 + 4, buf)
    end.

Definition rtp_rtcp_rtpfb (c : rtp_context) (buf : list Z) (bytes id media : Z) (u : rtcp_rtpfb_u) :=
  rtcp_rtpfb_pack c buf bytes id media u.
Definition rtp_rtcp_psfb (c : rtp_context) (buf : list Z) (bytes id media : Z) (u : rtcp_psfb_u) :=
  rtcp_psfb_pack c buf bytes id media u.
Definition rtp_rtcp_xr (c : rtp_context) (buf : list Z) (bytes id : Z) (u : rtcp_xr_u) :=
  rtcp_xr_pack c buf bytes id u.
End Pack.
