(* ===== verification/RtcpProps.v ===== *)
(** The session keeps its members: memory safety and reference counting over any
    run, and what it does with the packets it should not trust. *)

From stdpp Require Import gmap.
From S2P Require Import Prelude RtpUtil RtpPacket CDouble RtpMember RtpMemberSpec Rtcp.

(** What the feedback formats promise the session: on bytes that are there they
    read nothing else and return.  Payload-specific feedback promises it for the
    packets [psfb_guard] accepts. *)
Class FeedbackSafe `{RtcpFeedback} `{Build} := {
  psfb_guard : rtcp_header_t -> Z -> bool;
  rtpfb_safe h p n : bytes_ok p -> 8 <= n <= zlen p -> post (rtpfb_fci h p n) (fun _ => True);
  psfb_safe h p n : bytes_ok p -> 8 <= n <= zlen p -> psfb_guard h n = true ->
    post (psfb_fci h p n) (fun _ => True)
}.

(** The cycle of extra items in source descriptions. *)
Definition cycling `{RtcpFeedback} (c : rtp_context) : Prop := 0 <= rtcp_cycle c < 24.

(** The session [c] with the members [ms] and the senders [ss]: every pointer
    is counted. *)
Record session `{RtcpFeedback} (c : rtp_context) (ms ss : list nat) : Prop := {
  sess_members : list_rep (members c) ms;
  sess_senders : list_rep (senders c) ss;
  sess_cycle : cycling c;
  sess_heap : heap_ok (heap c) (self c :: ms ++ ss)
}.

Definition session_ok `{RtcpFeedback} (c : rtp_context) : Prop := exists ms ss, session c ms ss.

(** [a] is a member the session points to. *)
Definition member_of `{RtcpFeedback} (c : rtp_context) (a : nat) : Prop :=
  exists ms ss, session c ms ss /\ a ∈ self c :: ms ++ ss.

Section Session.
Context `{RtcpFeedback} `{Alloc} `{Build} `{Fpu}.
Hypothesis Halloc : forall n, alloc_ok n = true.

Lemma member_session c a : member_of c a -> session_ok c.
Proof. intros (ms & ss & Hs & _). by exists ms, ss. Qed.

Lemma on_rtcp_ok c m : session_ok c -> session_ok (on_rtcp c m).
Proof. intros (ms & ss & [Hm Hs Hcy Hh]). by exists ms, ss. Qed.

Lemma on_rtcp_member c m a : member_of c a -> member_of (on_rtcp c m) a.
Proof. intros (ms & ss & [Hm Hs Hcy Hh] & Ha). by exists ms, ss. Qed.

Lemma deliver_fb_ok c type from l : session_ok c -> session_ok (deliver_fb c type from l).
Proof.
  unfold deliver_fb. revert c. induction l as [|b l IH]; intros c Hc; simpl; [done|].
  by apply IH, on_rtcp_ok.
Qed.

Lemma load_member c a (Q : rtp_member -> Prop) :
  member_of c a ->
  (forall m, cells (heap c) !! a = Some m -> member_ok m -> Q m) -> post (load (heap c) a) Q.
Proof.
  intros (ms & ss & [_ _ _ Hh] & Ha) HQ. eapply load_root; [done..|]. intros m Hm _ _ Hok. by apply HQ.
Qed.

(** Storing a member whose count and description are kept. *)
Lemma save_member c a m m' :
  member_of c a -> cells (heap c) !! a = Some m -> ref m' = ref m -> sdes m' = sdes m ->
  member_of (set_heap c (save (heap c) a m')) a.
Proof.
  intros (ms & ss & [Hm Hs Hcy Hh] & Ha) Hca Hr Hsd. exists ms, ss. split; [|done]. split; [done..|].
  simpl. eapply save_heap; [done..|]. destruct Hh as [Hc _ _]. destruct (Hc a m Hca) as (_ & _ & Hok).
  unfold member_ok. by rewrite Hsd.
Qed.

Lemma list_add σ p l roots a :
  list_rep p l -> heap_ok σ roots -> a ∈ roots ->
  post (rtp_member_list_add σ p a) (fun '(r, (σ', p')) =>
    list_rep p' (l ++ [a]) /\ heap_ok σ' (a :: roots)).
Proof.
  intros Hr Hh Ha. pose proof (add_list σ p l roots a Hr Hh Ha) as Hadd.
  assert (Hne : forall σ' p', rtp_member_list_add σ p a <> Ret (- ENOMEM, (σ', p'))).
  { intros σ' p'. unfold rtp_member_list_add, list_grow. rewrite Halloc.
    intros He. destruct (N_SOURCE <=? lcount p); [destruct (lcapacity p <=? _)|];
      repeat run_inv; discriminate. }
  destruct (rtp_member_list_add σ p a) as [[r [σ' p']]|[]] eqn:E; simpl in *; try done.
  destruct Hadd as [(-> & _)|(-> & Hp & Hh' & _)]; [by destruct (Hne σ' p')|done].
Qed.

Lemma find_in_members c ms ss s :
  session c ms ss -> rtp_member_list_find (heap c) (members c) s = Ret (spec_find (heap c) ms s).
Proof. intros [Hm _ _ Hh]. apply find_spec_list; [done|]. eapply heap_live; [done|set_solver]. Qed.

Lemma find_in_senders c ms ss s :
  session c ms ss -> rtp_member_list_find (heap c) (senders c) s = Ret (spec_find (heap c) ss s).
Proof. intros [_ Hs _ Hh]. apply find_spec_list; [done|]. eapply heap_live; [done|set_solver]. Qed.

(** Fetching a member finds it or makes it. *)
Lemma fetch_member c s :
  session_ok c ->
  post (rtp_member_fetch c s) (fun '(o, c') =>
    exists a ms ss, o = Some a /\ session c' ms ss /\ a ∈ ms /\ senders c' = senders c /\ self c' = self c).
Proof.
  intros (ms & ss & Hsess). unfold rtp_member_fetch.
  rewrite (find_in_members _ _ _ _ Hsess). cbn [obind].
  destruct (spec_find (heap c) ms s) as [a|] eqn:E.
  { exists a, ms, ss. apply spec_find_in in E as [? _]. done. }
  rewrite (find_in_senders _ _ _ _ Hsess). cbn [obind].
  destruct Hsess as [Hm Hs Hcy Hh]. ostep. apply post_assert. intros _.
  pose proof (create_heap (heap c) (self c :: ms ++ ss) s Hh) as Hcr.
  destruct (rtp_member_create (heap c) s) as [[a|] σ] eqn:Ec;
    [|unfold rtp_member_create in Ec; rewrite Halloc in Ec; discriminate].
  destruct Hcr as (Hh' & _ & _ & _). ostep.
  eapply post_mono; [apply (list_add _ _ ms (a :: self c :: ms ++ ss)); [done|done|set_solver]|].
  intros [r [σ' p']] [Hm' Hh'']. ostep.
  eapply post_mono; [by apply (release_heap _ (a :: self c :: ms ++ ss))|]. intros σ'' [Hh3 _]. ostep.
  exists a, (ms ++ [a]), ss. split_and!; [done| |set_solver|done|done]. split; [done..|].
  simpl. eapply heap_ok_perm; [|exact Hh3]. solve_Permutation.
Qed.

Lemma fetch_sender c s :
  session_ok c ->
  post (rtp_sender_fetch c s) (fun '(o, c') => exists a, o = Some a /\ member_of c' a /\ self c' = self c).
Proof.
  intros (ms & ss & Hsess). unfold rtp_sender_fetch.
  rewrite (find_in_senders _ _ _ _ Hsess). cbn [obind].
  destruct (spec_find (heap c) ss s) as [a|] eqn:E.
  { exists a. split_and!; [done| |done]. apply spec_find_in in E as [? _]. exists ms, ss. split; [done|set_solver]. }
  ostep. eapply post_mono; [apply fetch_member; by exists ms, ss|].
  intros [o c'] (a & ms' & ss' & -> & [Hm' Hs' Hcy' Hh'] & Ha & Hse & Hself). ostep.
  eapply post_mono; [apply (list_add _ _ ss' (self c' :: ms' ++ ss')); [done..|set_solver]|].
  intros [r [σ' p']] [Hs'' Hh'']. ostep. exists a. split_and!; [done| |done].
  exists ms', (ss' ++ [a]). split; [split; [done..|]|set_solver]. simpl.
  eapply heap_ok_perm; [|exact Hh'']. solve_Permutation.
Qed.

Lemma drop_ok c s : session_ok c -> post (drop_ssrc c s) session_ok.
Proof.
  intros (ms & ss & [Hm Hs Hcy Hh]). unfold drop_ssrc. ostep.
  eapply post_mono; [apply (delete_list _ _ ms (self c :: ss)); [done|]|].
  { eapply heap_ok_perm; [|exact Hh]. by rewrite Permutation_middle. }
  intros [r [σ' p']] [Hm' Hh']. ostep. cbn [heap senders set_members].
  eapply post_mono; [apply (delete_list _ _ ss (self c :: spec_delete (heap c) ms s)); [done|]|].
  { eapply heap_ok_perm; [|exact Hh']. solve_Permutation. }
  intros [r' [σ'' p'']] [Hs'' Hh'']. ostep. eexists _, _. split; [done..|]. simpl.
  eapply heap_ok_perm; [|exact Hh'']. solve_Permutation.
Qed.

(** ** Every handler keeps the session *)
Lemma block_post p : bytes_ok p -> 24 <= zlen p -> post (rtcp_block p) (fun _ => True).
Proof.
  intros Hp Hl. unfold rtcp_block.
  repeat (ostep; first
    [ apply post_r32; [rewrite ?zlen_adv; lia|auto with zlist|intros ? _]
    | apply post_rd; [lia|intros ? _] ]).
  by ostep.
Qed.

Lemma report_loop_ok n c from p :
  session_ok c -> bytes_ok p -> Z.of_nat n * 24 <= zlen p -> post (report_loop n c from p) session_ok.
Proof.
  revert c p. induction n as [|n IH]; intros c p Hc Hp Hn; [done|]. cbn [report_loop]. ostep.
  eapply post_mono; [apply block_post; [done|lia]|]. intros rb _.
  apply IH; [by apply on_rtcp_ok|auto with zlist|rewrite zlen_adv; lia].
Qed.

Lemma sr_ok now c h ptr bytes :
  session_ok c -> bytes_ok ptr -> bytes <= zlen ptr -> 0 <= rc h ->
  post (rtcp_sr_unpack now c h ptr bytes) session_ok.
Proof.
  intros Hc Hp Hl Hr. unfold rtcp_sr_unpack. apply post_if; intros Hb; cbool.
  { ostep. by apply post_assert. }
  ostep. apply post_r32; [lia|done|intros from _]. ostep.
  eapply post_mono; [by apply fetch_sender|]. intros [o c'] (a & -> & Ha & _).
  ostep. apply post_assert. intros _. ostep. eapply load_member; [done|]. intros m Hm Hok.
  ostep. apply post_assert. intros _.
  do 5 (ostep; apply post_r32; [rewrite zlen_adv; lia|auto with zlist|intros ? _]).
  cbv zeta. apply report_loop_ok; [|auto with zlist|rewrite zlen_adv; lia].
  eapply member_session, (save_member _ _ m); done.
Qed.

Lemma rr_ok now c h ptr bytes :
  session_ok c -> bytes_ok ptr -> bytes <= zlen ptr -> 0 <= rc h ->
  post (rtcp_rr_unpack now c h ptr bytes) session_ok.
Proof.
  intros Hc Hp Hl Hr. unfold rtcp_rr_unpack. apply post_if; intros Hb; cbool.
  { ostep. by apply post_assert. }
  ostep. apply post_r32; [lia|done|intros from _]. ostep.
  eapply post_mono; [by apply fetch_member|]. intros [o c'] (a & ms & ss & -> & Hs & Ha & _).
  assert (Hm' : member_of c' a) by (exists ms, ss; split; [done|set_solver]).
  ostep. apply post_assert. intros _. ostep. eapply load_member; [done|]. intros m Hm Hok.
  ostep. apply post_assert. intros _.
  cbv zeta. apply report_loop_ok; [|auto with zlist|rewrite zlen_adv; lia].
  eapply member_session, (save_member _ _ m); done.
Qed.

Lemma sdes_items_ok fuel c a from ptr bytes o :
  member_of c a -> bytes_ok ptr -> bytes <= zlen ptr -> 0 <= o -> bytes - o <= Z.of_nat fuel ->
  post (sdes_items fuel c (Some a) from ptr bytes o)
    (fun '(_, (c', o')) => session_ok c' /\ o <= o').
Proof.
  revert c o. induction fuel as [|fuel IH]; intros c o Ha Hp Hl Ho Hf; cbn [sdes_items].
  all: destruct (Z.leb_spec (o + 2) bytes); [|ostep; split; [by eapply member_session|lia]].
  { lia. }
  ostep. apply post_rd; [lia|intros t Ht]. apply post_if; intros Ht0.
  { ostep. split; [by eapply member_session|lia]. }
  ostep. apply post_rd; [lia|intros len Hlen]. pose proof (rd_byte _ _ _ Hp Hlen) as Hbl.
  unfold is_byte in Hbl. apply post_if; intros Hb; cbool.
  { ostep. apply post_assert. intros _. ostep. split; [by eapply member_session|lia]. }
  cbv zeta. ostep.
  apply post_mono with (P := fun '(_, σ) => member_of (set_heap c σ) a).
  { apply post_if; intros Hti.
    - destruct Ha as (ms & ss & [Hm Hs Hcy Hh] & Hin). cbn [heap on_rtcp].
      eapply post_mono; [apply (setvalue_heap _ _ _ _ _ _ Hh Hin)|].
      + rewrite zlen_adv; lia.
      + intros [r σ] Hh'. exists ms, ss. split; [by split|done].
    - ostep. destruct Ha as (ms & ss & [Hm Hs Hcy Hh] & Hin). exists ms, ss. split; [by split|done]. }
  intros [r σ] Hσ. eapply post_mono; [apply IH; [|done|done|lia|lia]|].
  { destruct Hσ as (ms & ss & [Hm Hs Hcy Hh] & Hin). exists ms, ss. split; [by split|done]. }
  intros [ok [c' o']] [Hc' Ho']. split; [done|lia].
Qed.

Lemma sdes_chunks_ok n addr c ptr bytes o :
  session_ok c -> bytes_ok ptr -> bytes <= zlen ptr -> 0 <= o ->
  post (sdes_chunks n addr c ptr bytes o) session_ok.
Proof.
  revert c o. induction n as [|n IH]; intros c o Hc Hp Hl Ho; [done|]. cbn [sdes_chunks].
  apply post_if; intros Hb; cbool; [|done].
  ostep. apply post_r32; [rewrite zlen_adv; lia|auto with zlist|intros from _]. ostep.
  eapply post_mono; [by apply fetch_member|]. intros [p c'] (a & ms & ss & -> & Hs & Ha & _). ostep.
  eapply post_mono; [apply sdes_items_ok; [|done|done|lia|lia]|].
  { exists ms, ss. split; [done|set_solver]. }
  intros [ok [c'' o']] [Hc'' Ho']. apply post_if; intros _; [done|].
  apply IH; [done..|]. lia.
Qed.

Lemma sdes_ok addr c h ptr bytes :
  session_ok c -> bytes_ok ptr -> bytes <= zlen ptr ->
  post (rtcp_sdes_unpack addr c h ptr bytes) session_ok.
Proof.
  intros Hc Hp Hl. unfold rtcp_sdes_unpack. ostep. apply post_assert. intros _.
  by apply sdes_chunks_ok.
Qed.

(** BYE reads one word behind its last SSRC: that word must be there. *)
Lemma bye_loop_ok n i c ptr body :
  session_ok c -> bytes_ok ptr -> 0 <= i -> 4 + (i + Z.of_nat n) * 4 <= zlen ptr ->
  post (bye_loop n i c ptr body) session_ok.
Proof.
  revert i c. induction n as [|n IH]; intros i c Hc Hp Hi Hl; [done|]. cbn [bye_loop]. ostep.
  apply post_r32; [rewrite zlen_adv; lia|auto with zlist|intros s _]. ostep.
  eapply post_mono; [by apply drop_ok|]. intros c' Hc'.
  apply IH; [by apply on_rtcp_ok|done|lia|lia].
Qed.

Lemma bye_ok c h ptr bytes :
  session_ok c -> bytes_ok ptr -> bytes + 4 <= zlen ptr -> 0 <= rc h ->
  post (rtcp_bye_unpack c h ptr bytes) session_ok.
Proof.
  intros Hc Hp Hl Hr. unfold rtcp_bye_unpack. ostep. apply post_assert. intros _.
  apply post_if; intros Hb; [done|]. cbool. ostep. apply post_r32; [lia|done|intros from _]. ostep.
  eapply post_mono; [by apply drop_ok|]. intros c' Hc'. ostep.
  apply post_mono with (P := fun _ => True).
  { unfold bye_reason. apply post_if; intros Hl1; cbool; [|done]. ostep.
    apply post_rd; [lia|intros len _]. apply post_if; intros _; [|done]. ostep. by apply post_assert. }
  intros body _. apply bye_loop_ok; [by apply on_rtcp_ok|done|lia|lia].
Qed.

Lemma app_ok c h ptr bytes :
  session_ok c -> bytes_ok ptr -> bytes <= zlen ptr -> post (rtcp_app_unpack c h ptr bytes) session_ok.
Proof.
  intros Hc Hp Hl. unfold rtcp_app_unpack. apply post_if; intros Hb; cbool.
  { ostep. by apply post_assert. }
  ostep. apply post_r32; [lia|done|intros from _]. ostep. apply post_rdn; [lia..|]. ostep.
  by apply on_rtcp_ok.
Qed.

Context `{!FeedbackSafe}.

Lemma rtpfb_ok c h ptr bytes :
  session_ok c -> bytes_ok ptr -> bytes <= zlen ptr -> post (rtcp_rtpfb_unpack c h ptr bytes) session_ok.
Proof.
  intros Hc Hp Hl. unfold rtcp_rtpfb_unpack. apply post_if; intros Hb; cbool.
  { ostep. by apply post_assert. }
  ostep. apply post_r32; [lia|done|intros from _]. ostep.
  eapply post_mono; [by apply fetch_sender|]. intros [o c'] (a & -> & Ha & _). ostep.
  eapply post_mono; [apply rtpfb_safe; [done|lia]|]. intros l _. ostep.
  by eapply deliver_fb_ok, member_session.
Qed.

Lemma psfb_ok c h ptr bytes :
  session_ok c -> bytes_ok ptr -> bytes <= zlen ptr -> psfb_guard h bytes = true ->
  post (rtcp_psfb_unpack c h ptr bytes) session_ok.
Proof.
  intros Hc Hp Hl Hg. unfold rtcp_psfb_unpack. apply post_if; intros Hb; cbool.
  { ostep. by apply post_assert. }
  ostep. apply post_r32; [lia|done|intros from _]. ostep.
  eapply post_mono; [by apply fetch_sender|]. intros [o c'] (a & -> & Ha & _).
  ostep. apply post_assert. intros _. ostep.
  eapply post_mono; [apply psfb_safe; [done|lia|done]|]. intros l _. ostep.
  by eapply deliver_fb_ok, member_session.
Qed.

(** The packets the session is proved to survive: no extended reports, feedback
    that is guarded. *)
Definition benign_packet (h : rtcp_header_t) (bytes : Z) : bool :=
  negb (rpt h =? RTCP_XR) && (negb (rpt h =? RTCP_PSFB) || psfb_guard h bytes).

Lemma dispatch_ok now addr c h ptr bytes :
  session_ok c -> bytes_ok ptr -> bytes + 4 <= zlen ptr -> 0 <= rc h -> benign_packet h bytes = true ->
  post (rtcp_dispatch now addr c h ptr bytes) session_ok.
Proof.
  intros Hc Hp Hl Hr Hx. unfold benign_packet in Hx. unfold rtcp_dispatch. cbv zeta.
  apply post_if; intros _; [apply sr_ok; auto; lia|].
  apply post_if; intros _; [apply rr_ok; auto; lia|].
  apply post_if; intros _; [apply sdes_ok; auto; lia|].
  apply post_if; intros _; [apply bye_ok; auto; lia|].
  apply post_if; intros _; [apply app_ok; auto; lia|].
  apply post_if; intros _; [apply rtpfb_ok; auto; lia|].
  apply post_if; intros Hps; [cbool; apply psfb_ok; auto; [lia|tauto]|].
  apply post_if; intros Hxr; cbool; [tauto|]. ostep. by apply post_assert.
Qed.

(** Every packet of the compound that the parser gets to is benign. *)
Fixpoint benign (fuel : nat) (p : list Z) (bytes : Z) : bool :=
  if 4 <? bytes then
    match fuel, rtcp_frame p bytes with
    | S fuel, Ret (Some (h, n)) =>
        benign_packet h (n - 4) &&
        benign fuel (adv p ((rlength h + 1) * 4)) (bytes - (rlength h + 1) * 4)
    | _, _ => true
    end
  else true.

Lemma header_ranges w :
  0 <= rc (rtcp_header_of w) /\ 0 <= rlength (rtcp_header_of w) < 2 ^ 16.
Proof.
  simpl. unfold RTCP_RC, RTCP_LEN. change 31 with (2 ^ 5 - 1). change 65535 with (2 ^ 16 - 1).
  rewrite !land_ones_mod by lia. lia.
Qed.

Lemma frame_post p bytes :
  bytes_ok p -> 4 <= bytes <= zlen p ->
  post (rtcp_frame p bytes) (fun o => match o with
    | None => True
    | Some (h, n) => 0 <= rc h /\ 0 <= rlength h /\ 4 <= n <= rlength h * 4 + 4 /\
        rlength h * 4 + 4 <= bytes
    end).
Proof.
  intros Hp Hl. unfold rtcp_frame. ostep. apply post_r32; [lia|done|intros w _].
  cbv zeta. pose proof (header_ranges w) as [Hrc Hlen]. set (h := rtcp_header_of w) in *. clearbody h.
  apply post_if; intros Hn; [done|]. cbool. destruct Hn as [Hn _].
  apply post_if; intros _; [ostep; lia|].
  apply post_if; intros Hl1; cbool; [done|].
  ostep. apply post_rd; [lia|intros pad Hpad]. pose proof (rd_byte _ _ _ Hp Hpad) as Hb.
  unfold is_byte in Hb. apply post_if; intros Hpl; cbool; [done|]. ostep. lia.
Qed.

Lemma parse_ok now addr c p bytes :
  session_ok c -> bytes_ok p -> 4 < bytes -> bytes + 4 <= zlen p ->
  (forall h n, rtcp_frame p bytes = Ret (Some (h, n)) -> benign_packet h (n - 4) = true) ->
  post (rtcp_parse now addr c p bytes) (fun '(r, c') => session_ok c' /\
    (r = -1 \/ exists h n, rtcp_frame p bytes = Ret (Some (h, n)) /\ r = (rlength h + 1) * 4 /\ 4 <= r <= bytes)).
Proof.
  intros Hc Hp Hb Hl Hx. unfold rtcp_parse. ostep. apply post_assert. intros _.
  pose proof (frame_post p bytes Hp ltac:(lia)) as Hf.
  destruct (rtcp_frame p bytes) as [[[h n]|]|] eqn:E; cbn [obind]; [| |by destruct c0].
  - simpl in Hf. ostep. eapply post_mono; [apply dispatch_ok; [done|auto with zlist| |lia|eauto]|].
    + rewrite zlen_adv; lia.
    + intros c' Hc'. ostep. split; [done|]. right. exists h, n. split; [done|lia].
  - ostep. apply post_assert. intros _. ostep. auto.
Qed.

Lemma set_avg_ok c n : session_ok c -> session_ok (set_avg c n).
Proof. intros (ms & ss & [Hm Hs Hcy Hh]). by exists ms, ss. Qed.

Lemma compound_ok fuel now addr c p bytes :
  session_ok c -> bytes_ok p -> 0 <= bytes -> bytes + 4 <= zlen p -> bytes <= Z.of_nat fuel ->
  benign fuel p bytes = true ->
  post (rtcp_compound fuel now addr c p bytes) session_ok.
Proof.
  revert addr c p bytes. induction fuel as [|fuel IH]; intros addr c p bytes Hc Hp Hb Hl Hf Hx;
    cbn [rtcp_compound]; (destruct (Z.ltb_spec 4 bytes) as [Hb4|]; [|done]); [lia|].
  cbn [benign] in Hx. rewrite (proj2 (Z.ltb_lt _ _) Hb4) in Hx.
  ostep. eapply post_mono; [apply parse_ok; [done|done|lia|lia|]|].
  { intros h n E. rewrite E in Hx. cbool. tauto. }
  intros [r c'] [Hc' Hr]. apply post_if; intros Hr0; cbool; [done|].
  destruct Hr as [->|(h & n & E & -> & Hr)]; [lia|].
  rewrite E in Hx. cbool. destruct Hx as [_ Hx]. apply IH; try done; try lia.
  - by apply set_avg_ok.
  - auto with zlist.
  - rewrite zlen_adv; lia.
Qed.

Lemma input_rtcp_ok now addr c p bytes :
  session_ok c -> bytes_ok p -> 0 <= bytes -> bytes + 4 <= zlen p ->
  benign (Z.to_nat bytes) p bytes = true ->
  post (rtcp_input_rtcp now addr c p bytes) (fun '(_, c') => session_ok c').
Proof.
  intros. unfold rtcp_input_rtcp. ostep. eapply post_mono; [apply compound_ok; auto; lia|].
  intros c' Hc'. by ostep.
Qed.

(** ** RTP packets *)
Lemma input_rtp_ok now c data bytes :
  session_ok c -> bytes_ok data -> bytes <= zlen data ->
  post (rtcp_input_rtp now c data bytes) (fun '(_, c') => session_ok c').
Proof.
  intros Hc Hd Hl. unfold rtcp_input_rtp. ostep.
  eapply post_mono; [by apply deserialize_post|]. intros [r pkt] _.
  apply post_if; intros _; [done|]. ostep. apply post_assert. intros _. ostep.
  eapply post_mono; [by apply fetch_sender|]. intros [o c'] (a & -> & Ha & _). ostep.
  eapply load_member; [done|]. intros m Hm _. destruct (rtp_seq_update _ _) as [ok s].
  apply post_if; intros _; ostep; eapply member_session, (save_member _ _ m); done.
Qed.

(** ** Creating and destroying *)
Lemma create_session now s ts freq bw sender :
  post (rtp_create now s ts freq bw sender)
    (fun o => match o with Some c => session_ok c /\ events c = [] | None => False end).
Proof.
  unfold rtp_create. rewrite Halloc. cbn [negb].
  pose proof (create_heap (mk_store ∅ 0) [] s empty_heap) as Hcr.
  destruct (rtp_member_create _ s) as [[a|] σ] eqn:Ec;
    [|unfold rtp_member_create in Ec; rewrite Halloc in Ec; discriminate].
  destruct Hcr as (Hh & Ha & _ & _).
  assert (Hl : rtp_member_list_create = Some (mk_list [None; None] [] 0 0))
    by (unfold rtp_member_list_create; by rewrite Halloc).
  rewrite Hl. pose proof (create_rep _ Hl) as Hr. unfold load. rewrite Ha. cbn [obind]. ostep.
  eapply post_mono; [apply (list_add _ _ [] [a]); [done| |set_solver]|].
  { eapply save_heap; [done..|]. apply new_member_ok. }
  intros [r [σ' p']] [Hm Hh']. ostep. split; [|done]. exists [a], []. by split.
Qed.

(** Destroying a session frees every member. *)
Lemma destroy_session c : session_ok c -> post (rtp_destroy c) (fun σ => cells σ = ∅).
Proof.
  intros (ms & ss & [Hm Hs Hcy Hh]). unfold rtp_destroy. ostep.
  eapply post_mono; [apply (destroy_list _ _ ms (self c :: ss)); [done|]|].
  { eapply heap_ok_perm; [|exact Hh]. by rewrite Permutation_middle. }
  intros σ Hσ. ostep. eapply post_mono; [apply (destroy_list _ _ ss [self c]); [done|]|].
  { eapply heap_ok_perm; [|exact Hσ]. solve_Permutation. }
  intros σ' Hσ'. eapply post_mono; [by apply (release_heap _ [])|]. intros σ'' [[Hc _ _] _].
  apply map_empty. intros a. destruct (cells σ'' !! a) as [m|] eqn:E; [|done].
  destruct (Hc a m E) as (_ & Hp & _). unfold refs in Hp. simpl in Hp. lia.
Qed.
End Session.
