(* ===== verification/FeedbackProps.v ===== *)
(** The feedback formats read only the packet they are given: the promise the
    session asks for (RtcpProps), discharged; and the report blocks that break
    it. *)

From S2P Require Import Prelude RtpUtil Rtcp RtcpProps Rtpfb Psfb RtcpXr Feedback.

(** Reading fields of a buffer that is long enough. *)
Ltac rstep :=
  lazymatch goal with
  | |- post (obind _ _) _ => apply post_bind
  | |- post (rtp_read_uint16 _) _ =>
      apply post_r16; [autorewrite with zlen; lia|auto with zlist|intros ? ?]
  | |- post (rtp_read_uint32 _) _ =>
      apply post_r32; [autorewrite with zlen; lia|auto with zlist|intros ? ?]
  | |- post (rd _ _) _ =>
      let b := fresh "b" in let Hb := fresh "Hb" in
      apply post_rd; [autorewrite with zlen; lia|intros b Hb; apply rd_byte in Hb; [|auto with zlist]];
      unfold is_byte in Hb
  | |- post (Ret _) _ => apply post_ret
  end.
Ltac rsafe := repeat rstep; try done.

(** The cases of a [switch]. *)
Ltac cases :=
  repeat lazymatch goal with
  | |- post (if _ =? _ then _ else _) _ => apply post_if; intros ?
  end.

Section Safe.
Context `{Alloc} `{Build}.

Definition entry_safe {A} (entry : list Z -> outcome A) (size : Z) : Prop :=
  forall p, bytes_ok p -> size <= zlen p -> post (entry p) (fun _ => True).

Lemma read_entries_safe {A} (entry : list Z -> outcome A) size n p :
  entry_safe entry size -> 0 <= size -> bytes_ok p -> Z.of_nat n * size <= zlen p ->
  post (read_entries entry size n p) (fun _ => True).
Proof.
  intros He Hs. revert p. induction n as [|n IH]; intros p Hp Hl; cbn [read_entries]; [done|].
  ostep. eapply post_mono; [apply He; [done|nia]|]. intros a _. ostep.
  eapply post_mono; [apply IH; [auto with zlist|autorewrite with zlen; nia]|]. intros l _. by ostep.
Qed.

(** The formats that are an array of entries. *)
Lemma entries_safe {A B} (entry : list Z -> outcome A) size (b : bool) e (f : list A -> Z * list B) n p :
  entry_safe entry size -> 0 < size -> bytes_ok p -> 0 <= n <= zlen p ->
  post (if b then Ret e else do l <- read_entries entry size (Z.to_nat (n / size)) p ;; Ret (f l))
    (fun _ => True).
Proof.
  intros He Hs Hp Hn. apply post_if; intros _; [done|]. ostep.
  assert (0 <= n / size) by (apply Z.div_pos; lia). pose proof (Z.mul_div_le n size Hs).
  eapply post_mono; [apply read_entries_safe; [done|lia|done|rewrite Z2Nat.id; lia]|].
  intros l _. by ostep.
Qed.

Lemma nack_safe : entry_safe nack_entry 4.
Proof. intros p Hp Hl. unfold nack_entry. rsafe. Qed.
Lemma tmmbr_safe : entry_safe tmmbr_entry 8.
Proof. intros p Hp Hl. unfold tmmbr_entry. rsafe. Qed.
Lemma ecn_safe : entry_safe ecn_counters 20.
Proof. intros p Hp Hl. unfold ecn_counters. rsafe. Qed.
Lemma sli_safe : entry_safe sli_entry 4.
Proof. intros p Hp Hl. unfold sli_entry. rsafe. Qed.
Lemma fir_safe : entry_safe fir_entry 8.
Proof. intros p Hp Hl. unfold fir_entry. rsafe. Qed.
Lemma tstr_safe : entry_safe tstr_entry 8.
Proof. intros p Hp Hl. unfold tstr_entry. rsafe. Qed.
Lemma word_safe : entry_safe nbo_r32 4.
Proof. intros p Hp Hl. rsafe. Qed.
Lemma lrr_safe : entry_safe lrr_entry 12.
Proof. intros p Hp Hl. unfold lrr_entry. rsafe. Qed.

Lemma ps_loop_safe fuel p n :
  bytes_ok p -> n <= zlen p -> n <= Z.of_nat fuel -> post (ps_loop fuel p n) (fun _ => True).
Proof.
  revert p n. induction fuel as [|fuel IH]; intros p n Hp Hl Hf; cbn [ps_loop];
    (destruct (Z.leb_spec 8 n) as [Hn|]; [|done]); [lia|].
  rsafe. apply post_if; intros Hlen; cbool; [ostep; by apply post_assert|]. ostep.
  eapply post_mono; [apply IH; [auto with zlist|autorewrite with zlen; lia|lia]|].
  intros [r l] _. by ostep.
Qed.

Lemma ccfb_reports_safe n sq p :
  bytes_ok p -> Z.of_nat n * 2 <= zlen p -> post (ccfb_reports n sq p) (fun _ => True).
Proof.
  revert sq p. induction n as [|n IH]; intros sq p Hp Hl; cbn [ccfb_reports]; [done|]. rsafe.
  eapply post_mono; [apply IH; [auto with zlist|autorewrite with zlen; lia]|]. intros l _. by ostep.
Qed.

Lemma ccfb_tail_safe p n :
  bytes_ok p -> n <= zlen p ->
  post (do bytes <- (if 4 <=? n then do _ <- nbo_r32 p ;; Ret (n - 4) else Ret n) ;;
        c_assert (0 =? bytes) ;;; Ret (0, @nil rtcp_rtpfb_u)) (fun _ => True).
Proof.
  intros Hp Hl. ostep. apply (post_mono _ (fun _ => True)).
  - apply post_if; intros Hn; cbool; rsafe.
  - intros b _. ostep. by apply post_assert.
Qed.

Lemma ccfb_loop_safe fuel p n :
  bytes_ok p -> n <= zlen p -> n <= Z.of_nat fuel -> post (ccfb_loop fuel p n) (fun _ => True).
Proof.
  revert p n. induction fuel as [|fuel IH]; intros p n Hp Hl Hf; cbn [ccfb_loop];
    (destruct (Z.leb_spec 8 n) as [Hn|]; [|by apply ccfb_tail_safe]); [lia|].
  rsafe. cbv zeta. apply post_if; intros Hlen; cbool; [ostep; by apply post_assert|].
  apply post_if; intros _; [done|]. ostep.
  eapply post_mono; [apply ccfb_reports_safe; [auto with zlist|autorewrite with zlen; lia]|].
  intros l _. ostep. apply post_assert. intros _. ostep.
  eapply post_mono; [apply IH; [auto with zlist|autorewrite with zlen; lia|lia]|].
  intros [r ms] _. by ostep.
Qed.

(** ** Transport-wide congestion control *)
Lemma tcc_entries_length sq sy : length (tcc_entries sq sy) = length sy.
Proof. revert sq. induction sy as [|e sy IH]; intros sq; simpl; [done|]. by rewrite IH. Qed.

Lemma tcc_chunks_safe fuel i sq num arr p n :
  bytes_ok p -> n <= zlen p -> 0 <= i -> num = zlen arr -> n <= Z.of_nat fuel ->
  post (tcc_chunks fuel i sq num arr p n) (fun '(_, (p', n')) => bytes_ok p' /\ n' <= zlen p').
Proof.
  revert i sq arr p n. induction fuel as [|fuel IH]; intros i sq arr p n Hp Hl Hi Hnum Hf;
    cbn [tcc_chunks]; (apply post_if; intros Hc; cbool; [|done]); [lia|].
  rstep. rstep. cbv zeta. set (sy := take _ _).
  assert (Hsy : zlen sy <= num - i).
  { unfold sy. rewrite zlen_take. lia. }
  assert (He : zlen (tcc_entries sq sy) = zlen sy) by (unfold zlen; by rewrite tcc_entries_length).
  rstep. apply post_wrn_len; [lia|lia|]. intros arr' Harr.
  apply IH; [auto with zlist|autorewrite with zlen; lia|pose proof (zlen_nonneg sy); lia|lia|lia].
Qed.

Lemma tcc_deltas_safe arr p n :
  bytes_ok p -> n <= zlen p -> post (tcc_deltas arr p n) (fun _ => True).
Proof.
  revert p n. induction arr as [|c arr IH]; intros p n Hp Hl; cbn [tcc_deltas]; [done|].
  apply post_if; intros Hn; cbool; [done|].
  apply post_if; intros Hr; cbool.
  { ostep. eapply post_mono; [by apply IH|]. intros o _. by ostep. }
  ostep. apply post_assert. intros _. apply post_if; intros He; cbool.
  { rsafe. eapply post_mono; [apply IH; [auto with zlist|autorewrite with zlen; lia]|].
    intros o _. by ostep. }
  apply post_if; intros Hn2; cbool; [ostep; by apply post_assert|].
  rsafe. eapply post_mono; [apply IH; [auto with zlist|autorewrite with zlen; lia]|].
  intros o _. by ostep.
Qed.

Lemma tcc01_safe p n :
  bytes_ok p -> n <= zlen p -> post (rtcp_rtpfb_tcc01_unpack p n) (fun _ => True).
Proof.
  intros Hp Hl. unfold rtcp_rtpfb_tcc01_unpack. apply post_if; intros Hn; cbool; [done|].
  rsafe. cbv zeta. apply post_if; intros _; [done|]. ostep.
  eapply post_mono; [apply tcc_chunks_safe;
    [auto with zlist|autorewrite with zlen; lia|lia|rewrite zlen_replicate; lia|lia]|].
  intros [arr [p' n']] [Hp' Hl']. ostep.
  eapply post_mono; [by apply tcc_deltas_safe|]. intros [l|] _; by ostep.
Qed.

Lemma rtpfb_fci_safe fmt p n :
  bytes_ok p -> 8 <= n <= zlen p -> post (rtpfb_unpack_fci fmt p n) (fun _ => True).
Proof.
  intros Hp Hn. unfold rtpfb_unpack_fci. cbv zeta.
  assert (Hp8 : bytes_ok (adv p 8)) by auto with zlist.
  assert (Hl8 : n - 8 <= zlen (adv p 8)) by (autorewrite with zlen; lia).
  cases.
  - unfold rtcp_rtpfb_nack_unpack. apply (entries_safe nack_entry 4 _ _ (fun l => (0, [FbNack l]))); [apply nack_safe|lia|done|lia].
  - unfold rtcp_rtpfb_tmmbr_unpack. apply (entries_safe tmmbr_entry 8 _ _ (fun l => (0, [FbTmmbr l]))); [apply tmmbr_safe|lia|done|lia].
  - unfold rtcp_rtpfb_tmmbn_unpack. apply (entries_safe tmmbr_entry 8 _ _ (fun l => (0, [FbTmmbr l]))); [apply tmmbr_safe|lia|done|lia].
  - unfold rtcp_rtpfb_srreq_unpack. ostep. by apply post_assert.
  - unfold rtcp_rtpfb_rams_unpack. apply post_if; intros Hn4; cbool; rsafe.
  - unfold rtcp_rtpfb_tllei_unpack. apply (entries_safe nack_entry 4 _ _ (fun l => (0, [FbNack l]))); [apply nack_safe|lia|done|lia].
  - unfold rtcp_rtpfb_ecn_unpack. apply post_if; intros Hn4; cbool; [done|]. ostep.
    eapply post_mono; [apply ecn_safe; [done|lia]|]. intros e _. by ostep.
  - apply ps_loop_safe; [done|done|lia].
  - unfold rtcp_rtpfb_dbi_unpack. apply post_if; intros Hn4; cbool; rsafe.
  - unfold rtcp_rtpfb_ccfb_unpack. ostep.
    eapply post_mono; [apply post_if; intros Hn4; cbool;
      [rsafe; instantiate (1 := fun _ => True); done|done]|].
    intros _ _. apply ccfb_loop_safe; [auto with zlist|autorewrite with zlen; lia|lia].
  - by apply tcc01_safe.
  - ostep. by apply post_assert.
Qed.

(** ** Payload-specific feedback *)
(** A codec control message whose payload does not end with the packet is
    followed by a read behind it. *)
Definition fb_guard (h : rtcp_header_t) (n : Z) : bool :=
  negb (rc h =? RTCP_PSFB_VBCM) || (n mod 4 =? 0).

Lemma vbcm_loop_safe fuel p n :
  bytes_ok p -> n <= zlen p -> 0 <= n < 2 ^ 32 -> n mod 4 = 0 -> n < Z.of_nat fuel ->
  post (vbcm_loop fuel p n) (fun _ => True).
Proof.
  revert p n. induction fuel as [|fuel IH]; intros p n Hp Hl Hn Hm Hf; cbn [vbcm_loop];
    (destruct (Z.ltb_spec 8 n) as [Hn8|]; [|done]); [lia|].
  rstep. rstep. rstep. rstep. rstep. rstep. rstep. rstep.
  apply post_if; intros Hlen; cbool; [done|]. cbv zeta. ostep.
  match goal with Hv : 0 <= ?len < 2 ^ 16 |- context [vbcm_loop _ (adv _ ?size)] =>
    assert (Hsz : 8 <= size <= n /\ (n - size) mod 4 = 0) by lia end.
  unfold u64. rewrite (Z.mod_small (n - _)) by lia.
  eapply post_mono; [apply IH; [auto with zlist|autorewrite with zlen; lia|lia|lia|lia]|].
  intros [r l] _. by ostep.
Qed.

Lemma afb_safe p n :
  bytes_ok p -> n <= zlen p -> post (rtcp_psfb_afb_unpack p n) (fun _ => True).
Proof.
  intros Hp Hl. unfold rtcp_psfb_afb_unpack. apply post_if; intros Hn; cbool; [|done].
  ostep. apply post_rdn; [lia..|]. apply post_if; intros _; [|done]. rsafe. cbv zeta.
  apply post_if; intros Hn4; cbool; [done|]. apply post_if; intros _; [done|]. ostep.
  eapply post_mono; [apply read_entries_safe; [apply word_safe|lia|auto with zlist|
    autorewrite with zlen; lia]|]. intros l _. by ostep.
Qed.

Lemma psfb_fci_safe h p n :
  bytes_ok p -> 8 <= n <= zlen p -> n < 2 ^ 32 -> fb_guard h n = true ->
  post (psfb_unpack_fci (rc h) p n) (fun _ => True).
Proof.
  intros Hp Hn Hb Hg. unfold psfb_unpack_fci. cbv zeta.
  assert (Hp8 : bytes_ok (adv p 8)) by auto with zlist.
  assert (Hl8 : n - 8 <= zlen (adv p 8)) by (autorewrite with zlen; lia).
  cases.
  - unfold rtcp_psfb_pli_unpack. ostep. by apply post_assert.
  - unfold rtcp_psfb_sli_unpack. apply (entries_safe sli_entry 4 _ _ (fun l => (0, [FbSli l]))); [apply sli_safe|lia|done|lia].
  - unfold rtcp_psfb_rpsi_unpack. apply post_if; intros Hn4; cbool; rsafe.
  - unfold rtcp_psfb_fir_unpack. apply (entries_safe fir_entry 8 _ _ (fun l => (0, [FbFir l]))); [apply fir_safe|lia|done|lia].
  - unfold rtcp_psfb_tstr_unpack. apply (entries_safe tstr_entry 8 _ _ (fun l => (0, [FbFir l]))); [apply tstr_safe|lia|done|lia].
  - unfold rtcp_psfb_tstn_unpack. apply (entries_safe tstr_entry 8 _ _ (fun l => (0, [FbFir l]))); [apply tstr_safe|lia|done|lia].
  - unfold fb_guard in Hg. cbool. apply vbcm_loop_safe; [done|done|lia|destruct Hg; [done|lia]|unfold zlen in *; lia].
  - unfold rtcp_psfb_pslei_unpack. apply (entries_safe nbo_r32 4 _ _ (fun l => (0, [FbPslei l]))); [apply word_safe|lia|done|lia].
  - done.
  - unfold rtcp_psfb_lrr_unpack. apply (entries_safe lrr_entry 12 _ _ (fun l => (0, [FbLrr l]))); [apply lrr_safe|lia|done|lia].
  - by apply afb_safe.
  - ostep. by apply post_assert.
Qed.
End Safe.

Definition rtcp_formats_safe `{Alloc} `{Build} : @FeedbackSafe rtcp_formats _.
Proof.
  refine {| psfb_guard h n := fb_guard h n && (n <? 2 ^ 32) |}.
  - intros h p n Hp Hn. simpl. rsafe. eapply post_mono; [by apply rtpfb_fci_safe|].
    intros [r l] _. by ostep.
  - intros h p n Hp Hn Hg. simpl. cbool. destruct Hg as [Hg Hb]. rsafe.
    eapply post_mono; [by apply psfb_fci_safe|]. intros [r l] _. by ostep.
Defined.

(** ** Report blocks that overflow their arrays *)
Section Overflow.
Context `{Alloc} `{Build}.

Lemma prt_loop_overflows fuel i ts p len :
  bytes_ok p -> len <= zlen p -> len <= Z.of_nat fuel -> 0 <= i <= zlen ts ->
  4 * (zlen ts - i) + 4 < len -> prt_loop fuel i ts p len = Crash OutOfBounds.
Proof.
  revert i ts p len. induction fuel as [|fuel IH]; intros i ts p len Hp Hl Hf Hi Hlen;
    cbn [prt_loop]; rewrite (proj2 (Z.ltb_lt 4 len)) by lia; [lia|].
  pose proof (post_r32 p (fun _ => True) ltac:(lia) Hp ltac:(done)) as Hr.
  destruct p as [|b0 [|b1 [|b2 [|b3 p]]]]; try (unfold zlen in Hl; simpl in Hl; lia).
  rewrite nbo_r32_cons. cbn [obind]. destruct (decide (i = zlen ts)) as [->|Hne].
  - unfold wrn. rewrite (proj2 (Z.leb_le 0 (zlen ts))) by lia.
    by rewrite (proj2 (Z.leb_gt (zlen ts + _) (zlen ts))) by (unfold zlen; simpl; lia).
  - rewrite wrn_single by lia. cbn [obind]. apply IH.
    + auto with zlist.
    + rewrite zlen_adv. lia.
    + lia.
    + unfold zlen. rewrite length_insert. fold (zlen ts). lia.
    + unfold zlen at 1. rewrite length_insert. fold (zlen ts). lia.
Qed.

(** C0. A report of receipt times whose sequence numbers announce up to 32 packets
    and whose length announces more than 34 words of times is written past the
    array of 32 times on the stack: [words] and the sequence numbers are the
    sender's. *)
Theorem rtcp_xr_prt_overflows p bytes words sq last :
  bytes_ok p -> bytes <= zlen p -> (words + 1) * 4 <= bytes -> 36 <= words ->
  nbo_r16 (adv p 2) = Ret words -> nbo_r16 (adv p 8) = Ret sq -> nbo_r16 (adv p 10) = Ret last ->
  u32 (last - sq) <= 32 ->
  rtcp_xr_prt_unpack p bytes = Crash OutOfBounds.
Proof.
  intros Hp Hl Hb Hw Hr2 Hr8 Hr10 Hn. unfold rtcp_xr_prt_unpack. rewrite Hr2. cbn [obind].
  rewrite (proj2 (Z.ltb_ge bytes 8)), (proj2 (Z.ltb_ge bytes ((words + 1) * 4))) by lia. cbn [orb]. cbv zeta.
  rewrite (proj2 (Z.ltb_ge (words * 4) 8)) by lia.
  assert (H4 : exists v, nbo_r32 (adv p 4) = Ret v).
  { pose proof (post_r32 (adv p 4) (fun _ => True) ltac:(rewrite zlen_adv; lia)
      ltac:(auto with zlist) ltac:(done)) as Hr.
    revert Hr. unfold nbo_r32. destruct (adv p 4) as [|b0 [|b1 [|b2 [|b3 p4]]]]; try done. eauto. }
  destruct H4 as [v ->]. cbn [obind]. rewrite Hr8. cbn [obind]. rewrite Hr10. cbn [obind].
  set (num := u32 (last - sq)) in *. assert (0 <= num) by (unfold num, u32; lia). clearbody num.
  rewrite (proj2 (Z.ltb_ge 32 num)) by lia. unfold zeroed.
  rewrite wrn_0 by (rewrite !zlen_replicate; lia). cbn [obind].
  rewrite prt_loop_overflows; [done|auto with zlist|rewrite zlen_adv; lia|lia|..];
    autorewrite with zlen; lia.
Qed.
End Overflow.

Lemma rtcp_xr_prt_overflows_witness :
  @rtcp_xr_prt_unpack always_alloc ([3; 0; 0; 36; 0; 0; 0; 7; 0; 10; 0; 12] ++ replicate 136 0) 148 =
  Crash OutOfBounds.
Proof.
  apply (@rtcp_xr_prt_overflows always_alloc release_build ([3; 0; 0; 36; 0; 0; 0; 7; 0; 10; 0; 12] ++ replicate 136 0)
           148 36 10 12); try reflexivity; try (vm_compute; discriminate).
  apply Forall_app. split; [repeat constructor; discriminate|].
  apply Forall_replicate. split; [discriminate|reflexivity].
Defined.
