(* ===== verification/RtcpReport.v ===== *)
(** The RTP session, sending side (lib/librtp/source/rtp.c; rtcp_xxx_pack and
    rtcp_report_block of rtcp-sr.c, rtcp-rr.c, rtcp-sdec.c, rtcp-bye.c,
    rtcp-app.c; rtcp-interval.c).  The clock is read once per call. *)

From stdpp Require Import gmap.
From S2P Require Import Prelude RtpUtil RtpPacket CDouble RtpTime RtpMember Rtcp.

Section Reports.
Context `{RtcpFeedback} `{Alloc} `{Build} `{Fpu}.

(** ** Report blocks *)
Definition set_prior (s : rtp_source) (expected packets : Z) : rtp_source :=
  mk_source (rtp_seq s) (rtp_timestamp s) (rtp_clock s) (rtp_packets s) (rtp_bytes s) (jitter s)
    packets expected (rtp_probation s) (rtp_seq_base s) (rtp_seq_bad s) (rtp_seq_cycles s).

Definition extended_seq (s : rtp_source) : Z := u32 (rtp_seq_cycles s + rtp_seq s).
Definition expected_packets (s : rtp_source) : Z := u32 (extended_seq s - rtp_seq_base s + 1).

(** The loss since the last report in 1/256; a negative [lost_interval] is
    shifted only when it is not negative, and gcc defines the shift. *)
Definition fraction_lost (s : rtp_source) : Z :=
  let expected_interval := u32 (expected_packets s - rtp_expected0 s) in
  let received_interval := u32 (rtp_packets s - rtp_packets0 s) in
  let lost_interval := s32 (u32 (expected_interval - received_interval)) in
  if (lost_interval <? 0) || (0 =? expected_interval) then 0
  else u32 (s32 (Z.shiftl lost_interval 8)) / expected_interval.

Definition packets_lost (s : rtp_source) : Z :=
  let lost := s32 (u32 (expected_packets s - rtp_packets s)) in
  if 0x007FFFFF <? lost then 0x007FFFFF else if lost <? 0 then 0 else lost.

Definition last_sr (m : rtp_member) : Z :=
  Z.lor (Z.shiftl (Z.land (ntpmsw (rtcp_sr m)) 0xFFFF) 16)
        (Z.land (Z.shiftr (ntplsw (rtcp_sr m)) 16) 0xFFFF).

Definition delay_since_sr (now : Z) (m : rtp_member) : Z :=
  to_u32 (f_mul (f_div (f_of_int (u64 (now - rtcp_clock m))) (f_of_int 1000000)) (f_of_int 65536)).

Definition report_block (now : Z) (m : rtp_member) : list Z :=
  let s := source m in
  let lost := packets_lost s in
  be32 (mssrc m) ++
  [u8 (fraction_lost s); u8 (Z.land (Z.shiftr lost 16) 0xFF); u8 (Z.land (Z.shiftr lost 8) 0xFF);
   u8 (Z.land lost 0xFF)] ++
  be32 (extended_seq s) ++ be32 (to_u32 (jitter s)) ++ be32 (last_sr m) ++
  be32 (if 0 =? last_sr m then 0 else delay_since_sr now m).

Definition rtcp_report_block (now : Z) (m : rtp_member) (buf : list Z) (off bytes : Z)
  : outcome (Z * (list Z * rtp_member)) :=
  if bytes <? 24 then Ret (0, (buf, m))
  else
    let s := source m in
    c_assert (rtp_seq_base s <=? extended_seq s) ;;;
    do buf <- wrn buf off (report_block now m) ;;
    Ret (24, (buf, set_source m (set_prior s (expected_packets s) (rtp_packets s)))).

(** The blocks of [n] senders from the [i]-th on: senders nothing was received
    from are skipped, but they were counted. *)
Fixpoint blocks_loop (n : nat) (i now : Z) (c : rtp_context) (buf : list Z) (off : Z)
  : outcome (list Z * rtp_context) :=
  match n with
  | O => Ret (buf, c)
  | S n =>
      do o <- rtp_member_list_get (senders c) i ;;
      do a <- pointee o ;;
      do m <- load (heap c) a ;;
      do me <- load (heap c) (self c) ;;
      if (0 =? rtp_packets (source m)) || (mssrc m =? mssrc me)
      then blocks_loop n (i + 1) now c buf off
      else
        do* (r, (buf, m)) <- rtcp_report_block now m buf off 24 ;;
        blocks_loop n (i + 1) now (set_heap c (save (heap c) a m)) buf (off + r)
  end.

(** ** Receiver and sender reports, written at [buf + off] *)
Definition rtcp_rr_pack (now : Z) (c : rtp_context) (buf : list Z) (off bytes : Z)
  : outcome (Z * (list Z * rtp_context)) :=
  let n := rtp_member_list_count (senders c) in
  c_assert (n <? 32) ;;;
  let rc := Z.min 31 n in
  let h := mk_rtcp_header 2 0 rc RTCP_RR ((4 + rc * 24) / 4) in
  if u32 bytes <? 4 + rlength h * 4 then Ret (4 + rlength h * 4, (buf, c))
  else
    do buf <- nbo_write_rtcp_header buf off h ;;
    do me <- load (heap c) (self c) ;;
    do buf <- rtp_write_uint32 buf (off + 4) (mssrc me) ;;
    do* (buf, c) <- blocks_loop (Z.to_nat rc) 0 now c buf (off + 8) ;;
    Ret ((rlength h + 1) * 4, (buf, c)).

Definition set_rtp_clock (s : rtp_source) (clock : Z) : rtp_source :=
  set_received s clock (rtp_timestamp s) (rtp_packets s) (rtp_bytes s) (jitter s).

Definition sender_info (now freq : Z) (m : rtp_member) : list Z :=
  let s := source m in
  let ts := u32 (u32 (u64 (u64 (now - rtp_clock s) * u64 freq) / 1000000) + rtp_timestamp s) in
  let ntp := clock2ntp now in
  be32 (mssrc m) ++ be32 (u32 (Z.shiftr ntp 32)) ++ be32 (Z.land ntp 0xFFFFFFFF) ++
  be32 ts ++ be32 (rtp_packets s) ++ be32 (u32 (rtp_bytes s)).

Definition rtcp_sr_pack (now : Z) (c : rtp_context) (buf : list Z) (off bytes : Z)
  : outcome (Z * (list Z * rtp_context)) :=
  let n := rtp_member_list_count (senders c) in
  c_assert (n <? 32) ;;;
  let rc := Z.min 31 n in
  let h := mk_rtcp_header 2 0 rc RTCP_SR ((24 + rc * 24) / 4) in
  if u32 bytes <? (rlength h + 1) * 4 then Ret ((rlength h + 1) * 4, (buf, c))
  else
    do buf <- nbo_write_rtcp_header buf off h ;;
    do me <- load (heap c) (self c) ;;
    let me := if 0 =? rtp_packets (source me) then set_source me (set_rtp_clock (source me) now) else me in
    let c := set_heap c (save (heap c) (self c) me) in
    do buf <- wrn buf (off + 4) (sender_info now (frequence c) me) ;;
    do* (buf, c) <- blocks_loop (Z.to_nat rc) 0 now c buf (off + 28) ;;
    Ret ((rlength h + 1) * 4, (buf, c)).

(** ** Source description of this member *)
Definition rtcp_sdes_append_item (buf : list Z) (off bytes : Z) (it : rtcp_sdes_item_t)
  : outcome (Z * list Z) :=
  c_assert (bool_decide (is_Some (sdes_data it))) ;;;
  do buf <-
    (if sdes_len it + 2 <=? u64 bytes then
       do d <- pointee (sdes_data it) ;;
       do src <- rdn d 0 (sdes_len it) ;;
       do buf <- wrn buf off [sdes_pt it; sdes_len it] ;;
       wrn buf (off + 2) src
     else Ret buf) ;;
  Ret (sdes_len it + 2, buf).

(** Every third report carries one more item, a different one each time. *)
Definition sdes_extra (c : rtp_context) (me : rtp_member) (buf : list Z) (off bytes n : Z)
  : outcome (Z * list Z) :=
  if (rtcp_cycle c mod 3 =? 0) && (0 <? rtcp_cycle c / 3) then
    c_assert (rtcp_cycle c / 3 <? 8) ;;;
    do it <- rd (sdes me) (rtcp_cycle c / 3 + 1) ;;
    if bool_decide (is_Some (sdes_data it)) then
      do* (k, buf) <- rtcp_sdes_append_item buf (off + 8 + n) (bytes - n - 8) it ;;
      Ret (n + k, buf)
    else Ret (n, buf)
  else Ret (n, buf).

Definition rtcp_sdes_pack (c : rtp_context) (buf : list Z) (off bytes : Z)
  : outcome (Z * (list Z * rtp_context)) :=
  do me <- load (heap c) (self c) ;;
  do cname <- rd (sdes me) 1 ;;
  if bool_decide (sdes_data cname = None) then Ret (0, (buf, c))
  else
    do* (n, buf) <- rtcp_sdes_append_item buf (off + 8) (bytes - 8) cname ;;
    if bytes <? 8 + n then Ret (8 + n, (buf, c))
    else
      do* (n, buf) <- sdes_extra c me buf off bytes n ;;
      if bytes <? n + 8 then Ret (n + 8, (buf, c))
      else
        let c := set_cycle c ((rtcp_cycle c + 1) mod 24) in
        let h := mk_rtcp_header 2 0 1 RTCP_SDES (u16 ((n + 4 + 3) / 4)) in
        do buf <- nbo_write_rtcp_header buf off h ;;
        do buf <- rtp_write_uint32 buf (off + 4) (mssrc me) ;;
        Ret ((rlength h + 1) * 4, (buf, c)).

(** ** Leaving, application packets *)
Definition rtcp_bye_pack (c : rtp_context) (buf : list Z) (off bytes : Z) : outcome (Z * list Z) :=
  if bytes <? 8 then Ret (8, buf)
  else
    do buf <- nbo_write_rtcp_header buf off (mk_rtcp_header 2 0 1 RTCP_BYE 1) ;;
    do me <- load (heap c) (self c) ;;
    do buf <- rtp_write_uint32 buf (off + 4) (mssrc me) ;;
    Ret (8, buf).

Definition rtcp_app_pack (c : rtp_context) (buf : list Z) (off bytes : Z) (name app : list Z) (len : Z)
  : outcome (Z * list Z) :=
  let size := 12 + Z.quot (len + 3) 4 * 4 in
  if size <=? bytes then
    do buf <- nbo_write_rtcp_header buf off
                (mk_rtcp_header 2 0 0 RTCP_APP (u16 (2 + Z.quot (len + 3) 4))) ;;
    do me <- load (heap c) (self c) ;;
    do buf <- rtp_write_uint32 buf (off + 4) (mssrc me) ;;
    do nm <- rdn name 0 4 ;;
    do buf <- wrn buf (off + 8) nm ;;
    do buf <- (if 0 <? len then do src <- rdn app 0 len ;; wrn buf (off + 12) src else Ret buf) ;;
    Ret (size, buf)
  else Ret (size, buf).

(** ** The operations of rtp.c *)
Definition rtp_onsend (now : Z) (c : rtp_context) (data : list Z) (bytes : Z)
  : outcome (Z * rtp_context) :=
  c_assert (RTP_SENDER =? role c) ;;;
  let c := set_role c RTP_SENDER in
  do* (r, pkt) <- rtp_packet_deserialize zero_packet data bytes ;;
  if negb (r =? 0) then Ret (-1, c)
  else
    do me <- load (heap c) (self c) ;;
    let s := source me in
    let s := set_received s now (timestamp (rtp pkt)) (u32 (rtp_packets s + 1))
               (u64 (rtp_bytes s + payloadlen pkt)) (jitter s) in
    Ret (0, set_heap c (save (heap c) (self c) (set_source me s))).

Definition rtp_rtcp_report (now : Z) (c : rtp_context) (buf : list Z) (bytes : Z)
  : outcome (Z * (list Z * rtp_context)) :=
  do* (n, (buf, c)) <-
    (if RTP_SENDER =? role c then rtcp_sr_pack now c buf 0 bytes
     else c_assert (RTP_RECEIVER =? role c) ;;; rtcp_rr_pack now c buf 0 bytes) ;;
  do* (n, (buf, c)) <-
    (if n <? bytes then
       do* (k, (buf, c)) <- rtcp_sdes_pack c buf n (bytes - n) ;;
       Ret (n + k, (buf, c))
     else Ret (n, (buf, c))) ;;
  Ret (n, (buf, set_init c 0)).

Definition rtp_rtcp_bye (c : rtp_context) (buf : list Z) (bytes : Z) := rtcp_bye_pack c buf 0 bytes.
Definition rtp_rtcp_app (c : rtp_context) (buf : list Z) (bytes : Z) (name app : list Z) (len : Z) :=
  rtcp_app_pack c buf 0 bytes name app len.

(** RFC 3550 A.7; [rnd] is what [drand48] returns. *)
Definition rtcp_interval (rnd : spec_float) (members senders : Z) (bw : spec_float) (we_sent : bool)
    (avg : spec_float) (initial : bool) : spec_float :=
  let quarter := d_div (d_of_int 1) (d_of_int 4) in
  let three_quarters := d_sub (d_of_int 1) quarter in
  let compensation := d_sub (d_div (d_of_int 271828) (d_of_int 100000)) (d_div (d_of_int 3) (d_of_int 2)) in
  let min_time := if initial then d_div (d_of_int 5) (d_of_int 2) else d_of_int 5 in
  let '(bw, n) :=
    if d_le (d_of_int senders) (d_mul (d_of_int members) quarter) then
      if we_sent then (d_mul bw quarter, senders) else (d_mul bw three_quarters, members - senders)
    else (bw, members) in
  let t := d_div (d_mul avg (d_of_int n)) bw in
  let t := if d_lt t min_time then min_time else t in
  let t := d_mul t (d_add rnd (d_div (d_of_int 1) (d_of_int 2))) in
  d_div t compensation.

Definition rtp_rtcp_interval (now : Z) (rnd : spec_float) (c : rtp_context) : outcome Z :=
  do me <- load (heap c) (self c) ;;
  Ret (to_int (d_mul
    (rtcp_interval rnd (rtp_member_list_count (members c))
       (rtp_member_list_count (senders c) + (if RTP_SENDER =? role c then 1 else 0))
       (d_of_int (rtcp_bw c)) (now <? u64 (rtp_clock (source me) + 2 * 5000 * 1000))
       (d_of_int (avg_rtcp_size c)) (negb (init c =? 0)))
    (d_of_int 1000))).

Definition member_item (c : rtp_context) (s item : Z) : outcome (option (list Z)) :=
  do p <- rtp_member_list_find (heap c) (members c) s ;;
  match p with
  | None => Ret None
  | Some a => do m <- load (heap c) a ;; do it <- rd (sdes m) item ;; Ret (sdes_data it)
  end.
Definition rtp_get_cname (c : rtp_context) (s : Z) := member_item c s 1.
Definition rtp_get_name (c : rtp_context) (s : Z) := member_item c s 2.

(** [cname] and [name] without their terminating zero. *)
Definition rtp_set_info (c : rtp_context) (cname name : list Z) : outcome (Z * rtp_context) :=
  do* (_, σ) <- rtp_member_setvalue (heap c) (Some (self c)) 1 cname (zlen cname) ;;
  do* (_, σ) <- rtp_member_setvalue σ (Some (self c)) 2 name (zlen name) ;;
  Ret (0, set_heap c σ).
End Reports.
