(* ===== verification/RtcpReportProps.v ===== *)
(** Reports fit their buffer and keep the session; any run of a session is
    memory safe and ends with every member freed. *)

From stdpp Require Import gmap.
From S2P Require Import Prelude RtpUtil RtpPacket CDouble RtpMember RtpMemberSpec Rtcp RtcpProps RtcpReport.

Section Reports.
Context `{RtcpFeedback} `{Alloc} `{Build} `{Fpu}.

Lemma zlen_report_block now m : zlen (report_block now m) = 24.
Proof. unfold report_block. by rewrite !zlen_app, !zlen_be32. Qed.

Lemma zlen_sender_info now freq m : zlen (sender_info now freq m) = 24.
Proof. unfold sender_info. by rewrite !zlen_app, !zlen_be32. Qed.

(** The buffer is only written inside, and members are only updated. *)
Definition report_post (ms ss : list nat) (buf : list Z) (r : list Z * rtp_context) : Prop :=
  zlen r.1 = zlen buf /\ session r.2 ms ss.

Lemma self_member c ms ss : session c ms ss -> member_of c (self c).
Proof. intros Hs. exists ms, ss. split; [done|set_solver]. Qed.

Lemma save_session c ms ss a m m' :
  session c ms ss -> a ∈ self c :: ms ++ ss -> cells (heap c) !! a = Some m ->
  ref m' = ref m -> sdes m' = sdes m -> session (set_heap c (save (heap c) a m')) ms ss.
Proof.
  intros [Hm Hs Hcy Hh] Ha Hca Hr Hsd. split; [done..|]. simpl. eapply save_heap; [done..|].
  destruct Hh as [Hc _ _]. destruct (Hc a m Hca) as (_ & _ & Hok). unfold member_ok. by rewrite Hsd.
Qed.

Lemma report_block_ok now m buf off :
  0 <= off -> off + 24 <= zlen buf ->
  post (rtcp_report_block now m buf off 24) (fun '(r, (buf', m')) =>
    r = 24 /\ zlen buf' = zlen buf /\ ref m' = ref m /\ sdes m' = sdes m).
Proof.
  intros Ho Hl. unfold rtcp_report_block. ostep; [done|]. cbv zeta. ostep. apply post_assert. intros _.
  ostep. apply post_wrn_len; [done|rewrite zlen_report_block; lia|]. intros b Hb. by ostep.
Qed.

Lemma blocks_ok n i now c ms ss buf off :
  session c ms ss -> 0 <= i -> i + Z.of_nat n <= zlen ss -> 0 <= off -> off + 24 * Z.of_nat n <= zlen buf ->
  post (blocks_loop n i now c buf off) (report_post ms ss buf).
Proof.
  revert i c buf off. induction n as [|n IH]; intros i c buf off Hc Hi Hn Ho Hl; [by split|].
  cbn [blocks_loop]. destruct (get_spec (senders c) ss i) as (a & -> & Ha); [apply Hc|lia|].
  cbn [obind pointee]. apply list_elem_of_lookup_2 in Ha.
  assert (Hin : a ∈ self c :: ms ++ ss) by set_solver.
  ostep. eapply load_member; [by exists ms, ss|]. intros m Hm Hok.
  ostep. eapply load_member; [by eapply self_member|]. intros me _ _.
  apply post_if; intros _; [apply IH; [done|lia..]|].
  ostep. eapply post_mono; [apply report_block_ok; [done|lia]|].
  intros [r [buf' m']] (-> & Hb & Hr & Hsd).
  eapply post_mono; [apply IH|].
  - by eapply save_session.
  - lia.
  - lia.
  - lia.
  - lia.
  - intros [b' c'] [Hb' Hc']. split; [simpl in *; congruence|done].
Qed.

Lemma zlen_write16 buf off h buf' :
  nbo_write_rtcp_header buf off h = Ret buf' -> zlen buf' = zlen buf.
Proof. apply zlen_wrn. Qed.

Lemma header_ok_post buf off h (Q : list Z -> Prop) :
  0 <= off -> off + 4 <= zlen buf -> (forall b, zlen b = zlen buf -> Q b) ->
  post (nbo_write_rtcp_header buf off h) Q.
Proof. intros. by apply post_wrn_len. Qed.

Lemma write32_post buf off x (Q : list Z -> Prop) :
  0 <= off -> off + 4 <= zlen buf -> (forall b, zlen b = zlen buf -> Q b) ->
  post (rtp_write_uint32 buf off x) Q.
Proof. intros. by apply post_wrn_len. Qed.

Definition pack_post (ms ss : list nat) (buf : list Z) (lo hi : Z) (r : Z * (list Z * rtp_context)) : Prop :=
  lo <= r.1 <= hi /\ report_post ms ss buf r.2.

Lemma rr_pack_ok now c ms ss buf bytes :
  session c ms ss -> 752 <= bytes <= zlen buf -> bytes < 2 ^ 31 ->
  post (rtcp_rr_pack now c buf 0 bytes) (pack_post ms ss buf 8 752).
Proof.
  intros Hc Hb Hl. pose proof (zlen_nonneg ss) as Hss. unfold rtcp_rr_pack. cbv zeta.
  unfold rtp_member_list_count. rewrite (rep_count _ _ (sess_senders _ _ _ Hc)).
  set (rc := Z.min 31 (zlen ss)). cbn [rlength]. ostep. apply post_assert. intros _.
  assert (Hdiv : (4 + rc * 24) / 4 = 1 + rc * 6).
  { replace (4 + rc * 24) with ((1 + rc * 6) * 4) by lia. by rewrite Z.div_mul by lia. }
  rewrite Hdiv. unfold u32. rewrite (Z.mod_small bytes) by lia.
  apply post_if; intros Hs; cbool; [lia|].
  ostep. apply header_ok_post; [lia|lia|]. intros b1 Hb1. ostep.
  eapply load_member; [by eapply self_member|]. intros me _ _. ostep.
  apply write32_post; [lia|lia|]. intros b2 Hb2. ostep.
  eapply post_mono; [apply (blocks_ok _ _ _ _ ms ss); [done|lia..]|].
  intros [b3 c'] [Hb3 Hc']. ostep. split; simpl in *; [lia|]. split; simpl; [lia|done].
Qed.

Lemma sr_pack_ok now c ms ss buf bytes :
  session c ms ss -> 772 <= bytes <= zlen buf -> bytes < 2 ^ 31 ->
  post (rtcp_sr_pack now c buf 0 bytes) (pack_post ms ss buf 28 772).
Proof.
  intros Hc Hb Hl. pose proof (zlen_nonneg ss) as Hss. unfold rtcp_sr_pack. cbv zeta.
  unfold rtp_member_list_count. rewrite (rep_count _ _ (sess_senders _ _ _ Hc)).
  set (rc := Z.min 31 (zlen ss)). cbn [rlength]. ostep. apply post_assert. intros _.
  assert (Hdiv : (24 + rc * 24) / 4 = 6 + rc * 6).
  { replace (24 + rc * 24) with ((6 + rc * 6) * 4) by lia. by rewrite Z.div_mul by lia. }
  rewrite Hdiv. unfold u32. rewrite (Z.mod_small bytes) by lia.
  apply post_if; intros Hs; cbool; [lia|].
  ostep. apply header_ok_post; [lia|lia|]. intros b1 Hb1. ostep.
  eapply load_member; [by eapply self_member|]. intros me Hme _. ostep.
  apply post_wrn_len; [lia|rewrite zlen_sender_info; lia|]. intros b2 Hb2. ostep.
  eapply post_mono; [apply (blocks_ok _ _ _ _ ms ss); [|lia..]|].
  { assert (Hk : forall b x, ref (if b : bool then set_source me x else me) = ref me /\
      sdes (if b then set_source me x else me) = sdes me) by (by intros []).
    eapply save_session; [done|by left|done|apply Hk..]. }
  intros [b3 c'] [Hb3 Hc']. ostep. split; simpl in *; [lia|]. split; simpl; [lia|done].
Qed.

(** ** The source description *)
Lemma append_item_ok buf off bytes it :
  item_ok it -> is_Some (sdes_data it) -> 0 <= off -> 0 <= bytes < 2 ^ 31 -> off + bytes <= zlen buf ->
  post (rtcp_sdes_append_item buf off bytes it) (fun '(n, buf') =>
    n = sdes_len it + 2 /\ zlen buf' = zlen buf).
Proof.
  intros [Hl Hd] [d Hsd] Ho Hb Hz. rewrite Hsd in Hd. unfold rtcp_sdes_append_item, u64. rewrite Z.mod_small by lia.
  ostep. apply post_assert. intros _. ostep.
  apply post_mono with (P := fun b => zlen b = zlen buf).
  - apply post_if; intros Hf; cbool; [|done]. rewrite Hsd. cbn [pointee obind]. ostep.
    apply post_rdn; [lia..|]. ostep. apply post_wrn_len; [lia| |].
    { change (zlen [_; _]) with 2. lia. }
    intros b1 Hb1. apply post_wrn_len; [lia| |].
    { rewrite zlen_take, zlen_drop. lia. }
    intros b2 Hb2. lia.
  - intros b Hb'. by ostep.
Qed.

Lemma extra_ok c me buf off bytes n :
  member_ok me -> 0 <= off -> 0 <= n -> n + 8 <= bytes -> bytes < 2 ^ 31 -> off + bytes <= zlen buf ->
  0 <= rtcp_cycle c < 24 ->
  post (sdes_extra c me buf off bytes n) (fun '(n', buf') => n <= n' /\ zlen buf' = zlen buf).
Proof.
  intros [Hlen Hits] Ho Hn Hb Hb31 Hz Hcy. unfold sdes_extra.
  apply post_if; intros Hc; cbool; [|ostep; split; [lia|done]]. ostep. apply post_assert. intros _.
  ostep. apply post_rd; [unfold zlen; lia|intros it Hit].
  apply post_if; intros Hsd; [|ostep; split; [lia|done]]. apply bool_decide_eq_true in Hsd.
  pose proof (proj1 (Forall_lookup _ _) Hits _ _ Hit) as Hok. ostep.
  eapply post_mono; [apply append_item_ok; [done|done|lia|lia|lia]|].
  intros [k buf'] [-> Hb']. destruct Hok as [? _]. ostep. split; [lia|done].
Qed.

Lemma sdes_pack_ok c ms ss buf off bytes :
  session c ms ss -> 0 <= off -> 8 <= bytes < 2 ^ 31 -> off + bytes <= zlen buf ->
  post (rtcp_sdes_pack c buf off bytes) (fun '(n, (buf', c')) =>
    0 <= n /\ zlen buf' = zlen buf /\ session c' ms ss).
Proof.
  intros Hc Ho Hb Hz. pose proof (sess_cycle _ _ _ Hc) as Hcy. unfold rtcp_sdes_pack. ostep.
  eapply load_member; [by eapply self_member|]. intros me _ Hok. pose proof Hok as [Hlen Hits]. ostep.
  apply post_rd; [unfold zlen; lia|intros it Hit].
  pose proof (proj1 (Forall_lookup _ _) Hits _ _ Hit) as Hiok. pose proof Hiok as [Hil _].
  apply post_if; intros Hsd; [ostep; split_and!; done|].
  apply bool_decide_eq_false, not_eq_None_Some in Hsd. ostep.
  eapply post_mono; [apply append_item_ok; [done|done|lia|lia|lia]|]. intros [n b1] [-> Hb1].
  apply post_if; intros Hs1; cbool; [ostep; split_and!; [lia|done..]|]. ostep.
  eapply post_mono; [apply extra_ok; [done|lia|lia|lia|lia|lia|done]|]. intros [n b2] [Hn Hb2].
  apply post_if; intros Hs2; cbool; [ostep; split_and!; [lia|lia|done..]|]. cbv zeta. ostep.
  apply header_ok_post; [lia|lia|]. intros b3 Hb3. ostep.
  apply write32_post; [lia|lia|]. intros b4 Hb4. ostep. cbn [rlength]. split_and!.
  - unfold u16. lia.
  - lia.
  - destruct Hc as [Hm Hss _ Hh]. split; [done..| |done]. unfold cycling in *. simpl. lia.
Qed.

(** A report in a buffer that holds 31 blocks. *)
Lemma report_ok now c buf bytes :
  session_ok c -> 780 <= bytes <= zlen buf -> bytes < 2 ^ 31 ->
  post (rtp_rtcp_report now c buf bytes) (fun '(n, (buf', c')) =>
    8 <= n /\ zlen buf' = zlen buf /\ session_ok c').
Proof.
  intros (ms & ss & Hc) Hb Hl. unfold rtp_rtcp_report. ostep.
  apply post_mono with (P := pack_post ms ss buf 8 772).
  { apply post_if; intros _.
    - eapply post_mono; [apply sr_pack_ok; [done|lia|lia]|]. intros r [? ?]. split; [lia|done].
    - ostep. apply post_assert. intros _.
      eapply post_mono; [apply rr_pack_ok; [done|lia|lia]|]. intros r [? ?]. split; [lia|done]. }
  intros [n [b c']] [Hn [Hb' Hc']]. simpl in *. ostep.
  apply post_mono with (P := fun '(n, (b, c')) => 8 <= n /\ zlen b = zlen buf /\ session c' ms ss).
  { apply post_if; intros Hlt; cbool; [|ostep; split_and!; [lia|done|done]]. ostep.
    eapply post_mono; [apply (sdes_pack_ok _ ms ss); [done|lia|lia|lia]|].
    intros [k [b2 c2]] (Hk & Hb2 & Hc2). ostep. split_and!; [lia|lia|done]. }
  intros [n2 [b2 c2]] (Hn2 & Hb2 & [? ? ? ?]). ostep.
  split_and!; [done|done|]. exists ms, ss. by split.
Qed.
End Reports.
