(* ===== verification/SessionProps.v ===== *)
(** Properties of the RTP session: any run of it, extended sequence numbers,
    reports that arrive as they were sent, and the packets it does not survive. *)

From stdpp Require Import gmap.
From S2P Require Import Prelude RtpUtil RtpPacket CDouble RtpMember RtpMemberSpec Rtcp RtcpProps Feedback FeedbackProps RtcpReport RtcpReportProps.

(** ** Runs *)
Inductive session_event :=
| EvRtp (now : Z) (data : list Z) (bytes : Z)
| EvRtcp (now addr : Z) (data : list Z) (bytes : Z)
| EvSend (now : Z) (data : list Z) (bytes : Z)
| EvReport (now : Z) (buf : list Z) (bytes : Z)
| EvInfo (cname name : list Z).

Section Run.
Context `{RtcpFeedback} `{Alloc} `{Build} `{Fpu} `{!FeedbackSafe}.

(** Datagrams are as long as they say; behind an RTCP datagram the buffer goes on
    for a word, and no extended report is in it, and no codec control message that
    does not end with the packet; a report has room. *)
Definition event_ok (e : session_event) : Prop :=
  match e with
  | EvRtp _ data bytes | EvSend _ data bytes => bytes_ok data /\ bytes <= zlen data
  | EvRtcp _ _ data bytes => bytes_ok data /\ 0 <= bytes /\ bytes + 4 <= zlen data /\
      benign (Z.to_nat bytes) data bytes = true
  | EvReport _ buf bytes => 780 <= bytes <= zlen buf /\ bytes < 2 ^ 31
  | EvInfo _ _ => True
  end.

Definition session_step (e : session_event) (c : rtp_context) : outcome rtp_context :=
  match e with
  | EvRtp now data bytes => do* (_, c) <- rtp_onreceived now c data bytes ;; Ret c
  | EvRtcp now addr data bytes => do* (_, c) <- rtp_onreceived_rtcp now addr c data bytes ;; Ret c
  | EvSend now data bytes => do* (_, c) <- rtp_onsend now c data bytes ;; Ret c
  | EvReport now buf bytes => do* (_, (_, c)) <- rtp_rtcp_report now c buf bytes ;; Ret c
  | EvInfo cname name => do* (_, c) <- rtp_set_info c cname name ;; Ret c
  end.

Fixpoint session_run (es : list session_event) (c : rtp_context) : outcome rtp_context :=
  match es with
  | [] => Ret c
  | e :: es => do c <- session_step e c ;; session_run es c
  end.

Lemma send_ok now c data bytes :
  session_ok c -> bytes_ok data -> bytes <= zlen data ->
  post (rtp_onsend now c data bytes) (fun '(_, c') => session_ok c').
Proof.
  intros (ms & ss & Hc) Hd Hl. unfold rtp_onsend. ostep. apply post_assert. intros _. cbv zeta.
  assert (Hr : session (set_role c RTP_SENDER) ms ss) by (destruct Hc; by split).
  ostep. eapply post_mono; [by apply deserialize_post|]. intros [r pkt] _.
  apply post_if; intros _; [ostep; by exists ms, ss|]. ostep.
  eapply load_member; [by eapply self_member|]. intros me Hme _. ostep.
  exists ms, ss. eapply save_session; [done|by left|done..].
Qed.

Lemma set_info_ok c cname name :
  session_ok c -> post (rtp_set_info c cname name) (fun '(_, c') => session_ok c').
Proof.
  intros (ms & ss & [Hm Hs Hcy Hh]). unfold rtp_set_info. ostep.
  pose proof (zlen_nonneg cname). pose proof (zlen_nonneg name).
  eapply post_mono; [apply (setvalue_heap _ _ _ _ _ _ Hh); [by left|lia]|]. intros [r σ] Hh'. ostep.
  eapply post_mono; [apply (setvalue_heap _ _ _ _ _ _ Hh'); [by left|lia]|]. intros [r' σ'] Hh''. ostep.
  exists ms, ss. by split.
Qed.

Hypothesis Halloc : forall n, alloc_ok n = true.

Lemma step_ok e c : session_ok c -> event_ok e -> post (session_step e c) session_ok.
Proof.
  intros Hc He. destruct e; simpl in *; ostep.
  - destruct He. eapply post_mono; [by apply input_rtp_ok|]. by intros [r c'].
  - destruct He as (?&?&?&?). eapply post_mono; [by eapply input_rtcp_ok|]. by intros [r c'].
  - destruct He. eapply post_mono; [by apply send_ok|]. by intros [r c'].
  - destruct He. eapply post_mono; [by apply report_ok|]. intros [r [b c']] (_ & _ & Hc'). done.
  - eapply post_mono; [by apply set_info_ok|]. by intros [r c'].
Qed.

Lemma run_ok es c : session_ok c -> Forall event_ok es -> post (session_run es c) session_ok.
Proof.
  intros Hc He. revert c Hc. induction He as [|e es He _ IH]; intros c Hc; simpl; [done|]. ostep.
  eapply post_mono; [by apply step_ok|]. intros c' Hc'. by apply IH.
Qed.

End Run.

(** ** Extended sequence numbers *)
Fixpoint seq_run (s : rtp_source) (sq : Z) (ds : list Z) : Z * rtp_source :=
  match ds with
  | [] => (1, s)
  | d :: ds =>
      let '(ok, s) := rtp_seq_update s (u16 (sq + d)) in
      if ok =? 0 then (0, s) else seq_run s (sq + d) ds
  end.

(** [s] is synchronised and counted [n] as the extended sequence number. *)
Record counted (s : rtp_source) (n : Z) : Prop := {
  cnt_probation : rtp_probation s = 0;
  cnt_seq : rtp_seq s = u16 n;
  cnt_cycles : rtp_seq_cycles s = n - u16 n
}.

Lemma seq_step s n d :
  counted s n -> 0 <= n -> 0 <= d < 500 -> n + d < 2 ^ 32 ->
  exists s', rtp_seq_update s (u16 (n + d)) = (1, s') /\ counted s' (n + d).
Proof.
  intros [Hp Hs Hc] Hn Hd Hb. unfold rtp_seq_update. rewrite Hp, Hs. unfold RTP_DROPOUT.
  replace (u16 (u16 (n + d) - u16 n)) with d.
  2: { unfold u16. rewrite <-Zminus_mod. replace (n + d - n) with d by lia. by rewrite Z.mod_small by lia. }
  do 2 zif. eexists. split; [done|].
  assert (Hw : 0 <= u16 (n + d) < 2 ^ 16) by (unfold u16; lia).
  destruct (Z.ltb_spec (u16 (n + d)) (u16 n)) as [Hlt|Hge]; split; simpl; try done.
  - rewrite Hc. change (Z.shiftl 1 16) with 65536. unfold u32, u16 in *. lia.
  - rewrite Hc. unfold u16 in *. lia.
Qed.

(** C0. The extended sequence number a receiver reports: once a source is
    synchronised it counts the packets the sender numbered, across any number of
    wraps of the 16-bit sequence number, with repeated packets and gaps of up to
    499, and no packet is refused. *)
Theorem rtp_seq_extended s n ds :
  counted s n -> 0 <= n -> Forall (fun d => 0 <= d < 500) ds ->
  n + foldr Z.add 0 ds < 2 ^ 32 ->
  exists s', seq_run s n ds = (1, s') /\ extended_seq s' = n + foldr Z.add 0 ds.
Proof.
  intros Hc Hn Hds. revert s n Hc Hn. induction Hds as [|d ds Hd Hds IH]; intros s n Hc Hn Hb; simpl in *.
  - exists s. split; [done|]. destruct Hc as [_ Hs Hcy]. unfold extended_seq, u32, u16 in *. lia.
  - assert (Hsum : 0 <= foldr Z.add 0 ds).
    { clear -Hds. induction Hds; simpl in *; lia. }
    destruct (seq_step s n d Hc Hn Hd ltac:(lia)) as (s' & -> & Hc').
    destruct (IH s' (n + d) Hc' ltac:(lia) ltac:(lia)) as (s'' & HR & He). simpl.
    exists s''. split; [done|]. lia.
Qed.

Lemma rtp_seq_extended_witness :
  let s := mk_source 65530 0 0 1 100 d_zero 0 0 0 65530 65537 0 in
  let ds := [1; 2; 0; 499; 3] in
  counted s 65530 /\ exists s', seq_run s 65530 ds = (1, s') /\ extended_seq s' = 65530 + foldr Z.add 0 ds.
Proof.
  split; [by split|].
  apply (rtp_seq_extended (mk_source 65530 0 0 1 100 d_zero 0 0 0 65530 65537 0) 65530 [1; 2; 0; 499; 3]);
    [by split|lia| |reflexivity]. repeat (constructor; [lia|]). constructor.
Defined.

(** ** Packets a session does not survive *)
Section Hostile.
Context `{RtcpFeedback} `{Alloc} `{Build} `{Fpu}.

Hypothesis Halloc : forall n, alloc_ok n = true.

(** The run stops at an assertion of a build that has them, or as [cr] says. *)
Definition stops {A} (m : outcome A) (cr : crash) : Prop :=
  m = Crash cr \/ NDEBUG = false /\ m = Crash AssertFail.

Lemma stops_bind {A B} (m : outcome A) (k : A -> outcome B) (Q : A -> Prop) cr :
  post m Q -> (forall a, Q a -> stops (k a) cr) -> stops (obind m k) cr.
Proof. destruct m as [a|[]]; simpl; try done; [auto|]. intros Hn _. by right. Qed.

Lemma stops_assert {A} b (k : outcome A) cr : stops k cr -> stops (c_assert b ;;; k) cr.
Proof.
  intros Hk. eapply (stops_bind _ _ (fun _ => True)); [apply post_assert; by intros _|]. done.
Qed.

Lemma xr_loop_diverges fuel c h from p n l b :
  4 <= n -> rd p 0 = Ret b -> xr_block h p n = Ret l -> xr_loop fuel c h from p n = Crash Diverge.
Proof.
  intros Hn Hb Hl. revert c. induction fuel as [|fuel IH]; intros c; cbn [xr_loop]; zif; [done|].
  rewrite Hb, Hl. cbn [obind]. apply IH.
Qed.

(** C0. An extended report hangs the session: the loop over its blocks changes
    neither the pointer nor the length, so for every number of iterations it is
    not over, whatever the type of the first block. *)
Theorem rtcp_xr_hangs fuel c h s blk l :
  session_ok c -> bytes_ok blk -> 4 <= zlen blk -> xr_block h blk (zlen blk) = Ret l ->
  stops (rtcp_xr_unpack fuel c h (be32 s ++ blk) (4 + zlen blk)) Diverge.
Proof.
  intros Hc Hb Hl Hx. unfold rtcp_xr_unpack. zif.
  eapply stops_bind; [apply (post_r32 _ (fun _ => True)); [rewrite zlen_app, zlen_be32; lia| |done]|].
  { apply Forall_app. split; [apply bytes_ok_be32|done]. }
  intros from _. eapply stops_bind; [by apply fetch_sender|].
  intros [o c'] (a & -> & _ & _). apply stops_assert. left.
  rewrite adv_app by (by rewrite zlen_be32). replace (4 + zlen blk - 4) with (zlen blk) by lia.
  destruct blk as [|b blk]; [done|]. by eapply (xr_loop_diverges _ _ _ _ _ _ l b).
Qed.

Definition bye_packet (s : Z) : list Z :=
  rtcp_header_bytes (mk_rtcp_header 2 0 1 RTCP_BYE 1) ++ be32 s.

Lemma bye_pack_spec c me buf :
  cells (heap c) !! self c = Some me -> 8 <= zlen buf ->
  rtp_rtcp_bye c buf 8 = Ret (8, bye_packet (mssrc me) ++ adv buf 8).
Proof.
  intros Hme Hl. unfold rtp_rtcp_bye, rtcp_bye_pack, load, nbo_write_rtcp_header, rtp_write_uint32.
  change (8 <? 8) with false. cbv iota. set (h := rtcp_header_bytes _).
  assert (Hh : zlen h = 4) by done. rewrite (wrn_0 buf h) by lia. rewrite Hme. cbn [obind app].
  rewrite (wrn_app h) by (done || (rewrite zlen_be32, zlen_adv; lia)).
  cbn [obind]. rewrite zlen_be32, Hh, adv_adv by lia. done.
Qed.

(** C0. The BYE packet this library sends makes the session that receives it read
    behind the end of the datagram: the loop over the other SSRCs starts at the
    second one and ends one word too far. *)
Theorem rtcp_bye_reads_past now addr c c' me buf :
  session_ok c -> cells (heap c') !! self c' = Some me -> 8 <= zlen buf ->
  exists sent, rtp_rtcp_bye c' buf 8 = Ret (8, sent) /\
    stops (rtp_onreceived_rtcp now addr c (take 8 sent) 8) OutOfBounds.
Proof.
  intros Hc Hme Hl. eexists. split; [by apply bye_pack_spec|].
  change (take 8 (bye_packet (mssrc me) ++ adv buf 8)) with (bye_packet (mssrc me)).
  generalize (mssrc me). intros s. unfold rtp_onreceived_rtcp, rtcp_input_rtcp.
  change (Z.to_nat 8) with 8%nat. cbn [rtcp_compound]. change (4 <? 8) with true. cbv iota.
  assert (Hp : stops (rtcp_parse now addr c (bye_packet s) 8) OutOfBounds).
  { unfold rtcp_parse. change (rtcp_frame (bye_packet s) 8)
      with (@Ret (option (rtcp_header_t * Z)) (Some (mk_rtcp_header 2 0 1 203 1, 8))).
    change (adv (bye_packet s) 4) with (be32 s). cbn [obind]. apply stops_assert.
    change (8 - 4) with 4. unfold rtcp_dispatch. cbn [rpt]. cbv zeta.
    change (203 =? RTCP_SR) with false. change (203 =? RTCP_RR) with false.
    change (203 =? RTCP_SDES) with false. change (203 =? RTCP_BYE) with true. cbv iota.
    unfold rtcp_bye_unpack. cbn [rc]. change (c_assert (1 * 4 <=? 4)) with (@Ret unit tt). cbn [obind].
    change ((1 <? 1) || (4 <? 1 * 4)) with false. cbv iota.
    change (bye_reason _ (be32 s) 4) with (@Ret rtcp_body (BodyBye 0 None)). cbn [obind].
    rewrite <-(app_nil_r (be32 s)) at 1. rewrite nbo_r32_be32. cbn [obind].
    destruct (drop_ssrc c (u32 s)) as [c1|cr] eqn:E; cbn [obind].
    - left. reflexivity.
    - pose proof (drop_ok c (u32 s) Hc) as Hd. rewrite E in Hd. destruct cr; try done. by right. }
  destruct Hp as [->|[Hn ->]]; [by left|by right].
Qed.
End Hostile.

(** ** Concrete sessions *)
Definition formats : RtcpFeedback := @rtcp_formats always_alloc release_build.
Definition formats_safe : @FeedbackSafe formats release_build :=
  @rtcp_formats_safe always_alloc release_build.

Definition run_session (b : Build) (al : Alloc) (es : list session_event) : outcome Z :=
  do o <- @rtp_create (@rtcp_formats al b) al b saturating 0 1 0 90000 2097152 false ;;
  match o with
  | None => Ret 0
  | Some c => do c <- @session_run (@rtcp_formats al b) al b saturating es c ;; Ret (zlen (events c))
  end.

(** A description whose last CNAME is empty, then the member leaves. *)
Definition sdes_then_bye : list Z :=
  [129; 202; 0; 3] ++ be32 5 ++ [1; 1; 120; 1; 0; 0; 0; 0] ++ bye_packet 5 ++ [0; 0; 0; 0].

(** The item keeps its buffer with length 0, and releasing the member asserts
    that a buffer has a length. *)
Theorem empty_item_aborts :
  run_session default_build always_alloc [EvRtcp 0 0 sdes_then_bye 24] = Crash AssertFail /\
  run_session release_build always_alloc [EvRtcp 0 0 sdes_then_bye 24] = Ret 4.
Proof. split; vm_compute; reflexivity. Qed.

(** An RTP packet of a sender. *)
Definition rtp_from (s sq : Z) : list Z := [128; 96] ++ be16 sq ++ be32 0 ++ be32 s ++ [7].

(** A feedback packet of the sender 6. *)
Definition feedback (type fmt : Z) (fci : list Z) : list Z :=
  [128 + fmt; type] ++ be16 ((8 + zlen fci) / 4) ++ be32 6 ++ be32 1 ++ fci.

(** An allocator that refuses the second growth of an array of members. *)
Definition no_growth : Alloc := {| alloc_ok n := negb (n =? 128); heap_byte := 205 |}.

(** When the list of members cannot grow, the eleventh member is released while its
    pointer is returned: the sender list then counts a reference in freed memory. *)
Theorem member_fetch_dangles :
  run_session release_build no_growth
    (map (fun s => EvRtp 0 (rtp_from s 1) 13) [5; 6; 7; 8; 9; 10; 11; 12; 13; 14]) = Crash OutOfBounds.
Proof. vm_compute. reflexivity. Qed.


(** The session of the demuxer, as created. *)
Definition fresh_session : @rtp_context formats :=
  match @rtp_create formats always_alloc release_build saturating 0 1 0 90000 2097152 false with
  | Ret (Some c) => c
  | _ => @mk_context formats (mk_store ∅ 0) (mk_list [] [] 0 0) (mk_list [] [] 0 0) 0 0 0 0 0 0 0 []
  end.

Lemma fresh_session_ok : @session_ok formats fresh_session.
Proof.
  pose proof (@create_session formats always_alloc release_build saturating (fun _ => eq_refl)
                0 1 0 90000 2097152 false) as Hc.
  unfold fresh_session. revert Hc. destruct (rtp_create _ _ _ _ _ _) as [[c|]|[]]; simpl; try done.
  by intros [? _].
Qed.

Lemma fresh_session_self : exists me, cells (@heap formats fresh_session) !! @self formats fresh_session = Some me.
Proof. eexists. vm_compute. reflexivity. Qed.

Lemma rtcp_xr_hangs_witness :
  @stops release_build _
    (@rtcp_xr_unpack formats always_alloc release_build 100%nat fresh_session
       (mk_rtcp_header 2 0 0 207 2) (be32 7 ++ [0; 0; 0; 0]) (4 + zlen [0; 0; 0; 0])) Diverge.
Proof.
  apply (@rtcp_xr_hangs formats always_alloc release_build (fun _ => eq_refl) 100%nat
           fresh_session _ 7 [0; 0; 0; 0] []); [exact fresh_session_ok| | |reflexivity].
  - repeat constructor; discriminate.
  - discriminate.
Defined.

(** The receiving buffer ends with the datagram. *)
Lemma rtcp_bye_reads_past_witness :
  exists sent, @rtp_rtcp_bye formats fresh_session (replicate 8 0) 8 = Ret (8, sent) /\
    @stops release_build _
      (@rtp_onreceived_rtcp formats always_alloc release_build saturating 0 0 fresh_session (take 8 sent) 8)
      OutOfBounds.
Proof.
  destruct fresh_session_self as [me Hme].
  apply (@rtcp_bye_reads_past formats always_alloc release_build saturating 0 0 fresh_session fresh_session me (replicate 8 0)); [exact fresh_session_ok|exact Hme|].
  discriminate.
Defined.
