(* ===== verification/ReportRoundTrip.v ===== *)
(** A receiver report arrives as it was sent: what [rtcp_rr_pack] writes,
    [rtcp_rr_unpack] of another session hands to the application. *)

From stdpp Require Import gmap.
From S2P Require Import Prelude RtpUtil RtpPacket CDouble RtpMember RtpMemberSpec Rtcp RtcpProps RtcpReport RtcpReportProps SessionProps.

(** The block a member is reported with. *)
Definition rb_of `{Fpu} (now : Z) (m : rtp_member) : rtcp_rb_t :=
  let s := source m in
  mk_rb (u32 (mssrc m)) (u8 (fraction_lost s)) (packets_lost s) (extended_seq s)
    (to_u32 (jitter s)) (last_sr m) (if 0 =? last_sr m then 0 else delay_since_sr now m).

Section RoundTrip.
Context `{RtcpFeedback} `{Alloc} `{Build} `{Fpu}.

Lemma packets_lost_range s : 0 <= packets_lost s < 2 ^ 23.
Proof.
  unfold packets_lost. destruct (Z.ltb_spec 0x7FFFFF (s32 (u32 (expected_packets s - rtp_packets s)))); [lia|].
  destruct (Z.ltb_spec (s32 (u32 (expected_packets s - rtp_packets s))) 0); lia.
Qed.

Lemma last_sr_range m : 0 <= last_sr m < 2 ^ 32.
Proof.
  unfold last_sr. change 0xFFFF with (2 ^ 16 - 1). rewrite !land_ones_mod, Z.shiftl_mul_pow2 by lia.
  rewrite (lor_add _ _ 16) by lia. lia.
Qed.

Lemma join24 x : 0 <= x < 2 ^ 24 ->
  Z.lor (Z.lor (Z.shiftl (u8 (Z.land (Z.shiftr x 16) 0xFF)) 16)
               (Z.shiftl (u8 (Z.land (Z.shiftr x 8) 0xFF)) 8)) (u8 (Z.land x 0xFF)) = x.
Proof.
  intros Hx. change 0xFF with (2 ^ 8 - 1). rewrite !land_ones_mod, !Z.shiftr_div_pow2, !Z.shiftl_mul_pow2 by lia.
  unfold u8. rewrite !Z.mod_mod by lia.
  rewrite (lor_add (_ * 2 ^ 16) _ 16) by lia.
  rewrite (lor_add _ _ 8); [lia|lia| |lia].
  replace (x / 2 ^ 16 mod 2 ^ 8 * 2 ^ 16 + x / 2 ^ 8 mod 2 ^ 8 * 2 ^ 8)
    with ((x / 2 ^ 16 mod 2 ^ 8 * 2 ^ 8 + x / 2 ^ 8 mod 2 ^ 8) * 2 ^ 8) by lia.
  by rewrite Z.mod_mul.
Qed.

Lemma u32_id x : 0 <= x < 2 ^ 32 -> u32 x = x.
Proof. intros. unfold u32. by rewrite Z.mod_small. Qed.

Lemma block_fields s f b5 b6 b7 e ji l d rest :
  rtcp_block (be32 s ++ [f; b5; b6; b7] ++ be32 e ++ be32 ji ++ be32 l ++ be32 d ++ rest)
  = Ret (mk_rb (u32 s) f (Z.lor (Z.lor (Z.shiftl b5 16) (Z.shiftl b6 8)) b7)
           (u32 e) (u32 ji) (u32 l) (u32 d)).
Proof.
  unfold rtcp_block. rewrite nbo_r32_be32. cbn [obind].
  set (tl := be32 e ++ be32 ji ++ be32 l ++ be32 d ++ rest).
  change (rd (be32 s ++ [f; b5; b6; b7] ++ tl) 4) with (Ret f). cbn [obind].
  change (rd (be32 s ++ [f; b5; b6; b7] ++ tl) 5) with (Ret b5). cbn [obind].
  change (rd (be32 s ++ [f; b5; b6; b7] ++ tl) 6) with (Ret b6). cbn [obind].
  change (rd (be32 s ++ [f; b5; b6; b7] ++ tl) 7) with (Ret b7). cbn [obind].
  change (adv (be32 s ++ [f; b5; b6; b7] ++ tl) 8) with tl.
  change (adv (be32 s ++ [f; b5; b6; b7] ++ tl) 12) with (be32 ji ++ be32 l ++ be32 d ++ rest).
  change (adv (be32 s ++ [f; b5; b6; b7] ++ tl) 16) with (be32 l ++ be32 d ++ rest).
  change (adv (be32 s ++ [f; b5; b6; b7] ++ tl) 20) with (be32 d ++ rest).
  unfold tl. rewrite nbo_r32_be32. cbn [obind]. rewrite nbo_r32_be32. cbn [obind].
  rewrite nbo_r32_be32. cbn [obind]. rewrite nbo_r32_be32. done.
Qed.

(** One block read back. *)
Lemma block_roundtrip now m rest : rtcp_block (report_block now m ++ rest) = Ret (rb_of now m).
Proof.
  unfold report_block. cbv zeta. rewrite <-!app_assoc. rewrite block_fields.
  pose proof (packets_lost_range (source m)). pose proof (last_sr_range m).
  rewrite join24 by lia. unfold rb_of. cbv zeta.
  rewrite !(u32_id (extended_seq _)), (u32_id (last_sr m)) by (unfold extended_seq, u32; lia).
  rewrite (u32_id (to_u32 _)) by apply to_u32_range. f_equal. f_equal.
  apply u32_id. destruct (0 =? last_sr m); [lia|]. apply to_u32_range.
Qed.

(** Reading the blocks of several members. *)
Lemma report_loop_spec now c from l rest :
  exists c', report_loop (length l) c from (flat_map (report_block now) l ++ rest) = Ret c' /\
    events c' = events c ++ map (fun m => mk_msg (Some RTCP_RR) from (BodyRb (rb_of now m))) l.
Proof.
  revert c. induction l as [|m l IH]; intros c; cbn [length report_loop flat_map map].
  - exists c. by rewrite app_nil_r.
  - rewrite <-app_assoc, block_roundtrip. cbn [obind].
    rewrite adv_app by (by rewrite zlen_report_block).
    destruct (IH (on_rtcp c (mk_msg (Some RTCP_RR) from (BodyRb (rb_of now m))))) as (c' & -> & He).
    exists c'. split; [done|]. rewrite He. simpl. by rewrite <-app_assoc.
Qed.

(** The member [m] has something to report to [me]. *)
Definition reporting (me m : rtp_member) : Prop :=
  rtp_packets (source m) <> 0 /\ mssrc m <> mssrc me /\
  rtp_seq_base (source m) <= extended_seq (source m).

(** Writing the blocks of the senders from the [i]-th on. *)
Lemma blocks_spec n i now c ms ss me mem pre rest :
  session c ms ss -> (n + i = length ss)%nat -> NoDup ss ->
  cells (heap c) !! self c = Some me ->
  (forall a, a ∈ drop i ss -> cells (heap c) !! a = Some (mem a) /\ reporting me (mem a)) ->
  24 * Z.of_nat n <= zlen rest ->
  exists c', blocks_loop n (Z.of_nat i) now c (pre ++ rest) (zlen pre)
    = Ret (pre ++ flat_map (report_block now) (map mem (drop i ss)) ++ adv rest (24 * Z.of_nat n), c').
Proof.
  revert i c pre rest. induction n as [|n IH]; intros i c pre rest Hs Hn Hnd Hme Hall Hl; cbn [blocks_loop].
  - exists c. rewrite drop_ge by lia. done.
  - destruct (get_spec (senders c) ss (Z.of_nat i)) as (a & -> & Ha); [apply Hs|unfold zlen; lia|].
    rewrite Nat2Z.id in Ha. cbn [obind pointee].
    assert (Hd : drop i ss = a :: drop (S i) ss) by (by apply drop_S).
    destruct (Hall a) as [Hca (Hp & Hne & Hext)]; [rewrite Hd; by left|].
    unfold load. rewrite Hca, Hme. cbn [obind]. do 2 zif. cbn [orb].
    unfold rtcp_report_block. cbn [Z.ltb]. change (24 <? 24) with false. cbv iota.
    unfold c_assert. zif. cbn [orb obind].
    rewrite wrn_app by (done || (rewrite zlen_report_block; lia)). cbn [obind].
    rewrite zlen_report_block, Hd. cbn [map flat_map].
    set (m' := set_source (mem a) _).
    assert (Hself : a <> self c).
    { intros ->. rewrite Hca in Hme. injection Hme as Hme. by rewrite Hme in Hne. }
    destruct (IH (S i) (set_heap c (save (heap c) a m')) (pre ++ report_block now (mem a)) (adv rest 24))
      as (c' & HE).
    + eapply save_session; [done| |done..]. apply list_elem_of_lookup_2 in Ha. right.
      apply elem_of_app. by right.
    + lia.
    + done.
    + simpl. by rewrite lookup_insert_ne.
    + intros b Hb. simpl. rewrite lookup_insert_ne; [apply Hall; rewrite Hd; by right|].
      intros ->. apply list_elem_of_lookup in Hb as [k Hk]. rewrite lookup_drop in Hk.
      pose proof (NoDup_lookup _ _ _ _ Hnd Ha Hk). lia.
    + rewrite zlen_adv. lia.
    + exists c'. replace (Z.of_nat i + 1) with (Z.of_nat (S i)) by lia.
      rewrite zlen_app, zlen_report_block in HE. rewrite HE. rewrite <-!app_assoc.
      rewrite adv_adv by lia. by replace (24 * Z.of_nat (S n)) with (24 + 24 * Z.of_nat n) by lia.
Qed.

(** ** Framing *)
Definition plain_header (rc type len : Z) : rtcp_header_t := mk_rtcp_header 2 0 rc type len.

Lemma header_bytes_eq rc type len :
  0 <= rc < 32 -> 0 <= type < 256 -> 0 <= len < 2 ^ 16 ->
  rtcp_header_bytes (plain_header rc type len) = [128 + rc; type; len / 256; len mod 256].
Proof.
  intros Hr Ht Hl. unfold rtcp_header_bytes, plain_header. cbn [rv rp RtpUtil.rc rpt rlength].
  change (Z.lor (Z.shiftl 2 6) (Z.shiftl 0 5)) with 128. rewrite (lor_add 128 rc 5) by (try lia; done).
  change 255 with (2 ^ 8 - 1). rewrite land_ones_mod, Z.shiftr_div_pow2 by lia.
  unfold u8. f_equal; [lia|]. f_equal; [lia|]. f_equal; [lia|]. f_equal. lia.
Qed.

Lemma frame_spec rc type len rest bytes :
  0 <= rc < 32 -> 0 <= type < 256 -> 0 <= len < 2 ^ 16 -> len * 4 + 4 <= bytes ->
  rtcp_frame (rtcp_header_bytes (plain_header rc type len) ++ rest) bytes
  = Ret (Some (plain_header rc type len, len * 4 + 4)).
Proof.
  intros Hr Ht Hl Hb. rewrite header_bytes_eq by lia. unfold rtcp_frame. cbn [app].
  rewrite nbo_r32_cons, join32 by (unfold is_byte; lia). cbn [obind].
  set (w := (128 + rc) * 2 ^ 24 + type * 2 ^ 16 + len / 256 * 2 ^ 8 + len mod 256).
  assert (Hw : rtcp_header_of w = plain_header rc type len).
  { unfold rtcp_header_of, plain_header, RTCP_V, RTCP_P, RTCP_RC, RTCP_PT, RTCP_LEN.
    rewrite (field_get _ 30 2 3), (field_get _ 29 1 1), (field_get _ 24 5 31), (field_get _ 16 8 255) by done.
    change 65535 with (2 ^ 16 - 1). rewrite land_ones_mod by lia.
    f_equal; unfold w; lia. }
  rewrite Hw. unfold plain_header. cbn [rv rp rlength]. zif. done.
Qed.

(** ** The report *)
Definition report_bytes (now : Z) (me : rtp_member) (l : list rtp_member) : list Z :=
  rtcp_header_bytes (plain_header (zlen l) RTCP_RR (1 + 6 * zlen l)) ++ be32 (mssrc me) ++
  flat_map (report_block now) l.

Lemma rr_pack_spec now c ms ss me mem buf bytes :
  session c ms ss -> zlen ss <= 31 -> NoDup ss -> cells (heap c) !! self c = Some me ->
  (forall a, a ∈ ss -> cells (heap c) !! a = Some (mem a) /\ reporting me (mem a)) ->
  8 + 24 * zlen ss <= bytes <= zlen buf -> bytes < 2 ^ 31 ->
  exists c', rtcp_rr_pack now c buf 0 bytes
    = Ret (8 + 24 * zlen ss, (report_bytes now me (map mem ss) ++ adv buf (8 + 24 * zlen ss), c')).
Proof.
  intros Hs Hss Hnd Hme Hall Hb Hb31. pose proof (zlen_nonneg ss) as Hpos. unfold rtcp_rr_pack.
  unfold rtp_member_list_count. rewrite (rep_count _ _ (sess_senders _ _ _ Hs)). cbv zeta. cbn [rlength].
  unfold c_assert. zif. cbn [orb obind]. rewrite Z.min_r by lia.
  replace ((4 + zlen ss * 24) / 4) with (1 + 6 * zlen ss) by lia.
  rewrite u32_id by lia. zif. unfold nbo_write_rtcp_header, rtp_write_uint32.
  fold (plain_header (zlen ss) RTCP_RR (1 + 6 * zlen ss)).
  set (h := rtcp_header_bytes _). assert (Hh : zlen h = 4) by done.
  rewrite wrn_0 by lia. cbn [obind]. unfold load. rewrite Hme. cbn [obind].
  rewrite Hh, (wrn_app h) by (rewrite ?zlen_be32, ?zlen_adv; lia). cbn [obind].
  rewrite zlen_be32, adv_adv by lia. change (4 + 4) with 8.
  destruct (blocks_spec (Z.to_nat (zlen ss)) 0 now c ms ss me mem (h ++ be32 (mssrc me)) (adv buf 8))
    as (c' & HE); [done|unfold zlen; lia|done|done|done|rewrite zlen_adv; lia|].
  rewrite zlen_app, Hh, zlen_be32 in HE. change (Z.of_nat 0) with 0 in HE.
  change (0 + 8) with (4 + 4). rewrite HE. cbn [obind]. exists c'. f_equal. f_equal; [lia|]. f_equal.
  rewrite drop_0, adv_adv by lia. unfold report_bytes. rewrite <-!app_assoc.
  replace (zlen (map mem ss)) with (zlen ss) by (unfold zlen; by rewrite length_map). fold h.
  do 3 f_equal. f_equal. lia.
Qed.

Hypothesis Halloc : forall n, alloc_ok n = true.

Lemma bytes_ok_blocks now l : bytes_ok (flat_map (report_block now) l).
Proof.
  induction l as [|m l IH]; cbn [flat_map]; [constructor|].
  apply Forall_app. split; [|done]. unfold report_block, be32. simpl.
  repeat (constructor; [apply is_byte_u8|]). constructor.
Qed.

Lemma fetch_member_events c s o c' : rtp_member_fetch c s = Ret (o, c') -> events c' = events c.
Proof.
  intros HE. unfold rtp_member_fetch in HE. destruct (rtp_member_list_find _ (members c) s) as [[a|]|];
    cbn [obind] in HE; [by injection HE as _ <-| |done].
  repeat first [run_inv | case_match]; subst; try done; naive_solver.
Qed.

Lemma rr_unpack_events now' c2 me now l h rest :
  session_ok c2 -> is_u32 (mssrc me) -> rc h = zlen l ->
  bytes_ok rest ->
  post (rtcp_rr_unpack now' c2 h (be32 (mssrc me) ++ flat_map (report_block now) l ++ rest) (4 + 24 * zlen l))
    (fun c' => events c' = events c2 ++
       map (fun m => mk_msg (Some RTCP_RR) (mssrc me) (BodyRb (rb_of now m))) l).
Proof.
  intros Hs Hme Hrc Hrest. pose proof (zlen_nonneg l). unfold rtcp_rr_unpack. rewrite Hrc. zif.
  rewrite nbo_r32_be32, u32_small by done. cbn [obind]. ostep.
  destruct (rtp_member_fetch c2 (mssrc me)) as [[o c']|cr] eqn:E.
  2: { pose proof (fetch_member Halloc c2 (mssrc me) Hs) as Hf. rewrite E in Hf. by destruct cr. }
  pose proof (fetch_member Halloc c2 (mssrc me) Hs) as Hf. rewrite E in Hf. simpl in Hf.
  destruct Hf as (a & ms & ss & -> & Hs' & Ha & _). apply fetch_member_events in E. ostep.
  ostep. apply post_assert. intros _. ostep.
  eapply load_member; [exists ms, ss; split; [done|]; right; apply elem_of_app; by left|].
  intros m Hm _. ostep. apply post_assert. intros _. cbv zeta.
  rewrite (adv_app (be32 (mssrc me))) by (by rewrite zlen_be32). unfold zlen. rewrite Nat2Z.id.
  destruct (report_loop_spec now (set_heap c' (save (heap c') a (set_report m (rtcp_sr m) now')))
    (mssrc me) l rest) as (c'' & -> & He). ostep. rewrite He. simpl. by rewrite E.
Qed.

End RoundTrip.

(** ** A session that received three packets of one sender *)
Definition receiving : list session_event :=
  [EvRtp 10 (rtp_from 5 7) 13; EvRtp 20 (rtp_from 5 8) 13; EvRtp 30 (rtp_from 5 9) 13].

Definition reporting_session : @rtp_context formats :=
  match @session_run formats always_alloc release_build saturating receiving fresh_session with
  | Ret c => c
  | Crash _ => fresh_session
  end.

Lemma reporting_session_ok : @session formats reporting_session [0%nat; 1%nat] [1%nat].
Proof.
  assert (Hok : Forall (@event_ok formats release_build formats_safe) receiving).
  { repeat constructor; try (vm_compute; intuition discriminate); try (vm_compute; discriminate). }
  pose proof (@run_ok formats always_alloc release_build saturating formats_safe (fun _ => eq_refl)
                receiving fresh_session fresh_session_ok Hok) as Hr.
  assert (Hs : @session_ok formats reporting_session).
  { unfold reporting_session. destruct (session_run receiving fresh_session) as [c|[]]; simpl in Hr; done. }
  clear Hok Hr. destruct Hs as (ms & ss & Hs). pose proof Hs as [[Hm1 _ _ _ Hm2] [Hs1 _ _ _ Hs2] _ _].
  assert (ms = [0%nat; 1%nat]) as ->.
  { change (lcount (@members formats reporting_session)) with 2 in Hm1.
    destruct ms as [|a [|b [|]]]; try (unfold zlen in Hm1; simpl in Hm1; lia).
    change (take _ _) with [Some 0%nat; Some 1%nat] in Hm2. by injection Hm2 as <- <-. }
  assert (ss = [1%nat]) as ->; [|done].
  change (lcount (@senders formats reporting_session)) with 1 in Hs1.
  destruct ss as [|a [|]]; try (unfold zlen in Hs1; simpl in Hs1; lia).
  change (take _ _) with [Some 1%nat] in Hs2. by injection Hs2 as <-.
Qed.

Definition member_at (a : nat) : rtp_member :=
  default (new_member 0) (cells (@heap formats reporting_session) !! a).

