(* ===== verification/Demuxer.v ===== *)
(** The demultiplexer (lib/librtp/source/rtp-demuxer.c): datagrams are copied into
    blocks of the heap, ordered by the queue, shown to the session and to the
    payload decoder, and given back to the heap. *)

From Stdlib Require Import String.
From stdpp Require Import gmap.
From S2P Require Import Prelude RtpUtil RtpPacket RtpQueue Payload Registry CDouble RtpMember Rtcp RtcpReport.

(** ** Blocks
    One [realloc] holds the capacity, the number of bytes, the parsed packet and
    the datagram: [| cap:4 | bytes:4 | rtp_packet_t:112 | data |].  [b_addr] is the
    address of the block; the queue holds the address of its packet. *)
Definition SIZEOF_INT : Z := 4.
Definition SIZEOF_PACKET : Z := 112.

Record block := mk_block {
  b_addr : Z;
  b_cap : Z;
  b_bytes : Z;
  b_pkt : rtp_packet_t;
  b_data : list Z
}.

#[export] Instance block_pointer : RtpPointer block := fun b => rtp (b_pkt b).

(** The heap: the addresses that are allocated, and one that never was. *)
Record heap_t := mk_heap { live : gset Z; fresh_addr : Z }.

Definition h_touch (σ : heap_t) (a : Z) : outcome unit :=
  if bool_decide (a ∈ live σ) then Ret tt else Crash OutOfBounds.

Definition c_free (σ : heap_t) (a : Z) : outcome heap_t :=
  h_touch σ a ;;; Ret (mk_heap (live σ ∖ {[a]}) (fresh_addr σ)).

(** [realloc] of a block that may be null: the old one is gone when it succeeds. *)
Definition h_realloc `{Alloc} (σ : heap_t) (old : option Z) (n : Z) : outcome (option Z * heap_t) :=
  do _ <- (match old with Some a => h_touch σ a | None => Ret tt end) ;;
  if negb (alloc_ok n) then Ret (None, σ)
  else
    let a := fresh_addr σ in
    let rest := match old with Some b => live σ ∖ {[b]} | None => live σ end in
    Ret (Some a, mk_heap ({[a]} ∪ rest) (a + 1)).

(** ** State.  [dm_ptr]: the spare block, with the capacity its first word holds;
    [dm_heap]: the heap, as far as these blocks are concerned. *)
Record rtp_demuxer_t `{RtcpFeedback} (S : Type) := mk_demuxer {
  dm_ssrc : Z;
  dm_clock : Z;
  dm_ptr : option (Z * Z);
  dm_cap : Z;
  dm_max : Z;
  dm_queue : rtp_queue_t block;
  dm_payload : decode_ctx S;
  dm_rtp : rtp_context;
  dm_heap : heap_t
}.
Arguments mk_demuxer {_ S}.
Arguments dm_ssrc {_ S}.
Arguments dm_clock {_ S}.
Arguments dm_ptr {_ S}.
Arguments dm_cap {_ S}.
Arguments dm_max {_ S}.
Arguments dm_queue {_ S}.
Arguments dm_payload {_ S}.
Arguments dm_rtp {_ S}.
Arguments dm_heap {_ S}.

Section Demuxer.
Context `{RtcpFeedback} `{Alloc} `{Build} `{Fpu} {S : Type}.
Implicit Types (dm : rtp_demuxer_t S) (s : S).

Definition set_spare dm (p : option (Z * Z)) (cap : Z) (σ : heap_t) : rtp_demuxer_t S :=
  mk_demuxer (dm_ssrc dm) (dm_clock dm) p cap (dm_max dm) (dm_queue dm) (dm_payload dm) (dm_rtp dm) σ.
Definition set_queue dm (q : rtp_queue_t block) : rtp_demuxer_t S :=
  mk_demuxer (dm_ssrc dm) (dm_clock dm) (dm_ptr dm) (dm_cap dm) (dm_max dm) q (dm_payload dm)
    (dm_rtp dm) (dm_heap dm).
Definition set_payload_ctx dm (p : decode_ctx S) : rtp_demuxer_t S :=
  mk_demuxer (dm_ssrc dm) (dm_clock dm) (dm_ptr dm) (dm_cap dm) (dm_max dm) (dm_queue dm) p
    (dm_rtp dm) (dm_heap dm).
Definition set_session dm (c : rtp_context) : rtp_demuxer_t S :=
  mk_demuxer (dm_ssrc dm) (dm_clock dm) (dm_ptr dm) (dm_cap dm) (dm_max dm) (dm_queue dm)
    (dm_payload dm) c (dm_heap dm).
Definition set_clock dm (t : Z) : rtp_demuxer_t S :=
  mk_demuxer (dm_ssrc dm) t (dm_ptr dm) (dm_cap dm) (dm_max dm) (dm_queue dm) (dm_payload dm)
    (dm_rtp dm) (dm_heap dm).

(** [rtp_onpacket]: the client's callback, -1 when there is none.  The decoder
    gets no allocator. *)
Definition rtp_onpacket (onpkt : option (S -> list Z -> Z -> Z -> Z * S)) : rtp_payload_t S :=
  mk_payload (fun s _ => (None, s)) (fun s => s)
    (fun s packet ts flags =>
       match onpkt with Some f => f s packet ts flags | None => (-1, s) end).

(** ** Blocks from and to the heap *)
(** Room for a datagram in the spare block. *)
Definition demuxer_room dm (bytes : Z) : outcome (bool * rtp_demuxer_t S) :=
  if dm_cap dm <? bytes + SIZEOF_PACKET + SIZEOF_INT then
    let r := bytes + SIZEOF_PACKET + SIZEOF_INT in
    let r := if 1500 <? r then r else 1500 in
    do* (p, σ) <- h_realloc (dm_heap dm) (fst <$> dm_ptr dm) (r + SIZEOF_INT) ;;
    Ret match p with
        | None => (false, dm)
        | Some a => (true, set_spare dm (Some (a, r)) r σ)
        end
  else Ret (true, dm).

Definition rtp_demuxer_alloc dm (data : list Z) (bytes : Z) : outcome (option block * rtp_demuxer_t S) :=
  do* (ok, dm) <- demuxer_room dm bytes ;;
  if negb ok then Ret (None, dm)
  else
    match dm_ptr dm with
    | None => Crash OutOfBounds
    | Some (a, cap) =>
        h_touch (dm_heap dm) a ;;;
        do data <- rdn data 0 bytes ;;
        (if cap + SIZEOF_INT <? 2 * SIZEOF_INT + SIZEOF_PACKET + bytes then Crash OutOfBounds
         else Ret tt) ;;;
        do* (r, pkt) <- rtp_packet_deserialize zero_packet data bytes ;;
        if negb (r =? 0) then Ret (None, dm)
        else Ret (Some (mk_block a cap bytes pkt data), set_spare dm None 0 (dm_heap dm))
    end.

(** The larger of the block and the spare one is kept. *)
Definition rtp_demuxer_freepkt dm (b : block) : outcome (rtp_demuxer_t S) :=
  h_touch (dm_heap dm) (b_addr b) ;;;
  if b_cap b <=? dm_cap dm then
    do σ <- c_free (dm_heap dm) (b_addr b) ;;
    Ret (set_spare dm (dm_ptr dm) (dm_cap dm) σ)
  else
    do σ <- (match dm_ptr dm with
             | Some (a, _) => if 0 <? dm_cap dm then c_free (dm_heap dm) a else Ret (dm_heap dm)
             | None => Ret (dm_heap dm)
             end) ;;
    Ret (set_spare dm (Some (b_addr b, b_cap b)) (b_cap b) σ).

(** The queue's callback, for every packet it let go of during one call. *)
Fixpoint free_all dm (bs : list block) : outcome (rtp_demuxer_t S) :=
  match bs with
  | [] => Ret dm
  | b :: bs => do dm <- rtp_demuxer_freepkt dm b ;; free_all dm bs
  end.

Definition newly_freed (q q' : rtp_queue_t block) : list block := drop (length (freed q)) (freed q').

(** ** Creation and destruction *)
(** [now]: three readings of the clock; [rnd]: the random SSRC. *)
Definition rtp_demuxer_create (now : Z * Z * Z) (rnd jitter frequency payload : Z)
    (encoding : option string) : outcome (option (rtp_demuxer_t S)) :=
  if negb (alloc_ok 72) then Ret None
  else
    let '(t0, t1, t2) := now in
    do p <- rtp_payload_decode_create payload encoding ;;
    do c <- rtp_create t1 0 (u32 t0) (if frequency =? 0 then 90000 else frequency) (2 * 1024 * 1024) false ;;
    do q <- (if alloc_ok 96 then do q <- rtp_queue_create jitter frequency ;; Ret (Some q) else Ret None) ;;
    match p, c, q with
    | Some p, Some c, Some q =>
        Ret (Some (mk_demuxer rnd t2 None 0 RTP_PAYLOAD_MAX_SIZE q p c (mk_heap ∅ 0)))
    | _, Some c, _ => do _ <- rtp_destroy c ;; Ret None
    | _, None, _ => Ret None
    end.

(** What is left in the heap: members of the session and blocks. *)
Definition rtp_demuxer_destroy dm : outcome (store * gset Z) :=
  do σ <- rtp_destroy (dm_rtp dm) ;;
  do bs <- rtp_queue_destroy (dm_queue dm) ;;
  do dm <- free_all dm (drop (length (freed (dm_queue dm))) bs) ;;
  do heap <- (match dm_ptr dm with
              | Some (a, _) => c_free (dm_heap dm) a
              | None => Ret (dm_heap dm)
              end) ;;
  Ret (σ, live heap).

(** ** Input *)
Section Input.
Context (onpkt : option (S -> list Z -> Z -> Z -> Z * S)).

(** The loop over the packets the queue releases; [clk] is the clock, read once
    per packet. *)
Fixpoint release_loop (fuel : nat) (clk : nat -> Z) dm s : outcome (Z * (rtp_demuxer_t S * S)) :=
  do* (o, q) <- rtp_queue_read (dm_queue dm) ;;
  let dm := set_queue dm q in
  match o with
  | None => Ret (0, (dm, s))
  | Some b =>
      match fuel with
      | O => Crash Diverge
      | Datatypes.S fuel =>
          h_touch (dm_heap dm) (b_addr b) ;;;
          do* (_, c) <- rtp_onreceived (clk fuel) (dm_rtp dm) (b_data b) (b_bytes b) ;;
          let dm := set_session dm c in
          do* (r, (p, s)) <- rtp_payload_decode_input (rtp_onpacket onpkt) (dm_payload dm) s (b_data b) (b_bytes b) ;;
          let dm := set_payload_ctx dm p in
          do dm <- rtp_demuxer_freepkt dm b ;;
          if r <? 0 then Ret (r, (dm, s)) else release_loop fuel clk dm s
      end
  end.

(** [addr] is the address of [data]. *)
Definition rtp_demuxer_input (clk : nat -> Z) (addr : Z) dm s (data : list Z) (bytes : Z)
  : outcome (Z * (rtp_demuxer_t S * S)) :=
  if (bytes <? 12) || (dm_max dm <? bytes) then Ret (- EINVAL, (dm, s))
  else
    do pt <- rd data 1 ;;
    if (pt <? 192) || (223 <? pt) then
      do* (b, dm) <- rtp_demuxer_alloc dm data bytes ;;
      match b with
      | None => Ret (- ENOMEM, (dm, s))
      | Some b =>
          do* (r, q) <- rtp_queue_write (dm_queue dm) b ;;
          do dm <- free_all (set_queue dm q) (newly_freed (dm_queue dm) q) ;;
          if r <=? 0 then
            do dm <- rtp_demuxer_freepkt dm b ;;
            Ret (r, (dm, s))
          else release_loop (Z.to_nat (size q)) clk dm s
      end
    else
      do* (_, c) <- rtp_onreceived_rtcp (clk O) addr (dm_rtp dm) data bytes ;;
      Ret (pt, (set_session dm c, s)).
End Input.

(** ** Reports.  [now]: the clock in this function, in the interval and in the
    report; [rnd] what [drand48] returns. *)
Definition rtp_demuxer_rtcp (now : Z * Z * Z) (rnd : spec_float) dm (buf : list Z) (len : Z)
  : outcome (Z * (list Z * rtp_demuxer_t S)) :=
  let '(clock, t1, t2) := now in
  do interval <- rtp_rtcp_interval t1 rnd (dm_rtp dm) ;;
  if u64 (dm_clock dm + u64 (u64 interval * 1000)) <? clock then
    do* (r, (buf, c)) <- rtp_rtcp_report t2 (dm_rtp dm) buf len ;;
    Ret (r, (buf, set_clock (set_session dm c) clock))
  else Ret (0, (buf, dm)).
End Demuxer.
