(* ===== verification/DemuxerProps.v ===== *)
(** The demultiplexer owns its blocks: whatever arrives, no block is used after
    it was freed and none is freed twice. *)

From Stdlib Require Import String.
From stdpp Require Import gmap.
From S2P Require Import Prelude RtpUtil RtpPacket RtpQueue RtpQueueSpec RtpQueueProps Payload Registry RegistryProps PayloadHelper CDouble RtpMember Rtcp RtcpReport Feedback RtcpProps FeedbackProps RtcpReportProps.
From stdpp Require Import list.
From S2P Require Import Demuxer.
Open Scope Z_scope.

(** ** The queue only adds to what it frees *)
Section Freed.
Context {P : Type} `{RtpPointer P} `{Alloc} `{Build}.
Implicit Types (q : rtp_queue_t P).

Definition frees_more q q' : Prop := exists k, freed q' = freed q ++ k.

Lemma frees_same q q' : freed q' = freed q -> frees_more q q'.
Proof. exists []. by rewrite app_nil_r. Qed.
Lemma frees_trans q1 q2 q3 : frees_more q1 q2 -> frees_more q2 q3 -> frees_more q1 q3.
Proof. intros [k1 E1] [k2 E2]. exists (k1 ++ k2). by rewrite E2, E1, app_assoc. Qed.

Lemma free_bad_freed n i q q' : free_bad n i q = Ret q' -> frees_more q q'.
Proof.
  revert i q. induction n as [|n IH]; intros i q; cbn [free_bad].
  { intros [= <-]. by apply frees_same. }
  intros E. do 2 run_inv. eapply frees_trans; [|by eapply IH]. by eexists.
Qed.

Lemma free_items_freed n i q q' : free_items n i q = Ret q' -> frees_more q q'.
Proof.
  revert i q. induction n as [|n IH]; intros i q; cbn [free_items].
  { intros [= <-]. by apply frees_same. }
  intros E. run_inv. eapply frees_trans; [|by eapply IH]. by eexists.
Qed.

Lemma reset_bad_freed q q' : rtp_queue_reset_bad_items q = Ret q' -> frees_more q q'.
Proof.
  unfold rtp_queue_reset_bad_items. destruct (free_bad _ _ _) as [q1|] eqn:E; [|done].
  intros [= <-]. eapply frees_trans; [by eapply free_bad_freed|by apply frees_same].
Qed.

Lemma reset_freed q q' : rtp_queue_reset q = Ret q' -> frees_more q q'.
Proof.
  unfold rtp_queue_reset. destruct (rtp_queue_reset_bad_items q) as [q1|] eqn:E1; [|done]. cbn [obind].
  destruct (free_items _ _ _) as [q2|] eqn:E2; [|done]. intros [= <-].
  eapply frees_trans; [by eapply reset_bad_freed|].
  eapply frees_trans; [by eapply free_items_freed|by apply frees_same].
Qed.

Lemma insert_freed q position pkt r q' : rtp_queue_insert q position pkt = Ret (r, q') -> freed q' = freed q.
Proof. unfold rtp_queue_insert, rtp_queue_grow. intros. repeat run_inv; by simplify_eq/=. Qed.

Lemma insert_bad_freed n i q q' : insert_bad n i q = Ret q' -> freed q' = freed q.
Proof.
  revert i q. induction n as [|n IH]; intros i q; cbn [insert_bad]; [by intros [= <-]|].
  intros E. do 4 run_inv. etrans; [by eapply IH|by eapply insert_freed].
Qed.

Lemma write_freed q pkt r q' : rtp_queue_write q pkt = Ret (r, q') -> frees_more q q'.
Proof.
  unfold rtp_queue_write, write_probation, write_bad, write_resync, write_park. cbv zeta. intros.
  repeat run_inv;
  repeat match goal with
  | E : rtp_queue_insert _ _ _ = _ |- _ => apply insert_freed in E
  | E : insert_bad _ _ _ = _ |- _ => apply insert_bad_freed in E
  | E : rtp_queue_reset_bad_items _ = _ |- _ => apply reset_bad_freed in E as [? E]
  | E : rtp_queue_reset _ = _ |- _ => apply reset_freed in E as [? E]
  end; simplify_eq/=; unfold frees_more; repeat case_match; simplify_eq/=;
  first [apply frees_same; congruence | match goal with x : list P |- _ => exists x; congruence end].
Qed.
End Freed.

(** ** Ownership of blocks *)
Section Owns.
Context `{RtcpFeedback} `{Alloc} `{Build} `{Fpu} {S : Type}.
Implicit Types (dm : rtp_demuxer_t S) (bs held : list block) (lost : list Z).

Definition spare dm : list Z := option_list (fst <$> dm_ptr dm).

(** What a block holds: a datagram of at most 10 MB that a copy was parsed from. *)
Definition block_ok (b : block) : Prop :=
  0 < b_cap b /\ bytes_ok (b_data b) /\ b_bytes b = zlen (b_data b) /\ b_bytes b <= RTP_PAYLOAD_MAX_SIZE /\
  is_u16 (pseq b).

(** The heap is made of the spare block, the blocks [held] by the queue or by a
    function that runs, and blocks nobody points to any more. *)
Record owns dm held lost : Prop := {
  ow_nodup : NoDup (spare dm ++ map b_addr held ++ lost);
  ow_live : forall a, a ∈ live (dm_heap dm) <-> a ∈ spare dm ++ map b_addr held ++ lost;
  ow_fresh : forall a, a ∈ live (dm_heap dm) -> a < fresh_addr (dm_heap dm);
  ow_cap : match dm_ptr dm with Some (_, cap) => dm_cap dm = cap /\ 0 < cap | None => dm_cap dm = 0 end;
  ow_blocks : Forall block_ok held
}.

Lemma owns_perm dm held held' lost : held ≡ₚ held' -> owns dm held lost -> owns dm held' lost.
Proof.
  intros Hp []. constructor; try done.
  - by rewrite <- Hp.
  - intros a. rewrite ow_live0. by rewrite Hp.
  - by rewrite <- Hp.
Qed.

(** Forgetting a block leaks it. *)
Lemma owns_forget dm held gone lost :
  owns dm (held ++ gone) lost -> owns dm held (map b_addr gone ++ lost).
Proof.
  intros [Hn Hl Hf Hc Hb]. rewrite map_app, <- app_assoc in Hn. apply Forall_app in Hb as [Hb _].
  constructor; try done. intros a. rewrite Hl. by rewrite map_app, <- app_assoc.
Qed.

Lemma owns_submseteq dm held held' lost :
  held' ⊆+ held -> owns dm held lost -> exists lost', owns dm held' (lost' ++ lost).
Proof.
  intros Hs Ho. apply submseteq_Permutation in Hs as [k Hk].
  exists (map b_addr k). apply owns_forget. by eapply owns_perm.
Qed.

(** Everything but the heap and the spare block stays. *)
Definition same_rest dm dm' : Prop :=
  dm_queue dm' = dm_queue dm /\ dm_payload dm' = dm_payload dm /\ dm_rtp dm' = dm_rtp dm /\
  dm_max dm' = dm_max dm /\ dm_clock dm' = dm_clock dm /\ dm_ssrc dm' = dm_ssrc dm.

Lemma same_rest_trans dm1 dm2 dm3 : same_rest dm1 dm2 -> same_rest dm2 dm3 -> same_rest dm1 dm3.
Proof. unfold same_rest. intuition congruence. Qed.

Lemma owns_touch dm b held lost : owns dm (b :: held) lost -> h_touch (dm_heap dm) (b_addr b) = Ret tt.
Proof.
  intros [_ Hl _ _ _]. unfold h_touch. rewrite bool_decide_eq_true_2; [done|].
  apply Hl. rewrite !elem_of_app. right. left. by left.
Qed.

Lemma freepkt_owns dm b held lost :
  owns dm (b :: held) lost ->
  exists dm', rtp_demuxer_freepkt dm b = Ret dm' /\ owns dm' held lost /\ same_rest dm dm'.
Proof.
  intros Ho. unfold rtp_demuxer_freepkt. rewrite (owns_touch _ _ _ _ Ho). cbn [obind].
  pose proof (owns_touch _ _ _ _ Ho) as Ht. destruct Ho as [Hn Hl Hf Hc Hb].
  apply Forall_cons_1 in Hb as [(Hcap & _) Hb]. cbn [map] in *.
  destruct (Z.leb_spec (b_cap b) (dm_cap dm)).
  - unfold c_free. rewrite Ht. cbn [obind]. eexists. split; [done|]. split; [|done].
    assert (Hp : spare dm ++ (b_addr b :: map b_addr held) ++ lost ≡ₚ
                 b_addr b :: spare dm ++ map b_addr held ++ lost) by solve_Permutation.
    rewrite Hp in Hn. apply NoDup_cons in Hn as [Hni Hn].
    constructor; try done; cbn [set_spare dm_heap live fresh_addr spare dm_ptr].
    + intros a. rewrite elem_of_difference, Hl, Hp, elem_of_cons, not_elem_of_singleton.
      split; [by intros [[->|?] ?]|]. intros Ha. split; [by right|]. intros ->. by apply Hni.
    + intros a Ha. apply Hf. by apply elem_of_difference in Ha as [? _].
  - destruct (dm_ptr dm) as [[a cap]|] eqn:Ep.
    + destruct Hc as [-> Hcap']. zif. unfold c_free.
      assert (h_touch (dm_heap dm) a = Ret tt) as ->.
      { unfold h_touch. rewrite bool_decide_eq_true_2; [done|]. apply Hl. unfold spare. rewrite Ep. by left. }
      cbn [obind]. eexists. split; [done|]. split; [|done].
      unfold spare in *. rewrite Ep in *. cbn [option_list fmap option_fmap option_map fst app] in *.
      apply NoDup_cons in Hn as [Hni Hn].
      constructor; try done; cbn [set_spare dm_heap live fresh_addr spare dm_ptr].
      * intros x. rewrite elem_of_difference, Hl.
        change (option_list (Some a) ++ ?l) with (a :: l). rewrite elem_of_cons, not_elem_of_singleton.
        split; [by intros [[->|?] ?]|]. intros Hx. split; [by right|]. by intros ->.
      * intros x Hx. apply Hf. by apply elem_of_difference in Hx as [? _].
    + cbn [obind]. eexists. split; [done|]. split; [|done]. unfold spare in *. rewrite Ep in *.
      constructor; try done.
Qed.

Lemma free_all_owns dm bs held lost :
  owns dm (bs ++ held) lost ->
  exists dm', free_all dm bs = Ret dm' /\ owns dm' held lost /\ same_rest dm dm'.
Proof.
  revert dm. induction bs as [|b bs IH]; intros dm Ho; cbn [free_all].
  { exists dm. split; [done|]. split; [done|]. done. }
  destruct (freepkt_owns dm b (bs ++ held) lost Ho) as (dm1 & -> & Ho1 & Hs1). cbn [obind].
  destruct (IH dm1 Ho1) as (dm2 & -> & Ho2 & Hs2). exists dm2. split; [done|]. split; [done|].
  by eapply same_rest_trans.
Qed.

(** After the copy has room the spare block is there and large enough. *)
Lemma room_owns dm held lost bytes :
  owns dm held lost -> 12 <= bytes ->
  exists ok dm', demuxer_room dm bytes = Ret (ok, dm') /\ owns dm' held lost /\ same_rest dm dm' /\
    (ok = true -> exists a cap, dm_ptr dm' = Some (a, cap) /\ bytes + 116 <= cap) /\
    ((forall n, alloc_ok n = true) -> ok = true).
Proof.
  intros Ho Hb. pose proof Ho as [Hn Hl Hf Hc Hbl]. unfold demuxer_room, SIZEOF_PACKET, SIZEOF_INT.
  destruct (Z.ltb_spec (dm_cap dm) (bytes + 112 + 4)) as [Hlt|Hge].
  2: { exists true, dm. split_and!; try done. intros _.
       destruct (dm_ptr dm) as [[a cap]|]; [|lia]. destruct Hc as [<- _]. exists a, (dm_cap dm). split; [done|lia]. }
  set (r := if 1500 <? bytes + 112 + 4 then bytes + 112 + 4 else 1500).
  assert (Hr : bytes + 116 <= r) by (unfold r; destruct (Z.ltb_spec 1500 (bytes + 112 + 4)); lia). clearbody r.
  unfold h_realloc.
  assert (Et : (match fst <$> dm_ptr dm with Some a => h_touch (dm_heap dm) a | None => Ret tt end) = Ret tt).
  { destruct (dm_ptr dm) as [[a cap]|] eqn:Ep; [|done].
    change (h_touch (dm_heap dm) a = Ret tt). unfold h_touch. rewrite bool_decide_eq_true_2; [done|]. apply Hl. unfold spare. rewrite Ep. by left. }
  rewrite Et. cbn [obind]. destruct (alloc_ok (r + 4)) eqn:Ea; cbn [negb obind].
  2: { exists false, dm. split_and!; try done. intros Hg. by rewrite Hg in Ea. }
  set (σ := mk_heap _ _). set (dm1 := set_spare _ _ _ _). exists true, dm1.
  split; [done|]. split; [|split_and!; try done; by exists (fresh_addr (dm_heap dm)), r].
  assert (Hnew : forall x, x ∈ map b_addr held ++ lost -> x < fresh_addr (dm_heap dm)).
  { intros x Hx. apply Hf, Hl. apply elem_of_app. by right. }
  assert (Hold : forall x, x ∈ live σ <-> x = fresh_addr (dm_heap dm) \/ x ∈ map b_addr held ++ lost).
  { intros x. cbn [σ live]. rewrite elem_of_union, elem_of_singleton. unfold spare in *.
    destruct (dm_ptr dm) as [[a cap]|]; cbn [fmap option_fmap option_map fst] in *.
    - change (option_list (Some a) ++ ?l) with (a :: l) in *. apply NoDup_cons in Hn as [Hni _].
      setoid_rewrite elem_of_cons in Hl. rewrite elem_of_difference, Hl, not_elem_of_singleton.
      split; [by intros [?|[[->|?] ?]]; auto|]. intros [->|Hx]; [by left|]. right.
      split; [by right|]. by intros ->.
    - change (option_list None ++ ?l) with l in *. by rewrite Hl. }
  unfold spare in Hn. apply NoDup_app in Hn as (_ & _ & Hn).
  constructor; try done.
  - unfold spare. cbn [dm1 set_spare dm_ptr fmap option_fmap option_map fst option_list app].
    change (option_list (Some ?a) ++ ?l) with (a :: l).
    apply NoDup_cons. split; [|done]. intros Hx. specialize (Hnew _ Hx). lia.
  - intros x. unfold spare. cbn [dm1 set_spare dm_ptr dm_heap fmap option_fmap option_map fst].
    change (option_list (Some ?a) ++ ?l) with (a :: l). by rewrite Hold, elem_of_cons.
  - intros x Hx. apply Hold in Hx as [->|Hx]; cbn [dm1 set_spare dm_heap σ fresh_addr]; [lia|].
    specialize (Hnew _ Hx). lia.
  - cbn. split; [done|lia].
Qed.

(** A datagram is copied; what is left is to parse the copy. *)
Lemma alloc_unfold dm held lost data bytes :
  owns dm held lost -> 12 <= bytes <= zlen data ->
  exists dm1, owns dm1 held lost /\ same_rest dm dm1 /\
    (rtp_demuxer_alloc dm data bytes = Ret (None, dm1) /\ ~ (forall n, alloc_ok n = true) \/
     exists a cap, dm_ptr dm1 = Some (a, cap) /\
       rtp_demuxer_alloc dm data bytes =
         (let copy := take (Z.to_nat bytes) data in
          do* (r, pkt) <- rtp_packet_deserialize zero_packet copy bytes ;;
          if negb (r =? 0) then Ret (None, dm1)
          else Ret (Some (mk_block a cap bytes pkt copy), set_spare dm1 None 0 (dm_heap dm1)))).
Proof.
  intros Ho Hb. unfold rtp_demuxer_alloc.
  destruct (room_owns dm held lost bytes Ho) as (ok & dm1 & -> & Ho1 & Hs & Hok & Hg); [lia|].
  exists dm1. split; [done|]. split; [done|]. cbn [obind].
  destruct ok; cbn [negb]; [right|left; split; [done|]; intros Ha; by specialize (Hg Ha)].
  destruct (Hok eq_refl) as (a & cap & Ep & Hcap). exists a, cap. split; [done|]. rewrite Ep.
  assert (h_touch (dm_heap dm1) a = Ret tt) as ->.
  { unfold h_touch. rewrite bool_decide_eq_true_2; [done|]. apply (ow_live _ _ _ Ho1). unfold spare.
    rewrite Ep. by left. }
  cbn [obind]. unfold rdn. do 3 zif. cbn [andb obind].
  unfold SIZEOF_INT, SIZEOF_PACKET. zif. done.
Qed.

(** Taking the spare block. *)
Lemma take_spare dm held lost a cap b :
  owns dm held lost -> dm_ptr dm = Some (a, cap) -> b_addr b = a -> block_ok b ->
  owns (set_spare dm None 0 (dm_heap dm)) (b :: held) lost.
Proof.
  intros [] Ep <- Hb. unfold spare in *. rewrite Ep in *.
  constructor; cbn [set_spare dm_ptr dm_heap dm_cap]; try done. by constructor.
Qed.

Lemma parsed_block a cap bytes pkt data :
  0 < cap -> bytes_ok data -> bytes = zlen data -> bytes <= RTP_PAYLOAD_MAX_SIZE ->
  parsed_ok data bytes pkt -> block_ok (mk_block a cap bytes pkt data).
Proof. intros ???? Hp. pose proof (ok_seq _ (po_header _ _ _ Hp)). unfold block_ok. by split_and!. Qed.

(** A datagram becomes a block that a function holds. *)
Lemma alloc_owns dm held lost data bytes :
  owns dm held lost -> bytes_ok data -> 12 <= bytes <= zlen data -> bytes <= RTP_PAYLOAD_MAX_SIZE ->
  post (rtp_demuxer_alloc dm data bytes) (fun '(o, dm') =>
    owns dm' (option_list o ++ held) lost /\ same_rest dm dm').
Proof.
  intros Ho Hd Hb Hm.
  destruct (alloc_unfold dm held lost data bytes Ho Hb) as (dm1 & Ho1 & Hs & [[-> _]|(a & cap & Ep & ->)]);
    [done|]. cbv zeta. set (copy := take (Z.to_nat bytes) data).
  assert (Hz : zlen copy = bytes) by (unfold copy; rewrite zlen_take; lia).
  assert (Hc2 : bytes_ok copy) by by apply Forall_take.
  ostep. eapply post_mono; [apply deserialize_post; [done|lia]|]. intros [r pkt] Hr.
  destruct Hr as [->|[-> Hp]]; cbn [negb Z.eqb Z.opp]; cbv iota; [done|]. ostep. split; [|done].
  cbn [option_list app]. apply (take_spare _ _ _ a cap); [done|done|done|].
  apply parsed_block; try done. pose proof (ow_cap _ _ _ Ho1) as Hc. rewrite Ep in Hc. lia.
Qed.

Lemma alloc_parsed dm held lost data pkt :
  (forall n, alloc_ok n = true) -> owns dm held lost ->
  bytes_ok data -> 12 <= zlen data <= RTP_PAYLOAD_MAX_SIZE ->
  rtp_packet_deserialize zero_packet data (zlen data) = Ret (0, pkt) -> is_u16 (RtpUtil.seq (rtp pkt)) ->
  exists a cap dm1, rtp_demuxer_alloc dm data (zlen data)
      = Ret (Some (mk_block a cap (zlen data) pkt data), dm1) /\
    owns dm1 (mk_block a cap (zlen data) pkt data :: held) lost /\ same_rest dm dm1.
Proof.
  intros Hg Ho Hd Hb Hp Hsq.
  destruct (alloc_unfold dm held lost data (zlen data) Ho) as (dm1 & Ho1 & Hs & [[_ Hn]|(a & cap & Ep & ->)]);
    [lia|done|]. cbv zeta.
  replace (take (Z.to_nat (zlen data)) data) with data
    by (unfold zlen; by rewrite Nat2Z.id, firstn_all).
  rewrite Hp. cbn [obind negb Z.eqb]. eexists a, cap, _. split; [done|]. split; [|done].
  apply (take_spare _ _ _ a cap); [done|done|done|].
  pose proof (ow_cap _ _ _ Ho1) as Hc. rewrite Ep in Hc. unfold block_ok. cbn. split_and!; done || lia.
Qed.
End Owns.

Lemma read_freed {P} `{RtpPointer P} `{Build} (q q' : rtp_queue_t P) o :
  rtp_queue_read q = Ret (o, q') -> freed q' = freed q.
Proof. unfold rtp_queue_read, pop. intros. repeat run_inv; by simplify_eq/=. Qed.

(** ** Runs of the demultiplexer *)
Section Run.
Context `{RtcpFeedback} `{Alloc} `{Build} `{Fpu} `{!FeedbackSafe} {S : Type}.
Hypothesis Halloc : forall n, alloc_ok n = true.
Context (onpkt : option (S -> list Z -> Z -> Z -> Z * S)).
Implicit Types (dm : rtp_demuxer_t S) (l bad : list block).

(** The queue is well formed and owns its blocks; the session and the decoder are
    well formed. *)
Record demux_state dm l bad lost : Prop := {
  ds_queue : queue_ok (dm_queue dm) l bad;
  ds_rate : threshold (dm_queue dm) = 0 \/ u64 (frequency (dm_queue dm)) <> 0;
  ds_owns : owns dm (l ++ bad) lost;
  ds_session : session_ok (dm_rtp dm);
  ds_payload : ctx_ok RTP_PAYLOAD_MAX_SIZE (dm_payload dm);
  ds_max : dm_max dm = RTP_PAYLOAD_MAX_SIZE
}.

Definition demux_ok dm : Prop := exists l bad lost, demux_state dm l bad lost.

Lemma owns_same_heap dm dm' held lost :
  dm_ptr dm' = dm_ptr dm -> dm_cap dm' = dm_cap dm -> dm_heap dm' = dm_heap dm ->
  owns dm held lost -> owns dm' held lost.
Proof. intros Ep Ec Eh []. constructor; unfold spare in *; by rewrite ?Ep, ?Ec, ?Eh. Qed.

(** The block of a packet, released by the queue, seen by session and decoder, freed. *)
Lemma release_loop_ok fuel clk dm s l bad lost :
  demux_state dm l bad lost -> (length l <= fuel)%nat ->
  post (release_loop onpkt fuel clk dm s) (fun '(_, (dm', _)) => demux_ok dm').
Proof.
  revert dm s l. induction fuel as [|fuel IH]; intros dm s l Hd Hl; cbn [release_loop];
    pose proof Hd as [Hq Hr Ho Hs Hp Hm];
    destruct (read_any (dm_queue dm) l bad Hq Hr) as (o & q' & l' & E & Hq' & Et & Ef & Hh);
    pose proof (read_freed _ _ _ E) as Efr; rewrite E; cbn [obind];
    unfold holdings in Hh; rewrite Efr, !app_assoc in Hh; apply app_inv_tail in Hh;
    apply app_inv_tail in Hh; subst l;
    (destruct o as [b|]; cbn [option_list app] in *;
     [|exists l', bad, lost; constructor; try done; [cbn; by rewrite Et, Ef|];
       eapply owns_same_heap; [..|exact Ho]; done]).
  { simpl in Hl. lia. }
  assert (Ho' : owns (set_queue dm q') (b :: l' ++ bad) lost) by (by eapply owns_same_heap; [..|exact Ho]).
  rewrite (owns_touch _ _ _ _ Ho'). cbn [obind].
  pose proof (Forall_cons_1 _ _ _ (ow_blocks _ _ _ Ho')) as [(_ & Hby & Hlen & Hmax & _) _]. ostep.
  eapply post_mono; [apply input_rtp_ok; [done|done|done|lia]|]. intros [r c] Hc. ostep.
  eapply post_mono; [apply (decode_input_ok RTP_PAYLOAD_MAX_SIZE); [done|done|lia|done]|]. intros [r2 [p s2]] Hpl.
  ostep. set (dm1 := set_payload_ctx _ _).
  assert (Ho1 : owns dm1 (b :: l' ++ bad) lost) by (by eapply owns_same_heap; [..|exact Ho']).
  destruct (freepkt_owns dm1 b (l' ++ bad) lost Ho1) as (dm2 & -> & Ho2 & E1 & E2 & E3 & E4 & _).
  cbn [post].
  assert (Hd2 : demux_state dm2 l' bad lost).
  { constructor; rewrite ?E1, ?E2, ?E3, ?E4; try done. cbn. by rewrite Et, Ef. }
  apply post_if; intros _; [by exists l', bad, lost|]. apply (IH dm2 s2 l'); [done|]. simpl in Hl. lia.
Qed.

(** Datagrams are as long as they say; for RTCP see [SessionProps.event_ok]. *)
Definition input_ok (data : list Z) (bytes : Z) : Prop :=
  bytes_ok data /\ bytes <= zlen data /\
  (12 <= bytes -> 192 <= default 0 (data !! 1%nat) <= 223 ->
   bytes + 4 <= zlen data /\ benign (Z.to_nat bytes) data bytes = true).

Lemma input_demux clk addr dm s data bytes :
  demux_ok dm -> input_ok data bytes ->
  post (rtp_demuxer_input onpkt clk addr dm s data bytes) (fun '(_, (dm', _)) => demux_ok dm').
Proof.
  intros Hd (Hb & Hl & Hrtcp). unfold rtp_demuxer_input.
  apply post_if; intros Hc; [done|]. apply orb_false_iff in Hc as [Hc1 Hc2]. apply Z.ltb_ge in Hc1, Hc2.
  ostep. apply post_rd; [lia|]. intros pt Hpt. change (Z.to_nat 1) with 1%nat in Hpt.
  destruct Hd as (l & bad & lost & Hd). pose proof Hd as [Hq Hr Ho Hs Hp Hm]. rewrite Hm in Hc2.
  apply post_if; intros Ht.
  2: { apply orb_false_iff in Ht as [Ht1 Ht2]. apply Z.ltb_ge in Ht1, Ht2. rewrite Hpt in Hrtcp.
       destruct (Hrtcp Hc1 (conj Ht1 Ht2)) as [Hl4 Hbg]. ostep.
       eapply post_mono; [eapply input_rtcp_ok; [done|done|done|lia|done|done]|]. intros [r c] Hs'. ostep.
       exists l, bad, lost. constructor; try done. by eapply owns_same_heap; [..|exact Ho]. }
  ostep. eapply post_mono; [by apply (alloc_owns dm (l ++ bad) lost)|].
  intros [[b|] dm1] (Ho1 & Hsr); destruct Hsr as (E1 & E2 & E3 & E4 & _); cbn [option_list app] in Ho1.
  2: { ostep. exists l, bad, lost. constructor; by rewrite ?E1, ?E2, ?E3, ?E4. }
  rewrite E1. destruct (write_any (dm_queue dm) l bad b Hq) as (r & q' & Ew & l' & bad' & Hq' & Hh).
  destruct (write_params _ _ _ _ Ew) as [Et Efq]. destruct (write_freed _ _ _ _ Ew) as [k Ek].
  rewrite Ew. cbn [obind]. unfold newly_freed. rewrite Ek, drop_app_length.
  set (dm2 := set_queue dm1 q').
  assert (Ho2 : owns dm2 (b :: l ++ bad) lost) by (by eapply owns_same_heap; [..|exact Ho1]).
  assert (Hcancel : forall xs, (l' ++ bad') ++ freed q' ⊆+ xs ++ l ++ bad ++ freed (dm_queue dm) ->
            k ++ (l' ++ bad') ⊆+ xs ++ l ++ bad).
  { intros xs Hx. rewrite Ek in Hx. apply (submseteq_app_inv_r _ _ (freed (dm_queue dm))).
    rewrite <- !app_assoc in *. etrans; [|exact Hx]. apply Permutation_submseteq. solve_Permutation. }
  unfold holdings in Hh. rewrite app_assoc in Hh.
  destruct Hh as [[-> Hh]|[Hr0 Hh]].
  - apply (Hcancel [b]) in Hh. destruct (owns_submseteq _ _ _ _ Hh Ho2) as [lost' Ho3].
    destruct (free_all_owns _ _ _ _ Ho3) as (dm3 & -> & Ho4 & F1 & F2 & F3 & F4 & _).
    cbn [obind]. zif. apply (release_loop_ok _ _ _ _ l' bad' (lost' ++ lost)).
    + constructor; rewrite ?F1, ?F2, ?F3, ?F4; cbn; rewrite ?E2, ?E3, ?E4, ?Et, ?Efq; done.
    + pose proof (proj1 (qo_size _ _ _ Hq')) as Hsz. unfold zlen in Hsz. lia.
  - apply (Hcancel []) in Hh. cbn [app] in Hh.
    assert (Hh2 : k ++ (b :: l' ++ bad') ⊆+ b :: l ++ bad).
    { rewrite <- Permutation_middle. by constructor. }
    destruct (owns_submseteq _ _ _ _ Hh2 Ho2) as [lost' Ho3].
    destruct (free_all_owns _ _ _ _ Ho3) as (dm3 & -> & Ho4 & F1 & F2 & F3 & F4 & _).
    cbn [obind]. zif. destruct (freepkt_owns _ _ _ _ Ho4) as (dm4 & -> & Ho5 & G1 & G2 & G3 & G4 & _).
    cbn [obind post]. exists l', bad', (lost' ++ lost).
    constructor; rewrite ?G1, ?G2, ?G3, ?G4, ?F1, ?F2, ?F3, ?F4; cbn; rewrite ?E2, ?E3, ?E4, ?Et, ?Efq; done.
Qed.

Lemma report_demux now rnd dm buf len :
  demux_ok dm -> 780 <= len <= zlen buf -> len < 2 ^ 31 ->
  post (rtp_demuxer_rtcp now rnd dm buf len) (fun '(_, (_, dm')) => demux_ok dm').
Proof.
  intros (l & bad & lost & Hd) Hb Hl. pose proof Hd as [Hq Hr Ho (ms & ss & Hs) Hp Hm].
  unfold rtp_demuxer_rtcp. destruct now as [[clock t1] t2]. ostep.
  unfold rtp_rtcp_interval. ostep. eapply load_member; [by eapply self_member|]. intros me _ _. ostep.
  apply post_if; intros _; [|by exists l, bad, lost]. ostep.
  eapply post_mono; [apply report_ok; [by exists ms, ss|done|done]|]. intros [r [buf' c]] (_ & _ & Hc).
  ostep. exists l, bad, lost. constructor; try done. by eapply owns_same_heap; [..|exact Ho].
Qed.

Lemma destroy_demux dm l bad lost :
  demux_state dm l bad lost ->
  post (rtp_demuxer_destroy dm) (fun '(σ, rest) => cells σ = ∅ /\ forall a, a ∈ rest <-> a ∈ lost).
Proof.
  intros [Hq Hr Ho Hs Hp Hm]. unfold rtp_demuxer_destroy. ostep.
  eapply post_mono; [by apply destroy_session|]. intros σ Hσ.
  rewrite (destroy_any _ _ _ Hq). cbn [obind]. rewrite drop_app_length.
  assert (Ho1 : owns dm ((bad ++ l) ++ []) lost).
  { eapply owns_perm; [|exact Ho]. rewrite app_nil_r. apply Permutation_app_comm. }
  destruct (free_all_owns _ _ _ _ Ho1) as (dm1 & -> & [Hn Hl Hf Hc _] & _). cbn [obind map app] in *.
  destruct (dm_ptr dm1) as [[a cap]|] eqn:Ep; unfold spare in *; rewrite Ep in *.
  - change (option_list (fst <$> Some (a, cap)) ++ lost) with (a :: lost) in *.
    apply NoDup_cons in Hn as [Hni _]. unfold c_free, h_touch.
    rewrite bool_decide_eq_true_2 by (apply Hl; by left). cbn [obind post live]. split; [done|].
    intros x. rewrite elem_of_difference, Hl, elem_of_cons, not_elem_of_singleton.
    split; [by intros [[->|?] ?]|]. intros Hx. split; [by right|]. by intros ->.
  - cbn [obind post]. by split.
Qed.

(** The format the client asks for keeps to the datagrams. *)
Definition safe_choice (payload : Z) (encoding : option string) : Prop :=
  forall dg, rtp_payload_find payload encoding = Ret (Some dg) ->
             safe_format RTP_PAYLOAD_MAX_SIZE (decoder dg) = true.

Lemma create_demux now rnd jitter frequency payload encoding :
  safe_choice payload encoding -> jitter = 0 \/ u64 frequency <> 0 ->
  post (rtp_demuxer_create now rnd jitter frequency payload encoding)
    (fun o => match o with Some dm => demux_state dm [] [] [] | None => True end).
Proof.
  intros Hsafe Hf. unfold rtp_demuxer_create. apply post_if; intros _; [done|].
  destruct now as [[t0 t1] t2]. ostep.
  apply (post_mono _ (fun o => match o with Some p => ctx_ok RTP_PAYLOAD_MAX_SIZE p | None => True end)).
  { destruct (rtp_payload_decode_create payload encoding) as [[p|]|c] eqn:Ep; cbn [post]; [|done|].
    - by eapply (decode_create_ok RTP_PAYLOAD_MAX_SIZE).
    - unfold rtp_payload_decode_create in Ep. destruct (negb _); [done|].
      unfold rtp_payload_find, c_assert in Ep. destruct (_ || NDEBUG) eqn:En; [done|].
      injection Ep as <-. by apply orb_false_iff in En as [_ ->]. }
  intros p Hp. ostep. eapply post_mono; [by apply create_session|]. intros [c|] Hc; [|done]. destruct Hc as [Hc _].
  rewrite Halloc. destruct (create_spec (P:=block) jitter frequency) as (q & -> & Hm & Et & Ef). cbn [obind].
  destruct p as [p|]; [|ostep; eapply post_mono; [by apply destroy_session|done]]. ostep.
  constructor; try done.
  - apply (rep_ok _ _ Hm).
  - cbn. by rewrite Et, Ef.
  - constructor; try done; cbn.
    + constructor.
    + intros a. by rewrite elem_of_empty, elem_of_nil.
Qed.

(** The client feeds datagrams and asks for reports. *)
Inductive demux_event :=
| DInput (clk : nat -> Z) (addr : Z) (data : list Z) (bytes : Z)
| DReport (now : Z * Z * Z) (rnd : spec_float) (buf : list Z) (len : Z).

Definition demux_event_ok (e : demux_event) : Prop :=
  match e with
  | DInput _ _ data bytes => input_ok data bytes
  | DReport _ _ buf len => 780 <= len <= zlen buf /\ len < 2 ^ 31
  end.

Definition demux_step (e : demux_event) dm (s : S) : outcome (rtp_demuxer_t S * S) :=
  match e with
  | DInput clk addr data bytes => do* (_, st) <- rtp_demuxer_input onpkt clk addr dm s data bytes ;; Ret st
  | DReport now rnd buf len => do* (_, (_, dm)) <- rtp_demuxer_rtcp now rnd dm buf len ;; Ret (dm, s)
  end.

Fixpoint demux_run (es : list demux_event) dm (s : S) : outcome (rtp_demuxer_t S * S) :=
  match es with
  | [] => Ret (dm, s)
  | e :: es => do* (dm, s) <- demux_step e dm s ;; demux_run es dm s
  end.

Lemma run_demux es dm s :
  demux_ok dm -> Forall demux_event_ok es -> post (demux_run es dm s) (fun '(dm', _) => demux_ok dm').
Proof.
  intros Hd He. revert dm s Hd. induction He as [|e es He _ IH]; intros dm s Hd; cbn [demux_run]; [done|].
  ostep. apply (post_mono _ (fun '(dm', _) => demux_ok dm')).
  - destruct e as [clk addr data bytes|now rnd buf len]; cbn [demux_step demux_event_ok] in *; ostep.
    + eapply post_mono; [by apply input_demux|]. by intros [r [dm' s']].
    + destruct He. eapply post_mono; [by apply report_demux|]. by intros [r [buf' dm']].
  - intros [dm' s'] Hd'. by apply IH.
Qed.

End Run.

(** ** A concrete run: packets out of order, one twice, one that is no RTP, RTCP,
    a report *)
Definition datagram (sq : Z) : list Z := [128; 96] ++ be16 sq ++ be32 9 ++ be32 5 ++ [65; 1; 2].

Definition sample_events : list demux_event :=
  [DInput (fun _ => 1) 0 (datagram 65535) 15; DInput (fun _ => 2) 0 (datagram 1) 15;
   DInput (fun _ => 3) 0 (datagram 1) 15; DInput (fun _ => 4) 0 (datagram 0) 15;
   DInput (fun _ => 5) 0 (replicate 20 7) 20; DInput (fun _ => 5) 0 [128] 1;
   DInput (fun _ => 6) 0 ([129; 203; 0; 1] ++ be32 5 ++ [129; 203; 0; 1] ++ be32 5 ++ be32 0) 16;
   DReport (10, 11, 12) d_zero (replicate 800 0) 800].

Lemma sample_events_ok :
  Forall (@demux_event_ok (@rtcp_formats always_alloc release_build) release_build
            (@rtcp_formats_safe always_alloc release_build)) sample_events.
Proof.
  unfold sample_events. repeat constructor; try (vm_compute; intuition discriminate).
  all: exfalso; match goal with H : _ <= _ <= 223 |- _ =>
    destruct H as [Ha Hb]; vm_compute in Ha, Hb; by first [apply Ha | apply Hb] end.
Qed.

