(* ===== verification/EndToEnd.v ===== *)
(** Sender and receiver together: what the payload packer emits, the
    demultiplexer delivers. *)

From Stdlib Require Import String.
From stdpp Require Import gmap.
From S2P Require Import Prelude RtpUtil RtpPacket RtpQueue RtpQueueSpec RtpQueueProps AnnexB AnnexBProps Payload PayloadSpec H265 H265Props PayloadHelper Registry RegistryProps CDouble RtpMember Rtcp Feedback RtcpProps RtcpReport Demuxer DemuxerProps.

Lemma read_params {P} `{RtpPointer P} `{Build} (q q' : rtp_queue_t P) o :
  rtp_queue_read q = Ret (o, q') -> same_params q q'.
Proof. unfold rtp_queue_read, pop. intros. repeat run_inv; by simplify_eq/=. Qed.

(** ** A datagram in order through the demultiplexer *)
Section InOrder.
Context `{RtcpFeedback} `{Alloc} `{Build} `{Fpu} {S : Type}.
Hypothesis Halloc : forall n, alloc_ok n = true.
Context (onpkt : option (S -> list Z -> Z -> Z -> Z * S)).
Implicit Types (dm : rtp_demuxer_t S).

(** Nothing is queued, datagram [sq] is expected, and every block that was ever
    allocated, the spare one apart, is free. *)
Record in_step dm (sq : Z) (ctx : decode_ctx S) : Prop := {
  is_queue : exists m, represents (dm_queue dm) m /\ idle m sq;
  is_rate : u64 (frequency (dm_queue dm)) <> 0;
  is_owns : owns dm [] [];
  is_session : session_ok (dm_rtp dm);
  is_payload : dm_payload dm = ctx;
  is_max : dm_max dm = RTP_PAYLOAD_MAX_SIZE
}.

Lemma idle_write_freed (m : model block) sq b :
  idle m sq -> pseq b = u16 sq -> m_freed (snd (spec_write m b)) = m_freed m.
Proof.
  intros (El & Eb & Hm) Hs. unfold spec_write, RTP_DROPOUT. destruct (m_new m); [done|].
  destruct Hm as [|[Hf Hl]]; [done|]. rewrite Hl, Hs.
  replace (u16 (u16 sq - u16 (sq - 1))) with 1 by (unfold u16; lia).
  cbn. by rewrite Eb, app_nil_r.
Qed.

(** A parsed datagram that is not RTCP is queued, released at once, seen by the
    session, decoded, and its block freed. *)
Lemma input_in_step clk addr dm s sq ctx data pkt r ctx' s' :
  in_step dm sq ctx -> bytes_ok data -> 12 <= zlen data <= RTP_PAYLOAD_MAX_SIZE ->
  default 0 (data !! 1%nat) < 192 \/ 223 < default 0 (data !! 1%nat) ->
  rtp_packet_deserialize zero_packet data (zlen data) = Ret (0, pkt) ->
  RtpUtil.seq (rtp pkt) = u16 sq ->
  rtp_payload_decode_input (rtp_onpacket onpkt) ctx s data (zlen data) = Ret (r, (ctx', s')) -> 0 <= r ->
  post (rtp_demuxer_input onpkt clk addr dm s data (zlen data))
    (fun '(code, (dm', s1)) => code = 0 /\ s1 = s' /\ in_step dm' (sq + 1) ctx').
Proof.
  intros [(m & Hrep & Hidle) Hrate Ho Hs Hp Hm] Hd Hl Hpt Hdes Hsq Hdec Hr. unfold rtp_demuxer_input.
  rewrite Hm. do 2 zif. cbn [orb]. ostep. apply post_rd; [lia|]. intros pt Ept.
  change (Z.to_nat 1) with 1%nat in Ept. rewrite Ept in Hpt. cbn [default] in Hpt.
  rewrite (proj2 (orb_true_iff _ _)) by (rewrite !Z.ltb_lt; done).
  destruct (alloc_parsed dm [] [] data pkt Halloc Ho Hd Hl Hdes) as (a & cap & dm1 & -> & Ho1 & E1 & E2 & E3 & E4 & _).
  { rewrite Hsq. unfold is_u16, u16. lia. }
  cbn [obind]. set (b := mk_block a cap (zlen data) pkt data) in *.
  assert (Eb : pseq b = u16 sq) by done. rewrite E1.
  destruct (idle_step m sq b (threshold (dm_queue dm)) (frequency (dm_queue dm)) Hidle Eb)
    as (m1 & m2 & Ew & El & Er & Hidle2).
  destruct (write_refines (dm_queue dm) m b Hrep) as (q1 & Eq1 & Hrep1).
  { rewrite Eb. unfold is_u16, u16. lia. }
  { destruct Hidle as (El0 & _). split; [|done]. rewrite (proj1 (qo_size _ _ _ (rep_ok _ _ Hrep))), El0.
    unfold MAX_PACKET. rewrite zlen_nil. lia. }
  { destruct Hidle as (-> & _). intros i j x y _ Hx. by rewrite lookup_nil in Hx. }
  destruct (write_params _ _ _ _ Eq1) as [Et1 Ef1].
  pose proof (idle_write_freed m sq b Hidle Eb) as Efm. rewrite Ew in Eq1, Hrep1, Efm. cbn [fst snd] in *.
  destruct (read_refines q1 m1 Hrep1) as (q2 & Eq2 & Hrep2); [by rewrite Ef1|].
  rewrite Et1, Ef1, Er in Eq2, Hrep2. cbn [fst snd] in Eq2, Hrep2.
  rewrite Eq1. cbn [obind]. unfold newly_freed.
  rewrite (rep_freed _ _ Hrep1), Efm, <- (rep_freed _ _ Hrep), drop_all. cbn [free_all obind].
  change (1 <=? 0) with false. cbv iota.
  rewrite (proj1 (qo_size _ _ _ (rep_ok _ _ Hrep1))), El. change (Z.to_nat (zlen [b])) with 1%nat.
  cbn [release_loop set_queue dm_queue]. rewrite Eq2. cbn [obind].
  set (dm2 := set_queue _ q2).
  assert (Ho2 : owns dm2 [b] []) by (by eapply owns_same_heap; [..|exact Ho1]).
  rewrite (owns_touch _ _ _ _ Ho2). cbn [obind b_data b_bytes b]. ostep.
  assert (Hs2 : session_ok (dm_rtp dm2)) by (change (session_ok (dm_rtp dm1)); by rewrite E3).
  eapply post_mono; [apply input_rtp_ok; [done|done|done|lia]|]. intros [r0 c] Hc.
  change (dm_payload (set_session dm2 c)) with (dm_payload dm1). rewrite E2, Hp, Hdec. cbn [obind].
  set (dm3 := set_payload_ctx _ _).
  assert (Ho3 : owns dm3 [b] []) by (by eapply owns_same_heap; [..|exact Ho2]).
  destruct (freepkt_owns dm3 b [] [] Ho3) as (dm4 & -> & Ho4 & F1 & F2 & F3 & F4 & _). cbn [obind]. zif.
  rewrite F1. change (dm_queue dm3) with q2.
  destruct (read_params _ _ _ Eq2) as [Et2 Ef2].
  destruct (read_refines q2 m2 Hrep2) as (q3 & Eq3 & Hrep3); [by rewrite Ef2, Ef1|].
  assert (En : spec_read (threshold q2) (frequency q2) m2 = (None, m2)).
  { unfold spec_read. by rewrite (proj1 Hidle2). }
  rewrite En in Eq3, Hrep3. cbn [fst snd] in *. rewrite Eq3. cbn [obind post].
  destruct (read_params _ _ _ Eq3) as [Et3 Ef3].
  split; [done|]. split; [done|]. constructor.
  - by exists m2.
  - cbn. by rewrite Ef3, Ef2, Ef1.
  - by eapply owns_same_heap; [..|exact Ho4].
  - change (session_ok (dm_rtp dm4)). by rewrite F3.
  - change (dm_payload dm4 = ctx'). by rewrite F2.
  - change (dm_max dm4 = RTP_PAYLOAD_MAX_SIZE). rewrite F4. change (dm_max dm1 = RTP_PAYLOAD_MAX_SIZE). by rewrite E4.
Qed.
End InOrder.

(** ** Datagrams the packer emits *)
Section Datagrams.
Implicit Types hd : rtp_header_t.

(** What [fragments] and [nal_payloads] leave of the units: bytes, and markers of one bit. *)
Definition unit_bytes (mp : Z * list Z) : Prop := 0 <= fst mp < 2 /\ bytes_ok (snd mp).

Lemma fragments_bytes fuel hdr c first ty mark data :
  bytes_ok hdr -> 0 <= ty < 64 -> 0 <= mark < 2 -> bytes_ok data ->
  Forall unit_bytes (fragments fuel hdr c first ty mark data).
Proof.
  intros Hh Hty Hm. revert first data. induction fuel as [|fuel IH]; intros first data Hd; [constructor|].
  cbn [fragments]. destruct (zlen data <=? c).
  - apply Forall_singleton. split; [done|]. repeat apply Forall_app_2; [done| |done].
    apply Forall_singleton. unfold is_byte. destruct first; lia.
  - constructor; [|apply IH; by apply Forall_drop]. split; [done|].
    repeat apply Forall_app_2; [done| |by apply Forall_take].
    apply Forall_singleton. unfold is_byte. destruct first; lia.
Qed.

Lemma au_payloads_bytes sz nals :
  Forall (fun u => bytes_ok u /\ 3 <= zlen u) nals -> Forall unit_bytes (PackSpec.au_payloads sz nals).
Proof.
  induction nals as [|nal nals IH]; intros Hn; [constructor|].
  apply Forall_cons_1 in Hn as [[Hb Hl] Hn]. rewrite PackSpec.h265_au_payloads_cons.
  apply Forall_app. split; [|by apply IH]. unfold PackSpec.nal_payloads. cbv zeta.
  set (mark := match nals with [] => 1 | _ => 0 end).
  assert (Hmark : 0 <= mark < 2) by (unfold mark; case_match; lia).
  destruct (_ <=? sz).
  { apply Forall_singleton. split; [cbn; destruct (_ <? 32); lia|done]. }
  destruct nal as [|b0 [|b1 rest]]; try (unfold zlen in Hl; simpl in Hl; lia). cbn [PackSpec.fu_hdr head default].
  apply Forall_cons_1 in Hb as [Hb0 Hb]. apply Forall_cons_1 in Hb as [Hb1 Hb].
  apply fragments_bytes; [|cbn; pose proof (PackSpec.h265_type_range b0); lia|done|by apply Forall_drop, Forall_cons, Forall_cons].
  constructor; [|by constructor].
  assert (E : (0 <=? Z.lor (Z.land b0 129) 98) && (Z.lor (Z.land b0 129) 98 <? 256) = true).
  { revert b0 Hb0 Hl. intros b0 Hb0 _. revert b0 Hb0. apply byte_cases. by vm_compute. }
  apply andb_prop in E as [E1 E2]. unfold is_byte. lia.
Qed.

Lemma video_bytes hd m pl :
  plain hd -> packet_bytes (video_packet hd m pl) = rtp_header_bytes (with_m hd m) ++ pl.
Proof.
  intros []. unfold packet_bytes, packet_header_bytes, csrc_bytes, extension_bytes, payload_bytes.
  cbn [video_packet rtp with_m cc hx csrc payload payloadlen]. rewrite pl_x, pl_cc. cbn [Z.eqb].
  change (Z.to_nat 0) with 0%nat. cbn [take flat_map app]. rewrite app_nil_r.
  unfold zlen. by rewrite Nat2Z.id, firstn_all.
Qed.

(** The second byte of a datagram of a dynamic payload type is not that of RTCP. *)
Lemma video_not_rtcp hd m pl :
  plain hd -> 0 <= m < 2 -> 96 <= pt hd ->
  let b := default 0 (packet_bytes (video_packet hd m pl) !! 1%nat) in b < 192 \/ 223 < b.
Proof.
  intros Hh Hm Hpt. rewrite video_bytes by done. cbn [rtp_header_bytes app lookup list_lookup default id with_m hm RtpUtil.pt].
  pose proof (ok_pt _ (pl_header _ Hh)) as Hp.
  rewrite Z.shiftl_mul_pow2, (lor_add (m * 2 ^ 7) _ 7) by lia. unfold u8.
  assert (m = 0 \/ m = 1) as [-> | ->] by lia; lia.
Qed.

Lemma video_bytes_ok hd m pl : plain hd -> bytes_ok pl -> bytes_ok (packet_bytes (video_packet hd m pl)).
Proof.
  intros Hh Hb. rewrite video_bytes by done. apply Forall_app_2; [|done].
  unfold rtp_header_bytes. repeat apply Forall_app_2; try apply bytes_ok_be32.
  repeat constructor; apply is_byte_u8.
Qed.
End Datagrams.

(** ** Pictures from encoder to client *)
Record picture := mk_picture {
  pc_lead : nat;
  pc_first : list Z;
  pc_rest : list (nat * list Z);
  pc_tail : nat;
  pc_ts : Z
}.

Definition picture_bytes (p : picture) : list Z := access_unit (pc_lead p) (pc_first p) (pc_rest p) (pc_tail p).
Definition nals_of (p : picture) : list (list Z) := pc_first p :: map snd (pc_rest p).

Record picture_ok (p : picture) : Prop := {
  pco_lead : (3 <= pc_lead p)%nat;
  pco_first : unit_ok (pc_first p);
  pco_rest : Forall (fun '(k, v) => (2 <= k)%nat /\ unit_ok v) (pc_rest p);
  pco_fits : Forall unit_fits (nals_of p);
  pco_ts : is_u32 (pc_ts p)
}.

(** What the client of the receiver is to get. *)
Definition pictures_out (ps : list picture) : list delivery :=
  flat_map (fun p => map (fun nal => (H265.start_code ++ nal, pc_ts p, 0)) (nals_of p)) ps.

(** The restreamer: one call of the packer per picture. *)
Fixpoint send `{Build} (ps : list picture) (pk : rtp_packer) (log : list delivery)
  : outcome (Z * (rtp_packer * list delivery)) :=
  match ps with
  | [] => Ret (0, (pk, log))
  | p :: ps =>
      do* (r, (pk, log)) <- H265.Pack.rtp_h265_pack_input log_handler pk log (picture_bytes p)
                              (zlen (picture_bytes p)) (pc_ts p) ;;
      if r =? 0 then send ps pk log else Ret (r, (pk, log))
  end.

(** ** Clients
    A client that accepts everything changes its state by [g].  What it sees does not
    depend on it: the unpacker runs alike for every client. *)
Definition client {S} (g : S -> delivery -> S) : option (S -> list Z -> Z -> Z -> Z * S) :=
  Some (fun s data ts flags => (0, g s (data, ts, flags))).

Section Clients.
Context `{Alloc} `{Build} {S : Type} (g : S -> delivery -> S) (s0 : S).
Implicit Types u : H265.Unpack.rtp_decode_h265_t.

Definition alike (m : outcome (Z * (H265.Unpack.rtp_decode_h265_t * list delivery)))
    (m' : outcome (Z * (H265.Unpack.rtp_decode_h265_t * S))) : Prop :=
  match m, m' with
  | Ret (r, (u, log)), Ret (r', (u', s)) => r' = r /\ u' = u /\ s = fold_left g log s0
  | Crash c, Crash c' => c' = c
  | _, _ => False
  end.

#[local] Abbreviation h := log_handler.
#[local] Abbreviation h' := (rtp_onpacket (client g)).
#[local] Abbreviation after log := (fold_left g log s0).

Lemma alike_bind {A} (m : outcome A) k k' :
  (forall a, alike (k a) (k' a)) -> alike (obind m k) (obind m k').
Proof. destruct m; cbn; [auto|done]. Qed.

Lemma deliver_alike u log data ts :
  H265.Unpack.deliver h' u (after log) data ts =
    (fst (H265.Unpack.deliver h u log data ts),
     (fst (snd (H265.Unpack.deliver h u log data ts)), after (snd (snd (H265.Unpack.deliver h u log data ts))))).
Proof. unfold H265.Unpack.deliver. cbn. by rewrite fold_left_app. Qed.

Ltac alike_step :=
  first
    [ done
    | apply alike_bind; intros
    | progress rewrite ?deliver_alike
    | match goal with
      | |- context [H265.Unpack.deliver h ?u ?l ?d ?t] =>
          destruct (H265.Unpack.deliver h u l d t) as [? [? ?]]; cbn [fst snd]
      | |- alike (if ?b then _ else _) _ => destruct b
      | |- alike (let '(_, _) := ?p in _) _ => destruct p
      end ].

Lemma ap_loop_alike fuel u log p bytes n ts r :
  alike (H265.Unpack.ap_loop h fuel u log p bytes n ts r) (H265.Unpack.ap_loop h' fuel u (after log) p bytes n ts r).
Proof.
  revert u log p bytes n r. induction fuel as [|fuel IH]; intros; cbn [H265.Unpack.ap_loop]; repeat alike_step.
Qed.

Lemma fu_append_alike u log p bytes n ts b :
  alike (H265.Unpack.fu_append h u log p bytes n ts b) (H265.Unpack.fu_append h' u (after log) p bytes n ts b).
Proof. unfold H265.Unpack.fu_append. repeat alike_step. Qed.

Lemma unpack_payload_alike u log p len ts :
  alike (H265.Unpack.unpack_payload h u log p len ts) (H265.Unpack.unpack_payload h' u (after log) p len ts).
Proof.
  unfold H265.Unpack.unpack_payload, H265.Unpack.rtp_h265_unpack_ap, H265.Unpack.rtp_h265_unpack_fu.
  repeat first [apply ap_loop_alike | apply fu_append_alike | alike_step].
Qed.

Lemma unpack_input_alike u log packet bytes :
  alike (H265.Unpack.rtp_h265_unpack_input h u log packet bytes)
    (H265.Unpack.rtp_h265_unpack_input h' u (after log) packet bytes).
Proof.
  unfold H265.Unpack.rtp_h265_unpack_input. apply alike_bind. intros [r pkt].
  repeat first [apply unpack_payload_alike | alike_step].
Qed.

(** Whatever the log was, the client is told what is added to it. *)
Lemma recv_alike u log ds u' log' :
  UnpackSpec.recv h u log ds = Ret (1, (u', log')) ->
  UnpackSpec.recv h' u (after log) ds = Ret (1, (u', after log')).
Proof.
  revert u log. induction ds as [|[[bytes ?] ?] ds IH]; intros u log; cbn [UnpackSpec.recv].
  { by intros [= -> ->]. }
  pose proof (unpack_input_alike u log bytes (zlen bytes)) as Ha.
  destruct (H265.Unpack.rtp_h265_unpack_input h _ _ _ _) as [[r [u1 l1]]|]; [|done].
  destruct (H265.Unpack.rtp_h265_unpack_input h' _ _ _ _) as [[r' [u2 s2]]|]; [|done].
  cbn in Ha. destruct Ha as (-> & -> & ->). cbn [obind fst snd]. destruct (Z.eqb_spec r 1); [apply IH|].
  intros [= -> _ _]. done.
Qed.
End Clients.

Section EndToEnd.
Context `{RtcpFeedback} `{Alloc} `{Build} `{Fpu} {S : Type} (g : S -> delivery -> S).
Hypothesis Halloc : forall n, alloc_ok n = true.
Implicit Types (dm : rtp_demuxer_t S) (s : S).

(** The receiver: one call per datagram, up to one that is refused. *)
Fixpoint feed (clk : nat -> nat -> Z) (addr : nat -> Z) dm s (ds : list delivery)
  : outcome (Z * (rtp_demuxer_t S * S)) :=
  match ds with
  | [] => Ret (0, (dm, s))
  | (bytes, _, _) :: ds =>
      do* (r, (dm, s)) <- rtp_demuxer_input (client g) (clk O) (addr O) dm s bytes (zlen bytes) ;;
      if r =? 0 then feed (fun i => clk (Datatypes.S i)) (fun i => addr (Datatypes.S i)) dm s ds else Ret (r, (dm, s))
  end.

Lemma feed_app clk addr dm s ds1 ds2 (Q : Z * (rtp_demuxer_t S * S) -> Prop) :
  post (feed clk addr dm s ds1) (fun '(r, (dm1, s1)) =>
    r = 0 /\ post (feed (fun i => clk (length ds1 + i)%nat) (fun i => addr (length ds1 + i)%nat) dm1 s1 ds2) Q) ->
  post (feed clk addr dm s (ds1 ++ ds2)) Q.
Proof.
  revert clk addr dm s. induction ds1 as [|[[bytes ?] ?] ds1 IH]; intros clk addr dm s; cbn [feed app length].
  { cbn [post]. by intros [_ ?]. }
  intros Hp. apply post_bind_inv in Hp. ostep. eapply post_mono; [exact Hp|].
  intros [r [dm1 s1]]. destruct (r =? 0) eqn:E; [apply IH|]. cbn [post]. intros [-> _]. done.
Qed.

Definition h265_ctx (d : H265.Unpack.rtp_decode_h265_t) : decode_ctx S :=
  mk_decode_ctx rtp_h265_decode d.

(** The datagrams of one access unit: the demultiplexer does with them what the
    unpacker alone does. *)
Lemma feed_units units clk addr dm s hd sq d d' s' :
  in_step dm sq (h265_ctx d) -> plain hd -> 96 <= pt hd -> u16 (RtpUtil.seq hd) = u16 sq ->
  Forall (fun '(m, pl) => unit_bytes (m, pl) /\ zlen pl + 12 <= RTP_PAYLOAD_MAX_SIZE) units ->
  UnpackSpec.recv (rtp_onpacket (client g)) d s (emit hd units) = Ret (1, (d', s')) ->
  post (feed clk addr dm s (emit hd units))
    (fun '(r, (dm', s1)) => r = 0 /\ s1 = s' /\ in_step dm' (sq + zlen units) (h265_ctx d')).
Proof.
  intros Hin Hh Hpt Hsq Hu. revert clk addr dm s hd sq d Hin Hh Hpt Hsq.
  induction Hu as [|[m pl] units [[Hm Hb] Hl] _ IH]; intros clk addr dm s hd sq d Hin Hh Hpt Hsq; cbn [emit UnpackSpec.recv feed].
  { intros [= -> ->]. cbn [post]. change (zlen []) with 0. by rewrite Z.add_0_r. }
  set (bytes := packet_bytes _). destruct (H265.Unpack.rtp_h265_unpack_input _ _ _ _ _) as [[r [d1 s1]]|] eqn:E; [|done].
  cbn [obind fst snd]. destruct (Z.eqb_spec r 1) as [->|]; [|intros [= -> _ _]; done]. intros Hr.
  destruct (deserialize_video zero_packet hd m pl Hh Hm) as (pkt & Hdes & Ehd & _). fold bytes in Hdes.
  assert (Hz : zlen bytes = 12 + zlen pl).
  { unfold bytes. rewrite video_bytes by done. by rewrite zlen_app, zlen_rtp_header_bytes. }
  pose proof (zlen_nonneg pl). ostep. eapply post_mono.
  { eapply (input_in_step Halloc (client g) _ _ _ _ sq (h265_ctx d) bytes pkt 1 (h265_ctx d1) s1); try done.
    - by apply video_bytes_ok.
    - lia.
    - by apply video_not_rtcp.
    - rewrite Ehd. cbn. pose proof (ok_seq _ (pl_header _ Hh)). unfold is_u16, u16 in *. lia.
    - unfold rtp_payload_decode_input, h265_ctx. cbn [d_table d_packer dec_input rtp_h265_decode].
      by rewrite E. }
  intros [code [dm1 s2]] (-> & -> & Hin1). cbn [Z.eqb].
  rewrite zlen_cons, Z.add_assoc. apply (IH _ _ _ _ (advance hd 1) _ d1); try done.
  - by apply advance_plain.
  - cbn. unfold u16 in *. lia.
Qed.

Lemma pictures_nals p :
  picture_ok p ->
  Forall (fun u => bytes_ok u /\ 3 <= zlen u <= RTP_PAYLOAD_MAX_SIZE /\ H265_TYPE (default 0 (head u)) < 48) (nals_of p).
Proof.
  intros [_ Hf Hr Hfit _].
  assert (Hall : Forall unit_ok (nals_of p)).
  { constructor; [done|]. apply Forall_map. eapply Forall_impl; [|exact Hr]. by intros [k v] [_ Hv]. }
  apply Forall_forall. intros u Hu.
  destruct (proj1 (Forall_forall _ _) Hall u Hu) as [Hok Hl].
  destruct (proj1 (Forall_forall _ _) Hfit u Hu) as [Hmax Ht]. split_and!; try done. apply Hok.
Qed.

Lemma units_fit sz nals :
  564 <= sz <= RTP_PAYLOAD_MAX_SIZE ->
  Forall (fun u => bytes_ok u /\ 3 <= zlen u <= RTP_PAYLOAD_MAX_SIZE /\ H265_TYPE (default 0 (head u)) < 48) nals ->
  Forall (fun '(m, pl) => unit_bytes (m, pl) /\ zlen pl + 12 <= sz) (PackSpec.au_payloads sz nals).
Proof.
  intros Hsz Hn.
  assert (Hb : Forall unit_bytes (PackSpec.au_payloads sz nals)).
  { apply au_payloads_bytes. eapply Forall_impl; [|exact Hn]. cbn. intros u (? & ? & _). split; [done|lia]. }
  assert (Hz : Forall (fun '(_, pl) => zlen pl <= sz - RTP_FIXED_HEADER) (PackSpec.au_payloads sz nals)).
  { apply au_payloads_fit; [lia|]. eapply Forall_impl; [|exact Hn]. cbn. intros u (_ & ? & _). lia. }
  apply Forall_forall. intros [m pl] Hm.
  pose proof (proj1 (Forall_forall _ _) Hb _ Hm). pose proof (proj1 (Forall_forall _ _) Hz _ Hm) as Hz1.
  cbn in Hz1. unfold RTP_FIXED_HEADER in Hz1. split; [done|lia].
Qed.

Lemma stream_pictures ps pk log :
  packer_ok pk -> 564 <= psize pk <= RTP_PAYLOAD_MAX_SIZE -> 96 <= pt (rtp (ppkt pk)) -> Forall picture_ok ps ->
  exists pk' packets, send ps pk log = Ret (0, (pk', log ++ packets)) /\
    forall clk addr dm s sq d,
      in_step dm sq (h265_ctx d) -> UnpackSpec.ready d sq [] -> u16 (RtpUtil.seq (rtp (ppkt pk))) = u16 sq ->
      post (feed clk addr dm s packets) (fun '(r, (dm', s')) =>
        r = 0 /\ s' = fold_left g (pictures_out ps) s /\ exists sq' d', in_step dm' sq' (h265_ctx d') /\ UnpackSpec.ready d' sq' []).
Proof.
  intros Hp Hsz Hpt Hps. revert pk log Hp Hsz Hpt.
  induction Hps as [|p ps Hpic _ IH]; intros pk log Hp Hsz Hpt; cbn [send].
  { exists pk, []. rewrite app_nil_r. split; [done|]. intros. cbn [feed post pictures_out flat_map fold_left].
    split; [done|]. split; [done|]. by exists sq, d. }
  pose proof (pictures_nals p Hpic) as Hn. destruct Hpic as [Hl Hf Hr Hfit Hts].
  destruct (pack_input_spec pk (pc_lead p) (pc_first p) (pc_rest p) (pc_tail p) (pc_ts p) log Hp)
    as (pk1 & E & [Hok Hsize Hst]); try done; [lia|]. fold (picture_bytes p) (nals_of p) in *.
  set (units := PackSpec.au_payloads (psize pk) (nals_of p)) in *.
  set (hd := with_timestamp (rtp (ppkt pk)) (pc_ts p)) in *.
  assert (Hpt1 : pt (rtp (ppkt pk1)) = pt (rtp (ppkt pk))) by exact (f_equal pt Hst).
  destruct (IH pk1 (log ++ emit hd units)) as (pk2 & packets & Es & Hfeed2);
    [done|by rewrite Hsize|by rewrite Hpt1|].
  rewrite E. cbn [obind Z.eqb]. exists pk2, (emit hd units ++ packets).
  split; [by rewrite Es, app_assoc|]. intros clk addr dm s sq d Hin Hd Hsq.
  assert (Hh : plain hd) by (by apply with_ts_plain, Hts; apply packer_plain).
  destruct (UnpackSpec.h265_recv_au Halloc (nals_of p) d [] sq hd (psize pk) Hd Hh Hsq) as (d1 & Er & Hd1);
    [lia|done|]. fold units in Er, Hd1.
  apply (recv_alike g s) in Er. cbn [fold_left app] in Er.
  apply feed_app. eapply post_mono.
  { eapply (feed_units units clk addr dm s hd sq d d1); [exact Hin|exact Hh|exact Hpt|exact Hsq| |exact Er].
    eapply Forall_impl; [|exact (units_fit _ _ Hsz Hn)]. intros [m pl] [? ?]. split; [done|lia]. }
  intros [r1 [dm1 s1]] (-> & -> & Hin1). split; [done|].
  eapply post_mono; [eapply Hfeed2; [exact Hin1|exact Hd1|]|].
  { assert (Eq : RtpUtil.seq (rtp (ppkt pk1)) = u16 (RtpUtil.seq (rtp (ppkt pk)) + zlen units))
      by exact (f_equal RtpUtil.seq Hst).
    rewrite Eq. unfold u16 in *. lia. }
  intros [r2 [dm2 s2]] (-> & -> & Hex). split; [done|]. split; [|done].
  cbn [pictures_out flat_map]. by rewrite fold_left_app.
Qed.

(** The receiver as the program creates it for H.265. *)
Lemma create_h265 now rnd jitter frequency payload :
  u64 frequency <> 0 -> 96 <= payload <= 127 ->
  post (rtp_demuxer_create now rnd jitter frequency payload (Some "H265"%string))
    (fun o => exists dm, o = Some dm /\ forall sq, in_step dm sq (h265_ctx H265.Unpack.rtp_h265_unpack_create)).
Proof.
  intros Hf Hp. unfold rtp_demuxer_create. rewrite Halloc. cbn [negb]. destruct now as [[t0 t1] t2].
  unfold rtp_payload_decode_create, rtp_payload_find, c_assert. rewrite Halloc. cbn [negb].
  do 2 zif. cbn [andb orb obind]. unfold RTP_PAYLOAD_DYNAMIC. zif.
  change (by_name "H265" named_codecs) with (Some (mk_delegate F_H265 F_H265)).
  cbn [decoder decoder_of dec_create rtp_h265_decode]. unfold allocated. rewrite Halloc.
  ostep. eapply post_mono; [by apply create_session|]. intros [c|] Hc; [|done]. destruct Hc as [Hc _].
  destruct (create_spec (P:=block) jitter frequency) as (q & -> & Hm & Et & Ef). rewrite Halloc. cbn [obind post].
  eexists. split; [done|]. intros sq. constructor; try done.
  - eexists. split; [exact Hm|]. split_and!; [done|done|by left].
  - cbn. by rewrite Ef.
  - constructor; try done; cbn; [constructor|]. intros a. by rewrite elem_of_empty, elem_of_nil.
Qed.

Lemma in_step_state dm sq d :
  UnpackSpec.ready d sq [] -> in_step dm sq (h265_ctx d) -> demux_state dm [] [] [].
Proof.
  intros Hd [(m & Hrep & (El & Eb & _)) Hr Ho Hs Hp Hm]. pose proof (rep_ok _ _ Hrep) as Hq. rewrite El, Eb in Hq.
  constructor; try done; [by right|]. rewrite Hp. exists (h265_laws _). destruct Hd.
  split; [done|]. change (0 <= H265.Unpack.size d <= H265.Unpack.capacity d).
  rewrite rdy_size. change (zlen []) with 0. lia.
Qed.

(** C1. End to end: pictures given to the packer of a sender whose payload type is
    dynamic, its datagrams given to the demultiplexer the program creates for
    H.265 (any jitter threshold, any client clock), make the client see every NAL
    unit of every picture behind a start code, once, in order, unchanged and with
    the timestamp of its picture, whatever it does with them ([g]); every call returns 0; and destroying the
    demultiplexer gives every block of the heap back. *)
Theorem rtp_h265_end_to_end now rnd jitter frequency payload clk addr pk ps (s0 : S) :
  u64 frequency <> 0 -> 96 <= payload <= 127 ->
  packer_ok pk -> 564 <= psize pk <= RTP_PAYLOAD_MAX_SIZE -> 96 <= pt (rtp (ppkt pk)) ->
  Forall picture_ok ps ->
  exists pk' packets, send ps pk [] = Ret (0, (pk', packets)) /\
    post (do o <- rtp_demuxer_create now rnd jitter frequency payload (Some "H265"%string) ;;
          match o with
          | None => Ret None
          | Some dm =>
              do* (r, (dm, out)) <- feed clk addr dm s0 packets ;;
              do* (σ, blocks) <- rtp_demuxer_destroy dm ;;
              Ret (Some (r, out, blocks))
          end)
      (fun res => res = Some (0, fold_left g (pictures_out ps) s0, ∅)).
Proof.
  intros Hf Hpay Hp Hsz Hpt Hps.
  destruct (stream_pictures ps pk [] Hp Hsz Hpt Hps) as (pk' & packets & Es & Hfeed).
  exists pk', packets. split; [exact Es|]. ostep. eapply post_mono; [by apply create_h265|].
  intros o (dm & -> & Hin). ostep. eapply post_mono.
  { apply (Hfeed clk addr dm s0 (RtpUtil.seq (rtp (ppkt pk))) H265.Unpack.rtp_h265_unpack_create); [done| |done].
    apply UnpackSpec.h265_create_ready. }
  intros [r [dm' out]] (-> & -> & sq' & d' & Hin' & Hd'). ostep.
  eapply post_mono; [by eapply destroy_demux, in_step_state|]. intros [σ blocks] [_ Hb]. ostep.
  do 2 f_equal. apply set_eq. intros a. by rewrite Hb, elem_of_nil, elem_of_empty.
Qed.
End EndToEnd.

(** ** A concrete stream: two pictures, of a parameter set and a slice of three
    packets, from the number 65534 on *)
Definition sample_pictures : list picture :=
  [mk_picture 3 (sample_nal 64) [(3%nat, slice 2998)] 1 3000;
   mk_picture 3 (slice 40) [] 0 6000].

Lemma sample_pictures_ok : Forall picture_ok sample_pictures.
Proof.
  constructor; [|constructor; [|constructor]].
  - constructor; cbn; [lia|apply sample_units|apply sample_units|apply sample_fits|unfold is_u32; lia].
  - constructor; cbn; [lia|apply h265_slice_ok; lia|constructor| |unfold is_u32; lia].
    repeat constructor; unfold RTP_PAYLOAD_MAX_SIZE; try (by vm_compute); simpl; lia.
Qed.

Lemma rtp_h265_end_to_end_witness :
  exists pk' packets, @send release_build sample_pictures sample_packer [] = Ret (0, (pk', packets)) /\
    @post release_build _
      (do o <- @rtp_demuxer_create (@rtcp_formats always_alloc release_build) always_alloc release_build saturating _
                 (1, 2, 3) 77 50 90000 96 (Some "H265"%string) ;;
       match o with
       | None => Ret None
       | Some dm =>
           do* (r, (dm, out)) <- @feed (@rtcp_formats always_alloc release_build) always_alloc release_build saturating
                                   _ snoc (fun _ _ => 5) (fun _ => 0) dm [] packets ;;
           do* (σ, blocks) <- @rtp_demuxer_destroy (@rtcp_formats always_alloc release_build) release_build _ dm ;;
           Ret (Some (r, out, blocks))
       end)
      (fun res => res = Some (0, fold_left snoc (pictures_out sample_pictures) [], ∅)).
Proof.
  apply (@rtp_h265_end_to_end (@rtcp_formats always_alloc release_build) always_alloc release_build saturating
           _ snoc (fun _ => eq_refl) (1, 2, 3) 77 50 90000 96 (fun _ _ => 5) (fun _ => 0) sample_packer sample_pictures []).
  - done.
  - lia.
  - apply sample_packer_ok.
  - unfold RTP_PAYLOAD_MAX_SIZE. cbn. unfold s_max_packet_size. lia.
  - by vm_compute.
  - apply sample_pictures_ok.
Defined.
