(* ===== verification/Receiver.v ===== *)
(** * The RTP receiver of the program (src/rtp_codec_detector.cpp, rtp_receiver.cpp,
    common.h)

    Which codec a stream has is guessed from its packets: before the receiver's thread
    starts, from what a demultiplexer without a format delivers, and then again on every
    datagram, so that a stream may change its codec.  A thread waits with [poll]; what it
    and the other threads' flag answer in one turn of its loop is a [turn], and a run of
    the loop is over a list of them.  The buffer keeps what older datagrams left behind
    the bytes of the last one. *)

From Stdlib Require Import String.
From stdpp Require Import gmap.
From S2P Require Import Prelude RtpUtil RtpPacket RtpQueue Payload Registry CDouble RtpMember Rtcp RtcpReport Demuxer.
From stdpp Require Import list.
Open Scope Z_scope.

(** ** Codecs *)
Inductive VideoCodec := UNKNOWN | H264 | H265.

#[export] Instance VideoCodec_eq_dec : EqDecision VideoCodec.
Proof. solve_decision. Defined.

Definition codec_type_name (codec : VideoCodec) : string :=
  match codec with
  | H264 => "H264"
  | H265 => "H265"
  | UNKNOWN => "UNKNOWN"
  end%string.

(** ** What one payload says *)
Definition h264_found (b0 b1 : Z) : bool :=
  let type := Z.land b0 31 in
  (Z.land (Z.shiftr b0 7) 1 =? 0) &&
  ((type =? 1) || (type =? 5) || (type =? 7) || (type =? 8) ||
   (((type =? 28) || (type =? 29)) &&
    let fu_s := Z.land (Z.shiftr b1 7) 1 in
    let fu_e := Z.land (Z.shiftr b1 6) 1 in
    let fu_type := Z.land b1 31 in
    negb (fu_s =? 0) && (fu_e =? 0) && ((fu_type =? 1) || (fu_type =? 5)))).

Definition h265_found (b0 b1 b2 : Z) : bool :=
  let type := Z.land (Z.shiftr b0 1) 63 in
  (Z.land (Z.shiftr b0 7) 1 =? 0) && negb (Z.land b1 7 =? 0) &&
  ((type <=? 21) || (type =? 32) || (type =? 33) || (type =? 34) ||
   ((type =? 49) &&
    let fu_s := Z.land (Z.shiftr b2 7) 1 in
    let fu_e := Z.land (Z.shiftr b2 6) 1 in
    negb (fu_s =? 0) && (fu_e =? 0) && (Z.land b2 63 <=? 21))).

Definition detect_rtp_codec (payload : list Z) (payload_len : Z) : outcome VideoCodec :=
  if payload_len <? 64 then Ret UNKNOWN
  else
    do b0 <- rd payload 0 ;;
    do b1 <- rd payload 1 ;;
    do b2 <- rd payload 2 ;;
    let h264 := h264_found b0 b1 in
    let h265 := h265_found b0 b1 b2 in
    Ret (if h264 && negb h265 then H264
         else if h265 && negb h264 then H265
         else UNKNOWN).

(** Where the payload of a datagram starts. *)
Definition rtp_classify_codec (pkt : list Z) (len : Z) : outcome VideoCodec :=
  if len <? 12 then Ret UNKNOWN
  else
    do b <- rd pkt 0 ;;
    let csrc_count := Z.land b 15 in
    let has_extension := Z.land (Z.shiftr b 4) 1 in
    let payload_offset := 12 + csrc_count * 4 in
    do o <-
      (if has_extension =? 0 then Ret (Some payload_offset)
       else if len <? payload_offset + 4 then Ret None
       else
         do hi <- rd pkt (payload_offset + 2) ;;
         do lo <- rd pkt (payload_offset + 3) ;;
         let extension_words := Z.lor (Z.shiftl hi 8) lo in
         Ret (Some (payload_offset + (4 + extension_words * 4)))) ;;
    match o with
    | None => Ret UNKNOWN
    | Some payload_offset =>
        if len <=? payload_offset then Ret UNKNOWN
        else detect_rtp_codec (adv pkt payload_offset) (len - payload_offset)
    end.

(** ** Waiting for datagrams *)
Inductive polled :=
| PollError (eintr : bool)
| PollTimeout
| PollHangup                          (** an event other than POLLIN *)
| PollIn (received : option (list Z)) (** the datagram, or -1 of [recvfrom] *).

(** One turn of a loop: the flags it reads, what it waits for, and what the
    demultiplexer reads meanwhile. *)
Record turn := mk_turn {
  t_running : bool;
  t_signal : bool;
  t_poll : polled;
  t_clk : nat -> Z;
  t_addr : Z
}.

(** [uint8_t buffer[1600]]: what is longer is cut, and the rest of the buffer stays. *)
Definition BUFFER_SIZE : Z := 1600.
Definition fill (buffer received : list Z) : list Z := received ++ drop (length received) buffer.

(** What waiting leads to: another turn, the end of the loop, or a datagram of at least
    one byte. *)
Inductive awaited := Again | Leave | Packet (received : list Z).
Definition await (t : turn) : awaited :=
  match t_poll t with
  | PollError eintr => if eintr then Again else Leave
  | PollTimeout | PollHangup | PollIn None => Again
  | PollIn (Some d) =>
      let received := take (Z.to_nat BUFFER_SIZE) d in
      if 0 <? zlen received then Packet received else Again
  end.

(** ** Detection *)
Section Detector.
Context `{RtcpFeedback} `{Alloc} `{Build} `{Fpu}.

(** The client's state is the codec found; 1 asks the demultiplexer to go on. *)
Definition detect_codec_cb (codec_ptr : VideoCodec) (packet : list Z) (timestamp flags : Z) : Z * VideoCodec :=
  match detect_rtp_codec packet (zlen packet) with
  | Ret UNKNOWN | Crash _ => (0, codec_ptr)
  | Ret codec => (1, codec)
  end.

(** [None]: still waiting when the turns are used up. *)
Fixpoint detect_loop (turns : list turn) (buffer : list Z) (dm : rtp_demuxer_t VideoCodec) (detected : VideoCodec)
  : outcome (option (rtp_demuxer_t VideoCodec * VideoCodec)) :=
  if negb (bool_decide (detected = UNKNOWN)) then Ret (Some (dm, detected))
  else
    match turns with
    | [] => Ret None
    | t :: turns =>
        if negb (t_running t) || t_signal t then Ret (Some (dm, detected))
        else
          match await t with
          | Again => detect_loop turns buffer dm detected
          | Leave => Ret (Some (dm, detected))
          | Packet received =>
              let buffer := fill buffer received in
              do* (_, (dm, detected)) <-
                rtp_demuxer_input (Some detect_codec_cb) (t_clk t) (t_addr t) dm detected buffer (zlen received) ;;
              detect_loop turns buffer dm detected
          end
    end.

(** The codec, and the addresses left in the heap; nothing was made when there is no
    demultiplexer. *)
Definition detect_codec (now : Z * Z * Z) (rnd : Z) (turns : list turn) (buffer : list Z)
  : outcome (option (VideoCodec * option (store * gset Z))) :=
  do o <- rtp_demuxer_create now rnd 100 90000 0 None ;;
  match o with
  | None => Ret (Some (UNKNOWN, None))
  | Some dm =>
      do o <- detect_loop turns buffer dm UNKNOWN ;;
      match o with
      | None => Ret None
      | Some (dm, detected) =>
          do left <- rtp_demuxer_destroy dm ;;
          Ret (Some (detected, Some left))
      end
  end.
End Detector.

(** ** The receiver *)
Definition CODEC_MISMATCH_CONFIRM : Z := 5.

(** [m_rtp_receiver_thread]: none, or a thread that was joined or was not. *)
Record RtpReceiver := mk_receiver {
  m_video_codec : VideoCodec;
  m_codec_mismatch_count : Z;
  m_running : bool;
  m_rtp_receiver_thread : option bool
}.

Definition new_receiver : RtpReceiver := mk_receiver UNKNOWN 0 false None.
Definition set_codec (rc : RtpReceiver) (codec : VideoCodec) (count : Z) : RtpReceiver :=
  mk_receiver codec count (m_running rc) (m_rtp_receiver_thread rc).
Definition set_running (rc : RtpReceiver) (b : bool) (thread : option bool) : RtpReceiver :=
  mk_receiver (m_video_codec rc) (m_codec_mismatch_count rc) b thread.
Definition get_video_codec (rc : RtpReceiver) : VideoCodec := m_video_codec rc.

(** A [std::thread] that was not joined must not be replaced: the process ends. *)
Definition start_receiving (rc : RtpReceiver) : outcome RtpReceiver :=
  if m_running rc then Ret rc
  else
    match m_rtp_receiver_thread rc with
    | Some true => Crash AssertFail
    | _ => Ret (set_running rc true (Some true))
    end.

Definition stop_receiving (rc : RtpReceiver) : outcome RtpReceiver :=
  match m_rtp_receiver_thread rc with
  | None => Crash OutOfBounds
  | Some _ => Ret (set_running rc false (Some false))
  end.

Section Receiver.
Context `{RtcpFeedback} `{Alloc} `{Build} `{Fpu} {S : Type}.
(** [m_cb]: the data with its size and whether the codec has changed; null then. *)
Context (m_cb : S -> option (list Z) -> Z -> bool -> S).
Implicit Types (rc : RtpReceiver) (dm : rtp_demuxer_t S) (s : S).

Definition main_rtp_cb (s : S) (packet : list Z) (timestamp flags : Z) : Z * S :=
  (0, m_cb s (Some packet) (zlen packet) false).

(** [init]: the socket is there or [connected] makes it; [signal] is the flag when
    detection is over.  [None]: still waiting for packets. *)
Definition init (connected : bool) (now : Z * Z * Z) (rnd : Z) (turns : list turn) (buffer : list Z)
    (signal : bool) rc
  : outcome (option RtpReceiver) :=
  (if connected then Ret tt else c_assert false) ;;;
  if bool_decide (m_video_codec rc = UNKNOWN) then
    do o <- detect_codec now rnd turns buffer ;;
    match o with
    | None => Ret None
    | Some (codec, _) =>
        let rc := set_codec (set_running rc true (m_rtp_receiver_thread rc)) codec (m_codec_mismatch_count rc) in
        let stopped := set_running rc false (m_rtp_receiver_thread rc) in
        if bool_decide (codec = UNKNOWN) then
          if signal then Ret (Some stopped) else c_assert false ;;; Ret (Some stopped)
        else Ret (Some stopped)
    end
  else Ret (Some rc).

(** One datagram: five of the other codec, with no one of the stream's own in between,
    change the codec, and the last of them goes nowhere. *)
Definition on_datagram (clk : nat -> Z) (addr : Z) rc dm s (buffer : list Z) (n : Z)
  : outcome (RtpReceiver * (rtp_demuxer_t S * S)) :=
  do packet_codec <- rtp_classify_codec buffer n ;;
  let other := negb (bool_decide (packet_codec = UNKNOWN)) && negb (bool_decide (packet_codec = m_video_codec rc)) in
  do count <- (if other then c_int (m_codec_mismatch_count rc + 1)
               else if bool_decide (packet_codec = m_video_codec rc) then Ret 0
               else Ret (m_codec_mismatch_count rc)) ;;
  if other && (CODEC_MISMATCH_CONFIRM <=? count) then
    Ret (set_codec rc packet_codec 0, (dm, m_cb s None 0 true))
  else
    do* (_, (dm, s)) <- rtp_demuxer_input (Some main_rtp_cb) clk addr dm s buffer n ;;
    Ret (set_codec rc (m_video_codec rc) count, (dm, s)).

(** [true]: the loop is over. *)
Fixpoint receive_loop (turns : list turn) (buffer : list Z) rc dm s : outcome (bool * (RtpReceiver * (rtp_demuxer_t S * S))) :=
  match turns with
  | [] => Ret (false, (rc, (dm, s)))
  | t :: turns =>
      if negb (t_running t) then Ret (true, (rc, (dm, s)))
      else
        match await t with
        | Again => receive_loop turns buffer rc dm s
        | Leave => Ret (true, (rc, (dm, s)))
        | Packet received =>
            let buffer := fill buffer received in
            do* (rc, (dm, s)) <- on_datagram (t_clk t) (t_addr t) rc dm s buffer (zlen received) ;;
            receive_loop turns buffer rc dm s
        end
  end.

(** What a thread has come to: still in its loop, or over, with what is left in the heap. *)
Inductive thread_state :=
| InLoop (rc : RtpReceiver) (dm : rtp_demuxer_t S) (s : S)
| Exited (rc : RtpReceiver) (s : S) (left : option (store * gset Z)).

Definition rtp_receiver_thread (now : Z * Z * Z) (rnd : Z) (turns : list turn) (buffer : list Z) rc s : outcome thread_state :=
  let codec_name := codec_type_name (m_video_codec rc) in
  if String.eqb codec_name "UNKNOWN" then Ret (Exited rc s None)
  else
    do o <- rtp_demuxer_create now rnd 0 90000 RTP_PAYLOAD_DYNAMIC (Some codec_name) ;;
    match o with
    | None => Ret (Exited rc s None)
    | Some dm =>
        do* (over, (rc, (dm, s))) <- receive_loop turns buffer rc dm s ;;
        if over then
          do left <- rtp_demuxer_destroy dm ;;
          Ret (Exited rc s (Some left))
        else Ret (InLoop rc dm s)
    end.
End Receiver.
Arguments thread_state {_} S.
