(* ===== verification/ReceiverProps.v ===== *)
(** * What the receiver does with a stream

    On any traffic its thread stays inside its objects and gives everything back.  An
    H.265 stream is taken for H.265, and every NAL unit of it reaches the callback; the
    codec is changed by five datagrams of the other one and by nothing else. *)

From Stdlib Require Import String.
From stdpp Require Import gmap.
From S2P Require Import Prelude RtpUtil RtpPacket RtpQueue AnnexB AnnexBProps Payload PayloadSpec H265 H265Props PayloadHelper HelperProps Registry RegistryProps CDouble RtpMember Rtcp Feedback RtcpProps FeedbackProps RtcpReport Demuxer DemuxerProps EndToEnd Receiver.
From stdpp Require Import list.
Open Scope Z_scope.

(** ** Looking at a datagram *)
Section Classify.
Context `{Build}.

Lemma rd_fill (d x : list Z) i : i < zlen d -> rd (d ++ x) i = rd d i.
Proof.
  intros Hi. unfold rd. destruct (Z.ltb_spec i 0); [done|]. rewrite lookup_app_l; [done|]. unfold zlen in Hi. lia.
Qed.

Lemma detect_rd p n : n <= zlen p -> exists c, detect_rtp_codec p n = Ret c.
Proof.
  intros Hn. unfold detect_rtp_codec. destruct (Z.ltb_spec n 64); [by eexists|].
  destruct (rd_in p 0) as (b0 & -> & _); [lia|]. destruct (rd_in p 1) as (b1 & -> & _); [lia|].
  destruct (rd_in p 2) as (b2 & -> & _); [lia|]. by eexists.
Qed.

Lemma detect_fill d x : detect_rtp_codec (d ++ x) (zlen d) = detect_rtp_codec d (zlen d).
Proof.
  unfold detect_rtp_codec. destruct (Z.ltb_spec (zlen d) 64); [done|]. by rewrite !rd_fill by lia.
Qed.

(** Classification reads the datagram only, and always gives an answer. *)
Lemma classify_total d :
  bytes_ok d -> exists c, forall x, rtp_classify_codec (d ++ x) (zlen d) = Ret c.
Proof.
  intros Hd. unfold rtp_classify_codec. destruct (Z.ltb_spec (zlen d) 12); [by eexists|].
  destruct (rd_in d 0) as (b & Eb & _); [lia|].
  set (off := 12 + Z.land b 15 * 4).
  assert (Hoff : 12 <= off) by (unfold off; change 15 with (2 ^ 4 - 1); rewrite land_ones_mod; lia).
  assert (Hrest : forall off, 12 <= off -> exists c, forall x,
    (if zlen d <=? off then Ret UNKNOWN else detect_rtp_codec (adv (d ++ x) off) (zlen d - off)) = Ret c).
  { intros o Ho. destruct (Z.leb_spec (zlen d) o); [by eexists|].
    destruct (detect_rd (adv d o) (zlen d - o)) as [c Ec]; [rewrite zlen_adv; lia|]. exists c. intros x.
    assert (E : adv (d ++ x) o = adv d o ++ x).
    { unfold adv. rewrite drop_app_le; [done|]. unfold zlen in *. lia. }
    rewrite E. rewrite <- Ec. replace (zlen d - o) with (zlen (adv d o)) by (rewrite zlen_adv; lia). apply detect_fill. }
  destruct (Z.land (Z.shiftr b 4) 1 =? 0) eqn:Ex.
  { destruct (Hrest off Hoff) as [c Hc]. exists c. intros x. rewrite rd_fill, Eb by lia. cbn [obind]. rewrite Ex.
    apply Hc. }
  destruct (Z.ltb_spec (zlen d) (off + 4)) as [Hs|Hs].
  { exists UNKNOWN. intros x. rewrite rd_fill, Eb by lia. cbn [obind]. rewrite Ex. fold off. by zif. }
  destruct (rd_in d (off + 2)) as (hi & Ehi & Hhi); [lia|]. destruct (rd_in d (off + 3)) as (lo & Elo & Hlo); [lia|].
  pose proof (proj1 (Forall_lookup _ _) Hd _ _ Hhi). pose proof (proj1 (Forall_lookup _ _) Hd _ _ Hlo).
  assert (Hw : 0 <= Z.lor (Z.shiftl hi 8) lo).
  { apply Z.lor_nonneg. split; [apply Z.shiftl_nonneg|]; unfold is_byte in *; lia. }
  destruct (Hrest (off + (4 + Z.lor (Z.shiftl hi 8) lo * 4))) as [c Hc]; [lia|]. exists c. intros x.
  rewrite rd_fill, Eb by lia. cbn [obind]. rewrite Ex. fold off. zif. rewrite !rd_fill, Ehi, Elo by lia. apply Hc.
Qed.
End Classify.

(** ** The codec against the datagrams' classes *)
Section Classes.

(** One class: the codec of the stream, and how many of the other codec came since. *)
Definition next_class (st : VideoCodec * Z) (c : VideoCodec) : VideoCodec * Z :=
  let '(codec, count) := st in
  if bool_decide (c = UNKNOWN) then st
  else if bool_decide (c = codec) then (codec, 0)
  else if CODEC_MISMATCH_CONFIRM <=? count + 1 then (c, 0)
  else (codec, count + 1).

Definition other_codec (c : VideoCodec) : VideoCodec := match c with H264 => H265 | _ => H264 end.
(** From a count of [n] on, the codec changes at the first run of datagrams of the
    other codec that reaches the limit, whatever is not recognised in between. *)
Definition run_of (n : nat) (codec : VideoCodec) : list VideoCodec := replicate n (other_codec codec).

Lemma known_cases codec c :
  codec <> UNKNOWN -> c = UNKNOWN \/ c = codec \/ c = other_codec codec /\ c <> codec /\ c <> UNKNOWN.
Proof. destruct codec, c; naive_solver. Qed.

Lemma run_split codec n a l known :
  (a :: known = run_of n codec ++ l) ->
  n = 0%nat \/ exists m, n = Datatypes.S m /\ a = other_codec codec /\ known = run_of m codec ++ l.
Proof.
  destruct n as [|n]; [by left|]. right. exists n. unfold run_of in *. cbn in *. by simplify_eq.
Qed.

Definition has_run (n : nat) (codec : VideoCodec) (known : list VideoCodec) : Prop :=
  (exists l, known = run_of n codec ++ l) \/ exists l1 l2, known = l1 ++ run_of 5 codec ++ l2.

Lemma has_run_nil n codec : (0 < n)%nat -> ~ has_run n codec [].
Proof.
  intros Hn [(l & E)|(l1 & l2 & E)]; [destruct n; [lia|done]|]. by destruct l1.
Qed.

Lemma has_run_own n codec known :
  codec <> UNKNOWN -> (0 < n)%nat -> has_run n codec (codec :: known) <-> has_run 5 codec known.
Proof.
  intros Hc Hn. split; intros [(l & E)|(l1 & l2 & E)].
  - apply run_split in E as [?|(m & _ & E & _)]; [lia|]. by destruct codec.
  - destruct l1 as [|a l1]; [by destruct codec|]. right. exists l1, l2. by simplify_eq/=.
  - right. exists [codec], l. by rewrite E.
  - right. exists (codec :: l1), l2. by rewrite E.
Qed.

Lemma has_run_other n codec known :
  (0 < n < 5)%nat -> has_run (Datatypes.S n) codec (other_codec codec :: known) <-> has_run n codec known.
Proof.
  intros Hn. split; intros [(l & E)|(l1 & l2 & E)].
  - apply run_split in E as [?|(m & [= <-] & _ & E)]; [done|]. left. by exists l.
  - destruct l1 as [|a l1].
    + left. apply run_split in E as [?|(m & [= <-] & _ & E)]; [done|].
      exists (run_of (4 - n) codec ++ l2). rewrite app_assoc. unfold run_of. rewrite <- replicate_add.
      by replace (n + (4 - n))%nat with 4%nat by lia.
    + right. exists l1, l2. by simplify_eq/=.
  - left. exists l. by rewrite E.
  - right. exists (other_codec codec :: l1), l2. by rewrite E.
Qed.

(** The counter decides whether such a run has come. *)
Lemma changes_iff codec count cs :
  codec <> UNKNOWN -> 0 <= count < CODEC_MISMATCH_CONFIRM ->
  (exists cs1 cs2, cs = cs1 ++ cs2 /\ fst (fold_left next_class cs1 (codec, count)) <> codec)
    <-> has_run (Z.to_nat (CODEC_MISMATCH_CONFIRM - count)) codec (filter (fun c => c <> UNKNOWN) cs).
Proof.
  intros Hc. unfold CODEC_MISMATCH_CONFIRM. revert count. induction cs as [|c cs IH]; intros count Hn.
  { split.
    - intros (cs1 & cs2 & E & Hd). symmetry in E. apply app_eq_nil in E as [-> ->]. done.
    - intros Hr. exfalso. eapply has_run_nil; [|exact Hr]. lia. }
  assert (Hstep : (exists cs1 cs2, c :: cs = cs1 ++ cs2 /\ fst (fold_left next_class cs1 (codec, count)) <> codec) <->
    exists cs1 cs2, cs = cs1 ++ cs2 /\ fst (fold_left next_class cs1 (next_class (codec, count) c)) <> codec).
  { split; intros (cs1 & cs2 & E & Hd).
    - destruct cs1 as [|c1 cs1]; [done|]. simplify_eq/=. by exists cs1, cs2.
    - exists (c :: cs1), cs2. by rewrite E. }
  rewrite Hstep. clear Hstep. unfold next_class at 2. cbn [fst snd].
  destruct (known_cases codec c Hc) as [->|[->|(-> & Hne & Hk)]].
  - rewrite bool_decide_eq_true_2 by done. rewrite filter_cons_False by naive_solver. by apply IH.
  - rewrite bool_decide_eq_false_2, bool_decide_eq_true_2 by done. rewrite filter_cons_True by done.
    rewrite has_run_own by (done || lia). apply (IH 0); lia.
  - rewrite !bool_decide_eq_false_2 by done. rewrite filter_cons_True by done. unfold CODEC_MISMATCH_CONFIRM.
    destruct (Z.leb_spec 5 (count + 1)) as [Hl|Hl].
    + replace (Z.to_nat (5 - count)) with 1%nat by lia. split; intros _.
      * left. by eexists.
      * exists [], cs. by split; [|cbn].
    + replace (Z.to_nat (5 - count)) with (Datatypes.S (Z.to_nat (5 - (count + 1)))) by lia.
      rewrite has_run_other by lia. apply IH. lia.
Qed.
End Classes.

(** ** Turns that keep the loop going, and what they bring *)
Definition arrivals (turns : list turn) : list (list Z) :=
  omap (fun t => match await t with Packet d => Some d | _ => None end) turns.
Definition goes_on (t : turn) : Prop := t_running t = true /\ await t <> Leave.
Definition class_of (d : list Z) : VideoCodec :=
  match rtp_classify_codec d (zlen d) with Ret c => c | Crash _ => UNKNOWN end.

Lemma classify_fill buffer d : bytes_ok d -> rtp_classify_codec (fill buffer d) (zlen d) = Ret (class_of d).
Proof.
  intros Hd. destruct (classify_total d Hd) as [c Hc]. pose proof (Hc []) as Hn. rewrite app_nil_r in Hn.
  unfold class_of, fill. by rewrite Hn, Hc.
Qed.

Lemma await_packet t d : await t = Packet d -> 0 < zlen d <= BUFFER_SIZE.
Proof.
  unfold await. destruct (t_poll t) as [[]| | |[e|]]; try done. cbv zeta.
  destruct (Z.ltb_spec 0 (zlen (take (Z.to_nat BUFFER_SIZE) e))); [|done]. intros [= <-].
  rewrite zlen_take in *. unfold BUFFER_SIZE in *. lia.
Qed.

Lemma fill_ok buffer d :
  zlen buffer = BUFFER_SIZE -> bytes_ok buffer -> bytes_ok d -> zlen d <= BUFFER_SIZE ->
  zlen (fill buffer d) = BUFFER_SIZE /\ bytes_ok (fill buffer d).
Proof.
  intros Hl Hb Hd Hs. unfold fill. split; [|apply Forall_app_2; [done|by apply Forall_drop]].
  rewrite zlen_app, zlen_drop. unfold zlen in *. lia.
Qed.

(** ** The receiver's thread on any traffic *)
Section Safe.
Context `{RtcpFeedback} `{Alloc} `{Build} `{Fpu} `{!FeedbackSafe} {S : Type}.
Hypothesis Halloc : forall n, alloc_ok n = true.
Context (m_cb : S -> option (list Z) -> Z -> bool -> S).
Implicit Types (dm : rtp_demuxer_t S) (s : S).

(** A datagram the demultiplexer can take from the buffer, whatever is behind it. *)
Definition datagram_ok (d : list Z) : Prop :=
  bytes_ok d /\
  forall buffer, zlen buffer = BUFFER_SIZE -> bytes_ok buffer -> input_ok (fill buffer d) (zlen d).

Definition buffer_ok (buffer : list Z) : Prop := zlen buffer = BUFFER_SIZE /\ bytes_ok buffer.
Definition receiver_ok (rc : RtpReceiver) : Prop := 0 <= m_codec_mismatch_count rc < CODEC_MISMATCH_CONFIRM.

Lemma on_datagram_safe clk addr rc dm s buffer d :
  buffer_ok buffer -> datagram_ok d -> receiver_ok rc -> demux_ok dm ->
  post (on_datagram m_cb clk addr rc dm s (fill buffer d) (zlen d))
    (fun '(rc', (dm', _)) => receiver_ok rc' /\ demux_ok dm').
Proof.
  intros [Hl Hb] [Hd Hin] Hrc Hdm. unfold on_datagram. rewrite classify_fill by done. cbn [obind].
  set (other := _ && _). unfold receiver_ok, CODEC_MISMATCH_CONFIRM in *.
  apply post_bind. apply (post_mono _ (fun n => 0 <= n <= 5 /\ (other = false -> n < 5))).
  { destruct other; [apply post_int; lia|]. destruct (bool_decide _); cbn [post]; lia. }
  intros n [Hn Hn']. apply post_if; intros Hc.
  { cbn [post]. by split; [cbn; lia|]. }
  assert (n < 5). { destruct other; [|by auto]. cbn [andb] in Hc. apply Z.leb_gt in Hc. lia. }
  ostep. eapply post_mono; [apply input_demux; [done..|by apply Hin]|].
  intros [r [dm' s']] Hdm'. cbn [post]. by split; [cbn; lia|].
Qed.

Lemma receive_loop_safe turns buffer rc dm s :
  buffer_ok buffer -> Forall datagram_ok (arrivals turns) -> receiver_ok rc -> demux_ok dm ->
  post (receive_loop m_cb turns buffer rc dm s) (fun '(_, (rc', (dm', _))) => receiver_ok rc' /\ demux_ok dm').
Proof.
  revert buffer rc dm s. induction turns as [|t turns IH]; intros buffer rc dm s Hb Ht Hrc Hdm; cbn [receive_loop].
  { done. }
  destruct (t_running t); [|done]. cbn [negb]. unfold arrivals in Ht. cbn [omap list_omap] in Ht.
  destruct (await t) as [| |d] eqn:Ea; [by apply IH|done|].
  apply Forall_cons_1 in Ht as [Hd Ht]. ostep.
  eapply post_mono; [by apply on_datagram_safe|]. intros [rc' [dm' s']] [Hrc' Hdm']. apply IH; try done.
  destruct Hb. split; eapply fill_ok; try done; [by apply Hd|apply (await_packet _ _ Ea)|by apply Hd|apply (await_packet _ _ Ea)].
Qed.

Lemma safe_name c : c <> UNKNOWN -> safe_choice RTP_PAYLOAD_DYNAMIC (Some (codec_type_name c)).
Proof. intros Hc dg. destruct c; [done| |]; cbn; unfold rtp_payload_find, c_assert; cbn; by intros [= <-]. Qed.

Lemma detect_loop_safe turns buffer (dm : rtp_demuxer_t VideoCodec) detected :
  buffer_ok buffer -> Forall datagram_ok (arrivals turns) -> demux_ok dm ->
  post (detect_loop turns buffer dm detected) (fun o => match o with Some (dm', _) => demux_ok dm' | None => True end).
Proof.
  revert buffer dm detected. induction turns as [|t turns IH]; intros buffer dm detected Hb Ht Hdm; cbn [detect_loop];
    (destruct (negb _); [done|]); [done|].
  destruct (_ || _); [done|]. unfold arrivals in Ht. cbn [omap list_omap] in Ht.
  destruct (await t) as [| |d] eqn:Ea; [by apply IH|done|].
  apply Forall_cons_1 in Ht as [[Hd Hin] Ht]. destruct Hb as [Hl Hb]. ostep.
  eapply post_mono; [apply input_demux; [done..|by apply Hin]|]. intros [r [dm' c]] Hdm'. apply IH; try done.
  split; eapply fill_ok; try done; apply (await_packet _ _ Ea).
Qed.

End Safe.

(** ** When the codec changes *)
Section Changes.
Context `{RtcpFeedback} `{Alloc} `{Build} `{Fpu} {S : Type}.
Context (m_cb : S -> option (list Z) -> Z -> bool -> S).
Implicit Types (dm : rtp_demuxer_t S) (s : S).

Definition watch (rc : RtpReceiver) : VideoCodec * Z := (m_video_codec rc, m_codec_mismatch_count rc).

Lemma on_datagram_class clk addr rc dm s buffer d rc' st :
  m_video_codec rc <> UNKNOWN -> bytes_ok d ->
  on_datagram m_cb clk addr rc dm s (fill buffer d) (zlen d) = Ret (rc', st) ->
  watch rc' = next_class (watch rc) (class_of d) /\ m_video_codec rc' <> UNKNOWN.
Proof.
  intros Hk Hd. unfold on_datagram. rewrite classify_fill by done. cbn [obind]. generalize (class_of d). intros c E.
  unfold watch, next_class. destruct (decide (c = UNKNOWN)) as [->|Hc].
  { rewrite (bool_decide_eq_true_2 (UNKNOWN = _)) in * by done. cbn [negb andb obind] in E.
    rewrite bool_decide_eq_false_2 in E by done. cbn [obind] in E. repeat run_inv. done. }
  rewrite (bool_decide_eq_false_2 (c = UNKNOWN)) in * by done. cbn [negb andb] in E.
  destruct (decide (c = m_video_codec rc)) as [->|Hne].
  { rewrite bool_decide_eq_true_2 in * by done. cbn [negb andb obind] in E. repeat run_inv. done. }
  rewrite (bool_decide_eq_false_2 (c = m_video_codec rc)) in * by done. cbn [negb andb obind] in E.
  unfold c_int in E. destruct (_ && _); [|done]. cbn [obind] in E.
  destruct (CODEC_MISMATCH_CONFIRM <=? _); repeat run_inv; done.
Qed.

Lemma receive_loop_classes turns buffer rc dm s over rc' st :
  Forall goes_on turns -> Forall bytes_ok (arrivals turns) -> m_video_codec rc <> UNKNOWN ->
  receive_loop m_cb turns buffer rc dm s = Ret (over, (rc', st)) ->
  watch rc' = fold_left next_class (map class_of (arrivals turns)) (watch rc).
Proof.
  intros Ht. revert buffer rc dm s. induction Ht as [|t turns [Hr Hl] _ IH]; intros buffer rc dm s Hb Hk; cbn [receive_loop].
  { by intros [= _ <- _]. }
  rewrite Hr. cbn [negb]. unfold arrivals in *. cbn [omap list_omap] in *. destruct (await t) as [| |d] eqn:Ea; [by apply IH|done|].
  apply Forall_cons_1 in Hb as [Hd Hb]. cbn [map fold_left].
  destruct (on_datagram _ _ _ _ _ _ _ _) as [[rc1 [dm1 s1]]|] eqn:Eo; [|done]. cbn [obind].
  destruct (on_datagram_class _ _ _ _ _ _ _ _ _ Hk Hd Eo) as [<- Hk1]. by apply IH.
Qed.

Lemma receive_loop_prefix turns1 turns2 buffer rc dm s res :
  Forall goes_on turns1 -> receive_loop m_cb (turns1 ++ turns2) buffer rc dm s = Ret res ->
  exists rc' st, receive_loop m_cb turns1 buffer rc dm s = Ret (false, (rc', st)).
Proof.
  intros Ht. revert buffer rc dm s. induction Ht as [|t turns1 [Hr Hl] _ IH]; intros buffer rc dm s; cbn [app receive_loop].
  { intros _. by eexists _, _. }
  rewrite Hr. cbn [negb]. destruct (await t) as [| |d]; [by apply IH|done|].
  destruct (on_datagram _ _ _ _ _ _ _ _) as [[rc1 [dm1 s1]]|]; [|done]. cbn [obind]. apply IH.
Qed.

Lemma arrivals_split turns l1 l2 :
  arrivals turns = l1 ++ l2 -> exists turns1 turns2, turns = turns1 ++ turns2 /\ arrivals turns1 = l1.
Proof.
  revert l1. induction turns as [|t turns IH]; intros l1; unfold arrivals in *; cbn [omap list_omap].
  { intros E. symmetry in E. apply app_eq_nil in E as [-> ->]. by exists [], []. }
  destruct (match await t with Packet d => Some d | _ => None end) as [d|] eqn:Ea.
  - destruct l1 as [|d1 l1]; intros E; [by exists [], (t :: turns)|].
    cbn [app] in E. injection E as -> E. destruct (IH _ E) as (t1 & t2 & -> & <-). exists (t :: t1), t2. cbn [omap list_omap]. by rewrite Ea.
  - intros E. destruct (IH _ E) as (t1 & t2 & -> & <-). exists (t :: t1), t2. cbn [omap list_omap]. by rewrite Ea.
Qed.

(** C4. The receiver takes up the other codec when, and only when, five datagrams of
    it have come with none of the stream's own in between: whatever turns its loop
    makes, the codec has changed after some of them exactly if the recognised
    datagrams among those that arrived hold five of the other codec in a row.
    Datagrams that are not recognised count neither way. *)
Theorem receiver_changes_codec turns buffer rc dm s res :
  m_video_codec rc <> UNKNOWN -> m_codec_mismatch_count rc = 0 ->
  Forall goes_on turns -> Forall bytes_ok (arrivals turns) ->
  receive_loop m_cb turns buffer rc dm s = Ret res ->
  (exists turns1 turns2 rc' st, turns = turns1 ++ turns2 /\
     receive_loop m_cb turns1 buffer rc dm s = Ret (false, (rc', st)) /\ m_video_codec rc' <> m_video_codec rc)
  <-> exists l1 l2, filter (fun c => c <> UNKNOWN) (map class_of (arrivals turns))
                    = l1 ++ replicate 5 (other_codec (m_video_codec rc)) ++ l2.
Proof.
  intros Hk Hn Ht Hb Hrun. pose proof (changes_iff (m_video_codec rc) 0 (map class_of (arrivals turns)) Hk) as Hiff.
  transitivity (has_run 5 (m_video_codec rc) (filter (fun c => c <> UNKNOWN) (map class_of (arrivals turns)))).
  - rewrite <- Hiff by done. split.
    + intros (t1 & t2 & rc' & st & -> & E & Hd). apply Forall_app in Ht as [Ht1 _].
      unfold arrivals in *. rewrite omap_app in *. apply Forall_app in Hb as [Hb1 _]. rewrite map_app.
      eexists _, _. split; [done|].
      pose proof (receive_loop_classes _ _ _ _ _ _ _ _ Ht1 Hb1 Hk E) as Ew.
      unfold watch, arrivals in Ew. rewrite Hn in Ew. by rewrite <- Ew.
    + intros (cs1 & cs2 & E & Hd). apply map_eq_app in E as (l1 & l2 & E & <- & _).
      destruct (arrivals_split _ _ _ E) as (t1 & t2 & -> & <-). apply Forall_app in Ht as [Ht1 _].
      destruct (receive_loop_prefix _ _ _ _ _ _ _ Ht1 Hrun) as (rc' & st & Er).
      exists t1, t2, rc', st. split; [done|]. split; [done|].
      unfold arrivals in Hb. rewrite omap_app in Hb. apply Forall_app in Hb as [Hb1 _].
      pose proof (receive_loop_classes _ _ _ _ _ _ _ _ Ht1 Hb1 Hk Er) as Ew. unfold watch in Ew. rewrite Hn in Ew.
      rewrite <- Ew in Hd. done.
  - split; [|by right]. intros [(l & E)|Hr]; [|done]. exists [], l. by rewrite E.
Qed.
End Changes.

(** ** An H.265 stream *)
(** A NAL unit of the base layer, with a temporal identifier, that is no end of sequence. *)
Definition base_layer (u : list Z) : Prop :=
  exists b0 b1 rest, u = b0 :: b1 :: rest /\ Z.land b0 129 = 0 /\ 1 <= b1 < 8 /\ H265_TYPE b0 <> 36.

Definition not_h264 (p : list Z) : Prop := forall c, detect_rtp_codec p (zlen p) = Ret c -> c <> H264.

Lemma not_h264_intro b0 b1 rest :
  (forall b2, h264_found b0 b1 = true -> h265_found b0 b1 b2 = true) -> not_h264 (b0 :: b1 :: rest).
Proof.
  intros Hf c. unfold detect_rtp_codec. destruct (_ <? 64); [by intros [= <-]|].
  change (rd (b0 :: b1 :: rest) 0) with (Ret b0). change (rd (b0 :: b1 :: rest) 1) with (Ret b1). cbn [obind].
  destruct (rd _ 2) as [b2|]; [|done]. cbn [obind]. cbv zeta. specialize (Hf b2).
  destruct (h264_found b0 b1); [rewrite Hf by done|]; cbn [andb negb].
  - by intros [= <-].
  - destruct (h265_found _ _ _); by intros [= <-].
Qed.

Lemma single_not_h264 u : bytes_ok u -> H265_TYPE (default 0 (head u)) < 48 -> base_layer u -> not_h264 u.
Proof.
  intros Hb Ht (b0 & b1 & rest & -> & H0 & H1 & Hne). cbn [head default id] in Ht. apply not_h264_intro. intros b2.
  apply Forall_cons_1 in Hb as [Hb0 _].
  assert (E : implb ((Z.land b0 129 =? 0) && negb (H265_TYPE b0 =? 36) && (H265_TYPE b0 <? 48))
    (forallb (fun b1 => implb (h264_found b0 b1) (h265_found b0 b1 b2)) [1; 2; 3; 4; 5; 6; 7]) = true).
  { revert b0 Hb0 Ht H0 Hne. intros b0 Hb0 _ _ _. revert b0 Hb0. apply byte_cases. by vm_compute. }
  rewrite (proj2 (Z.eqb_eq _ _) H0), (proj2 (Z.eqb_neq _ _) Hne), (proj2 (Z.ltb_lt _ _) Ht) in E. cbn [andb negb implb] in E.
  rewrite forallb_forall in E. specialize (E b1). rewrite implb_true_iff in E. apply E. cbn. lia.
Qed.

Lemma fragments_not_h264 fuel b0 b1 c first ty mark data :
  Z.land b0 129 = 0 ->
  Forall (fun '(_, pl) => not_h264 pl) (fragments fuel [Z.lor (Z.land b0 129) 98; b1] c first ty mark data).
Proof.
  intros E. rewrite E. change (Z.lor 0 98) with 98. revert first data. induction fuel as [|fuel IH]; intros; [constructor|].
  cbn [fragments]. destruct (_ <=? c); repeat constructor; try apply IH; by apply not_h264_intro.
Qed.

Lemma payloads_not_h264 sz nals :
  Forall (fun u => bytes_ok u /\ H265_TYPE (default 0 (head u)) < 48 /\ base_layer u) nals ->
  Forall (fun '(_, pl) => not_h264 pl) (PackSpec.au_payloads sz nals).
Proof.
  induction 1 as [|u nals (Hb & Ht & Hu) _ IH]; [constructor|]. rewrite PackSpec.h265_au_payloads_cons.
  apply Forall_app. split; [|done]. unfold PackSpec.nal_payloads. cbv zeta. destruct (_ <=? sz).
  - apply Forall_singleton. by apply single_not_h264.
  - destruct Hu as (b0 & b1 & rest & -> & H0 & _). by apply fragments_not_h264.
Qed.

Lemma packet_class hd m pl :
  plain hd -> not_h264 pl -> bytes_ok pl -> class_of (packet_bytes (video_packet hd m pl)) <> H264.
Proof.
  intros Hh Hn Hb. unfold class_of. set (d := packet_bytes _).
  assert (Ed : d = rtp_header_bytes (with_m hd m) ++ pl) by (by apply video_bytes).
  assert (Hz : zlen d = 12 + zlen pl) by (by rewrite Ed, zlen_app, zlen_rtp_header_bytes).
  unfold rtp_classify_codec. pose proof (zlen_nonneg pl). zif.
  assert (E0 : rd d 0 = Ret 128).
  { rewrite Ed. destruct Hh as [_ Hv Hp Hx Hc]. unfold rtp_header_bytes. cbn [with_m hv hp hx cc app].
    by rewrite Hv, Hp, Hx, Hc. }
  rewrite E0. cbn [obind]. change (Z.land (Z.shiftr 128 4) 1 =? 0) with true. cbv iota. cbn [obind].
  change (12 + Z.land 128 15 * 4) with 12. destruct (_ <=? 12); [done|]. rewrite Hz.
  rewrite Ed, adv_app by (by rewrite zlen_rtp_header_bytes). replace (12 + zlen pl - 12) with (zlen pl) by lia.
  destruct (detect_rtp_codec pl (zlen pl)) eqn:E; [by apply Hn|done].
Qed.

Section Stream.
Context `{RtcpFeedback} `{Alloc} `{Build} `{Fpu} {S : Type}.
Hypothesis Halloc : forall n, alloc_ok n = true.
Implicit Types (s : S).

Definition not_rtcp (d : list Z) : Prop := let b := default 0 (d !! 1%nat) in b < 192 \/ 223 < b.

(** Of a datagram that is not RTCP the demultiplexer reads the datagram only. *)
Lemma input_fill onpkt clk addr (dm : rtp_demuxer_t S) s buffer d :
  not_rtcp d ->
  rtp_demuxer_input onpkt clk addr dm s (fill buffer d) (zlen d) = rtp_demuxer_input onpkt clk addr dm s d (zlen d).
Proof.
  intros Hd. unfold rtp_demuxer_input, fill. destruct (Z.ltb_spec (zlen d) 12); [done|]. cbn [orb].
  destruct (_ <? zlen d); [done|]. rewrite rd_fill by lia.
  destruct (rd_in d 1) as (pt & -> & Hpt); [lia|]. cbn [obind]. unfold not_rtcp in Hd.
  change (Z.to_nat 1) with 1%nat in Hpt. rewrite Hpt in Hd. cbn [default id] in Hd.
  rewrite (proj2 (orb_true_iff _ _)) by (rewrite !Z.ltb_lt; done). unfold rtp_demuxer_alloc.
  assert (E : rdn d 0 (zlen d) = Ret d) by (rewrite <- (app_nil_r d) at 1; by apply rdn_all).
  by rewrite rdn_all, E by done.
Qed.

(** A datagram of the stream, for packets of at most [sz] bytes. *)
Definition stream_datagram (sz : Z) (d : list Z) : Prop :=
  bytes_ok d /\ 0 < zlen d <= sz /\ not_rtcp d /\ class_of d <> H264.

Lemma emit_datagrams sz hd units :
  plain hd -> 96 <= pt hd -> Forall (fun '(m, pl) => unit_bytes (m, pl) /\ zlen pl + 12 <= sz) units ->
  Forall (fun '(_, pl) => not_h264 pl) units ->
  Forall (fun '(d, _, _) => stream_datagram sz d) (emit hd units).
Proof.
  intros Hh Hpt Hu. revert hd Hh Hpt. induction Hu as [|[m pl] units [[Hm Hb] Hl] _ IH]; intros hd Hh Hpt Hn; [constructor|].
  apply Forall_cons_1 in Hn as [Hn1 Hn]. cbn [emit]. constructor; [|by apply IH; [apply advance_plain| |]].
  cbn [fst snd] in *. unfold stream_datagram. assert (Hz : zlen (packet_bytes (video_packet hd m pl)) = 12 + zlen pl).
  { rewrite video_bytes by done. by rewrite zlen_app, zlen_rtp_header_bytes. }
  pose proof (zlen_nonneg pl). rewrite Hz. split_and!; try lia.
  - by apply video_bytes_ok.
  - by apply video_not_rtcp.
  - by apply packet_class.
Qed.

Lemma send_datagrams ps pk log :
  packer_ok pk -> 564 <= psize pk <= RTP_PAYLOAD_MAX_SIZE -> 96 <= pt (rtp (ppkt pk)) ->
  Forall picture_ok ps -> Forall (fun p => Forall base_layer (nals_of p)) ps ->
  exists pk' packets, send ps pk log = Ret (0, (pk', log ++ packets)) /\
    Forall (fun '(d, _, _) => stream_datagram (psize pk) d) packets.
Proof.
  intros Hp Hsz Hpt Hps. revert pk log Hp Hsz Hpt.
  induction Hps as [|p ps Hpic _ IH]; intros pk log Hp Hsz Hpt Hbase; cbn [send].
  { exists pk, []. by rewrite app_nil_r. }
  apply Forall_cons_1 in Hbase as [Hb Hbase]. pose proof (pictures_nals p Hpic) as Hn.
  destruct Hpic as [Hl Hf Hr Hfit Hts].
  destruct (pack_input_spec pk (pc_lead p) (pc_first p) (pc_rest p) (pc_tail p) (pc_ts p) log Hp)
    as (pk1 & E & [Hok Hsize Hst]); try done; [lia|]. fold (picture_bytes p) (nals_of p) in *.
  set (units := PackSpec.au_payloads (psize pk) (nals_of p)) in *.
  set (hd := with_timestamp (rtp (ppkt pk)) (pc_ts p)) in *.
  destruct (IH pk1 (log ++ emit hd units)) as (pk2 & packets & Es & Hds);
    [done|by rewrite Hsize|by rewrite (f_equal pt Hst : pt (rtp (ppkt pk1)) = pt (rtp (ppkt pk)))|done|].
  rewrite E. cbn [obind Z.eqb]. exists pk2, (emit hd units ++ packets).
  split; [by rewrite Es, app_assoc|]. rewrite Hsize in Hds. apply Forall_app. split; [|done].
  assert (Hh : plain hd) by (by apply with_ts_plain, Hts; apply packer_plain).
  apply emit_datagrams; [done|done| |].
  - exact (units_fit _ _ Hsz Hn).
  - apply payloads_not_h264. apply Forall_forall. intros u Hin.
    destruct (proj1 (Forall_forall _ _) Hn u Hin) as (Hub & _ & Ht).
    split_and!; [done|done|by apply (proj1 (Forall_forall _ _) Hb)].
Qed.

(** What the callback of the receiver makes of a unit. *)
Context (m_cb : S -> option (list Z) -> Z -> bool -> S).
Definition shown (s : S) (d : delivery) : S := let '(data, _, _) := d in m_cb s (Some data) (zlen data) false.

Definition scons {A} (x : A) (f : nat -> A) (i : nat) : A :=
  match i with O => x | Datatypes.S i => f i end.

Lemma on_datagram_own sz clk addr rc (dm : rtp_demuxer_t S) s buffer d :
  stream_datagram sz d -> m_video_codec rc = H265 ->
  exists count, on_datagram m_cb clk addr rc dm s (fill buffer d) (zlen d) =
    (do* (_, st) <- rtp_demuxer_input (client shown) clk addr dm s d (zlen d) ;; Ret (set_codec rc H265 count, st)).
Proof.
  intros (Hb & _ & Hr & Hc) Hk. unfold on_datagram. rewrite classify_fill, Hk by done. cbn [obind].
  rewrite input_fill by done. change (Some (main_rtp_cb m_cb)) with (client shown).
  assert (E : negb (bool_decide (class_of d = UNKNOWN)) && negb (bool_decide (class_of d = H265)) = false)
    by (destruct (class_of d) eqn:Ec; [reflexivity|congruence|reflexivity]).
  rewrite E. cbn [andb].
  exists (if bool_decide (class_of d = H265) then 0 else m_codec_mismatch_count rc).
  destruct (bool_decide (class_of d = H265)); cbn [obind];
    destruct (rtp_demuxer_input (client shown) clk addr dm s d (zlen d)) as [[r [dm' s']]|]; reflexivity.
Qed.

(** The loop does with the datagrams of a stream what the demultiplexer does with them. *)
Lemma receive_loop_feed sz turns buffer rc dm s ds (Q : rtp_demuxer_t S * S -> Prop) :
  Forall goes_on turns -> arrivals turns = map (fun d => fst (fst d)) ds ->
  Forall (fun '(d, _, _) => stream_datagram sz d) ds -> m_video_codec rc = H265 ->
  (forall clk addr, post (feed shown clk addr dm s ds) (fun '(r, st) => r = 0 /\ Q st)) ->
  post (receive_loop m_cb turns buffer rc dm s) (fun '(over, (rc', st)) =>
    over = false /\ m_video_codec rc' = H265 /\ Q st).
Proof.
  intros Ht. revert buffer rc dm s ds. induction Ht as [|t turns [Hr Hl] _ IH]; intros buffer rc dm s ds Ha Hds Hk Hf;
    cbn [receive_loop]; unfold arrivals in *; cbn [omap list_omap] in Ha.
  { destruct ds; [|done]. specialize (Hf (fun _ _ => 0) (fun _ => 0)). by destruct Hf. }
  rewrite Hr. cbn [negb]. destruct (await t) as [| |d] eqn:Ea; [by eapply IH|done|].
  destruct ds as [|[[d' ts] fl] ds]; [done|]. cbn [map fst] in Ha. injection Ha as <- Ha.
  apply Forall_cons_1 in Hds as [Hd Hds].
  destruct (on_datagram_own sz (t_clk t) (t_addr t) rc dm s buffer d Hd Hk) as [count ->].
  assert (Hf' : forall clk addr, post (feed shown (scons (t_clk t) clk) (scons (t_addr t) addr) dm s ((d, ts, fl) :: ds))
    (fun '(r, st) => r = 0 /\ Q st)) by (intros; apply Hf).
  cbn [feed scons] in Hf'. destruct (rtp_demuxer_input _ _ _ _ _ _ _) as [[r [dm' s']]|c]; cbn [obind] in *.
  - eapply IH; [exact Ha|done|done|]. intros clk addr. specialize (Hf' clk addr). destruct (r =? 0) eqn:Er; [done|].
    cbn [post] in Hf'. destruct Hf' as [-> _]. done.
  - apply (Hf' (fun _ _ => 0) (fun _ => 0)).
Qed.

Lemma receive_loop_app turns1 turns2 buffer rc dm s (Q : bool * (RtpReceiver * (rtp_demuxer_t S * S)) -> Prop) :
  Forall goes_on turns1 ->
  post (receive_loop m_cb turns1 buffer rc dm s) (fun '(_, (rc', (dm', s'))) =>
    forall buffer', post (receive_loop m_cb turns2 buffer' rc' dm' s') Q) ->
  post (receive_loop m_cb (turns1 ++ turns2) buffer rc dm s) Q.
Proof.
  intros Ht. revert buffer rc dm s. induction Ht as [|t turns1 [Hr Hl] _ IH]; intros buffer rc dm s; cbn [app receive_loop].
  { cbn [post]. auto. }
  rewrite Hr. cbn [negb]. destruct (await t) as [| |d]; [by apply IH|done|].
  intros Hp. apply post_bind_inv in Hp. ostep. eapply post_mono; [exact Hp|]. intros [rc' [dm' s']]. apply IH.
Qed.

(** What [recvfrom] brought, before it is cut to the buffer. *)
Definition carried (turns : list turn) : list (list Z) :=
  omap (fun t => match t_poll t with PollIn (Some d) => Some d | _ => None end) turns.

Lemma carried_arrive turns :
  Forall (fun d => 0 < zlen d <= BUFFER_SIZE) (carried turns) -> arrivals turns = carried turns.
Proof.
  induction turns as [|t turns IH]; [done|]. unfold arrivals, carried, await in *. cbn [omap list_omap].
  destruct (t_poll t) as [[]| | |[d|]]; try done. intros Hd. apply Forall_cons_1 in Hd as [[Hd1 Hd2] Hd]. cbv zeta.
  assert (E : take (Z.to_nat BUFFER_SIZE) d = d) by (apply take_ge; unfold zlen in Hd2; lia).
  rewrite E. zif. by rewrite IH.
Qed.

Lemma receive_pictures now rnd turns stop rest buffer pk ps rc (s0 : S) :
  packer_ok pk -> 564 <= psize pk <= BUFFER_SIZE -> 96 <= pt (rtp (ppkt pk)) ->
  Forall picture_ok ps -> Forall (fun p => Forall base_layer (nals_of p)) ps -> m_video_codec rc = H265 ->
  Forall goes_on turns -> t_running stop = false ->
  exists pk' packets, send ps pk [] = Ret (0, (pk', packets)) /\
    (carried turns = map (fun d => fst (fst d)) packets ->
     post (rtp_receiver_thread m_cb now rnd (turns ++ stop :: rest) buffer rc s0) (fun st =>
       exists rc' σ, st = Exited rc' (fold_left shown (pictures_out ps) s0) (Some (σ, ∅)) /\
                     m_video_codec rc' = H265)).
Proof.
  intros Hp Hsz Hpt Hps Hbase Hk Ht Hstop.
  assert (Hmax : 564 <= psize pk <= RTP_PAYLOAD_MAX_SIZE) by (unfold BUFFER_SIZE, RTP_PAYLOAD_MAX_SIZE in *; lia).
  destruct (stream_pictures shown Halloc ps pk [] Hp Hmax Hpt Hps) as (pk' & packets & Es & Hfeed).
  destruct (send_datagrams ps pk [] Hp Hmax Hpt Hps Hbase) as (pk2 & packets2 & Es2 & Hds).
  rewrite Es in Es2. injection Es2 as <- <-. cbn [app] in *. exists pk', packets. split; [done|]. intros Hc.
  assert (Ha : arrivals turns = map (fun d => fst (fst d)) packets).
  { rewrite <- Hc. apply carried_arrive. rewrite Hc. apply Forall_map. eapply Forall_impl; [exact Hds|].
    intros [[d ts] fl] (_ & Hd & _). cbn [fst]. lia. }
  unfold rtp_receiver_thread. rewrite Hk. cbv zeta. change (String.eqb _ "UNKNOWN") with false. cbv iota. ostep.
  eapply post_mono; [apply create_h265; [done..|unfold RTP_PAYLOAD_DYNAMIC; lia]|]. intros o (dm & -> & Hin). ostep.
  eapply post_mono.
  - apply receive_loop_app; [done|]. eapply post_mono.
    { eapply (receive_loop_feed _ _ _ _ _ _ packets (fun st => snd st = fold_left shown (pictures_out ps) s0 /\
        exists sq d, in_step (fst st) sq (h265_ctx d) /\ UnpackSpec.ready d sq []));
        [done|done|exact Hds|done|]. intros clk addr.
      eapply post_mono; [apply (Hfeed clk addr dm s0 (RtpUtil.seq (rtp (ppkt pk))) H265.Unpack.rtp_h265_unpack_create);
        [done|apply UnpackSpec.h265_create_ready|done]|].
      intros [r [dm' s']] (-> & Hs & Hex). split; [done|]. exact (conj Hs Hex). }
    intros [over [rc' [dm' s']]] (-> & Hk' & Hs & Hex) buffer'. cbn [receive_loop]. rewrite Hstop. cbn [negb post].
    instantiate (1 := fun '(over, (rc', (dm', s'))) => over = true /\ m_video_codec rc' = H265 /\
      s' = fold_left shown (pictures_out ps) s0 /\ exists sq d, in_step dm' sq (h265_ctx d) /\ UnpackSpec.ready d sq []).
    done.
  - intros [over [rc' [dm' s']]] (-> & Hk' & -> & sq & d & Hin' & Hd). ostep.
    eapply post_mono; [by eapply destroy_demux, in_step_state|]. intros [σ blocks] [_ Hb]. ostep.
    exists rc', σ. split; [|done]. do 3 f_equal. apply set_eq. intros a. by rewrite Hb, elem_of_nil, elem_of_empty.
Qed.

(** C2. From the sender's pictures to the decoder: the datagrams the packer makes of
    pictures whose NAL units are of the base layer, received by the program's thread in
    turns that may also time out or be interrupted, make the thread call its callback
    once for every NAL unit of every picture, behind a start code, in order and
    unchanged, and with nothing else; none of them is taken for H.264, so the codec
    stays; and when the thread is told to stop it has given back every block of the
    heap. *)
Theorem receiver_shows_pictures now rnd turns stop rest buffer pk ps rc (s0 : S) :
  packer_ok pk -> 564 <= psize pk <= BUFFER_SIZE -> 96 <= pt (rtp (ppkt pk)) ->
  Forall picture_ok ps -> Forall (fun p => Forall base_layer (nals_of p)) ps -> m_video_codec rc = H265 ->
  Forall goes_on turns -> t_running stop = false ->
  exists pk' packets, send ps pk [] = Ret (0, (pk', packets)) /\
    (carried turns = map (fun d => fst (fst d)) packets ->
     post (rtp_receiver_thread m_cb now rnd (turns ++ stop :: rest) buffer rc s0) (fun st =>
       exists rc' σ, st = Exited rc' (fold_left shown (pictures_out ps) s0) (Some (σ, ∅)) /\
                     m_video_codec rc' = H265)).
Proof. apply receive_pictures. Qed.
End Stream.

(** ** Concrete runs *)
Definition returned {A} (m : outcome (option A)) : match m with Ret (Some _) => True | _ => False end -> A :=
  match m with
  | Ret (Some a) => fun _ => a
  | _ => fun H => match H with end
  end.

Lemma ran {A} (m : outcome A) : match m with Ret _ => true | Crash _ => false end = true -> exists a, m = Ret a.
Proof. destruct m; [by eexists|done]. Qed.

Abbreviation formats := (@rtcp_formats always_alloc release_build).
Definition said : list (option (list Z) * bool) -> option (list Z) -> Z -> bool -> list (option (list Z) * bool) :=
  fun log data _ changed => log ++ [(data, changed)].
Definition brings (d : list Z) : turn := mk_turn true false (PollIn (Some d)) (fun _ => 5) 0.
Definition idles (p : polled) : turn := mk_turn true false p (fun _ => 5) 0.
Definition stops : turn := mk_turn false false PollTimeout (fun _ => 5) 0.
Definition clean_buffer : list Z := replicate (Z.to_nat BUFFER_SIZE) 0.
Definition receiving (c : VideoCodec) : RtpReceiver := mk_receiver c 0 true (Some true).

Lemma bytes_check d : forallb (fun b => (0 <=? b) && (b <? 256)) d = true -> bytes_ok d.
Proof.
  intros Hd. apply List.Forall_forall. intros b Hb. rewrite forallb_forall in Hd. specialize (Hd b Hb).
  apply andb_prop in Hd as [? ?]. unfold is_byte. lia.
Qed.

Lemma clean_buffer_ok : buffer_ok clean_buffer.
Proof.
  unfold clean_buffer. split; [by rewrite zlen_replicate|]. apply Forall_replicate. unfold is_byte. lia.
Qed.

Lemma short_datagram_ok d : bytes_ok d -> zlen d <= 1600 -> zlen d < 12 \/ not_rtcp d -> @datagram_ok formats release_build (@rtcp_formats_safe always_alloc release_build) d.
Proof.
  intros Hb Hl Hs. split; [done|]. intros buffer Hz Hbuf. destruct (fill_ok buffer d) as [Hf Hfb]; try done.
  split; [done|]. split; [by rewrite Hf|]. intros H12 Hr. exfalso. destruct Hs as [?|Hs]; [lia|].
  unfold not_rtcp, fill in *. rewrite lookup_app_l in Hr; [lia|]. unfold zlen in H12. lia.
Qed.

Definition mixed_traffic : list turn :=
  [idles PollTimeout; brings (datagram 7); idles (PollError true); brings [128; 96; 1]; idles (PollIn None);
   brings (datagram 9); idles PollHangup; brings (datagram 8); stops].

Lemma sample_datagrams_ok :
  Forall (@datagram_ok formats release_build (@rtcp_formats_safe always_alloc release_build)) (arrivals mixed_traffic).
Proof.
  change (arrivals mixed_traffic) with [datagram 7; [128; 96; 1]; datagram 9; datagram 8].
  repeat (apply Forall_cons; split; [apply short_datagram_ok; [by apply bytes_check|by vm_compute|]|]).
  - right. by left.
  - by left.
  - right. by left.
  - right. by left.
  - constructor.
Qed.


(** An H.265 stream that comes where H.264 was: slices of 64 bytes. *)
Definition hevc_packet (sq : Z) : list Z :=
  [128; 96] ++ be16 sq ++ be32 9 ++ be32 5 ++ [2; 1] ++ replicate 62 7.
Definition new_stream : list turn := map (fun i => brings (hevc_packet i)) [1; 2; 3; 4; 5].

Definition h264_demuxer : @rtp_demuxer_t formats (list (option (list Z) * bool)) :=
  returned (@rtp_demuxer_create formats always_alloc release_build saturating _ (0, 0, 0) 7 0 90000 96
              (Some "H264"%string)) I.

Lemma receiver_changes_codec_witness :
  exists res,
    @receive_loop formats always_alloc release_build saturating _ said new_stream clean_buffer (receiving H264)
      h264_demuxer [] = Ret res /\
    ((exists turns1 turns2 rc' st, new_stream = turns1 ++ turns2 /\
       @receive_loop formats always_alloc release_build saturating _ said turns1 clean_buffer (receiving H264)
         h264_demuxer [] = Ret (false, (rc', st)) /\ m_video_codec rc' <> H264)
     <-> exists l1 l2, filter (fun c => c <> UNKNOWN) (map class_of (arrivals new_stream))
                       = l1 ++ replicate 5 H265 ++ l2) /\
    filter (fun c => c <> UNKNOWN) (map class_of (arrivals new_stream)) = replicate 5 H265.
Proof.
  destruct (ran (@receive_loop formats always_alloc release_build saturating _ said new_stream clean_buffer
                   (receiving H264) h264_demuxer [])) as [res Hres]; [by vm_compute|].
  exists res. split; [exact Hres|]. split; [|by vm_compute].
  apply (@receiver_changes_codec formats always_alloc release_build saturating _ said new_stream clean_buffer
           (receiving H264) h264_demuxer [] res); [done|done| | |exact Hres].
  - repeat (constructor; [by split|]). constructor.
  - apply List.Forall_forall. intros d Hd. apply bytes_check.
    revert d Hd. apply List.Forall_forall. by repeat constructor.
Defined.

(** The sample pictures are of the base layer; their datagrams come among time-outs. *)
Definition datagrams_of (m : outcome (Z * (rtp_packer * list delivery))) : list (list Z) :=
  match m with
  | Ret (_, (_, packets)) => map (fun d => fst (fst d)) packets
  | Crash _ => []
  end.
Definition sent_datagrams : list (list Z) := datagrams_of (@send release_build sample_pictures sample_packer []).
Definition among (ds : list (list Z)) : list turn :=
  idles PollTimeout :: flat_map (fun d => [brings d; idles (PollError true)]) ds.

Lemma among_go_on ds : Forall goes_on (among ds).
Proof.
  unfold among. constructor; [done|]. induction ds as [|d ds IH]; [constructor|].
  cbn [flat_map app]. constructor; [|by constructor]. split; [done|]. unfold await, brings. cbn. by destruct (_ <? _).
Qed.

Lemma among_carry ds : carried (among ds) = ds.
Proof.
  unfold among, carried. cbn [omap list_omap t_poll idles]. induction ds as [|d ds IH]; [done|].
  cbn [flat_map app omap list_omap t_poll brings idles]. by rewrite IH.
Qed.

Lemma sample_base_layer : Forall (fun p => Forall base_layer (nals_of p)) sample_pictures.
Proof. repeat constructor; eexists _, _, _; (split; [reflexivity|]); by vm_compute. Qed.

Lemma receiver_shows_pictures_witness :
  exists pk' packets, @send release_build sample_pictures sample_packer [] = Ret (0, (pk', packets)) /\
    (carried (among sent_datagrams) = map (fun d => fst (fst d)) packets ->
     @post release_build _
       (@rtp_receiver_thread formats always_alloc release_build saturating _ said (0, 0, 0) 7 (among sent_datagrams ++ [stops])
          clean_buffer (receiving H265) []) (fun st =>
       exists rc' σ, st = Exited rc' (fold_left (shown said) (pictures_out sample_pictures) []) (Some (σ, ∅)) /\
                     m_video_codec rc' = H265)).
Proof.
  apply (@receiver_shows_pictures formats always_alloc release_build saturating _ (fun _ => eq_refl) said
           (0, 0, 0) 7 (among sent_datagrams) stops [] clean_buffer sample_packer sample_pictures (receiving H265) []).
  - apply sample_packer_ok.
  - unfold BUFFER_SIZE. cbn. unfold s_max_packet_size. lia.
  - by vm_compute.
  - apply sample_pictures_ok.
  - apply sample_base_layer.
  - done.
  - apply among_go_on.
  - done.
Defined.

(** The condition on the datagrams holds of these turns. *)
Example sent_datagrams_match pk' packets :
  @send release_build sample_pictures sample_packer [] = Ret (0, (pk', packets)) ->
  carried (among sent_datagrams) = map (fun d => fst (fst d)) packets.
Proof. intros E. rewrite among_carry. unfold sent_datagrams. by rewrite E. Qed.

(** An SEI unit of H.264 is taken for a slice of H.265, and a slice of it that is no
    key frame mostly for neither: five units of the former end the stream. *)
Definition sei_packet : list Z := [128; 96] ++ be16 1 ++ be32 9 ++ be32 5 ++ [6; 5; 60] ++ replicate 61 1.
Definition p_slice_packet : list Z := [128; 96] ++ be16 1 ++ be32 9 ++ be32 5 ++ [65; 154; 60] ++ replicate 61 1.
Example sei_is_h265 : class_of sei_packet = H265 /\ class_of p_slice_packet = UNKNOWN.
Proof. by vm_compute. Qed.
