(* ===== verification/Ini.v ===== *)
(** The INI parser the program reads its configuration with (lib/inih/ini.c, with
    the options ini.h sets: lines of 200 bytes on the stack, continuation lines,
    byte-order mark, inline comments behind a semicolon). *)

From S2P Require Import Prelude.

(** ** Characters and C strings.  A [char] is its [unsigned char] value. *)
Definition isspace (c : Z) : bool := (c =? 32) || ((9 <=? c) && (c <=? 13)).

(** [strchr(s, c)] is not null; the terminator is part of the string. *)
Definition strchr (s : list Z) (c : Z) : bool := existsb (Z.eqb c) s || (c =? 0).

Fixpoint cstr (p : list Z) : outcome (list Z) :=
  match p with
  | [] => Crash OutOfBounds
  | c :: p => if c =? 0 then Ret [] else do s <- cstr p ;; Ret (c :: s)
  end.

Definition strlen (p : list Z) : outcome Z := do s <- cstr p ;; Ret (zlen s).

Definition NEWLINE : Z := 10.
Definition INI_MAX_LINE : Z := 200.
Definition MAX_SECTION : Z := 50.
Definition MAX_NAME : Z := 50.
Definition ABYSS : Z := 16.
Definition INI_START_COMMENT_PREFIXES : list Z := [59; 35].
Definition INI_INLINE_COMMENT_PREFIXES : list Z := [59].

(** ** Scanning.  A pointer into [line] is its index. *)
Fixpoint rstrip_loop (fuel : nat) (line : list Z) (s e : Z) : outcome (list Z) :=
  if s <? e then
    match fuel with
    | O => Crash Diverge
    | S fuel =>
        do c <- rd line (e - 1) ;;
        if isspace c then
          do line <- wrn line (e - 1) [0] ;;
          rstrip_loop fuel line s (e - 1)
        else Ret line
    end
  else Ret line.

Definition ini_rstrip (line : list Z) (s e : Z) : outcome (list Z) :=
  rstrip_loop (Z.to_nat (e - s)) line s e.

Fixpoint lskip_loop (fuel : nat) (line : list Z) (s : Z) : outcome Z :=
  do c <- rd line s ;;
  if negb (c =? 0) && isspace c then
    match fuel with O => Crash Diverge | S fuel => lskip_loop fuel line (s + 1) end
  else Ret s.

Definition ini_lskip (line : list Z) (s : Z) : outcome Z := lskip_loop (length line) line s.

(** [chars] is null or a string. *)
Fixpoint find_loop (fuel : nat) (line : list Z) (s : Z) (chars : option (list Z)) (was_space : bool)
  : outcome Z :=
  do c <- rd line s ;;
  if negb (c =? 0)
     && match chars with None => true | Some cs => negb (strchr cs c) end
     && negb (was_space && strchr INI_INLINE_COMMENT_PREFIXES c)
  then
    match fuel with O => Crash Diverge | S fuel => find_loop fuel line (s + 1) chars (isspace c) end
  else Ret s.

Definition ini_find_chars_or_comment (line : list Z) (s : Z) (chars : option (list Z)) : outcome Z :=
  find_loop (length line) line s chars false.

(** [dest] is an array of [size] characters, the whole of it. *)
Fixpoint strncpy0_loop (n : nat) (i : Z) (dest src : list Z) : outcome (list Z * Z) :=
  match n with
  | O => Ret (dest, i)
  | S n =>
      do c <- rd src i ;;
      if c =? 0 then Ret (dest, i)
      else do dest <- wrn dest i [c] ;; strncpy0_loop n (i + 1) dest src
  end.

Definition ini_strncpy0 (dest src : list Z) (size : Z) : outcome (list Z) :=
  do* (dest, i) <- strncpy0_loop (Z.to_nat (size - 1)) 0 dest src ;;
  wrn dest i [0].

(** ** Readers: [None] is the null pointer; [str] is the array that is filled *)
Fixpoint reader_copy (ctx : list Z) (num : Z) (str : list Z) (off : Z) : outcome (list Z * Z * list Z) :=
  match ctx with
  | c :: rest =>
      if 1 <? num then
        do str <- wrn str off [c] ;;
        if c =? NEWLINE then Ret (str, off + 1, rest) else reader_copy rest (num - 1) str (off + 1)
      else Ret (str, off, ctx)
  | [] => Ret (str, off, [])
  end.

Definition ini_reader_string (str : list Z) (num : Z) (ctx : list Z) : outcome (option (list Z * list Z)) :=
  match ctx with
  | [] => Ret None
  | _ =>
      if num <? 2 then Ret None
      else
        do* (str, off, ctx) <- reader_copy ctx num str 0 ;;
        do str <- wrn str off [0] ;;
        Ret (Some (str, ctx))
  end.

(** ** The parser *)
Section Parse.
Context {U Stream : Type}.
(** Reads a line into an array; the client's callback on section, name and value. *)
Context (reader : list Z -> Z -> Stream -> outcome (option (list Z * Stream))).
Context (handler : U -> list Z -> list Z -> list Z -> Z * U).

Record parser := mk_parser {
  line : list Z;
  section : list Z;
  prev_name : list Z;
  lineno : Z;
  error : Z;
  user : U
}.

Definition set_line (p : parser) (l : list Z) : parser :=
  mk_parser l (section p) (prev_name p) (lineno p) (error p) (user p).
Definition set_section (p : parser) (s pn : list Z) : parser :=
  mk_parser (line p) s pn (lineno p) (error p) (user p).
Definition set_prev (p : parser) (pn : list Z) : parser :=
  mk_parser (line p) (section p) pn (lineno p) (error p) (user p).
Definition set_lineno (p : parser) (n : Z) : parser :=
  mk_parser (line p) (section p) (prev_name p) n (error p) (user p).
Definition set_error (p : parser) : parser :=
  mk_parser (line p) (section p) (prev_name p) (lineno p) (if error p =? 0 then lineno p else error p) (user p).
Definition set_user (p : parser) (u : U) : parser :=
  mk_parser (line p) (section p) (prev_name p) (lineno p) (error p) u.

(** [if (!HANDLER(user, section, name, value) && !error) error = lineno;] *)
Definition call_handler (p : parser) (name value : list Z) : outcome parser :=
  do s <- cstr (section p) ;;
  do n <- cstr name ;;
  do v <- cstr value ;;
  let '(r, u) := handler (user p) s n v in
  let p := set_user p u in
  Ret (if r =? 0 then set_error p else p).

(** The rest of a line longer than the buffer. *)
Fixpoint discard_loop (fuel : nat) (p : parser) (abyss : list Z) (stream : Stream)
  : outcome (parser * list Z * Stream) :=
  do o <- reader abyss ABYSS stream ;;
  match o with
  | None => Ret (p, abyss, stream)
  | Some (abyss, stream) =>
      let p := set_error p in
      do n <- strlen abyss ;;
      do nl <- (if 0 <? n then do c <- rd abyss (n - 1) ;; Ret (c =? NEWLINE) else Ret false) ;;
      if nl then Ret (p, abyss, stream)
      else match fuel with O => Crash Diverge | S fuel => discard_loop fuel p abyss stream end
  end.

(** Where the text of a line starts: behind a byte-order mark on the first one. *)
Definition skip_bom (p : parser) : outcome Z :=
  if lineno p =? 1 then
    do c0 <- rd (line p) 0 ;;
    if negb (c0 =? 239) then Ret 0
    else
      do c1 <- rd (line p) 1 ;;
      if negb (c1 =? 187) then Ret 0
      else do c2 <- rd (line p) 2 ;; Ret (if c2 =? 191 then 3 else 0)
  else Ret 0.

(** A line that continues the value of the previous name. *)
Definition continuation_line (p : parser) (start : Z) : outcome parser :=
  do e <- ini_find_chars_or_comment (line p) start None ;;
  do l <- wrn (line p) e [0] ;;
  do l <- ini_rstrip l start e ;;
  let p := set_line p l in
  call_handler p (prev_name p) (adv l start).

(** A [[section]] line. *)
Definition section_line (p : parser) (start : Z) : outcome parser :=
  do e <- ini_find_chars_or_comment (line p) (start + 1) (Some [93]) ;;
  do c <- rd (line p) e ;;
  if c =? 93 then
    do l <- wrn (line p) e [0] ;;
    do s <- ini_strncpy0 (section p) (adv l (start + 1)) MAX_SECTION ;;
    do pn <- wrn (prev_name p) 0 [0] ;;
    Ret (set_section (set_line p l) s pn)
  else Ret (set_error p).

(** A [name = value] line. *)
Definition pair_line (p : parser) (start : Z) : outcome parser :=
  do e <- ini_find_chars_or_comment (line p) start (Some [61; 58]) ;;
  do c <- rd (line p) e ;;
  if (c =? 61) || (c =? 58) then
    do l <- wrn (line p) e [0] ;;
    do l <- ini_rstrip l start e ;;
    let value := e + 1 in
    do e <- ini_find_chars_or_comment l value None ;;
    do l <- wrn l e [0] ;;
    do value <- ini_lskip l value ;;
    do l <- ini_rstrip l value e ;;
    do pn <- ini_strncpy0 (prev_name p) (adv l start) MAX_NAME ;;
    call_handler (set_prev (set_line p l) pn) (adv l start) (adv l value)
  else Ret (set_error p).

(** The body of the loop behind the reader: [offset] is the length of the line. *)
Definition parse_line (p : parser) (offset : Z) : outcome parser :=
  do start0 <- skip_bom p ;;
  do start <- ini_lskip (line p) start0 ;;
  do l <- ini_rstrip (line p) start offset ;;
  let p := set_line p l in
  do c <- rd l start ;;
  if strchr INI_START_COMMENT_PREFIXES c then Ret p
  else
    do pn <- rd (prev_name p) 0 ;;
    if negb (pn =? 0) && negb (c =? 0) && (0 <? start) then continuation_line p start
    else if c =? 91 then section_line p start
    else if negb (c =? 0) then pair_line p start
    else Ret p.

Fixpoint parse_loop (fuel : nat) (p : parser) (abyss : list Z) (stream : Stream) : outcome parser :=
  do o <- reader (line p) INI_MAX_LINE stream ;;
  match o with
  | None => Ret p
  | Some (l, stream) =>
      match fuel with
      | O => Crash Diverge
      | S fuel' =>
          let p := set_line p l in
          do offset <- strlen l ;;
          let p := set_lineno p (lineno p + 1) in
          do* (p, abyss, stream) <-
            (if offset =? INI_MAX_LINE - 1 then
               do c <- rd l (offset - 1) ;;
               if negb (c =? NEWLINE) then discard_loop fuel p abyss stream
               else Ret (p, abyss, stream)
             else Ret (p, abyss, stream)) ;;
          do p <- parse_line p offset ;;
          parse_loop fuel' p abyss stream
      end
  end.

(** [line0] and [abyss0] are the arrays on the stack as the call finds them;
    [section] and [prev_name] are initialised to empty strings. *)
Definition ini_parse_stream (fuel : nat) (line0 abyss0 : list Z) (stream : Stream) (u : U)
  : outcome (Z * U) :=
  do p <- parse_loop fuel (mk_parser line0 (replicate (Z.to_nat MAX_SECTION) 0)
                             (replicate (Z.to_nat MAX_NAME) 0) 0 0 u) abyss0 stream ;;
  Ret (error p, user p).
End Parse.
Arguments parser : clear implicits.

Section Clients.
Context {U : Type} (handler : U -> list Z -> list Z -> list Z -> Z * U).

Definition ini_parse_string_length (line0 abyss0 : list Z) (string : list Z) (length : Z) (u : U)
  : outcome (Z * U) :=
  do s <- rdn string 0 length ;;
  ini_parse_stream ini_reader_string handler (S (Datatypes.length s)) line0 abyss0 s u.

Definition ini_parse_string (line0 abyss0 : list Z) (string : list Z) (u : U) : outcome (Z * U) :=
  do n <- strlen string ;;
  ini_parse_string_length line0 abyss0 string n u.

(** [fgets] on what is left of a file: at most [num - 1] characters, up to and with
    a newline, then a terminator. *)
Definition fgets (str : list Z) (num : Z) (file : list Z) : outcome (option (list Z * list Z)) :=
  ini_reader_string str num file.

Definition ini_parse_file (line0 abyss0 : list Z) (file : list Z) (u : U) : outcome (Z * U) :=
  ini_parse_stream fgets handler (S (Datatypes.length file)) line0 abyss0 file u.

(** [fopen] gives the content of the file or nothing. *)
Definition ini_parse (line0 abyss0 : list Z) (file : option (list Z)) (u : U) : outcome (Z * U) :=
  match file with
  | None => Ret (-1, u)
  | Some f => ini_parse_file line0 abyss0 f u
  end.
End Clients.
