(* ===== verification/IniSpec.v ===== *)
(** What an INI text means, on lists of characters: the reference the parser of
    Ini.v is proved equivalent to.  No buffers and no indices: trimming, splitting
    at a separator or an inline comment, and a fold over the lines of the text. *)

From S2P Require Import Prelude Ini.

(** ** Trimming and splitting *)
Fixpoint ltrim (s : list Z) : list Z :=
  match s with
  | [] => []
  | c :: s' => if isspace c then ltrim s' else s
  end.

Fixpoint rtrim (s : list Z) : list Z :=
  match s with
  | [] => []
  | c :: s' => match rtrim s' with
               | [] => if isspace c then [] else [c]
               | t => c :: t
               end
  end.

(** What stands before the first separator or comment, and the rest from there on. *)
Fixpoint split_at (sep : Z -> bool) (was_space : bool) (s : list Z) : list Z * list Z :=
  match s with
  | [] => ([], [])
  | c :: s' =>
      if sep c || (was_space && (c =? 59)) then ([], s)
      else let '(a, b) := split_at sep (isspace c) s' in (c :: a, b)
  end.

Definition no_sep (c : Z) : bool := false.
Definition eq_colon (c : Z) : bool := (c =? 61) || (c =? 58).
Definition bracket (c : Z) : bool := c =? 93.

Definition uncomment (s : list Z) : list Z := fst (split_at no_sep false s).

(** ** Lines: a line ends behind its newline *)
Fixpoint lines (s : list Z) : list (list Z) :=
  match s with
  | [] => []
  | c :: s' =>
      if c =? NEWLINE then [c] :: lines s'
      else match lines s' with
           | [] => [[c]]
           | l :: ls => (c :: l) :: ls
           end
  end.

(** What one line says. *)
Inductive item :=
| Blank
| Bad
| Section (name : list Z)
| Entry (name value : list Z)
| Continues (value : list Z).
#[export] Instance item_eq_dec : EqDecision item.
Proof. solve_decision. Defined.

Definition unmark (first : bool) (t : list Z) : list Z :=
  match t with
  | 239 :: 187 :: 191 :: t' => if first then t' else t
  | _ => t
  end.

Definition classify (first continued : bool) (t : list Z) : item :=
  let indented := ltrim (unmark first t) in
  let s := rtrim indented in
  match s with
  | [] => Blank
  | c :: s' =>
      if (c =? 59) || (c =? 35) then Blank
      else if continued && (zlen indented <? zlen t) then Continues (rtrim (uncomment s))
      else if c =? 91 then
        match split_at bracket false s' with
        | (name, d :: _) => if bracket d then Section name else Bad
        | (_, []) => Bad
        end
      else
        match split_at eq_colon false s with
        | (name, d :: v) =>
            if eq_colon d then Entry (rtrim name) (rtrim (ltrim (uncomment v))) else Bad
        | (_, []) => Bad
        end
  end.

(** ** The meaning of a text *)
Section Meaning.
Context {U : Type} (handler : U -> list Z -> list Z -> list Z -> Z * U).

Record config := mk_config {
  in_section : list Z;      (* the current section *)
  last_name : list Z;       (* the name a further line would continue *)
  at_line : Z;
  first_error : Z;          (* the line of the first error, or 0 *)
  client : U
}.

Definition complain (σ : config) : config :=
  mk_config (in_section σ) (last_name σ) (at_line σ)
    (if first_error σ =? 0 then at_line σ else first_error σ) (client σ).

Definition tell (σ : config) (name value : list Z) : config :=
  let '(r, u) := handler (client σ) (in_section σ) name value in
  let σ := mk_config (in_section σ) (last_name σ) (at_line σ) (first_error σ) u in
  if r =? 0 then complain σ else σ.

Definition nonempty (s : list Z) : bool := match s with [] => false | _ => true end.

Definition apply_item (σ : config) (i : item) : config :=
  match i with
  | Blank => σ
  | Bad => complain σ
  | Section name => mk_config (take 49 name) [] (at_line σ) (first_error σ) (client σ)
  | Entry name value =>
      tell (mk_config (in_section σ) (take 49 name) (at_line σ) (first_error σ) (client σ)) name value
  | Continues value => tell σ (last_name σ) value
  end.

Definition next_line (σ : config) : config :=
  mk_config (in_section σ) (last_name σ) (at_line σ + 1) (first_error σ) (client σ).

(** The line [t] as the buffer has it. *)
Definition read_text (σ : config) (t : list Z) : config :=
  apply_item σ (classify (at_line σ =? 1) (nonempty (last_name σ)) t).

(** A line of 200 characters or more is an error and is cut. *)
Definition read_line (σ : config) (t : list Z) : config :=
  let σ := next_line σ in
  read_text (if zlen t <=? INI_MAX_LINE - 1 then σ else complain σ)
            (take (Z.to_nat (INI_MAX_LINE - 1)) t).

Definition meaning (s : list Z) (u : U) : Z * U :=
  let σ := foldl read_line (mk_config [] [] 0 0 u) (lines s) in
  (first_error σ, client σ).

(** The entries told one after the other, as long as the client accepts them. *)
Fixpoint tell_all (u : U) (es : list (list Z * list Z * list Z)) : option U :=
  match es with
  | [] => Some u
  | (sec, name, value) :: es =>
      let '(r, u) := handler u sec name value in if r =? 0 then None else tell_all u es
  end.
End Meaning.

(** A client that records what it is told and accepts it. *)
Definition recorder (u : list (list Z * list Z * list Z)) (section name value : list Z)
  : Z * list (list Z * list Z * list Z) := (1, u ++ [(section, name, value)]).

(** ** Writing a configuration *)
Definition print_entry (e : list Z * list Z) : list Z := fst e ++ 61 :: snd e ++ [NEWLINE].
Definition print_section (s : list Z * list (list Z * list Z)) : list Z :=
  91 :: fst s ++ [93; NEWLINE] ++ concat (map print_entry (snd s)).
Definition print_config (c : list (list Z * list (list Z * list Z))) : list Z :=
  concat (map print_section c).

Definition entries (c : list (list Z * list (list Z * list Z))) : list (list Z * list Z * list Z) :=
  concat (map (fun s => map (fun e => (fst s, fst e, snd e)) (snd s)) c).

(** What can be written so that it is read back. *)
Definition is_text (s : list Z) : bool := forallb (fun c => negb (c =? 0) && negb (c =? NEWLINE)) s.
Definition unsplit (sep : Z -> bool) (s : list Z) : bool := negb (nonempty (snd (split_at sep false s))).
Definition trimmed (s : list Z) : bool :=
  bool_decide (ltrim s = s) && bool_decide (rtrim s = s).

Definition section_name_ok (s : list Z) : bool :=
  is_text s && unsplit bracket s && (zlen s <=? 49).
Definition entry_ok (e : list Z * list Z) : bool :=
  let '(name, value) := e in
  is_text name && is_text value && trimmed name && trimmed value && nonempty name
  && negb (existsb (Z.eqb (hd 0 name)) [59; 35; 91])
  && unsplit eq_colon name && unsplit no_sep value
  && (zlen name + zlen value <=? 197).
Definition config_ok (c : list (list Z * list (list Z * list Z))) : bool :=
  forallb (fun s => section_name_ok (fst s) && forallb entry_ok (snd s)) c.
