(* ===== verification/IniProps.v ===== *)
(** The INI parser implements the meaning of IniSpec.v: every step works inside
    its buffers, and the whole run computes [meaning]. *)

From S2P Require Import Prelude Ini IniSpec.

(** ** Lists of characters without a terminator *)
Definition nulfree (s : list Z) : Prop := Forall (fun c => c <> 0) s.

Lemma nulfree_app s t : nulfree (s ++ t) <-> nulfree s /\ nulfree t.
Proof. apply Forall_app. Qed.

Lemma ltrim_split s : exists w, s = w ++ ltrim s /\ Forall (fun c => isspace c = true) w.
Proof.
  induction s as [|c s (w & E & Hw)]; simpl; [by exists []|].
  destruct (isspace c) eqn:Ec; [|by exists []].
  exists (c :: w). split; [by rewrite E at 1|by constructor].
Qed.

Lemma rtrim_snoc s c : rtrim (s ++ [c]) = if isspace c then rtrim s else s ++ [c].
Proof.
  induction s as [|d s IH]; simpl; [by destruct (isspace c)|].
  rewrite IH. destruct (isspace c); [done|]. by destruct s.
Qed.

Lemma rtrim_split s : exists w, s = rtrim s ++ w.
Proof.
  induction s as [|c s IH] using rev_ind; [by exists []|].
  rewrite rtrim_snoc. destruct (isspace c); [|by exists []; rewrite app_nil_r].
  destruct IH as [w E]. exists (w ++ [c]). by rewrite app_assoc, <- E.
Qed.

Lemma split_at_app p w s : fst (split_at p w s) ++ snd (split_at p w s) = s.
Proof.
  revert w. induction s as [|c s IH]; intros w; simpl; [done|].
  destruct (p c || _); [done|]. specialize (IH (isspace c)).
  destruct (split_at p (isspace c) s). simpl in *. by rewrite IH.
Qed.

Lemma nulfree_ltrim s : nulfree s -> nulfree (ltrim s).
Proof. intros Hs. destruct (ltrim_split s) as (w & E & _). rewrite E in Hs. by apply nulfree_app in Hs as [_ ?]. Qed.
Lemma nulfree_rtrim s : nulfree s -> nulfree (rtrim s).
Proof. intros Hs. destruct (rtrim_split s) as (w & E). rewrite E in Hs. by apply nulfree_app in Hs as [? _]. Qed.
Lemma nulfree_split p w s :
  nulfree s -> nulfree (fst (split_at p w s)) /\ nulfree (snd (split_at p w s)).
Proof. intros Hs. apply nulfree_app. by rewrite split_at_app. Qed.
#[local] Hint Resolve nulfree_ltrim nulfree_rtrim : core.

Lemma zlen_ltrim s : zlen (ltrim s) <= zlen s.
Proof. destruct (ltrim_split s) as (w & E & _). rewrite E at 2. zlia. Qed.
Lemma zlen_rtrim s : zlen (rtrim s) <= zlen s.
Proof. destruct (rtrim_split s) as (w & E). rewrite E at 2. zlia. Qed.

(** ** The scanning functions on a string inside a buffer *)
Lemma rd_mid (A : list Z) c R n : n = zlen A -> rd (A ++ c :: R) n = Ret c.
Proof. apply rd_last. Qed.

Lemma cstr_spec T R : nulfree T -> cstr (T ++ 0 :: R) = Ret T.
Proof.
  induction 1 as [|c T Hc HT IH]; simpl; [done|].
  zif. by rewrite IH.
Qed.

Lemma strlen_spec T R : nulfree T -> strlen (T ++ 0 :: R) = Ret (zlen T).
Proof. intros. unfold strlen. by rewrite cstr_spec. Qed.

Lemma lskip_loop_spec fuel A T R :
  nulfree T -> (length T <= fuel)%nat ->
  lskip_loop fuel (A ++ T ++ 0 :: R) (zlen A) = Ret (zlen A + zlen T - zlen (ltrim T)).
Proof.
  intros HT. revert A fuel. induction HT as [|c T Hc HT IH]; intros A fuel Hf; simpl.
  - destruct fuel; cbn [lskip_loop]; rewrite rd_mid by done; cbn; f_equal; zlia.
  - destruct fuel as [|fuel]; [simpl in Hf; lia|]. cbn [lskip_loop].
    rewrite rd_mid by done. cbn [obind]. zif. simpl.
    destruct (isspace c); [|f_equal; zlia].
    replace (zlen A + 1) with (zlen (A ++ [c])) by zlia.
    replace (A ++ c :: T ++ 0 :: R) with ((A ++ [c]) ++ T ++ 0 :: R) by (by rewrite <- app_assoc).
    rewrite IH by (simpl in Hf; lia). f_equal. zlia.
Qed.

Lemma lskip_spec A T R :
  nulfree T -> ini_lskip (A ++ T ++ 0 :: R) (zlen A) = Ret (zlen A + zlen T - zlen (ltrim T)).
Proof. intros. apply lskip_loop_spec; [done|]. rewrite !length_app. simpl. lia. Qed.

Lemma find_chars_loop_spec fuel A T R chars sep was :
  (forall c, c <> 0 -> match chars with None => false | Some cs => strchr cs c end = sep c) ->
  nulfree T -> (length T <= fuel)%nat ->
  find_loop fuel (A ++ T ++ 0 :: R) (zlen A) chars was
  = Ret (zlen A + zlen (fst (split_at sep was T))).
Proof.
  intros Hsep HT. revert A fuel was. induction HT as [|c T Hc HT IH]; intros A fuel was Hf; simpl.
  - destruct fuel; cbn [find_loop]; rewrite rd_mid by done; cbn; f_equal; zlia.
  - destruct fuel as [|fuel]; [simpl in Hf; lia|]. cbn [find_loop].
    rewrite rd_mid by done. cbn [obind]. zif. rewrite <- Hsep by done. simpl negb.
    replace (strchr INI_INLINE_COMMENT_PREFIXES c) with (c =? 59)
      by (unfold strchr; simpl; rewrite (proj2 (Z.eqb_neq c 0)) by done; by rewrite !orb_false_r).
    replace (match chars with None => true | Some cs => negb (strchr cs c) end)
      with (negb match chars with None => false | Some cs => strchr cs c end) by (by destruct chars).
    destruct (match chars with None => false | Some cs => _ end); simpl; [f_equal; zlia|].
    destruct (was && (c =? 59)); simpl; [f_equal; zlia|].
    replace (zlen A + 1) with (zlen (A ++ [c])) by zlia.
    replace (A ++ c :: T ++ 0 :: R) with ((A ++ [c]) ++ T ++ 0 :: R) by (by rewrite <- app_assoc).
    rewrite IH by (simpl in Hf; lia). destruct (split_at sep (isspace c) T). simpl. f_equal. zlia.
Qed.

Lemma find_chars_spec A T R chars sep :
  (forall c, c <> 0 -> match chars with None => false | Some cs => strchr cs c end = sep c) ->
  nulfree T ->
  ini_find_chars_or_comment (A ++ T ++ 0 :: R) (zlen A) chars
  = Ret (zlen A + zlen (fst (split_at sep false T))).
Proof. intros. apply find_chars_loop_spec; [done..|]. rewrite !length_app. simpl. lia. Qed.

Lemma wrn_mid (A : list Z) c R x n : n = zlen A -> wrn (A ++ c :: R) n [x] = Ret (A ++ x :: R).
Proof.
  intros ->. rewrite wrn_app; [|done|zlia]. rewrite <- app_assoc. simpl.
  unfold adv, zlen. simpl. by rewrite drop_0.
Qed.

(** Cutting a string: the terminator moves, nothing behind it does. *)
Lemma cut_at_spec A T1 T2 R :
  exists R', wrn (A ++ (T1 ++ T2) ++ 0 :: R) (zlen A + zlen T1) [0] = Ret (A ++ T1 ++ 0 :: R')
    /\ match T2 with [] => R' = R | _ :: T => R' = T ++ 0 :: R end.
Proof.
  rewrite <- app_assoc, (app_assoc A T1).
  destruct T2 as [|c T]; simpl; eexists; rewrite wrn_mid by zlia;
    (split; [by rewrite <- app_assoc|done]).
Qed.

Lemma rstrip_loop_spec fuel A T R :
  (length T <= fuel)%nat ->
  rstrip_loop fuel (A ++ T ++ R) (zlen A) (zlen A + zlen T)
  = Ret (A ++ rtrim T ++ replicate (length T - length (rtrim T)) 0 ++ R).
Proof.
  revert fuel R. induction T as [|c T IH] using rev_ind; intros fuel R Hf.
  - rewrite zlen_nil. destruct fuel; cbn [rstrip_loop]; by zif.
  - rewrite length_app in Hf. simpl in Hf. destruct fuel as [|fuel]; [lia|].
    cbn [rstrip_loop]. rewrite zlen_app, zlen_cons, zlen_nil. zlen_pose. zif.
    rewrite <- app_assoc, (app_assoc A T). cbn [app].
    rewrite rd_mid by zlia. cbn [obind]. rewrite rtrim_snoc.
    destruct (isspace c).
    + rewrite wrn_mid by zlia. cbn [obind]. rewrite <- app_assoc.
      replace (zlen A + (zlen T + (1 + 0)) - 1) with (zlen A + zlen T) by lia.
      rewrite IH by lia. f_equal. f_equal. f_equal.
      pose proof (zlen_rtrim T) as Hr. unfold zlen in Hr.
      rewrite length_app. simpl.
      replace (length T + 1 - length (rtrim T))%nat with (length T - length (rtrim T) + 1)%nat by lia.
      rewrite replicate_add, <- app_assoc. done.
    + rewrite Nat.sub_diag. simpl. by rewrite <- !app_assoc.
Qed.

Lemma rstrip_spec A T R :
  ini_rstrip (A ++ T ++ R) (zlen A) (zlen A + zlen T)
  = Ret (A ++ rtrim T ++ replicate (length T - length (rtrim T)) 0 ++ R).
Proof. apply rstrip_loop_spec. unfold zlen. lia. Qed.

(** The same on a terminated string, up to what the blanks leave behind it. *)
Lemma rstrip_str A T R :
  exists R', ini_rstrip (A ++ T ++ 0 :: R) (zlen A) (zlen A + zlen T) = Ret (A ++ rtrim T ++ 0 :: R')
    /\ zlen (A ++ rtrim T ++ 0 :: R') = zlen (A ++ T ++ 0 :: R).
Proof.
  rewrite rstrip_spec. pose proof (zlen_rtrim T) as Ht. unfold zlen in Ht.
  exists (match (length T - length (rtrim T))%nat with O => R | S n => replicate n 0 ++ 0 :: R end).
  destruct (length T - length (rtrim T))%nat eqn:E; (split; [done|]);
    unfold zlen; rewrite !length_app; simpl; rewrite ?length_app, ?length_replicate; simpl; lia.
Qed.

Lemma cut_str A S p w R :
  let a := fst (split_at p w S) in
  exists R', wrn (A ++ S ++ 0 :: R) (zlen A + zlen a) [0] = Ret (A ++ a ++ 0 :: R')
    /\ zlen (A ++ a ++ 0 :: R') = zlen (A ++ S ++ 0 :: R)
    /\ match snd (split_at p w S) with [] => R' = R | _ :: T => R' = T ++ 0 :: R end.
Proof.
  intros a. assert (Es : S = a ++ snd (split_at p w S)) by (symmetry; apply split_at_app).
  replace (A ++ S ++ 0 :: R) with (A ++ (a ++ snd (split_at p w S)) ++ 0 :: R) by (by rewrite <- Es).
  destruct (cut_at_spec A a (snd (split_at p w S)) R) as (R' & E & H'). exists R'. split; [done|].
  split; [|done]. by rewrite (zlen_wrn _ _ _ _ E).
Qed.

(** ** Arrays that hold a string *)
Definition holds (buf : list Z) (n : Z) (s : list Z) : Prop :=
  nulfree s /\ zlen buf = n /\ exists R, buf = s ++ 0 :: R.

Lemma holds_cstr buf n s : holds buf n s -> cstr buf = Ret s.
Proof. intros (Hs & _ & R & ->). by apply cstr_spec. Qed.

Lemma holds_empty buf n R : zlen buf = n -> buf = 0 :: R -> holds buf n [].
Proof. intros ? ->. split; [constructor|]. split; [done|by exists R]. Qed.

Lemma strncpy0_loop_spec n P T D R :
  nulfree T -> Z.of_nat n < zlen D ->
  exists D', strncpy0_loop n (zlen P) (P ++ D) (P ++ T ++ 0 :: R)
             = Ret (P ++ take n T ++ D', zlen P + zlen (take n T))
             /\ zlen D' = zlen D - zlen (take n T).
Proof.
  intros HT. revert n P D. induction HT as [|c T Hc HT IH]; intros n P D Hn.
  - exists D. destruct n; simpl; [|rewrite rd_mid by done; simpl]; (split; [do 2 f_equal|]; zlia).
  - destruct n as [|n]; simpl; [exists D; split; [do 2 f_equal|]; zlia|].
    rewrite rd_mid by done. cbn [obind]. zif.
    destruct D as [|d D]; [zlia|]. rewrite wrn_mid by done. cbn [obind].
    destruct (IH n (P ++ [c]) D) as (D' & E & HD'); [zlia|].
    replace (zlen (P ++ [c])) with (zlen P + 1) in E by zlia.
    rewrite <- !app_assoc in E. cbn [app] in E. rewrite E. exists D'. split; [do 2 f_equal|]; zlia.
Qed.

Lemma strncpy0_spec dest T R size :
  nulfree T -> zlen dest = size -> 0 < size ->
  exists dest', ini_strncpy0 dest (T ++ 0 :: R) size = Ret dest'
    /\ holds dest' size (take (Z.to_nat (size - 1)) T).
Proof.
  intros HT Hd Hs. unfold ini_strncpy0.
  destruct (strncpy0_loop_spec (Z.to_nat (size - 1)) [] T dest R HT) as (D' & E & HD); [lia|].
  rewrite zlen_nil in E. cbn [app] in E. rewrite E. cbn [obind].
  assert (Ht : zlen (take (Z.to_nat (size - 1)) T) <= size - 1) by zlia.
  destruct D' as [|d D']; [rewrite zlen_nil in HD; lia|].
  rewrite wrn_mid by lia. eexists. split; [done|].
  split; [by apply Forall_take|]. rewrite zlen_cons in HD. split; [|by eexists].
  rewrite zlen_app, zlen_cons. lia.
Qed.

Lemma strchr2 a b c : c <> 0 -> strchr [a; b] c = (c =? a) || (c =? b).
Proof. intros. unfold strchr. simpl. zif. by rewrite !orb_false_r. Qed.
Lemma strchr1 a c : c <> 0 -> strchr [a] c = (c =? a).
Proof. intros. unfold strchr. simpl. zif. by rewrite !orb_false_r. Qed.

(** ** One line *)
Section Line.
Context {U : Type} (handler : U -> list Z -> list Z -> list Z -> Z * U).

(** The parser between two statements: [σ] is what its arrays say. *)
Record says (p : @parser U) (σ : config) : Prop := {
  says_line : zlen (line p) = INI_MAX_LINE;
  says_section : holds (section p) MAX_SECTION (in_section σ);
  says_prev : holds (prev_name p) MAX_NAME (last_name σ);
  says_lineno : lineno p = at_line σ;
  says_error : error p = first_error σ;
  says_user : user p = client σ
}.

Lemma says_set_line p σ l : says p σ -> zlen l = INI_MAX_LINE -> says (set_line p l) σ.
Proof. intros []; by constructor. Qed.

Lemma says_set_error p σ : says p σ -> says (set_error p) (complain σ).
Proof. intros [??? E1 E2 ?]; constructor; cbn; rewrite ?E1, ?E2; solve [done|congruence]. Qed.

Lemma says_next p σ : says p σ -> says (set_lineno p (lineno p + 1)) (next_line σ).
Proof. intros []; constructor; cbn; solve [done|congruence]. Qed.

Lemma call_handler_spec p σ name n value v :
  says p σ -> cstr name = Ret n -> cstr value = Ret v ->
  exists p', call_handler handler p name value = Ret p' /\ says p' (tell handler σ n v).
Proof.
  intros Hp Hn Hv. unfold call_handler, tell.
  rewrite (holds_cstr _ _ _ (says_section _ _ Hp)), Hn, Hv. cbn [obind].
  rewrite (says_user _ _ Hp).
  destruct (handler (client σ) (in_section σ) n v) as [r u].
  eexists. split; [done|]. destruct Hp.
  destruct (r =? 0); [apply says_set_error|]; constructor; done.
Qed.

(** The start of a line: the text behind the mark and the blanks. *)
Lemma skip_bom_spec (p : parser U) T R :
  nulfree T -> line p = T ++ 0 :: R ->
  exists B, T = B ++ unmark (lineno p =? 1) T /\ skip_bom p = Ret (zlen B).
Proof.
  intros HT El. unfold skip_bom. rewrite El.
  assert (Hu : unmark false T = T) by (unfold unmark; repeat case_match; done).
  destruct (lineno p =? 1); [|exists []; by rewrite Hu].
  destruct T as [|c0 T]; [by exists []|]. cbn [rd]. simpl.
  destruct (Z.eqb_spec c0 239) as [->|]; simpl.
  2: { exists []. unfold unmark. repeat case_match; (done || congruence). }
  destruct T as [|c1 T]; [by exists []|]. simpl.
  destruct (Z.eqb_spec c1 187) as [->|]; simpl.
  2: { exists []. unfold unmark. repeat case_match; (done || congruence). }
  destruct T as [|c2 T]; [by exists []|]. simpl.
  destruct (Z.eqb_spec c2 191) as [->|]; simpl.
  2: { exists []. unfold unmark. repeat case_match; (done || congruence). }
  by exists [239; 187; 191].
Qed.

(** The rest of the line at the first character: the trimmed text [T] behind [A]. *)
Lemma continuation_line_spec p σ A T R :
  says p σ -> nulfree T -> line p = A ++ T ++ 0 :: R ->
  exists p', continuation_line handler p (zlen A) = Ret p'
    /\ says p' (apply_item handler σ (Continues (rtrim (uncomment T)))).
Proof.
  intros Hp HT El. unfold continuation_line, uncomment.
  pose proof (says_line _ _ Hp) as Hl. rewrite El in Hl |- *.
  rewrite (find_chars_spec A T R None no_sep) by done. cbn [obind].
  destruct (nulfree_split no_sep false T HT) as [Ha _].
  destruct (cut_str A T no_sep false R) as (R1 & -> & L1 & _). cbn [obind].
  destruct (rstrip_str A (fst (split_at no_sep false T)) R1) as (R2 & -> & L2). cbn [obind].
  apply call_handler_spec.
  - apply says_set_line; [done|congruence].
  - apply (holds_cstr _ MAX_NAME), (says_prev _ _ Hp).
  - rewrite adv_app by done. by apply cstr_spec, nulfree_rtrim.
Qed.

Lemma section_line_spec p σ A c T R :
  says p σ -> nulfree T -> line p = A ++ (c :: T) ++ 0 :: R ->
  exists p', section_line p (zlen A) = Ret p'
    /\ says p' (apply_item handler σ
         (match split_at bracket false T with
          | (name, d :: _) => if bracket d then Section name else Bad
          | (_, []) => Bad
          end)).
Proof.
  intros Hp HT El. unfold section_line.
  pose proof (says_line _ _ Hp) as Hl. rewrite El in Hl |- *.
  replace (A ++ (c :: T) ++ 0 :: R) with ((A ++ [c]) ++ T ++ 0 :: R) in * by (by rewrite <- app_assoc).
  replace (zlen A + 1) with (zlen (A ++ [c])) by zlia. set (B := A ++ [c]) in *.
  rewrite (find_chars_spec B T R (Some [93]) bracket); [|intros; by apply strchr1|done]. cbn [obind].
  destruct (nulfree_split bracket false T HT) as [Ha Hb].
  destruct (cut_str B T bracket false R) as (R1 & Ew & L1 & HR1).
  pose proof (split_at_app bracket false T) as Es.
  destruct (split_at bracket false T) as [name rest]. cbn [fst snd] in *.
  replace (rd (B ++ T ++ 0 :: R)) with (rd ((B ++ name) ++ rest ++ 0 :: R))
    by (by rewrite <- Es, <- !app_assoc).
  destruct rest as [|d rest]; cbn [app]; rewrite rd_mid by zlia; cbn [obind].
  { simpl. eexists. split; [done|]. by apply says_set_error. }
  unfold bracket. destruct (d =? 93); [|eexists; split; [done|]; by apply says_set_error].
  rewrite Ew. cbn [obind]. rewrite adv_app by done.
  destruct (says_section _ _ Hp) as (_ & Hsl & _).
  destruct (strncpy0_spec (section p) name R1 MAX_SECTION Ha Hsl) as (s' & Es' & Hs'); [done|].
  rewrite Es'. cbn [obind].
  destruct (says_prev _ _ Hp) as (_ & Hpl & Rp & Ep).
  destruct (prev_name p) as [|q pn] eqn:Epn; [done|].
  rewrite (wrn_mid [] q pn 0) by done. cbn [obind]. eexists. split; [done|].
  destruct Hp. constructor; cbn; [congruence|done| |done..].
  eapply holds_empty; [|done]. by rewrite <- Hpl.
Qed.

Lemma pair_line_spec p σ A T R :
  says p σ -> nulfree T -> line p = A ++ T ++ 0 :: R ->
  exists p', pair_line handler p (zlen A) = Ret p'
    /\ says p' (apply_item handler σ
         (match split_at eq_colon false T with
          | (name, d :: v) =>
              if eq_colon d then Entry (rtrim name) (rtrim (ltrim (uncomment v))) else Bad
          | (_, []) => Bad
          end)).
Proof.
  intros Hp HT El. unfold pair_line.
  pose proof (says_line _ _ Hp) as Hl. rewrite El in Hl |- *.
  rewrite (find_chars_spec A T R (Some [61; 58]) eq_colon); [|intros; by apply strchr2|done]. cbn [obind].
  destruct (nulfree_split eq_colon false T HT) as [Ha Hb].
  destruct (cut_str A T eq_colon false R) as (R1 & Ew & L1 & HR1).
  pose proof (split_at_app eq_colon false T) as Es.
  destruct (split_at eq_colon false T) as [name rest]. cbn [fst snd] in *.
  replace (rd (A ++ T ++ 0 :: R)) with (rd ((A ++ name) ++ rest ++ 0 :: R))
    by (by rewrite <- Es, <- !app_assoc).
  destruct rest as [|d v]; cbn [app]; rewrite rd_mid by zlia; cbn [obind].
  { simpl. eexists. split; [done|]. by apply says_set_error. }
  fold (eq_colon d). destruct (eq_colon d); [|eexists; split; [done|]; by apply says_set_error].
  rewrite Ew, HR1 in *. cbn [obind]. clear R1 Ew HR1 Es.
  apply Forall_cons_1 in Hb as [_ Hv].
  (* the name *)
  rewrite rstrip_spec. cbn [obind].
  set (Z0 := replicate (length name - length (rtrim name)) 0).
  assert (HZ : zlen (rtrim name) + zlen Z0 = zlen name).
  { unfold Z0. rewrite zlen_replicate. pose proof (zlen_rtrim name). unfold zlen in *. lia. }
  assert (Hn : exists R0, Z0 ++ [0] = 0 :: R0).
  { unfold Z0. destruct (_ - _)%nat; simpl; eauto. }
  destruct Hn as [R0 HZ0].
  set (B := A ++ rtrim name ++ Z0 ++ [0]).
  replace (A ++ rtrim name ++ Z0 ++ 0 :: v ++ 0 :: R) with (B ++ v ++ 0 :: R)
    by (unfold B; by rewrite <- !app_assoc).
  replace (zlen A + zlen name + 1) with (zlen B) by (unfold B; zlia).
  (* the value *)
  rewrite (find_chars_spec B v R None no_sep) by done. cbn [obind].
  destruct (nulfree_split no_sep false v Hv) as [Hx _].
  destruct (cut_str B v no_sep false R) as (R2 & -> & L2 & _). cbn [obind].
  fold (uncomment v) in *. set (x := uncomment v) in *.
  rewrite lskip_spec by done. cbn [obind].
  destruct (ltrim_split x) as (w & Ex & _). set (y := ltrim x) in *.
  replace (zlen B + zlen x - zlen y) with (zlen (B ++ w)) by (rewrite Ex; zlia).
  replace (zlen B + zlen x) with (zlen (B ++ w) + zlen y) by (rewrite Ex; zlia).
  replace (B ++ x ++ 0 :: R2) with ((B ++ w) ++ y ++ 0 :: R2) in *
    by (rewrite Ex, <- !app_assoc; done).
  destruct (rstrip_str (B ++ w) y R2) as (R3 & -> & L3). cbn [obind].
  assert (HB : forall X, adv ((B ++ w) ++ X) (zlen A) = rtrim name ++ 0 :: R0 ++ w ++ X).
  { intros X. unfold B. rewrite <- !app_assoc, adv_app by done.
    change (0 :: R0 ++ w ++ X) with ((0 :: R0) ++ w ++ X). by rewrite <- HZ0, <- !app_assoc. }
  rewrite HB, adv_app by done.
  destruct (says_prev _ _ Hp) as (_ & Hpl & _).
  destruct (strncpy0_spec (prev_name p) (rtrim name)
              (R0 ++ w ++ rtrim y ++ 0 :: R3) MAX_NAME) as (pn & Epn & Hpn);
    [by apply nulfree_rtrim|done..|].
  rewrite Epn. cbn [obind].
  apply call_handler_spec.
  - destruct Hp. constructor; cbn; [|done..].
    rewrite L3, L2. unfold B. rewrite <- Hl, <- L1. zlia.
  - by apply cstr_spec, nulfree_rtrim.
  - by apply cstr_spec, nulfree_rtrim, nulfree_ltrim.
Qed.

(** The whole body of the loop, on a buffer with the text [T]. *)
Lemma parse_line_spec p σ T R :
  says p σ -> nulfree T -> line p = T ++ 0 :: R ->
  exists p', parse_line handler p (zlen T) = Ret p' /\ says p' (read_text handler σ T).
Proof.
  intros Hp HT El. unfold parse_line, read_text, classify.
  destruct (skip_bom_spec p T R HT El) as (B & ET & ->). cbn [obind].
  pose proof (says_line _ _ Hp) as Hl. rewrite El in Hl |- *.
  rewrite (says_lineno _ _ Hp) in ET. set (T1 := unmark _ T) in *.
  destruct (ltrim_split T1) as (w & E1 & _). set (T2 := ltrim T1) in *.
  assert (H1 : nulfree T1) by (rewrite ET in HT; by apply nulfree_app in HT as [_ ?]).
  assert (H2 : nulfree T2) by (by apply nulfree_ltrim).
  replace (T ++ 0 :: R) with (B ++ T1 ++ 0 :: R) in * by (rewrite ET, <- app_assoc; done).
  rewrite lskip_spec by done. cbn [obind]. fold T2.
  set (A := B ++ w).
  replace (zlen B + zlen T1 - zlen T2) with (zlen A) by (unfold A; rewrite E1; zlia).
  assert (ELT : zlen T = zlen A + zlen T2) by (unfold A; rewrite ET, E1; zlia).
  rewrite ELT.
  replace (B ++ T1 ++ 0 :: R) with (A ++ T2 ++ 0 :: R) in *
    by (unfold A; rewrite E1, <- !app_assoc; done).
  destruct (rstrip_str A T2 R) as (R' & -> & L). cbn [obind].
  assert (H3 : nulfree (rtrim T2)) by (by apply nulfree_rtrim).
  set (p1 := set_line p _). assert (Hp1 : says p1 σ) by (apply says_set_line; [done|congruence]).
  assert (Ep1 : line p1 = A ++ rtrim T2 ++ 0 :: R') by done. clearbody p1.
  destruct (rtrim T2) as [|c s']; [cbn [app]; rewrite rd_mid by done; simpl; by eauto|].
  cbn [app]. rewrite rd_mid by done. cbn [obind].
  assert (Hc : c <> 0) by (by apply Forall_cons_1 in H3 as [? _]).
  assert (Hs' : nulfree s') by (by apply Forall_cons_1 in H3 as [_ ?]).
  change (strchr INI_START_COMMENT_PREFIXES c) with (strchr [59; 35] c). rewrite (strchr2 59 35 c Hc). destruct ((c =? 59) || (c =? 35)); [by eauto|].
  destruct (says_prev _ _ Hp1) as (Hpn & _ & Rp & Epn).
  assert (Hrd : rd (prev_name p1) 0 = Ret (hd 0 (last_name σ))).
  { rewrite Epn. by destruct (last_name σ). }
  rewrite Hrd. cbn [obind].
  assert (Hne : negb (hd 0 (last_name σ) =? 0) = nonempty (last_name σ)).
  { destruct (last_name σ); [done|]. simpl. apply Forall_cons_1 in Hpn as [? _]. by zif. }
  rewrite Hne, (proj2 (Z.eqb_neq c 0)) by done. cbn [negb]. rewrite andb_true_r.
  replace (0 <? zlen A) with (zlen T2 <? zlen A + zlen T2)
    by (destruct (Z.ltb_spec (zlen T2) (zlen A + zlen T2)), (Z.ltb_spec 0 (zlen A)); zlia).
  destruct (nonempty _ && _); [by eapply continuation_line_spec|].
  destruct (c =? 91); [by eapply section_line_spec|]. by eapply pair_line_spec.
Qed.
End Line.

(** ** Reading lines from a text *)
Fixpoint first_line (s : list Z) : list Z :=
  match s with
  | [] => []
  | c :: s' => c :: if c =? NEWLINE then [] else first_line s'
  end.
Fixpoint skip_line (s : list Z) : list Z :=
  match s with
  | [] => []
  | c :: s' => if c =? NEWLINE then s' else skip_line s'
  end.

(** What a reader takes: [n] characters of the first line at most. *)
Fixpoint chunk (n : nat) (s : list Z) : list Z * list Z :=
  match n, s with
  | S n, c :: s' =>
      if c =? NEWLINE then ([c], s') else let '(a, b) := chunk n s' in (c :: a, b)
  | _, _ => ([], s)
  end.

Definition ends (t : list Z) : bool := List.last t 0 =? NEWLINE.

Lemma ends_cons c d t : ends (c :: d :: t) = ends (d :: t).
Proof. done. Qed.

Lemma lines_cons s : s <> [] -> lines s = first_line s :: lines (skip_line s).
Proof.
  induction s as [|c s IH]; [done|]. intros _. simpl. destruct (c =? NEWLINE); [done|].
  destruct s as [|d s]; [done|]. by rewrite IH.
Qed.

Lemma fgets_chunk_app n s : fst (chunk n s) ++ snd (chunk n s) = s.
Proof.
  revert n. induction s as [|c s IH]; intros [|n]; simpl; [done..|].
  destruct (c =? NEWLINE); [done|]. specialize (IH n). destruct (chunk n s). simpl in *. by rewrite IH.
Qed.

Lemma chunk_len n s : (length (fst (chunk n s)) <= n)%nat.
Proof.
  revert n. induction s as [|c s IH]; intros [|n]; simpl; [lia..|].
  destruct (c =? NEWLINE); [simpl; lia|]. specialize (IH n). destruct (chunk n s). simpl in *. lia.
Qed.

Lemma chunk_ne n s : s <> [] -> fst (chunk (S n) s) <> [].
Proof. destruct s as [|c s]; simpl; [done|]. destruct (c =? NEWLINE); [done|]. by destruct (chunk n s). Qed.

Lemma chunk_line n s t r :
  chunk (S n) s = (t, r) -> s <> [] ->
  first_line s = t ++ (if ends t then [] else first_line r)
  /\ skip_line s = (if ends t then r else skip_line r).
Proof.
  revert n t r. induction s as [|c s IH]; [done|]. intros n t r E _. cbn [chunk] in E. simpl.
  destruct (c =? NEWLINE) eqn:Ec; [injection E as <- <-; unfold ends; simpl; by rewrite Ec|].
  destruct (chunk n s) as [a b] eqn:Ea. injection E as <- <-.
  destruct n as [|n]; [simpl in Ea; injection Ea as <- <-; unfold ends; simpl; by rewrite Ec|].
  destruct s as [|d s]; [simpl in Ea; injection Ea as <- <-; unfold ends; simpl; by rewrite Ec|].
  destruct (IH n a b Ea) as [IH1 IH2]; [done|].
  pose proof (chunk_ne n (d :: s)) as Hne. rewrite Ea in Hne. simpl in Hne.
  destruct a as [|e a]; [by specialize (Hne ltac:(done))|].
  rewrite ends_cons, IH1, IH2. done.
Qed.

Lemma rd_ends t X : t <> [] -> (do c <- rd (t ++ X) (zlen t - 1) ;; Ret (c =? NEWLINE)) = Ret (ends t).
Proof.
  intros Ht. destruct t as [|c t _] using rev_ind; [done|].
  rewrite <- app_assoc. cbn [app]. rewrite rd_mid by zlia. cbn [obind].
  unfold ends. by rewrite last_last.
Qed.

(** Any bytes with a terminator behind them hold a string. *)
Lemma cut_nul t R :
  exists T R', t ++ 0 :: R = T ++ 0 :: R' /\ nulfree T /\ (zlen T = zlen t -> T = t)
    /\ zlen T <= zlen t /\ (nulfree t -> T = t).
Proof.
  induction t as [|c t (T & R' & E & HT & H1 & H2 & H3)].
  - exists [], R. repeat split; [constructor|lia].
  - destruct (decide (c = 0)) as [->|Hc].
    + exists [], (t ++ 0 :: R). split; [done|]. split; [constructor|].
      split; [zlia|]. split; [zlia|]. intros Hn. by apply Forall_cons_1 in Hn as [? _].
    + exists (c :: T), R'. split; [by simpl; rewrite E|]. split; [by constructor|].
      rewrite !zlen_cons. split; [intros; rewrite H1 by lia; done|]. split; [lia|].
      intros Hn. apply Forall_cons_1 in Hn as [_ ?]. by rewrite H3.
Qed.

Lemma reader_copy_spec ctx num P D :
  1 <= num -> num <= zlen D ->
  exists D', reader_copy ctx num (P ++ D) (zlen P)
    = Ret (P ++ fst (chunk (Z.to_nat (num - 1)) ctx) ++ D',
           zlen P + zlen (fst (chunk (Z.to_nat (num - 1)) ctx)),
           snd (chunk (Z.to_nat (num - 1)) ctx))
    /\ zlen D' = zlen D - zlen (fst (chunk (Z.to_nat (num - 1)) ctx)).
Proof.
  revert num P D. induction ctx as [|c ctx IH]; intros num P D Hn HD.
  { exists D. destruct (Z.to_nat (num - 1)); simpl; rewrite zlen_nil; (split; [do 3 f_equal|]; lia). }
  cbn [reader_copy]. destruct (Z.ltb_spec 1 num).
  2: { replace num with 1 by lia. exists D. simpl. rewrite zlen_nil. split; [do 3 f_equal|]; lia. }
  destruct (Z.to_nat (num - 1)) as [|n] eqn:En; [lia|].
  destruct D as [|d D]; [zlia|]. rewrite wrn_mid by done. cbn [obind chunk].
  destruct (c =? NEWLINE).
  { exists D. simpl. split; [do 3 f_equal|]; zlia. }
  destruct (IH (num - 1) (P ++ [c]) D) as (D' & E & HD'); [lia|zlia|].
  replace (Z.to_nat (num - 1 - 1)) with n in * by lia.
  destruct (chunk n ctx) as [a b]. cbn [fst snd] in *.
  replace (zlen P + 1) with (zlen (P ++ [c])) by zlia.
  replace (P ++ c :: D) with ((P ++ [c]) ++ D) by (by rewrite <- app_assoc).
  rewrite E. exists D'. rewrite <- app_assoc. split; [do 3 f_equal|]; zlia.
Qed.

(** One call of a reader: the buffer holds [t], what is left is [r]. *)
Lemma reader_spec str num ctx n :
  ctx <> [] -> num = Z.of_nat n + 2 -> num <= zlen str ->
  exists R t r, ini_reader_string str num ctx = Ret (Some (t ++ 0 :: R, r))
    /\ zlen (t ++ 0 :: R) = zlen str /\ chunk (S n) ctx = (t, r).
Proof.
  intros Hc -> Hs. unfold ini_reader_string. destruct ctx as [|c ctx]; [done|]. zif.
  destruct (reader_copy_spec (c :: ctx) (Z.of_nat n + 2) [] str) as (D & E & HD); [lia..|].
  rewrite zlen_nil in E. cbn [app] in E. rewrite E. cbn [obind]. clear E.
  replace (Z.to_nat (Z.of_nat n + 2 - 1)) with (S n) in * by lia.
  pose proof (chunk_len (S n) (c :: ctx)) as Hl.
  destruct (chunk (S n) (c :: ctx)) as [t r]. cbn [fst snd] in *.
  destruct D as [|d D]; [unfold zlen in *; simpl in *; lia|].
  rewrite wrn_mid by lia. cbn [obind]. exists D, t, r. split; [done|]. split; [zlia|done].
Qed.

Lemma chunk_shorter n s t r :
  chunk (S n) s = (t, r) -> s <> [] -> (length r < length s)%nat.
Proof.
  intros E Hs. pose proof (chunk_ne n s Hs) as Hne. pose proof (fgets_chunk_app (S n) s) as Ea.
  rewrite E in *. cbn [fst snd] in *. rewrite <- Ea, length_app. destruct t; [done|simpl; lia].
Qed.

Lemma chunk_nulfree n s t r : chunk n s = (t, r) -> nulfree s -> nulfree t /\ nulfree r.
Proof. intros E Hs. rewrite <- (fgets_chunk_app n s), E in Hs. by apply nulfree_app in Hs. Qed.

Lemma complain_idem {U} (σ : @config U) : complain (complain σ) = complain σ.
Proof.
  unfold complain; simpl. destruct (first_error σ =? 0) eqn:E; [|by rewrite E].
  by destruct (at_line σ =? 0).
Qed.

(** The line the buffer holds: whole, or cut where the rest is thrown away. *)
Lemma first_line_cut s t r :
  chunk 199 s = (t, r) -> s <> [] ->
  t = take 199 (first_line s)
  /\ (zlen t = 199 -> ends t = false ->
      skip_line r = skip_line s /\ (r = [] <-> zlen (first_line s) <= 199))
  /\ (zlen t <> 199 \/ ends t = true -> r = skip_line s /\ zlen (first_line s) <= 199).
Proof.
  intros E Hs. pose proof (chunk_line 198 s t r E Hs) as [Hf Hk].
  pose proof (chunk_len 199 s) as Hl. rewrite E in Hl. cbn [fst] in Hl.
  assert (Hlast : (length t < 199)%nat -> ends t = true \/ r = []).
  { clear Hf Hk Hl Hs. revert E. generalize 199%nat as n. revert t r.
    induction s as [|c s IH]; intros t r [|n]; simpl; [intros [= <- <-]; by right..| |].
    - intros [= <- <-]. simpl. lia.
    - destruct (c =? NEWLINE) eqn:Ec; [intros [= <- <-] _; left; unfold ends; simpl; by rewrite Ec|].
      destruct (chunk n s) as [a b] eqn:Ea. intros [= <- <-] Hn. simpl in Hn.
      destruct (IH _ _ _ Ea) as [Hi| ->]; [lia| |by right].
      destruct a; [unfold ends in Hi; simpl in Hi; discriminate|]. by left. }
  assert (Ht : forall x, take 199 (t ++ x) = t \/ (length t < 199)%nat).
  { intros x. destruct (decide (length t = 199)%nat) as [Et|]; [left|right; lia].
    rewrite <- Et. by rewrite take_app_length. }
  split; [|split].
  - rewrite Hf. destruct (Ht (if ends t then [] else first_line r)) as [->|Hlt]; [done|].
    destruct (Hlast Hlt) as [->| ->]; [|destruct (ends t)]; simpl; rewrite app_nil_r, take_ge by lia; done.
  - intros E199 He. rewrite He in *. split; [done|]. rewrite Hf, zlen_app, E199.
    destruct r as [|c r]; [simpl; rewrite zlen_nil; split; [lia|done]|].
    cbn [first_line]. rewrite zlen_cons. zlen_pose. split; [done|lia].
  - intros Hc. assert (Hcase : ends t = true \/ r = []).
    { destruct Hc as [Hz|]; [apply Hlast; unfold zlen in Hz; lia|by left]. }
    destruct Hcase as [He| ->]; [rewrite He in *|destruct (ends t)]; simpl in *;
      rewrite Hf, app_nil_r; (split; [done|unfold zlen; lia]).
Qed.

Section Loop.
Context {U : Type} (handler : U -> list Z -> list Z -> list Z -> Z * U).

(** The rest of a long line is thrown away, sixteen bytes at a time. *)
Lemma discard_loop_spec fuel p (σ : @config U) abyss s :
  says p σ -> zlen abyss = ABYSS -> (length s <= fuel)%nat ->
  exists p' abyss' s', discard_loop ini_reader_string fuel p abyss s = Ret (p', abyss', s')
    /\ says p' (match s with [] => σ | _ => complain σ end)
    /\ line p' = line p /\ zlen abyss' = ABYSS /\ (length s' <= length s)%nat
    /\ (nulfree s -> s' = skip_line s).
Proof.
  revert p σ abyss s. induction fuel as [|fuel IH]; intros p σ abyss s Hp Ha Hf.
  { destruct s; [|simpl in Hf; lia]. simpl. by exists p, abyss, []. }
  destruct (decide (s = [])) as [->|Hs]; [simpl; by exists p, abyss, []|].
  cbn [discard_loop].
  destruct (reader_spec abyss ABYSS s 14 Hs) as (R & t & r & -> & HR & E); [done|rewrite Ha; done|].
  cbn [obind]. pose proof (chunk_shorter _ _ _ _ E Hs) as Hlt.
  pose proof (chunk_line _ _ _ _ E Hs) as [_ Hk].
  destruct (cut_nul t R) as (T & R' & ET & HT & HTt & HTl & HTn).
  rewrite ET in *. rewrite strlen_spec by done. cbn [obind].
  assert (Hcs : match s with [] => σ | _ => complain σ end = complain σ) by (by destruct s).
  rewrite Hcs. clear Hcs. apply says_set_error in Hp.
  assert (Hnl : exists b, (if 0 <? zlen T
      then do c <- rd (T ++ 0 :: R') (zlen T - 1) ;; Ret (c =? NEWLINE) else Ret false) = Ret b
      /\ (nulfree s -> b = ends t)).
  { destruct (Z.ltb_spec 0 (zlen T)).
    - exists (ends T). rewrite rd_ends by (intros ->; done). split; [done|].
      intros Hn. destruct (chunk_nulfree _ _ _ _ E Hn) as [Ht _]. by rewrite HTn.
    - exists false. split; [done|]. intros Hn. destruct (chunk_nulfree _ _ _ _ E Hn) as [Ht _].
      rewrite <- HTn by done. destruct T; [done|zlia]. }
  destruct Hnl as (b & -> & Hb). cbn [obind]. destruct b.
  - eexists _, _, _. split; [done|]. split; [done|]. split; [done|]. split; [congruence|]. split; [lia|].
    intros Hn. by rewrite Hk, <- Hb.
  - destruct (IH (set_error p) (complain σ) (T ++ 0 :: R') r) as (p' & ab' & s' & -> & Hp' & Hl' & Hab' & Hs' & Hskip);
      [done|congruence|lia|].
    eexists _, _, _. split; [done|]. split.
    { rewrite complain_idem in Hp'. by destruct r. }
    split; [done|]. split; [done|]. split; [lia|].
    intros Hn. destruct (chunk_nulfree _ _ _ _ E Hn) as [_ Hr]. rewrite Hskip by done. by rewrite Hk, <- Hb.
Qed.

(** Behind a full buffer without a newline the rest of the line is thrown away. *)
Lemma long_line_spec fuel p (σ : @config U) abyss s t r T R :
  chunk 199 s = (t, r) -> s <> [] ->
  (zlen T = zlen t -> T = t) -> zlen T <= zlen t -> (nulfree t -> T = t) ->
  says p σ -> line p = T ++ 0 :: R -> zlen abyss = ABYSS -> (length r <= fuel)%nat ->
  exists p2 σ2 ab2 s2,
    (if zlen T =? INI_MAX_LINE - 1 then
       do c <- rd (T ++ 0 :: R) (zlen T - 1) ;;
       if negb (c =? NEWLINE) then discard_loop ini_reader_string fuel p abyss r
       else Ret (p, abyss, r)
     else Ret (p, abyss, r)) = Ret (p2, ab2, s2)
    /\ says p2 σ2 /\ line p2 = T ++ 0 :: R /\ zlen ab2 = ABYSS /\ (length s2 <= length r)%nat
    /\ (nulfree s -> s2 = skip_line s
        /\ σ2 = if zlen (first_line s) <=? INI_MAX_LINE - 1 then σ else complain σ).
Proof.
  intros E Hs HTt HTl HTn Hp1 Ep1 Ha Hf. destruct (first_line_cut _ _ _ E Hs) as (_ & Hlong & Hshort).
  destruct (Z.eqb_spec (zlen T) (INI_MAX_LINE - 1)) as [E199|Hne].
  - pose proof (chunk_len 199 s) as Hcl. rewrite E in Hcl. cbn [fst] in Hcl.
    assert (T = t) as -> by (apply HTt; unfold zlen, INI_MAX_LINE in *; lia). clear HTt HTn.
    pose proof (rd_ends t (0 :: R)) as Hrd.
    destruct (rd (t ++ 0 :: R) (zlen t - 1)) as [c|]; cbn [obind] in *; [|by specialize (Hrd ltac:(by intros ->))].
    injection (Hrd ltac:(by intros ->)) as Hc. rewrite Hc. clear Hrd. destruct (ends t) eqn:He; simpl.
    + eexists _, _, _, _. split; [done|]. split; [done|]. split; [done|]. split; [done|]. split; [lia|].
      intros _. destruct Hshort as [Hr Hz]; [by right|]. unfold INI_MAX_LINE. by zif.
    + destruct (discard_loop_spec fuel p σ abyss r) as (p2 & ab2 & s2 & Ed & Hp2 & Hl2 & Hab & Hs2 & Hsk);
        [done..|lia|].
      destruct (Hlong E199 eq_refl) as [Hk Hz].
      eexists _, _, _, _. split; [exact Ed|]. split; [exact Hp2|]. split; [congruence|]. split; [done|]. split; [lia|].
      intros Hn. destruct (chunk_nulfree _ _ _ _ E Hn) as [_ Hr]. split; [by rewrite Hsk, Hk|].
      unfold INI_MAX_LINE. change (200 - 1) with 199.
      destruct r; [by rewrite (proj2 (Z.leb_le _ _)) by (by apply Hz)|].
      destruct (Z.leb_spec (zlen (first_line s)) 199) as [Hz'|]; [|done]. by apply Hz in Hz'.
  - eexists _, _, _, _. split; [done|]. split; [done|]. split; [done|]. split; [done|]. split; [lia|].
    intros Hn. destruct (chunk_nulfree _ _ _ _ E Hn) as [Ht _]. rewrite (HTn Ht) in Hne.
    destruct Hshort as [Hr Hz]; [by left|]. unfold INI_MAX_LINE. by zif.
Qed.

(** The run returns on every text, and on one without terminators inside computes
    the meaning of its lines. *)
Lemma parse_loop_spec fuel p σ abyss s :
  says p σ -> zlen abyss = ABYSS -> (length s <= fuel)%nat ->
  exists p' σ', parse_loop ini_reader_string handler fuel p abyss s = Ret p' /\ says p' σ'
    /\ (nulfree s -> σ' = foldl (read_line handler) σ (lines s)).
Proof.
  revert p σ abyss s. induction fuel as [|fuel IH]; intros p σ abyss s Hp Ha Hf.
  { destruct s; [|simpl in Hf; lia]. simpl. by exists p, σ. }
  destruct (decide (s = [])) as [->|Hs]; [simpl; by exists p, σ|].
  cbn [parse_loop].
  destruct (reader_spec (line p) INI_MAX_LINE s 198 Hs) as (R & t & r & -> & HR & E);
    [done|rewrite (says_line _ _ Hp); done|].
  cbn [obind]. pose proof (chunk_shorter _ _ _ _ E Hs) as Hlt.
  destruct (first_line_cut _ _ _ E Hs) as (Htake & _).
  destruct (cut_nul t R) as (T & R' & ET & HT & HTt & HTl & HTn).
  rewrite ET in *. rewrite strlen_spec by done. cbn [obind].
  rewrite (says_line _ _ Hp) in HR.
  set (p1 := set_lineno _ _).
  assert (Hp1 : says p1 (next_line σ)) by (by apply says_next, says_set_line).
  assert (Ep1 : line p1 = T ++ 0 :: R') by done. clearbody p1. clear Hp p.
  destruct (long_line_spec (S fuel) p1 (next_line σ) abyss s t r T R') as (p2 & σ2 & ab2 & s2 & -> & Hp2 & Ep2 & Hab2 & Hs2 & Hn2);
    [done..|lia|]. cbn [obind].
  destruct (parse_line_spec handler p2 σ2 T R' Hp2 HT Ep2) as (p3 & -> & Hp3). cbn [obind].
  destruct (IH p3 (read_text handler σ2 T) ab2 s2) as (p' & σ' & -> & Hp' & Hσ'); [done..|lia|].
  exists p', σ'. split; [done|]. split; [done|]. intros Hn.
  destruct (Hn2 Hn) as [-> ->].
  assert (Hsk : nulfree (skip_line s)).
  { clear -Hn. induction Hn as [|c s Hc Hs IH]; simpl; [constructor|]. by destruct (c =? NEWLINE). }
  rewrite Hσ', (lines_cons s) by done. cbn [foldl].
  unfold read_line at 3. destruct (chunk_nulfree _ _ _ _ E Hn) as [Ht _].
  by rewrite HTn, Htake by done.
Qed.
End Loop.

(** ** The whole parser *)
Section Parser.
Context {U : Type} (handler : U -> list Z -> list Z -> list Z -> Z * U).

Lemma parse_stream_spec fuel line0 abyss0 s u :
  zlen line0 = INI_MAX_LINE -> zlen abyss0 = ABYSS -> (length s <= fuel)%nat ->
  exists r, ini_parse_stream ini_reader_string handler fuel line0 abyss0 s u = Ret r
    /\ (nulfree s -> r = meaning handler s u).
Proof.
  intros Hl Ha Hf. unfold ini_parse_stream.
  destruct (parse_loop_spec handler fuel
    (mk_parser line0 (replicate (Z.to_nat MAX_SECTION) 0) (replicate (Z.to_nat MAX_NAME) 0) 0 0 u)
    (mk_config [] [] 0 0 u) abyss0 s) as (p' & σ' & -> & Hp' & Hσ'); [|done..|].
  { constructor; try done; (eapply holds_empty; [|done]; done). }
  cbn [obind]. eexists. split; [done|]. intros Hn. unfold meaning. rewrite <- Hσ' by done.
  destruct Hp'. congruence.
Qed.

Lemma ini_parse_string_ok line0 abyss0 text R u :
  zlen line0 = INI_MAX_LINE -> zlen abyss0 = ABYSS -> nulfree text ->
  ini_parse_string handler line0 abyss0 (text ++ 0 :: R) u = Ret (meaning handler text u).
Proof.
  intros Hl Ha Ht. unfold ini_parse_string. rewrite strlen_spec by done. cbn [obind].
  unfold ini_parse_string_length. rewrite rdn_all by done. cbn [obind].
  destruct (parse_stream_spec (S (length text)) line0 abyss0 text u Hl Ha) as (r & -> & Hr); [lia|].
  by rewrite Hr.
Qed.

(** C29. [ini_parse_string] computes the meaning of its text: for every string and
    every client, whatever the arrays on the stack held before, the run ends, reads
    and writes inside its buffers only, calls the handler with the sections, names
    and values the lines of the text stand for, and returns the number of the first
    line that is in error or that the handler refused, or 0. *)
Theorem ini_parse_string_meaning line0 abyss0 text R u :
  zlen line0 = INI_MAX_LINE -> zlen abyss0 = ABYSS -> nulfree text ->
  ini_parse_string handler line0 abyss0 (text ++ 0 :: R) u = Ret (meaning handler text u).
Proof. apply ini_parse_string_ok. Qed.

(** C30. [ini_parse] returns on every file, also one with NUL bytes or without a
    newline at its end, and stays inside its buffers; without a file it returns -1
    and never calls the handler. *)
Theorem ini_parse_returns line0 abyss0 file u :
  zlen line0 = INI_MAX_LINE -> zlen abyss0 = ABYSS ->
  exists r, ini_parse handler line0 abyss0 file u = Ret r
    /\ match file with
       | None => r = (-1, u)
       | Some s => nulfree s -> r = meaning handler s u
       end.
Proof.
  intros Hl Ha. destruct file as [s|]; [|by eexists].
  apply parse_stream_spec; [done|done|lia].
Qed.
End Parser.

(** ** Reading back what was printed *)
Lemma is_text_spec s : is_text s = true -> nulfree s /\ Forall (fun c => c <> NEWLINE) s.
Proof.
  unfold is_text, nulfree. rewrite forallb_forall, !List.Forall_forall. intros Hs.
  split; intros c Hc; apply Hs in Hc; cbool; tauto.
Qed.

Lemma split_at_end p w s c t :
  unsplit p s = true -> w = false -> p c = true -> split_at p w (s ++ c :: t) = (s, c :: t).
Proof.
  intros Hs -> Hc. revert Hs. unfold unsplit. generalize false as w.
  induction s as [|d s IH]; intros w; simpl; [by rewrite Hc|].
  destruct (p d || _); simpl; [done|]. specialize (IH (isspace d)).
  destruct (split_at p (isspace d) s). simpl in *. intros Hl. by rewrite IH.
Qed.

Lemma split_at_none p s : unsplit p s = true -> fst (split_at p false s) = s.
Proof.
  unfold unsplit. pose proof (split_at_app p false s) as E.
  destruct (split_at p false s) as [a [|d b]]; simpl in *; [|done]. by rewrite app_nil_r in E.
Qed.

Lemma lines_app l s :
  Forall (fun c => c <> NEWLINE) l -> lines (l ++ NEWLINE :: s) = (l ++ [NEWLINE]) :: lines s.
Proof.
  induction 1 as [|c l Hc Hl IH]; simpl; [done|]. rewrite IH. by zif.
Qed.

Lemma ltrim_id c s : isspace c = false -> ltrim (c :: s) = c :: s.
Proof. simpl. by intros ->. Qed.

Lemma ltrim_inv c s : ltrim (c :: s) = c :: s -> isspace c = false.
Proof.
  simpl. destruct (isspace c); [|done]. intros E. pose proof (zlen_ltrim s) as Hl.
  rewrite E, zlen_cons in Hl. lia.
Qed.

Lemma rtrim_newline s : rtrim (s ++ [NEWLINE]) = rtrim s.
Proof. by rewrite rtrim_snoc. Qed.

Lemma rtrim_app s t : rtrim t = t -> t <> [] -> rtrim (s ++ t) = s ++ t.
Proof.
  intros Ht Hne. destruct t as [|c t _] using rev_ind; [done|].
  rewrite rtrim_snoc in Ht. rewrite app_assoc, rtrim_snoc. destruct (isspace c); [|done].
  exfalso. pose proof (zlen_rtrim t) as Hl. rewrite Ht in Hl. zlia.
Qed.

Lemma unmark_first b c s : c <> 239 -> unmark b (c :: s) = c :: s.
Proof. intros. unfold unmark. repeat case_match; (done || congruence). Qed.

Lemma classify_section cont s :
  section_name_ok s = true -> forall first, classify first cont ((91 :: s ++ [93]) ++ [NEWLINE]) = Section s.
Proof.
  unfold section_name_ok. intros Hs first. cbool. destruct Hs as [[_ Hb] _].
  unfold classify. change ((91 :: s ++ [93]) ++ [NEWLINE]) with (91 :: (s ++ [93]) ++ [NEWLINE]).
  rewrite unmark_first, ltrim_id by done.
  change (91 :: (s ++ [93]) ++ [NEWLINE]) with ((91 :: s ++ [93]) ++ [NEWLINE]).
  rewrite rtrim_newline. change (91 :: s ++ [93]) with ((91 :: s) ++ [93]).
  rewrite rtrim_app by done. cbn [app]. simpl (_ || _). cbv iota.
  rewrite Z.ltb_irrefl, andb_false_r. simpl (91 =? 91). cbv iota.
  by rewrite split_at_end.
Qed.

Lemma entry_ok_spec n v :
  entry_ok (n, v) = true ->
  is_text n = true /\ is_text v = true
  /\ (exists c n', n = c :: n' /\ isspace c = false /\ c <> 59 /\ c <> 35 /\ c <> 91)
  /\ ltrim v = v /\ rtrim v = v /\ rtrim n = n
  /\ unsplit eq_colon n = true /\ unsplit no_sep v = true /\ zlen n + zlen v <= 197.
Proof.
  unfold entry_ok, trimmed. intros He. cbool. rewrite !bool_decide_eq_true in He.
  destruct He as [[[[[[[[Hn Hv] [Hn1 Hn2]] [Hv1 Hv2]] Hne] Hh] Hs1] Hs2] Hl].
  repeat (split; [assumption|]). split; [|repeat (split; [assumption|]); assumption].
  destruct n as [|c n']; [done|]. exists c, n'. split; [done|].
  split; [by apply (ltrim_inv c n')|]. simpl in Hh. cbool. lia.
Qed.

Lemma classify_entry cont n v :
  entry_ok (n, v) = true -> classify false cont ((n ++ 61 :: v) ++ [NEWLINE]) = Entry n v.
Proof.
  intros He. apply entry_ok_spec in He
    as (_ & _ & (c & n' & -> & Hc & H1 & H2 & H3) & Hv1 & Hv2 & Hn2 & Hs1 & Hs2 & _).
  unfold classify.
  assert (Hu : forall t, unmark false t = t) by (intros; unfold unmark; repeat case_match; done).
  rewrite Hu. change (((c :: n') ++ 61 :: v) ++ [NEWLINE]) with (c :: (n' ++ 61 :: v) ++ [NEWLINE]).
  rewrite ltrim_id by done.
  change (c :: (n' ++ 61 :: v) ++ [NEWLINE]) with (((c :: n') ++ 61 :: v) ++ [NEWLINE]).
  rewrite rtrim_newline, Z.ltb_irrefl, andb_false_r.
  assert (Hr : rtrim ((c :: n') ++ 61 :: v) = (c :: n') ++ 61 :: v).
  { destruct v as [|d v]; [by apply rtrim_app|].
    change (61 :: d :: v) with ([61] ++ d :: v). rewrite app_assoc. by apply rtrim_app. }
  rewrite Hr. cbn [app]. do 2 zif. cbn [orb]. cbv iota. zif.
  change (c :: n' ++ 61 :: v) with ((c :: n') ++ 61 :: v).
  rewrite split_at_end by done. simpl (eq_colon 61). cbv iota.
  unfold uncomment. by rewrite split_at_none, Hv1, Hv2, Hn2.
Qed.

Section RoundTrip.
Context {U : Type} (handler : U -> list Z -> list Z -> list Z -> Z * U).
Implicit Types σ : @config U.

Lemma tell_all_app u es es' : tell_all handler u (es ++ es') = tell_all handler u es ≫= fun u => tell_all handler u es'.
Proof.
  revert u. induction es as [|[[s n] v] es IH]; intros u; cbn [app tell_all]; [done|].
  destruct (handler u s n v) as [r u']. by destruct (r =? 0).
Qed.

(** What the parser has when the client has accepted everything, or refused something. *)
Definition agrees σ (o : option U) : Prop :=
  match o with Some u => first_error σ = 0 /\ client σ = u | None => first_error σ <> 0 end.

Lemma read_entry sec n v σ o :
  entry_ok (n, v) = true -> 1 <= at_line σ -> in_section σ = sec -> agrees σ o ->
  let σ' := read_line handler σ ((n ++ 61 :: v) ++ [NEWLINE]) in
  at_line σ' = at_line σ + 1 /\ in_section σ' = sec
  /\ agrees σ' (o ≫= fun u => tell_all handler u [(sec, n, v)]).
Proof.
  intros Hnv Hl <- Ho. destruct (entry_ok_spec n v Hnv) as (_ & _ & _ & _ & _ & _ & _ & _ & Hlen).
  assert (Hr : read_line handler σ ((n ++ 61 :: v) ++ [NEWLINE])
    = tell handler (mk_config (in_section σ) (take 49 n) (at_line σ + 1) (first_error σ) (client σ)) n v).
  { unfold read_line, INI_MAX_LINE.
    rewrite (proj2 (Z.leb_le _ _)) by zlia. rewrite take_ge by (unfold zlen in Hlen; rewrite !length_app; simpl; lia).
    unfold read_text. cbn [next_line at_line last_name]. zif. by rewrite classify_entry by done. }
  rewrite Hr. unfold tell. cbn [client in_section]. destruct (handler _ _ _ _) as [r u'] eqn:Eh.
  split; [by destruct (r =? 0)|]. split; [by destruct (r =? 0)|].
  destruct o as [u|]; cbn [agrees option_bind mbind tell_all] in *.
  - destruct Ho as [He <-]. rewrite Eh. destruct (r =? 0); cbn; [rewrite He; cbn; lia|done].
  - destruct (r =? 0); cbn; [|done]. destruct (first_error σ =? 0); lia.
Qed.

Lemma entries_fold sec es rest σ o :
  forallb entry_ok es = true -> 1 <= at_line σ -> in_section σ = sec -> agrees σ o ->
  exists σ',
    foldl (read_line handler) σ (lines (concat (map print_entry es) ++ rest))
    = foldl (read_line handler) σ' (lines rest)
    /\ 1 <= at_line σ'
    /\ agrees σ' (o ≫= fun u => tell_all handler u (map (fun e => (sec, fst e, snd e)) es)).
Proof.
  intros Hes. revert σ o. induction es as [|[n v] es IH]; intros σ o Hl Hsec Ho.
  { exists σ. split; [done|]. split; [done|]. by destruct o. }
  cbn [forallb] in Hes. apply andb_true_iff in Hes as [Hnv Hes].
  destruct (entry_ok_spec n v Hnv) as (Hn & Hv & _).
  cbn [map concat]. unfold print_entry at 1. cbn [fst snd].
  replace (((n ++ 61 :: v ++ [NEWLINE]) ++ concat (map print_entry es)) ++ rest)
    with ((n ++ 61 :: v) ++ NEWLINE :: (concat (map print_entry es) ++ rest))
    by (rewrite <- !app_assoc; cbn [app]; by rewrite <- app_assoc).
  rewrite lines_app.
  2: { apply Forall_app. split; [by apply is_text_spec|]. constructor; [done|]. by apply is_text_spec. }
  cbn [foldl]. destruct (read_entry sec n v σ o Hnv Hl Hsec Ho) as (Hl1 & Hs1 & Ho1).
  destruct (IH Hes _ _ ltac:(rewrite Hl1; lia) Hs1 Ho1) as (σ' & E & Hl' & Ho').
  exists σ'. split; [exact E|]. split; [done|].
  change ((sec, n, v) :: map _ es) with ([(sec, n, v)] ++ map (fun e => (sec, fst e, snd e)) es).
  destruct o; [|exact Ho']. cbn [mbind option_bind] in *. by rewrite tell_all_app.
Qed.

Lemma config_fold c σ o :
  config_ok c = true -> 0 <= at_line σ -> agrees σ o ->
  agrees (foldl (read_line handler) σ (lines (print_config c))) (o ≫= fun u => tell_all handler u (entries c)).
Proof.
  revert σ o. induction c as [|[s es] c IH]; intros σ o Hc Hl Ho; [by destruct o|].
  cbn [config_ok forallb fst snd] in Hc. apply andb_true_iff in Hc as [Hse Hc].
  apply andb_true_iff in Hse as [Hs Hes].
  assert (Hst : is_text s = true /\ zlen s <= 49) by (unfold section_name_ok in Hs; cbool; tauto).
  unfold print_config. cbn [map concat]. unfold print_section at 1. cbn [fst snd].
  replace ((91 :: s ++ [93; NEWLINE] ++ concat (map print_entry es)) ++ concat (map print_section c))
    with ((91 :: s ++ [93]) ++ NEWLINE :: (concat (map print_entry es) ++ print_config c))
    by (cbn [app]; f_equal; rewrite <- !app_assoc; done).
  rewrite lines_app.
  2: { constructor; [done|]. apply Forall_app. split; [apply is_text_spec, Hst|by apply Forall_singleton]. }
  cbn [foldl].
  assert (Hr : read_line handler σ ((91 :: s ++ [93]) ++ [NEWLINE])
    = mk_config s [] (at_line σ + 1) (first_error σ) (client σ)).
  { unfold read_line, INI_MAX_LINE.
    rewrite (proj2 (Z.leb_le _ _)) by zlia.
    rewrite take_ge by (destruct Hst as [_ Hst]; unfold zlen in Hst; simpl; rewrite !length_app; simpl; lia).
    unfold read_text. rewrite classify_section by done. simpl.
    rewrite take_ge by (destruct Hst as [_ Hst]; unfold zlen in Hst; lia). done. }
  rewrite Hr. destruct (entries_fold s es (print_config c)
    (mk_config s [] (at_line σ + 1) (first_error σ) (client σ)) o Hes) as (σ1 & -> & Hl1 & Ho1); [simpl; lia|done|by destruct o|].
  pose proof (IH σ1 _ Hc ltac:(lia) Ho1) as H. destruct o; [|exact H].
  cbn [mbind option_bind] in *. unfold entries. cbn [map concat fst snd]. rewrite tell_all_app. exact H.
Qed.

(** A configuration that is written out tells the client its entries. *)
Lemma print_config_meaning c u :
  config_ok c = true ->
  match tell_all handler u (entries c) with
  | Some u' => meaning handler (print_config c) u = (0, u')
  | None => fst (meaning handler (print_config c) u) <> 0
  end.
Proof.
  intros Hc. unfold meaning. pose proof (config_fold c (mk_config [] [] 0 0 u) (Some u) Hc) as H.
  cbn [mbind option_bind at_line agrees first_error client] in H. specialize (H ltac:(lia) (conj eq_refl eq_refl)).
  destruct (tell_all handler u (entries c)); [|exact H]. destruct H as [-> ->]. done.
Qed.
End RoundTrip.

Lemma tell_all_recorder u es : tell_all recorder u es = Some (u ++ es).
Proof.
  revert u. induction es as [|[[s n] v] es IH]; intros u; cbn; [by rewrite app_nil_r|]. by rewrite IH, <- app_assoc.
Qed.

Lemma print_config_nulfree c : config_ok c = true -> nulfree (print_config c).
Proof.
  unfold print_config. induction c as [|[s es] c IH]; [constructor|].
  cbn [config_ok forallb fst snd]. intros Hc. apply andb_true_iff in Hc as [Hse Hc].
  apply andb_true_iff in Hse as [Hs Hes]. cbn [map concat]. apply nulfree_app. split; [|by apply IH].
  assert (is_text s = true) by (unfold section_name_ok in Hs; cbool; tauto).
  constructor; [done|]. apply nulfree_app. split; [by apply is_text_spec|].
  constructor; [done|]. constructor; [done|]. cbn [fst snd].
  clear -Hes. induction es as [|[n v] es IH]; [constructor|].
  cbn [forallb] in Hes. apply andb_true_iff in Hes as [Hnv Hes].
  destruct (entry_ok_spec n v Hnv) as (Hn & Hv & _).
  cbn [map concat]. apply nulfree_app. split; [|by apply IH].
  unfold print_entry. apply nulfree_app. split; [by apply is_text_spec|].
  constructor; [done|]. apply nulfree_app. split; [by apply is_text_spec|by apply Forall_singleton].
Qed.

(** C31. A configuration that is written out as sections and [name=value] lines is
    read back: [ini_parse_string] returns 0 and has told the client every entry, in
    order and under its section, unchanged. *)
Theorem ini_print_parse line0 abyss0 c R :
  zlen line0 = INI_MAX_LINE -> zlen abyss0 = ABYSS -> config_ok c = true ->
  ini_parse_string recorder line0 abyss0 (print_config c ++ 0 :: R) [] = Ret (0, entries c).
Proof.
  intros Hl Ha Hc. rewrite ini_parse_string_ok by (done || by apply print_config_nulfree).
  pose proof (print_config_meaning recorder c [] Hc) as H. rewrite tell_all_recorder in H. by rewrite H.
Qed.

(** ** Examples *)
Definition sample_config : list (list Z * list (list Z * list Z)) :=
  [([118; 105; 100; 101; 111], [([99; 111; 100; 101; 99], [104; 50; 54; 53]); ([120], [])]); ([97], [])].

(** A mark, a comment, a section, a value with an inline comment, its continuation
    and a line in error. *)
Definition sample_text : list Z :=
  [239; 187; 191; 35; 33; 10; 91; 115; 93; 32; 10; 107; 32; 61; 32; 118; 32; 59; 99; 10;
   32; 32; 119; 10; 10; 98; 97; 100].

Example sample_meaning :
  meaning recorder sample_text []
  = (6, [([115], [107], [118]); ([115], [107], [119])]).
Proof. vm_compute. reflexivity. Qed.

Lemma ini_parse_string_meaning_witness :
  ini_parse_string recorder (replicate 200 204) (replicate 16 204) (sample_text ++ [0; 7]) []
  = Ret (meaning recorder sample_text []).
Proof.
  apply (ini_parse_string_meaning recorder (replicate 200 204) (replicate 16 204) sample_text [7] []);
    [reflexivity|reflexivity|].
  repeat (constructor; [vm_compute; discriminate|]). constructor.
Defined.

Lemma ini_parse_returns_witness :
  exists r, ini_parse recorder (replicate 200 204) (replicate 16 204) (Some (0 :: sample_text)) [] = Ret r.
Proof.
  destruct (ini_parse_returns recorder (replicate 200 204) (replicate 16 204) (Some (0 :: sample_text)) [])
    as [r [E _]]; [reflexivity|reflexivity|]. exists r. exact E.
Defined.

Lemma ini_print_parse_witness :
  ini_parse_string recorder (replicate 200 204) (replicate 16 204) (print_config sample_config ++ [0]) []
  = Ret (0, entries sample_config).
Proof. apply (ini_print_parse _ _ sample_config []); reflexivity. Defined.
