(* ===== verification/Config.v ===== *)
(** * Options: the configuration file and the command line
    (src/config/config.cpp, command_line.cpp, parser_helpers.hpp, and the beginning of
    [main] in src/main.cpp)

    Text is a list of character codes.  What [getopt_long] makes of the arguments is the
    list of the options it returns, in order, each with its argument; the two calls of
    the program see the same list.  Whether an address is one ([inet_pton]), whether a
    file exists, and the content of files are arguments.  Messages are left out. *)

From Stdlib Require Import String Ascii.
From stdpp Require Import gmap.
From S2P Require Import Prelude Ini.
From stdpp Require Import list.
Open Scope Z_scope.

Abbreviation chars := (list Z).
Definition text (s : string) : chars := map (fun c => Z.of_nat (nat_of_ascii c)) (list_ascii_of_string s).
Definition eqs (a : chars) (s : string) : bool := bool_decide (a = text s).

Definition MAX_OSD_WIDGET_ENTRIES : Z := 256.
Definition MAX_OSD_WIDGET_KEY_LENGTH : Z := 64.
Definition UINT16_MAX : Z := 2 ^ 16 - 1.
Definition INT_MAX : Z := 2 ^ 31 - 1.

(** ** The configuration *)
Inductive level_enum := debug | info | warn | err.

Record SystemConfig := mk_system {
  listen_address : chars;
  listen_port : Z;
  system_socket_path : chars;
  screen_width : Z;
  screen_height : Z;
  screen_refresh_rate : Z;
  target_frame_rate : Z;
  stretch_video : bool;
  vsync : bool;
  wfb_port : Z;
  log_level : level_enum;
  screensaver_enabled : bool;
  screensaver_image : chars
}.

Record DvrConfig := mk_dvr {
  dvr_start : bool;
  file_template : chars;
  dvr_osd : bool;
  bitrate : Z;
  segment_time_min : Z;
  min_free_mb : Z;
  require_mount : bool
}.

Record OsdConfig := mk_osd {
  osd_enabled : bool;
  config_path : chars;
  refresh_ms : Z;
  widget_enabled : gmap chars bool
}.

Record RestreamConfig := mk_restream {
  address : chars;
  port : Z;
  socket_path : chars
}.

Record Config := mk_config { system : SystemConfig; dvr : DvrConfig; osd : OsdConfig; restream : RestreamConfig }.

Definition default_config : Config := mk_config
  (mk_system (text "0.0.0.0") 5600 [] 0 0 0 0 false true 8003 info false [])
  (mk_dvr false [] false 8000000 0 200 false)
  (mk_osd false [] 1000 ∅)
  (mk_restream (text "0.0.0.0") 5604 []).

Section SystemUpdates.
Variable s : SystemConfig.
Definition set_listen_address (v : chars) : SystemConfig :=
  mk_system v (listen_port s) (system_socket_path s) (screen_width s) (screen_height s)
    (screen_refresh_rate s) (target_frame_rate s) (stretch_video s) (vsync s) (wfb_port s) (log_level s)
    (screensaver_enabled s) (screensaver_image s).
Definition set_listen_port (v : Z) : SystemConfig :=
  mk_system (listen_address s) v (system_socket_path s) (screen_width s) (screen_height s)
    (screen_refresh_rate s) (target_frame_rate s) (stretch_video s) (vsync s) (wfb_port s) (log_level s)
    (screensaver_enabled s) (screensaver_image s).
Definition set_system_socket_path (v : chars) : SystemConfig :=
  mk_system (listen_address s) (listen_port s) v (screen_width s) (screen_height s) (screen_refresh_rate s)
    (target_frame_rate s) (stretch_video s) (vsync s) (wfb_port s) (log_level s) (screensaver_enabled s)
    (screensaver_image s).
Definition set_screen_mode (v0 : Z) (v1 : Z) (v2 : Z) : SystemConfig :=
  mk_system (listen_address s) (listen_port s) (system_socket_path s) v0 v1 v2 (target_frame_rate s)
    (stretch_video s) (vsync s) (wfb_port s) (log_level s) (screensaver_enabled s) (screensaver_image s).
Definition set_target_frame_rate (v : Z) : SystemConfig :=
  mk_system (listen_address s) (listen_port s) (system_socket_path s) (screen_width s) (screen_height s)
    (screen_refresh_rate s) v (stretch_video s) (vsync s) (wfb_port s) (log_level s) (screensaver_enabled s)
    (screensaver_image s).
Definition set_stretch_video (v : bool) : SystemConfig :=
  mk_system (listen_address s) (listen_port s) (system_socket_path s) (screen_width s) (screen_height s)
    (screen_refresh_rate s) (target_frame_rate s) v (vsync s) (wfb_port s) (log_level s)
    (screensaver_enabled s) (screensaver_image s).
Definition set_vsync (v : bool) : SystemConfig :=
  mk_system (listen_address s) (listen_port s) (system_socket_path s) (screen_width s) (screen_height s)
    (screen_refresh_rate s) (target_frame_rate s) (stretch_video s) v (wfb_port s) (log_level s)
    (screensaver_enabled s) (screensaver_image s).
Definition set_wfb_port (v : Z) : SystemConfig :=
  mk_system (listen_address s) (listen_port s) (system_socket_path s) (screen_width s) (screen_height s)
    (screen_refresh_rate s) (target_frame_rate s) (stretch_video s) (vsync s) v (log_level s)
    (screensaver_enabled s) (screensaver_image s).
Definition set_log_level (v : level_enum) : SystemConfig :=
  mk_system (listen_address s) (listen_port s) (system_socket_path s) (screen_width s) (screen_height s)
    (screen_refresh_rate s) (target_frame_rate s) (stretch_video s) (vsync s) (wfb_port s) v
    (screensaver_enabled s) (screensaver_image s).
Definition set_screensaver_enabled (v : bool) : SystemConfig :=
  mk_system (listen_address s) (listen_port s) (system_socket_path s) (screen_width s) (screen_height s)
    (screen_refresh_rate s) (target_frame_rate s) (stretch_video s) (vsync s) (wfb_port s) (log_level s) v
    (screensaver_image s).
Definition set_screensaver_image (v : chars) : SystemConfig :=
  mk_system (listen_address s) (listen_port s) (system_socket_path s) (screen_width s) (screen_height s)
    (screen_refresh_rate s) (target_frame_rate s) (stretch_video s) (vsync s) (wfb_port s) (log_level s)
    (screensaver_enabled s) v.
End SystemUpdates.

Section DvrUpdates.
Variable d : DvrConfig.
Definition set_dvr_start (v : bool) : DvrConfig :=
  mk_dvr v (file_template d) (dvr_osd d) (bitrate d) (segment_time_min d) (min_free_mb d) (require_mount d).
Definition set_file_template (v : chars) : DvrConfig :=
  mk_dvr (dvr_start d) v (dvr_osd d) (bitrate d) (segment_time_min d) (min_free_mb d) (require_mount d).
Definition set_dvr_osd (v : bool) : DvrConfig :=
  mk_dvr (dvr_start d) (file_template d) v (bitrate d) (segment_time_min d) (min_free_mb d) (require_mount d).
Definition set_bitrate (v : Z) : DvrConfig :=
  mk_dvr (dvr_start d) (file_template d) (dvr_osd d) v (segment_time_min d) (min_free_mb d) (require_mount d).
Definition set_segment_time_min (v : Z) : DvrConfig :=
  mk_dvr (dvr_start d) (file_template d) (dvr_osd d) (bitrate d) v (min_free_mb d) (require_mount d).
Definition set_min_free_mb (v : Z) : DvrConfig :=
  mk_dvr (dvr_start d) (file_template d) (dvr_osd d) (bitrate d) (segment_time_min d) v (require_mount d).
Definition set_require_mount (v : bool) : DvrConfig :=
  mk_dvr (dvr_start d) (file_template d) (dvr_osd d) (bitrate d) (segment_time_min d) (min_free_mb d) v.
End DvrUpdates.

Section OsdUpdates.
Variable o : OsdConfig.
Definition set_osd_enabled (v : bool) : OsdConfig :=
  mk_osd v (config_path o) (refresh_ms o) (widget_enabled o).
Definition set_config_path (v : chars) : OsdConfig :=
  mk_osd (osd_enabled o) v (refresh_ms o) (widget_enabled o).
Definition set_refresh_ms (v : Z) : OsdConfig :=
  mk_osd (osd_enabled o) (config_path o) v (widget_enabled o).
Definition set_widget_enabled (v : gmap chars bool) : OsdConfig :=
  mk_osd (osd_enabled o) (config_path o) (refresh_ms o) v.
End OsdUpdates.

Section RestreamUpdates.
Variable r : RestreamConfig.
Definition set_address (v : chars) : RestreamConfig :=
  mk_restream v (port r) (socket_path r).
Definition set_port (v : Z) : RestreamConfig :=
  mk_restream (address r) v (socket_path r).
Definition set_socket_path (v : chars) : RestreamConfig :=
  mk_restream (address r) (port r) v.
End RestreamUpdates.

Section Updates.
Variable c : Config.
Definition on_system (f : SystemConfig -> SystemConfig) : Config := mk_config (f (system c)) (dvr c) (osd c) (restream c).
Definition on_dvr (f : DvrConfig -> DvrConfig) : Config := mk_config (system c) (f (dvr c)) (osd c) (restream c).
Definition on_osd (f : OsdConfig -> OsdConfig) : Config := mk_config (system c) (dvr c) (f (osd c)) (restream c).
Definition on_restream (f : RestreamConfig -> RestreamConfig) : Config := mk_config (system c) (dvr c) (osd c) (f (restream c)).
End Updates.

(** ** Values *)
Definition is_digit (c : Z) : bool := (48 <=? c) && (c <=? 57).

Fixpoint skip_space (s : chars) : chars :=
  match s with c :: s' => if isspace c then skip_space s' else s | [] => [] end.

(** The digits in front, as a number; [None]: there are none. *)
Fixpoint digits_loop (v : Z) (s : chars) : Z * chars :=
  match s with
  | c :: s' => if is_digit c then digits_loop (10 * v + (c - 48)) s' else (v, s)
  | [] => (v, [])
  end.
Definition digits (s : chars) : option (Z * chars) :=
  match s with c :: _ => if is_digit c then Some (digits_loop 0 s) else None | [] => None end.

(** A number as [strtol] with base 10 and the [%d] of [sscanf] read it: white space, a
    sign, digits; with what is left behind it. *)
Definition number (s : chars) : option (Z * chars) :=
  match skip_space s with
  | [] => None
  | c :: s' =>
      if c =? 45 then option_map (fun '(v, rest) => (- v, rest)) (digits s')
      else if c =? 43 then digits s'
      else digits (c :: s')
  end.

(** The result is stored in a [T] that the bounds fit. *)
Definition parseInteger (s : chars) (min_value max_value : Z) : option Z :=
  match number s with
  | Some (v, []) =>
      if (v <? - 2 ^ 63) || (2 ^ 63 - 1 <? v) || (v <? min_value) || (max_value <? v) then None else Some v
  | _ => None
  end.

Definition parseBool (s : chars) : option bool :=
  if eqs s "true" then Some true else if eqs s "false" then Some false else None.

Definition parseLogLevel (s : chars) : option level_enum :=
  if eqs s "debug" then Some debug else if eqs s "info" then Some info
  else if eqs s "warn" then Some warn else if eqs s "error" then Some err else None.

(** The next character, if it is [c]. *)
Definition literal (c : Z) (s : chars) : option chars :=
  match s with c' :: s' => if c' =? c then Some s' else None | [] => None end.

Section Options.
(** Whether a text is an address, whether a file exists, and what [sscanf] stores for a
    number that is no [int]. *)
Context (inet_pton : chars -> bool) (exists_ : chars -> bool) (stored : Z -> Z).

Definition scan_int (v : Z) : Z := if (- 2 ^ 31 <=? v) && (v <? 2 ^ 31) then v else s32 (stored v).

(** [sscanf(value, "%dx%d@%d%n")] that reads the whole text. *)
Definition scan_mode (value : chars) : option (Z * Z * Z) :=
  w ← number value; r ← literal 120 (snd w);
  h ← number r; r ← literal 64 (snd h);
  f ← number r;
  match snd f with [] => Some (scan_int (fst w), scan_int (fst h), scan_int (fst f)) | _ => None end.

Definition parseScreenMode (value : chars) (s : SystemConfig) : option SystemConfig :=
  match scan_mode value with
  | Some (width, height, refresh_rate) =>
      if (width <=? 0) || (height <=? 0) || (refresh_rate <=? 0) || (UINT16_MAX <? width) || (UINT16_MAX <? height) then None
      else Some (set_screen_mode s width height refresh_rate)
  | None => None
  end.

Definition parseFrameRate (value : chars) : option Z :=
  match parseInteger value 0 120 with
  | Some v => if negb (v =? 0) && (v <? 30) then None else Some v
  | None => None
  end.

(** ** The configuration file *)
(** A value that was read is stored; a bad one is refused, and nothing changes. *)
Definition store {A} (c : Config) (v : option A) (f : A -> Config) : Z * Config :=
  match v with Some v => (1, f v) | None => (0, c) end.
Definition checked (value : chars) (ok : bool) : option chars := if ok then Some value else None.

Definition system_key (c : Config) (key val : chars) : option (Z * Config) :=
  if eqs key "listen_address" then Some (store c (checked val (inet_pton val)) (fun v => on_system c (fun s => set_listen_address s v)))
  else if eqs key "listen_port" then Some (store c (parseInteger val 1 UINT16_MAX) (fun v => on_system c (fun s => set_listen_port s v)))
  else if eqs key "socket" then Some (1, on_system c (fun s => set_system_socket_path s val))
  else if eqs key "log_level" then Some (store c (parseLogLevel val) (fun v => on_system c (fun s => set_log_level s v)))
  else if eqs key "screen_mode" then Some (store c (parseScreenMode val (system c)) (fun v => on_system c (fun _ => v)))
  else if eqs key "target_frame_rate" then Some (store c (parseFrameRate val) (fun v => on_system c (fun s => set_target_frame_rate s v)))
  else if eqs key "stretch_video" then Some (store c (parseBool val) (fun v => on_system c (fun s => set_stretch_video s v)))
  else if eqs key "vsync" then Some (store c (parseBool val) (fun v => on_system c (fun s => set_vsync s v)))
  else if eqs key "wfb_port" then Some (store c (parseInteger val 0 UINT16_MAX) (fun v => on_system c (fun s => set_wfb_port s v)))
  else if eqs key "screensaver_enabled" then Some (store c (parseBool val) (fun v => on_system c (fun s => set_screensaver_enabled s v)))
  else if eqs key "screensaver_image" then
    Some (store c (checked val (bool_decide (val = []) || exists_ val)) (fun v => on_system c (fun s => set_screensaver_image s v)))
  else None.

Definition osd_key (c : Config) (key val : chars) : option (Z * Config) :=
  if eqs key "enabled" then Some (store c (parseBool val) (fun v => on_osd c (fun o => set_osd_enabled o v)))
  else if eqs key "config" then Some (1, on_osd c (fun o => set_config_path o val))
  else if eqs key "refresh_ms" then Some (store c (parseInteger val 1 2000) (fun v => on_osd c (fun o => set_refresh_ms o v)))
  else None.

(** At most so many widgets, each with a key of a bounded length. *)
Definition widgets_key (c : Config) (key val : chars) : Z * Config :=
  if MAX_OSD_WIDGET_KEY_LENGTH <? zlen key then (0, c)
  else
    match parseBool val with
    | None => (0, c)
    | Some enabled =>
        let widgets := widget_enabled (osd c) in
        match widgets !! key with
        | None =>
            if MAX_OSD_WIDGET_ENTRIES <=? Z.of_nat (size widgets) then (0, c)
            else (1, on_osd c (fun o => set_widget_enabled o (<[key := enabled]> widgets)))
        | Some _ => (1, on_osd c (fun o => set_widget_enabled o (<[key := enabled]> widgets)))
        end
    end.

Definition dvr_key (c : Config) (key val : chars) : option (Z * Config) :=
  if eqs key "start" then Some (store c (parseBool val) (fun v => on_dvr c (fun d => set_dvr_start d v)))
  else if eqs key "template" then Some (1, on_dvr c (fun d => set_file_template d val))
  else if eqs key "osd" then Some (store c (parseBool val) (fun v => on_dvr c (fun d => set_dvr_osd d v)))
  else if eqs key "bitrate" then Some (store c (parseInteger val 1 INT_MAX) (fun v => on_dvr c (fun d => set_bitrate d v)))
  else if eqs key "segment_time_min" then Some (store c (parseInteger val 0 60) (fun v => on_dvr c (fun d => set_segment_time_min d v)))
  else if eqs key "min_free_mb" then Some (store c (parseInteger val 0 INT_MAX) (fun v => on_dvr c (fun d => set_min_free_mb d v)))
  else if eqs key "require_mount" then Some (store c (parseBool val) (fun v => on_dvr c (fun d => set_require_mount d v)))
  else None.

Definition restream_key (c : Config) (key val : chars) : option (Z * Config) :=
  if eqs key "address" then Some (store c (checked val (inet_pton val)) (fun v => on_restream c (fun r => set_address r v)))
  else if eqs key "port" then Some (store c (parseInteger val 1 UINT16_MAX) (fun v => on_restream c (fun r => set_port r v)))
  else if eqs key "socket" then Some (1, on_restream c (fun r => set_socket_path r val))
  else None.

(** An unknown key is passed over. *)
Definition configHandler (c : Config) (section key val : chars) : Z * Config :=
  if eqs section "osd.widgets" then widgets_key c key val
  else default (1, c)
    (if eqs section "system" then system_key c key val
     else if eqs section "osd" then osd_key c key val
     else if eqs section "dvr" then dvr_key c key val
     else if eqs section "restream" then restream_key c key val
     else None).

(** [line0] and [abyss0] are what the arrays of the parser held before. *)
Definition loadConfigFile (line0 abyss0 : list Z) (file : option chars) (c : Config) : outcome (bool * Config) :=
  do* (result, c) <- ini_parse configHandler line0 abyss0 file c ;;
  Ret (if negb (result =? 0) then (false, c)
       else if screensaver_enabled (system c) && bool_decide (screensaver_image (system c) = []) then (false, c)
       else (true, c)).

(** ** The command line *)
Inductive CommandLineResult := Run | ExitSuccess | PrintModeList | Error.

(** What [getopt_long] returns; [opt_unknown]: an error. *)
Inductive OptionId :=
| opt_h | opt_a | opt_p | opt_unknown
| OPT_SOCKET | OPT_DVR_START | OPT_DVR_TEMPLATE | OPT_DVR_OSD | OPT_DVR_BITRATE | OPT_DVR_SEGMENT_TIME | OPT_DVR_MIN_FREE_MB
| OPT_DVR_REQUIRE_MOUNT | OPT_RESTREAM_ADDRESS | OPT_RESTREAM_PORT | OPT_RESTREAM_SOCKET | OPT_LOG_LEVEL | OPT_OSD
| OPT_OSD_CONFIG | OPT_OSD_REFRESH | OPT_OSD_ELEMENTS | OPT_OSD_TELEM_LVL | OPT_SCREEN_MODE | OPT_TARGET_FRAME_RATE
| OPT_STRETCH_VIDEO | OPT_DISABLE_VSYNC | OPT_SCREEN_MODE_LIST | OPT_WFB_API_PORT | OPT_SCREENSAVER_IMG | OPT_CONFIG
| OPT_VERSION.

Fixpoint findConfigPath (opts : list (OptionId * chars)) (config_path : chars) : chars :=
  match opts with
  | [] => config_path
  | (OPT_CONFIG, optarg) :: opts => findConfigPath opts optarg
  | _ :: opts => findConfigPath opts config_path
  end.

(** What an option sets: [None] if its argument is refused. *)
Definition option_set (o : OptionId) (arg : chars) (c : Config) : option Config :=
  match o with
  | opt_a => v ← checked arg (inet_pton arg); Some (on_system c (fun s => set_listen_address s v))
  | opt_p => v ← parseInteger arg 1 UINT16_MAX; Some (on_system c (fun s => set_listen_port s v))
  | OPT_SOCKET => Some (on_system c (fun s => set_system_socket_path s arg))
  | OPT_DVR_START => Some (on_dvr c (fun d => set_dvr_start d true))
  | OPT_DVR_TEMPLATE => Some (on_dvr c (fun d => set_file_template d arg))
  | OPT_DVR_OSD => Some (on_dvr c (fun d => set_dvr_osd d true))
  | OPT_DVR_BITRATE => v ← parseInteger arg 1 INT_MAX; Some (on_dvr c (fun d => set_bitrate d v))
  | OPT_DVR_SEGMENT_TIME => v ← parseInteger arg 0 60; Some (on_dvr c (fun d => set_segment_time_min d v))
  | OPT_DVR_MIN_FREE_MB => v ← parseInteger arg 0 INT_MAX; Some (on_dvr c (fun d => set_min_free_mb d v))
  | OPT_DVR_REQUIRE_MOUNT => Some (on_dvr c (fun d => set_require_mount d true))
  | OPT_RESTREAM_ADDRESS => v ← checked arg (inet_pton arg); Some (on_restream c (fun r => set_address r v))
  | OPT_RESTREAM_PORT => v ← parseInteger arg 1 UINT16_MAX; Some (on_restream c (fun r => set_port r v))
  | OPT_RESTREAM_SOCKET => Some (on_restream c (fun r => set_socket_path r arg))
  | OPT_LOG_LEVEL => v ← parseLogLevel arg; Some (on_system c (fun s => set_log_level s v))
  | OPT_OSD => Some (on_osd c (fun o => set_osd_enabled o true))
  | OPT_OSD_CONFIG => Some (on_osd c (fun o => set_config_path o arg))
  | OPT_OSD_REFRESH => v ← parseInteger arg 1 2000; Some (on_osd c (fun o => set_refresh_ms o v))
  | OPT_SCREEN_MODE => v ← parseScreenMode arg (system c); Some (on_system c (fun _ => v))
  | OPT_TARGET_FRAME_RATE => v ← parseFrameRate arg; Some (on_system c (fun s => set_target_frame_rate s v))
  | OPT_STRETCH_VIDEO => Some (on_system c (fun s => set_stretch_video s true))
  | OPT_DISABLE_VSYNC => Some (on_system c (fun s => set_vsync s false))
  | OPT_WFB_API_PORT => v ← parseInteger arg 0 UINT16_MAX; Some (on_system c (fun s => set_wfb_port s v))
  | OPT_SCREENSAVER_IMG =>
      v ← checked arg (exists_ arg); Some (on_system c (fun s => set_screensaver_enabled (set_screensaver_image s v) true))
  | OPT_OSD_ELEMENTS | OPT_OSD_TELEM_LVL | OPT_SCREEN_MODE_LIST | OPT_CONFIG | opt_h | OPT_VERSION | opt_unknown => Some c
  end.

Fixpoint parse_loop (opts : list (OptionId * chars)) (result : CommandLineResult) (c : Config) : CommandLineResult * Config :=
  match opts with
  | [] => (result, c)
  | (o, arg) :: opts =>
      match o with
      | opt_h | OPT_VERSION => (ExitSuccess, c)
      | opt_unknown => (Error, c)
      | _ =>
          match option_set o arg c with
          | None => (Error, c)
          | Some c => parse_loop opts (match o with OPT_SCREEN_MODE_LIST => PrintModeList | _ => result end) c
          end
      end
  end.

Definition parseCommandLine (opts : list (OptionId * chars)) (c : Config) : CommandLineResult * Config :=
  parse_loop opts Run c.

(** ** The beginning of [main]: the program exits with a code, or goes on *)
Inductive start := Exit (code : Z) | GoesOn (print_modelist : bool) (c : Config).

Definition startup (line0 abyss0 : list Z) (files : chars -> option chars) (opts : list (OptionId * chars)) : outcome start :=
  let config_path := findConfigPath opts [] in
  do* (ok, c) <- (if bool_decide (config_path = []) then Ret (true, default_config)
                  else loadConfigFile line0 abyss0 (files config_path) default_config) ;;
  if negb ok then Ret (Exit (-1))
  else
    let '(command_line_result, c) := parseCommandLine opts c in
    Ret match command_line_result with
        | ExitSuccess => Exit 0
        | Error => Exit (-1)
        | _ =>
            if negb (bool_decide (address (restream c) = [])) && negb (bool_decide (socket_path (restream c) = [])) then Exit (-1)
            else GoesOn (match command_line_result with PrintModeList => true | _ => false end) c
        end.

Definition dvr_requested (c : Config) : bool := negb (bool_decide (file_template (dvr c) = [])).
Definition restream_requested (c : Config) : bool :=
  negb (bool_decide (address (restream c) = [])) || negb (bool_decide (socket_path (restream c) = [])).
End Options.

Example mode_1080 : scan_mode (fun _ => 0) (text "1920x1080@120") = Some (1920, 1080, 120).
Proof. reflexivity. Qed.
Example spaces_and_sign : parseInteger (text " +5600") 1 UINT16_MAX = Some 5600.
Proof. reflexivity. Qed.
Example too_large : parseInteger (text "65536") 1 UINT16_MAX = None.
Proof. reflexivity. Qed.
Example trailing : parseInteger (text "80a") 1 UINT16_MAX = None.
Proof. reflexivity. Qed.
