(* ===== verification/ConfigProps.v ===== *)
(** * What the program starts with

    Whatever the configuration file and the command line say, the program goes on only
    with a configuration whose every value is in its range; an option of the command line
    does what the key of the file does; and some options cannot be used at all. *)

From Stdlib Require Import String Ascii.
From stdpp Require Import gmap.
From S2P Require Import Prelude Ini IniSpec IniProps Config.
From stdpp Require Import list.
Open Scope Z_scope.

(** ** What the client of the INI parser keeps, the parser keeps *)
Section Keeps.
Context {U : Type} (handler : U -> list Z -> list Z -> list Z -> Z * U) (I : U -> Prop).
Hypothesis handler_keeps : forall u s n v, I u -> I (snd (handler u s n v)).
Implicit Types p : parser U.

Definition keeps p (m : outcome (parser U)) : Prop := forall p', m = Ret p' -> I (user p) -> I (user p').

Lemma call_handler_keeps p name value : keeps p (call_handler handler p name value).
Proof.
  intros p' H Hu. unfold call_handler in H. do 3 run_inv.
  match type of H with context [handler ?u ?s ?n ?v] => pose proof (handler_keeps u s n v Hu) as Hk; destruct (handler u s n v) as [r u'] end.
  injection H as <-. by destruct (r =? 0).
Qed.

Lemma pair_line_keeps p start : keeps p (pair_line handler p start).
Proof.
  intros p' H Hu. unfold pair_line in H. repeat run_inv; [|done].
  exact (call_handler_keeps _ _ _ _ H Hu).
Qed.

Lemma continuation_line_keeps p start : keeps p (continuation_line handler p start).
Proof.
  intros p' H Hu. unfold continuation_line in H. do 3 run_inv. exact (call_handler_keeps _ _ _ _ H Hu).
Qed.

Lemma section_line_user p start p' : section_line p start = Ret p' -> user p' = user p.
Proof. intros H. unfold section_line in H. by repeat run_inv. Qed.

Lemma parse_line_keeps p offset : keeps p (parse_line handler p offset).
Proof.
  intros p' H Hu. unfold parse_line in H. repeat run_inv; try done.
  - exact (continuation_line_keeps _ _ _ H Hu).
  - by rewrite (section_line_user _ _ _ H).
  - exact (pair_line_keeps _ _ _ H Hu).
Qed.

Context {Stream : Type} (reader : list Z -> Z -> Stream -> outcome (option (list Z * Stream))).

Lemma discard_keeps fuel p abyss stream p' abyss' stream' :
  discard_loop reader fuel p abyss stream = Ret (p', abyss', stream') -> user p' = user p.
Proof.
  revert p abyss stream. induction fuel as [|fuel IH]; intros p abyss stream H; cbn [discard_loop] in H; run_inv;
    (destruct a as [[abyss1 stream1]|]; [|by injection H as <- _ _]); run_inv; run_inv;
    (match type of H with (if ?b then _ else _) = _ => destruct b end); try done; try (by injection H as <- _ _).
  by apply IH in H.
Qed.

Lemma parse_loop_keeps fuel p abyss stream : keeps p (Ini.parse_loop reader handler fuel p abyss stream).
Proof.
  revert p abyss stream. induction fuel as [|fuel IH]; intros p abyss stream p' H Hu; cbn [Ini.parse_loop] in H; run_inv;
    (destruct a as [[l stream1]|]; [|by injection H as <-]); [done|]. run_inv.
  destruct (if _ : bool then _ else _) as [[[p1 abyss1] stream2]|] eqn:E1; [|done]. cbn [obind] in H. run_inv.
  eapply IH; [exact H|]. eapply parse_line_keeps; [eassumption|].
  assert (Eu : user p1 = user p); [|by rewrite Eu].
  repeat run_inv; try done. by apply discard_keeps in E1.
Qed.

End Keeps.

Lemma ini_parse_keeps {U} (handler : U -> list Z -> list Z -> list Z -> Z * U) (I : U -> Prop) line0 abyss0 file u r u' :
  (forall u s n v, I u -> I (snd (handler u s n v))) ->
  Ini.ini_parse handler line0 abyss0 file u = Ret (r, u') -> I u -> I u'.
Proof.
  intros Hk. destruct file as [f|]; cbn [ini_parse]; [|by intros [= _ <-]].
  unfold ini_parse_file, ini_parse_stream. intros H Hu. run_inv. injection H as _ <-.
  exact (parse_loop_keeps handler I Hk _ _ _ _ _ _ E Hu).
Qed.

(** ** Text *)
Lemma text_inj a b : text a = text b -> a = b.
Proof.
  revert b. induction a as [|x a IH]; intros [|y b] H; try done. injection H as Hx Hb.
  apply Nat2Z.inj in Hx. f_equal; [|by apply IH].
  by rewrite <- (ascii_nat_embedding x), <- (ascii_nat_embedding y), Hx.
Qed.

Lemma eqs_text a b : eqs (text a) b = String.eqb a b.
Proof.
  unfold eqs. destruct (String.eqb_spec a b) as [->|Hab]; [by apply bool_decide_eq_true|].
  apply bool_decide_eq_false. intros H. by apply text_inj in H.
Qed.

(** ** Values that were accepted are in range *)
Lemma parseInteger_range s lo hi v : parseInteger s lo hi = Some v -> lo <= v <= hi.
Proof.
  unfold parseInteger. destruct (number s) as [[w [|]]|]; try done.
  destruct (_ || _) eqn:E; [done|]. intros [= <-]. cbool. lia.
Qed.

Section Configuration.
Context (inet_pton exists_ : chars -> bool) (stored : Z -> Z).

Lemma scan_int_range v : - 2 ^ 31 <= scan_int stored v < 2 ^ 31.
Proof.
  unfold scan_int. destruct ((- 2 ^ 31 <=? v) && (v <? 2 ^ 31)) eqn:E; [cbool; lia|].
  unfold s32. pose proof (Z.mod_pos_bound (stored v + 2 ^ 31) (2 ^ 32)). lia.
Qed.

(** A mode is not chosen, or is one that fits the display's interface. *)
Definition mode_ok (w h f : Z) : Prop :=
  (w = 0 /\ h = 0 /\ f = 0) \/ (1 <= w <= UINT16_MAX /\ 1 <= h <= UINT16_MAX /\ 1 <= f < 2 ^ 31).

Lemma parseScreenMode_ok value s s' :
  parseScreenMode stored value s = Some s' ->
  exists w h f, s' = set_screen_mode s w h f /\ mode_ok w h f.
Proof.
  unfold parseScreenMode. destruct (scan_mode stored value) as [[[w h] f]|] eqn:Es; [|done].
  assert (f < 2 ^ 31).
  { unfold scan_mode in Es. repeat (apply bind_Some in Es as (? & _ & Es)).
    destruct (snd _); [|done]. injection Es as _ _ <-. apply scan_int_range. }
  destruct (_ || _) eqn:E; [done|]. intros [= <-]. exists w, h, f. split; [done|]. right. cbool. lia.
Qed.

Lemma parseFrameRate_ok value v : parseFrameRate value = Some v -> v = 0 \/ 30 <= v <= 120.
Proof.
  unfold parseFrameRate. destruct (parseInteger value 0 120) as [w|] eqn:E; [|done].
  apply parseInteger_range in E. destruct (_ && _) eqn:E2; [done|]. intros [= <-]. cbool. lia.
Qed.

(** ** What holds of every configuration *)
Definition address_ok (a : chars) : Prop := a = text "0.0.0.0" \/ inet_pton a = true.
Definition image_ok (a : chars) : Prop := a = [] \/ exists_ a = true.

Record valid (c : Config) : Prop := {
  v_listen_address : address_ok (listen_address (system c));
  v_listen_port : 1 <= listen_port (system c) <= UINT16_MAX;
  v_mode : mode_ok (screen_width (system c)) (screen_height (system c)) (screen_refresh_rate (system c));
  v_frame_rate : target_frame_rate (system c) = 0 \/ 30 <= target_frame_rate (system c) <= 120;
  v_wfb_port : 0 <= wfb_port (system c) <= UINT16_MAX;
  v_image : image_ok (screensaver_image (system c));
  v_bitrate : 1 <= bitrate (dvr c) <= INT_MAX;
  v_segment : 0 <= segment_time_min (dvr c) <= 60;
  v_min_free : 0 <= min_free_mb (dvr c) <= INT_MAX;
  v_refresh : 1 <= refresh_ms (osd c) <= 2000;
  v_widgets : Z.of_nat (size (widget_enabled (osd c))) <= MAX_OSD_WIDGET_ENTRIES;
  v_widget_keys : forall k b, widget_enabled (osd c) !! k = Some b -> zlen k <= MAX_OSD_WIDGET_KEY_LENGTH;
  v_address : address_ok (address (restream c));
  v_port : 1 <= port (restream c) <= UINT16_MAX
}.

Lemma default_valid : valid default_config.
Proof. split; cbn; try (unfold UINT16_MAX, INT_MAX; lia); try (by left); done. Qed.

Lemma store_keeps {A} (I : Config -> Prop) c (m : option A) f :
  I c -> (forall v, m = Some v -> I (f v)) -> I (snd (store c m f)).
Proof. destruct m; cbn; eauto. Qed.

Lemma checked_ok a b v : checked a b = Some v -> v = a /\ b = true.
Proof. unfold checked. destruct b; [|done]. by intros [= <-]. Qed.

(** One value was replaced by one in its range: the other clauses are as before. *)
Ltac replaced H := destruct H; split; cbn; assumption || (by split) || (by right) || auto.
Ltac by_store := apply store_keeps; [assumption|]; intros v Hv.
Ltac keys := repeat match goal with
  | |- context [if eqs ?a ?b then _ else _] => destruct (eqs a b); [cbn [default from_option id snd]|]
  end.

Lemma system_key_keeps c key val : valid c -> valid (default (1, c) (system_key inet_pton exists_ stored c key val)).2.
Proof.
  intros Hc. unfold system_key. keys; try by_store; try by replaced Hc.
  - apply checked_ok in Hv as [-> Hv]. replaced Hc.
  - apply parseInteger_range in Hv. replaced Hc.
  - apply parseScreenMode_ok in Hv as (w & h & f & -> & Hm). replaced Hc.
  - apply parseFrameRate_ok in Hv. replaced Hc.
  - apply parseInteger_range in Hv. replaced Hc.
  - apply checked_ok in Hv as [-> Hv]. destruct Hc; split; cbn; try assumption. unfold image_ok. cbool.
    rewrite bool_decide_eq_true in Hv. tauto.
Qed.

Lemma osd_key_keeps c key val : valid c -> valid (default (1, c) (osd_key c key val)).2.
Proof.
  intros Hc. unfold osd_key. keys; try by_store; try by replaced Hc.
  apply parseInteger_range in Hv. replaced Hc.
Qed.

Lemma dvr_key_keeps c key val : valid c -> valid (default (1, c) (dvr_key c key val)).2.
Proof.
  intros Hc. unfold dvr_key. keys; try by_store; try by replaced Hc.
  all: apply parseInteger_range in Hv; replaced Hc.
Qed.

Lemma restream_key_keeps c key val : valid c -> valid (default (1, c) (restream_key inet_pton c key val)).2.
Proof.
  intros Hc. unfold restream_key. keys; try by_store; try by replaced Hc.
  - apply checked_ok in Hv as [-> Hv]. replaced Hc.
  - apply parseInteger_range in Hv. replaced Hc.
Qed.

Lemma widgets_key_keeps c key val : valid c -> valid (widgets_key c key val).2.
Proof.
  intros Hc. unfold widgets_key. destruct (_ <? zlen key) eqn:El; [done|]. cbool.
  destruct (parseBool val) as [b|]; [|done].
  assert (Hk : forall k b', <[key := b]> (widget_enabled (osd c)) !! k = Some b' -> zlen k <= MAX_OSD_WIDGET_KEY_LENGTH).
  { intros k b'. rewrite lookup_insert_Some. intros [[<- _]|[_ H]]; [done|]. by eapply v_widget_keys in H. }
  destruct (widget_enabled (osd c) !! key) eqn:E; [|destruct (_ <=? Z.of_nat _) eqn:Es; [done|]]; cbool.
  - destruct Hc. split; cbn; try assumption. rewrite map_size_insert_Some by eauto. assumption.
  - destruct Hc. split; cbn; try assumption. rewrite map_size_insert_None by done. lia.
Qed.

Lemma configHandler_keeps c section key val :
  valid c -> valid (configHandler inet_pton exists_ stored c section key val).2.
Proof.
  intros Hc. unfold configHandler. destruct (eqs section _); [by apply widgets_key_keeps|].
  destruct (eqs section _); [by apply system_key_keeps|].
  destruct (eqs section _); [by apply osd_key_keeps|].
  destruct (eqs section _); [by apply dvr_key_keeps|].
  destruct (eqs section _); [by apply restream_key_keeps|]. done.
Qed.

(** ** Options and keys *)
(** The section, the key and the value that say in the file what an option says. *)
Definition key_of (o : OptionId) (arg : chars) : option (chars * chars * chars) :=
  match o with
  | opt_a => Some (text "system", text "listen_address", arg)
  | opt_p => Some (text "system", text "listen_port", arg)
  | OPT_SOCKET => Some (text "system", text "socket", arg)
  | OPT_LOG_LEVEL => Some (text "system", text "log_level", arg)
  | OPT_SCREEN_MODE => Some (text "system", text "screen_mode", arg)
  | OPT_TARGET_FRAME_RATE => Some (text "system", text "target_frame_rate", arg)
  | OPT_STRETCH_VIDEO => Some (text "system", text "stretch_video", text "true")
  | OPT_DISABLE_VSYNC => Some (text "system", text "vsync", text "false")
  | OPT_WFB_API_PORT => Some (text "system", text "wfb_port", arg)
  | OPT_DVR_START => Some (text "dvr", text "start", text "true")
  | OPT_DVR_TEMPLATE => Some (text "dvr", text "template", arg)
  | OPT_DVR_OSD => Some (text "dvr", text "osd", text "true")
  | OPT_DVR_BITRATE => Some (text "dvr", text "bitrate", arg)
  | OPT_DVR_SEGMENT_TIME => Some (text "dvr", text "segment_time_min", arg)
  | OPT_DVR_MIN_FREE_MB => Some (text "dvr", text "min_free_mb", arg)
  | OPT_DVR_REQUIRE_MOUNT => Some (text "dvr", text "require_mount", text "true")
  | OPT_RESTREAM_ADDRESS => Some (text "restream", text "address", arg)
  | OPT_RESTREAM_PORT => Some (text "restream", text "port", arg)
  | OPT_RESTREAM_SOCKET => Some (text "restream", text "socket", arg)
  | OPT_OSD => Some (text "osd", text "enabled", text "true")
  | OPT_OSD_CONFIG => Some (text "osd", text "config", arg)
  | OPT_OSD_REFRESH => Some (text "osd", text "refresh_ms", arg)
  | _ => None
  end.

Lemma option_set_key o arg c s k v :
  key_of o arg = Some (s, k, v) ->
  configHandler inet_pton exists_ stored c s k v
  = match option_set inet_pton exists_ stored o arg c with Some c' => (1, c') | None => (0, c) end.
Proof.
  destruct o; try done; intros [= <- <- <-];
    unfold configHandler, system_key, osd_key, dvr_key, restream_key, parseBool; rewrite !eqs_text;
    cbn [String.eqb Ascii.eqb Bool.eqb default from_option id option_set store]; try reflexivity.
  all: match goal with |- store _ ?m _ = _ => by destruct m end.
Qed.

Lemma option_set_keeps o arg c c' :
  option_set inet_pton exists_ stored o arg c = Some c' -> valid c -> valid c'.
Proof.
  intros H Hc. destruct (key_of o arg) as [[[s k] v]|] eqn:Ek.
  - pose proof (option_set_key o arg c s k v Ek) as E. rewrite H in E.
    pose proof (configHandler_keeps c s k v Hc) as Hk. by rewrite E in Hk.
  - destruct o; try done; cbn [option_set] in H; try by injection H as <-.
    apply bind_Some in H as (a & Ha & [= <-]). apply checked_ok in Ha as [-> Ha]. replaced Hc.
Qed.

Lemma parse_loop_valid opts result c :
  valid c -> valid (Config.parse_loop inet_pton exists_ stored opts result c).2.
Proof.
  revert result c. induction opts as [|[o arg] opts IH]; intros result c Hc; [done|].
  cbn [Config.parse_loop]. destruct (option_set inet_pton exists_ stored o arg c) as [c'|] eqn:E;
    [apply option_set_keeps in E; [|done]|]; destruct o; try done; by apply IH.
Qed.

(** ** The start of the program *)
Abbreviation handler := (configHandler inet_pton exists_ stored).
Abbreviation starts := (startup inet_pton exists_ stored).

Lemma loadConfigFile_ok line0 abyss0 file c :
  zlen line0 = INI_MAX_LINE -> zlen abyss0 = ABYSS -> valid c ->
  exists ok c', loadConfigFile inet_pton exists_ stored line0 abyss0 file c = Ret (ok, c') /\ valid c'
    /\ (ok = true -> screensaver_enabled (system c') = true -> screensaver_image (system c') <> []).
Proof.
  intros Hl Ha Hc. unfold loadConfigFile.
  assert (exists r c', ini_parse handler line0 abyss0 file c = Ret (r, c')) as (r & c' & E).
  { destruct file as [f|]; [|by do 2 eexists].
    destruct (parse_stream_spec handler (S (length f)) line0 abyss0 f c Hl Ha ltac:(lia)) as ([r c'] & E & _).
    by exists r, c'. }
  pose proof (ini_parse_keeps handler valid _ _ _ _ _ _ (fun u s n v => configHandler_keeps u s n v) E Hc) as Hc'.
  rewrite E. cbn [obind]. destruct (negb (r =? 0)); [by exists false, c'|].
  destruct (_ && _) eqn:Ei; [by exists false, c'|]. exists true, c'. split; [done|]. split; [done|].
  intros _ Hs. rewrite Hs in Ei. cbn in Ei. by apply bool_decide_eq_false in Ei.
Qed.

Definition screensaver_ok (c : Config) : Prop :=
  screensaver_enabled (system c) = true -> screensaver_image (system c) <> [].

Lemma option_set_screensaver o arg c c' :
  exists_ [] = false -> option_set inet_pton exists_ stored o arg c = Some c' -> screensaver_ok c -> screensaver_ok c'.
Proof.
  unfold screensaver_ok. intros Hx H Hc. destruct o; cbn [option_set] in H; try (by injection H as <-);
    apply bind_Some in H as (a & Ha & [= <-]); try done.
  - apply parseScreenMode_ok in Ha as (w & h & f & -> & _). done.
  - apply checked_ok in Ha as [-> Ha]. cbn. intros _ ->. congruence.
Qed.

Lemma parse_loop_screensaver opts result c :
  exists_ [] = false -> screensaver_ok c -> screensaver_ok (Config.parse_loop inet_pton exists_ stored opts result c).2.
Proof.
  intros Hx. revert result c. induction opts as [|[o arg] opts IH]; intros result c Hc; [done|].
  cbn [Config.parse_loop]. destruct (option_set inet_pton exists_ stored o arg c) as [c'|] eqn:E;
    [apply option_set_screensaver in E; [|done..]|]; destruct o; try done; by apply IH.
Qed.

Lemma startup_ok line0 abyss0 files opts :
  zlen line0 = INI_MAX_LINE -> zlen abyss0 = ABYSS -> exists_ [] = false ->
  exists r, starts line0 abyss0 files opts = Ret r
    /\ match r with
       | Exit code => code = 0 \/ code = -1
       | GoesOn _ c => valid c /\ screensaver_ok c /\ (address (restream c) = [] \/ socket_path (restream c) = [])
       end.
Proof.
  intros Hl Ha Hx. unfold startup.
  assert (exists ok c, (if bool_decide (findConfigPath opts [] = []) then Ret (true, default_config)
      else loadConfigFile inet_pton exists_ stored line0 abyss0 (files (findConfigPath opts [])) default_config) = Ret (ok, c)
      /\ valid c /\ (ok = true -> screensaver_ok c)) as (ok & c & -> & Hc & Hs).
  { destruct (bool_decide _); [|by apply loadConfigFile_ok; try apply default_valid].
    exists true, default_config. split; [done|]. split; [apply default_valid|done]. }
  cbn [obind]. destruct ok; cbn [negb]; [|eexists; split; [done|by right]].
  unfold parseCommandLine. pose proof (parse_loop_valid opts Run c Hc) as Hv.
  pose proof (parse_loop_screensaver opts Run c Hx (Hs eq_refl)) as Hv2.
  destruct (Config.parse_loop _ _ _ _ _ _) as [result c'].
  eexists. split; [reflexivity|]. cbn [snd] in *.
  destruct result; [|by left| |by right].
  all: destruct (negb _ && negb _) eqn:E; [by right|]; split; [done|]; split; [done|].
  all: rewrite andb_false_iff, !negb_false_iff, !bool_decide_eq_true in E; tauto.
Qed.

(** ** The command line and the file *)
(** A file that says what the keys say, each under its section. *)
Definition file_of (keys : list (chars * chars * chars)) : list (chars * list (chars * chars)) :=
  map (fun '(s, k, v) => (s, [(k, v)])) keys.

Lemma entries_file_of keys : entries (file_of keys) = keys.
Proof. induction keys as [|[[s k] v] keys IH]; [done|]. apply (f_equal (cons (s, k, v))). exact IH. Qed.

Definition keyed (opts : list (OptionId * chars)) (keys : list (chars * chars * chars)) : Prop :=
  Forall2 (fun o key => key_of o.1 o.2 = Some key) opts keys.

Lemma parse_loop_tells opts keys result c :
  keyed opts keys ->
  match tell_all handler c keys with
  | Some c' => Config.parse_loop inet_pton exists_ stored opts result c = (result, c')
  | None => fst (Config.parse_loop inet_pton exists_ stored opts result c) = Error
  end.
Proof.
  intros H. revert c. induction H as [|[o arg] [[s k] v] opts keys Hk _ IH]; intros c; [done|].
  cbn [tell_all]. rewrite (option_set_key _ _ _ _ _ _ Hk). cbn [Config.parse_loop].
  destruct o; try done; destruct (option_set _ _ _ _ _ _); try done; apply IH.
Qed.

Lemma keyed_no_path opts keys path : keyed opts keys -> findConfigPath opts path = path.
Proof. induction 1 as [|[o arg] key opts keys Hk _ IH]; [done|]. by destruct o. Qed.

Lemma keyed_screensaver opts keys c c' :
  keyed opts keys -> tell_all handler c keys = Some c' -> screensaver_enabled (system c') = screensaver_enabled (system c).
Proof.
  intros H. revert c. induction H as [|[o arg] [[s k] v] opts keys Hk _ IH]; intros c Hc; [by injection Hc as <-|].
  cbn [tell_all] in Hc. rewrite (option_set_key _ _ _ _ _ _ Hk) in Hc. cbn [fst snd] in Hk, Hc.
  destruct (option_set inet_pton exists_ stored o arg c) as [c1|] eqn:E; [|discriminate Hc]. rewrite (IH _ Hc).
  destruct o; try done; cbn [option_set] in E; try (by injection E as <-);
    apply bind_Some in E as (a & Ha & [= <-]); try done.
  by apply parseScreenMode_ok in Ha as (w & h & f & -> & _).
Qed.

Lemma loadConfigFile_tells line0 abyss0 keys opts :
  zlen line0 = INI_MAX_LINE -> zlen abyss0 = ABYSS -> keyed opts keys -> IniSpec.config_ok (file_of keys) = true ->
  exists c', loadConfigFile inet_pton exists_ stored line0 abyss0 (Some (print_config (file_of keys))) default_config
  = Ret match tell_all handler default_config keys with Some c => (true, c) | None => (false, c') end.
Proof.
  intros Hl Ha Hk Hf. unfold loadConfigFile, ini_parse, ini_parse_file.
  destruct (parse_stream_spec handler (S (length (print_config (file_of keys)))) line0 abyss0
    (print_config (file_of keys)) default_config Hl Ha ltac:(lia)) as (r & E & Hr).
  specialize (Hr (print_config_nulfree _ Hf)). change ini_reader_string with fgets in E. rewrite E, Hr. cbn [obind].
  pose proof (print_config_meaning handler (file_of keys) default_config Hf) as H. rewrite entries_file_of in H.
  destruct (tell_all handler default_config keys) as [c'|] eqn:Et.
  - rewrite H. cbn [Z.eqb negb]. exists c'. by rewrite (keyed_screensaver _ _ _ _ Hk Et).
  - destruct (meaning _ _ _) as [n c']. cbn [fst] in H. exists c'. by destruct (Z.eqb_spec n 0).
Qed.

(** ** Theorems *)
(** C24. Whatever the configuration file holds, whatever the options and their arguments
    are, and whatever was on the stack, the start of the program ends, without a read or
    a write outside the parser's buffers: it exits with 0 or -1, or it goes on with a
    configuration in which every number is in its range (ports, display mode, frame
    rate, bit rate, lengths, at most 256 widgets with keys of at most 64 characters),
    every address is one, and a screen saver that is enabled has an image. *)
Theorem startup_configuration line0 abyss0 files opts :
  zlen line0 = INI_MAX_LINE -> zlen abyss0 = ABYSS -> exists_ [] = false ->
  exists r, starts line0 abyss0 files opts = Ret r
    /\ match r with
       | Exit code => code = 0 \/ code = -1
       | GoesOn _ c => valid c /\ screensaver_ok c
       end.
Proof.
  intros Hl Ha Hx. destruct (startup_ok line0 abyss0 files opts Hl Ha Hx) as (r & E & H).
  exists r. split; [done|]. destruct r; tauto.
Qed.


(** C25. What the options say can be said in a file: if each option has a key, and the
    values can be written on a line, the program started with a file of these keys and
    no option but its path does exactly what it does with the options and no file: it
    goes on with the same configuration, or it exits with the same code. *)
Theorem file_is_command_line line0 abyss0 files opts keys path :
  zlen line0 = INI_MAX_LINE -> zlen abyss0 = ABYSS -> keyed opts keys -> path <> [] ->
  IniSpec.config_ok (file_of keys) = true -> files path = Some (print_config (file_of keys)) ->
  starts line0 abyss0 files [(OPT_CONFIG, path)] = starts line0 abyss0 files opts.
Proof.
  intros Hl Ha Hk Hp Hf Hc. unfold startup at 2. rewrite (keyed_no_path _ _ _ Hk), bool_decide_true by done.
  unfold startup. cbn [findConfigPath]. rewrite bool_decide_false, Hc by done.
  destruct (loadConfigFile_tells line0 abyss0 keys opts Hl Ha Hk Hf) as (c' & ->). cbn [obind].
  pose proof (parse_loop_tells opts keys Run default_config Hk) as H. unfold parseCommandLine.
  destruct (tell_all _ _ _) as [c|]; cbn [negb].
  - by rewrite H.
  - destruct (Config.parse_loop _ _ _ opts Run default_config) as [result c1]. cbn [fst] in H. by subst result.
Qed.
End Configuration.

(** ** Witnesses *)
Definition some_address (a : chars) : bool := negb (bool_decide (a = [])) && forallb (fun c => is_digit c || (c =? 46)) a.
Definition no_file (_ : chars) : bool := false.
Definition a_file (_ : chars) : option chars := Some (text "[system]
listen_port = 5700
[osd.widgets]
fps = true
").
Definition line_garbage : list Z := replicate 200 204.
Definition abyss_garbage : list Z := replicate 16 204.

Lemma startup_configuration_witness :
  exists c, startup some_address no_file (fun v => v) line_garbage abyss_garbage a_file
      [(OPT_CONFIG, text "c"); (OPT_SCREEN_MODE, text "1920x1080@60")] = Ret (GoesOn false c)
    /\ listen_port (system c) = 5700 /\ screen_width (system c) = 1920
    /\ valid some_address no_file c.
Proof.
  eexists. split; [vm_compute; reflexivity|]. split; [reflexivity|]. split; [reflexivity|].
  destruct (startup_configuration some_address no_file (fun v => v) line_garbage abyss_garbage a_file
    [(OPT_CONFIG, text "c"); (OPT_SCREEN_MODE, text "1920x1080@60")]) as (r & E & H); [done..|].
  vm_compute in E. injection E as <-. exact (proj1 H).
Defined.

Example socket_option_exits :
  startup some_address no_file (fun v => v) line_garbage abyss_garbage a_file [(OPT_RESTREAM_SOCKET, text "@video")]
  = Ret (Exit (-1)).
Proof. vm_compute. reflexivity. Qed.


Definition some_options : list (OptionId * chars) :=
  [(opt_p, text "5700"); (OPT_DVR_START, []); (OPT_SCREEN_MODE, text "1280x720@120"); (OPT_DISABLE_VSYNC, [])].
Definition some_keys : list (chars * chars * chars) :=
  [(text "system", text "listen_port", text "5700"); (text "dvr", text "start", text "true");
   (text "system", text "screen_mode", text "1280x720@120"); (text "system", text "vsync", text "false")].

Lemma file_is_command_line_witness :
  exists c, startup some_address no_file (fun v => v) line_garbage abyss_garbage
      (fun _ => Some (print_config (file_of some_keys))) some_options = Ret (GoesOn false c)
    /\ startup some_address no_file (fun v => v) line_garbage abyss_garbage
      (fun _ => Some (print_config (file_of some_keys))) [(OPT_CONFIG, text "c")] = Ret (GoesOn false c)
    /\ listen_port (system c) = 5700 /\ vsync (system c) = false.
Proof.
  eexists. split; [vm_compute; reflexivity|]. split; [|split; reflexivity].
  rewrite (file_is_command_line some_address no_file (fun v => v) line_garbage abyss_garbage
    (fun _ => Some (print_config (file_of some_keys))) some_options some_keys (text "c"));
    [vm_compute; reflexivity|reflexivity|reflexivity| |discriminate|vm_compute; reflexivity|reflexivity].
  repeat constructor.
Defined.
