(* ===== verification/RtpExt.v ===== *)
(** RTP header extensions (lib/librtp/rtpext, include/rtp-ext.h): the one-byte and
    two-byte element formats of rtp-ext.c and the codecs of the single extensions. *)

From Stdlib Require Import String.
From S2P Require Import Prelude RtpUtil.
Open Scope Z_scope.

(** ** Identifiers and the table of names *)
Definition RTP_HDREXT_PADDING : Z := 0.
Definition RTP_HDREXT_SSRC_AUDIO_LEVEL_ID : Z := 1.
Definition RTP_HDREXT_CSRC_AUDIO_LEVEL_ID : Z := 2.
Definition RTP_HDREXT_FRAME_MARKING_ID : Z := 3.
Definition RTP_HDREXT_SDES_MID_ID : Z := 4.
Definition RTP_HDREXT_SDES_RTP_STREAM_ID : Z := 5.
Definition RTP_HDREXT_SDES_REPAIRED_RTP_STREAM_ID : Z := 6.
Definition RTP_HDREXT_TOFFSET_ID : Z := 7.
Definition RTP_HDREXT_VIDEO_ORIENTATION_ID : Z := 8.
Definition RTP_HDREXT_ABSOLUTE_SEND_TIME_ID : Z := 9.
Definition RTP_HDREXT_ABSOLUTE_CAPTURE_TIME_ID : Z := 10.
Definition RTP_HDREXT_TRANSPORT_WIDE_CC_ID_01 : Z := 11.
Definition RTP_HDREXT_TRANSPORT_WIDE_CC_ID : Z := 12.
Definition RTP_HDREXT_VIDEO_TIMING_ID : Z := 13.
Definition RTP_HDREXT_PLAYOUT_DELAY_ID : Z := 14.
Definition RTP_HDREXT_ONE_BYTE_RESERVED : Z := 15.
Definition RTP_HDREXT_COLOR_SPACE_ID : Z := 16.
Definition RTP_HDREXT_VIDEO_CONTENT_TYPE_ID : Z := 17.
Definition RTP_HDREXT_INBAND_CN_ID : Z := 18.
Definition RTP_HDREXT_VIDEO_FRAME_TRACKING_ID : Z := 19.
Definition RTP_HDREXT_VIDEO_LAYERS_ALLOCATION_ID : Z := 20.

Definition RTP_HDREXT_PROFILE_ONE_BYTE : Z := 48862.
Definition RTP_HDREXT_PROFILE_TWO_BYTE : Z := 4096.
Definition RTP_HDREXT_PROFILE_TWO_BYTE_FILTER : Z := 65520.

(** [None] is the null pointer of the last entry. *)
Record rtp_ext_uri_t := mk_uri { uri_id : Z; uri : option string }.

Definition sc_rtpexts : list rtp_ext_uri_t := [
  mk_uri RTP_HDREXT_PADDING (Some EmptyString);
  mk_uri RTP_HDREXT_SSRC_AUDIO_LEVEL_ID (Some "urn:ietf:params:rtp-hdrext:ssrc-audio-level"%string);
  mk_uri RTP_HDREXT_CSRC_AUDIO_LEVEL_ID (Some "urn:ietf:params:rtp-hdrext:csrc-audio-level"%string);
  mk_uri RTP_HDREXT_FRAME_MARKING_ID (Some "urn:ietf:params:rtp-hdrext:framemarking"%string);
  mk_uri RTP_HDREXT_SDES_MID_ID (Some "urn:ietf:params:rtp-hdrext:sdes:mid"%string);
  mk_uri RTP_HDREXT_SDES_RTP_STREAM_ID (Some "urn:ietf:params:rtp-hdrext:sdes:rtp-stream-id"%string);
  mk_uri RTP_HDREXT_SDES_REPAIRED_RTP_STREAM_ID (Some "urn:ietf:params:rtp-hdrext:sdes:repaired-rtp-stream-id"%string);
  mk_uri RTP_HDREXT_TOFFSET_ID (Some "urn:ietf:params:rtp-hdrext:toffset"%string);
  mk_uri RTP_HDREXT_VIDEO_ORIENTATION_ID (Some "urn:3gpp:video-orientation"%string);
  mk_uri RTP_HDREXT_ABSOLUTE_SEND_TIME_ID (Some "http://www.webrtc.org/experiments/rtp-hdrext/abs-send-time"%string);
  mk_uri RTP_HDREXT_ABSOLUTE_CAPTURE_TIME_ID (Some "http://www.webrtc.org/experiments/rtp-hdrext/abs-capture-time"%string);
  mk_uri RTP_HDREXT_TRANSPORT_WIDE_CC_ID_01 (Some "http://www.ietf.org/id/draft-holmer-rmcat-transport-wide-cc-extensions-01"%string);
  mk_uri RTP_HDREXT_TRANSPORT_WIDE_CC_ID (Some "http://www.webrtc.org/experiments/rtp-hdrext/transport-wide-cc-02"%string);
  mk_uri RTP_HDREXT_VIDEO_TIMING_ID (Some "http://www.webrtc.org/experiments/rtp-hdrext/video-timing"%string);
  mk_uri RTP_HDREXT_PLAYOUT_DELAY_ID (Some "http://www.webrtc.org/experiments/rtp-hdrext/playout-delay"%string);
  mk_uri RTP_HDREXT_ONE_BYTE_RESERVED (Some EmptyString);
  mk_uri RTP_HDREXT_COLOR_SPACE_ID (Some "http://www.webrtc.org/experiments/rtp-hdrext/color-space"%string);
  mk_uri RTP_HDREXT_VIDEO_CONTENT_TYPE_ID (Some "http://www.webrtc.org/experiments/rtp-hdrext/video-content-type"%string);
  mk_uri RTP_HDREXT_INBAND_CN_ID (Some "http://www.webrtc.org/experiments/rtp-hdrext/inband-cn"%string);
  mk_uri RTP_HDREXT_VIDEO_FRAME_TRACKING_ID (Some "http://www.webrtc.org/experiments/rtp-hdrext/video-frame-tracking-id"%string);
  mk_uri RTP_HDREXT_VIDEO_LAYERS_ALLOCATION_ID (Some "http://www.webrtc.org/experiments/rtp-hdrext/video-layers-allocation00"%string);
  mk_uri 0 None
].

Definition rtp_ext_list : list rtp_ext_uri_t := sc_rtpexts.

(** [strcmp] reads through both pointers. *)
Fixpoint find_uri (table : list rtp_ext_uri_t) (u : string) : outcome (option rtp_ext_uri_t) :=
  match table with
  | [] => Ret None
  | e :: table =>
      match uri e with
      | None => Crash OutOfBounds
      | Some v => if String.eqb v u then Ret (Some e) else find_uri table u
      end
  end.

Definition rtp_ext_find_uri (u : string) : outcome (option rtp_ext_uri_t) := find_uri sc_rtpexts u.

(** ** Elements: an array of 256, the element of an identifier at that index *)
Record rtp_ext_data_t := mk_ext { ext_id : Z; ext_len : Z; ext_off : Z }.
#[export] Instance rtp_ext_data_eq_dec : EqDecision rtp_ext_data_t.
Proof. solve_decision. Defined.

Definition no_exts : list rtp_ext_data_t := replicate 256 (mk_ext 0 0 0).

Fixpoint read_one_byte_loop (fuel : nat) (data : list Z) (bytes off : Z) (exts : list rtp_ext_data_t)
  : outcome (Z * list rtp_ext_data_t) :=
  if off <? bytes then
    match fuel with
    | O => Crash Diverge
    | S fuel =>
        do d <- rd data off ;;
        let id := Z.shiftr d 4 in
        let len := Z.land d 15 + 1 in
        if (65535 <? bytes) || (bytes <? off + len)
           || ((RTP_HDREXT_PADDING =? id) && negb (1 =? len))
        then Ret (-1, exts)
        else if RTP_HDREXT_PADDING =? d then read_one_byte_loop fuel data bytes (off + (len + 1)) exts
        else if id =? RTP_HDREXT_ONE_BYTE_RESERVED then Ret (0, exts)
        else
          do exts <- wrn exts id [mk_ext id len (u16 (off + 1))] ;;
          read_one_byte_loop fuel data bytes (off + (len + 1)) exts
    end
  else Ret (0, exts).

Definition rtp_ext_read_one_byte (data : list Z) (bytes : Z) (exts : list rtp_ext_data_t) :=
  read_one_byte_loop (Z.to_nat bytes) data bytes 0 exts.

Fixpoint read_two_byte_loop (fuel : nat) (data : list Z) (bytes off : Z) (exts : list rtp_ext_data_t)
  : outcome (Z * list rtp_ext_data_t) :=
  if off <? bytes then
    match fuel with
    | O => Crash Diverge
    | S fuel =>
        do id <- rd data off ;;
        let off := off + 1 in
        if RTP_HDREXT_PADDING =? id then read_two_byte_loop fuel data bytes off exts
        else if bytes <=? off then Ret (- EINVAL, exts)
        else
          do len <- rd data off ;;
          let off := off + 1 in
          if bytes <? off + len then Ret (- EINVAL, exts)
          else
            do exts <- wrn exts id [mk_ext id len (u16 off)] ;;
            read_two_byte_loop fuel data bytes (off + len) exts
    end
  else Ret (0, exts).

Definition rtp_ext_read_two_byte (data : list Z) (bytes : Z) (exts : list rtp_ext_data_t) :=
  read_two_byte_loop (Z.to_nat bytes) data bytes 0 exts.

Definition rtp_ext_read (profile : Z) (data : list Z) (bytes : Z) (exts : list rtp_ext_data_t)
  : outcome (Z * list rtp_ext_data_t) :=
  if RTP_HDREXT_PROFILE_ONE_BYTE =? profile then rtp_ext_read_one_byte data bytes exts
  else if RTP_HDREXT_PROFILE_TWO_BYTE =? Z.land profile RTP_HDREXT_PROFILE_TWO_BYTE_FILTER
  then rtp_ext_read_two_byte data bytes exts
  else Ret (0, exts).

(** ** Writing elements *)
Section Write.
Context `{Build}.

(** [while (off % 4 != 0) data[off++] = 0;] *)
Fixpoint pad4 (fuel : nat) (data : list Z) (off : Z) : outcome (Z * list Z) :=
  if negb (off mod 4 =? 0) then
    match fuel with
    | O => Crash Diverge
    | S fuel => do data <- wrn data off [RTP_HDREXT_PADDING] ;; pad4 fuel data (off + 1)
    end
  else Ret (off, data).

(** Behind the loops: [Some] is the result of an element that was refused. *)
Definition write_end (data : list Z) (i count off bytes : Z) : outcome (Z * list Z) :=
  if (i <? count) || (negb (off mod 4 =? 0) && (bytes <=? (off + 3) / 4 * 4))
  then Ret (- E2BIG, data)
  else pad4 4 data off.

Fixpoint write_one_byte_loop (fuel : nat) (extension : list Z) (exts : list rtp_ext_data_t)
    (count : Z) (data : list Z) (bytes i off : Z) : outcome (Z * list Z) :=
  if (i <? count) && (off <? bytes) then
    match fuel with
    | O => Crash Diverge
    | S fuel =>
        do e <- rd exts i ;;
        if RTP_HDREXT_PADDING =? ext_id e then
          c_assert (ext_len e =? 0) ;;;
          write_one_byte_loop fuel extension exts count data bytes (i + 1) (off + ext_len e)
        else if (RTP_HDREXT_ONE_BYTE_RESERVED <=? ext_id e) || (ext_len e <? 1) || (16 <? ext_len e)
                || (bytes <=? ext_len e + off)
        then c_assert false ;;; Ret (- EINVAL, data)
        else
          do data <- wrn data off [u8 (Z.lor (Z.shiftl (ext_id e) 4) (ext_len e - 1))] ;;
          do v <- rdn extension (ext_off e) (ext_len e) ;;
          do data <- wrn data (off + 1) v ;;
          write_one_byte_loop fuel extension exts count data bytes (i + 1) (off + ext_len e)
    end
  else write_end data i count off bytes.

Definition rtp_ext_write_one_byte (extension : list Z) (exts : list rtp_ext_data_t) (count : Z)
    (data : list Z) (bytes : Z) : outcome (Z * list Z) :=
  write_one_byte_loop (Z.to_nat count) extension exts count data bytes 0 0.

Fixpoint write_two_byte_loop (fuel : nat) (extension : list Z) (exts : list rtp_ext_data_t)
    (count : Z) (data : list Z) (bytes i off : Z) : outcome (Z * list Z) :=
  if (i <? count) && (off <? bytes) then
    match fuel with
    | O => Crash Diverge
    | S fuel =>
        do e <- rd exts i ;;
        if RTP_HDREXT_PADDING =? ext_id e then
          c_assert (ext_len e =? 0) ;;;
          write_two_byte_loop fuel extension exts count data bytes (i + 1) (off + ext_len e)
        else if bytes <=? ext_len e + off + 2 then c_assert false ;;; Ret (- EINVAL, data)
        else
          do data <- wrn data off [u8 (ext_id e)] ;;
          do data <- wrn data (off + 1) [u8 (ext_len e)] ;;
          do v <- rdn extension (ext_off e) (ext_len e) ;;
          do data <- wrn data (off + 2) v ;;
          write_two_byte_loop fuel extension exts count data bytes (i + 1) (off + 2 + ext_len e)
    end
  else write_end data i count off bytes.

Definition rtp_ext_write_two_byte (extension : list Z) (exts : list rtp_ext_data_t) (count : Z)
    (data : list Z) (bytes : Z) : outcome (Z * list Z) :=
  write_two_byte_loop (Z.to_nat count) extension exts count data bytes 0 0.

(** The profile [rtp_ext_write] chooses for profile 0. *)
Fixpoint choose_profile (exts : list rtp_ext_data_t) (count : nat) (i profile : Z) : outcome Z :=
  match count with
  | O => Ret profile
  | S count =>
      do e <- rd exts i ;;
      choose_profile exts count (i + 1)
        (if (16 <=? ext_len e) || (RTP_HDREXT_ONE_BYTE_RESERVED =? ext_id e)
         then RTP_HDREXT_PROFILE_TWO_BYTE else profile)
  end.

Definition rtp_ext_write (profile : Z) (extension : list Z) (exts : list rtp_ext_data_t)
    (count : Z) (data : list Z) (bytes : Z) : outcome (Z * list Z) :=
  do profile <- (if 0 =? profile
                 then choose_profile exts (Z.to_nat count) 0 RTP_HDREXT_PROFILE_ONE_BYTE
                 else Ret profile) ;;
  if RTP_HDREXT_PROFILE_ONE_BYTE =? profile then rtp_ext_write_one_byte extension exts count data bytes
  else if RTP_HDREXT_PROFILE_TWO_BYTE =? Z.land profile RTP_HDREXT_PROFILE_TWO_BYTE_FILTER
  then rtp_ext_write_two_byte extension exts count data bytes
  else Ret (-1, data).
End Write.

(** ** The single extensions

    A parser returns the code and what stands in the output afterwards; [old] is
    what stood there before. A writer returns the code and the buffer. *)
Definition rtp_ext_abs_send_time_parse (data : list Z) (bytes old : Z) : outcome (Z * Z) :=
  if bytes <? 3 then Ret (-1, old)
  else
    do b0 <- rd data 0 ;;
    do b1 <- rd data 1 ;;
    do b2 <- rd data 2 ;;
    let t := Z.lor (Z.lor (Z.shiftl b0 16) (Z.shiftl b1 8)) b2 in
    Ret (0, Z.shiftr (u64 (t * 1000000)) 18).

Definition rtp_ext_abs_send_time_write (data : list Z) (bytes timestamp : Z) : outcome (Z * list Z) :=
  if bytes <? 3 then Ret (-1, data)
  else
    let t := u64 (Z.shiftl timestamp 18) / 1000000 in
    do data <- wrn data 0 [u8 (Z.shiftr t 16); u8 (Z.shiftr t 8); u8 (Z.shiftr t 0)] ;;
    Ret (3, data).

Record absolute_capture_time_t := mk_capture { ct_timestamp : Z; ct_offset : Z }.

Definition rtp_ext_absolute_capture_time_parse `{Build} (data : list Z) (bytes : Z)
    (old : absolute_capture_time_t) : outcome (Z * absolute_capture_time_t) :=
  c_assert ((bytes =? 8) || (bytes =? 16)) ;;;
  if negb (bytes =? 8) && negb (bytes =? 16) then Ret (-1, old)
  else
    do t <- rtp_read_uint64 data ;;
    do o <- (if 16 <=? bytes then rtp_read_uint64 (adv data 8) else Ret 0) ;;
    Ret (0, mk_capture t o).

Definition rtp_ext_absolute_capture_time_write (data : list Z) (bytes : Z) (ext : absolute_capture_time_t)
  : outcome (Z * list Z) :=
  if bytes <? 8 then Ret (-1, data)
  else
    do data <- rtp_write_uint64 data 0 (ct_timestamp ext) ;;
    do data <- (if 16 <=? bytes then rtp_write_uint64 data 8 (ct_offset ext) else Ret data) ;;
    Ret (if 16 <=? bytes then 16 else 8, data).

Record color_space_t := mk_color_space {
  primaries : Z; transfer : Z; matrix : Z; range_chroma_siting : Z;
  luminance_max : Z; luminance_min : Z;
  mastering_metadata_primary_red : Z; mastering_metadata_primary_green : Z;
  mastering_metadata_primary_blue : Z; mastering_metadata_primary_white : Z;
  max_content_light_level : Z; max_frame_average_light_level : Z
}.
#[export] Instance color_space_eq_dec : EqDecision color_space_t.
Proof. solve_decision. Defined.

Definition rtp_ext_color_space_parse `{Build} (data : list Z) (bytes : Z) (old : color_space_t)
  : outcome (Z * color_space_t) :=
  c_assert ((bytes =? 4) || (bytes =? 28)) ;;;
  if negb (bytes =? 4) && negb (bytes =? 28) then Ret (-1, old)
  else
    do p <- rd data 0 ;;
    do t <- rd data 1 ;;
    do m <- rd data 2 ;;
    do r <- rd data 3 ;;
    if 28 =? bytes then
      do b4 <- rd data 4 ;;
      do b5 <- rd data 5 ;;
      do b6 <- rd data 6 ;;
      do b7 <- rd data 7 ;;
      do red <- rtp_read_uint32 (adv data 8) ;;
      do green <- rtp_read_uint32 (adv data 12) ;;
      do blue <- rtp_read_uint32 (adv data 16) ;;
      do white <- rtp_read_uint32 (adv data 20) ;;
      do mc <- rtp_read_uint16 (adv data 24) ;;
      do mf <- rtp_read_uint16 (adv data 26) ;;
      Ret (0, mk_color_space p t m r (Z.lor (Z.shiftl b4 8) b5) (Z.lor (Z.shiftl b6 8) b7)
                red green blue white mc mf)
    else Ret (0, mk_color_space p t m r 0 0 0 0 0 0 0 0).

Definition rtp_ext_color_space_write (data : list Z) (bytes : Z) (ext : color_space_t) : outcome (Z * list Z) :=
  if bytes <? 4 then Ret (-1, data)
  else
    do data <- wrn data 0 [primaries ext; transfer ext; matrix ext; range_chroma_siting ext] ;;
    do data <-
      (if 28 <=? bytes then
         do data <- rtp_write_uint16 data 4 (luminance_max ext) ;;
         do data <- rtp_write_uint16 data 6 (luminance_min ext) ;;
         do data <- rtp_write_uint32 data 8 (mastering_metadata_primary_red ext) ;;
         do data <- rtp_write_uint32 data 12 (mastering_metadata_primary_green ext) ;;
         do data <- rtp_write_uint32 data 16 (mastering_metadata_primary_blue ext) ;;
         do data <- rtp_write_uint32 data 20 (mastering_metadata_primary_white ext) ;;
         do data <- rtp_write_uint16 data 24 (max_content_light_level ext) ;;
         rtp_write_uint16 data 26 (max_frame_average_light_level ext)
       else Ret data) ;;
    Ret (if 28 <=? bytes then 28 else 4, data).

(** [levels] is the array of the caller. *)
Fixpoint csrc_parse_loop (fuel : nat) (data : list Z) (bytes num i : Z) (levels : list Z) : outcome (Z * list Z) :=
  if (i <? bytes) && (i <? num) then
    match fuel with
    | O => Crash Diverge
    | S fuel =>
        do d <- rd data 0 ;;
        do levels <- wrn levels i [Z.land d 127] ;;
        csrc_parse_loop fuel data bytes num (i + 1) levels
    end
  else Ret (i, levels).

Definition rtp_ext_csrc_audio_level_parse (data : list Z) (bytes : Z) (levels : list Z) (num : Z)
  : outcome (Z * list Z) :=
  if bytes <? 1 then Ret (0, levels)
  else csrc_parse_loop (Z.to_nat num) data bytes num 0 levels.

Fixpoint csrc_write_loop (fuel : nat) (data levels : list Z) (num i : Z) : outcome (list Z) :=
  if i <? num then
    match fuel with
    | O => Crash Diverge
    | S fuel =>
        do l <- rd levels i ;;
        do data <- wrn data i [Z.land l 127] ;;
        csrc_write_loop fuel data levels num (i + 1)
    end
  else Ret data.

Definition rtp_ext_csrc_audio_level_write (data : list Z) (bytes : Z) (levels : list Z) (num : Z)
  : outcome (Z * list Z) :=
  if bytes <? num then Ret (-1, data)
  else do data <- csrc_write_loop (Z.to_nat num) data levels num 0 ;; Ret (num, data).

Record frame_marking_t := mk_frame_marking {
  fm_s : Z; fm_e : Z; fm_i : Z; fm_d : Z; fm_b : Z; fm_tid : Z; fm_lid : Z; fm_tl0_pic_idx : Z
}.

Definition rtp_ext_frame_marking_parse (data : list Z) (bytes : Z) : outcome (Z * frame_marking_t) :=
  do* (s, e, i, d, b, tid) <-
    (if 0 <? bytes then
       do d0 <- rd data 0 ;;
       Ret (Z.land (Z.shiftr d0 7) 1, Z.land (Z.shiftr d0 6) 1, Z.land (Z.shiftr d0 5) 1,
            Z.land (Z.shiftr d0 4) 1, Z.land (Z.shiftr d0 3) 1, Z.land d0 7)
     else Ret (0, 0, 0, 0, 0, 0)) ;;
  do lid <- (if 0 <? bytes - 1 then rd data 1 else Ret 0) ;;
  do idx <- (if 0 <? bytes - 2 then rd data 2 else Ret 0) ;;
  Ret (0, mk_frame_marking s e i d b tid lid idx).

Definition rtp_ext_frame_marking_write (data : list Z) (bytes : Z) (ext : frame_marking_t)
  : outcome (Z * list Z) :=
  let two := negb (fm_lid ext =? 0) || negb (fm_tl0_pic_idx ext =? 0) in
  let len := 1 + (if two then 1 else 0) + (if negb (fm_tl0_pic_idx ext =? 0) then 1 else 0) in
  if bytes <? len then Ret (-1, data)
  else
    let bit (f m : Z) := if f =? 0 then 0 else m in
    do data <- wrn data 0 [Z.lor (Z.lor (Z.lor (Z.lor (Z.lor (bit (fm_s ext) 128) (bit (fm_e ext) 64))
                             (bit (fm_i ext) 32)) (bit (fm_d ext) 16)) (bit (fm_b ext) 8)) (fm_tid ext)] ;;
    do data <- (if two then wrn data 1 [u8 (fm_lid ext)] else Ret data) ;;
    do data <- (if negb (fm_tl0_pic_idx ext =? 0) then wrn data 2 [u8 (fm_tl0_pic_idx ext)] else Ret data) ;;
    Ret (len, data).

Definition rtp_ext_inband_cn_parse `{Build} (data : list Z) (bytes old : Z) : outcome (Z * Z) :=
  c_assert (1 =? bytes) ;;;
  if negb (1 =? bytes) then Ret (-1, old)
  else do d <- rd data 0 ;; Ret (0, Z.land d 127).

Definition rtp_ext_inband_cn_write (data : list Z) (bytes level : Z) : outcome (Z * list Z) :=
  if bytes <? 1 then Ret (-1, data)
  else do data <- wrn data 0 [Z.land level 127] ;; Ret (1, data).

Record playout_delay_t := mk_playout { min_delay : Z; max_delay : Z }.

Definition rtp_ext_playout_delay_parse `{Build} (data : list Z) (bytes : Z) (old : playout_delay_t)
  : outcome (Z * playout_delay_t) :=
  c_assert (3 =? bytes) ;;;
  if negb (3 =? bytes) then Ret (-1, old)
  else
    do d0 <- rd data 0 ;;
    do d1 <- rd data 1 ;;
    do d2 <- rd data 2 ;;
    Ret (0, mk_playout (Z.lor (Z.shiftl d0 4) (Z.land (Z.shiftr d1 4) 15))
                       (Z.lor (Z.shiftl (Z.land d1 15) 8) d2)).

Definition rtp_ext_playout_delay_write (data : list Z) (bytes : Z) (ext : playout_delay_t)
  : outcome (Z * list Z) :=
  if bytes <? 3 then Ret (-1, data)
  else
    do data <- wrn data 0 [u8 (Z.shiftr (min_delay ext) 4);
                           u8 (Z.shiftl (Z.land (min_delay ext) 15) 4);
                           Z.land (Z.shiftr (max_delay ext) 8) 15] ;;
    do data <- wrn data 3 [Z.land (max_delay ext) 255] ;;
    Ret (3, data).

(** [v] is an array of characters. *)
Definition rtp_ext_string_parse (data : list Z) (bytes : Z) (v : list Z) (n : Z) : outcome (Z * list Z) :=
  if n <? bytes + 1 then Ret (-1, v)
  else
    do s <- rdn data 0 bytes ;;
    do v <- wrn v 0 s ;;
    do v <- wrn v bytes [0] ;;
    Ret (0, v).

Definition rtp_ext_string_write (data : list Z) (bytes : Z) (v : list Z) (n : Z) : outcome (Z * list Z) :=
  if bytes <? n then Ret (-1, data)
  else do s <- rdn v 0 n ;; do data <- wrn data 0 s ;; Ret (n, data).

Record audio_level_t := mk_audio { activity : Z; level : Z }.

Definition rtp_ext_ssrc_audio_level_parse (data : list Z) (bytes : Z) (old : audio_level_t)
  : outcome (Z * audio_level_t) :=
  if bytes <? 1 then Ret (-1, old)
  else
    do d <- rd data 0 ;;
    Ret (0, mk_audio (if negb (Z.land d 128 =? 0) then 1 else 0) (Z.land d 127)).

Definition rtp_ext_ssrc_audio_level_write (data : list Z) (bytes : Z) (ext : audio_level_t)
  : outcome (Z * list Z) :=
  if bytes <? 1 then Ret (-1, data)
  else
    do data <- wrn data 0 [Z.lor (if negb (activity ext =? 0) then 128 else 0) (level ext)] ;;
    Ret (1, data).

Definition rtp_ext_toffset_parse (data : list Z) (bytes old : Z) : outcome (Z * Z) :=
  if bytes <? 3 then Ret (-1, old)
  else
    do b0 <- rd data 0 ;;
    do b1 <- rd data 1 ;;
    do b2 <- rd data 2 ;;
    Ret (0, Z.lor (Z.lor (Z.shiftl b0 16) (Z.shiftl b1 8)) b2).

Definition rtp_ext_toffset_write (data : list Z) (bytes timestamp : Z) : outcome (Z * list Z) :=
  if bytes <? 3 then Ret (-1, data)
  else
    do data <- wrn data 0 [u8 (Z.shiftr timestamp 16); u8 (Z.shiftr timestamp 8); u8 (Z.shiftr timestamp 0)] ;;
    Ret (3, data).

Record transport_wide_cc_t := mk_twcc { cc_seq : Z; cc_t : Z; cc_count : Z }.

Definition rtp_ext_transport_wide_cc_parse `{Build} (data : list Z) (bytes : Z) (old : transport_wide_cc_t)
  : outcome (Z * transport_wide_cc_t) :=
  c_assert ((bytes =? 2) || (bytes =? 4)) ;;;
  if bytes <? 2 then Ret (-1, old)
  else
    do s <- rtp_read_uint16 data ;;
    if 4 <=? bytes then
      do d2 <- rd data 2 ;;
      do c <- rtp_read_uint16 (adv data 2) ;;
      Ret (0, mk_twcc s (Z.land (Z.shiftr d2 7) 1) (Z.land c 32767))
    else Ret (0, mk_twcc s 0 0).

Definition rtp_ext_transport_wide_cc_write (data : list Z) (bytes : Z) (ext : transport_wide_cc_t)
  : outcome (Z * list Z) :=
  if bytes <? 2 then Ret (-1, data)
  else
    do data <- rtp_write_uint16 data 0 (cc_seq ext) ;;
    do data <-
      (if 4 <=? bytes then
         rtp_write_uint16 data 2 (Z.lor (u16 (Z.shiftl (cc_t ext) 15)) (Z.land (cc_count ext) 32767))
       else Ret data) ;;
    Ret (if 4 <=? bytes then 4 else 2, data).

Definition rtp_ext_video_content_type_parse `{Build} (data : list Z) (bytes : Z) : outcome (Z * Z) :=
  c_assert (bytes =? 1) ;;;
  do v <- (if 0 <? bytes then rd data 0 else Ret 0) ;;
  Ret (0, v).

Definition rtp_ext_video_content_type_write (data : list Z) (bytes ext : Z) : outcome (Z * list Z) :=
  if bytes <? 1 then Ret (-1, data)
  else do data <- wrn data 0 [ext] ;; Ret (1, data).

Definition rtp_ext_video_frame_tracking_id_parse (data : list Z) (bytes old : Z) : outcome (Z * Z) :=
  if bytes <? 2 then Ret (-1, old) else do v <- rtp_read_uint16 data ;; Ret (0, v).

Definition rtp_ext_video_frame_tracking_id_write (data : list Z) (bytes id : Z) : outcome (Z * list Z) :=
  if bytes <? 1 then Ret (-1, data)
  else do data <- rtp_write_uint16 data 0 id ;; Ret (2, data).

(** Both are stubs in the source: the parser clears [rid] and stops at [assert(0)]. *)
Definition rtp_ext_video_layers_allocation_parse `{Build} (data : list Z) (bytes : Z) : outcome (Z * Z) :=
  c_assert false ;;; Ret (-1, 0).
Definition rtp_ext_video_layers_allocation_write (data : list Z) (bytes rid : Z) : outcome (Z * list Z) :=
  if bytes <? 4 then Ret (-1, data) else Ret (-1, data).

Record video_orientation_t := mk_orientation { camera : Z; flip : Z; rotaion : Z }.

Definition rtp_ext_video_orientation_parse `{Build} (data : list Z) (bytes : Z) (old : video_orientation_t)
  : outcome (Z * video_orientation_t) :=
  c_assert (1 =? bytes) ;;;
  if bytes <? 1 then Ret (-1, old)
  else
    do d <- rd data 0 ;;
    Ret (0, mk_orientation (Z.land (Z.shiftr d 3) 1) (Z.land (Z.shiftr d 2) 1) (Z.land d 3 * 90)).

(** [/] of the source truncates. *)
Definition rtp_ext_video_orientation_write (data : list Z) (bytes : Z) (ext : video_orientation_t)
  : outcome (Z * list Z) :=
  if bytes <? 1 then Ret (-1, data)
  else
    do data <- wrn data 0 [Z.lor (Z.lor (if negb (camera ext =? 0) then 4 else 0)
                                        (if negb (flip ext =? 0) then 3 else 0))
                                 (Z.land (Z.quot (rotaion ext) 90) 3)] ;;
    Ret (1, data).

Record video_timing_t := mk_timing {
  vt_flags : Z; encode_start : Z; encode_finish : Z; packetization_complete : Z;
  last_packet_left_the_pacer : Z; network_timestamp : Z; network_timestamp2 : Z
}.

Definition rtp_ext_video_timing_parse `{Build} (data : list Z) (bytes : Z) (old : video_timing_t)
  : outcome (Z * video_timing_t) :=
  c_assert (bytes =? 13) ;;;
  if bytes <? 13 then Ret (-1, old)
  else
    do f <- rd data 0 ;;
    do es <- rtp_read_uint16 (adv data 1) ;;
    do ef <- rtp_read_uint16 (adv data 3) ;;
    do pc <- rtp_read_uint16 (adv data 5) ;;
    do lp <- rtp_read_uint16 (adv data 7) ;;
    do n1 <- rtp_read_uint16 (adv data 9) ;;
    do n2 <- rtp_read_uint16 (adv data 11) ;;
    Ret (0, mk_timing f es ef pc lp n1 n2).

Definition rtp_ext_video_timing_write (data : list Z) (bytes : Z) (ext : video_timing_t) : outcome (Z * list Z) :=
  if bytes <? 13 then Ret (-1, data)
  else
    do data <- wrn data 0 [u8 (vt_flags ext)] ;;
    do data <- rtp_write_uint16 data 1 (encode_start ext) ;;
    do data <- rtp_write_uint16 data 3 (encode_finish ext) ;;
    do data <- rtp_write_uint16 data 5 (packetization_complete ext) ;;
    do data <- rtp_write_uint16 data 7 (last_packet_left_the_pacer ext) ;;
    do data <- rtp_write_uint16 data 9 (network_timestamp ext) ;;
    do data <- rtp_write_uint16 data 11 (network_timestamp2 ext) ;;
    Ret (13, data).
