(* ===== verification/RtpExtProps.v ===== *)
(** RTP header extensions: the readers stay inside the data, the two-byte format is
    read back as it was written, and every correct codec of a single extension
    survives the way through it. *)

From Stdlib Require Import String.
From stdpp Require Import list.
From S2P Require Import Prelude RtpUtil RtpExt.
Open Scope Z_scope.

(** ** What the readers leave in the array *)
Definition ext_in (slack bytes : Z) (e : rtp_ext_data_t) : Prop :=
  0 <= ext_id e < 256 /\ 0 <= ext_len e < 256 /\ 0 <= ext_off e /\ ext_off e + ext_len e <= bytes + slack.

Definition exts_in (slack bytes : Z) (exts : list rtp_ext_data_t) : Prop :=
  zlen exts = 256 /\ Forall (ext_in slack bytes) exts.

Lemma exts_in_none slack bytes : 0 <= slack -> 0 <= bytes -> exts_in slack bytes no_exts.
Proof.
  intros. split; [done|]. apply Forall_replicate. unfold ext_in. simpl. lia.
Qed.

Lemma exts_in_insert slack bytes exts i e :
  exts_in slack bytes exts -> ext_in slack bytes e -> 0 <= i < 256 ->
  exists exts', wrn exts i [e] = Ret exts' /\ exts' = <[Z.to_nat i := e]> exts /\ exts_in slack bytes exts'.
Proof.
  intros [Hl Hf] He Hi. rewrite wrn_single by lia. eexists. split; [done|]. split; [done|].
  split; [unfold zlen in *; by rewrite length_insert|]. by apply Forall_insert.
Qed.

Lemma byte_hi b : is_byte b -> 0 <= Z.shiftr b 4 < 16.
Proof. unfold is_byte. intros. rewrite Z.shiftr_div_pow2 by lia. lia. Qed.
Lemma byte_lo b : 0 <= Z.land b 15 < 16.
Proof. change 15 with (2 ^ 4 - 1). rewrite land_ones_mod by lia. lia. Qed.

Lemma rd_byte_at data i : bytes_ok data -> 0 <= i < zlen data -> exists b, rd data i = Ret b /\ is_byte b.
Proof.
  intros Hb Hi. destruct (data !! Z.to_nat i) as [b|] eqn:E.
  - exists b. split; [by apply rd_lookup; [lia|]|]. by eapply Forall_lookup_1.
  - apply lookup_ge_None in E. unfold zlen in Hi. lia.
Qed.

Lemma read_one_byte_ok fuel data bytes off exts :
  bytes_ok data -> bytes <= zlen data -> 0 <= off -> bytes - off <= Z.of_nat fuel ->
  exts_in 1 bytes exts ->
  exists r exts', read_one_byte_loop fuel data bytes off exts = Ret (r, exts') /\ exts_in 1 bytes exts'.
Proof.
  intros Hd Hb. revert off exts. induction fuel as [|fuel IH]; intros off exts Ho Hf He; cbn [read_one_byte_loop].
  { destruct (Z.ltb_spec off bytes); [lia|]. by eauto. }
  destruct (Z.ltb_spec off bytes); [|by eauto].
  destruct (rd_byte_at data off Hd) as (d & -> & Hdb); [lia|]. cbn [obind].
  pose proof (byte_hi d Hdb). pose proof (byte_lo d).
  destruct (_ || _) eqn:Eb; [by eauto|]. cbool. destruct Eb as [[Hm Hl] _].
  destruct (RTP_HDREXT_PADDING =? d); [apply IH; [lia|lia|done]|].
  destruct (_ =? RTP_HDREXT_ONE_BYTE_RESERVED); [by eauto|].
  destruct (exts_in_insert 1 bytes exts (Z.shiftr d 4)
              (mk_ext (Z.shiftr d 4) (Z.land d 15 + 1) (u16 (off + 1))) He) as (exts' & -> & _ & He').
  { unfold ext_in, u16. simpl. rewrite Z.mod_small by lia. lia. }
  { lia. }
  cbn [obind]. apply IH; [lia|lia|done].
Qed.

Lemma read_two_byte_ok fuel data bytes off exts :
  bytes_ok data -> bytes <= zlen data -> bytes <= 65535 -> 0 <= off -> bytes - off <= Z.of_nat fuel ->
  exts_in 0 bytes exts ->
  exists r exts', read_two_byte_loop fuel data bytes off exts = Ret (r, exts') /\ exts_in 0 bytes exts'.
Proof.
  intros Hd Hb Hm. revert off exts. induction fuel as [|fuel IH]; intros off exts Ho Hf He; cbn [read_two_byte_loop].
  { destruct (Z.ltb_spec off bytes); [lia|]. by eauto. }
  destruct (Z.ltb_spec off bytes); [|by eauto].
  destruct (rd_byte_at data off Hd) as (id & -> & Hid); [lia|]. cbn [obind].
  destruct (RTP_HDREXT_PADDING =? id); [apply IH; [lia|lia|done]|].
  destruct (Z.leb_spec bytes (off + 1)); [by eauto|].
  destruct (rd_byte_at data (off + 1) Hd) as (len & -> & Hlen); [lia|]. cbn [obind].
  destruct (Z.ltb_spec bytes (off + 1 + 1 + len)); [by eauto|]. unfold is_byte in *.
  destruct (exts_in_insert 0 bytes exts id (mk_ext id len (u16 (off + 1 + 1))) He) as (exts' & -> & _ & He').
  { unfold ext_in, u16. simpl. rewrite Z.mod_small by lia. lia. }
  { lia. }
  cbn [obind]. apply IH; [lia|lia|done].
Qed.

(** C0. [rtp_ext_read] returns on every block of at most 65535 bytes and reads and
    writes inside its arguments. The elements it records lie inside the block in the
    two-byte format; in the one-byte format the last one may claim one byte more. *)
Theorem rtp_ext_read_safe profile data bytes :
  bytes_ok data -> bytes <= zlen data -> 0 <= bytes <= 65535 ->
  exists r exts, rtp_ext_read profile data bytes no_exts = Ret (r, exts)
    /\ exts_in (if profile =? RTP_HDREXT_PROFILE_ONE_BYTE then 1 else 0) bytes exts.
Proof.
  intros Hd Hb Hm. unfold rtp_ext_read. rewrite (Z.eqb_sym profile).
  destruct (RTP_HDREXT_PROFILE_ONE_BYTE =? profile).
  { apply read_one_byte_ok; [done|done|lia|lia|apply exts_in_none; lia]. }
  destruct (RTP_HDREXT_PROFILE_TWO_BYTE =? _).
  - apply read_two_byte_ok; [done|done|lia|lia|lia|apply exts_in_none; lia].
  - eexists _, _. split; [done|]. apply exts_in_none; lia.
Qed.

(** The element behind the end: two bytes claim three. *)
Example rtp_ext_one_byte_past_end :
  exists exts, rtp_ext_read RTP_HDREXT_PROFILE_ONE_BYTE [33; 7] 2 no_exts = Ret (0, exts)
    /\ exts !! 2%nat = Some (mk_ext 2 2 1).
Proof. eexists. split; vm_compute; reflexivity. Qed.

(** A name that is not in the table is compared with the null pointer behind it. *)
Example rtp_ext_find_unknown : rtp_ext_find_uri "urn:x"%string = Crash OutOfBounds.
Proof. reflexivity. Qed.

(** ** The two-byte format *)
Definition element : Type := Z * list Z.   (* identifier and content *)
Definition element_ok (e : element) : Prop := 0 < e.1 < 256 /\ zlen e.2 < 256 /\ bytes_ok e.2.
Definition encode2 (e : element) : list Z := [e.1; zlen e.2] ++ e.2.

(** The descriptor of an element whose content stands at [off] of the source. *)
Definition describes (extension : list Z) (x : rtp_ext_data_t) (e : element) : Prop :=
  ext_id x = e.1 /\ ext_len x = zlen e.2 /\ rdn extension (ext_off x) (zlen e.2) = Ret e.2.

Lemma zlen_encode2 e : zlen (encode2 e) = 2 + zlen e.2.
Proof. unfold encode2. zlia. Qed.
#[local] Hint Rewrite zlen_encode2 : zlen.

Definition pads (n : Z) : Z := (- n) mod 4.

Lemma pad4_spec fuel W D :
  (Z.to_nat (pads (zlen W)) <= fuel)%nat -> pads (zlen W) <= zlen D ->
  pad4 fuel (W ++ D) (zlen W)
  = Ret (zlen W + pads (zlen W), W ++ replicate (Z.to_nat (pads (zlen W))) 0 ++ adv D (pads (zlen W))).
Proof.
  unfold pads. revert W D. induction fuel as [|fuel IH]; intros W D Hf HD; cbn [pad4];
    destruct (Z.eqb_spec (zlen W mod 4) 0) as [E|E]; cbn [negb].
  1,3: replace (- zlen W mod 4) with 0 by lia; rewrite Z.add_0_r, adv_0; done.
  { lia. }
  destruct D as [|d D]; [zlia|]. rewrite wrn_app by (done || zlia). cbn [obind].
  rewrite zlen_cons, (zlen_nil (A:=Z)), adv_cons, adv_0 by lia.
  replace (zlen W + 1) with (zlen (W ++ [RTP_HDREXT_PADDING])) by zlia.
  rewrite IH by zlia. rewrite <- app_assoc.
  assert (Hp : - zlen W mod 4 = 1 + - zlen (W ++ [RTP_HDREXT_PADDING]) mod 4) by zlia.
  rewrite Hp. replace (Z.to_nat (1 + _)) with (S (Z.to_nat (- zlen (W ++ [RTP_HDREXT_PADDING]) mod 4))) by lia.
  rewrite adv_cons by lia. replace (1 + _ - 1) with (- zlen (W ++ [RTP_HDREXT_PADDING]) mod 4) by lia.
  f_equal. f_equal. zlia.
Qed.

Definition encode_all (es : list element) : list Z := concat (map encode2 es).

Lemma encode_cons e es : encode_all (e :: es) = encode2 e ++ encode_all es.
Proof. done. Qed.
Lemma zlen_encode_cons e es : zlen (encode_all (e :: es)) = 2 + zlen e.2 + zlen (encode_all es).
Proof. by rewrite encode_cons, zlen_app, zlen_encode2. Qed.

(** The whole block, padded to words. *)
Definition block_size (es : list element) : Z := zlen (encode_all es) + pads (zlen (encode_all es)).

Lemma write_two_byte_loop_spec `{Build} extension X1 X2 es W D bytes fuel :
  Forall2 (describes extension) X2 es -> Forall element_ok es -> (length es <= fuel)%nat ->
  let total := zlen W + zlen (encode_all es) in
  total + pads total < bytes -> bytes <= zlen (W ++ D) ->
  write_two_byte_loop fuel extension (X1 ++ X2) (zlen (X1 ++ X2)) (W ++ D) bytes (zlen X1) (zlen W)
  = Ret (total + pads total,
         W ++ encode_all es ++ replicate (Z.to_nat (pads total)) 0
           ++ adv D (zlen (encode_all es) + pads total)).
Proof.
  intros HX. revert X1 W D fuel. induction HX as [|x e X2 es Hx HX IH]; intros X1 W D fuel Hes Hf total Ht Hb.
  - unfold total, encode_all in *. cbn [map concat] in *. rewrite (zlen_nil (A:=Z)), Z.add_0_r in *.
    assert (Hp : 0 <= pads (zlen W)) by (unfold pads; lia).
    replace (write_two_byte_loop fuel _ _ _ _ _ _ _)
      with (write_end (W ++ D) (zlen X1) (zlen (X1 ++ [])) (zlen W) bytes).
    2: { rewrite app_nil_r. destruct fuel; cbn [write_two_byte_loop]; by rewrite Z.ltb_irrefl. }
    unfold write_end. rewrite app_nil_r, Z.ltb_irrefl.
    assert (Hc : negb (zlen W mod 4 =? 0) && (bytes <=? (zlen W + 3) / 4 * 4) = false).
    { cbool. right. revert Ht. unfold pads. lia. }
    cbn [orb]. rewrite Hc. rewrite pad4_spec; [done| |zlia]. unfold pads. lia.
  - apply Forall_cons_1 in Hes as [He Hes]. destruct fuel as [|fuel]; [simpl in Hf; lia|].
    assert (Hp : 0 <= pads total) by (unfold pads; lia).
    assert (Etot : total = zlen (W ++ encode2 e) + zlen (encode_all es)).
    { unfold total, encode_all. cbn [map concat]. zlia. }
    destruct He as (Hid & Hlen & Hbs). destruct Hx as (Eid & Elen & Erd).
    pose proof (zlen_nonneg (encode_all es)). pose proof (zlen_nonneg (e.2)).
    rewrite zlen_app, zlen_encode2 in Etot. pose proof (zlen_nonneg X2).
    cbn [write_two_byte_loop]. rewrite (zlen_app X1), zlen_cons. do 2 zif. cbn [andb].
    rewrite rd_last by done. cbn [obind]. rewrite Eid, Elen. unfold RTP_HDREXT_PADDING. do 2 zif.
    rewrite wrn_app by (done || zlia). cbn [obind].
    replace (zlen W + 1) with (zlen (W ++ [u8 e.1])) by zlia.
    rewrite wrn_app by (done || zlia). cbn [obind]. rewrite Erd. cbn [obind].
    rewrite adv_adv by zlia.
    replace (zlen W + 2) with (zlen ((W ++ [u8 e.1]) ++ [u8 (zlen e.2)])) by zlia.
    rewrite wrn_app by (done || zlia). cbn [obind]. rewrite adv_adv by zlia.
    rewrite !u8_small by (unfold is_byte; lia).
    replace (((W ++ [e.1]) ++ [zlen e.2]) ++ e.2) with (W ++ encode2 e)
      by (unfold encode2; by rewrite <- !app_assoc).
    rewrite <- (zlen_cons x X2), <- zlen_app.
    replace (X1 ++ x :: X2) with ((X1 ++ [x]) ++ X2) by (by rewrite <- app_assoc).
    replace (zlen X1 + 1) with (zlen (X1 ++ [x])) by zlia.
    replace (zlen ((W ++ [e.1]) ++ [zlen e.2]) + zlen e.2) with (zlen (W ++ encode2 e)) by zlia.
    rewrite IH; [|done|simpl in Hf; lia| |].
    + rewrite zlen_app, zlen_encode2, <- Etot. rewrite adv_adv by zlia.
      rewrite zlen_encode_cons.
      replace (zlen [e.1] + zlen [zlen e.2] + zlen e.2 + (zlen (encode_all es) + pads total))
        with (2 + zlen e.2 + zlen (encode_all es) + pads total) by (rewrite !zlen_cons, (zlen_nil (A:=Z)); lia).
      rewrite encode_cons, <- !app_assoc. done.
    + rewrite zlen_app, zlen_encode2, <- Etot. done.
    + zlia.
Qed.

(** The elements in the array, when the first of them starts at [off]. *)
Fixpoint record_all (off : Z) (es : list element) (exts : list rtp_ext_data_t) : list rtp_ext_data_t :=
  match es with
  | [] => exts
  | e :: es => record_all (off + zlen (encode2 e)) es
                 (<[Z.to_nat e.1 := mk_ext e.1 (zlen e.2) (off + 2)]> exts)
  end.

Lemma read_padding W k R exts fuel :
  (Z.to_nat k <= fuel)%nat -> 0 <= k ->
  read_two_byte_loop fuel (W ++ replicate (Z.to_nat k) 0 ++ R) (zlen W + k) (zlen W) exts = Ret (0, exts).
Proof.
  revert W k. induction fuel as [|fuel IH]; intros W k Hf Hk; cbn [read_two_byte_loop].
  { zif. done. }
  destruct (Z.ltb_spec (zlen W) (zlen W + k)); [|done].
  replace (Z.to_nat k) with (S (Z.to_nat (k - 1))) by lia. cbn [replicate app].
  rewrite rd_last by done. cbn [obind]. unfold RTP_HDREXT_PADDING. simpl (0 =? 0). cbv iota.
  replace (W ++ 0 :: replicate (Z.to_nat (k - 1)) 0 ++ R) with ((W ++ [0]) ++ replicate (Z.to_nat (k - 1)) 0 ++ R)
    by (by rewrite <- app_assoc).
  replace (zlen W + k) with (zlen (W ++ [0]) + (k - 1)) by zlia.
  replace (zlen W + 1) with (zlen (W ++ [0])) by zlia. apply IH; lia.
Qed.

Lemma read_two_byte_loop_spec es W k R exts fuel :
  Forall element_ok es -> 0 <= k -> zlen exts = 256 ->
  zlen W + zlen (encode_all es) + k <= 65535 ->
  (Z.to_nat (zlen (encode_all es) + k) <= fuel)%nat ->
  read_two_byte_loop fuel (W ++ encode_all es ++ replicate (Z.to_nat k) 0 ++ R)
    (zlen W + zlen (encode_all es) + k) (zlen W) exts
  = Ret (0, record_all (zlen W) es exts).
Proof.
  intros Hes Hk. revert W exts fuel. induction Hes as [|e es He Hes IH]; intros W exts fuel Hl Hm Hf.
  { unfold encode_all in *. cbn [map concat app] in *. rewrite (zlen_nil (A:=Z)), Z.add_0_r in *.
    apply read_padding; [|done]. lia. }
  unfold encode_all in Hm, Hf |- *. cbn [map concat] in Hm, Hf |- *. fold (encode_all es) in Hm, Hf |- *.
  rewrite zlen_app, zlen_encode2 in *. destruct He as (Hid & Hlen & Hbs).
  pose proof (zlen_nonneg (encode_all es)). pose proof (zlen_nonneg (e.2)). pose proof (zlen_nonneg W).
  destruct fuel as [|fuel]; [lia|]. cbn [read_two_byte_loop]. zif.
  unfold encode2 at 1. cbn [app]. rewrite <- !app_assoc.
  rewrite rd_last by done. cbn [obind]. unfold RTP_HDREXT_PADDING. do 2 zif.
  set (Y := encode_all es ++ replicate (Z.to_nat k) 0 ++ R).
  replace (W ++ e.1 :: zlen e.2 :: e.2 ++ Y) with ((W ++ [e.1]) ++ zlen e.2 :: e.2 ++ Y) at 1
    by (by rewrite <- app_assoc).
  rewrite rd_last by zlia. cbn [obind]. zif.
  unfold u16. rewrite Z.mod_small by lia.
  rewrite wrn_single by lia. cbn [obind]. cbn [record_all].
  replace (W ++ e.1 :: zlen e.2 :: e.2 ++ Y) with ((W ++ encode2 e) ++ Y)
    by (unfold encode2; rewrite <- !app_assoc; done).
  replace (zlen W + (2 + zlen e.2 + zlen (encode_all es)) + k)
    with (zlen (W ++ encode2 e) + zlen (encode_all es) + k) by zlia.
  replace (zlen W + 1 + 1 + zlen e.2) with (zlen (W ++ encode2 e)) by zlia.
  rewrite ?(app_assoc W). unfold Y. rewrite IH; [|unfold zlen in *; by rewrite length_insert|zlia|lia].
  rewrite zlen_app. by replace (zlen W + 1 + 1) with (zlen W + 2) by lia.
Qed.

Lemma record_all_other off es exts i :
  ~ In i (map (fun e : element => Z.to_nat e.1) es) -> record_all off es exts !! i = exts !! i.
Proof.
  revert off exts. induction es as [|e es IH]; intros off exts Hi; [done|]. cbn [record_all map] in *.
  rewrite IH by (intros ?; apply Hi; by right). apply list_lookup_insert_ne. intros E. apply Hi. by left.
Qed.

Lemma record_all_lookup es W R exts e :
  In e es -> List.NoDup (map fst es) -> Forall element_ok es -> zlen exts = 256 ->
  exists x, record_all (zlen W) es exts !! Z.to_nat e.1 = Some x
    /\ describes (W ++ encode_all es ++ R) x e.
Proof.
  revert W exts. induction es as [|d es IH]; [done|]. intros W exts Hin Hnd Hok Hl.
  cbn [map] in Hnd. apply NoDup_cons_iff in Hnd as [Hd Hnd]. apply Forall_cons_1 in Hok as [Hdk Hok].
  unfold encode_all. cbn [map concat record_all]. fold (encode_all es).
  destruct Hin as [->|Hin].
  - rewrite record_all_other, list_lookup_insert_eq.
    + eexists. split; [done|]. split; [done|]. split; [done|]. cbn [ext_off].
      replace (W ++ (encode2 e ++ encode_all es) ++ R) with ((W ++ [e.1; zlen e.2]) ++ e.2 ++ encode_all es ++ R)
        by (unfold encode2; rewrite <- !app_assoc; done).
      apply rdn_app; [zlia|done].
    + unfold zlen, element_ok in *. lia.
    + rewrite in_map_iff. intros (e' & E & Hin'). apply Hd. apply in_map_iff. exists e'. split; [|done].
      assert (element_ok e') by (by eapply List.Forall_forall in Hok).
      unfold element_ok in *. lia.
  - destruct (IH (W ++ encode2 d) (<[Z.to_nat d.1:=mk_ext d.1 (zlen d.2) (zlen W + 2)]> exts) Hin Hnd Hok)
      as (x & Ex & Hx); [unfold zlen in *; by rewrite length_insert|].
    exists x. rewrite <- zlen_app. split; [done|]. by rewrite <- !app_assoc in *.
Qed.

Lemma two_byte_roundtrip `{Build} extension X es buf :
  Forall2 (describes extension) X es -> Forall element_ok es -> List.NoDup (map fst es) ->
  block_size es < zlen buf -> block_size es <= 65535 ->
  exists n data exts,
    rtp_ext_write RTP_HDREXT_PROFILE_TWO_BYTE extension X (zlen X) buf (zlen buf) = Ret (n, data)
    /\ n = block_size es /\ zlen data = zlen buf
    /\ rtp_ext_read RTP_HDREXT_PROFILE_TWO_BYTE data n no_exts = Ret (0, exts)
    /\ (forall e, In e es -> exists x, exts !! Z.to_nat e.1 = Some x /\ describes data x e)
    /\ (forall i, (i < 256)%nat -> ~ In (Z.of_nat i) (map fst es) -> exts !! i = Some (mk_ext 0 0 0)).
Proof.
  intros HX Hes Hnd Hb Hm. unfold block_size in *.
  assert (Hp : 0 <= pads (zlen (encode_all es))) by (unfold pads; lia).
  pose proof (zlen_nonneg (encode_all es)).
  eexists _, _, _. split.
  { unfold rtp_ext_write. simpl. unfold rtp_ext_write_two_byte.
    apply (write_two_byte_loop_spec extension [] X es [] buf); [done|done| |done|done].
    apply Forall2_length in HX. unfold zlen. lia. }
  change (zlen (@nil Z)) with 0. cbn [app]. rewrite !Z.add_0_l. split; [done|]. split; [rewrite !zlen_app, zlen_replicate, zlen_adv; lia|].
  split.
  { unfold rtp_ext_read. simpl. unfold rtp_ext_read_two_byte.
    apply (read_two_byte_loop_spec es [] (pads (zlen (encode_all es)))); try done. all: rewrite ?(zlen_nil (A:=Z)); try lia. }
  split.
  - intros e He. apply (record_all_lookup es []); done.
  - intros i Hi Hn. rewrite record_all_other.
    + unfold no_exts. by apply lookup_replicate_2.
    + rewrite in_map_iff. intros (e & E & Hin). apply Hn. apply in_map_iff. exists e. split; [|done].
      assert (element_ok e) by (by eapply List.Forall_forall in Hes). unfold element_ok in *. lia.
Qed.

(** C40. What [rtp_ext_write] writes in the two-byte format [rtp_ext_read] reads back:
    for elements with different identifiers whose contents are anywhere in the
    source buffer, the block takes the size of its elements rounded up to words, it
    is parsed without an error, every element is found under its identifier with its
    content, and no other identifier is set. *)
Theorem rtp_ext_two_byte_roundtrip `{Build} extension X es buf :
  Forall2 (describes extension) X es -> Forall element_ok es -> List.NoDup (map fst es) ->
  block_size es < zlen buf -> block_size es <= 65535 ->
  exists n data exts,
    rtp_ext_write RTP_HDREXT_PROFILE_TWO_BYTE extension X (zlen X) buf (zlen buf) = Ret (n, data)
    /\ n = block_size es /\ zlen data = zlen buf
    /\ rtp_ext_read RTP_HDREXT_PROFILE_TWO_BYTE data n no_exts = Ret (0, exts)
    /\ (forall e, In e es -> exists x, exts !! Z.to_nat e.1 = Some x /\ describes data x e)
    /\ (forall i, (i < 256)%nat -> ~ In (Z.of_nat i) (map fst es) -> exts !! i = Some (mk_ext 0 0 0)).
Proof. apply two_byte_roundtrip. Qed.

Lemma rdn_prefix (p : list Z) off n l : rdn p off n = Ret l -> exists R, adv p off = l ++ R.
Proof.
  unfold rdn, adv. destruct (_ && _); [|done]. intros [= <-].
  exists (drop (Z.to_nat n) (drop (Z.to_nat off) p)). by rewrite take_drop.
Qed.

(** ** Codecs of single extensions, as a client of the block uses them *)
Section Codecs.
Context `{Build}.

Class ExtCodec (A : Type) := {
  ec_size : A -> Z;
  ec_ok : A -> Prop;
  ec_write : list Z -> Z -> A -> outcome (Z * list Z);
  ec_parse : list Z -> Z -> A -> outcome (Z * A);
  ec_law : forall buf v, ec_ok v -> zlen buf = ec_size v ->
    exists bs, ec_write buf (ec_size v) v = Ret (ec_size v, bs)
      /\ zlen bs = ec_size v /\ bytes_ok bs
      /\ forall R old, ec_parse (bs ++ R) (ec_size v) old = Ret (0, v)
}.

(** A buffer of a known size, byte by byte. *)
Lemma buf1 (buf : list Z) : zlen buf = 1 -> exists a, buf = [a].
Proof. destruct buf as [|a [|b buf]]; [zlia| |zlia]. eauto. Qed.
Lemma buf2 (buf : list Z) : zlen buf = 2 -> exists a b, buf = [a; b].
Proof. destruct buf as [|a buf]; [zlia|]. rewrite zlen_cons. intros. destruct (buf1 buf) as [b ->]; [lia|]. eauto. Qed.
Lemma buf3 (buf : list Z) : zlen buf = 3 -> exists a b c, buf = [a; b; c].
Proof. destruct buf as [|a buf]; [zlia|]. rewrite zlen_cons. intros. destruct (buf2 buf) as (b & c & ->); [lia|]. eauto. Qed.
Lemma buf4 (buf : list Z) : zlen buf = 4 -> exists a b c d, buf = [a; b; c; d].
Proof. destruct buf as [|a buf]; [zlia|]. rewrite zlen_cons. intros. destruct (buf3 buf) as (b & c & d & ->); [lia|]. eauto 6. Qed.

Lemma bytes_app l l' : bytes_ok l -> bytes_ok l' -> bytes_ok (l ++ l').
Proof. intros. by apply Forall_app. Qed.
Lemma bytes_1 a : is_byte a -> bytes_ok [a].
Proof. by constructor. Qed.

#[refine] Instance content_type_codec : ExtCodec Z := {
  ec_size _ := 1; ec_ok := is_byte;
  ec_write := rtp_ext_video_content_type_write;
  ec_parse data bytes _ := rtp_ext_video_content_type_parse data bytes
}.
Proof.
  intros buf v Hv Hl. destruct (buf1 buf Hl) as [a ->]. exists [v].
  split; [done|]. split; [done|]. split; [by apply bytes_1|]. done.
Defined.

#[refine] Instance tracking_id_codec : ExtCodec Z := {
  ec_size _ := 2; ec_ok := is_u16;
  ec_write := rtp_ext_video_frame_tracking_id_write;
  ec_parse := rtp_ext_video_frame_tracking_id_parse
}.
Proof.
  intros buf v Hv Hl. destruct (buf2 buf Hl) as (a & b & ->). exists (be16 v).
  split; [done|]. split; [done|]. split; [auto with zlist|]. intros R old.
  unfold rtp_ext_video_frame_tracking_id_parse. rewrite nbo_r16_be16, u16_small by done. done.
Defined.

#[refine] Instance inband_cn_codec : ExtCodec Z := {
  ec_size _ := 1; ec_ok v := 0 <= v < 128;
  ec_write := rtp_ext_inband_cn_write; ec_parse := rtp_ext_inband_cn_parse
}.
Proof.
  intros buf v Hv Hl. destruct (buf1 buf Hl) as [a ->]. exists [Z.land v 127].
  assert (E : Z.land v 127 = v) by (change 127 with (2 ^ 7 - 1); rewrite land_ones_mod by lia; lia).
  rewrite E. split; [unfold rtp_ext_inband_cn_write; by rewrite E|]. split; [done|].
  split; [apply bytes_1; unfold is_byte; lia|]. intros R old. transitivity (Ret (0, Z.land v 127)); [done|by rewrite E].
Defined.

#[refine] Instance audio_level_codec : ExtCodec audio_level_t := {
  ec_size _ := 1; ec_ok v := (activity v = 0 \/ activity v = 1) /\ 0 <= level v < 128;
  ec_write := rtp_ext_ssrc_audio_level_write; ec_parse := rtp_ext_ssrc_audio_level_parse
}.
Proof.
  intros buf [ac lv] [Ha Hv] Hl. cbn [activity level] in *. destruct (buf1 buf Hl) as [a ->].
  assert (Hb : 0 <= lv < 2 ^ 7) by lia. assert (Hlv : is_byte lv) by (unfold is_byte; lia).
  assert (E : forall b, b = 0 \/ b = 128 ->
    Z.land (Z.lor b lv) 128 = b /\ Z.land (Z.lor b lv) 127 = lv /\ is_byte (Z.lor b lv)).
  { intros b Hbb. rewrite (lor_add b lv 7) by (lia || (destruct Hbb; subst; done)).
    change 127 with (2 ^ 7 - 1). rewrite land_ones_mod by lia.
    split; [|unfold is_byte; lia].
    pose proof (byte_cases (fun x => Z.land x 128 =? x / 128 * 128) ltac:(vm_compute; reflexivity) (b + lv)) as Hc.
    rewrite Z.eqb_eq in Hc. rewrite Hc by (unfold is_byte; lia). destruct Hbb; subst; lia. }
  destruct Ha as [-> | ->].
  - destruct (E 0) as (E1 & E2 & E3); [by left|]. exists [Z.lor 0 lv]. split; [done|]. split; [done|].
    split; [by apply bytes_1|]. intros R old.
    transitivity (Ret (0, mk_audio (if negb (Z.land (Z.lor 0 lv) 128 =? 0) then 1 else 0) (Z.land (Z.lor 0 lv) 127)));
      [done|by rewrite E1, E2].
  - destruct (E 128) as (E1 & E2 & E3); [by right|]. exists [Z.lor 128 lv]. split; [done|]. split; [done|].
    split; [by apply bytes_1|]. intros R old.
    transitivity (Ret (0, mk_audio (if negb (Z.land (Z.lor 128 lv) 128 =? 0) then 1 else 0) (Z.land (Z.lor 128 lv) 127)));
      [done|by rewrite E1, E2].
Defined.

Lemma join24_bytes b0 b1 b2 : is_byte b0 -> is_byte b1 -> is_byte b2 ->
  Z.lor (Z.lor (Z.shiftl b0 16) (Z.shiftl b1 8)) b2 = b0 * 65536 + b1 * 256 + b2.
Proof.
  unfold is_byte. intros. rewrite !Z.shiftl_mul_pow2 by lia.
  rewrite (lor_add (b0 * _) _ 16) by lia. rewrite (lor_add _ b2 8) by lia. lia.
Qed.

Lemma join24_u8 v : 0 <= v < 2 ^ 24 ->
  Z.lor (Z.lor (Z.shiftl (u8 (Z.shiftr v 16)) 16) (Z.shiftl (u8 (Z.shiftr v 8)) 8)) (u8 (Z.shiftr v 0)) = v.
Proof.
  intros Hv. rewrite join24_bytes by apply is_byte_u8.
  unfold u8. rewrite Z.shiftr_0_r, !Z.shiftr_div_pow2 by lia. lia.
Qed.

#[refine] Instance toffset_codec : ExtCodec Z := {
  ec_size _ := 3; ec_ok v := 0 <= v < 2 ^ 24;
  ec_write := rtp_ext_toffset_write; ec_parse := rtp_ext_toffset_parse
}.
Proof.
  intros buf v Hv Hl. destruct (buf3 buf Hl) as (a & b & c & ->).
  eexists. split; [done|]. split; [done|]. split; [repeat constructor; apply is_byte_u8|].
  intros R old.
  transitivity (Ret (0, Z.lor (Z.lor (Z.shiftl (u8 (Z.shiftr v 16)) 16) (Z.shiftl (u8 (Z.shiftr v 8)) 8)) (u8 (Z.shiftr v 0))));
    [done|by rewrite join24_u8].
Defined.

(** Any buffer of [n] bytes, spelled out. *)
Lemma buf_S (buf : list Z) n : zlen buf = n -> 0 < n -> exists a buf', buf = a :: buf' /\ zlen buf' = n - 1.
Proof. destruct buf as [|a buf]; intros; [zlia|]. exists a, buf. split; [done|zlia]. Qed.
Lemma buf_0 (buf : list Z) : zlen buf = 0 -> buf = [].
Proof. destruct buf; [done|zlia]. Qed.

Local Ltac spell buf H :=
  repeat (let E := fresh in
          destruct (buf_S buf _ H) as (? & ? & -> & E); [lia|]; clear H; rename E into H;
          cbn [Z.sub Z.add Z.opp Z.pos_sub Pos.pred_double] in H;
          match type of H with zlen ?b = _ => rename b into buf end);
  apply buf_0 in H; subst buf.

Lemma bit7 b : is_byte b -> Z.land (Z.shiftr b 7) 1 = b / 128.
Proof.
  intros Hb. apply Z.eqb_eq. revert b Hb.
  by apply (byte_cases (fun b => Z.land (Z.shiftr b 7) 1 =? b / 128)).
Qed.

#[refine] Instance transport_wide_cc_codec : ExtCodec transport_wide_cc_t := {
  ec_size _ := 4;
  ec_ok v := is_u16 (cc_seq v) /\ (cc_t v = 0 \/ cc_t v = 1) /\ 0 <= cc_count v < 2 ^ 15;
  ec_write := rtp_ext_transport_wide_cc_write; ec_parse := rtp_ext_transport_wide_cc_parse
}.
Proof.
  intros buf [sq t c] (Hs & Ht & Hc) Hl. cbn [cc_seq cc_t cc_count] in *. spell buf Hl.
  set (w := Z.lor (u16 (Z.shiftl t 15)) (Z.land c 32767)).
  exists (be16 sq ++ be16 w). split; [done|]. split; [done|].
  split; [apply bytes_app; auto with zlist|]. intros R old.
  assert (Ew : w = t * 2 ^ 15 + c).
  { unfold w, u16. change 32767 with (2 ^ 15 - 1). rewrite land_ones_mod, Z.shiftl_mul_pow2 by lia.
    rewrite (lor_add _ _ 15) by lia. lia. }
  assert (Hw : is_u16 w) by (unfold is_u16; lia).
  transitivity (do s <- rtp_read_uint16 (be16 sq ++ be16 w ++ R) ;;
                do c <- rtp_read_uint16 (be16 w ++ R) ;;
                Ret (0, mk_twcc s (Z.land (Z.shiftr (u8 (Z.shiftr w 8)) 7) 1) (Z.land c 32767))); [done|].
  rewrite !nbo_r16_be16, !u16_small by done. cbn [obind].
  rewrite bit7 by apply is_byte_u8. change 32767 with (2 ^ 15 - 1). rewrite land_ones_mod by lia.
  unfold u8. rewrite Z.shiftr_div_pow2 by lia. repeat f_equal; lia.
Defined.

#[refine] Instance video_timing_codec : ExtCodec video_timing_t := {
  ec_size _ := 13;
  ec_ok v := is_byte (vt_flags v) /\ is_u16 (encode_start v) /\ is_u16 (encode_finish v)
    /\ is_u16 (packetization_complete v) /\ is_u16 (last_packet_left_the_pacer v)
    /\ is_u16 (network_timestamp v) /\ is_u16 (network_timestamp2 v);
  ec_write := rtp_ext_video_timing_write; ec_parse := rtp_ext_video_timing_parse
}.
Proof.
  intros buf [f es ef pc lp n1 n2] (Hf & H1 & H2 & H3 & H4 & H5 & H6) Hl.
  cbn [vt_flags encode_start encode_finish packetization_complete last_packet_left_the_pacer
       network_timestamp network_timestamp2] in *. spell buf Hl.
  exists (u8 f :: be16 es ++ be16 ef ++ be16 pc ++ be16 lp ++ be16 n1 ++ be16 n2).
  split; [done|]. split; [done|].
  split; [apply (bytes_app [u8 f]); [apply bytes_1, is_byte_u8|repeat (apply bytes_app; [auto with zlist|]); auto with zlist]|].
  intros R old.
  transitivity (
    do es <- rtp_read_uint16 (be16 es ++ be16 ef ++ be16 pc ++ be16 lp ++ be16 n1 ++ be16 n2 ++ R) ;;
    do ef <- rtp_read_uint16 (be16 ef ++ be16 pc ++ be16 lp ++ be16 n1 ++ be16 n2 ++ R) ;;
    do pc <- rtp_read_uint16 (be16 pc ++ be16 lp ++ be16 n1 ++ be16 n2 ++ R) ;;
    do lp <- rtp_read_uint16 (be16 lp ++ be16 n1 ++ be16 n2 ++ R) ;;
    do n1 <- rtp_read_uint16 (be16 n1 ++ be16 n2 ++ R) ;;
    do n2 <- rtp_read_uint16 (be16 n2 ++ R) ;;
    Ret (0, mk_timing (u8 f) es ef pc lp n1 n2)); [done|].
  rewrite !nbo_r16_be16, !u16_small, u8_small by done. done.
Defined.

(** Four bytes, or 28 with the metadata. *)
Definition has_metadata (v : color_space_t) : bool :=
  negb (bool_decide (v = mk_color_space (primaries v) (transfer v) (matrix v) (range_chroma_siting v)
                           0 0 0 0 0 0 0 0)).

#[refine] Instance color_space_codec : ExtCodec color_space_t := {
  ec_size v := if has_metadata v then 28 else 4;
  ec_ok v := is_byte (primaries v) /\ is_byte (transfer v) /\ is_byte (matrix v)
    /\ is_byte (range_chroma_siting v) /\ is_u16 (luminance_max v) /\ is_u16 (luminance_min v)
    /\ is_u32 (mastering_metadata_primary_red v) /\ is_u32 (mastering_metadata_primary_green v)
    /\ is_u32 (mastering_metadata_primary_blue v) /\ is_u32 (mastering_metadata_primary_white v)
    /\ is_u16 (max_content_light_level v) /\ is_u16 (max_frame_average_light_level v);
  ec_write := rtp_ext_color_space_write; ec_parse := rtp_ext_color_space_parse
}.
Proof.
  intros buf [p t m r lx ln cr cg cb cw mc mf] (H1 & H2 & H3 & H4 & H5 & H6 & H7 & H8 & H9 & H10 & H11 & H12).
  unfold has_metadata. destruct (bool_decide _) eqn:E; cbn -[bool_decide] in *; intros Hl.
  - apply bool_decide_eq_true in E. injection E as -> -> -> -> -> -> -> ->.
    spell buf Hl. exists [p; t; m; r]. split; [done|]. split; [done|]. split; [|done].
    repeat (apply Forall_cons_2; [done|]). apply Forall_nil_2.
  - clear E. spell buf Hl.
    exists ([p; t; m; r] ++ be16 lx ++ be16 ln ++ be32 cr ++ be32 cg ++ be32 cb ++ be32 cw ++ be16 mc ++ be16 mf).
    split; [done|]. split; [done|].
    split; [apply bytes_app; [repeat (apply Forall_cons_2; [done|]); apply Forall_nil_2|repeat (apply bytes_app; [auto with zlist|]); auto with zlist]|].
    intros R old. transitivity (
      do lx <- rtp_read_uint16 (be16 lx ++ R) ;;
      do ln <- rtp_read_uint16 (be16 ln ++ R) ;;
      do cr <- rtp_read_uint32 (be32 cr ++ be32 cg ++ be32 cb ++ be32 cw ++ be16 mc ++ be16 mf ++ R) ;;
      do cg <- rtp_read_uint32 (be32 cg ++ be32 cb ++ be32 cw ++ be16 mc ++ be16 mf ++ R) ;;
      do cb <- rtp_read_uint32 (be32 cb ++ be32 cw ++ be16 mc ++ be16 mf ++ R) ;;
      do cw <- rtp_read_uint32 (be32 cw ++ be16 mc ++ be16 mf ++ R) ;;
      do mc <- rtp_read_uint16 (be16 mc ++ be16 mf ++ R) ;;
      do mf <- rtp_read_uint16 (be16 mf ++ R) ;;
      Ret (0, mk_color_space p t m r lx ln cr cg cb cw mc mf)); [done|].
    rewrite !nbo_r16_be16, !nbo_r32_be32, !u16_small, !u32_small by done. done.
Defined.

Definition marking_byte (s e i d b tid : Z) : Z :=
  let bit (f m : Z) := if f =? 0 then 0 else m in
  Z.lor (Z.lor (Z.lor (Z.lor (Z.lor (bit s 128) (bit e 64)) (bit i 32)) (bit d 16)) (bit b 8)) tid.

Definition is_bit (b : Z) : Prop := b = 0 \/ b = 1.

Lemma marking_byte_fields s e i d b tid :
  is_bit s -> is_bit e -> is_bit i -> is_bit d -> is_bit b -> 0 <= tid < 8 ->
  let m := marking_byte s e i d b tid in
  is_byte m
  /\ (Z.land (Z.shiftr m 7) 1, Z.land (Z.shiftr m 6) 1, Z.land (Z.shiftr m 5) 1,
      Z.land (Z.shiftr m 4) 1, Z.land (Z.shiftr m 3) 1, Z.land m 7) = (s, e, i, d, b, tid).
Proof.
  intros Hs He Hi Hd Hb Ht.
  assert (Hc : tid = 0 \/ tid = 1 \/ tid = 2 \/ tid = 3 \/ tid = 4 \/ tid = 5 \/ tid = 6 \/ tid = 7) by lia.
  assert (Hbit : forall x (P : Z -> Prop), is_bit x -> P 0 -> P 1 -> P x) by (intros ? ? [-> | ->]; done).
  revert s Hs. intros s Hs. pattern s. apply Hbit; [done|..];
  pattern e; (apply Hbit; [done|..]); pattern i; (apply Hbit; [done|..]);
  pattern d; (apply Hbit; [done|..]); pattern b; (apply Hbit; [done|..]);
  clear -Hc; destruct Hc as [-> | [-> | [-> | [-> | [-> | [-> | [-> | ->]]]]]]]; by vm_compute.
Qed.

#[refine] Instance frame_marking_codec : ExtCodec frame_marking_t := {
  ec_size v := 1 + (if negb (fm_lid v =? 0) || negb (fm_tl0_pic_idx v =? 0) then 1 else 0)
                 + (if negb (fm_tl0_pic_idx v =? 0) then 1 else 0);
  ec_ok v := is_bit (fm_s v) /\ is_bit (fm_e v) /\ is_bit (fm_i v) /\ is_bit (fm_d v) /\ is_bit (fm_b v)
    /\ 0 <= fm_tid v < 8 /\ is_byte (fm_lid v) /\ is_byte (fm_tl0_pic_idx v);
  ec_write := rtp_ext_frame_marking_write; ec_parse data bytes _ := rtp_ext_frame_marking_parse data bytes
}.
Proof.
  intros buf [s e i d b tid lid idx] (H1 & H2 & H3 & H4 & H5 & H6 & H7 & H8).
  cbn [fm_s fm_e fm_i fm_d fm_b fm_tid fm_lid fm_tl0_pic_idx] in *.
  destruct (marking_byte_fields s e i d b tid) as [Hm Hf]; [done..|].
  unfold rtp_ext_frame_marking_write, rtp_ext_frame_marking_parse.
  cbn [fm_s fm_e fm_i fm_d fm_b fm_tid fm_lid fm_tl0_pic_idx]. fold (marking_byte s e i d b tid).
  set (m := marking_byte s e i d b tid) in *.
  assert (Hrd : forall x, (do d0 <- rd (m :: x) 0 ;;
     Ret (Z.land (Z.shiftr d0 7) 1, Z.land (Z.shiftr d0 6) 1, Z.land (Z.shiftr d0 5) 1,
          Z.land (Z.shiftr d0 4) 1, Z.land (Z.shiftr d0 3) 1, Z.land d0 7)) = Ret (s, e, i, d, b, tid)).
  { intros x. rewrite <- Hf. done. }
  clearbody m. rewrite !(u8_small lid), !(u8_small idx) by done.
  destruct (Z.eqb_spec idx 0) as [->|Hi]; [destruct (Z.eqb_spec lid 0) as [->|Hl0]|];
    rewrite ?orb_true_r; cbn [negb orb andb]; intros Hl; spell buf Hl;
    [exists [m]|exists [m; lid]|exists [m; lid; idx]];
    (split; [done|]); (split; [done|]);
    (split; [repeat (apply Forall_cons_2; [done|]); apply Forall_nil_2|]);
    intros R _; cbn [app]; simpl (0 <? _); cbv iota; rewrite Hrd; done.
Defined.

(** C0. A field survives the header extension: written by its codec into a buffer,
    carried as one of the elements of a two-byte block, found by [rtp_ext_read] under
    its identifier and parsed by its codec, it has the value that was written, for
    every codec that satisfies the law of [ExtCodec]. *)
Theorem rtp_ext_field_roundtrip {A} `{!ExtCodec A} extension X es buf id v bs sz old :
  Forall2 (describes extension) X es -> Forall element_ok es -> List.NoDup (map fst es) ->
  block_size es < zlen buf -> block_size es <= 65535 ->
  ec_ok v -> zlen sz = ec_size v -> ec_write sz (ec_size v) v = Ret (ec_size v, bs) -> In (id, bs) es ->
  exists n data exts x,
    rtp_ext_write RTP_HDREXT_PROFILE_TWO_BYTE extension X (zlen X) buf (zlen buf) = Ret (n, data)
    /\ rtp_ext_read RTP_HDREXT_PROFILE_TWO_BYTE data n no_exts = Ret (0, exts)
    /\ exts !! Z.to_nat id = Some x
    /\ ec_parse (adv data (ext_off x)) (ext_len x) old = Ret (0, v).
Proof.
  intros HX Hes Hnd Hb Hm Hv Hsz Hw Hin.
  destruct (two_byte_roundtrip extension X es buf HX Hes Hnd Hb Hm)
    as (n & data & exts & Hwr & _ & _ & Hrd & Hall & _).
  destruct (Hall _ Hin) as (x & Hx & Eid & Elen & Edata). cbn [fst snd] in *.
  destruct (ec_law sz v Hv Hsz) as (bs' & Hw' & Hlen & _ & Hp).
  rewrite Hw in Hw'. injection Hw' as <-.
  exists n, data, exts, x. do 3 (split; [done|]).
  rewrite Elen, Hlen. apply rdn_prefix in Edata as [R ->]. apply Hp.
Qed.
End Codecs.

(** ** The one-byte writer *)

(** C0. [rtp_ext_write] in the one-byte format does not count the header byte of an
    element: it advances by the length of the content only. An element alone in its
    block whose length is not a multiple of four loses its last byte, the padding is
    written over it, and the call still reports success. *)
Theorem rtp_ext_one_byte_loses_last `{Build} extension x id c z buf :
  describes extension x (id, c ++ [z]) -> 1 <= id < 15 -> zlen c < 16 -> (zlen c + 1) mod 4 <> 0 ->
  24 <= zlen buf ->
  exists data, rtp_ext_write RTP_HDREXT_PROFILE_ONE_BYTE extension [x] 1 buf (zlen buf)
      = Ret (zlen c + 1 + pads (zlen c + 1), data)
    /\ rdn data 1 (zlen c + 1) = Ret (c ++ [0]).
Proof.
  intros (Eid & Elen & Erd) Hid Hc Hm Hb. cbn [fst snd] in *. rewrite zlen_app in Elen, Erd.
  change (zlen [z]) with 1 in *. pose proof (zlen_nonneg c).
  unfold rtp_ext_write. simpl. unfold rtp_ext_write_one_byte. change (Z.to_nat 1) with 1%nat.
  cbn [write_one_byte_loop]. do 2 zif. cbn [andb].
  change (rd [x] 0) with (Ret x). cbn [obind]. rewrite Eid, Elen.
  unfold RTP_HDREXT_PADDING, RTP_HDREXT_ONE_BYTE_RESERVED. repeat zif. cbn [orb].
  set (h := u8 _). rewrite wrn_0 by zlia. cbn [obind]. rewrite Erd. cbn [obind app].
  change (h :: adv buf (zlen [h])) with ([h] ++ adv buf 1). rewrite wrn_app by (done || zlia). cbn [obind].
  unfold write_end. repeat zif. cbn [orb andb negb].
  set (D := adv (adv buf 1) (zlen (c ++ [z]))).
  replace (([h] ++ c ++ [z]) ++ D) with (([h] ++ c) ++ [z] ++ D) by (by rewrite <- !app_assoc).
  replace (0 + (zlen c + 1)) with (zlen ([h] ++ c)) by zlia.
  replace (zlen c + 1) with (zlen ([h] ++ c)) in * by zlia.
  assert (HD : 7 <= zlen D) by (unfold D; zlia).
  rewrite pad4_spec; [|unfold pads; lia|unfold pads; zlia].
  eexists. split; [done|].
  replace (Z.to_nat (pads (zlen ([h] ++ c)))) with (S (Z.to_nat (pads (zlen ([h] ++ c)) - 1)))
    by (unfold pads; lia).
  change (replicate (S ?n) 0) with ([0] ++ replicate n 0).
  set (P := replicate _ _). generalize (adv ([z] ++ D) (pads (zlen ([h] ++ c)))) as T. intros T.
  replace (([h] ++ c) ++ ([0] ++ P) ++ T) with ([h] ++ (c ++ [0]) ++ (P ++ T)) by (by rewrite <- !app_assoc).
  apply rdn_app; [done|zlia].
Qed.

(** ** Examples *)
Lemma rtp_ext_read_safe_witness :
  exists r exts, rtp_ext_read RTP_HDREXT_PROFILE_ONE_BYTE [33; 7; 9] 3 no_exts = Ret (r, exts)
    /\ exts_in 1 3 exts.
Proof.
  apply (rtp_ext_read_safe RTP_HDREXT_PROFILE_ONE_BYTE [33; 7; 9] 3);
    [repeat constructor; discriminate|done|lia].
Defined.

Definition sample_elements : list element := [(3, [160; 7]); (12, [0; 9; 128; 1]); (200, [])].

Lemma rtp_ext_two_byte_roundtrip_witness :
  exists n data exts,
    @rtp_ext_write default_build RTP_HDREXT_PROFILE_TWO_BYTE [160; 7; 0; 9; 128; 1]
      [mk_ext 3 2 0; mk_ext 12 4 2; mk_ext 200 0 0] 3 (replicate 32 170) 32 = Ret (n, data)
    /\ rtp_ext_read RTP_HDREXT_PROFILE_TWO_BYTE data n no_exts = Ret (0, exts).
Proof.
  destruct (@rtp_ext_two_byte_roundtrip default_build [160; 7; 0; 9; 128; 1]
    [mk_ext 3 2 0; mk_ext 12 4 2; mk_ext 200 0 0] sample_elements (replicate 32 170))
    as (n & data & exts & Hw & _ & _ & Hr & _).
  - repeat constructor.
  - repeat (apply Forall_cons_2; [repeat constructor; discriminate|]). apply Forall_nil_2.
  - repeat (apply List.NoDup_cons; [simpl; intros Hin; repeat destruct Hin as [Hin|Hin]; (discriminate || destruct Hin)|]).
    apply List.NoDup_nil.
  - reflexivity.
  - vm_compute. discriminate.
  - exists n, data, exts. split; [exact Hw|exact Hr].
Defined.

Lemma rtp_ext_field_roundtrip_witness :
  exists n data exts x,
    @rtp_ext_write default_build RTP_HDREXT_PROFILE_TWO_BYTE [160; 7; 0; 9; 128; 1]
      [mk_ext 3 2 0; mk_ext 12 4 2; mk_ext 200 0 0] 3 (replicate 32 170) 32 = Ret (n, data)
    /\ rtp_ext_read RTP_HDREXT_PROFILE_TWO_BYTE data n no_exts = Ret (0, exts)
    /\ exts !! 12%nat = Some x
    /\ @rtp_ext_transport_wide_cc_parse default_build (adv data (ext_off x)) (ext_len x) (mk_twcc 0 0 0)
       = Ret (0, mk_twcc 9 1 1).
Proof.
  apply (@rtp_ext_field_roundtrip default_build transport_wide_cc_t (@transport_wide_cc_codec default_build) [160; 7; 0; 9; 128; 1]
    [mk_ext 3 2 0; mk_ext 12 4 2; mk_ext 200 0 0] sample_elements (replicate 32 170)
    12 (mk_twcc 9 1 1) [0; 9; 128; 1] (replicate 4 0) (mk_twcc 0 0 0)).
  - repeat constructor.
  - repeat (apply Forall_cons_2; [repeat constructor; discriminate|]). apply Forall_nil_2.
  - repeat (apply List.NoDup_cons; [simpl; intros Hin; repeat destruct Hin as [Hin|Hin]; (discriminate || destruct Hin)|]).
    apply List.NoDup_nil.
  - reflexivity.
  - vm_compute. discriminate.
  - vm_compute. repeat split; try discriminate. right. reflexivity.
  - reflexivity.
  - reflexivity.
  - right. left. reflexivity.
Defined.

Lemma rtp_ext_one_byte_loses_last_witness :
  exists data, @rtp_ext_write default_build RTP_HDREXT_PROFILE_ONE_BYTE [1; 2; 3] [mk_ext 7 3 0] 1
      (replicate 24 170) 24 = Ret (4, data)
    /\ rdn data 1 3 = Ret [1; 2; 0].
Proof.
  apply (@rtp_ext_one_byte_loses_last default_build [1; 2; 3] (mk_ext 7 3 0) 7 [1; 2] 3 (replicate 24 170));
    [repeat constructor|lia|reflexivity|discriminate|discriminate].
Defined.
