(* ===== verification/Free.v ===== *)
(** * Programs over calls to the outside

    A component that talks to the system is a program over a family of calls: it is
    done, dies, or makes a call and goes on with the answer.  What a call may answer, and
    what happens meanwhile, is said where the program is run. *)

From S2P Require Import Prelude.

Inductive prog (call : Type -> Type) (A : Type) : Type :=
| Done (a : A)
| Die (c : crash)
| Call {X : Type} (c : call X) (k : X -> prog call A).
Arguments Done {call A} a.
Arguments Die {call A} c.
Arguments Call {call A X} & c k.

Section Prog.
Context {call : Type -> Type}.

Fixpoint io_bind {A B} (m : prog call A) (k : A -> prog call B) : prog call B :=
  match m with
  | Done a => k a
  | Die c => Die c
  | Call c f => Call c (fun x => io_bind (f x) k)
  end.

Definition trigger {X} (c : call X) : prog call X := Call c Done.
Definition lift {A} (m : outcome A) : prog call A :=
  match m with Ret a => Done a | Crash c => Die c end.
End Prog.

Declare Scope io_scope.
Delimit Scope io_scope with io.
Notation "'let!' x <- m ;; k" := (io_bind m (fun x => k))
  (at level 100, x name, m at next level, right associativity) : io_scope.
Notation "'let!*' p <- m ;; k" := (io_bind m (fun p => k))
  (at level 100, p pattern, m at next level, right associativity) : io_scope.
Notation "'run!' c ;; k" := (Call c (fun _ => k))
  (at level 100, c at next level, right associativity) : io_scope.
Notation "'get!' x <- c ;; k" := (Call c (fun x => k))
  (at level 100, x name, c at next level, right associativity) : io_scope.
Notation "'get!*' p <- c ;; k" := (Call c (fun p => k))
  (at level 100, p pattern, c at next level, right associativity) : io_scope.
Open Scope io_scope.

(** ** What a program does, whatever it is answered: every call it makes satisfies [P]
    and its result [Q]. *)
Fixpoint does {call A} (P : forall X, call X -> Prop) (p : prog call A) (Q : A -> Prop) : Prop :=
  match p with
  | Done a => Q a
  | Die _ => True
  | Call c k => P _ c /\ forall x, does P (k x) Q
  end.

Section Does.
Context {call : Type -> Type} (P : forall X, call X -> Prop).

Lemma does_mono {A} (p : prog call A) (Q Q' : A -> Prop) :
  does P p Q -> (forall a, Q a -> Q' a) -> does P p Q'.
Proof. intros Hp HQ. induction p as [a|c|X c k IH]; cbn in *; [auto|done|]. destruct Hp. auto. Qed.

Lemma does_bind {A B} (m : prog call A) (k : A -> prog call B) Q :
  does P m (fun a => does P (k a) Q) -> does P (io_bind m k) Q.
Proof. induction m as [a|c|X c f IH]; cbn; [done..|]. intros (? & Hf). auto. Qed.

Lemma does_lift {A} (m : outcome A) (Q : A -> Prop) :
  (forall a, m = Ret a -> Q a) -> does P (lift m) Q.
Proof. destruct m; cbn; auto. Qed.
End Does.
