(* ===== verification/Drm.v ===== *)
(** The display setup (src/src/drm.c) and its use by src/src/main.cpp: finding a
    connector, a CRTC, planes and a mode, dumb buffers for the OSD, the writeback
    connector, atomic commits.  The code is a program over the calls of libdrm and of
    the system; what they answer is not decided here (DrmSpec). *)

From Stdlib Require Import String.
From S2P Require Import Prelude Free CDouble.

(** ** The data of libdrm the code reads.  A count and its array are a list. *)
Record ptr (A : Type) := mk_ptr { addr : Z; deref : A }.
Arguments mk_ptr {A} addr deref.
Arguments addr {A} p.
Arguments deref {A} p.

Record drmModeModeInfo := mk_mode { hdisplay : Z; vdisplay : Z; vrefresh : Z; mode_flags : Z; mode_type : Z }.
Record drmModeRes := mk_resources { crtcs : list Z; connectors : list Z }.
Record drmModeConnector := mk_connector {
  connector_id : Z; encoder_id : Z; connector_type : Z; connection : Z;
  modes : list drmModeModeInfo; encoders : list Z
}.
Record drmModeEncoder := mk_encoder { enc_crtc_id : Z; enc_possible_crtcs : Z }.
Record drmModePlane := mk_plane { possible_crtcs : Z; formats : list Z }.
Record drmModePropertyRes := mk_property { prop_id : Z; prop_name : string }.
(** [props] and [prop_values] side by side. *)
Definition drmModeObjectProperties : Type := list (Z * Z).
Record drm_dumb := mk_dumb { pitch : Z; dumb_size : Z; dumb_handle : Z }.

(** ** The calls.  A failing call answers [None], or [inl] of what [errno] then is;
    [Z] alone is the return value.  The address of a freed object is its argument. *)
Inductive call : Type -> Type :=
| c_open (node : string) : call (Z + Z)
| c_close (fd : Z) : call unit
| c_malloc_output : call (option Z)
| c_calloc (n size : Z) : call (option Z)
| c_free (p : option Z) : call unit
| drmSetClientCap (fd capability value : Z) : call Z
| drmGetCap (fd capability : Z) : call (Z * Z)
| drmModeGetResources (fd : Z) : call (option (ptr drmModeRes))
| drmModeFreeResources (p : Z) : call unit
| drmModeGetConnector (fd id : Z) : call (option (ptr drmModeConnector))
| drmModeFreeConnector (p : Z) : call unit
| drmModeGetEncoder (fd id : Z) : call (option (ptr drmModeEncoder))
| drmModeFreeEncoder (p : Z) : call unit
| drmModeGetCrtc (fd id : Z) : call (option Z)
| drmModeFreeCrtc (p : option Z) : call unit
| drmModeGetPlaneResources (fd : Z) : call (option (ptr (list Z)))
| drmModeFreePlaneResources (p : Z) : call unit
| drmModeGetPlane (fd id : Z) : call (option (ptr drmModePlane))
| drmModeFreePlane (p : Z) : call unit
| drmModeObjectGetProperties (fd id type : Z) : call (option (ptr drmModeObjectProperties))
| drmModeFreeObjectProperties (p : Z) : call unit
| drmModeGetProperty (fd id : Z) : call (option (ptr drmModePropertyRes))
| drmModeFreeProperty (p : option Z) : call unit
| drmModeGetPropertyBlob (fd id : Z) : call (option (ptr (option (list Z))))
| drmModeFreePropertyBlob (p : Z) : call unit
| drmModeCreatePropertyBlob (fd : Z) (m : drmModeModeInfo) : call (Z + Z)
| drmModeDestroyPropertyBlob (fd id : Z) : call unit
| drmModeCreateDumb (fd width height bpp : Z) : call (Z + drm_dumb)
| drmModeDestroyDumb (fd handle : Z) : call unit
| drmModeMapDumb (fd handle : Z) : call (Z + Z)
| c_mmap (fd size offset : Z) : call (Z + Z)
| c_munmap (p size : Z) : call unit
| c_clear (p size : Z) : call unit
| drmModeAddFB2 (fd width height format : Z) (handles pitches offsets : list Z) : call (Z + Z)
| drmModeRmFB (fd fb : Z) : call unit
| drmPrimeHandleToFD (fd handle : Z) : call (Z + Z)
| drmModeAtomicAlloc : call (option Z)
| drmModeAtomicFree (req : option Z) : call unit
| drmModeAtomicAddProperty (req : option Z) (obj prop value : Z) : call Z
| drmModeAtomicCommit (fd : Z) (req : option Z) (flags : Z) : call Z
| drmModeSetCrtc (fd : Z) (saved : Z) (connector : Z) : call unit
| c_print_mode (m : drmModeModeInfo) : call unit.

(** Programs over the calls. *)
Abbreviation io := (prog call).

(** ** Numbers of the kernel's interface, and of errno.h *)
Definition DRM_CLIENT_CAP_UNIVERSAL_PLANES : Z := 2.
Definition DRM_CLIENT_CAP_ATOMIC : Z := 3.
Definition DRM_CLIENT_CAP_WRITEBACK_CONNECTORS : Z := 5.
Definition DRM_CAP_DUMB_BUFFER : Z := 1.
Definition DRM_CAP_CRTC_IN_VBLANK_EVENT : Z := 18.
Definition DRM_MODE_CONNECTOR_WRITEBACK : Z := 18.
Definition DRM_MODE_CONNECTED : Z := 1.
Definition DRM_MODE_OBJECT_CRTC : Z := 0xcccccccc.
Definition DRM_MODE_OBJECT_CONNECTOR : Z := 0xc0c0c0c0.
Definition DRM_MODE_OBJECT_PLANE : Z := 0xeeeeeeee.
Definition DRM_FORMAT_NV12 : Z := 0x3231564e.
Definition DRM_FORMAT_ARGB8888 : Z := 0x34325241.
Definition DRM_MODE_FLAG_INTERLACE : Z := 16.
Definition DRM_MODE_TYPE_PREFERRED : Z := 8.
Definition DRM_MODE_ATOMIC_TEST_ONLY : Z := 0x100.
Definition DRM_MODE_ATOMIC_ALLOW_MODESET : Z := 0x400.
Definition ENOENT : Z := 2.
Definition ENODEV : Z := 19.
Definition EOPNOTSUPP : Z := 95.

(** [mask & (1 << i)]; a shift by 32 or more is undefined. *)
Definition has_bit (mask i : Z) : outcome bool :=
  if i <? 32 then Ret (Z.testbit mask i) else Crash IntOverflow.

(** ** The state: src/drm.h.  Members only main.cpp uses are left out. *)
Definition OSD_BUF_COUNT : Z := 2.

Record drm_object := mk_object {
  props : option (ptr drmModeObjectProperties);
  info_addr : option Z;
  props_info : list (option (ptr drmModePropertyRes));
  oid : Z
}.
Record modeset_buf := mk_buf {
  width : Z; height : Z; stride : Z; bsize : Z; handle : Z; bmap : option Z; prime_fd : Z; fb : Z
}.
Record modeset_output := mk_output {
  connector : drm_object;
  crtc : drm_object;
  saved_crtc : option Z;
  mode : drmModeModeInfo;
  mode_blob_id : Z;
  crtc_index : Z;
  video_crtc_width : Z;
  video_crtc_height : Z;
  osd_request : option Z;
  osd_bufs : list modeset_buf;
  osd_plane : drm_object;
  video_request : option Z;
  video_plane : drm_object;
  wb_connector : drm_object;
  wb_available : bool;
  wb_enabled : bool
}.

Definition no_object : drm_object := mk_object None None [] 0.
Definition no_buf : modeset_buf := mk_buf 0 0 0 0 0 None 0 0.
Definition no_mode : drmModeModeInfo := mk_mode 0 0 0 0 0.
(** What [memset] leaves. *)
Definition zero_output : modeset_output :=
  mk_output no_object no_object None no_mode 0 0 0 0 None [no_buf; no_buf] no_object None no_object no_object
    false false.

Definition set_id (o : drm_object) (i : Z) : drm_object :=
  mk_object (props o) (info_addr o) (props_info o) i.
Definition no_props (o : drm_object) : drm_object := mk_object None (info_addr o) (props_info o) (oid o).
Definition set_objects (u : modeset_output) (cn cr vp op : drm_object) : modeset_output :=
  mk_output cn cr (saved_crtc u) (mode u) (mode_blob_id u) (crtc_index u) (video_crtc_width u)
    (video_crtc_height u) (osd_request u) (osd_bufs u) op (video_request u) vp (wb_connector u)
    (wb_available u) (wb_enabled u).
Definition set_crtc (u : modeset_output) (id : Z) (saved : option Z) (index : Z) : modeset_output :=
  mk_output (connector u) (set_id (crtc u) id) saved (mode u) (mode_blob_id u) index (video_crtc_width u)
    (video_crtc_height u) (osd_request u) (osd_bufs u) (osd_plane u) (video_request u) (video_plane u)
    (wb_connector u) (wb_available u) (wb_enabled u).
Definition set_mode (u : modeset_output) (m : drmModeModeInfo) (blob : Z) : modeset_output :=
  mk_output (connector u) (crtc u) (saved_crtc u) m blob (crtc_index u) (video_crtc_width u)
    (video_crtc_height u) (osd_request u) (osd_bufs u) (osd_plane u) (video_request u) (video_plane u)
    (wb_connector u) (wb_available u) (wb_enabled u).
Definition set_bufs (u : modeset_output) (bufs : list modeset_buf) (w h : Z) : modeset_output :=
  mk_output (connector u) (crtc u) (saved_crtc u) (mode u) (mode_blob_id u) (crtc_index u) w h
    (osd_request u) bufs (osd_plane u) (video_request u) (video_plane u) (wb_connector u) (wb_available u)
    (wb_enabled u).
Definition set_requests (u : modeset_output) (osd video : option Z) : modeset_output :=
  mk_output (connector u) (crtc u) (saved_crtc u) (mode u) (mode_blob_id u) (crtc_index u)
    (video_crtc_width u) (video_crtc_height u) osd (osd_bufs u) (osd_plane u) video (video_plane u)
    (wb_connector u) (wb_available u) (wb_enabled u).
Definition set_wb (u : modeset_output) (c : drm_object) (available enabled : bool) : modeset_output :=
  mk_output (connector u) (crtc u) (saved_crtc u) (mode u) (mode_blob_id u) (crtc_index u)
    (video_crtc_width u) (video_crtc_height u) (osd_request u) (osd_bufs u) (osd_plane u) (video_request u)
    (video_plane u) c available enabled.

(** ** Opening the device *)
Definition modeset_open (node : string) : io (Z * option Z) :=
  get! r <- c_open node ;;
  match r with
  | inl e => Done (- e, None)
  | inr fd =>
      get! ret <- drmSetClientCap fd DRM_CLIENT_CAP_UNIVERSAL_PLANES 1 ;;
      if negb (ret =? 0) then Done (ret, None)
      else
        get! ret <- drmSetClientCap fd DRM_CLIENT_CAP_ATOMIC 1 ;;
        if negb (ret =? 0) then Done (ret, None)
        else
          get! _wb <- drmSetClientCap fd DRM_CLIENT_CAP_WRITEBACK_CONNECTORS 1 ;;
          get!* (ret, cap) <- drmGetCap fd DRM_CAP_DUMB_BUFFER ;;
          if (ret <? 0) || (cap =? 0) then run! c_close fd ;; Done (- EOPNOTSUPP, None)
          else
            get!* (ret, cap) <- drmGetCap fd DRM_CAP_CRTC_IN_VBLANK_EVENT ;;
            if (ret <? 0) || (cap =? 0) then run! c_close fd ;; Done (- EOPNOTSUPP, None)
            else Done (0, Some fd)
  end.

(** ** Properties *)
(** A property that cannot be looked up is a null pointer, and its name is read. *)
Fixpoint value_loop (fd : Z) (ps : list (Z * Z)) (name : string) : io Z :=
  match ps with
  | [] => Done (-1)
  | (id, value) :: ps =>
      get! prop <- drmModeGetProperty fd id ;;
      match prop with
      | None => Die OutOfBounds
      | Some p =>
          let found := String.eqb (prop_name (deref p)) name in
          run! drmModeFreeProperty (Some (addr p)) ;;
          if found then Done (s64 value) else value_loop fd ps name
      end
  end.

Definition get_property_value (fd : Z) (ps : option (ptr drmModeObjectProperties)) (name : string) : io Z :=
  match ps with
  | None => Die OutOfBounds
  | Some p => value_loop fd (deref p) name
  end.

Fixpoint info_loop (fd : Z) (ids : list Z) : io (list (option (ptr drmModePropertyRes))) :=
  match ids with
  | [] => Done []
  | id :: ids =>
      get! p <- drmModeGetProperty fd id ;;
      let! l <- info_loop fd ids ;;
      Done (p :: l)
  end.

(** The array is written without testing that it was allocated. *)
Definition modeset_get_object_properties (fd : Z) (obj : drm_object) (type : Z) : io drm_object :=
  get! ps <- drmModeObjectGetProperties fd (oid obj) type ;;
  match ps with
  | None => Done (no_props obj)
  | Some p =>
      get! a <- c_calloc (zlen (deref p)) 8 ;;
      match a, deref p with
      | None, _ :: _ => Die OutOfBounds
      | _, ids =>
          let! infos <- info_loop fd (map fst ids) ;;
          Done (mk_object (Some p) a infos (oid obj))
      end
  end.

(** The identifier of the property of that name, 0 when there is none. *)
Fixpoint find_prop_id (n : nat) (infos : list (option (ptr drmModePropertyRes))) (name : string) : outcome Z :=
  match n, infos with
  | O, _ => Ret 0
  | S n, Some p :: infos =>
      if String.eqb (prop_name (deref p)) name then Ret (prop_id (deref p)) else find_prop_id n infos name
  | S _, _ => Crash OutOfBounds
  end.

Definition set_drm_object_property (req : option Z) (obj : drm_object) (name : string) (value : Z) : io Z :=
  match props obj with
  | None => Die OutOfBounds
  | Some p =>
      let! id <- lift (find_prop_id (length (deref p)) (props_info obj) name) ;;
      if id =? 0 then Done (- EINVAL)
      else trigger (drmModeAtomicAddProperty req (oid obj) id (u64 value))
  end.

Fixpoint free_infos (n : nat) (infos : list (option (ptr drmModePropertyRes))) : io unit :=
  match n, infos with
  | O, _ => Done tt
  | S n, p :: infos => run! drmModeFreeProperty (option_map addr p) ;; free_infos n infos
  | S _, [] => Die OutOfBounds
  end.

Definition modeset_drm_object_fini (obj : drm_object) : io unit :=
  match props obj with
  | None => Die OutOfBounds
  | Some p =>
      let! _u <- free_infos (length (deref p)) (props_info obj) ;;
      run! c_free (info_addr obj) ;;
      run! drmModeFreeObjectProperties (addr p) ;;
      Done tt
  end.

(** ** Choosing a CRTC and planes *)
(** The index of a CRTC in the list, or the index as it was. *)
Fixpoint crtc_position (cs : list Z) (c i old : Z) : Z :=
  match cs with
  | [] => old
  | x :: cs => if x =? c then i else crtc_position cs c (i + 1) old
  end.

(** The first CRTC from number [j] on that the mask allows. *)
Fixpoint allowed_crtc (cs : list Z) (mask j : Z) : outcome (option (Z * Z)) :=
  match cs with
  | [] => Ret None
  | c :: cs =>
      do ok <- has_bit mask j ;;
      if ok && (0 <? c) then Ret (Some (c, j)) else allowed_crtc cs mask (j + 1)
  end.

Fixpoint encoder_loop (fd : Z) (cs encs : list Z) (out : modeset_output) : io (Z * modeset_output) :=
  match encs with
  | [] => Done (- ENOENT, out)
  | e :: encs =>
      get! enc <- drmModeGetEncoder fd e ;;
      match enc with
      | None => encoder_loop fd cs encs out
      | Some p =>
          let! r <- lift (allowed_crtc cs (enc_possible_crtcs (deref p)) 0) ;;
          match r with
          | Some (c, j) =>
              get! saved <- drmModeGetCrtc fd c ;;
              run! drmModeFreeEncoder (addr p) ;;
              Done (0, set_crtc out c saved j)
          | None => run! drmModeFreeEncoder (addr p) ;; encoder_loop fd cs encs out
          end
      end
  end.

Definition modeset_find_crtc (fd : Z) (res : drmModeRes) (conn : drmModeConnector) (out : modeset_output)
  : io (Z * modeset_output) :=
  let! enc <-
    (if negb (encoder_id conn =? 0) then trigger (drmModeGetEncoder fd (encoder_id conn)) else Done None) ;;
  match enc with
  | None => encoder_loop fd (crtcs res) (encoders conn) out
  | Some p =>
      let c := enc_crtc_id (deref p) in
      run! drmModeFreeEncoder (addr p) ;;
      if 0 <? c then
        get! saved <- drmModeGetCrtc fd c ;;
        Done (0, set_crtc out c saved (crtc_position (crtcs res) c 0 (crtc_index out)))
      else encoder_loop fd (crtcs res) (encoders conn) out
  end.

Fixpoint plane_loop (fd : Z) (ids : list Z) (index format : Z) : io (option Z) :=
  match ids with
  | [] => Done None
  | id :: ids =>
      get! plane <- drmModeGetPlane fd id ;;
      match plane with
      | None => plane_loop fd ids index format
      | Some p =>
          let! ok <- lift (has_bit (possible_crtcs (deref p)) index) ;;
          let found := ok && existsb (Z.eqb format) (formats (deref p)) in
          run! drmModeFreePlane (addr p) ;;
          if found then Done (Some id) else plane_loop fd ids index format
      end
  end.

Definition modeset_find_plane (fd : Z) (index : Z) (plane_out : drm_object) (plane_format : Z)
  : io (Z * drm_object) :=
  get! planes <- drmModeGetPlaneResources fd ;;
  match planes with
  | None => Done (- ENOENT, plane_out)
  | Some p =>
      let! found <- plane_loop fd (deref p) index plane_format ;;
      run! drmModeFreePlaneResources (addr p) ;;
      Done match found with
           | Some id => (0, set_id plane_out id)
           | None => (- EINVAL, plane_out)
           end
  end.

(** ** Objects and buffers *)
(** The jumps to [out_plane], [out_crtc] and [out_conn]. *)
Definition modeset_setup_objects (fd : Z) (out : modeset_output) : io (Z * modeset_output) :=
  let! cn <- modeset_get_object_properties fd (connector out) DRM_MODE_OBJECT_CONNECTOR ;;
  let out := set_objects out cn (crtc out) (video_plane out) (osd_plane out) in
  match props cn with
  | None => Done (- ENOMEM, out)
  | Some _ =>
      let! cr <- modeset_get_object_properties fd (crtc out) DRM_MODE_OBJECT_CRTC ;;
      let out := set_objects out cn cr (video_plane out) (osd_plane out) in
      match props cr with
      | None => let! _u <- modeset_drm_object_fini cn ;; Done (- ENOMEM, out)
      | Some _ =>
          let! vp <- modeset_get_object_properties fd (video_plane out) DRM_MODE_OBJECT_PLANE ;;
          let out := set_objects out cn cr vp (osd_plane out) in
          let out_plane out :=
            let! _u <- modeset_drm_object_fini cr ;;
            let! _u <- modeset_drm_object_fini cn ;;
            Done (- ENOMEM, out) in
          match props vp with
          | None => out_plane out
          | Some _ =>
              let! op <- modeset_get_object_properties fd (osd_plane out) DRM_MODE_OBJECT_PLANE ;;
              let out := set_objects out cn cr vp op in
              match props op with
              | None => out_plane out
              | Some _ => Done (0, out)
              end
          end
      end
  end.

Definition modeset_destroy_objects (fd : Z) (out : modeset_output) : io unit :=
  let! _u <- modeset_drm_object_fini (connector out) ;;
  let! _u <- modeset_drm_object_fini (crtc out) ;;
  let! _u <- modeset_drm_object_fini (video_plane out) ;;
  let! _u <- modeset_drm_object_fini (osd_plane out) ;;
  match props (wb_connector out) with
  | None => Done tt
  | Some _ => modeset_drm_object_fini (wb_connector out)
  end.

Definition new_buf (b : modeset_buf) (d : drm_dumb) (map : option Z) : modeset_buf :=
  mk_buf (width b) (height b) (pitch d) (u32 (dumb_size d)) (dumb_handle d) map (-1) (fb b).
Definition set_fb (b : modeset_buf) (f : Z) : modeset_buf :=
  mk_buf (width b) (height b) (stride b) (bsize b) (handle b) (bmap b) (prime_fd b) f.
Definition set_map (b : modeset_buf) (m : option Z) : modeset_buf :=
  mk_buf (width b) (height b) (stride b) (bsize b) (handle b) m (prime_fd b) (fb b).
Definition set_prime (b : modeset_buf) (p : Z) : modeset_buf :=
  mk_buf (width b) (height b) (stride b) (bsize b) (handle b) (bmap b) p (fb b).

(** What [MAP_FAILED] is. *)
Definition MAP_FAILED : Z := 2 ^ 64 - 1.

Definition modeset_create_fb (fd : Z) (b : modeset_buf) : io (Z * modeset_buf) :=
  let b := set_prime b (-1) in
  get! r <- drmModeCreateDumb fd (width b) (height b) 32 ;;
  match r with
  | inl e => Done (- e, b)
  | inr d =>
      let b := new_buf b d (bmap b) in
      let err_destroy r b := run! drmModeDestroyDumb fd (handle b) ;; Done (r, b) in
      let err_fb r b := run! drmModeRmFB fd (fb b) ;; err_destroy r b in
      get! r <- drmModeAddFB2 fd (width b) (height b) DRM_FORMAT_ARGB8888 [handle b; 0; 0; 0] [stride b; 0; 0; 0]
                  [0; 0; 0; 0] ;;
      match r with
      | inl e => err_destroy (- e) b
      | inr f =>
          let b := set_fb b f in
          get! r <- drmModeMapDumb fd (handle b) ;;
          match r with
          | inl e => err_fb (- e) b
          | inr offset =>
              get! r <- c_mmap fd (bsize b) offset ;;
              match r with
              | inl e => err_fb (- e) (set_map b (Some MAP_FAILED))
              | inr m =>
                  let b := set_map b (Some m) in
                  get! r <- drmPrimeHandleToFD fd (handle b) ;;
                  match r with
                  | inl e => run! c_munmap m (bsize b) ;; err_fb (- e) (set_map b None)
                  | inr p => run! c_clear m (bsize b) ;; Done (0, set_prime b p)
                  end
              end
          end
      end
  end.

Definition close_prime (b : modeset_buf) : io modeset_buf :=
  if 0 <=? prime_fd b then run! c_close (prime_fd b) ;; Done (set_prime b (-1)) else Done b.

(** A buffer whose map is null is unmapped at address 0, which fails. *)
Definition modeset_destroy_fb (fd : Z) (b : modeset_buf) : io modeset_buf :=
  let! b <- close_prime b ;;
  run! c_munmap (default 0 (bmap b)) (bsize b) ;;
  run! drmModeRmFB fd (fb b) ;;
  run! drmModeDestroyDumb fd (handle b) ;;
  Done b.

(** [(height + 15) & ~15u] *)
Definition padded_height (h : Z) : Z := Z.ldiff (u32 (h + 15)) 15.

Definition modeset_create_wb_fb (fd : Z) (b : modeset_buf) : io (Z * modeset_buf) :=
  let b := set_map (set_prime b (-1)) None in
  let ver := padded_height (height b) in
  get! r <- drmModeCreateDumb fd (width b) (u32 (ver * 3) / 2) 8 ;;
  match r with
  | inl e => Done (- e, b)
  | inr d =>
      let b := new_buf b d (bmap b) in
      let err_destroy r b := run! drmModeDestroyDumb fd (handle b) ;; Done (r, b) in
      get! r <- drmModeAddFB2 fd (width b) (height b) DRM_FORMAT_NV12 [handle b; handle b; 0; 0]
                  [stride b; stride b; 0; 0] [0; u32 (stride b * ver); 0; 0] ;;
      match r with
      | inl e => err_destroy (- e) b
      | inr f =>
          let b := set_fb b f in
          get! r <- drmPrimeHandleToFD fd (handle b) ;;
          match r with
          | inl e => run! drmModeRmFB fd (fb b) ;; err_destroy (- e) b
          | inr p => Done (0, set_prime b p)
          end
      end
  end.

Definition modeset_destroy_wb_fb (fd : Z) (b : modeset_buf) : io modeset_buf :=
  let! b <- close_prime b ;;
  let! _u <- (if negb (fb b =? 0) then trigger (drmModeRmFB fd (fb b)) else Done tt) ;;
  let! _u <- (if negb (handle b =? 0) then trigger (drmModeDestroyDumb fd (handle b)) else Done tt) ;;
  Done b.

(** ** The writeback connector *)
Fixpoint encoder_drives (fd : Z) (encs : list Z) (index : Z) : io bool :=
  match encs with
  | [] => Done false
  | e :: encs =>
      get! enc <- drmModeGetEncoder fd e ;;
      match enc with
      | None => encoder_drives fd encs index
      | Some p =>
          let! ok <- lift (has_bit (enc_possible_crtcs (deref p)) index) ;;
          run! drmModeFreeEncoder (addr p) ;;
          if ok : bool then Done true else encoder_drives fd encs index
      end
  end.

(** Whether the connector advertises NV12; the length of a blob is in bytes, its
    words here. *)
Definition advertises_nv12 (fd fmts_blob : Z) : io bool :=
  if 0 <? fmts_blob then
    get! blob <- drmModeGetPropertyBlob fd (u32 fmts_blob) ;;
    match blob with
    | None => Done false
    | Some p =>
        let has_nv12 :=
          match deref p with
          | Some words => existsb (Z.eqb DRM_FORMAT_NV12) words
          | None => false
          end in
        run! drmModeFreePropertyBlob (addr p) ;;
        Done has_nv12
    end
  else Done false.

(** The body of the loop for a connector that is there: whether it is usable, and the
    object in either case. *)
Definition try_writeback (fd : Z) (conn : drmModeConnector) (index : Z) (obj : drm_object)
  : io (bool * drm_object) :=
  if negb (connector_type conn =? DRM_MODE_CONNECTOR_WRITEBACK) then Done (false, obj)
  else
    let! crtc_ok <- encoder_drives fd (encoders conn) index ;;
    if negb crtc_ok then Done (false, obj)
    else
      let! obj <- modeset_get_object_properties fd (set_id obj (connector_id conn)) DRM_MODE_OBJECT_CONNECTOR ;;
      match props obj with
      | None => Done (false, obj)
      | Some _ =>
          let! fb_prop <- get_property_value fd (props obj) "WRITEBACK_FB_ID" ;;
          let! fence_prop <- get_property_value fd (props obj) "WRITEBACK_OUT_FENCE_PTR" ;;
          let! fmts_blob <- get_property_value fd (props obj) "WRITEBACK_PIXEL_FORMATS" ;;
          if (fb_prop <? 0) || (fence_prop <? 0) then
            let! _u <- modeset_drm_object_fini obj ;; Done (false, no_props obj)
          else
            let! has_nv12 <- advertises_nv12 fd fmts_blob ;;
            if negb has_nv12 then let! _u <- modeset_drm_object_fini obj ;; Done (false, no_props obj)
            else Done (true, obj)
      end.

Fixpoint writeback_loop (fd : Z) (ids : list Z) (index : Z) (obj : drm_object) : io (bool * drm_object) :=
  match ids with
  | [] => Done (false, obj)
  | id :: ids =>
      get! conn <- drmModeGetConnector fd id ;;
      match conn with
      | None => writeback_loop fd ids index obj
      | Some p =>
          let! r <- try_writeback fd (deref p) index obj ;;
          run! drmModeFreeConnector (addr p) ;;
          if fst r : bool then Done r else writeback_loop fd ids index (snd r)
      end
  end.

Definition modeset_find_writeback (fd : Z) (out : modeset_output) : io (Z * modeset_output) :=
  let obj := no_props (wb_connector out) in
  get! res <- drmModeGetResources fd ;;
  match res with
  | None => Done (- ENOENT, set_wb out obj false false)
  | Some p =>
      let! r <- writeback_loop fd (connectors (deref p)) (crtc_index out) obj ;;
      run! drmModeFreeResources (addr p) ;;
      Done (if fst r : bool then 0 else - ENOENT, set_wb out (snd r) (fst r) false)
  end.

(** ** Atomic commits *)
Section Commits.
Context `{Fpu}.

(** The place of the picture on the screen: centred, scaled to the screen unless it
    is stretched; [float] arithmetic. *)
Definition picture_rect (out : modeset_output) (width height : Z) (stretch : bool) : Z * Z * Z * Z :=
  let w := u32 (video_crtc_width out) in
  let h := u32 (video_crtc_height out) in
  if stretch then (0, 0, w, h)
  else
    let video_ratio := f_div (f_of_int width) (f_of_int height) in
    let '(crtcw, crtch) :=
      if d_lt (f_of_int h) (f_div (f_of_int w) video_ratio)
      then (to_u32 (f_mul (f_of_int h) video_ratio), h)
      else (w, to_u32 (f_div (f_of_int w) video_ratio)) in
    (s32 (u32 (w - crtcw) / 2), s32 (u32 (h - crtch) / 2), crtcw, crtch).

(** The properties of a list, in order, until one fails. *)
Fixpoint set_properties (req : option Z) (l : list (drm_object * string * Z)) : io bool :=
  match l with
  | [] => Done true
  | (obj, name, value) :: l =>
      let! r <- set_drm_object_property req obj name value ;;
      if r <? 0 then Done false else set_properties req l
  end.

Definition commit_properties (out : modeset_output) (plane : drm_object) (fb_id width height zpos : Z)
    (stretch : bool) : list (drm_object * string * Z) :=
  let '(crtcx, crtcy, crtcw, crtch) := picture_rect out width height stretch in
  [(connector out, "CRTC_ID"%string, oid (crtc out))] ++
  (if wb_enabled out then [(wb_connector out, "CRTC_ID"%string, oid (crtc out))] else []) ++
  [(crtc out, "MODE_ID"%string, mode_blob_id out); (crtc out, "ACTIVE"%string, 1);
   (plane, "FB_ID"%string, fb_id); (plane, "CRTC_ID"%string, oid (crtc out));
   (plane, "SRC_X"%string, 0); (plane, "SRC_Y"%string, 0);
   (plane, "SRC_W"%string, u32 (Z.shiftl width 16)); (plane, "SRC_H"%string, u32 (Z.shiftl height 16));
   (plane, "CRTC_X"%string, crtcx); (plane, "CRTC_Y"%string, crtcy);
   (plane, "CRTC_W"%string, crtcw); (plane, "CRTC_H"%string, crtch); (plane, "zpos"%string, zpos)].

Definition modeset_atomic_prepare_commit (out : modeset_output) (req : option Z) (plane : drm_object)
    (fb_id width height zpos : Z) (stretch : bool) : io Z :=
  let! ok <- set_properties req (commit_properties out plane fb_id width height zpos stretch) ;;
  Done (if ok : bool then 0 else -1).

Definition modeset_perform_modeset (fd : Z) (out : modeset_output) (req : option Z) (plane : drm_object)
    (fb_id width height zpos : Z) (stretch : bool) : io Z :=
  let! ret <- modeset_atomic_prepare_commit out req plane fb_id width height zpos stretch ;;
  if ret <? 0 then Done ret
  else
    get! ret <- drmModeAtomicCommit fd req (Z.lor DRM_MODE_ATOMIC_TEST_ONLY DRM_MODE_ATOMIC_ALLOW_MODESET) ;;
    if ret <? 0 then Done ret
    else trigger (drmModeAtomicCommit fd req DRM_MODE_ATOMIC_ALLOW_MODESET).

(** The commit of one plane with the OSD's first buffer; what fails is only reported,
    but the caller stops when the request cannot be filled. *)
Definition restore_plane (fd : Z) (out : modeset_output) (req : option Z) (plane : drm_object) : io bool :=
  let b := nth 0 (osd_bufs out) no_buf in
  let! zpos <- get_property_value fd (props plane) "zpos" ;;
  let! ret <- modeset_atomic_prepare_commit out req plane (s32 (fb b)) (width b) (height b) (s32 zpos) false ;;
  if ret <? 0 then Done false
  else get! _ret <- drmModeAtomicCommit fd req DRM_MODE_ATOMIC_ALLOW_MODESET ;; Done true.

(** Both planes, when both requests were allocated. *)
Definition restore_both (fd : Z) (out : modeset_output) : io unit :=
  match osd_request out, video_request out with
  | Some _, Some _ =>
      let! ok <- restore_plane fd out (osd_request out) (osd_plane out) ;;
      if negb ok then Done tt
      else let! _ok <- restore_plane fd out (video_request out) (video_plane out) ;; Done tt
  | _, _ => Done tt
  end.

Definition restore_planes_zpos (fd : Z) (out : modeset_output) : io modeset_output :=
  run! drmModeAtomicFree (osd_request out) ;;
  get! osd <- drmModeAtomicAlloc ;;
  run! drmModeAtomicFree (video_request out) ;;
  get! video <- drmModeAtomicAlloc ;;
  let out := set_requests out osd video in
  let! _u <- restore_both fd out ;;
  Done out.

(** *** Writeback *)
Definition modeset_arm_writeback (out : modeset_output) (req : option Z) (wb_fb fence_ptr : Z) : io Z :=
  if negb (wb_enabled out) then Done (-1)
  else
    let! ok <- set_properties req [(wb_connector out, "WRITEBACK_FB_ID"%string, wb_fb);
                                   (wb_connector out, "WRITEBACK_OUT_FENCE_PTR"%string, fence_ptr)] ;;
    Done (if ok : bool then 0 else -1).

Definition enable_wb (out : modeset_output) (b : bool) : modeset_output :=
  set_wb out (wb_connector out) (wb_available out) b.

Definition modeset_attach_writeback (fd : Z) (out : modeset_output) (stretch : bool) : io (Z * modeset_output) :=
  if negb (wb_available out) then Done (- ENODEV, out)
  else if wb_enabled out then Done (0, out)
  else
    let out := enable_wb out true in
    get! req <- drmModeAtomicAlloc ;;
    match req with
    | None => Done (- ENOMEM, enable_wb out false)
    | Some _ =>
        let b := nth 0 (osd_bufs out) no_buf in
        let! zpos <- get_property_value fd (props (osd_plane out)) "zpos" ;;
        let! ret <-
          modeset_perform_modeset fd out req (osd_plane out) (s32 (fb b)) (width b) (height b) (s32 zpos) stretch ;;
        run! drmModeAtomicFree req ;;
        Done (if ret <? 0 then (ret, enable_wb out false) else (0, out))
    end.

Definition modeset_detach_writeback (fd : Z) (out : modeset_output) : io modeset_output :=
  if negb (wb_available out) then Done out
  else
    let out := enable_wb out false in
    get! req <- drmModeAtomicAlloc ;;
    match req with
    | None => Done out
    | Some _ =>
        let! r <- set_drm_object_property req (wb_connector out) "CRTC_ID" 0 ;;
        let! _ret <-
          (if 0 <? r then trigger (drmModeAtomicCommit fd req DRM_MODE_ATOMIC_ALLOW_MODESET) else Done 0) ;;
        run! drmModeAtomicFree req ;;
        Done out
    end.

(** [fence_ptr] is the address of the local variable. *)
Definition modeset_check_writeback (fd : Z) (out : modeset_output) (wb_fb fence_ptr : Z) : io Z :=
  let osd_fb := fb (nth 0 (osd_bufs out) no_buf) in
  get! req <- drmModeAtomicAlloc ;;
  match req with
  | None => Done (- ENOMEM)
  | Some _ =>
      let! r <- set_drm_object_property req (osd_plane out) "FB_ID" osd_fb ;;
      if r <? 0 then run! drmModeAtomicFree req ;; Done (- EINVAL)
      else
        get! ret <- drmModeAtomicCommit fd req DRM_MODE_ATOMIC_TEST_ONLY ;;
        run! drmModeAtomicFree req ;;
        if ret <? 0 then Done ret
        else
          get! req <- drmModeAtomicAlloc ;;
          match req with
          | None => Done (- ENOMEM)
          | Some _ =>
              let! r <- set_drm_object_property req (osd_plane out) "FB_ID" osd_fb ;;
              let! bad <-
                (if r <? 0 then Done true
                 else let! r <- modeset_arm_writeback out req wb_fb fence_ptr ;; Done (r <? 0)) ;;
              if bad : bool then run! drmModeAtomicFree req ;; Done (- EINVAL)
              else
                get! ret <- drmModeAtomicCommit fd req DRM_MODE_ATOMIC_TEST_ONLY ;;
                run! drmModeAtomicFree req ;;
                Done (if ret <? 0 then ret else 0)
          end
  end.
End Commits.

(** ** Choosing a mode *)
(** The best so far: index, width, height, refresh. *)
Fixpoint best_mode_loop (ms : list drmModeModeInfo) (desired_refresh i : Z) (best : Z * Z * Z * Z)
  : outcome (Z * Z * Z * Z) :=
  match ms with
  | [] => Ret best
  | m :: ms =>
      let refresh := vrefresh m in
      if (1920 <? hdisplay m) || (1080 <? vdisplay m) then best_mode_loop ms desired_refresh (i + 1) best
      else if (desired_refresh =? 0) && negb (refresh mod 60 =? 0) then best_mode_loop ms desired_refresh (i + 1) best
      else if negb (desired_refresh =? 0) && negb (refresh =? desired_refresh)
      then best_mode_loop ms desired_refresh (i + 1) best
      else
        let '(_, best_width, best_height, best_refresh) := best in
        do pixels <- c_int (hdisplay m * vdisplay m) ;;
        let best_pixels := u32 (best_width * best_height) in
        if (best_pixels <? pixels) || ((pixels =? best_pixels) && (best_refresh <? refresh))
        then best_mode_loop ms desired_refresh (i + 1) (i, hdisplay m, vdisplay m, refresh)
        else best_mode_loop ms desired_refresh (i + 1) best
  end.

Definition select_best_mode (conn : drmModeConnector) (desired_refresh : Z) : outcome Z :=
  do* (best, _, _, _) <- best_mode_loop (modes conn) desired_refresh 0 (-1, 0, 0, 0) ;; Ret best.

(** The loop for a mode that was asked for: the index found and the preferred one. *)
Fixpoint exact_mode_loop (ms : list drmModeModeInfo) (w h r i fc preferred_fc : Z) : Z * Z :=
  match ms with
  | [] => (fc, preferred_fc)
  | m :: ms =>
      if (hdisplay m =? w) && (vdisplay m =? h) && (vrefresh m =? r) then
        let fc := if fc <? 0 then i else fc in
        let fc := if (0 <=? fc) && (Z.land (mode_flags m) DRM_MODE_FLAG_INTERLACE =? 0) then i else fc in
        exact_mode_loop ms w h r (i + 1) fc preferred_fc
      else if negb (Z.land (mode_type m) DRM_MODE_TYPE_PREFERRED =? 0) then exact_mode_loop ms w h r (i + 1) fc i
      else exact_mode_loop ms w h r (i + 1) fc preferred_fc
  end.

(** The index of the mode of an output; [None]: none matches. *)
Definition choose_mode (conn : drmModeConnector) (mode_width mode_height mode_vrefresh target_frame_rate : Z)
  : outcome (option Z) :=
  if (0 <? mode_width) && (0 <? mode_height) && (0 <? mode_vrefresh) then
    let '(fc, preferred_fc) := exact_mode_loop (modes conn) mode_width mode_height mode_vrefresh 0 (-1) (-1) in
    Ret (if (fc <? 0) && (preferred_fc <? 0) then None else Some (if fc <? 0 then preferred_fc else fc))
  else if 0 <? target_frame_rate then
    do idx <- select_best_mode conn target_frame_rate ;; Ret (Some (if 0 <=? idx then idx else 0))
  else if (mode_width =? 0) && (mode_height =? 0) && (mode_vrefresh =? 0) then
    do idx <- select_best_mode conn 0 ;; Ret (Some (if 0 <=? idx then idx else 0))
  else Ret (Some 0).

(** ** Outputs *)
Definition sized_buf (b : modeset_buf) (w h : Z) : modeset_buf :=
  mk_buf w h (stride b) (bsize b) (handle b) (bmap b) (prime_fd b) (fb b).

Fixpoint fb_loop (fd w h : Z) (bufs : list modeset_buf) : io (Z * list modeset_buf) :=
  match bufs with
  | [] => Done (0, [])
  | b :: bufs =>
      let! r <- modeset_create_fb fd (sized_buf b w h) ;;
      if negb (fst r =? 0) then Done (fst r, snd r :: bufs)
      else
        let! rs <- fb_loop fd w h bufs ;;
        Done (fst rs, snd r :: snd rs)
  end.

Definition modeset_setup_framebuffers (fd : Z) (out : modeset_output) : io (Z * modeset_output) :=
  let w := hdisplay (mode out) in
  let h := vdisplay (mode out) in
  let! r <- fb_loop fd w h (osd_bufs out) ;;
  Done (fst r, if negb (fst r =? 0) then set_bufs out (snd r) (video_crtc_width out) (video_crtc_height out)
               else set_bufs out (snd r) w h).

Fixpoint destroy_bufs (fd : Z) (bufs : list modeset_buf) : io unit :=
  match bufs with
  | [] => Done tt
  | b :: bufs => let! _b <- modeset_destroy_fb fd b ;; destroy_bufs fd bufs
  end.

(** [p] is the address of the output. *)
Definition modeset_output_destroy (fd p : Z) (out : modeset_output) : io unit :=
  let! _u <- modeset_destroy_objects fd out ;;
  let! _u <- destroy_bufs fd (osd_bufs out) ;;
  run! drmModeDestroyPropertyBlob fd (mode_blob_id out) ;;
  run! c_free (Some p) ;;
  Done tt.

Definition modeset_cleanup (fd p : Z) (out : modeset_output) : io unit := modeset_output_destroy fd p out.

Section Outputs.
Context `{Build}.

(** The part behind the blob, with the jumps to [out_obj] and [out_blob]. *)
Definition out_blob (fd : Z) (out : modeset_output) : io (option modeset_output) :=
  run! drmModeDestroyPropertyBlob fd (mode_blob_id out) ;; Done None.

(** The second assertion tests the first request again. *)
Definition output_buffers (fd : Z) (out : modeset_output) : io (option modeset_output) :=
  let! r <- modeset_setup_framebuffers fd out ;;
  let out := snd r in
  if negb (fst r =? 0) then let! _u <- modeset_destroy_objects fd out ;; out_blob fd out
  else
    get! video <- drmModeAtomicAlloc ;;
    let! _u <- lift (c_assert (match video with Some _ => true | None => false end)) ;;
    get! osd <- drmModeAtomicAlloc ;;
    let! _u <- lift (c_assert (match video with Some _ => true | None => false end)) ;;
    Done (Some (set_requests out osd video)).

Definition output_planes (fd : Z) (out : modeset_output) : io (option modeset_output) :=
  let! r <- modeset_find_plane fd (crtc_index out) (video_plane out) DRM_FORMAT_NV12 ;;
  let out := set_objects out (connector out) (crtc out) (snd r) (osd_plane out) in
  if negb (fst r =? 0) then out_blob fd out
  else
    let! r <- modeset_find_plane fd (crtc_index out) (osd_plane out) DRM_FORMAT_ARGB8888 ;;
    let out := set_objects out (connector out) (crtc out) (video_plane out) (snd r) in
    if negb (fst r =? 0) then out_blob fd out
    else
      let! r <- modeset_setup_objects fd out ;;
      if negb (fst r =? 0) then out_blob fd (snd r) else output_buffers fd (snd r).

Definition output_resources (fd : Z) (res : drmModeRes) (conn : drmModeConnector) (out : modeset_output)
  : io (option modeset_output) :=
  let! r <- modeset_find_crtc fd res conn out ;;
  if negb (fst r =? 0) then out_blob fd (snd r) else output_planes fd (snd r).

Definition modeset_output_create (fd : Z) (res : drmModeRes) (conn : drmModeConnector)
    (mode_width mode_height mode_vrefresh target_frame_rate : Z) : io (option (Z * modeset_output)) :=
  get! p <- c_malloc_output ;;
  match p with
  | None => Die OutOfBounds
  | Some p =>
      let out := set_objects zero_output (set_id no_object (connector_id conn)) no_object no_object no_object in
      let out_error := run! c_free (Some p) ;; Done None in
      if negb (connection conn =? DRM_MODE_CONNECTED) then out_error
      else if zlen (modes conn) =? 0 then out_error
      else
        let! fc <- lift (choose_mode conn mode_width mode_height mode_vrefresh target_frame_rate) ;;
        match fc with
        | None => out_error
        | Some fc =>
            let! m <- lift (rd (modes conn) fc) ;;
            get! blob <- drmModeCreatePropertyBlob fd m ;;
            match blob with
            | inl _ => out_error
            | inr blob =>
                let! r <- output_resources fd res conn (set_mode out m blob) ;;
                match r with
                | None => out_error
                | Some out => Done (Some (p, out))
                end
            end
        end
  end.

Fixpoint prepare_loop (fd : Z) (res : drmModeRes) (ids : list Z) (w h r rate : Z)
  : io (option (Z * modeset_output)) :=
  match ids with
  | [] => Done None
  | id :: ids =>
      get! conn <- drmModeGetConnector fd id ;;
      match conn with
      | None => prepare_loop fd res ids w h r rate
      | Some p =>
          if connector_type (deref p) =? DRM_MODE_CONNECTOR_WRITEBACK
          then run! drmModeFreeConnector (addr p) ;; prepare_loop fd res ids w h r rate
          else
            let! out <- modeset_output_create fd res (deref p) w h r rate ;;
            run! drmModeFreeConnector (addr p) ;;
            match out with
            | Some _ => Done out
            | None => prepare_loop fd res ids w h r rate
            end
      end
  end.

Definition modeset_prepare (fd mode_width mode_height mode_vrefresh target_frame_rate : Z)
  : io (option (Z * modeset_output)) :=
  get! res <- drmModeGetResources fd ;;
  match res with
  | None => Done None
  | Some p =>
      let! out <- prepare_loop fd (deref p) (connectors (deref p)) mode_width mode_height mode_vrefresh
                    target_frame_rate ;;
      run! drmModeFreeResources (addr p) ;;
      Done out
  end.

(** ** Listing the modes.  [prev] is width, height and refresh of the mode printed
    last; the first two are not initialised. *)
Fixpoint print_loop (ms : list drmModeModeInfo) (prev : Z * Z * Z) : io (Z * Z * Z) :=
  match ms with
  | [] => Done prev
  | m :: ms =>
      let '(prev_h, prev_v, prev_refresh) := prev in
      if (hdisplay m =? prev_h) && (vdisplay m =? prev_v) && (vrefresh m =? prev_refresh)
      then print_loop ms prev
      else run! c_print_mode m ;; print_loop ms (hdisplay m, vdisplay m, vrefresh m)
  end.

Fixpoint print_connectors (fd : Z) (ids : list Z) (prev : Z * Z * Z) : io unit :=
  match ids with
  | [] => Done tt
  | id :: ids =>
      get! conn <- drmModeGetConnector fd id ;;
      match conn with
      | None => print_connectors fd ids prev
      | Some p =>
          let! prev <- print_loop (modes (deref p)) prev ;;
          run! drmModeFreeConnector (addr p) ;;
          print_connectors fd ids prev
      end
  end.

Definition modeset_print_modes (fd prev_h prev_v : Z) : io unit :=
  get! res <- drmModeGetResources fd ;;
  match res with
  | None => Done tt
  | Some p =>
      let! _u <- print_connectors fd (connectors (deref p)) (prev_h, prev_v, 0) ;;
      run! drmModeFreeResources (addr p) ;;
      Done tt
  end.
End Outputs.

(** ** The display's part of src/src/main.cpp: its global variables *)
Definition WB_BUF_COUNT : Z := 6.

Record display := mk_display {
  drm_fd : Z;
  output_list : option (Z * modeset_output);
  wb_bufs : list modeset_buf;
  wb_bufs_ready : bool
}.
Definition display_start : display := mk_display 0 None (replicate (Z.to_nat WB_BUF_COUNT) no_buf) false.

Section Main.
Context `{Build} `{Fpu}.

Definition setup_drm (d : display) (print_modelist : bool) (prev_h prev_v : Z) (w h r rate : Z)
  : io (Z * display) :=
  let! o <- modeset_open "/dev/dri/card0" ;;
  let d := mk_display (default (drm_fd d) (snd o)) (output_list d) (wb_bufs d) (wb_bufs_ready d) in
  let! _u <- lift (c_assert (0 <=? drm_fd d)) ;;
  if print_modelist then
    let! _u <- modeset_print_modes (drm_fd d) prev_h prev_v ;;
    run! c_close (drm_fd d) ;;
    Done (0, d)
  else
    let! out <- modeset_prepare (drm_fd d) w h r rate ;;
    let d := mk_display (drm_fd d) out (wb_bufs d) (wb_bufs_ready d) in
    Done (match out with None => -2 | Some _ => 1 end, d).

(** The first [n] buffers are destroyed. *)
Fixpoint free_wb_bufs (fd : Z) (n : nat) (bufs : list modeset_buf) : io (list modeset_buf) :=
  match n, bufs with
  | S n, b :: bufs =>
      let! b <- modeset_destroy_wb_fb fd b ;;
      let! bufs <- free_wb_bufs fd n bufs ;;
      Done (b :: bufs)
  | _, _ => Done bufs
  end.

(** The buffers are created in order; [inl] is the first failure, with the buffers
    as they are then and how many were made. *)
Fixpoint create_wb_bufs (fd w h : Z) (bufs : list modeset_buf) : io (bool * nat * list modeset_buf) :=
  match bufs with
  | [] => Done (true, 0%nat, [])
  | b :: bufs =>
      let! r <- modeset_create_wb_fb fd (sized_buf b w h) ;;
      if negb (fst r =? 0) then Done (false, 0%nat, snd r :: bufs)
      else
        let! rs <- create_wb_bufs fd w h bufs ;;
        Done (fst (fst rs), S (snd (fst rs)), snd r :: snd rs)
  end.

Definition set_display (d : display) (p : Z) (out : modeset_output) (bufs : list modeset_buf) (ready : bool) : display :=
  mk_display (drm_fd d) (Some (p, out)) bufs ready.

Definition setup_writeback (d : display) (stretch_video : bool) (fence_ptr : Z) : io (bool * display) :=
  match output_list d with
  | None => Die OutOfBounds
  | Some (p, out) =>
      let fd := drm_fd d in
      let! r <- modeset_find_writeback fd out ;;
      let out := snd r in
      if negb (fst r =? 0) then Done (false, set_display d p out (wb_bufs d) (wb_bufs_ready d))
      else
        let! r <- create_wb_bufs fd (hdisplay (mode out)) (vdisplay (mode out)) (wb_bufs d) ;;
        let bufs := snd r in
        if negb (fst (fst r)) then
          let! bufs <- free_wb_bufs fd (snd (fst r)) bufs ;;
          Done (false, set_display d p out bufs (wb_bufs_ready d))
        else
          let! r <- modeset_attach_writeback fd out stretch_video ;;
          let out := snd r in
          if negb (fst r =? 0) then
            let! bufs <- free_wb_bufs fd (length bufs) bufs ;;
            Done (false, set_display d p out bufs (wb_bufs_ready d))
          else
            let! r <- modeset_check_writeback fd out (fb (nth 0 bufs no_buf)) fence_ptr ;;
            if negb (r =? 0) then
              let! out <- modeset_detach_writeback fd out ;;
              let! bufs <- free_wb_bufs fd (length bufs) bufs ;;
              Done (false, set_display d p out bufs (wb_bufs_ready d))
            else Done (true, set_display d p out bufs true)
  end.

Definition cleanup_writeback (d : display) (p : Z) (out : modeset_output) : io (display * modeset_output) :=
  if negb (wb_bufs_ready d) then Done (d, out)
  else
    let! out <- modeset_detach_writeback (drm_fd d) out ;;
    let! bufs <- free_wb_bufs (drm_fd d) (length (wb_bufs d)) (wb_bufs d) ;;
    Done (set_display d p out bufs false, out).

(** The members of the saved CRTC are read through its pointer. *)
Definition cleanup_drm (d : display) : io unit :=
  match output_list d with
  | None => Die OutOfBounds
  | Some (p, out) =>
      let! r <- cleanup_writeback d p out ;;
      let d := fst r in
      let! out <- restore_planes_zpos (drm_fd d) (snd r) ;;
      match saved_crtc out with
      | None => Die OutOfBounds
      | Some saved =>
          run! drmModeSetCrtc (drm_fd d) saved (oid (connector out)) ;;
          run! drmModeFreeCrtc (Some saved) ;;
          run! drmModeAtomicFree (video_request out) ;;
          run! drmModeAtomicFree (osd_request out) ;;
          let! _u <- modeset_cleanup (drm_fd d) p out ;;
          run! c_close (drm_fd d) ;;
          Done tt
      end
  end.
End Main.
