(* ===== verification/DrmSpec.v ===== *)
(** What libdrm and the system promise (Drm): which objects a call makes and gives
    back, when it may be made and what it can answer; a program logic for programs
    over the calls, and what it says about a run on a device that keeps the promise. *)

From Stdlib Require Import String.
From stdpp Require Import gmultiset.
From S2P Require Import Prelude Free Drm.

(** ** Objects the program holds *)
Inductive kind :=
| K_fd | K_heap | K_resources | K_connector | K_encoder | K_crtc | K_planes | K_plane | K_objprops
| K_property | K_blobdata | K_blob | K_dumb | K_fb | K_map | K_request.

#[export] Instance kind_eq_dec : EqDecision kind.
Proof. solve_decision. Defined.

Definition kind_code (k : kind) : nat :=
  match k with
  | K_fd => 0 | K_heap => 1 | K_resources => 2 | K_connector => 3 | K_encoder => 4 | K_crtc => 5
  | K_planes => 6 | K_plane => 7 | K_objprops => 8 | K_property => 9 | K_blobdata => 10 | K_blob => 11
  | K_dumb => 12 | K_fb => 13 | K_map => 14 | K_request => 15
  end.
Definition kind_of_code (n : nat) : option kind :=
  [K_fd; K_heap; K_resources; K_connector; K_encoder; K_crtc; K_planes; K_plane; K_objprops; K_property;
   K_blobdata; K_blob; K_dumb; K_fb; K_map; K_request] !! n.

#[export] Instance kind_countable : Countable kind.
Proof. refine (inj_countable kind_code kind_of_code _). by intros []. Defined.

(** An object: its kind, and its address or number. *)
Definition obj : Type := kind * Z.

(** What the program holds, and every property it put into a request. *)
Record ghost := mk_ghost { live : gmultiset obj; added : list (Z * (Z * Z * Z)) }.
Definition grow (k : kind) (a : Z) (g : ghost) : ghost := mk_ghost ({[+ (k, a) +]} ⊎ live g) (added g).
Definition shrink (k : kind) (a : Z) (g : ghost) : ghost := mk_ghost (live g ∖ {[+ (k, a) +]}) (added g).
Definition note_property (req obj prop value : Z) (g : ghost) : ghost :=
  mk_ghost (live g) (added g ++ [(req, (obj, prop, value))]).

(** ** The promise, as a predicate transformer: [spec c g Q] if the call may be made
    in [g] and whatever it answers satisfies [Q] with what is held then. *)
Definition fresh (k : kind) (a : Z) (g : ghost) : Prop :=
  ((k, a) ∉ live g) /\ match k with K_fd => 0 <= a | _ => 0 < a end.

Section Shapes.
Context (g : ghost).

(** A call that makes an object, or fails. *)
Definition made {A} (k : kind) (ok : A -> Prop) (Q : option (ptr A) -> ghost -> Prop) : Prop :=
  Q None g /\ forall a x, ok x -> fresh k a g -> Q (Some (mk_ptr a x)) (grow k a g).
Definition numbered (k : kind) (Q : Z + Z -> ghost -> Prop) : Prop :=
  (forall e, 0 < e -> Q (inl e) g) /\ forall a, fresh k a g -> Q (inr a) (grow k a g).
Definition held (k : kind) (a : Z) (Q : Prop) : Prop := ((k, a) ∈ live g) /\ Q.
Definition given_back (k : kind) (a : Z) (Q : unit -> ghost -> Prop) : Prop := held k a (Q tt (shrink k a g)).
Definition given_back_if (k : kind) (p : option Z) (Q : unit -> ghost -> Prop) : Prop :=
  match p with None => Q tt g | Some a => given_back k a Q end.
End Shapes.

Definition any {A} (x : A) : Prop := True.

(** The masks of a CRTC have 32 bits. *)
Definition resources_ok (r : drmModeRes) : Prop := zlen (crtcs r) <= 32.
Definition mode_ok (m : drmModeModeInfo) : Prop :=
  0 <= hdisplay m < 2 ^ 16 /\ 0 <= vdisplay m < 2 ^ 16 /\ 0 <= vrefresh m < 2 ^ 32.
Definition connector_ok (c : drmModeConnector) : Prop := Forall mode_ok (modes c).

(** The code relies on more than the interface says, without a test: memory is
    granted, a property that is listed can be looked up, a CRTC can be read. *)
Definition spec {X} (c : call X) (g : ghost) : (X -> ghost -> Prop) -> Prop :=
  match c in call X return (X -> ghost -> Prop) -> Prop with
  | c_open _ => numbered g K_fd
  | c_close fd => given_back g K_fd fd
  | c_malloc_output => fun Q => forall a, fresh K_heap a g -> Q (Some a) (grow K_heap a g)
  | c_calloc n _ => fun Q =>
      (n = 0 -> Q None g) /\ forall a, fresh K_heap a g -> Q (Some a) (grow K_heap a g)
  | c_free p => given_back_if g K_heap p
  | drmSetClientCap _ _ _ => fun Q => forall r, Q r g
  | drmGetCap _ _ => fun Q => forall r, Q r g
  | drmModeGetResources _ => made g K_resources resources_ok
  | drmModeFreeResources p => given_back g K_resources p
  | drmModeGetConnector _ _ => made g K_connector connector_ok
  | drmModeFreeConnector p => given_back g K_connector p
  | drmModeGetEncoder _ _ => made g K_encoder any
  | drmModeFreeEncoder p => given_back g K_encoder p
  | drmModeGetCrtc _ _ => fun Q => forall a, fresh K_crtc a g -> Q (Some a) (grow K_crtc a g)
  | drmModeFreeCrtc p => given_back_if g K_crtc p
  | drmModeGetPlaneResources _ => made g K_planes any
  | drmModeFreePlaneResources p => given_back g K_planes p
  | drmModeGetPlane _ _ => made g K_plane any
  | drmModeFreePlane p => given_back g K_plane p
  | drmModeObjectGetProperties _ _ _ => made g K_objprops any
  | drmModeFreeObjectProperties p => given_back g K_objprops p
  | drmModeGetProperty _ _ => fun Q =>
      forall a x, fresh K_property a g -> Q (Some (mk_ptr a x)) (grow K_property a g)
  | drmModeFreeProperty p => given_back_if g K_property p
  | drmModeGetPropertyBlob _ _ => made g K_blobdata any
  | drmModeFreePropertyBlob p => given_back g K_blobdata p
  | drmModeCreatePropertyBlob _ _ => numbered g K_blob
  | drmModeDestroyPropertyBlob _ id => given_back g K_blob id
  | drmModeCreateDumb _ _ _ _ => fun Q =>
      (forall e, 0 < e -> Q (inl e) g) /\
      forall d, fresh K_dumb (dumb_handle d) g -> Q (inr d) (grow K_dumb (dumb_handle d) g)
  | drmModeDestroyDumb _ h => given_back g K_dumb h
  | drmModeMapDumb _ h => fun Q =>
      held g K_dumb h ((forall e, 0 < e -> Q (inl e) g) /\ forall o, Q (inr o) g)
  | c_mmap _ _ _ => numbered g K_map
  | c_munmap p _ => given_back g K_map p
  | c_clear p _ => fun Q => held g K_map p (Q tt g)
  | drmModeAddFB2 _ _ _ _ hs _ _ => fun Q =>
      Forall (fun h => h = 0 \/ (K_dumb, h) ∈ live g) hs /\ numbered g K_fb Q
  | drmModeRmFB _ f => given_back g K_fb f
  | drmPrimeHandleToFD _ h => fun Q => held g K_dumb h (numbered g K_fd Q)
  | drmModeAtomicAlloc => fun Q => Q None g /\ forall a, fresh K_request a g -> Q (Some a) (grow K_request a g)
  | drmModeAtomicFree p => given_back_if g K_request p
  | drmModeAtomicAddProperty req o p v => fun Q =>
      match req with
      | None => forall r, r < 0 -> Q r g
      | Some a => held g K_request a ((forall r, r < 0 -> Q r g) /\ forall r, 0 < r -> Q r (note_property a o p v g))
      end
  | drmModeAtomicCommit _ req _ => fun Q =>
      match req with
      | None => forall r, r < 0 -> Q r g
      | Some a => held g K_request a (forall r, r <= 0 -> Q r g)
      end
  | drmModeSetCrtc _ saved _ => fun Q => held g K_crtc saved (Q tt g)
  | c_print_mode _ => fun Q => Q tt g
  end.

Lemma spec_mono {X} (c : call X) g (P Q : X -> ghost -> Prop) :
  (forall x g', P x g' -> Q x g') -> spec c g P -> spec c g Q.
Proof.
  intros HPQ. destruct c; cbn; unfold given_back_if, given_back, held, made, numbered;
    repeat match goal with |- context [match ?x with Some _ => _ | None => _ end] => destruct x end; intuition eauto.
Qed.

(** What a call needs to hold, as a test: the objects it uses or gives back. *)
Definition needs {X} (c : call X) : list obj :=
  let given k p := match p with Some a => [(k, a)] | None => [] end in
  match c with
  | c_close fd => [(K_fd, fd)]
  | c_free p => given K_heap p
  | drmModeFreeResources p => [(K_resources, p)]
  | drmModeFreeConnector p => [(K_connector, p)]
  | drmModeFreeEncoder p => [(K_encoder, p)]
  | drmModeFreeCrtc p => given K_crtc p
  | drmModeFreePlaneResources p => [(K_planes, p)]
  | drmModeFreePlane p => [(K_plane, p)]
  | drmModeFreeObjectProperties p => [(K_objprops, p)]
  | drmModeFreeProperty p => given K_property p
  | drmModeFreePropertyBlob p => [(K_blobdata, p)]
  | drmModeDestroyPropertyBlob _ id => [(K_blob, id)]
  | drmModeDestroyDumb _ h | drmModeMapDumb _ h | drmPrimeHandleToFD _ h => [(K_dumb, h)]
  | c_munmap p _ | c_clear p _ => [(K_map, p)]
  | drmModeAddFB2 _ _ _ _ hs _ _ => map (pair K_dumb) (filter (fun h => h <> 0) hs)
  | drmModeRmFB _ f => [(K_fb, f)]
  | drmModeAtomicFree req | drmModeAtomicCommit _ req _ | drmModeAtomicAddProperty req _ _ _ => given K_request req
  | drmModeSetCrtc _ saved _ => [(K_crtc, saved)]
  | _ => []
  end.
Definition legal {X} (c : call X) (g : ghost) : bool := forallb (fun o => bool_decide (o ∈ live g)) (needs c).

Lemma spec_legal {X} (c : call X) g Q : spec c g Q -> legal c g = true.
Proof.
  intros Hs. unfold legal. apply forallb_forall. intros o Ho. apply bool_decide_eq_true.
  destruct c; cbn in Hs, Ho; unfold given_back_if, given_back, held in Hs;
    repeat match goal with _ : context [match ?x with Some _ => _ | None => _ end] |- _ => destruct x end;
    cbn in Ho; try (destruct Ho as [<-|[]]; apply Hs); try done.
  destruct Hs as [Hs _]. apply in_map_iff in Ho as (h & <- & Hh).
  apply list_elem_of_In, list_elem_of_filter in Hh as [Hn Hh].
  rewrite (Forall_forall _ _) in Hs. apply list_elem_of_In in Hh. by destruct (Hs h Hh).
Qed.

(** ** The logic *)
Section Logic.
Context `{Build}.

Fixpoint wp {A} (p : io A) (g : ghost) (Q : A -> ghost -> Prop) : Prop :=
  match p with
  | Done a => Q a g
  | Die AssertFail => NDEBUG = false
  | Die _ => False
  | Call c k => spec c g (fun x g' => wp (k x) g' Q)
  end.

Lemma wp_mono {A} (p : io A) g (P Q : A -> ghost -> Prop) :
  wp p g P -> (forall a g', P a g' -> Q a g') -> wp p g Q.
Proof.
  intros Hp HPQ. revert g Hp. induction p as [a|[]|X c k IH]; intros g Hp; cbn in *; auto.
  revert Hp. apply spec_mono. auto.
Qed.

Lemma wp_bind {A B} (m : io A) (k : A -> io B) g Q :
  wp m g (fun a g' => wp (k a) g' Q) -> wp (io_bind m k) g Q.
Proof.
  revert g. induction m as [a|c|X c f IH]; intros g Hm; cbn in *; [done..|].
  revert Hm. apply spec_mono. auto.
Qed.

Lemma wp_call {A X} (c : call X) (k : X -> io A) g Q : spec c g (fun x g' => wp (k x) g' Q) -> wp (Call c k) g Q.
Proof. done. Qed.

Lemma wp_lift {A} (m : outcome A) g Q : post m (fun a => Q a g) -> wp (lift m) g Q.
Proof. by destruct m as [a|[]]. Qed.

(** *** Runs on a device: a state and the answer to each call.  A call with an object
    that is not held, a use after it was given back for one, stops the run. *)
Class Libdrm := {
  world : Type;
  holding : world -> ghost;
  answer : forall {X}, call X -> world -> X * world
}.
(** The device keeps the promise. *)
Definition keeps_promise (D : Libdrm) : Prop :=
  forall X (c : call X) w Q, spec c (holding w) Q -> Q (fst (answer c w)) (holding (snd (answer c w))).

Fixpoint run {D : Libdrm} {A} (p : io A) (w : world) : outcome (A * world) :=
  match p with
  | Done a => Ret (a, w)
  | Die c => Crash c
  | Call c k =>
      if legal c (holding w) then let '(x, w) := answer c w in run (k x) w else Crash OutOfBounds
  end.

Lemma run_bind {D : Libdrm} {A B} (m : io A) (k : A -> io B) w :
  run (io_bind m k) w = (do* (a, w) <- run m w ;; run (k a) w).
Proof.
  revert w. induction m as [a|c|X c f IH]; intros w; cbn; [done..|].
  destruct (legal _ _); [|done]. by destruct (answer c w).
Qed.

(** What the logic shows holds of every run. *)
Lemma wp_run {D : Libdrm} {A} (p : io A) w Q :
  keeps_promise D -> wp p (holding w) Q -> post (run p w) (fun '(a, w') => Q a (holding w')).
Proof.
  intros HD. revert w. induction p as [a|[]|X c k IH]; intros w Hp; cbn in *; try done.
  rewrite (spec_legal _ _ _ Hp). specialize (HD X c w _ Hp). destruct (answer c w) as [x w']. by apply IH.
Qed.
End Logic.
