(* ===== verification/DrmDevice.v ===== *)
(** A device on which the display (Drm) runs: what its calls answer keeps the promise
    of DrmSpec, so that the theorems about every device say something. *)

From Stdlib Require Import String.
From stdpp Require Import gmultiset.
From S2P Require Import Prelude Free Drm DrmSpec.

(** ** A device that keeps the promise: one display, one writeback connector *)
Module Sample.
Definition highest (l : list obj) : Z := foldr Z.max 0 (map snd l).
Definition next (g : ghost) : Z := Z.succ (highest (elements (live g))).

Lemma highest_above l : 0 <= highest l /\ forall o, o ∈ l -> snd o <= highest l.
Proof.
  unfold highest. induction l as [|o l [IH0 IH]]; cbn [map foldr]; [by split; [|intros o Ho%elem_of_nil]|].
  split; [lia|]. intros o' [->|Ho]%elem_of_cons; [apply Z.le_max_l|]. etrans; [by apply IH|apply Z.le_max_r].
Qed.

Lemma next_fresh k g : fresh k (next g) g.
Proof.
  unfold fresh, next. destruct (highest_above (elements (live g))) as [H0 Hle]. split; [|destruct k; lia].
  intros Hin. apply gmultiset_elem_of_elements, Hle in Hin. cbn [snd] in Hin. lia.
Qed.

Definition names : list string :=
  ["CRTC_ID"; "MODE_ID"; "ACTIVE"; "FB_ID"; "SRC_X"; "SRC_Y"; "SRC_W"; "SRC_H"; "CRTC_X"; "CRTC_Y"; "CRTC_W";
   "CRTC_H"; "zpos"; "WRITEBACK_FB_ID"; "WRITEBACK_OUT_FENCE_PTR"; "WRITEBACK_PIXEL_FORMATS"]%string.
Definition property (id : Z) : drmModePropertyRes := mk_property id (nth (Z.to_nat id - 1) names EmptyString).
Definition all_properties : drmModeObjectProperties := map (fun i => (Z.of_nat i, 1)) (seq 1 (length names)).
Definition full_hd : drmModeModeInfo := mk_mode 1920 1080 60 0 8.
Definition connector_of (id : Z) : drmModeConnector :=
  if id =? 61 then mk_connector 61 0 DRM_MODE_CONNECTOR_WRITEBACK 3 [] [70]
  else mk_connector 60 0 11 DRM_MODE_CONNECTED [mk_mode 1280 720 60 0 0; full_hd] [70].

Definition made (k : kind) {A} (x : A) (g : ghost) : option (ptr A) * ghost :=
  (Some (mk_ptr (next g) x), grow k (next g) g).
Definition numbered (k : kind) (g : ghost) : (Z + Z) * ghost := (inr (next g), grow k (next g) g).
Definition address (k : kind) (g : ghost) : option Z * ghost := (Some (next g), grow k (next g) g).
Definition gone (k : kind) (p : option Z) (g : ghost) : unit * ghost :=
  (tt, match p with Some a => shrink k a g | None => g end).

Definition answer_of {X} (c : call X) (g : ghost) : X * ghost :=
  match c in call X return X * ghost with
  | c_open _ => numbered K_fd g
  | c_close fd => gone K_fd (Some fd) g
  | c_malloc_output | c_calloc _ _ => address K_heap g
  | c_free p => gone K_heap p g
  | drmSetClientCap _ _ _ => (0, g)
  | drmGetCap _ _ => ((0, 1), g)
  | drmModeGetResources _ => made K_resources (mk_resources [50] [60; 61]) g
  | drmModeFreeResources p => gone K_resources (Some p) g
  | drmModeGetConnector _ id => made K_connector (connector_of id) g
  | drmModeFreeConnector p => gone K_connector (Some p) g
  | drmModeGetEncoder _ _ => made K_encoder (mk_encoder 0 1) g
  | drmModeFreeEncoder p => gone K_encoder (Some p) g
  | drmModeGetCrtc _ _ => address K_crtc g
  | drmModeFreeCrtc p => gone K_crtc p g
  | drmModeGetPlaneResources _ => made K_planes [80; 81] g
  | drmModeFreePlaneResources p => gone K_planes (Some p) g
  | drmModeGetPlane _ id => made K_plane (mk_plane 1 [if id =? 80 then DRM_FORMAT_NV12 else DRM_FORMAT_ARGB8888]) g
  | drmModeFreePlane p => gone K_plane (Some p) g
  | drmModeObjectGetProperties _ _ _ => made K_objprops all_properties g
  | drmModeFreeObjectProperties p => gone K_objprops (Some p) g
  | drmModeGetProperty _ id => made K_property (property id) g
  | drmModeFreeProperty p => gone K_property p g
  | drmModeGetPropertyBlob _ _ => made K_blobdata (Some [DRM_FORMAT_NV12]) g
  | drmModeFreePropertyBlob p => gone K_blobdata (Some p) g
  | drmModeCreatePropertyBlob _ _ => numbered K_blob g
  | drmModeDestroyPropertyBlob _ id => gone K_blob (Some id) g
  | drmModeCreateDumb _ w h bpp => (inr (mk_dumb (w * bpp / 8) (w * bpp / 8 * h) (next g)), grow K_dumb (next g) g)
  | drmModeDestroyDumb _ h => gone K_dumb (Some h) g
  | drmModeMapDumb _ _ => (inr 0, g)
  | c_mmap _ _ _ => numbered K_map g
  | c_munmap p _ => gone K_map (Some p) g
  | c_clear _ _ => (tt, g)
  | drmModeAddFB2 _ _ _ _ _ _ _ => numbered K_fb g
  | drmModeRmFB _ f => gone K_fb (Some f) g
  | drmPrimeHandleToFD _ _ => numbered K_fd g
  | drmModeAtomicAlloc => address K_request g
  | drmModeAtomicFree p => gone K_request p g
  | drmModeAtomicAddProperty req o p v =>
      match req with Some a => (1, note_property a o p v g) | None => (- EINVAL, g) end
  | drmModeAtomicCommit _ req _ => (match req with Some _ => 0 | None => - EINVAL end, g)
  | drmModeSetCrtc _ _ _ => (tt, g)
  | c_print_mode _ => (tt, g)
  end.

Definition device : Libdrm := {| world := ghost; holding g := g; answer X c g := answer_of c g |}.

Lemma device_ok : keeps_promise device.
Proof.
  intros X c g Q Hs.
  assert (Hc : forall id, connector_ok (connector_of id)).
  { intros id. unfold connector_of, connector_ok. case_match; cbn [modes];
      repeat (apply Forall_cons_2; [unfold mode_ok; cbn; lia|]); apply Forall_nil_2. }
  destruct c; cbn [spec answer device answer_of holding fst snd] in *;
    unfold DrmSpec.made, DrmSpec.numbered, given_back_if, given_back, held, made, numbered, address, gone, any in *;
    cbn [fst snd] in *;
    repeat match goal with _ : context [match ?x with Some _ => _ | None => _ end] |- _ => destruct x end;
    cbn [fst snd] in *; unfold EINVAL; destruct_and?; eauto using next_fresh;
    match goal with Hq : forall _, _ |- _ => apply Hq end; lia || apply next_fresh || done.
Qed.
End Sample.
