(* ===== verification/DrmProps.v ===== *)
(** The display setup gives back what it takes: who owns which object (DrmSpec) after
    each operation of Drm, errors included, up to the session of src/src/main.cpp. *)

From Stdlib Require Import String.
From stdpp Require Import gmultiset.
From S2P Require Import Prelude Free CDouble Drm DrmSpec.

(** ** What a structure owns *)
Definition opt_res (k : kind) (p : option Z) : gmultiset obj :=
  match p with Some a => {[+ (k, a) +]} | None => ∅ end.
Fixpoint info_res (l : list (option (ptr drmModePropertyRes))) : gmultiset obj :=
  match l with [] => ∅ | p :: l => opt_res K_property (option_map addr p) ⊎ info_res l end.
Definition object_res (o : drm_object) : gmultiset obj :=
  match props o with
  | None => ∅
  | Some p => {[+ (K_objprops, addr p) +]} ⊎ opt_res K_heap (info_addr o) ⊎ info_res (props_info o)
  end.
Definition fb_res (b : modeset_buf) : gmultiset obj :=
  {[+ (K_dumb, handle b); (K_fb, fb b); (K_map, default 0 (bmap b)); (K_fd, prime_fd b) +]}.
Definition wb_res (b : modeset_buf) : gmultiset obj :=
  {[+ (K_dumb, handle b); (K_fb, fb b); (K_fd, prime_fd b) +]}.
Fixpoint bufs_res (res : modeset_buf -> gmultiset obj) (l : list modeset_buf) : gmultiset obj :=
  match l with [] => ∅ | b :: l => res b ⊎ bufs_res res l end.
Definition objects_res (out : modeset_output) : gmultiset obj :=
  object_res (connector out) ⊎ object_res (crtc out) ⊎ object_res (video_plane out) ⊎ object_res (osd_plane out).
Definition output_res (out : modeset_output) : gmultiset obj :=
  {[+ (K_blob, mode_blob_id out) +]} ⊎ opt_res K_crtc (saved_crtc out) ⊎ objects_res out ⊎
  object_res (wb_connector out) ⊎ bufs_res fb_res (osd_bufs out) ⊎ opt_res K_request (video_request out) ⊎
  opt_res K_request (osd_request out).

(** An object whose properties were read: the lookup of each of them is there. *)
Definition object_ok (o : drm_object) : Prop :=
  match props o with
  | None => True
  | Some p => length (props_info o) = length (deref p) /\ Forall is_Some (props_info o)
  end.
Definition object_read (o : drm_object) : Prop := is_Some (props o) /\ object_ok o.

(** ** Tactics.  [wgo] runs a program as far as its calls go. *)
Ltac wstep :=
  lazymatch goal with
  | |- wp (io_bind _ _) _ _ => apply wp_bind
  | |- wp (Done _) _ _ => cbn [wp]
  | |- wp (Call _ _) _ _ =>
      apply wp_call; cbn [spec]; unfold made, numbered, given_back_if, given_back, held; cbv beta iota
  | |- spec _ _ _ => cbn [spec]; unfold made, numbered, given_back_if, given_back, held
  | |- wp (trigger _) _ _ => unfold trigger
  | |- wp (lift _) _ _ => apply wp_lift
  | |- wp (let _ := _ in _) _ _ => cbv zeta
  | |- _ /\ _ => split
  | |- forall _, _ => intros
  end.
Ltac fields := cbn [live added grow shrink note_property width height stride bsize handle bmap prime_fd fb
  new_buf set_fb set_map set_prime sized_buf default fst snd opt_res option_map] in *.
Ltac mset := fields; multiset_solver.
Ltac handles := repeat (apply Forall_cons_2; [first [left; reflexivity | right; mset]|]); apply Forall_nil_2.
Ltac wgo := repeat (wstep || match goal with |- _ ∈ _ => mset | |- Forall _ _ => handles end).
(** A call of a function with a lemma about it. *)
Tactic Notation "wcall" uconstr(L) := eapply wp_mono; [eapply L; try eassumption|cbv beta].

(** Each object of a list of properties is read. *)
Ltac each_read := repeat (apply Forall_cons_2; [cbn [fst]; by auto|]); apply Forall_nil_2.

Section Owners.
Context `{Build}.
Implicit Types (g : ghost) (L : gmultiset obj).

(** ** Buffers *)
Lemma create_fb_spec fd b g :
  wp (modeset_create_fb fd b) g (fun '(r, b') g' =>
    r = 0 /\ live g' = fb_res b' ⊎ live g /\ 0 <= prime_fd b' /\ width b' = width b /\ height b' = height b \/
    r < 0 /\ live g' = live g).
Proof.
  unfold modeset_create_fb, fb_res. wgo.
  all: first [left; split; [done|]; split; [mset|];
                match goal with Hf : fresh K_fd _ _ |- _ => destruct Hf as [_ Hf] end; fields; by repeat split
             |right; split; [lia|]; mset].
Qed.

Lemma destroy_fb_spec fd b g L :
  live g = fb_res b ⊎ L -> 0 <= prime_fd b ->
  wp (modeset_destroy_fb fd b) g (fun _ g' => live g' = L).
Proof.
  intros Hl Hp. unfold modeset_destroy_fb, close_prime, fb_res in *. rewrite (proj2 (Z.leb_le _ _)) by done.
  wgo. fields. rewrite Hl. multiset_solver.
Qed.

Lemma create_wb_fb_spec fd b g :
  wp (modeset_create_wb_fb fd b) g (fun '(r, b') g' =>
    r = 0 /\ live g' = wb_res b' ⊎ live g /\ 0 <= prime_fd b' /\ 0 < fb b' /\ 0 < handle b' \/
    r < 0 /\ live g' = live g).
Proof.
  unfold modeset_create_wb_fb, wb_res. wgo.
  all: first [left; split; [done|]; split; [mset|]; unfold fresh in *; fields; by destruct_and?
             |right; split; [lia|]; mset].
Qed.

Lemma destroy_wb_fb_spec fd b g L :
  live g = wb_res b ⊎ L -> 0 <= prime_fd b -> 0 < fb b -> 0 < handle b ->
  wp (modeset_destroy_wb_fb fd b) g (fun _ g' => live g' = L).
Proof.
  intros Hl Hp Hf Hh. unfold modeset_destroy_wb_fb, close_prime, wb_res in *. rewrite (proj2 (Z.leb_le _ _)) by done.
  fields. wstep. wstep. split; [mset|]. wstep. fields. do 2 zif. cbn [negb]. wgo. fields. rewrite Hl. multiset_solver.
Qed.

(** ** Properties of objects *)
Lemma get_value_spec fd ps name g :
  is_Some ps -> wp (get_property_value fd ps name) g (fun _ g' => live g' = live g).
Proof.
  intros [p ->]. cbn [get_property_value]. generalize (deref p). intros l. revert g.
  induction l as [|[id v] l IH]; intros g; cbn [value_loop]; wgo; [done|]. cbv zeta. wgo.
  destruct (String.eqb _ _); [wgo; mset|]. wcall IH. intros v' g' ->. mset.
Qed.

Lemma info_loop_spec fd ids g :
  wp (info_loop fd ids) g (fun l g' =>
    live g' = info_res l ⊎ live g /\ length l = length ids /\ Forall is_Some l).
Proof.
  revert g. induction ids as [|id ids IH]; intros g; cbn [info_loop]; wgo.
  { cbn [info_res]. multiset_solver. } { done. }
  wcall IH. intros l g' (El & En & Hl). cbn [wp info_res length]. split; [|split; [by f_equal|]].
  - rewrite El. mset.
  - constructor; [by eexists|done].
Qed.

Lemma get_properties_spec fd o type g :
  wp (modeset_get_object_properties fd o type) g (fun o' g' =>
    live g' = object_res o' ⊎ live g /\ object_ok o' /\ oid o' = oid o).
Proof.
  unfold modeset_get_object_properties. wstep. split.
  { unfold object_res, object_ok. cbn [wp props no_props oid]. split; [multiset_solver|done]. }
  intros a l _ _. cbn [deref]. wstep. split.
  - intros Hn. destruct l as [|pv l]; [|exfalso; rewrite zlen_cons in Hn; pose proof (zlen_nonneg l); lia].
    unfold object_res, object_ok. cbn [map info_loop io_bind wp props props_info info_addr addr deref info_res length oid].
    split; [mset|done].
  - intros b _. apply (wp_mono (let! infos <- info_loop fd (map fst l) ;; Done (mk_object (Some (mk_ptr a l)) (Some b) infos (oid o)))
      _ (fun o' g' => live g' = object_res o' ⊎ live g /\ object_ok o' /\ oid o' = oid o)); [|done].
    wstep. wcall info_loop_spec. intros infos g' (El & En & Hl). unfold object_res, object_ok.
    cbn [wp props props_info info_addr addr deref oid]. split; [rewrite El; mset|].
    split; [split; [by rewrite En, length_map|done]|done].
Qed.

Lemma free_infos_spec infos g L :
  live g = info_res infos ⊎ L -> wp (free_infos (length infos) infos) g (fun _ g' => live g' = L).
Proof.
  revert g. induction infos as [|[p|] infos IH]; intros g Hl; cbn [free_infos length info_res option_map opt_res] in *.
  - cbn [wp]. rewrite Hl. multiset_solver.
  - wgo. apply IH. fields. rewrite Hl. multiset_solver.
  - wgo. apply IH. rewrite Hl. multiset_solver.
Qed.

Lemma fini_spec o g L :
  object_read o -> live g = object_res o ⊎ L ->
  wp (modeset_drm_object_fini o) g (fun _ g' => live g' = L).
Proof.
  unfold object_read, object_ok, object_res, modeset_drm_object_fini. intros [[p Ep] Hok] Hl.
  rewrite Ep in *. destruct Hok as [En _]. rewrite <- En. wstep.
  wcall (free_infos_spec _ g (opt_res K_heap (info_addr o) ⊎ {[+ (K_objprops, addr p) +]} ⊎ L)).
  { rewrite Hl. multiset_solver. }
  intros _ g' Hl'. destruct (info_addr o); wgo; fields; rewrite Hl'; multiset_solver.
Qed.

Lemma find_prop_id_total infos name :
  Forall is_Some infos -> exists id, find_prop_id (length infos) infos name = Ret id.
Proof.
  induction 1 as [|p infos [x ->] _ IH]; cbn [find_prop_id length]; [by eexists|].
  case_match; [by eexists|done].
Qed.

Lemma set_property_spec req o name v g :
  object_read o -> (K_request, req) ∈ live g ->
  wp (set_drm_object_property (Some req) o name v) g (fun _ g' => live g' = live g).
Proof.
  unfold object_read, object_ok, set_drm_object_property. intros [[p ->] [En Hf]] Hr.
  destruct (find_prop_id_total _ name Hf) as [id Eid]. rewrite <- En, Eid. cbn [lift io_bind].
  destruct (id =? 0); wgo; done || mset.
Qed.

(** ** Choosing a CRTC and planes *)
Lemma allowed_crtc_ok cs mask j :
  0 <= j -> j + zlen cs <= 32 ->
  post (allowed_crtc cs mask j) (fun r => match r with Some (_, i) => 0 <= i < 32 | None => True end).
Proof.
  revert j. induction cs as [|c cs IH]; intros j Hj Hl; cbn [allowed_crtc]; [done|].
  rewrite zlen_cons in Hl. pose proof (zlen_nonneg cs). unfold has_bit. zif. cbn [obind].
  case_match; [cbn; lia|]. apply IH; lia.
Qed.

Lemma crtc_position_ok cs c i old :
  0 <= i -> i + zlen cs <= 32 -> 0 <= old < 32 -> 0 <= crtc_position cs c i old < 32.
Proof.
  revert i. induction cs as [|x cs IH]; intros i Hi Hl Ho; cbn [crtc_position]; [done|].
  rewrite zlen_cons in Hl. pose proof (zlen_nonneg cs). case_match; [lia|]. apply IH; lia.
Qed.

(** A CRTC was found: it is the only member that changed. *)
Definition crtc_found (out out' : modeset_output) : Prop :=
  exists c saved i, out' = set_crtc out c (Some saved) i /\ 0 <= i < 32.

Lemma encoder_loop_spec fd cs encs out g :
  zlen cs <= 32 ->
  wp (encoder_loop fd cs encs out) g (fun '(r, out') g' =>
    r = 0 /\ crtc_found out out' /\ live g' = opt_res K_crtc (saved_crtc out') ⊎ live g \/
    r < 0 /\ out' = out /\ live g' = live g).
Proof.
  intros Hc. revert g. induction encs as [|e encs IH]; intros g; cbn [encoder_loop]; wgo.
  - right. unfold ENOENT. split; [lia|done].
  - apply IH.
  - eapply post_mono; [apply allowed_crtc_ok; lia|]. intros [[c j]|] Hj; cbv beta iota; wgo.
    + left. split; [done|]. split; [by eexists _, _, _|]. cbn [saved_crtc set_crtc]. mset.
    + wcall IH. intros [r out'] g'. fields. replace (live g ⊎ ∅) with (live g) by multiset_solver.
      intros [(-> & Ho & ->)|(Hr & -> & ->)]; [left|right]; (split; [done|]); (split; [done|]); mset.
Qed.

Lemma find_crtc_spec fd res conn out g :
  zlen (crtcs res) <= 32 -> 0 <= crtc_index out < 32 ->
  wp (modeset_find_crtc fd res conn out) g (fun '(r, out') g' =>
    r = 0 /\ crtc_found out out' /\ live g' = opt_res K_crtc (saved_crtc out') ⊎ live g \/
    r < 0 /\ out' = out /\ live g' = live g).
Proof.
  intros Hc Hi. unfold modeset_find_crtc. destruct (negb _); wgo; try by apply encoder_loop_spec.
  destruct (0 <? _); wgo.
  - left. split; [done|]. cbn [saved_crtc set_crtc]. split; [|mset].
    eexists _, _, _. split; [done|]. apply crtc_position_ok; lia.
  - wcall encoder_loop_spec. intros [r out'] g'. fields.
    intros [(-> & Ho & ->)|(Hr & -> & ->)]; [left|right]; (split; [done|]); (split; [done|]); mset.
Qed.

Lemma plane_loop_spec fd ids index format g :
  index < 32 -> wp (plane_loop fd ids index format) g (fun _ g' => live g' = live g).
Proof.
  intros Hi. revert g. induction ids as [|id ids IH]; intros g; cbn [plane_loop]; wgo; [done|apply IH|].
  unfold has_bit. zif. cbn [post]. cbv zeta. wgo. case_match; [mset|].
  wcall IH. intros ? g' ->. mset.
Qed.

Lemma find_plane_spec fd index o format g :
  index < 32 ->
  wp (modeset_find_plane fd index o format) g (fun '(r, o') g' =>
    live g' = live g /\ props o' = props o /\ (r = 0 \/ r < 0)).
Proof.
  intros Hi. unfold modeset_find_plane. wgo; [done..|unfold ENOENT; lia|].
  wcall plane_loop_spec. intros found g' Hl. wgo.
  destruct found; cbv beta iota; cbn [wp]; (split; [fields; rewrite Hl; mset|]); split; try done; unfold EINVAL; lia.
Qed.

(** ** Objects, framebuffers, the output *)
Definition objects_read (out : modeset_output) : Prop :=
  object_read (connector out) /\ object_read (crtc out) /\ object_read (video_plane out) /\ object_read (osd_plane out).

(** What a refused connector may leave behind: never its request, its blob, the block
    of the output, nor an object of the search for it. *)
Definition leaky (o : obj) : bool :=
  match fst o with
  | K_crtc | K_objprops | K_heap | K_property | K_dumb | K_fb | K_map | K_fd => true
  | _ => false
  end.
Definition leak (g g' : ghost) : Prop :=
  exists X, live g' = X ⊎ live g /\ forall o, o ∈ X -> leaky o = true.

Lemma leak_refl g g' : live g' = live g -> leak g g'.
Proof. intros E. exists ∅. split; [rewrite E; multiset_solver|]. intros o Ho. multiset_solver. Qed.

Lemma leak_more g g' X :
  live g' = X ⊎ live g -> (forall o, o ∈ X -> leaky o = true) -> leak g g'.
Proof. intros. by exists X. Qed.

Lemma leaky_object o x : x ∈ object_res o -> leaky x = true.
Proof.
  unfold object_res. destruct (props o) as [p|]; [|multiset_solver].
  rewrite !gmultiset_elem_of_disj_union, gmultiset_elem_of_singleton. intros [[->|Hx]|Hx]; [done|..].
  - destruct (info_addr o); cbn [opt_res] in Hx; [|multiset_solver].
    by apply gmultiset_elem_of_singleton in Hx as ->.
  - induction (props_info o) as [|[q|] l IH]; cbn [info_res opt_res option_map] in Hx; [multiset_solver|..].
    + apply gmultiset_elem_of_disj_union in Hx as [Hx|Hx]; [by apply gmultiset_elem_of_singleton in Hx as ->|auto].
    + apply gmultiset_elem_of_disj_union in Hx as [Hx|Hx]; [multiset_solver|auto].
Qed.

Lemma no_props_res o : props o = None -> object_res o = ∅.
Proof. unfold object_res. by intros ->. Qed.

Lemma setup_objects_spec fd out g :
  wp (modeset_setup_objects fd out) g (fun '(r, out') g' =>
    (exists cn cr vp op, out' = set_objects out cn cr vp op /\ oid cn = oid (connector out) /\ oid cr = oid (crtc out)) /\
    (r = 0 /\ objects_read out' /\ live g' = objects_res out' ⊎ live g \/ r < 0 /\ leak g g')).
Proof.
  unfold modeset_setup_objects, objects_read, objects_res, object_read. wstep.
  wcall get_properties_spec. intros cn g1 (E1 & O1 & I1).
  destruct (props cn) as [pn|] eqn:Pn.
  2:{ cbn [wp]. rewrite (no_props_res _ Pn) in E1. split; [by eexists _, _, _, _|right]. split; [unfold ENOMEM; lia|].
      apply leak_refl. rewrite E1. multiset_solver. }
  wstep. wcall get_properties_spec. intros cr g2 (E2 & O2 & I2). cbv zeta.
  assert (Rn : object_read cn) by (by split; [rewrite Pn|]).
  destruct (props cr) as [pr|] eqn:Pr.
  2:{ rewrite (no_props_res _ Pr) in E2. wstep.
      wcall (fini_spec cn g2 (live g)); [rewrite E2, E1; multiset_solver|].
      intros _ g3 E3. cbn [wp]. split; [by eexists _, _, _, _|right]. split; [unfold ENOMEM; lia|]. by apply leak_refl. }
  assert (Rr : object_read cr) by (by split; [rewrite Pr|]).
  wstep. wcall get_properties_spec. intros vp g3 (E3 & O3 & I3).
  destruct (props vp) as [pv|] eqn:Pv.
  2:{ rewrite (no_props_res _ Pv) in E3. wstep.
      wcall (fini_spec cr g3 (object_res cn ⊎ live g)); [rewrite E3, E2, E1; multiset_solver|].
      intros _ g4 E4. wstep. wcall (fini_spec cn g4 (live g)). intros _ g5 E5. cbn [wp].
      split; [by eexists _, _, _, _|right]. split; [unfold ENOMEM; lia|]. by apply leak_refl. }
  wstep. wcall get_properties_spec. intros op g4 (E4 & O4 & I4).
  destruct (props op) as [po|] eqn:Po; cbv zeta.
  - cbn [wp]. split; [by eexists _, _, _, _|left]. split; [done|].
    cbn [set_objects connector crtc video_plane osd_plane]. rewrite Pn, Pr, Pv, Po. split; [by repeat split|].
    rewrite E4, E3, E2, E1. multiset_solver.
  - rewrite (no_props_res _ Po) in E4. wstep.
    wcall (fini_spec cr g4 (object_res vp ⊎ object_res cn ⊎ live g)); [rewrite E4, E3, E2, E1; multiset_solver|].
    intros _ g5 E5. wstep. wcall (fini_spec cn g5 (object_res vp ⊎ live g)); [rewrite E5; multiset_solver|].
    intros _ g6 E6. cbn [wp]. split; [by eexists _, _, _, _|right]. split; [unfold ENOMEM; lia|].
    apply (leak_more _ _ _ E6). apply leaky_object.
Qed.

Lemma destroy_objects_spec fd out g L :
  objects_read out -> object_ok (wb_connector out) ->
  live g = objects_res out ⊎ object_res (wb_connector out) ⊎ L ->
  wp (modeset_destroy_objects fd out) g (fun _ g' => live g' = L).
Proof.
  intros (Rn & Rr & Rv & Ro) Hw Hl. unfold modeset_destroy_objects. unfold objects_res in Hl.
  wstep. wcall (fini_spec _ g (object_res (crtc out) ⊎ object_res (video_plane out) ⊎ object_res (osd_plane out)
    ⊎ object_res (wb_connector out) ⊎ L)); [rewrite Hl; multiset_solver|]. intros _ g1 E1.
  wstep. wcall (fini_spec _ g1 (object_res (video_plane out) ⊎ object_res (osd_plane out)
    ⊎ object_res (wb_connector out) ⊎ L)); [rewrite E1; multiset_solver|]. intros _ g2 E2.
  wstep. wcall (fini_spec _ g2 (object_res (osd_plane out) ⊎ object_res (wb_connector out) ⊎ L));
    [rewrite E2; multiset_solver|]. intros _ g3 E3.
  wstep. wcall (fini_spec _ g3 (object_res (wb_connector out) ⊎ L)); [rewrite E3; multiset_solver|]. intros _ g4 E4.
  destruct (props (wb_connector out)) eqn:Pw.
  - apply fini_spec; [by split; [rewrite Pw|]|done].
  - cbn [wp]. rewrite E4, no_props_res by done. multiset_solver.
Qed.

Lemma leaky_bufs bufs x : x ∈ bufs_res fb_res bufs -> leaky x = true.
Proof.
  induction bufs as [|b bufs IH]; cbn [bufs_res]; [multiset_solver|].
  unfold fb_res. rewrite !gmultiset_elem_of_disj_union, !gmultiset_elem_of_singleton. naive_solver.
Qed.

Lemma fb_loop_spec fd w h bufs g :
  wp (fb_loop fd w h bufs) g (fun r g' =>
    (fst r = 0 /\ live g' = bufs_res fb_res (snd r) ⊎ live g /\ Forall (fun b => 0 <= prime_fd b) (snd r) \/
     fst r < 0 /\ leak g g') /\ length (snd r) = length bufs).
Proof.
  revert g. induction bufs as [|b bufs IH]; intros g; cbn [fb_loop].
  { cbn [wp fst snd bufs_res]. split; [|done]. left. split; [done|]. split; [multiset_solver|constructor]. }
  wstep. wcall create_fb_spec. intros [r b'] g1. cbn [fst snd]. intros [(-> & E1 & Hp & _)|[Hr E1]].
  2:{ rewrite (proj2 (Z.eqb_neq r 0)) by lia. cbn [negb wp fst snd]. split; [|done]. right. split; [done|]. by apply leak_refl. }
  cbn [Z.eqb negb]. wstep. wcall IH. intros [r2 bufs'] g2. cbn [fst snd wp bufs_res length].
  intros [[(-> & E2 & Hf)|[Hr Hk]] Hn]; (split; [|by f_equal]).
  - left. split; [done|]. split; [rewrite E2, E1; multiset_solver|by constructor].
  - right. split; [done|]. destruct Hk as (X & E2 & HX). apply (leak_more _ _ (X ⊎ fb_res b')).
    + rewrite E2, E1. multiset_solver.
    + intros o [Ho|Ho]%gmultiset_elem_of_disj_union; [by apply HX|].
      apply (leaky_bufs [b']). cbn [bufs_res]. multiset_solver.
Qed.

Lemma destroy_bufs_spec fd bufs g L :
  live g = bufs_res fb_res bufs ⊎ L -> Forall (fun b => 0 <= prime_fd b) bufs ->
  wp (destroy_bufs fd bufs) g (fun _ g' => live g' = L).
Proof.
  intros Hl Hf. revert g Hl. induction Hf as [|b bufs Hb _ IH]; intros g Hl; cbn [destroy_bufs bufs_res] in *.
  - cbn [wp]. rewrite Hl. multiset_solver.
  - wstep. wcall (destroy_fb_spec fd b g (bufs_res fb_res bufs ⊎ L)); [rewrite Hl; multiset_solver|].
    intros _ g1 E1. by apply IH.
Qed.

(** *** The output *)
Record output_ok (out : modeset_output) : Prop := {
  ok_objects : objects_read out;
  ok_wb : object_ok (wb_connector out);
  ok_bufs : Forall (fun b => 0 <= prime_fd b) (osd_bufs out);
  ok_saved : is_Some (saved_crtc out);
  ok_index : 0 <= crtc_index out < 32
}.

Lemma output_destroy_spec fd p out g L :
  output_ok out ->
  live g = {[+ (K_heap, p) +]} ⊎ {[+ (K_blob, mode_blob_id out) +]} ⊎ objects_res out
           ⊎ object_res (wb_connector out) ⊎ bufs_res fb_res (osd_bufs out) ⊎ L ->
  wp (modeset_output_destroy fd p out) g (fun _ g' => live g' = L).
Proof.
  intros Ho Hl. unfold modeset_output_destroy. wstep.
  wcall (destroy_objects_spec fd out g ({[+ (K_heap, p) +]} ⊎ {[+ (K_blob, mode_blob_id out) +]}
    ⊎ bufs_res fb_res (osd_bufs out) ⊎ L)); [apply Ho|apply Ho|rewrite Hl; multiset_solver|].
  intros _ g1 E1. wstep.
  wcall (destroy_bufs_spec fd _ g1 ({[+ (K_heap, p) +]} ⊎ {[+ (K_blob, mode_blob_id out) +]} ⊎ L));
    [rewrite E1; multiset_solver|apply Ho|].
  intros _ g2 E2. wgo. fields. rewrite E2. multiset_solver.
Qed.

Lemma leak_trans g1 g2 g3 : leak g1 g2 -> leak g2 g3 -> leak g1 g3.
Proof.
  intros (X & E1 & HX) (Y & E2 & HY). apply (leak_more _ _ (Y ⊎ X)).
  - rewrite E2, E1. multiset_solver.
  - intros o [Ho|Ho]%gmultiset_elem_of_disj_union; auto.
Qed.

(** What a refused connector leaves of what was held before: nothing but leaks. *)
Definition refused (L : gmultiset obj) (g : ghost) : Prop :=
  exists X, live g = X ⊎ L /\ forall o, o ∈ X -> leaky o = true.

Lemma refused_app X L g :
  (forall o, o ∈ X -> leaky o = true) -> refused (X ⊎ L) g -> refused L g.
Proof.
  intros HX (Y & E & HY). exists (Y ⊎ X). split; [rewrite E; multiset_solver|].
  intros o [Ho|Ho]%gmultiset_elem_of_disj_union; auto.
Qed.

Lemma refused_leak g0 g L : leak g0 g -> live g0 = L -> refused L g.
Proof. intros (X & E & HX) <-. by exists X. Qed.

Lemma out_blob_spec fd out g L :
  refused ({[+ (K_blob, mode_blob_id out) +]} ⊎ L) g ->
  wp (out_blob fd out) g (fun r g' => r = None /\ refused L g').
Proof.
  intros (X & E & HX). unfold out_blob. wgo; [done|]. exists X. split; [|done]. fields. rewrite E. multiset_solver.
Qed.

Definition same_wb (out out' : modeset_output) : Prop :=
  mode out' = mode out /\ wb_connector out' = wb_connector out /\ wb_available out' = wb_available out /\
  wb_enabled out' = wb_enabled out.

(** The rest of an output is there: its objects, its CRTC and its buffers. *)
Definition completed (L : gmultiset obj) (out : modeset_output) (r : option modeset_output) (g : ghost) : Prop :=
  match r with
  | Some out' => live g = output_res out' ⊎ L /\ output_ok out' /\ same_wb out out'
  | None => refused L g
  end.

Lemma out_blob_completed fd out out0 g L :
  refused ({[+ (K_blob, mode_blob_id out) +]} ⊎ L) g -> wp (out_blob fd out) g (completed L out0).
Proof. intros Hr. wcall (out_blob_spec fd out g L). by intros r g' [-> Hr']. Qed.

Lemma output_buffers_spec fd out saved g L :
  objects_read out -> props (wb_connector out) = None -> saved_crtc out = Some saved -> 0 <= crtc_index out < 32 ->
  live g = {[+ (K_blob, mode_blob_id out) +]} ⊎ {[+ (K_crtc, saved) +]} ⊎ objects_res out ⊎ L ->
  wp (output_buffers fd out) g (completed L out).
Proof.
  intros Ho Hw Hs Hi Hl. unfold output_buffers, modeset_setup_framebuffers.
  assert (Ow : object_ok (wb_connector out)) by (unfold object_ok; by rewrite Hw).
  wstep. wstep. wcall fb_loop_spec. intros [r bufs] g1. cbn [fst snd]. intros [Hb _]. cbn [wp fst snd].
  destruct Hb as [(-> & E1 & Hb)|(Hr & X & E1 & HX)].
  - cbn [Z.eqb negb].
    wgo; apply post_assert; intros _; wgo; apply post_assert; intros _; cbn [wp completed]; unfold output_res;
      cbn [set_requests set_bufs mode_blob_id saved_crtc wb_connector osd_bufs video_request osd_request];
      rewrite Hs, (no_props_res _ Hw); (split; [fields; rewrite E1, Hl; unfold objects_res;
        cbn [set_requests set_bufs connector crtc video_plane osd_plane]; multiset_solver|]);
      (split; [constructor; cbn [set_requests set_bufs]; done || by rewrite Hs|done]).
  - rewrite (proj2 (Z.eqb_neq r 0)) by lia. cbn [negb]. wstep.
    wcall (destroy_objects_spec _ _ g1 (X ⊎ {[+ (K_crtc, saved) +]} ⊎ {[+ (K_blob, mode_blob_id out) +]} ⊎ L)).
    + cbn [set_bufs wb_connector]. rewrite (no_props_res _ Hw), E1, Hl. unfold objects_res.
      cbn [set_bufs connector crtc video_plane osd_plane]. multiset_solver.
    + intros _ g2 E2. apply out_blob_completed. cbn [set_bufs mode_blob_id].
      exists (X ⊎ {[+ (K_crtc, saved) +]}). split; [rewrite E2; multiset_solver|].
      intros o [Hx|Hy]%gmultiset_elem_of_disj_union; [auto|by apply gmultiset_elem_of_singleton in Hy as ->].
Qed.

Lemma output_planes_spec fd out saved g L :
  props (wb_connector out) = None -> saved_crtc out = Some saved -> 0 <= crtc_index out < 32 ->
  live g = {[+ (K_blob, mode_blob_id out) +]} ⊎ {[+ (K_crtc, saved) +]} ⊎ L ->
  wp (output_planes fd out) g (completed L out).
Proof.
  intros Hw Hs Hi Hl. unfold output_planes. cbv zeta.
  assert (Hc : forall X h, live h = X ⊎ live g -> (forall o, o ∈ X -> leaky o = true) ->
                 refused ({[+ (K_blob, mode_blob_id out) +]} ⊎ L) h).
  { intros X h Eh HX. apply (refused_app {[+ (K_crtc, saved) +]}).
    - intros o Ho. by apply gmultiset_elem_of_singleton in Ho as ->.
    - exists X. split; [rewrite Eh, Hl; multiset_solver|done]. }
  assert (Hn : forall h, live h = live g -> refused ({[+ (K_blob, mode_blob_id out) +]} ⊎ L) h).
  { intros h Eh. apply (Hc ∅); [rewrite Eh; multiset_solver|]. intros o Ho. multiset_solver. }
  wstep. wcall find_plane_spec; [lia|]. intros [r vp] g1. cbn [fst snd]. intros (E1 & _ & _).
  destruct (Z.eqb_spec r 0); cbn [negb]; [|apply out_blob_completed; auto].
  cbn [set_objects crtc_index osd_plane connector crtc video_plane]. wstep.
  wcall find_plane_spec; [lia|]. intros [r2 op] g2. cbn [fst snd]. intros (E2 & _ & _). rewrite E1 in E2.
  destruct (Z.eqb_spec r2 0); cbn [negb]; [|apply out_blob_completed; auto].
  wstep. wcall setup_objects_spec. intros [r3 out3] g3. cbn [fst snd]. intros [(cn & cr & vp' & op' & -> & _) Hr].
  destruct Hr as [(-> & Ho & E3)|(Hr & X & E3 & HX)].
  - cbn [Z.eqb negb]. wcall (output_buffers_spec fd _ saved g3 L); [done..| |done].
    cbn [set_objects mode_blob_id]. rewrite E3, E2, Hl. multiset_solver.
  - rewrite (proj2 (Z.eqb_neq r3 0)) by lia. cbn [negb]. apply out_blob_completed.
    cbn [set_objects mode_blob_id]. apply (Hc X); [by rewrite E3, E2|done].
Qed.

Lemma output_resources_spec fd res conn out g L :
  zlen (crtcs res) <= 32 -> crtc_index out = 0 -> props (wb_connector out) = None ->
  live g = {[+ (K_blob, mode_blob_id out) +]} ⊎ L ->
  wp (output_resources fd res conn out) g (completed L out).
Proof.
  intros Hc Hi Hw Hl. unfold output_resources.
  wstep. wcall find_crtc_spec; [lia|]. intros [r out1] g1. cbn [fst snd].
  intros [(-> & (c & saved & idx & -> & Hidx) & E1)|(Hr & -> & E1)].
  - cbn [Z.eqb negb]. wcall (output_planes_spec fd _ saved g1 L); [done..| |done].
    cbn [set_crtc saved_crtc opt_res mode_blob_id] in *. rewrite E1, Hl. multiset_solver.
  - rewrite (proj2 (Z.eqb_neq r 0)) by lia. cbn [negb]. apply out_blob_completed.
    exists ∅. split; [rewrite E1, Hl; multiset_solver|]. intros o Ho. multiset_solver.
Qed.

(** ** Choosing a mode stays inside the list *)
Lemma best_mode_index ms r i best j :
  best_mode_loop ms r i best = Ret j -> 0 <= i -> -1 <= fst (fst (fst best)) < i ->
  -1 <= fst (fst (fst j)) < i + zlen ms.
Proof.
  revert i best. induction ms as [|m ms IH]; intros i [[[b w] h] rf] Hr Hi Hb; cbn [best_mode_loop fst] in *.
  { injection Hr as <-. cbn [fst]. change (zlen (A:=drmModeModeInfo) []) with 0. lia. }
  rewrite zlen_cons. replace (i + (1 + zlen ms)) with ((i + 1) + zlen ms) by lia.
  repeat (case_match; [eapply IH; [exact Hr|lia|cbn [fst]; lia]|]).
  destruct (c_int _); [|done]. cbn [obind] in Hr.
  case_match; (eapply IH; [exact Hr|lia|cbn [fst]; lia]).
Qed.

Lemma best_mode_total ms r i best :
  Forall mode_ok ms -> exists j, best_mode_loop ms r i best = Ret j.
Proof.
  intros Hm. revert i best. induction Hm as [|m ms (Hw & Hh & _) _ IH]; intros i best; cbn [best_mode_loop]; [by eexists|].
  destruct ((1920 <? hdisplay m) || (1080 <? vdisplay m)) eqn:E; [apply IH|]. cbool.
  repeat (case_match; [apply IH|]). destruct best as [[[b w] h] rf]. unfold c_int.
  rewrite (proj2 (Z.leb_le _ _)), (proj2 (Z.ltb_lt _ _)) by nia. cbn [andb obind]. case_match; apply IH.
Qed.

Lemma exact_mode_index ms w h r i fc pf a b :
  exact_mode_loop ms w h r i fc pf = (a, b) -> 0 <= i -> -1 <= fc < i -> -1 <= pf < i ->
  -1 <= a < i + zlen ms /\ -1 <= b < i + zlen ms.
Proof.
  revert i fc pf. induction ms as [|m ms IH]; intros i fc pf Hr Hi Hf Hp; cbn [exact_mode_loop] in Hr.
  { injection Hr as <- <-. change (zlen (A:=drmModeModeInfo) []) with 0. lia. }
  rewrite zlen_cons. replace (i + (1 + zlen ms)) with ((i + 1) + zlen ms) by lia.
  repeat case_match; (eapply IH; [exact Hr|lia..]).
Qed.

Lemma choose_mode_ok conn w h r rate :
  connector_ok conn -> 0 < zlen (modes conn) ->
  exists fc, choose_mode conn w h r rate = Ret fc /\ forall i, fc = Some i -> 0 <= i < zlen (modes conn).
Proof.
  intros Hc Hn. unfold choose_mode, select_best_mode.
  assert (Hb : forall d, exists i, (do* (b, _, _, _) <- best_mode_loop (modes conn) d 0 (-1, 0, 0, 0) ;; Ret b) = Ret i
                /\ -1 <= i < zlen (modes conn)).
  { intros d. destruct (best_mode_total (modes conn) d 0 (-1, 0, 0, 0) Hc) as [[[[b ?] ?] ?] E]. rewrite E.
    exists b. split; [done|]. apply best_mode_index in E; cbn [fst] in *; lia. }
  destruct (_ && _ && _).
  { destruct (exact_mode_loop _ _ _ _ _ _ _) as [a b] eqn:E.
    apply exact_mode_index in E as Hi; [|lia..]. eexists. split; [done|].
    destruct (Z.ltb_spec a 0), (Z.ltb_spec b 0); intros i [= <-]; lia. }
  repeat case_match.
  - destruct (Hb rate) as (i & -> & Hi). cbn [obind]. eexists. split; [done|]. intros j [= <-]. case_match; cbool; lia.
  - destruct (Hb 0) as (i & -> & Hi). cbn [obind]. eexists. split; [done|]. intros j [= <-]. case_match; cbool; lia.
  - eexists. split; [done|]. intros j [= <-]. lia.
Qed.

(** An output was made of a mode of the connector, or what was held before is still
    held, with leaks. *)
Definition created (ms : list drmModeModeInfo) (L : gmultiset obj) (o : option (Z * modeset_output)) (g : ghost) : Prop :=
  match o with
  | Some (p, out) => live g = {[+ (K_heap, p) +]} ⊎ output_res out ⊎ L /\ output_ok out /\
      mode out ∈ ms /\ props (wb_connector out) = None /\ wb_available out = false /\ wb_enabled out = false
  | None => refused L g
  end.

Lemma output_create_spec fd res conn w h r rate g L :
  zlen (crtcs res) <= 32 -> connector_ok conn -> live g = L ->
  wp (modeset_output_create fd res conn w h r rate) g (created (modes conn) L).
Proof.
  intros Hc Hm Hl. unfold modeset_output_create. wstep. intros p _. cbv zeta.
  assert (Herr : forall g' : ghost, refused ({[+ (K_heap, p) +]} ⊎ L) g' ->
            wp (run! c_free (Some p) ;; Done None) g' (created (modes conn) L)).
  { intros g' (X & E & HX). wgo. exists X. split; [|done]. fields. rewrite E. multiset_solver. }
  assert (Hr0 : forall g' : ghost, live g' = live (grow K_heap p g) -> refused ({[+ (K_heap, p) +]} ⊎ L) g').
  { intros g' E. exists ∅. split; [rewrite E, <- Hl; mset|]. intros o Ho. multiset_solver. }
  destruct (negb (connection conn =? _)); [by apply Herr, Hr0|].
  destruct (Z.eqb_spec (zlen (modes conn)) 0); [by apply Herr, Hr0|]. pose proof (zlen_nonneg (modes conn)).
  destruct (choose_mode_ok conn w h r rate Hm) as (fc & -> & Hfc); [lia|]. cbn [lift io_bind].
  destruct fc as [fc|]; [|by apply Herr, Hr0]. specialize (Hfc fc eq_refl).
  wstep. wstep. apply post_rd; [done|]. intros m Em. wstep. split; [intros e _; by apply Herr, Hr0|].
  intros blob _. wstep. wcall (output_resources_spec _ _ _ _ _ ({[+ (K_heap, p) +]} ⊎ L)).
  - done.
  - done.
  - cbn [set_mode mode_blob_id]. fields. by rewrite Hl.
  - intros [out'|] g'; cbn [completed wp created]; [|by apply Herr]. intros (E & Ho & Em' & Ew & Ea & Ee).
    split; [rewrite E; multiset_solver|]. split; [done|]. rewrite Em', Ew, Ea, Ee. cbn [set_mode mode].
    split; [by apply (list_elem_of_lookup_2 _ _ _ Em)|done].
Qed.

(** ** Atomic requests *)
Lemma set_properties_spec req l g :
  Forall (fun p => object_read (fst (fst p))) l -> (K_request, req) ∈ live g ->
  wp (set_properties (Some req) l) g (fun _ g' => live g' = live g).
Proof.
  intros Hl. revert g. induction Hl as [|[[o name] v] l Ho _ IH]; intros g Hr; cbn [set_properties]; [done|].
  wstep. wcall set_property_spec. intros r g1 E1. destruct (r <? 0); [done|].
  wcall IH; [by rewrite E1|]. intros ok g2 ->. done.
Qed.

(** What a commit reads is there. *)
Definition commit_ok (out : modeset_output) (plane : drm_object) : Prop :=
  object_read (connector out) /\ object_read (crtc out) /\ object_read plane /\
  (wb_enabled out = true -> object_read (wb_connector out)).

Lemma prepare_commit_spec `{Fpu} out req plane fb_id w h zpos stretch g :
  commit_ok out plane -> (K_request, req) ∈ live g ->
  wp (modeset_atomic_prepare_commit out (Some req) plane fb_id w h zpos stretch) g (fun _ g' => live g' = live g).
Proof.
  intros (Hn & Hc & Hp & Hw) Hr. unfold modeset_atomic_prepare_commit, commit_properties.
  destruct (picture_rect _ _ _ _) as [[[x y] cw] ch]. wstep. wcall set_properties_spec; [|by intros].
  destruct (wb_enabled out); cbn [app]; each_read.
Qed.

Lemma perform_modeset_spec `{Fpu} fd out req plane fb_id w h zpos stretch g :
  commit_ok out plane -> (K_request, req) ∈ live g ->
  wp (modeset_perform_modeset fd out (Some req) plane fb_id w h zpos stretch) g (fun _ g' => live g' = live g).
Proof.
  intros Hc Hr. unfold modeset_perform_modeset. wstep. wcall prepare_commit_spec. intros r g1 E1.
  destruct (r <? 0); [done|]. wstep. rewrite E1. split; [done|]. intros r2 _. destruct (r2 <? 0); [done|].
  unfold trigger. wstep. rewrite E1. by split.
Qed.
End Owners.
