(* ===== verification/DrmDisplay.v ===== *)
(** The writeback connector, and the session of src/src/main.cpp: from the output to
    the clean-up nothing stays behind. *)

From Stdlib Require Import String.
From stdpp Require Import gmultiset.
From S2P Require Import Prelude Free CDouble Drm DrmSpec DrmDevice DrmProps.

Section Writeback.
Context `{Build}.
Implicit Types (g : ghost) (L : gmultiset obj).

Lemma encoder_drives_spec fd encs index g :
  index < 32 -> wp (encoder_drives fd encs index) g (fun _ g' => live g' = live g).
Proof.
  intros Hi. revert g. induction encs as [|e encs IH]; intros g; cbn [encoder_drives]; wgo; [done|apply IH|].
  unfold has_bit. zif. cbn [post]. wgo. case_match; [mset|]. wcall IH. intros ? g' ->. mset.
Qed.

Lemma advertises_spec fd b g : wp (advertises_nv12 fd b) g (fun _ g' => live g' = live g).
Proof. unfold advertises_nv12. case_match; [|done]. wgo; [done|]. cbv zeta. wgo. mset. Qed.

(** The object of a candidate: read and owned when it is usable, without properties
    when it is not. *)
Definition candidate L (r : bool * drm_object) (g : ghost) : Prop :=
  live g = object_res (snd r) ⊎ L /\ if fst r then object_read (snd r) else props (snd r) = None.

Lemma rejected L o g : props o = None -> live g = L -> candidate L (false, o) g.
Proof. intros Ho Hl. split; [|done]. cbn [snd]. rewrite (no_props_res _ Ho), Hl. multiset_solver. Qed.

Lemma drop_candidate L o g :
  object_read o -> live g = object_res o ⊎ L ->
  wp (let! _u <- modeset_drm_object_fini o ;; Done (false, no_props o)) g (candidate L).
Proof. intros Ho Hl. wstep. wcall (fini_spec o g L). intros _ g' E. by apply rejected. Qed.

Lemma try_writeback_spec fd conn index o g L :
  index < 32 -> props o = None -> live g = L -> wp (try_writeback fd conn index o) g (candidate L).
Proof.
  intros Hi Ho Hl. unfold try_writeback. case_match; [by apply rejected|].
  wstep. wcall encoder_drives_spec. intros ok g1 E1. rewrite Hl in E1. case_match; [by apply rejected|].
  wstep. wcall get_properties_spec. intros o2 g2 (E2 & O2 & _). rewrite E1 in E2.
  destruct (props o2) as [p|] eqn:P2; [|apply rejected; [done|]; rewrite E2, (no_props_res _ P2); multiset_solver].
  assert (R2 : object_read o2) by (by split; [rewrite P2|]).
  wstep. wcall get_value_spec; [done|]. intros fbp g3 E3. wstep. wcall get_value_spec; [done|]. intros fp g4 E4.
  wstep. wcall get_value_spec; [done|]. intros fm g5 E5. rewrite E4, E3, E2 in E5.
  case_match; [by apply drop_candidate|]. wstep. wcall advertises_spec. intros nv g6 E6. rewrite E5 in E6.
  case_match; [by apply drop_candidate|]. by split.
Qed.

Lemma writeback_loop_spec fd ids index o g L :
  index < 32 -> props o = None -> live g = L -> wp (writeback_loop fd ids index o) g (candidate L).
Proof.
  intros Hi. revert o g. induction ids as [|id ids IH]; intros o g Ho Hl; cbn [writeback_loop]; [by apply rejected|].
  wstep. split; [by apply IH|]. intros a conn _ _. cbn [deref addr]. wstep.
  wcall (try_writeback_spec _ _ _ _ _ ({[+ (K_connector, a) +]} ⊎ L)); [fields; by rewrite Hl|].
  intros [[] o'] g1 [E1 H1]; cbn [fst snd] in *; wgo; [split; [|done]; cbn [snd]|apply IH; [done|]]; fields; rewrite E1;
    [|rewrite (no_props_res _ H1)]; multiset_solver.
Qed.

(** The output with the state of its writeback connector: read when it is available,
    attached only when it is available. *)
Definition wb_state (out : modeset_output) : Prop :=
  (if wb_available out then object_read (wb_connector out) else props (wb_connector out) = None) /\
  (wb_enabled out = true -> wb_available out = true).

Lemma wb_state_read out : wb_state out -> wb_available out = true -> object_read (wb_connector out).
Proof. intros [Ho _] Ha. by rewrite Ha in Ho. Qed.

Lemma wb_state_ok out : wb_state out -> object_ok (wb_connector out).
Proof.
  intros [Ho _]. destruct (wb_available out); [by destruct Ho|]. unfold object_ok. by rewrite Ho.
Qed.

(** Only the writeback members differ. *)
Definition wb_only (out out' : modeset_output) : Prop :=
  exists o a e, out' = set_wb out o a e.

Lemma wb_only_trans out1 out2 out3 : wb_only out1 out2 -> wb_only out2 out3 -> wb_only out1 out3.
Proof. intros (o & a & e & ->) (o' & a' & e' & ->). by exists o', a', e'. Qed.

Lemma find_writeback_spec fd out g L :
  crtc_index out < 32 -> props (wb_connector out) = None -> live g = L ->
  wp (modeset_find_writeback fd out) g (fun '(r, out') g' =>
    live g' = object_res (wb_connector out') ⊎ L /\ wb_only out out' /\ wb_state out' /\ wb_enabled out' = false /\
    (r = 0 <-> wb_available out' = true)).
Proof.
  intros Hi Ho Hl. unfold modeset_find_writeback. cbv zeta. wstep. split.
  - cbn [wp]. split; [cbn [set_wb wb_connector]; rewrite (no_props_res _) by done; rewrite Hl; multiset_solver|].
    split; [by eexists _, _, _|]. split; [by split|]. split; [done|]. by unfold ENOENT.
  - intros a res _ _. cbn [deref addr]. wstep.
    wcall (writeback_loop_spec _ _ _ _ _ ({[+ (K_resources, a) +]} ⊎ L)); [done|fields; by rewrite Hl|].
    intros [b o] g1 [E1 H1]. cbn [fst snd] in *. wgo.
    + cbn [set_wb wb_connector]. fields. rewrite E1. multiset_solver.
    + by eexists _, _, _.
    + split; [by destruct b|done].
    + done.
    + by destruct b.
Qed.

(** ** Attaching, arming, checking *)
Lemma commit_ok_plane out plane : objects_read out -> wb_state out -> object_read plane -> commit_ok out plane.
Proof.
  intros (Hn & Hc & _) Hw Hp. split; [done|]. split; [done|]. split; [done|].
  intros He. by apply wb_state_read, Hw.
Qed.

(** [enable_wb] keeps the rest. *)
Lemma enable_state out b : wb_state out -> (b = true -> wb_available out = true) -> wb_state (enable_wb out b).
Proof. intros [Ho _] Hb. by split. Qed.

Lemma objects_enable out b : objects_read (enable_wb out b) <-> objects_read out.
Proof. done. Qed.

Section Commits.
Context `{Fpu}.

Lemma attach_spec fd out stretch g :
  objects_read out -> wb_state out ->
  wp (modeset_attach_writeback fd out stretch) g (fun '(r, out') g' =>
    live g' = live g /\ exists b, out' = enable_wb out b /\ wb_state out').
Proof.
  intros Ho Hw. pose proof Ho as (_ & _ & _ & Hosd). unfold modeset_attach_writeback.
  assert (Hsame : out = enable_wb out (wb_enabled out)) by by destruct out.
  destruct (wb_available out) eqn:Ha; cbn [negb]; [|by split; [|exists (wb_enabled out)]].
  destruct (wb_enabled out) eqn:He; [by split; [|exists true]|]. cbv zeta.
  assert (Hs : forall b, wb_state (enable_wb out b)) by (intros b; by apply enable_state).
  pose proof (Hs true). pose proof (Hs false).
  wstep. split; [split; [done|by exists false]|]. intros req _. wstep.
  wcall get_value_spec; [apply Hosd|]. intros zpos g1 E1. wstep. fields.
  wcall perform_modeset_spec; [by apply commit_ok_plane|rewrite E1; multiset_solver|].
  intros r g2 E2. rewrite E1 in E2. wgo.
  destruct (r <? 0); (split; [fields; rewrite E2; multiset_solver|]); [by exists false|by exists true].
Qed.

Lemma detach_spec fd out g :
  wb_state out ->
  wp (modeset_detach_writeback fd out) g (fun out' g' =>
    live g' = live g /\ exists b, out' = enable_wb out b /\ wb_state out').
Proof.
  intros Hw. unfold modeset_detach_writeback.
  assert (Hsame : out = enable_wb out (wb_enabled out)) by by destruct out.
  destruct (wb_available out) eqn:Ha; cbn [negb]; [|by split; [|exists (wb_enabled out)]]. cbv zeta.
  assert (Hs : exists b, enable_wb out false = enable_wb out b /\ wb_state (enable_wb out false)).
  { exists false. split; [done|]. by apply enable_state. }
  wstep. split; [by split|]. intros req _. wstep. cbn [enable_wb set_wb wb_connector]. fields.
  wcall set_property_spec; [by apply wb_state_read|multiset_solver|]. intros r g1 E1. fields.
  wstep. destruct (0 <? r); wgo; first [done|fields; rewrite E1; multiset_solver].
Qed.

Lemma arm_spec out req wb_fb fence g :
  wb_state out -> (K_request, req) ∈ live g ->
  wp (modeset_arm_writeback out (Some req) wb_fb fence) g (fun _ g' => live g' = live g).
Proof.
  intros Hw Hr. unfold modeset_arm_writeback. destruct (wb_enabled out) eqn:He; [|done]. cbn [negb].
  assert (Ho : object_read (wb_connector out)) by by apply wb_state_read, Hw.
  wstep. wcall set_properties_spec; [|by intros]. each_read.
Qed.

(** The end of both halves of the check: the request is given back. *)
Lemma free_request {A} (req : Z) (r : A) g L :
  live g = {[+ (K_request, req) +]} ⊎ L ->
  wp (run! drmModeAtomicFree (Some req) ;; Done r) g (fun _ g' => live g' = L).
Proof. intros Hl. wgo. fields. rewrite Hl. multiset_solver. Qed.

Lemma check_spec fd out wb_fb fence g :
  objects_read out -> wb_state out ->
  wp (modeset_check_writeback fd out wb_fb fence) g (fun _ g' => live g' = live g).
Proof.
  intros (_ & _ & _ & Hosd) Hw. unfold modeset_check_writeback. cbv zeta.
  wstep. split; [done|]. intros req _. wstep. fields.
  wcall set_property_spec; [multiset_solver|]. intros r g1 E1. fields.
  destruct (r <? 0); [by apply free_request|]. wstep. rewrite E1. split; [multiset_solver|]. intros ret _.
  split; [multiset_solver|]. assert (Ef : live (shrink K_request req g1) = live g).
  { fields. rewrite E1. multiset_solver. }
  destruct (ret <? 0); [done|]. wstep. split; [done|]. intros req2 _. wstep.
  wcall set_property_spec; [mset|]. intros r2 g2 E2. cbn [live grow] in E2. rewrite Ef in E2. wstep.
  assert (Hend : forall bad g3, live g3 = live g2 ->
    wp (if bad : bool then run! drmModeAtomicFree (Some req2) ;; Done (- EINVAL)
        else get! ret <- drmModeAtomicCommit fd (Some req2) DRM_MODE_ATOMIC_TEST_ONLY ;;
             run! drmModeAtomicFree (Some req2) ;; Done (if ret <? 0 then ret else 0)) g3
       (fun _ g' => live g' = live g)).
  { intros bad g3 E3. rewrite E2 in E3. destruct bad; [by apply free_request|].
    wstep. rewrite E3. split; [multiset_solver|]. intros ret2 _.
    split; [multiset_solver|]. wgo. fields. rewrite E3. multiset_solver. }
  destruct (r2 <? 0); [by apply Hend|]. wstep. wcall arm_spec; [rewrite E2; multiset_solver|].
  intros r3 g3 E3. by apply Hend.
Qed.
End Commits.
End Writeback.

(** ** The buffers of main.cpp *)
Section Session.
Context `{Build} `{Fpu}.
Implicit Types (g : ghost) (L : gmultiset obj).

Definition wb_made (b : modeset_buf) : Prop := 0 <= prime_fd b /\ 0 < fb b /\ 0 < handle b.

Lemma free_wb_bufs_spec fd n bufs g L :
  live g = bufs_res wb_res (take n bufs) ⊎ L -> Forall wb_made (take n bufs) ->
  wp (free_wb_bufs fd n bufs) g (fun _ g' => live g' = L).
Proof.
  revert bufs g. induction n as [|n IH]; intros [|b bufs] g Hl Hm; cbn [take bufs_res free_wb_bufs wp] in *;
    try (rewrite Hl; multiset_solver).
  inversion Hm as [|? ? (Hp & Hf & Hh) Hm']; subst. wstep.
  wcall (destroy_wb_fb_spec fd b g (bufs_res wb_res (take n bufs) ⊎ L)); [rewrite Hl; multiset_solver|].
  intros b' g1 E1. wstep. wcall (IH bufs g1). by intros.
Qed.

Lemma create_wb_bufs_spec fd w h bufs g :
  wp (create_wb_bufs fd w h bufs) g (fun '(ok, n, bufs') g' =>
    live g' = bufs_res wb_res (take n bufs') ⊎ live g /\ Forall wb_made (take n bufs') /\
    (ok = true -> n = length bufs')).
Proof.
  revert g. induction bufs as [|b bufs IH]; intros g; cbn [create_wb_bufs].
  { cbn [wp take bufs_res]. split; [multiset_solver|]. by split. }
  wstep. wcall create_wb_fb_spec. intros [r b'] g1. cbn [fst snd]. intros [(-> & E1 & Hp & Hf & Hh)|[Hr E1]].
  - cbn [Z.eqb negb]. wstep. wcall IH. intros [[ok n] bufs'] g2 (E2 & Hm & Hn). cbn [wp fst snd take bufs_res length].
    split; [rewrite E2, E1; multiset_solver|]. split; [by constructor|]. intros Hok. by rewrite (Hn Hok).
  - rewrite (proj2 (Z.eqb_neq r 0)) by lia. cbn [negb wp take bufs_res].
    split; [rewrite E1; multiset_solver|]. by split.
Qed.

(** ** What the display owns between its set-up and its clean-up *)
Record shown (L : gmultiset obj) (d : display) (p : Z) (out : modeset_output) (g : ghost) : Prop := {
  sh_list : output_list d = Some (p, out);
  sh_live : live g = {[+ (K_heap, p) +]} ⊎ output_res out ⊎
                     (if wb_bufs_ready d then bufs_res wb_res (wb_bufs d) else ∅) ⊎ L;
  sh_out : output_ok out;
  sh_wb : wb_state out;
  sh_made : wb_bufs_ready d = true -> Forall wb_made (wb_bufs d)
}.
Definition on_show (L : gmultiset obj) (d : display) (g : ghost) : Prop := exists p out, shown L d p out g.

Lemma output_res_wb out o a e :
  props (wb_connector out) = None -> output_res (set_wb out o a e) = object_res o ⊎ output_res out.
Proof.
  intros Ho. unfold output_res, objects_res. cbn. rewrite (no_props_res _ Ho). multiset_solver.
Qed.

Lemma output_ok_wb out o a e : output_ok out -> object_ok o -> output_ok (set_wb out o a e).
Proof. intros [Ho _ Hb Hs Hi] Hok. by constructor. Qed.

(** A failure of the set-up of the writeback connector, with its buffers gone. *)
Lemma not_shown L d p out bufs g :
  live g = {[+ (K_heap, p) +]} ⊎ output_res out ⊎ L -> output_ok out -> wb_state out -> wb_bufs_ready d = false ->
  on_show L (set_display d p out bufs (wb_bufs_ready d)) g.
Proof.
  intros Hl Ho Hw Hr. exists p, out. constructor; cbn [set_display output_list wb_bufs_ready]; try done; rewrite Hr.
  - rewrite Hl. multiset_solver.
  - done.
Qed.

Lemma setup_writeback_spec d p out stretch fence g L :
  output_list d = Some (p, out) -> wb_bufs_ready d = false -> output_ok out ->
  props (wb_connector out) = None -> live g = {[+ (K_heap, p) +]} ⊎ output_res out ⊎ L ->
  wp (setup_writeback d stretch fence) g (fun '(_, d') g' => on_show L d' g' /\ drm_fd d' = drm_fd d).
Proof.
  intros Hd Hr Ho Hw Hl. unfold setup_writeback. rewrite Hd. cbv zeta. wstep.
  wcall find_writeback_spec; [exact (proj2 (ok_index _ Ho))|]. intros [r out1] g1 (E1 & (o & a & e & ->) & Hs & _ & _).
  pose proof (output_ok_wb out o a e Ho (wb_state_ok _ Hs)) as Ho1. cbn [fst snd set_wb wb_connector] in *.
  assert (El : live g1 = {[+ (K_heap, p) +]} ⊎ output_res (set_wb out o a e) ⊎ L).
  { rewrite E1, output_res_wb by done. multiset_solver. }
  set (out1 := set_wb out o a e) in *. clearbody out1. clear E1 Hl Ho Hw.
  case_match; [split; [by apply not_shown|done]|]. wstep.
  wcall create_wb_bufs_spec. intros [[ok n] bufs] g2 (E2 & Hm & Hn). cbn [fst snd]. rewrite El in E2.
  destruct ok; cbn [negb].
  2:{ wstep. wcall (free_wb_bufs_spec _ n bufs g2). intros bufs' g3 E3. split; [by apply not_shown|done]. }
  rewrite (Hn eq_refl), firstn_all in E2, Hm. wstep.
  wcall attach_spec; [apply Ho1|]. intros [r2 out2] g3 (E3 & b & -> & Hs2). cbn [fst snd]. rewrite E2 in E3.
  assert (Hfree : forall b g0, live g0 = bufs_res wb_res bufs ⊎ ({[+ (K_heap, p) +]} ⊎ output_res out1 ⊎ L) ->
    wb_state (enable_wb out1 b) ->
    wp (let! bufs <- free_wb_bufs (drm_fd d) (length bufs) bufs ;;
        Done (false, set_display d p (enable_wb out1 b) bufs (wb_bufs_ready d))) g0
       (fun '(_, d') g' => on_show L d' g' /\ drm_fd d' = drm_fd d)).
  { intros b0 g0 E0 Hb0. wstep. wcall (free_wb_bufs_spec _ (length bufs) bufs g0); [by rewrite firstn_all..|].
    intros bufs' g4 E4. split; [|done]. apply not_shown; try done. by apply output_ok_wb, wb_state_ok. }
  case_match; [by apply Hfree|]. wstep. wcall check_spec; [apply Ho1|]. intros r3 g4 E4. rewrite E3 in E4.
  case_match.
  - wstep. wcall detach_spec. intros out3 g5 (E5 & b' & -> & Hs3). apply (Hfree b'); [by rewrite E5|done].
  - cbn [wp]. split; [|done]. exists p, (enable_wb out1 b).
    constructor; cbn [set_display output_list wb_bufs_ready wb_bufs]; try done.
    + rewrite E4. change (output_res (enable_wb out1 b)) with (output_res out1). multiset_solver.
    + by apply output_ok_wb, wb_state_ok.
Qed.

(** ** The clean-up *)
Lemma cleanup_writeback_spec d p out g L :
  shown L d p out g ->
  wp (cleanup_writeback d p out) g (fun '(d', out') g' =>
    drm_fd d' = drm_fd d /\ output_ok out' /\ wb_state out' /\
    live g' = {[+ (K_heap, p) +]} ⊎ output_res out' ⊎ L).
Proof.
  intros [Hd Hl Ho Hw Hm]. unfold cleanup_writeback. destruct (wb_bufs_ready d); cbn [negb].
  2:{ cbn [wp]. split; [done|]. split; [done|]. split; [done|]. rewrite Hl. multiset_solver. }
  wstep. wcall detach_spec. intros out' g1 (E1 & b & -> & Hs). wstep.
  wcall (free_wb_bufs_spec _ _ _ g1 ({[+ (K_heap, p) +]} ⊎ output_res out ⊎ L)).
  - rewrite firstn_all, E1, Hl. multiset_solver.
  - rewrite firstn_all. by apply Hm.
  - intros bufs g2 E2. cbn [wp set_display drm_fd]. split; [done|].
    split; [by apply output_ok_wb, wb_state_ok|]. by split.
Qed.

Lemma restore_plane_spec fd out req plane g :
  objects_read out -> wb_state out -> object_read plane -> (K_request, req) ∈ live g ->
  wp (restore_plane fd out (Some req) plane) g (fun _ g' => live g' = live g).
Proof.
  intros Ho Hw Hp Hr. unfold restore_plane. cbv zeta. wstep. wcall get_value_spec; [apply Hp|]. intros z g1 E1.
  wstep. wcall prepare_commit_spec; [by apply commit_ok_plane|by rewrite E1|]. intros r g2 E2. rewrite E1 in E2.
  destruct (r <? 0); [done|]. wstep. rewrite E2. by split.
Qed.

(** What an output owns besides its two requests. *)
Definition held_res (out : modeset_output) : gmultiset obj :=
  {[+ (K_blob, mode_blob_id out) +]} ⊎ opt_res K_crtc (saved_crtc out) ⊎ objects_res out ⊎
  object_res (wb_connector out) ⊎ bufs_res fb_res (osd_bufs out).

Lemma output_res_held out :
  output_res out = opt_res K_request (video_request out) ⊎ opt_res K_request (osd_request out) ⊎ held_res out.
Proof. unfold output_res, held_res. multiset_solver. Qed.

Lemma output_ok_requests out o v : output_ok out -> output_ok (set_requests out o v).
Proof. intros []. by constructor. Qed.

Lemma wp_free_request {A} req (k : io A) g L Q :
  live g = opt_res K_request req ⊎ L -> (forall g', live g' = L -> wp k g' Q) ->
  wp (run! drmModeAtomicFree req ;; k) g Q.
Proof.
  intros Hl HQ. destruct req; wgo; apply HQ; fields; rewrite Hl; multiset_solver.
Qed.

Lemma wp_request {A} (k : option Z -> io A) g Q :
  (forall req g', live g' = opt_res K_request req ⊎ live g -> wp (k req) g' Q) ->
  wp (Call drmModeAtomicAlloc k) g Q.
Proof. intros HQ. wgo; apply HQ; mset. Qed.

Lemma restore_both_spec fd out g L :
  objects_read out -> wb_state out ->
  live g = opt_res K_request (video_request out) ⊎ opt_res K_request (osd_request out) ⊎ L ->
  wp (restore_both fd out) g (fun _ g' => live g' = live g).
Proof.
  intros Ho Hw Hl. pose proof Ho as (_ & _ & Hv & Hp). unfold restore_both.
  destruct (osd_request out) as [osd|]; [|done]. destruct (video_request out) as [video|]; [|done].
  cbn [opt_res] in Hl. wstep. wcall restore_plane_spec; [rewrite Hl; multiset_solver|]. intros ok g1 E1.
  destruct ok; [|done]. cbn [negb]. wstep. wcall restore_plane_spec; [rewrite E1, Hl; multiset_solver|].
  intros ok g2 E2. cbn [wp]. congruence.
Qed.

(** The requests are new, or missing; the rest is as it was. *)
Lemma restore_planes_spec fd out g L :
  output_ok out -> wb_state out -> live g = output_res out ⊎ L ->
  wp (restore_planes_zpos fd out) g (fun out' g' =>
    live g' = output_res out' ⊎ L /\ exists o v, out' = set_requests out o v).
Proof.
  intros Ho Hw Hl. rewrite output_res_held in Hl. unfold restore_planes_zpos.
  apply (wp_free_request _ _ _ (opt_res K_request (video_request out) ⊎ held_res out ⊎ L));
    [rewrite Hl; multiset_solver|]. intros g1 E1.
  apply wp_request. intros osd g2 E2. rewrite E1 in E2.
  apply (wp_free_request _ _ _ (opt_res K_request osd ⊎ held_res out ⊎ L)); [rewrite E2; multiset_solver|].
  intros g3 E3. apply wp_request. intros video g4 E4. rewrite E3 in E4. cbv zeta. wstep.
  wcall (restore_both_spec _ _ _ (held_res out ⊎ L)); [apply Ho| |].
  - cbn [set_requests video_request osd_request]. rewrite E4. multiset_solver.
  - intros _ g5 E5. cbn [wp]. split; [|by eexists _, _].
    rewrite E5, E4, output_res_held. cbn [set_requests video_request osd_request].
    change (held_res (set_requests out osd video)) with (held_res out). multiset_solver.
Qed.

Lemma cleanup_drm_spec d g L :
  on_show ({[+ (K_fd, drm_fd d) +]} ⊎ L) d g -> wp (cleanup_drm d) g (fun _ g' => live g' = L).
Proof.
  intros (p & out & Hs). pose proof (sh_list _ _ _ _ _ Hs) as Hd. unfold cleanup_drm. rewrite Hd. wstep.
  wcall (cleanup_writeback_spec d p out g). intros [d1 out1] g1 (Ef & Ho & Hw & E1). cbn [fst snd]. rewrite Ef. cbv zeta.
  wstep. wcall (restore_planes_spec _ _ _ ({[+ (K_heap, p) +]} ⊎ {[+ (K_fd, drm_fd d) +]} ⊎ L));
    [rewrite E1; multiset_solver|]. intros out2 g2 (E2 & o & v & ->).
  apply (output_ok_requests _ o v) in Ho. set (out2 := set_requests out1 o v) in *. clearbody out2.
  destruct (saved_crtc out2) as [saved|] eqn:Es; [|by destruct (ok_saved _ Ho); congruence].
  rewrite output_res_held in E2. unfold held_res in E2. rewrite Es in E2. cbn [opt_res] in E2.
  wstep. split; [rewrite E2; multiset_solver|]. split; [rewrite E2; multiset_solver|].
  apply (wp_free_request _ _ _ (opt_res K_request (osd_request out2) ⊎ {[+ (K_heap, p) +]} ⊎
    {[+ (K_blob, mode_blob_id out2) +]} ⊎ objects_res out2 ⊎ object_res (wb_connector out2) ⊎
    bufs_res fb_res (osd_bufs out2) ⊎ {[+ (K_fd, drm_fd d) +]} ⊎ L)); [fields; rewrite E2; multiset_solver|].
  intros g3 E3. eapply wp_free_request; [rewrite E3, <- !gmultiset_disj_union_assoc; reflexivity|].
  intros g4 E4. wstep. unfold modeset_cleanup.
  wcall (output_destroy_spec _ _ _ g4 ({[+ (K_fd, drm_fd d) +]} ⊎ L)); [rewrite E4; multiset_solver|].
  intros _ g5 E5. wgo. fields. rewrite E5. multiset_solver.
Qed.

(** ** Preparing an output *)
Lemma prepare_loop_spec fd res ids w h r rate g L :
  zlen (crtcs res) <= 32 -> refused L g ->
  wp (prepare_loop fd res ids w h r rate) g (fun o g' => exists ms, refused L g' /\ o = None \/
    exists X, (forall x, x ∈ X -> leaky x = true) /\ created ms (X ⊎ L) o g' /\ is_Some o).
Proof.
  intros Hc. revert g. induction ids as [|id ids IH]; intros g Hr; cbn [prepare_loop wp].
  { exists []. by left. }
  wstep. split; [by apply IH|]. intros a conn Hconn _. cbn [deref addr].
  assert (Hskip : forall g', refused ({[+ (K_connector, a) +]} ⊎ L) g' ->
    wp (run! drmModeFreeConnector a ;; prepare_loop fd res ids w h r rate) g' (fun o g' =>
      exists ms, refused L g' /\ o = None \/
      exists X, (forall x, x ∈ X -> leaky x = true) /\ created ms (X ⊎ L) o g' /\ is_Some o)).
  { intros g' (X & E & HX). wgo. apply IH. exists X. split; [|done]. fields. rewrite E. multiset_solver. }
  destruct Hr as (X & E & HX).
  assert (Eg : live (grow K_connector a g) = {[+ (K_connector, a) +]} ⊎ (X ⊎ L)) by (fields; by rewrite E).
  case_match; [apply Hskip; exists X; split; [rewrite Eg; multiset_solver|done]|].
  wstep. wcall output_create_spec. intros [[p out]|] g1; cbn [created].
  - intros (E1 & Ho & Hrest). wgo. exists (modes conn). right. exists X. split; [done|]. split; [|by eexists].
    split; [fields; rewrite E1; multiset_solver|]. by split.
  - intros Hr1. apply Hskip. apply (refused_app X); [done|].
    destruct Hr1 as (Y & E1 & HY). exists Y. split; [rewrite E1; multiset_solver|done].
Qed.

Lemma modeset_open_spec node g :
  wp (modeset_open node) g (fun '(r, o) g' =>
    match o with Some fd => r = 0 /\ 0 <= fd /\ live g' = {[+ (K_fd, fd) +]} ⊎ live g | None => True end).
Proof.
  unfold modeset_open. wgo; [done|].
  match goal with Hf : fresh K_fd _ _ |- _ => destruct Hf as [_ Hf] end.
  repeat (case_match || wgo); try done; mset.
Qed.

(** What main.cpp does with the display: set-up, with or without the capture, and
    clean-up; the frames in between are not part of it. *)
Definition session_end (capture stretch : bool) (fence : Z) (s : Z * display) : io Z :=
  if fst s <=? 0 then Done (fst s)
  else
    let! d <- (if capture then let! c <- setup_writeback (snd s) stretch fence ;; Done (snd c) else Done (snd s)) ;;
    let! _u <- cleanup_drm d ;;
    Done (fst s).

Definition display_session (d : display) (w h r rate : Z) (capture stretch : bool) (fence : Z) : io Z :=
  let! s <- setup_drm d false 0 0 w h r rate ;;
  session_end capture stretch fence s.

(** The result and what is held at its end: [L] and the device were held before. *)
Definition session_result (fd : Z) L (ret : Z) (g : ghost) : Prop :=
  ret = 1 /\ refused L g \/ ret = -2 /\ refused ({[+ (K_fd, fd) +]} ⊎ L) g.

Lemma session_end_spec d p out capture stretch fence g X L :
  output_list d = Some (p, out) -> wb_bufs_ready d = false -> output_ok out -> wb_available out = false ->
  wb_enabled out = false -> props (wb_connector out) = None -> (forall o, o ∈ X -> leaky o = true) ->
  live g = {[+ (K_heap, p) +]} ⊎ output_res out ⊎ ({[+ (K_fd, drm_fd d) +]} ⊎ (X ⊎ L)) ->
  wp (session_end capture stretch fence (1, d)) g (session_result (drm_fd d) L).
Proof.
  intros Hd Hr Ho Ha He Hw HX Hl.
  unfold session_end. cbn [fst snd]. change (1 <=? 0) with false. cbv iota. wstep.
  assert (Hend : forall d' g', drm_fd d' = drm_fd d -> on_show ({[+ (K_fd, drm_fd d) +]} ⊎ (X ⊎ L)) d' g' ->
    wp (let! _u <- cleanup_drm d' ;; Done 1) g' (session_result (drm_fd d) L)).
  { intros d' g' <- Hs. wstep. wcall cleanup_drm_spec. intros _ g2 E3. left. split; [done|]. by exists X. }
  destruct capture.
  - wstep. wcall (setup_writeback_spec d p out). intros [b d'] g2 [Hs Hfd]. by apply Hend.
  - cbn [wp]. apply Hend; [done|]. exists p, out. constructor; try done; rewrite ?Hr; [|unfold wb_state|done].
    + rewrite Hl. multiset_solver.
    + by rewrite Ha, He.
Qed.

(** The part behind the open device. *)
Lemma session_spec fd bufs w h r rate capture stretch fence g L :
  live g = {[+ (K_fd, fd) +]} ⊎ L ->
  wp (let! s <-
        (let! out <- modeset_prepare fd w h r rate ;;
         Done (match out with None => -2 | Some _ => 1 end, mk_display fd out bufs false)) ;;
      session_end capture stretch fence s) g (session_result fd L).
Proof.
  intros Hl. unfold modeset_prepare. wstep. wstep. wstep.
  assert (Hr0 : forall (g' : ghost) R, live g' = R -> refused R g').
  { intros g' R E. exists ∅. split; [rewrite E; multiset_solver|]. intros o Ho. multiset_solver. }
  split; [right; split; [done|by apply Hr0]|]. intros a res Hres _. cbn [deref addr]. wstep.
  wcall (prepare_loop_spec _ _ _ _ _ _ _ _ ({[+ (K_resources, a) +]} ⊎ ({[+ (K_fd, fd) +]} ⊎ L)));
    [by apply Hr0; fields; rewrite Hl|]. intros o g1 [ms [[(X & E1 & HX) ->]|(X & HX & Hc & Ho)]].
  { wgo. right. split; [done|]. exists X. split; [fields; rewrite E1; multiset_solver|done]. }
  destruct o as [[p out]|]; [clear Ho|by destruct Ho]. destruct Hc as (E1 & Ho & _ & Hw & Ha & He).
  wstep. split; [rewrite E1; multiset_solver|]. cbn [wp].
  apply (session_end_spec (mk_display fd (Some (p, out)) bufs false) p out _ _ _ _ X); try done.
  cbn [drm_fd]. fields. rewrite E1. multiset_solver.
Qed.
End Session.



(** On it the session ends with everything given back, the writeback connector was
    attached, and the OSD's buffer was shown full screen. *)
Example sample_session :
  exists w', @run Sample.device _ (@display_session default_build saturating display_start 0 0 0 0 true false 77)
    (mk_ghost ∅ []) = Ret (1, w') /\ live w' = ∅.
Proof. eexists. split; vm_compute; reflexivity. Qed.

(** The device that cannot be opened: the descriptor of main.cpp keeps its initial
    value 0, passes the test that it is not negative, and the session goes on with the
    standard input, which it closes at the end without having opened it. *)
Definition closed_device : Libdrm := {|
  world := ghost;
  holding g := g;
  answer X c g :=
    match c in call X return X * ghost with
    | c_open _ => (inl ENOENT, g)
    | c => Sample.answer_of c g
    end
|}.

Example closed_device_is_used :
  @run closed_device _ (@setup_drm default_build display_start false 0 0 0 0 0 0) (mk_ghost ∅ []) <> Crash AssertFail /\
  @run closed_device _ (@display_session default_build saturating display_start 0 0 0 0 false false 77) (mk_ghost ∅ [])
    = Crash OutOfBounds.
Proof. split; vm_compute; [discriminate|reflexivity]. Qed.
