(* ===== verification/DrmModes.v ===== *)
(** Which mode the display takes (Drm), and what a commit puts into a request. *)

From Stdlib Require Import String.
From stdpp Require Import gmultiset.
From S2P Require Import Prelude Free CDouble Drm DrmSpec DrmDevice DrmProps.

(** ** The best mode.  Modes are compared by pixels, then by refresh rate. *)
Definition eligible (desired : Z) (m : drmModeModeInfo) : Prop :=
  hdisplay m <= 1920 /\ vdisplay m <= 1080 /\
  (if desired =? 0 then vrefresh m mod 60 = 0 else vrefresh m = desired).
Definition pixels (m : drmModeModeInfo) : Z := hdisplay m * vdisplay m.
Definition better (m m' : drmModeModeInfo) : Prop :=
  pixels m' < pixels m \/ pixels m' = pixels m /\ vrefresh m' < vrefresh m.

(** [b] is the index of the best of [ms]: eligible, better than nothing, and no later
    than what is as good. *)
Definition best_index (desired : Z) (ms : list drmModeModeInfo) (b : Z) : Prop :=
  (b = -1 /\ forall m, m ∈ ms -> eligible desired m -> ~ better m no_mode) \/
  exists m, 0 <= b /\ ms !! Z.to_nat b = Some m /\ eligible desired m /\ better m no_mode /\
    forall j m', ms !! j = Some m' -> eligible desired m' ->
      ~ better m' m /\ (better m m' \/ (Z.to_nat b <= j)%nat).

(** What the loop keeps of it. *)
Definition best_so_far (desired : Z) (ms : list drmModeModeInfo) (best : Z * Z * Z * Z) : Prop :=
  let '(b, w, h, r) := best in
  best_index desired ms b /\
  (if b =? -1 then w = 0 /\ h = 0 /\ r = 0
   else exists m, ms !! Z.to_nat b = Some m /\ mode_ok m /\ w = hdisplay m /\ h = vdisplay m /\ r = vrefresh m).

Lemma best_keep desired ms m b :
  best_index desired ms b ->
  (eligible desired m -> forall c, (b = -1 /\ c = no_mode \/ 0 <= b /\ ms !! Z.to_nat b = Some c) -> ~ better m c) ->
  best_index desired (ms ++ [m]) b.
Proof.
  intros [[-> Hn]|(c & Hb & Hc & He & Hg & Hbest)] Hm.
  - left. split; [done|]. intros m' [Hin| ->%list_elem_of_singleton]%elem_of_app; [by apply Hn|].
    intros E. apply Hm; [done|by left].
  - right. exists c. split; [done|]. split; [by apply lookup_app_l_Some|]. split; [done|]. split; [done|].
    intros j m' [Hj|[Hj Hm']]%lookup_app_Some Em; [by apply Hbest|].
    apply list_lookup_singleton_Some in Hm' as [_ <-]. split; [apply Hm; [done|by right]|].
    right. apply lookup_lt_Some in Hc. lia.
Qed.

Lemma best_take desired ms m b :
  best_index desired ms b -> eligible desired m -> better m no_mode ->
  (forall c, (b = -1 /\ c = no_mode \/ 0 <= b /\ ms !! Z.to_nat b = Some c) -> better m c) ->
  best_index desired (ms ++ [m]) (zlen ms).
Proof.
  intros Hbest He Hg Hm. right. exists m. unfold zlen. rewrite Nat2Z.id. split; [lia|].
  split; [by apply list_lookup_middle|]. split; [done|]. split; [done|].
  assert (Hold : forall j m', ms !! j = Some m' -> eligible desired m' -> better m m' /\ ~ better m' m).
  { intros j m' Hj Em. destruct Hbest as [[-> Hn]|(c & Hb & Hc & _ & _ & Hbest)].
    - specialize (Hn m' (list_elem_of_lookup_2 _ _ _ Hj) Em). specialize (Hm no_mode (or_introl (conj eq_refl eq_refl))).
      unfold better, pixels, no_mode in *. cbn in *. lia.
    - destruct (Hbest j m' Hj Em) as [Hle _]. specialize (Hm c (or_intror (conj Hb Hc))).
      unfold better in *. lia. }
  intros j m' [Hj|[Hj Hm']]%lookup_app_Some Em.
  - destruct (Hold j m' Hj Em). split; [done|by left].
  - apply list_lookup_singleton_Some in Hm' as [_ <-]. split; [unfold better; lia|by right].
Qed.

(** A mode the loop skips is not eligible. *)
Lemma skipped desired pre m best :
  ~ eligible desired m -> best_so_far desired pre best -> best_so_far desired (pre ++ [m]) best.
Proof.
  destruct best as [[[b w] h] r]. intros Hm [Hb Hw]. split; [by apply best_keep|].
  case_match; [done|]. destruct Hw as (c & Hc & Hr). exists c. split; [by apply lookup_app_l_Some|done].
Qed.

(** The comparison of the loop. *)
Lemma best_step desired pre m best :
  mode_ok m -> eligible desired m -> best_so_far desired pre best ->
  best_so_far desired (pre ++ [m])
    (let '(_, w, h, r) := best in
     if (u32 (w * h) <? pixels m) || ((pixels m =? u32 (w * h)) && (r <? vrefresh m))
     then (zlen pre, hdisplay m, vdisplay m, vrefresh m) else best).
Proof.
  destruct best as [[[b w] h] r]. intros Hok He [Hb Hw].
  assert (Hcur : exists c, (b = -1 /\ c = no_mode \/ 0 <= b /\ pre !! Z.to_nat b = Some c) /\
            w = hdisplay c /\ h = vdisplay c /\ r = vrefresh c /\ u32 (w * h) = pixels c /\
            (forall c', (b = -1 /\ c' = no_mode \/ 0 <= b /\ pre !! Z.to_nat b = Some c') -> c' = c) /\
            (better m c -> better m no_mode)).
  { destruct Hb as [[-> _]|(c & Hb & Hc & (Hw1 & Hh1 & _) & Hg & _)].
    - destruct Hw as (-> & -> & ->). exists no_mode. split; [by left|]. repeat split; try done.
      intros c' [[_ ->]|[? _]]; [done|lia].
    - rewrite (proj2 (Z.eqb_neq b (-1))) in Hw by lia. destruct Hw as (c' & Hc' & Hok' & -> & -> & ->).
      rewrite Hc in Hc'. injection Hc' as <-. exists c. split; [by right|]. repeat split; try done.
      + apply Z.mod_small. destruct Hok' as (? & ? & _). unfold pixels. nia.
      + intros c' [[? _]|[_ Hc']]; [lia|congruence].
      + unfold better in *. lia. }
  destruct Hcur as (c & Hc & Ew & Eh & Er & -> & Huniq & Hno).
  destruct (_ || _) eqn:Etest; cbool.
  - assert (Hm : better m c) by (unfold better; lia). split.
    + apply (best_take _ _ _ b); [done..|by apply Hno|]. by intros c' ->%Huniq.
    + rewrite (proj2 (Z.eqb_neq _ _)) by (pose proof (zlen_nonneg pre); lia). exists m.
      unfold zlen. rewrite Nat2Z.id. split; [by apply list_lookup_middle|done].
  - split.
    + apply best_keep; [done|]. intros _ c' ->%Huniq. unfold better. lia.
    + case_match; [done|]. destruct Hw as (d & Hd & Hr). exists d. split; [by apply lookup_app_l_Some|done].
Qed.

Lemma best_loop_spec desired ms pre best :
  Forall mode_ok ms -> best_so_far desired pre best ->
  exists best', best_mode_loop ms desired (zlen pre) best = Ret best' /\ best_so_far desired (pre ++ ms) best'.
Proof.
  intros Hms. revert pre best. induction Hms as [|m ms Hm _ IH]; intros pre best Hb; cbn [best_mode_loop].
  { exists best. by rewrite app_nil_r. }
  assert (Hnext : forall best', best_so_far desired (pre ++ [m]) best' ->
    exists b, best_mode_loop ms desired (zlen pre + 1) best' = Ret b /\ best_so_far desired (pre ++ m :: ms) b).
  { intros best' Hb'. destruct (IH (pre ++ [m]) best' Hb') as (b & E & Hb2). exists b.
    rewrite <- app_assoc in Hb2. rewrite zlen_app in E. by split. }
  assert (Hskip : ~ eligible desired m ->
    exists b, best_mode_loop ms desired (zlen pre + 1) best = Ret b /\ best_so_far desired (pre ++ m :: ms) b).
  { intros He. by apply Hnext, skipped. }
  unfold eligible in Hskip.
  destruct (_ || _) eqn:E1; cbool; [apply Hskip; lia|].
  destruct (_ && _) eqn:E2; cbool; [apply Hskip; destruct E2 as [-> ?]; cbn; lia|].
  destruct ((negb (desired =? 0)) && _) eqn:E3; cbool; [apply Hskip; rewrite (proj2 (Z.eqb_neq desired 0)); lia|].
  assert (He : eligible desired m).
  { split; [lia|]. split; [lia|]. destruct (Z.eqb_spec desired 0); lia. }
  pose proof (best_step desired pre m best Hm He Hb) as Hs. destruct best as [[[b w] h] r].
  destruct Hm as (Hw & Hh & _). unfold c_int. rewrite (proj2 (Z.leb_le _ _)), (proj2 (Z.ltb_lt _ _)) by nia.
  cbn [andb obind]. fold (pixels m). case_match; by apply Hnext.
Qed.

(** C27. [select_best_mode] takes the best mode: of the modes up to 1920x1080 with the
    refresh rate that is asked for (a multiple of 60 when none is), the one with the
    most pixels and then the highest rate, the first of equals; it returns -1 exactly
    when there is none. *)
Theorem select_best_mode_best conn desired :
  connector_ok conn ->
  exists b, select_best_mode conn desired = Ret b /\ best_index desired (modes conn) b.
Proof.
  intros Hc. unfold select_best_mode.
  destruct (best_loop_spec desired (modes conn) [] (-1, 0, 0, 0) Hc) as ([[[b w] h] r] & E & Hb & _).
  { split; [|done]. left. split; [done|]. by intros m Hm%elem_of_nil. }
  change (zlen []) with 0 in E. rewrite E. by exists b.
Qed.

(** 720p and 1080p at 60 Hz, and 4K: the second of them. *)
Lemma select_best_mode_best_witness :
  let conn := mk_connector 1 0 11 1 [mk_mode 1280 720 60 0 0; mk_mode 1920 1080 60 0 8; mk_mode 3840 2160 60 0 0] [] in
  select_best_mode conn 0 = Ret 1 /\ best_index 0 (modes conn) 1.
Proof.
  intros conn. destruct (select_best_mode_best conn 0) as (b & E & Hb).
  - repeat (apply Forall_cons_2; [unfold mode_ok; cbn; lia|]). apply Forall_nil_2.
  - split; [reflexivity|]. assert (Eb : select_best_mode conn 0 = Ret 1) by reflexivity.
    rewrite Eb in E. by injection E as <-.
Defined.

(** ** A mode that is asked for *)
Section Exact.
Context (w h r : Z).

Definition matches (m : drmModeModeInfo) : Prop := hdisplay m = w /\ vdisplay m = h /\ vrefresh m = r.
Definition progressive (m : drmModeModeInfo) : Prop := Z.land (mode_flags m) DRM_MODE_FLAG_INTERLACE = 0.

(** [fc] is the index of a mode that matches, progressive when there is such a one. *)
Definition exact_index (ms : list drmModeModeInfo) (fc : Z) : Prop :=
  (fc = -1 /\ forall m, m ∈ ms -> ~ matches m) \/
  exists c, 0 <= fc /\ ms !! Z.to_nat fc = Some c /\ matches c /\
    forall m, m ∈ ms -> matches m -> progressive m -> progressive c.

Lemma exact_skip ms m fc : ~ matches m -> exact_index ms fc -> exact_index (ms ++ [m]) fc.
Proof.
  intros Hm [[-> Hn]|(c & Hf & Hc & Hmc & Hp)].
  - left. split; [done|]. intros m' [Hin| ->%list_elem_of_singleton]%elem_of_app; [by apply Hn|done].
  - right. exists c. split; [done|]. split; [by apply lookup_app_l_Some|]. split; [done|].
    intros m' [Hin| ->%list_elem_of_singleton]%elem_of_app; [by apply Hp|done].
Qed.

Lemma exact_take ms m fc :
  matches m -> exact_index ms fc ->
  exact_index (ms ++ [m])
    (let fc := if fc <? 0 then zlen ms else fc in
     if (0 <=? fc) && (Z.land (mode_flags m) DRM_MODE_FLAG_INTERLACE =? 0) then zlen ms else fc).
Proof.
  intros Hm Hfc. pose proof (zlen_nonneg ms).
  assert (Hat : (ms ++ [m]) !! Z.to_nat (zlen ms) = Some m).
  { unfold zlen. rewrite Nat2Z.id. by apply list_lookup_middle. }
  assert (Hprog : progressive m -> exact_index (ms ++ [m]) (zlen ms)).
  { intros Hp. right. by exists m. }
  cbv zeta. destruct Hfc as [[-> Hn]|(c & Hf & Hc & Hmc & Hp)].
  - change (-1 <? 0) with true. cbv iota. destruct (_ && _) eqn:E; cbool; [apply Hprog; unfold progressive; lia|].
    right. exists m. split; [done|]. split; [done|]. split; [done|].
    intros m' [Hin| ->%list_elem_of_singleton]%elem_of_app Hm'; [by destruct (Hn _ Hin)|done].
  - zif. cbv iota. destruct (_ && _) eqn:E; cbool; [apply Hprog; unfold progressive; lia|]. right. exists c. split; [done|].
    split; [by apply lookup_app_l_Some|]. split; [done|].
    intros m' [Hin| ->%list_elem_of_singleton]%elem_of_app Hm' Hpm; [by apply (Hp m')|].
    unfold progressive in Hpm. lia.
Qed.

Lemma exact_loop_spec ms pre fc pf :
  exact_index pre fc -> exact_index (pre ++ ms) (fst (exact_mode_loop ms w h r (zlen pre) fc pf)).
Proof.
  revert pre fc pf. induction ms as [|m ms IH]; intros pre fc pf Hfc; cbn [exact_mode_loop].
  { by rewrite app_nil_r. }
  assert (Hz : zlen pre + 1 = zlen (pre ++ [m])) by (by rewrite zlen_app).
  replace (pre ++ m :: ms) with ((pre ++ [m]) ++ ms) by (by rewrite <- app_assoc). rewrite Hz.
  destruct (_ && _ && _) eqn:E; cbool.
  - apply IH, exact_take; [by destruct E as [[? ?] ?]|done].
  - assert (Hm : ~ matches m) by (unfold matches; lia). case_match; by apply IH, exact_skip.
Qed.

(** C0. The mode that was asked for is taken: if the connector has a mode of that
    size and rate the output gets one, progressive if one of them is; the modes of the
    connector are never left. *)
Theorem choose_mode_exact conn m rate :
  0 < w -> 0 < h -> 0 < r -> m ∈ modes conn -> matches m ->
  exists i c, choose_mode conn w h r rate = Ret (Some i) /\ 0 <= i /\ modes conn !! Z.to_nat i = Some c /\
    matches c /\ (progressive m -> progressive c).
Proof.
  intros Hw Hh Hr Hin Hm. unfold choose_mode. do 3 zif. cbn [andb].
  assert (Hx : exact_index (modes conn) (fst (exact_mode_loop (modes conn) w h r 0 (-1) (-1)))).
  { apply (exact_loop_spec (modes conn) [] (-1) (-1)). left. split; [done|]. by intros ? ?%elem_of_nil. }
  destruct (exact_mode_loop _ _ _ _ _ _ _) as [fc pf].
  cbn [fst] in Hx. destruct Hx as [[-> Hn]|(c & Hf & Hc & Hmc & Hp)].
  - by destruct (Hn m Hin).
  - cbn [fst] in *. zif. cbn [andb]. exists fc, c. split; [done|]. split; [done|]. split; [done|]. split; [done|].
    intros Hpm. by apply (Hp m).
Qed.
End Exact.

(** 1080p at 50 Hz exists interlaced and progressive. *)
Lemma choose_mode_exact_witness :
  let m := mk_mode 1920 1080 50 0 0 in
  let conn := mk_connector 1 0 11 1 [mk_mode 1920 1080 50 16 0; m; mk_mode 1920 1080 60 0 8] [] in
  choose_mode conn 1920 1080 50 0 = Ret (Some 1) /\
  exists i c, choose_mode conn 1920 1080 50 0 = Ret (Some i) /\ 0 <= i /\ modes conn !! Z.to_nat i = Some c /\
    matches 1920 1080 50 c /\ (progressive m -> progressive c).
Proof.
  intros m conn. split; [reflexivity|]. apply choose_mode_exact; [done..| |done].
  apply list_elem_of_lookup_2 with 1%nat. reflexivity.
Defined.

(** ** What a commit puts into its request *)
Definition property_id (o : drm_object) (name : string) : Z :=
  match props o with
  | Some p => match find_prop_id (length (deref p)) (props_info o) name with Ret i => i | Crash _ => 0 end
  | None => 0
  end.
(** The entry of one property: object, property, value of 64 bits. *)
Definition entry (req : Z) (p : drm_object * string * Z) : Z * (Z * Z * Z) :=
  let '(o, name, v) := p in (req, (oid o, property_id o name, u64 v)).

(** [l] was entered up to some point, where [ok] says whether it is the end. *)
Definition entered (req : Z) (l : list (drm_object * string * Z)) (g : ghost) (ok : bool) (g' : ghost) : Prop :=
  exists done rest, l = done ++ rest /\ added g' = added g ++ map (entry req) done /\ live g' = live g /\
    (if ok then rest = [] else rest <> []).

Section Entries.
Context `{Build}.

Lemma set_property_entry req o name v g :
  object_read o -> (K_request, req) ∈ live g ->
  wp (set_drm_object_property (Some req) o name v) g (fun r g' =>
    live g' = live g /\
    (0 < r /\ added g' = added g ++ [entry req (o, name, v)] \/ r < 0 /\ added g' = added g)).
Proof.
  unfold object_read, object_ok, set_drm_object_property, entry, property_id. intros [[p ->] [En Hf]] Hr.
  destruct (find_prop_id_total _ name Hf) as [id Eid]. rewrite <- En, Eid. cbn [lift io_bind].
  destruct (id =? 0); [by cbn [wp]; split; [|right]|].
  unfold trigger. wstep. split; [done|]. split; intros r Hr0; cbn [wp note_property live added].
  - split; [done|]. by right.
  - split; [done|]. by left.
Qed.

Lemma set_properties_entries req l g :
  Forall (fun p => object_read (fst (fst p))) l -> (K_request, req) ∈ live g ->
  wp (set_properties (Some req) l) g (entered req l g).
Proof.
  intros Hl. revert g. induction Hl as [|[[o name] v] l Ho _ IH]; intros g Hr; cbn [set_properties].
  { exists [], []. split; [done|]. cbn [map]. by rewrite app_nil_r. }
  wstep. wcall set_property_entry. intros r g1 [E1 Hadd]. destruct (Z.ltb_spec r 0).
  - destruct Hadd as [[? _]|[_ Ea]]; [lia|]. exists [], ((o, name, v) :: l). cbn [map]. rewrite app_nil_r. by repeat split.
  - destruct Hadd as [[_ Ea]|[? _]]; [|lia]. wcall IH; [by rewrite E1|].
    intros ok g2 (d & rest & -> & E2 & El & Hok). exists ((o, name, v) :: d), rest. split; [done|].
    split; [|split; [congruence|done]]. rewrite E2, Ea, <- app_assoc. done.
Qed.

End Entries.

(** An output of 1080p with its tables read, and a video of 720p on its video plane. *)
Definition sample_object (id : Z) : drm_object :=
  mk_object (Some (mk_ptr 500 Sample.all_properties)) (Some 501)
    (map (fun p => Some (mk_ptr 600 (Sample.property (fst p)))) Sample.all_properties) id.
Definition sample_output : modeset_output :=
  mk_output (sample_object 60) (sample_object 50) (Some 9) Sample.full_hd 8 0 1920 1080 (Some 5) [no_buf; no_buf]
    (sample_object 81) (Some 7) (sample_object 80) no_object false false.

Lemma sample_object_read id : object_read (sample_object id).
Proof. split; [by eexists|]. split; [reflexivity|]. repeat (apply Forall_cons_2; [by eexists|]). apply Forall_nil_2. Qed.


(** ** The place of the picture: on the screens and for the pictures of the table it
    lies on the screen, touches two opposite edges, and is centred to a pixel. *)
Definition rect_fits (w h : Z) (rect : Z * Z * Z * Z) : bool :=
  let '(x, y, cw, ch) := rect in
  (0 <=? x) && (0 <=? y) && (x + cw <=? w) && (y + ch <=? h) && ((cw =? w) || (ch =? h)) &&
  (w - cw - 2 * x <=? 1) && (h - ch - 2 * y <=? 1).
Definition screens : list (Z * Z) := [(1920, 1080); (1280, 720); (1680, 1050); (1024, 768); (800, 600); (720, 576)].
Definition pictures : list (Z * Z) :=
  [(1920, 1080); (1280, 720); (1920, 1088); (3840, 2160); (2560, 1440); (1440, 1080); (960, 720); (640, 480);
   (720, 1280); (1080, 1920); (848, 480); (1, 1)].

Example picture_rect_fits :
  forallb (fun '(w, h) => forallb (fun '(pw, ph) =>
    rect_fits w h (@picture_rect saturating (set_bufs sample_output [] w h) pw ph false)) pictures) screens = true.
Proof. vm_compute. reflexivity. Qed.

(** A picture without width or height gets no place; without both its ratio is not a
    number, and the height is whatever the conversion of that to an integer gives. *)
Example picture_rect_empty :
  @picture_rect saturating sample_output 1280 0 false = (0, 540, 1920, 0) /\
  @picture_rect saturating sample_output 0 720 false = (960, 0, 0, 1080) /\
  snd (@picture_rect saturating sample_output 0 0 false) = 2 ^ 32 - 1.
Proof. repeat split; vm_compute; reflexivity. Qed.
