(* ===== verification/TsWriter.v ===== *)
(** * The MPEG transport stream muxer of the recorder (src/dvr/ts_writer.cpp)

    [TsWriter] is the class: the open file (the bytes stdio has accepted for it), the
    counters of written, failed and discarded data, and the state of the mux that
    [begin_video] resets.  Every method is a function of the same name; what the system
    answers during one call is a [Disk].  Bytes of the packet buffer are stored at
    offsets that are checked ([wrn]), as a pointer into the vector would be. *)

From S2P Require Import Prelude.

Definition WRITE_FAIL_WARN_INTERVAL : Z := 300.
Definition SYNC_BYTES : Z := 4 * 1024 * 1024.
Definition SYNC_INTERVAL_MS : Z := 2000.
Definition TS_PACKET_SIZE : Z := 188.
Definition PID_PAT : Z := 0x0000.
Definition PID_PMT : Z := 0x1000.
Definition PID_VIDEO : Z := 0x0100.
Definition PROGRAM_NUMBER : Z := 0x0001.
Definition TRANSPORT_STREAM_ID : Z := 0x0001.
Definition STREAM_TYPE_HEVC : Z := 0x24.
Definition PES_STREAM_ID : Z := 0xE0.
Definition PTS_PREROLL_90K : Z := 90000.
Definition PSI_INTERVAL_90K : Z := 9000.
Definition TS_TIMESTAMP_MASK : Z := 0x1FFFFFFFF.

(** Signed 64-bit arithmetic: overflow is undefined. *)
Definition c_int64 (z : Z) : outcome Z :=
  if (- 2 ^ 63 <=? z) && (z <? 2 ^ 63) then Ret z else Crash IntOverflow.

(** ** Check sum, random access points, time fields *)

Definition crc_bit (crc : Z) : Z :=
  if negb (Z.land crc 0x80000000 =? 0)
  then Z.lxor (u32 (Z.shiftl crc 1)) 0x04C11DB7
  else u32 (Z.shiftl crc 1).

Definition crc_byte (crc b : Z) : Z := Nat.iter 8 crc_bit (Z.lxor crc (Z.shiftl b 24)).

Definition crc32_mpeg (data : list Z) (len : Z) : outcome Z :=
  do bs <- rdn data 0 len ;;
  Ret (foldl crc_byte 0xFFFFFFFF bs).

(** [d[i] == 0 && d[i+1] == 0 && d[i+2] == 1], evaluated left to right. *)
Definition start_code_at (d : list Z) (i : Z) : outcome bool :=
  do b0 <- rd d i ;;
  if negb (b0 =? 0) then Ret false
  else do b1 <- rd d (i + 1) ;;
       if negb (b1 =? 0) then Ret false
       else do b2 <- rd d (i + 2) ;; Ret (b2 =? 1).

Definition irap_type (b : Z) : bool :=
  let nal_type := Z.land (Z.shiftr b 1) 0x3f in
  (16 <=? nal_type) && (nal_type <=? 21).

Fixpoint keyframe_loop (fuel : nat) (d : list Z) (len i : Z) : outcome bool :=
  match fuel with
  | O => Crash Diverge
  | S fuel =>
    if i + 3 <? len then
      do found <- start_code_at d i ;;
      if found then
        do b3 <- rd d (i + 3) ;;
        if irap_type b3 then Ret true
        else keyframe_loop fuel d len (i + 2 + 1)
      else keyframe_loop fuel d len (i + 1)
    else Ret false
  end.

Definition au_is_keyframe (d : list Z) (len : Z) : outcome bool :=
  if len <? 4 then Ret false
  else keyframe_loop (Z.to_nat len) d len 0.

(** The five bytes [p[0..4]]. *)
Definition write_timestamp (prefix ts : Z) : list Z :=
  [ u8 (Z.lor (Z.lor (Z.shiftl prefix 4) (Z.shiftl (Z.land (Z.shiftr ts 30) 0x07) 1)) 0x01);
    u8 (Z.land (Z.shiftr ts 22) 0xFF);
    u8 (Z.lor (Z.shiftl (Z.land (Z.shiftr ts 15) 0x7F) 1) 0x01);
    u8 (Z.land (Z.shiftr ts 7) 0xFF);
    u8 (Z.lor (Z.shiftl (Z.land ts 0x7F) 1) 0x01) ].

(** The six bytes [p[0..5]]. *)
Definition write_pcr (base : Z) : list Z :=
  [ u8 (Z.land (Z.shiftr base 25) 0xFF);
    u8 (Z.land (Z.shiftr base 17) 0xFF);
    u8 (Z.land (Z.shiftr base 9) 0xFF);
    u8 (Z.land (Z.shiftr base 1) 0xFF);
    u8 (Z.lor (Z.shiftl (Z.land base 0x01) 7) 0x7E);
    0x00 ].

(** ** State *)

(** The state of the mux, reset for every file. *)
Record mux := {
  media_ticks_ : Z; last_psi_ticks_ : Z; psi_pending_ : bool;
  cc_video_ : Z; cc_pat_ : Z; cc_pmt_ : Z
}.

Definition mux_reset : mux := {|
  media_ticks_ := 0; last_psi_ticks_ := 0; psi_pending_ := true;
  cc_video_ := 0; cc_pat_ := 0; cc_pmt_ := 0 |}.

(** [file] is the FILE pointer: the bytes it has been given. *)
Record TsWriter := {
  file : option (list Z); video_started_ : bool; file_size_bytes : Z; discard_count_ : Z;
  write_fail_count : Z; write_fail_streak : Z; bytes_since_sync_ : Z; last_sync_ms_ : Z;
  mux_ : mux; pkt_buf_ : list Z
}.

Definition TsWriter_new : TsWriter := {|
  file := None; video_started_ := false; file_size_bytes := 0; discard_count_ := 0;
  write_fail_count := 0; write_fail_streak := 0; bytes_since_sync_ := 0; last_sync_ms_ := 0;
  mux_ := mux_reset; pkt_buf_ := [] |}.

(** What the system answers during one call: whether the file opens, how many bytes of
    a block stdio accepts, what fflush, fdatasync and fclose return, and the clock when
    it is read first ([now]) and in the sync that follows ([now_sync]). *)
Record Disk := {
  fopen_ok : bool; fwrite_n : Z -> Z; fflush_ret : Z; fdatasync_ret : Z; fclose_ret : Z;
  now : Z; now_sync : Z
}.

Section Writer.
Variable w : TsWriter.

Definition with_output (f : option (list Z)) (size : Z) : TsWriter := {|
  file := f; video_started_ := video_started_ w; file_size_bytes := size;
  discard_count_ := discard_count_ w; write_fail_count := write_fail_count w;
  write_fail_streak := write_fail_streak w; bytes_since_sync_ := bytes_since_sync_ w;
  last_sync_ms_ := last_sync_ms_ w; mux_ := mux_ w; pkt_buf_ := pkt_buf_ w |}.

Definition with_mux (started : bool) (m : mux) (buf : list Z) : TsWriter := {|
  file := file w; video_started_ := started; file_size_bytes := file_size_bytes w;
  discard_count_ := discard_count_ w; write_fail_count := write_fail_count w;
  write_fail_streak := write_fail_streak w; bytes_since_sync_ := bytes_since_sync_ w;
  last_sync_ms_ := last_sync_ms_ w; mux_ := m; pkt_buf_ := buf |}.

Definition with_failures (discarded count streak : Z) : TsWriter := {|
  file := file w; video_started_ := video_started_ w; file_size_bytes := file_size_bytes w;
  discard_count_ := discarded; write_fail_count := count;
  write_fail_streak := streak; bytes_since_sync_ := bytes_since_sync_ w;
  last_sync_ms_ := last_sync_ms_ w; mux_ := mux_ w; pkt_buf_ := pkt_buf_ w |}.

Definition with_sync (bytes last : Z) : TsWriter := {|
  file := file w; video_started_ := video_started_ w; file_size_bytes := file_size_bytes w;
  discard_count_ := discard_count_ w; write_fail_count := write_fail_count w;
  write_fail_streak := write_fail_streak w; bytes_since_sync_ := bytes;
  last_sync_ms_ := last; mux_ := mux_ w; pkt_buf_ := pkt_buf_ w |}.
End Writer.

(** ** Packets *)

(** One PSI section in a packet of its own; the result is the buffer and the new
    continuity counter. *)
Definition emit_section (out : list Z) (pid cc : Z) (section : list Z) (section_len : Z) :
    outcome (list Z * Z) :=
  let start := zlen out in
  let out := out ++ replicate (Z.to_nat TS_PACKET_SIZE) 0xFF in
  do out <- wrn out start
    [ 0x47;
      u8 (Z.lor 0x40 (Z.land (Z.shiftr pid 8) 0x1F));
      u8 (Z.land pid 0xFF);
      u8 (Z.lor 0x10 (Z.land cc 0x0F)) ] ;;
  let cc := u8 (Z.land (cc + 1) 0x0F) in
  do out <- wrn out (start + 4) [0x00] ;;
  do bs <- rdn section 0 section_len ;;
  do out <- wrn out (start + 5) bs ;;
  do crc <- crc32_mpeg section section_len ;;
  do out <- wrn out (start + 5 + section_len)
    [u8 (Z.shiftr crc 24); u8 (Z.shiftr crc 16); u8 (Z.shiftr crc 8); u8 crc] ;;
  Ret (out, cc).

Definition pat_section : list Z :=
  [ 0x00; 0xB0; 0x0D;
    u8 (Z.shiftr TRANSPORT_STREAM_ID 8); u8 (Z.land TRANSPORT_STREAM_ID 0xFF);
    0xC1; 0x00; 0x00;
    u8 (Z.shiftr PROGRAM_NUMBER 8); u8 (Z.land PROGRAM_NUMBER 0xFF);
    u8 (Z.lor 0xE0 (Z.land (Z.shiftr PID_PMT 8) 0x1F)); u8 (Z.land PID_PMT 0xFF) ].

Definition pmt_section : list Z :=
  [ 0x02; 0xB0; 0x12;
    u8 (Z.shiftr PROGRAM_NUMBER 8); u8 (Z.land PROGRAM_NUMBER 0xFF);
    0xC1; 0x00; 0x00;
    u8 (Z.lor 0xE0 (Z.land (Z.shiftr PID_VIDEO 8) 0x1F)); u8 (Z.land PID_VIDEO 0xFF);
    0xF0; 0x00;
    STREAM_TYPE_HEVC;
    u8 (Z.lor 0xE0 (Z.land (Z.shiftr PID_VIDEO 8) 0x1F)); u8 (Z.land PID_VIDEO 0xFF);
    0xF0; 0x00 ].

Definition emit_psi (out : list Z) (m : mux) : outcome (list Z * mux) :=
  do* (out, cc_pat) <- emit_section out PID_PAT (cc_pat_ m) pat_section (zlen pat_section) ;;
  do* (out, cc_pmt) <- emit_section out PID_PMT (cc_pmt_ m) pmt_section (zlen pmt_section) ;;
  Ret (out, {| media_ticks_ := media_ticks_ m; last_psi_ticks_ := last_psi_ticks_ m;
               psi_pending_ := psi_pending_ m; cc_video_ := cc_video_ m;
               cc_pat_ := cc_pat; cc_pmt_ := cc_pmt |}).

Definition pes_header (pts : Z) : list Z :=
  [ 0x00; 0x00; 0x01; PES_STREAM_ID; 0x00; 0x00; 0x84; 0x80; 0x05 ]
  ++ write_timestamp 0x02 pts.

(** How long the adaptation field ([af_len] after its length byte, [af_total] with it)
    and the payload of the next packet are. *)
Definition packet_room (first keyframe : bool) (remaining : Z) : Z * Z * Z :=
  let want_pcr := first in
  let want_rai := first && keyframe in
  let af_len := if want_pcr || want_rai then 1 + (if want_pcr then 6 else 0) else 0 in
  let af_total := if negb (af_len =? 0) then af_len + 1 else 0 in
  let room := u64 (TS_PACKET_SIZE - 4 - af_total) in
  if remaining <? room then
    let pad := room - remaining in
    if af_total =? 0 then ((if pad =? 1 then 0 else pad - 1), pad, remaining)
    else (af_len + pad, af_total + pad, remaining)
  else (af_len, af_total, room).

(** The adaptation field stored at [p]; the result is the buffer and the end of it. *)
Definition emit_af (out : list Z) (p0 p af_len af_total : Z) (first keyframe : bool) (pcr : Z) :
    outcome (list Z * Z) :=
  if af_total =? 0 then Ret (out, p)
  else
    do out <- wrn out p [u8 af_len] ;;
    let p := p + 1 in
    if af_len =? 0 then Ret (out, p)
    else
      let want_pcr := first in
      let want_rai := first && keyframe in
      let flags := p in
      do out <- wrn out flags [if want_rai then 0x40 else 0x00] ;;
      let p := p + 1 in
      do* (out, p) <-
        (if want_pcr then
           do f <- rd out flags ;;
           do out <- wrn out flags [Z.lor f 0x10] ;;
           do out <- wrn out p (write_pcr pcr) ;;
           Ret (out, p + 6)
         else Ret (out, p)) ;;
      let stuffing := u64 (p0 + 4 + af_total - p) in
      do out <- wrn out p (replicate (Z.to_nat stuffing) 0xFF) ;;
      Ret (out, p + stuffing).

(** The inner loop: the slice of PES header and access unit from [pos + copied] on. *)
Fixpoint copy_slice (fuel : nat) (out pes au : list Z) (au_len pos p room copied : Z) :
    outcome (list Z) :=
  match fuel with
  | O => Crash Diverge
  | S fuel =>
    if copied <? room then
      let at_ := pos + copied in
      let '(src, avail) :=
        if at_ <? 14 then (adv pes at_, 14 - at_)
        else (adv au (at_ - 14), au_len - (at_ - 14)) in
      let n := if room - copied <? avail then room - copied else avail in
      do bs <- rdn src 0 n ;;
      do out <- wrn out (p + copied) bs ;;
      copy_slice fuel out pes au au_len pos p room (copied + n)
    else Ret out
  end.

Fixpoint pes_loop (fuel : nat) (out pes au : list Z) (au_len pcr : Z) (keyframe : bool)
    (pos : Z) (first : bool) (cc : Z) : outcome (list Z * Z) :=
  match fuel with
  | O => Crash Diverge
  | S fuel =>
    let total := 14 + au_len in
    if pos <? total then
      let start := zlen out in
      let out := out ++ replicate (Z.to_nat TS_PACKET_SIZE) 0 in
      do out <- wrn out start
        [ 0x47;
          u8 (Z.lor (if first then 0x40 else 0x00) (Z.land (Z.shiftr PID_VIDEO 8) 0x1F));
          u8 (Z.land PID_VIDEO 0xFF) ] ;;
      let '(af_len, af_total, room) := packet_room first keyframe (total - pos) in
      do out <- wrn out (start + 3)
        [u8 (Z.lor (if negb (af_total =? 0) then 0x30 else 0x10) (Z.land cc 0x0F))] ;;
      let cc := u8 (Z.land (cc + 1) 0x0F) in
      do* (out, p) <- emit_af out start (start + 4) af_len af_total first keyframe pcr ;;
      do out <- copy_slice (S (Z.to_nat room)) out pes au au_len pos p room 0 ;;
      pes_loop fuel out pes au au_len pcr keyframe (pos + room) false cc
    else Ret (out, cc)
  end.

Definition emit_pes (out : list Z) (cc : Z) (au : list Z) (au_len pts pcr : Z)
    (keyframe : bool) : outcome (list Z * Z) :=
  pes_loop (Z.to_nat (15 + au_len)) out (pes_header pts) au au_len pcr keyframe 0 true cc.

(** ** Writing *)

Definition write_block (w : TsWriter) (d : Disk) (data : list Z) (len : Z) :
    outcome (TsWriter * bool) :=
  match file w with
  | None => Crash OutOfBounds
  | Some written =>
    do bs <- rdn data 0 len ;;
    let n := fwrite_n d len in
    let f := Some (written ++ take (Z.to_nat n) bs) in
    if negb (n =? len) then Ret (with_output w f (file_size_bytes w), false)
    else Ret (with_output w f (u64 (file_size_bytes w + len)), true)
  end.

(** The tables at the head of the buffer, when an access unit needs them. *)
Definition emit_psi_if_due (m : mux) (keyframe : bool) : outcome (list Z * mux) :=
  do since <- (if psi_pending_ m || keyframe then Ret 0
               else c_int64 (media_ticks_ m - last_psi_ticks_ m)) ;;
  if psi_pending_ m || keyframe || (PSI_INTERVAL_90K <=? since) then
    do* (buf, m) <- emit_psi [] m ;;
    Ret (buf, {| media_ticks_ := media_ticks_ m; last_psi_ticks_ := media_ticks_ m;
                 psi_pending_ := false; cc_video_ := cc_video_ m;
                 cc_pat_ := cc_pat_ m; cc_pmt_ := cc_pmt_ m |})
  else Ret ([], m).

Definition mux_access_unit (w : TsWriter) (d : Disk) (data : list Z) (len duration_90k : Z) :
    outcome (TsWriter * bool) :=
  do keyframe <- au_is_keyframe data len ;;
  let m := mux_ w in
  let pcr := Z.land (media_ticks_ m) TS_TIMESTAMP_MASK in
  do t <- c_int64 (media_ticks_ m + PTS_PREROLL_90K) ;;
  let pts := Z.land t TS_TIMESTAMP_MASK in
  do* (buf, m) <- emit_psi_if_due m keyframe ;;
  do* (buf, cc) <- emit_pes buf (cc_video_ m) data len pts pcr keyframe ;;
  do* (w, ok) <- write_block w d buf (zlen buf) ;;
  do ticks <- c_int64 (media_ticks_ m + duration_90k) ;;
  Ret (with_mux w (video_started_ w)
         {| media_ticks_ := ticks; last_psi_ticks_ := last_psi_ticks_ m;
            psi_pending_ := psi_pending_ m; cc_video_ := cc;
            cc_pat_ := cc_pat_ m; cc_pmt_ := cc_pmt_ m |} buf, ok).

Definition sync_now (w : TsWriter) (d : Disk) : TsWriter * bool :=
  match file w with
  | None => (w, true)
  | Some _ =>
    let ok := fflush_ret d =? 0 in
    let ok := if ok && negb (fdatasync_ret d =? 0) then false else ok in
    (with_sync w 0 (now_sync d), ok)
  end.

Definition sync_if_due (w : TsWriter) (d : Disk) : TsWriter :=
  if (bytes_since_sync_ w <? SYNC_BYTES) && (now d - last_sync_ms_ w <? SYNC_INTERVAL_MS)
  then w
  else
    let '(w, ok) := sync_now w d in
    if negb ok
    then with_failures w (discard_count_ w) (u32 (write_fail_count w + 1))
           (u32 (write_fail_streak w + 1))
    else w.

(** Opening for writing truncates the file: it is empty. *)
Definition open (w : TsWriter) (d : Disk) : TsWriter * bool :=
  if negb (fopen_ok d) then (with_output w None (file_size_bytes w), false)
  else
    let w := with_output w (Some []) 0 in
    let w := with_failures w (discard_count_ w) 0 0 in
    (with_sync w 0 (now d), true).

Definition begin_video (w : TsWriter) : TsWriter * bool :=
  match file w with
  | None => (w, false)
  | Some _ => (with_mux w true mux_reset [], true)
  end.

Definition write_nal (w : TsWriter) (d : Disk) (data : list Z) (len duration_90k : Z) :
    outcome (TsWriter * bool) :=
  if len <=? 0 then Ret (w, true)
  else if match file w with None => true | _ => false end || negb (video_started_ w) then
    Ret (with_failures w (u32 (discard_count_ w + 1)) (write_fail_count w)
           (write_fail_streak w), false)
  else
    do* (w, ok) <- mux_access_unit w d data len duration_90k ;;
    if negb ok then
      Ret (with_failures w (discard_count_ w) (u32 (write_fail_count w + 1))
             (u32 (write_fail_streak w + 1)), false)
    else
      let w := with_failures w (discard_count_ w) 0 0 in
      let w := with_sync w (u64 (bytes_since_sync_ w + len)) (last_sync_ms_ w) in
      Ret (sync_if_due w d, true).

(** The bytes of the closed file are the second result. *)
Definition close (w : TsWriter) (d : Disk) : TsWriter * option (list Z) * bool :=
  let w := with_mux w false (mux_ w) (pkt_buf_ w) in
  let '(w, sync_ok) := sync_now w d in
  match file w with
  | Some bytes =>
    (with_output w None (file_size_bytes w), Some bytes, sync_ok && (fclose_ret d =? 0))
  | None => (w, None, sync_ok)
  end.

Definition TsWriter_delete (w : TsWriter) (d : Disk) : TsWriter :=
  match file w with
  | Some _ => let '(w, _, _) := close w d in w
  | None => w
  end.

Definition is_open (w : TsWriter) : bool := match file w with Some _ => true | None => false end.
Definition size (w : TsWriter) : Z := file_size_bytes w.
Definition consecutive_write_failures (w : TsWriter) : Z := write_fail_streak w.
