(* ===== verification/TsSpec.v ===== *)
(** * Reading an MPEG transport stream

    The format as a player sees it (ISO/IEC 13818-1), independent of the muxer: packets
    of 188 bytes with their adaptation field, sections closed by a CRC, the program
    tables that lead to the video stream, PES packets put together from the packets
    between two unit starts.  [demux] is a player: it finds the video through the
    tables, insists on continuous counters and gives the pictures with their times. *)

From S2P Require Import Prelude TsWriter.

(** ** Packets *)

Record packet := {
  pusi : bool; pid : Z; cc : Z; rai : bool; pcr : option Z; payload : list Z
}.

(** Time fields, by the weight of every byte. *)
Definition read_pcr (l : list Z) : option Z :=
  match l with
  | [b0; b1; b2; b3; b4; b5] =>
    let ext := (b4 mod 2) * 2 ^ 8 + b5 in
    if ext =? 0 then Some (b0 * 2 ^ 25 + b1 * 2 ^ 17 + b2 * 2 ^ 9 + b3 * 2 + b4 / 2 ^ 7) else None
  | _ => None
  end.

Definition read_timestamp (prefix : Z) (l : list Z) : option Z :=
  match l with
  | [b0; b1; b2; b3; b4] =>
    if (b0 / 2 ^ 4 =? prefix) && (b0 mod 2 =? 1) && (b2 mod 2 =? 1) && (b4 mod 2 =? 1)
    then Some (b0 / 2 mod 8 * 2 ^ 30 + b1 * 2 ^ 22 + b2 / 2 * 2 ^ 15 + b3 * 2 ^ 7 + b4 / 2)
    else None
  | _ => None
  end.

(** An adaptation field without its length byte: random access flag, clock, stuffing.
    Only the two flags the tables of this stream allow may be set. *)
Definition read_af (l : list Z) : option (bool * option Z) :=
  match l with
  | [] => Some (false, None)
  | flags :: l =>
    let has_pcr := Z.testbit flags 4 in
    if negb (Z.land flags 0xAF =? 0) then None
    else if negb (forallb (Z.eqb 0xFF) (drop (if has_pcr then 6 else 0) l)) then None
    else if has_pcr
    then base ← read_pcr (take 6 l); Some (Z.testbit flags 6, Some base)
    else Some (Z.testbit flags 6, None)
  end.

Definition read_packet (l : list Z) : option packet :=
  match l with
  | sync :: b1 :: b2 :: b3 :: rest =>
    let mk := Build_packet (Z.testbit b1 6) (b1 mod 2 ^ 5 * 2 ^ 8 + b2) (b3 mod 2 ^ 4) in
    if negb ((sync =? 0x47) && (zlen l =? TS_PACKET_SIZE) && negb (Z.testbit b1 7)) then None
    else if b3 / 2 ^ 4 =? 1 then Some (mk false None rest)
    else if b3 / 2 ^ 4 =? 3 then
      match rest with
      | [] => None
      | af_len :: rest =>
        if zlen rest <? af_len then None
        else '(ra, clock) ← read_af (take (Z.to_nat af_len) rest);
             Some (mk ra clock (drop (Z.to_nat af_len) rest))
      end
    else None
  | _ => None
  end.

(** A file of whole packets. *)
Fixpoint read_packets (n : nat) (l : list Z) : option (list packet) :=
  match n with
  | O => match l with [] => Some [] | _ => None end
  | S n => p ← read_packet (take 188 l); ps ← read_packets n (drop 188 l); Some (p :: ps)
  end.

Definition packets (l : list Z) : option (list packet) :=
  if zlen l mod TS_PACKET_SIZE =? 0
  then read_packets (Z.to_nat (zlen l / TS_PACKET_SIZE)) l else None.

Definition of_pid (v : Z) (ps : list packet) : list packet :=
  List.filter (fun p => pid p =? v) ps.

(** The counters of one stream follow each other modulo 16. *)
Fixpoint continuous (ps : list packet) : bool :=
  match ps with
  | p :: (q :: _) as rest => (cc q =? (cc p + 1) mod 16) && continuous rest
  | _ => true
  end.

(** ** Sections *)

(** The section of a packet that starts one: what its length field covers, without
    the CRC, provided the check sum over section and CRC is zero and the rest of the
    packet is stuffing. *)
Definition read_section (p : packet) : option (list Z) :=
  match payload p with
  | 0 :: l =>
    match l with
    | _ :: b1 :: b2 :: _ =>
      let len := 3 + b1 mod 2 ^ 4 * 2 ^ 8 + b2 in
      let section := take (Z.to_nat len) l in
      if pusi p && (zlen section =? len) && (7 <=? len)
         && forallb (Z.eqb 0xFF) (drop (Z.to_nat len) l)
         && (foldl crc_byte 0xFFFFFFFF section =? 0)
      then Some (take (Z.to_nat (len - 4)) section) else None
    | _ => None
    end
  | _ => None
  end.

(** The PID of the program map in a program association table of one program. *)
Definition read_pat (s : list Z) : option Z :=
  match s with
  | [0; _; _; _; _; _; _; _; p1; p0; b1; b0] =>
    if 0 <? p1 * 2 ^ 8 + p0 then Some (b1 mod 2 ^ 5 * 2 ^ 8 + b0) else None
  | _ => None
  end.

(** The PID of the H.265 stream of a program map, if it also carries the clock. *)
Definition read_pmt (s : list Z) : option Z :=
  match s with
  | [2; _; _; _; _; _; _; _; c1; c0; _; 0; 0x24; b1; b0; _; 0] =>
    if (c1 mod 2 ^ 5 =? b1 mod 2 ^ 5) && (c0 =? b0) then Some (b1 mod 2 ^ 5 * 2 ^ 8 + b0) else None
  | _ => None
  end.

(** ** Pictures *)

(** The packets of one unit, from a unit start up to the next. *)
Fixpoint units (ps : list packet) : list (packet * list Z) :=
  match ps with
  | [] => []
  | p :: ps =>
    match units ps with
    | (q, bytes) :: us =>
      if pusi q then (p, payload p) :: (q, bytes) :: us
      else (p, payload p ++ bytes) :: us
    | [] => [(p, payload p)]
    end
  end.

Record picture := { p_pts : Z; p_pcr : Z; p_random_access : bool; p_data : list Z }.

(** A video PES packet of unbounded length with a presentation time. *)
Definition read_pes (l : list Z) : option (Z * list Z) :=
  match l with
  | 0 :: 0 :: 1 :: id :: 0 :: 0 :: f1 :: f2 :: hlen :: rest =>
    if (id =? 0xE0) && (f1 / 2 ^ 6 =? 2) && (f2 / 2 ^ 6 =? 2) && (hlen =? 5) then
      pts ← read_timestamp 2 (take 5 rest); Some (pts, drop 5 rest)
    else None
  | _ => None
  end.

Definition read_picture (u : packet * list Z) : option picture :=
  '(pts, data) ← read_pes u.2;
  clock ← pcr u.1;
  if pusi u.1
  then Some {| p_pts := pts; p_pcr := clock; p_random_access := rai u.1; p_data := data |}
  else None.

(** The player: the file begins with the two tables, every table in it says the same,
    every counter is continuous. *)
Definition tables (ps : list packet) : option Z :=
  p ← head (of_pid 0 ps);
  s ← read_section p;
  pmt_pid ← read_pat s;
  q ← head (of_pid pmt_pid ps);
  s' ← read_section q;
  read_pmt s'.

Definition demux (file : list Z) : option (list picture) :=
  ps ← packets file;
  video ← tables ps;
  if forallb (fun v => continuous (of_pid v ps)) [PID_PAT; PID_PMT; video]
  then mapM read_picture (units (of_pid video ps)) else None.

(** ** What a recording should contain *)

(** Some NAL unit of the byte stream is a random access point. *)
Definition irap_at (d : list Z) (i : Z) : bool :=
  match drop (Z.to_nat i) d with
  | 0 :: 0 :: 1 :: b :: _ => (16 <=? b / 2 mod 64) && (b / 2 mod 64 <=? 21)
  | _ => false
  end.

Definition has_irap (d : list Z) : bool :=
  existsb (irap_at d) (map Z.of_nat (List.seq 0 (length d))).

(** The picture an access unit given at time [t] is read back as. *)
Definition picture_of (t : Z) (au : list Z) : picture := {|
  p_pts := (t + 90000) mod 2 ^ 33; p_pcr := t mod 2 ^ 33;
  p_random_access := has_irap au; p_data := au |}.

Fixpoint pictures_of (t : Z) (aus : list (list Z * Z)) : list picture :=
  match aus with
  | [] => []
  | (au, duration) :: aus => picture_of t au :: pictures_of (t + duration) aus
  end.
