(* ===== verification/TsProps.v ===== *)
(** * The muxer writes a stream a player can read

    Packet by packet: what [pes_loop] appends is read back by [TsSpec.read_packet] with
    the payload cut out of PES header and access unit.  Then the counters, the tables and
    the units of a whole session of [write_nal] calls. *)

From S2P Require Import Prelude TsWriter TsSpec.
From stdpp Require Import list.
Open Scope Z_scope.

(** ** Random access points *)

Lemma irap_at_cons d i b0 b1 b2 b3 rest :
  drop (Z.to_nat i) d = b0 :: b1 :: b2 :: b3 :: rest ->
  irap_at d i = (b0 =? 0) && (b1 =? 0) && (b2 =? 1) && irap_type b3.
Proof.
  intros E. unfold irap_at, irap_type. rewrite E.
  rewrite (Z.shiftr_div_pow2 _ 1), (land_ones_mod _ 6) by lia.
  destruct b0 as [|?|?]; [|done..]. destruct b1 as [|?|?]; [|done..].
  by destruct b2 as [|[?|?|]|?].
Qed.

(** The four bytes at [i]. *)
Lemma four_bytes (d : list Z) i :
  0 <= i -> i + 3 < zlen d ->
  exists b0 b1 b2 b3 rest, drop (Z.to_nat i) d = b0 :: b1 :: b2 :: b3 :: rest.
Proof.
  intros Hi Hl. assert (3 < zlen (drop (Z.to_nat i) d)) by zlia.
  destruct (drop _ d) as [|b0 [|b1 [|b2 [|b3 rest]]]]; try (zlia; fail). by exists b0, b1, b2, b3, rest.
Qed.

Lemma drop_rd (d : list Z) i k b rest l :
  0 <= i -> 0 <= k -> drop (Z.to_nat i) d = l -> drop (Z.to_nat k) l = b :: rest ->
  rd d (i + k) = Ret b.
Proof.
  intros Hi Hk <- E. rewrite <- rd_adv by lia. apply rd_lookup; [lia|].
  unfold adv. rewrite <- (Nat.add_0_r (Z.to_nat k)), <- lookup_drop, E. done.
Qed.

Lemma irap_at_end d i : zlen d <= i + 3 -> 0 <= i -> irap_at d i = false.
Proof.
  intros Hl Hi. unfold irap_at. assert (zlen (drop (Z.to_nat i) d) <= 3) by zlia.
  destruct (drop _ d) as [|[] [|[] [|[|[]|] [|]]]]; try done; zlia.
Qed.

(** The positions from [i] on, as the scan takes them. *)
Definition irap_from (d : list Z) (i : Z) : bool :=
  existsb (irap_at d) (map (fun k => i + Z.of_nat k) (List.seq 0 (Z.to_nat (zlen d - i)))).

Lemma irap_from_step d i :
  0 <= i < zlen d -> irap_from d i = irap_at d i || irap_from d (i + 1).
Proof.
  intros Hi. unfold irap_from.
  replace (Z.to_nat (zlen d - i)) with (S (Z.to_nat (zlen d - (i + 1)))) by lia.
  cbn [List.seq map existsb]. rewrite Z.add_0_r. f_equal.
  rewrite <- seq_shift, map_map. f_equal. apply map_ext. intros. lia.
Qed.

Lemma irap_from_end d i : zlen d <= i + 3 -> 0 <= i -> irap_from d i = false.
Proof.
  intros Hl Hi. unfold irap_from. apply not_true_is_false. intros Ht.
  apply existsb_exists in Ht as (k & (j & <- & Hj)%in_map_iff & Hk).
  rewrite irap_at_end in Hk by lia. done.
Qed.

Lemma keyframe_loop_spec fuel d i :
  0 <= i -> (Z.to_nat (zlen d - i) <= fuel)%nat -> (0 < fuel)%nat ->
  keyframe_loop fuel d (zlen d) i = Ret (irap_from d i).
Proof.
  revert i. induction fuel as [|fuel IH]; intros i Hi Hf Hpos; [lia|]. cbn [keyframe_loop].
  destruct (Z.ltb_spec (i + 3) (zlen d)); [|by rewrite irap_from_end by lia].
  destruct (four_bytes d i) as (b0 & b1 & b2 & b3 & rest & E); [lia..|].
  unfold start_code_at. replace (rd d i) with (rd d (i + 0)) by (f_equal; lia).
  rewrite (drop_rd d i 0 b0 _ _ Hi ltac:(lia) E eq_refl),
    (drop_rd d i 1 b1 _ _ Hi ltac:(lia) E eq_refl),
    (drop_rd d i 2 b2 _ _ Hi ltac:(lia) E eq_refl),
    (drop_rd d i 3 b3 _ _ Hi ltac:(lia) E eq_refl).
  rewrite (irap_from_step _ i) by lia. rewrite (irap_at_cons _ _ _ _ _ _ _ E). cbn [obind].
  destruct (Z.eqb_spec b0 0) as [->|]; cbn [negb obind andb orb]; [|apply IH; lia].
  destruct (Z.eqb_spec b1 0) as [->|]; cbn [negb obind andb orb]; [|apply IH; lia].
  destruct (Z.eqb_spec b2 1) as [->|]; cbn [negb obind andb orb]; [|apply IH; lia].
  destruct (irap_type b3) eqn:Et; cbn [orb]; [done|].
  rewrite (IH (i + 2 + 1)) by lia. f_equal.
  assert (S : forall k l, drop (Z.to_nat i) d = l -> 0 <= k -> drop (Z.to_nat (i + k)) d = drop (Z.to_nat k) l).
  { intros k l <- ?. rewrite drop_drop. f_equal. lia. }
  rewrite (irap_from_step _ (i + 1)), (irap_from_step _ (i + 1 + 1)) by lia.
  replace (i + 1 + 1) with (i + 2) by lia.
  unfold irap_at at 1 2. rewrite (S 1 _ E), (S 2 _ E) by lia.
  change (Z.to_nat 1) with 1%nat. change (Z.to_nat 2) with 2%nat. cbn [drop].
  destruct rest as [|? []]; done.
Qed.

Lemma au_is_keyframe_has_irap d : au_is_keyframe d (zlen d) = Ret (has_irap d).
Proof.
  unfold au_is_keyframe. assert (E : has_irap d = irap_from d 0).
  { unfold has_irap, irap_from, zlen. by rewrite Z.sub_0_r, Nat2Z.id. }
  rewrite E. destruct (Z.ltb_spec (zlen d) 4); [by rewrite irap_from_end by lia|].
  apply keyframe_loop_spec; lia.
Qed.

(** ** One packet *)

Lemma packet_room_spec first keyframe remaining :
  0 < remaining ->
  let '(af_len, af_total, room) := packet_room first keyframe remaining in
  0 < room <= remaining /\ af_total + room = 184 /\ 0 <= af_len /\ 0 <= af_total /\
  (af_total <> 0 -> af_total = af_len + 1) /\
  (if first then 7 <= af_len /\ af_total <> 0 else True).
Proof.
  intros Hr. unfold packet_room, TS_PACKET_SIZE, u64.
  destruct first; cbn [orb andb]; change (1 + 6) with 7; change (1 + 0) with 1;
    change (7 =? 0) with false; change (0 =? 0) with true; cbn [negb];
    change (7 + 1) with 8; change (8 =? 0) with false; cbv beta iota.
  - change ((188 - 4 - 8) mod 2 ^ 64) with 176. destruct (Z.ltb_spec remaining 176); lia.
  - change (0 =? 0) with true. cbv iota. change ((188 - 4 - 0) mod 2 ^ 64) with 184. destruct (Z.ltb_spec remaining 184); [|lia].
    destruct (Z.eqb_spec (184 - remaining) 1); lia.
Qed.

Lemma adv_all {A} (l : list A) n : zlen l <= n -> adv l n = [].
Proof. intros. apply drop_ge. unfold zlen in *. lia. Qed.

(** The adaptation field as bytes. *)
Definition af_bytes (af_len af_total : Z) (first keyframe : bool) (pcr : Z) : list Z :=
  if af_total =? 0 then []
  else u8 af_len ::
    if af_len =? 0 then []
    else Z.lor (if first && keyframe then 0x40 else 0x00) (if first then 0x10 else 0x00)
         :: (if first then write_pcr pcr else [])
         ++ replicate (Z.to_nat (af_len - 1 - (if first then 6 else 0))) 0xFF.

Lemma zlen_write_pcr b : zlen (write_pcr b) = 6.
Proof. done. Qed.
Lemma zlen_pes_header pts : zlen (pes_header pts) = 14.
Proof. done. Qed.
#[local] Hint Rewrite zlen_write_pcr zlen_pes_header : zlen.

Definition af_fits (first : bool) (af_len af_total : Z) : Prop :=
  0 <= af_len /\ 0 <= af_total <= 184 /\ (af_total <> 0 -> af_total = af_len + 1) /\
  (if first then 7 <= af_len /\ af_total <> 0 else True).

Lemma zlen_af_bytes first keyframe af_len af_total pcr :
  af_fits first af_len af_total -> zlen (af_bytes af_len af_total first keyframe pcr) = af_total.
Proof.
  unfold af_bytes. intros (Hl & Ht & He & Hf).
  destruct (Z.eqb_spec af_total 0); [done|]. destruct (Z.eqb_spec af_len 0); destruct first; zlia.
Qed.

(** A store right behind what is written. *)
Lemma store l1 (l2 : list Z) off bs :
  off = zlen l1 -> zlen bs <= zlen l2 ->
  wrn (l1 ++ l2) off bs = Ret ((l1 ++ bs) ++ adv l2 (zlen bs)).
Proof. apply wrn_app. Qed.

Lemma rd_head l1 (l2 : list Z) off b : off = zlen l1 -> rd ((l1 ++ [b]) ++ l2) off = Ret b.
Proof. intros. rewrite <- app_assoc. cbn [app]. by apply rd_last. Qed.

(** Writing the last byte again. *)
Lemma store_again l1 (l2 : list Z) off b c :
  off = zlen l1 -> wrn ((l1 ++ [b]) ++ l2) off [c] = Ret ((l1 ++ [c]) ++ l2).
Proof.
  intros. rewrite <- app_assoc. rewrite store by zlia. done.
Qed.

Lemma emit_af_spec l1 l2 p0 af_len af_total first keyframe pcr :
  af_fits first af_len af_total -> p0 + 4 = zlen l1 -> af_total <= zlen l2 ->
  emit_af (l1 ++ l2) p0 (p0 + 4) af_len af_total first keyframe pcr
  = Ret ((l1 ++ af_bytes af_len af_total first keyframe pcr) ++ adv l2 af_total,
         p0 + 4 + af_total).
Proof.
  intros Hfit Hp Hl. pose proof Hfit as (Hn & Ht & He & Hf). unfold emit_af, af_bytes.
  destruct (Z.eqb_spec af_total 0) as [->|Hz].
  { by rewrite adv_0, app_nil_r, Z.add_0_r. }
  rewrite store by zlia. cbn [obind].
  destruct (Z.eqb_spec af_len 0).
  { do 2 f_equal; [by rewrite He, e by lia|lia]. }
  rewrite store by zlia. cbn [obind].
  set (flags := if first && keyframe then 64 else 0).
  destruct first; cbn [andb] in *.
  - rewrite rd_head by zlia. cbn [obind]. rewrite store_again by zlia. cbn [obind].
    rewrite store by zlia. cbn [obind]. unfold u64.
    replace (p0 + 4 + af_total - _) with (af_len - 1 - 6) by lia.
    rewrite (Z.mod_small (af_len - 1 - _)), store by zlia. cbn [obind]. rewrite !adv_adv by zlia.
    rewrite <- !app_assoc. cbn [app]. replace (zlen [u8 af_len] + _) with af_total by zlia.
    do 2 f_equal. lia.
  - rewrite Z.lor_0_r. cbn [obind]. unfold u64.
    replace (p0 + 4 + af_total - _) with (af_len - 1 - 0) by lia.
    rewrite (Z.mod_small (af_len - 1 - _)), store by zlia. cbn [obind]. rewrite !adv_adv by zlia.
    rewrite <- !app_assoc. cbn [app]. replace (zlen [u8 af_len] + _) with af_total by zlia.
    do 2 f_equal. lia.
Qed.

Lemma slice_split n m (l : list Z) off :
  0 <= n -> 0 <= m -> 0 <= off ->
  take (Z.to_nat (n + m)) (drop (Z.to_nat off) l)
  = take (Z.to_nat n) (drop (Z.to_nat off) l) ++ take (Z.to_nat m) (drop (Z.to_nat (off + n)) l).
Proof.
  intros. replace (Z.to_nat (off + n)) with (Z.to_nat off + Z.to_nat n)%nat by lia.
  rewrite <- drop_drop. replace (Z.to_nat (n + m)) with (Z.to_nat n + Z.to_nat m)%nat by lia.
  by rewrite take_take_drop.
Qed.

(** What [rdn] reads from the piece the position lies in is the slice of both. *)
Lemma rdn_stream pes (au : list Z) at_ n :
  zlen pes = 14 -> 0 <= at_ -> 0 <= n ->
  n <= (if at_ <? 14 then 14 - at_ else zlen au - (at_ - 14)) ->
  rdn (if at_ <? 14 then adv pes at_ else adv au (at_ - 14)) 0 n
  = Ret (take (Z.to_nat n) (drop (Z.to_nat at_) (pes ++ au))).
Proof.
  intros Hp Ha Hn Hl. unfold rdn. change (Z.to_nat 0) with 0%nat. rewrite drop_0.
  destruct (Z.ltb_spec at_ 14).
  - do 3 (zif || (rewrite (proj2 (Z.leb_le _ _)) by zlia)). cbn [andb]. f_equal. unfold adv.
    rewrite drop_app_le by (unfold zlen in Hp; lia).
    rewrite take_app_le; [done|]. rewrite length_drop. unfold zlen in Hp. lia.
  - do 3 (zif || (rewrite (proj2 (Z.leb_le _ _)) by zlia)). cbn [andb]. f_equal. unfold adv.
    rewrite drop_app_ge by (unfold zlen in Hp; lia). do 2 f_equal. unfold zlen in Hp. lia.
Qed.

Lemma copy_slice_spec fuel l1 l2 pes au pos p room copied :
  zlen pes = 14 -> 0 <= pos -> 0 <= copied <= room -> pos + room <= 14 + zlen au ->
  p + copied = zlen l1 -> room - copied <= zlen l2 -> (Z.to_nat (room - copied) < fuel)%nat ->
  copy_slice fuel (l1 ++ l2) pes au (zlen au) pos p room copied
  = Ret ((l1 ++ take (Z.to_nat (room - copied)) (drop (Z.to_nat (pos + copied)) (pes ++ au)))
         ++ adv l2 (room - copied)).
Proof.
  revert l1 l2 copied. induction fuel as [|fuel IH]; intros l1 l2 copied Hp Hpos Hc Hl E Hl2 Hf; [lia|].
  cbn [copy_slice]. destruct (Z.ltb_spec copied room).
  2:{ replace (room - copied) with 0 by lia. by rewrite adv_0, take_0, app_nil_r. }
  set (at_ := pos + copied).
  set (avail := if at_ <? 14 then 14 - at_ else zlen au - (at_ - 14)).
  assert (Ea : (if at_ <? 14 then (adv pes at_, 14 - at_)
                else (adv au (at_ - 14), zlen au - (at_ - 14)))
               = (if at_ <? 14 then adv pes at_ else adv au (at_ - 14), avail)).
  { unfold avail. by destruct (at_ <? 14). }
  rewrite Ea. set (n := if room - copied <? avail then room - copied else avail).
  assert (Hn : 0 < n <= room - copied /\ n <= avail).
  { unfold n, avail. destruct (Z.ltb_spec at_ 14), (Z.ltb_spec (room - copied)
      (if at_ <? 14 then 14 - at_ else zlen au - (at_ - 14))); unfold at_ in *;
      repeat case_match; zlia. }
  rewrite rdn_stream; [|done|unfold at_; lia|lia|unfold avail in Hn; lia]. cbn [obind].
  set (piece := take (Z.to_nat n) _).
  assert (Hpiece : zlen piece = n) by (unfold piece, at_; zlia).
  rewrite store by lia. cbn [obind].
  rewrite IH; [|done|lia|lia|lia|zlia|zlia|lia]. rewrite Hpiece.
  rewrite adv_adv by lia. f_equal.
  replace (room - copied) with (n + (room - (copied + n))) at 1 by lia.
  rewrite slice_split by lia. rewrite <- !app_assoc. unfold piece, at_.
  replace (pos + (copied + n)) with (pos + copied + n) by lia.
  by replace (n + (room - (copied + n))) with (room - copied) by lia.
Qed.

(** ** Time fields *)

Lemma byte_field v k : 0 <= k -> u8 (Z.land (Z.shiftr v k) 0xFF) = v / 2 ^ k mod 2 ^ 8.
Proof.
  intros. rewrite Z.shiftr_div_pow2, (land_ones_mod _ 8) by lia. unfold u8.
  apply Z.mod_mod. lia.
Qed.

(** A field of [n] bits in front of a marker bit. *)
Lemma marked_field v n :
  0 <= n < 8 -> u8 (Z.lor (Z.shiftl (Z.land v (2 ^ n - 1)) 1) 0x01) = v mod 2 ^ n * 2 + 1.
Proof.
  intros Hn. rewrite land_ones_mod, Z.shiftl_mul_pow2 by lia. change (2 ^ 1) with 2.
  rewrite (lor_add _ 1 1) by lia.
  pose proof (Z.pow_le_mono_r 2 n 7). pose proof (Z.mod_pos_bound v (2 ^ n)).
  pose proof (Z.pow_pos_nonneg 2 n). unfold u8. rewrite Z.mod_small; lia.
Qed.

Lemma read_write_pcr base : 0 <= base < 2 ^ 33 -> read_pcr (write_pcr base) = Some base.
Proof.
  intros Hb. unfold write_pcr. rewrite !byte_field by lia.
  replace (u8 (Z.lor (Z.shiftl (Z.land base 1) 7) 126)) with (base mod 2 * 2 ^ 7 + 126).
  2:{ rewrite (land_ones_mod _ 1), Z.shiftl_mul_pow2, (lor_add _ 126 7) by lia. unfold u8. lia. }
  unfold read_pcr. rewrite (proj2 (Z.eqb_eq _ 0)) by lia. f_equal. lia.
Qed.

Lemma read_write_timestamp ts :
  0 <= ts < 2 ^ 33 -> read_timestamp 2 (write_timestamp 2 ts) = Some ts.
Proof.
  intros Ht. unfold write_timestamp. rewrite !byte_field by lia.
  change 0x7F with (2 ^ 7 - 1). rewrite !marked_field by lia.
  replace (u8 (Z.lor (Z.lor _ _) 1)) with (32 + ts / 2 ^ 30 mod 8 * 2 + 1).
  2:{ rewrite (land_ones_mod _ 3), !Z.shiftl_mul_pow2, Z.shiftr_div_pow2 by lia.
      rewrite (lor_add (2 * 2 ^ 4) _ 4), (lor_add _ 1 1) by lia. unfold u8. lia. }
  rewrite Z.shiftr_div_pow2 by lia. unfold read_timestamp.
  rewrite !(proj2 (Z.eqb_eq _ _)) by lia. cbn [andb]. f_equal. lia.
Qed.

Lemma mask_mod v : Z.land v TS_TIMESTAMP_MASK = v mod 2 ^ 33.
Proof. apply (land_ones_mod _ 33). lia. Qed.

(** ** Reading a packet back *)

Definition pkt_bytes (first keyframe : bool) (clock c af_len af_total : Z) (slice : list Z) :=
  [0x47; (if first then 0x41 else 0x01); 0x00; (if af_total =? 0 then 0x10 else 0x30) + c]
  ++ af_bytes af_len af_total first keyframe clock ++ slice.

Lemma forallb_replicate {A} (f : A -> bool) n a : f a = true -> forallb f (replicate n a) = true.
Proof. intros Hf. induction n; [done|]. cbn [replicate forallb]. by rewrite Hf. Qed.

Lemma read_af_spec (first keyframe : bool) clock af_len :
  0 < af_len -> (if first then 7 <= af_len else True) -> 0 <= clock < 2 ^ 33 ->
  read_af (Z.lor (if first && keyframe then 0x40 else 0x00) (if first then 0x10 else 0x00)
           :: (if first then write_pcr clock else [])
           ++ replicate (Z.to_nat (af_len - 1 - (if first then 6 else 0))) 0xFF)
  = Some (first && keyframe, if first then Some clock else None).
Proof.
  intros Hl Hf Hc. unfold read_af. destruct first; cbn [andb].
  - replace (Z.testbit _ 4) with true by (by destruct keyframe).
    replace (Z.land _ 0xAF =? 0) with true by (by destruct keyframe).
    change 6%nat with (length (write_pcr clock)).
    rewrite drop_app_length, take_app_length, forallb_replicate by done.
    cbn [negb]. rewrite read_write_pcr by done. by destruct keyframe.
  - cbn [app]. change (Z.testbit _ 4) with false. cbv iota.
    change (Z.land _ _ =? 0) with true. rewrite drop_0, forallb_replicate by done. done.
Qed.

Lemma read_pkt_bytes first keyframe clock c af_len af_total slice :
  af_fits first af_len af_total -> 0 <= c < 16 -> 0 <= clock < 2 ^ 33 ->
  zlen slice = 184 - af_total ->
  read_packet (pkt_bytes first keyframe clock c af_len af_total slice)
  = Some {| pusi := first; pid := PID_VIDEO; cc := c; rai := first && keyframe;
            pcr := if first then Some clock else None; payload := slice |}.
Proof.
  intros Hfit Hc Hclock Hs. pose proof Hfit as (Hl & Ht & He & Hf).
  pose proof (zlen_af_bytes first keyframe af_len af_total clock Hfit) as Haf.
  unfold pkt_bytes, read_packet. cbn [app].
  match goal with |- context [zlen ?l =? 188] => idtac | |- context [zlen ?l =? TS_PACKET_SIZE] =>
    rewrite (proj2 (Z.eqb_eq (zlen l) TS_PACKET_SIZE)) by (unfold TS_PACKET_SIZE; zlia) end.
  replace (Z.testbit _ 7) with false by (by destruct first).
  replace (Z.testbit _ 6) with first by (by destruct first).
  replace ((if first then 65 else 1) mod 2 ^ 5 * 2 ^ 8 + 0) with PID_VIDEO by (by destruct first).
  change (71 =? 71) with true. cbn [andb negb].
  unfold af_bytes in *. destruct (Z.eqb_spec af_total 0).
  - rewrite (proj2 (Z.eqb_eq ((16 + c) / 2 ^ 4) 1)) by lia.
    replace ((16 + c) mod 2 ^ 4) with c by lia. destruct first; [lia|]. done.
  - rewrite (proj2 (Z.eqb_neq ((48 + c) / 2 ^ 4) 1)), (proj2 (Z.eqb_eq ((48 + c) / 2 ^ 4) 3)) by lia.
    replace ((48 + c) mod 2 ^ 4) with c by lia. cbn [app].
    unfold u8 in *. rewrite (Z.mod_small af_len) in * by lia.
    rewrite zlen_cons in Haf. rewrite zlen_app. rewrite (proj2 (Z.ltb_ge _ _)) by zlia.
    set (body := if af_len =? 0 then _ else _) in *.
    assert (Hbody : Z.to_nat af_len = length body) by (unfold zlen in Haf; lia).
    rewrite Hbody, take_app_length, drop_app_length. unfold body.
    destruct (Z.eqb_spec af_len 0); [destruct first; [lia|done]|].
    rewrite read_af_spec by (lia || done || destruct first; lia). done.
Qed.

Lemma zlen_pkt_bytes first keyframe clock c af_len af_total slice :
  af_fits first af_len af_total -> zlen slice = 184 - af_total ->
  zlen (pkt_bytes first keyframe clock c af_len af_total slice) = 188.
Proof.
  intros Hfit Hs. unfold pkt_bytes. rewrite !zlen_app, zlen_af_bytes by done. zlia.
Qed.

(** ** Runs of packets *)

Definition chunk (bytes : list Z) (ps : list packet) : Prop :=
  zlen bytes = 188 * zlen ps /\ read_packets (length ps) bytes = Some ps.

Lemma chunk_nil : chunk [] [].
Proof. done. Qed.

Lemma chunk_cons b p bytes ps :
  zlen b = 188 -> read_packet b = Some p -> chunk bytes ps -> chunk (b ++ bytes) (p :: ps).
Proof.
  intros Hb Hp (Hl & Hr). split; [zlia|]. cbn [length read_packets].
  replace 188%nat with (length b) by (unfold zlen in Hb; lia).
  by rewrite take_app_length, drop_app_length, Hp; cbn; rewrite Hr.
Qed.

Lemma chunk_app b1 ps1 b2 ps2 : chunk b1 ps1 -> chunk b2 ps2 -> chunk (b1 ++ b2) (ps1 ++ ps2).
Proof.
  revert b1. induction ps1 as [|p ps1 IH]; intros b1 (Hl & Hr) H2.
  - assert (b1 = []) as -> by (destruct b1; [done|zlia]). done.
  - cbn [read_packets length app] in *. destruct (read_packet (take 188 b1)) as [q|] eqn:Eq; [|done].
    cbn in Hr. destruct (read_packets (length ps1) (drop 188 b1)) eqn:Er; cbn in Hr; [|done].
    injection Hr as -> ->. rewrite <- (take_drop 188 b1), <- app_assoc.
    apply chunk_cons; [zlia|done|]. apply IH; [|done]. split; [zlia|done].
Qed.

Lemma chunk_packets bytes ps : chunk bytes ps -> packets bytes = Some ps.
Proof.
  intros (Hl & Hr). unfold packets, TS_PACKET_SIZE.
  rewrite (proj2 (Z.eqb_eq _ 0)) by lia. rewrite Hl.
  replace (188 * zlen ps / 188) with (zlen ps) by lia. unfold zlen. by rewrite Nat2Z.id.
Qed.

(** The counters are [c], [c + 1], ... modulo 16. *)
Fixpoint counted (c : Z) (ps : list packet) : Prop :=
  match ps with
  | [] => True
  | p :: ps => cc p = c /\ counted ((c + 1) mod 16) ps
  end.

Lemma counted_app c ps qs :
  0 <= c < 16 -> counted c ps -> counted ((c + zlen ps) mod 16) qs -> counted c (ps ++ qs).
Proof.
  revert c. induction ps as [|p ps IH]; intros c Hc Hp Hq; cbn [app counted] in *.
  - rewrite zlen_nil, Z.add_0_r, Z.mod_small in Hq by lia. done.
  - destruct Hp as (? & Hp). split; [done|]. apply IH; [lia|done|].
    rewrite zlen_cons in Hq. by rewrite Zplus_mod_idemp_l, <- Z.add_assoc.
Qed.

Lemma counted_continuous c ps : counted c ps -> continuous ps = true.
Proof.
  revert c. induction ps as [|p [|q ps] IH]; intros c H; [done..|].
  destruct H as (Hp & Hq & H). change ((cc q =? (cc p + 1) mod 16) && continuous (q :: ps) = true).
  rewrite Hp, Hq, Z.eqb_refl. cbn [andb]. apply (IH ((c + 1) mod 16)). by split.
Qed.

Lemma next_cc c : 0 <= c < 16 -> u8 (Z.land (c + 1) 0x0F) = (c + 1) mod 16.
Proof. intros. rewrite (land_ones_mod _ 4) by lia. unfold u8. lia. Qed.

Lemma cc_byte b c :
  0 <= c < 16 -> b mod 16 = 0 -> 0 <= b < 240 -> u8 (Z.lor b (Z.land c 0x0F)) = b + c.
Proof.
  intros. rewrite (land_ones_mod _ 4), (Z.mod_small c) by lia.
  rewrite (lor_add _ _ 4) by lia. unfold u8. lia.
Qed.

(** The packets of one unit: the first one carries the flags and the clock. *)
Definition unit_packets (first keyframe : bool) (clock : Z) (ps : list packet) : Prop :=
  match ps with
  | [] => False
  | p :: ps => pusi p = first /\ rai p = first && keyframe /\
      pcr p = (if first then Some clock else None) /\ Forall (fun q => pusi q = false) ps
  end.

Lemma slice_rest (n : Z) (l : list Z) pos :
  0 <= n -> 0 <= pos ->
  take (Z.to_nat n) (drop (Z.to_nat pos) l) ++ drop (Z.to_nat (pos + n)) l = drop (Z.to_nat pos) l.
Proof.
  intros. replace (Z.to_nat (pos + n)) with (Z.to_nat pos + Z.to_nat n)%nat by lia.
  rewrite <- drop_drop. apply take_drop.
Qed.

(** One turn of the loop appends one packet. *)
Lemma pes_loop_bytes fuel out pes au clock (keyframe : bool) pos (first : bool) c af_len af_total room :
  zlen pes = 14 -> 0 <= pos < 14 + zlen au -> 0 <= c < 16 ->
  packet_room first keyframe (14 + zlen au - pos) = (af_len, af_total, room) ->
  af_fits first af_len af_total -> af_total + room = 184 -> 0 < room <= 14 + zlen au - pos ->
  pes_loop (S fuel) out pes au (zlen au) clock keyframe pos first c
  = pes_loop fuel (out ++ pkt_bytes first keyframe clock c af_len af_total
                            (take (Z.to_nat room) (drop (Z.to_nat pos) (pes ++ au))))
      pes au (zlen au) clock keyframe (pos + room) false ((c + 1) mod 16).
Proof.
  intros Hp Hpos Hc Er Hfit Hsum Hroom. cbn [pes_loop]. rewrite (proj2 (Z.ltb_lt pos _)), Er by lia.
  assert (Ht : 0 <= af_total) by (destruct Hfit; lia).
  rewrite store by (done || by rewrite zlen_replicate). cbn [obind].
  set (blank := replicate _ 0). assert (Hb : zlen blank = 188) by done. clearbody blank.
  rewrite store by zlia. cbn [obind]. rewrite <- (app_assoc out [_; _; _] [_]). cbn [app].
  replace (u8 (Z.lor (if first then 64 else 0) _)) with (if first then 65 else 1) by (by destruct first).
  change (u8 (Z.land PID_VIDEO 255)) with 0.
  replace (u8 (Z.lor (if negb (af_total =? 0) then 48 else 16) (Z.land c 15)))
    with ((if af_total =? 0 then 16 else 48) + c)
    by (symmetry; destruct (af_total =? 0); cbn [negb]; apply cc_byte; lia).
  rewrite emit_af_spec by (done || zlia). cbn [obind].
  pose proof (zlen_af_bytes first keyframe af_len af_total clock Hfit) as Haf.
  rewrite copy_slice_spec by zlia. cbn [obind]. rewrite next_cc by lia. f_equal.
  rewrite !Z.sub_0_r, Z.add_0_r, !adv_adv by zlia.
  rewrite (adv_all (A := Z)) by zlia. unfold pkt_bytes.
  by rewrite app_nil_r, <- !app_assoc.
Qed.

Lemma pes_loop_step fuel out pes au clock (keyframe : bool) pos (first : bool) c :
  zlen pes = 14 -> 0 <= pos < 14 + zlen au -> 0 <= c < 16 -> 0 <= clock < 2 ^ 33 ->
  exists room b,
    pes_loop (S fuel) out pes au (zlen au) clock keyframe pos first c
    = pes_loop fuel (out ++ b) pes au (zlen au) clock keyframe (pos + room) false ((c + 1) mod 16) /\
    0 < room /\ pos + room <= 14 + zlen au /\ zlen b = 188 /\
    read_packet b = Some {| pusi := first; pid := PID_VIDEO; cc := c; rai := first && keyframe;
      pcr := if first then Some clock else None;
      payload := take (Z.to_nat room) (drop (Z.to_nat pos) (pes ++ au)) |}.
Proof.
  intros Hp Hpos Hc Hclock.
  pose proof (packet_room_spec first keyframe (14 + zlen au - pos) ltac:(lia)) as Hroom.
  destruct (packet_room _ _ _) as [[af_len af_total] room] eqn:Er.
  destruct Hroom as (Hr & Ht & Hl & Hn & He & Hf).
  assert (Hfit : af_fits first af_len af_total) by (repeat split; [lia..|destruct first; lia]).
  exists room. eexists. split; [by apply pes_loop_bytes|].
  split; [lia|]. split; [lia|]. split; [apply zlen_pkt_bytes|apply read_pkt_bytes]; try done; zlia.
Qed.

Definition of_video (p : packet) : Prop := pid p = PID_VIDEO.
Definition continues (p : packet) : Prop := of_video p /\ pusi p = false.

Lemma pes_loop_rest fuel out pes au clock keyframe pos c :
  zlen pes = 14 -> 0 <= pos <= 14 + zlen au -> 0 <= c < 16 -> 0 <= clock < 2 ^ 33 ->
  (Z.to_nat (14 + zlen au - pos) < fuel)%nat ->
  exists ps bytes,
    pes_loop fuel out pes au (zlen au) clock keyframe pos false c
    = Ret (out ++ bytes, (c + zlen ps) mod 16) /\
    chunk bytes ps /\ counted c ps /\ Forall continues ps /\
    concat (map payload ps) = drop (Z.to_nat pos) (pes ++ au).
Proof.
  revert out pos c. induction fuel as [|fuel IH]; intros out pos c Hp Hpos Hc Hclock Hf; [lia|].
  destruct (Z.eq_dec pos (14 + zlen au)) as [->|].
  { exists [], []. cbn [pes_loop]. rewrite Z.ltb_irrefl, app_nil_r, Z.add_0_r, Z.mod_small by lia.
    split_and!; [done|apply chunk_nil|done|by constructor|].
    symmetry. apply drop_ge. unfold zlen in Hp. unfold zlen. rewrite length_app. lia. }
  destruct (pes_loop_step fuel out pes au clock keyframe pos false c)
    as (room & b & E & Hr & Hle & Hb & Hread); [done|lia..|].
  destruct (IH (out ++ b) (pos + room) ((c + 1) mod 16)) as (ps & bytes & E' & Hch & Hcnt & Hall & Hcat);
    [done|lia..|].
  eexists (_ :: ps), (b ++ bytes). rewrite E, E', <- app_assoc.
  split_and!; [|by apply chunk_cons|by split|by repeat constructor|].
  - do 2 f_equal. rewrite zlen_cons, Zplus_mod_idemp_l. f_equal. lia.
  - cbn [map concat payload]. rewrite Hcat. apply slice_rest; lia.
Qed.

Lemma emit_pes_spec out c au pts clock keyframe :
  0 <= c < 16 -> 0 <= clock < 2 ^ 33 ->
  exists p ps bytes,
    emit_pes out c au (zlen au) pts clock keyframe = Ret (out ++ bytes, (c + zlen (p :: ps)) mod 16) /\
    chunk bytes (p :: ps) /\ counted c (p :: ps) /\ of_video p /\ Forall continues ps /\
    pusi p = true /\ rai p = keyframe /\ pcr p = Some clock /\
    payload p ++ concat (map payload ps) = pes_header pts ++ au.
Proof.
  intros Hc Hclock. unfold emit_pes. pose proof (zlen_nonneg au).
  replace (Z.to_nat (15 + zlen au)) with (S (Z.to_nat (14 + zlen au))) by lia.
  destruct (pes_loop_step (Z.to_nat (14 + zlen au)) out (pes_header pts) au clock keyframe 0 true c)
    as (room & b & E & Hr & Hle & Hb & Hread); [done|lia..|].
  destruct (pes_loop_rest (Z.to_nat (14 + zlen au)) (out ++ b) (pes_header pts) au clock keyframe
    (0 + room) ((c + 1) mod 16)) as (ps & bytes & E' & Hch & Hcnt & Hall & Hcat); [done|lia..|].
  eexists _, ps, (b ++ bytes). rewrite E, E', <- app_assoc.
  split_and!; [|by apply chunk_cons|by split|done..|].
  - do 2 f_equal. rewrite zlen_cons, Zplus_mod_idemp_l. f_equal. lia.
  - cbn [payload]. rewrite Hcat, slice_rest by lia. done.
Qed.

(** ** Units *)

Lemma units_head p ps : exists bytes us, units (p :: ps) = (p, bytes) :: us.
Proof.
  cbn [units]. destruct (units ps) as [|[q bytes] us]; [by eauto|]. destruct (pusi q); eauto.
Qed.

Definition starts_unit (ps : list packet) : Prop :=
  match ps with [] => True | p :: _ => pusi p = true end.

Lemma units_unit p ps rest :
  Forall (fun q => pusi q = false) ps -> starts_unit rest ->
  units (p :: ps ++ rest) = (p, payload p ++ concat (map payload ps)) :: units rest.
Proof.
  intros Hps Hrest. revert p. induction Hps as [|q ps Hq Hps IH]; intros p; cbn [app map concat].
  - rewrite app_nil_r. destruct rest as [|r rest]; [done|]. cbn [starts_unit] in Hrest.
    change (units (p :: r :: rest)) with
      (match units (r :: rest) with
       | (q, bytes) :: us => if pusi q then (p, payload p) :: (q, bytes) :: us
                             else (p, payload p ++ bytes) :: us
       | [] => [(p, payload p)] end).
    destruct (units_head r rest) as (bytes & us & ->). by rewrite Hrest.
  - specialize (IH q). cbn [units app] in *. rewrite IH, Hq. done.
Qed.

Lemma read_pes_header pts au :
  0 <= pts < 2 ^ 33 -> read_pes (pes_header pts ++ au) = Some (pts, au).
Proof.
  intros Hp. unfold pes_header, read_pes. cbn [app].
  change (_ && _) with true. cbv iota.
  change 5%nat with (length (write_timestamp 2 pts)).
  by rewrite take_app_length, drop_app_length, read_write_timestamp.
Qed.

(** ** Sections *)

Lemma lxor_bound a b n : 0 <= n -> 0 <= a < 2 ^ n -> 0 <= b < 2 ^ n -> 0 <= Z.lxor a b < 2 ^ n.
Proof.
  intros Hn Ha Hb. assert (E : Z.lxor a b mod 2 ^ n = Z.lxor a b).
  { apply Z.bits_inj'. intros i Hi. destruct (Z.lt_ge_cases i n).
    - by rewrite Z.mod_pow2_bits_low.
    - rewrite Z.mod_pow2_bits_high, Z.lxor_spec by lia.
      rewrite <- (Z.mod_small a (2 ^ n)), <- (Z.mod_small b (2 ^ n)), !Z.mod_pow2_bits_high by lia. done. }
  rewrite <- E. apply Z.mod_pos_bound. lia.
Qed.

Lemma crc_bit_range c : 0 <= crc_bit c < 2 ^ 32.
Proof. unfold crc_bit, u32. destruct (negb _); [apply lxor_bound; lia|lia]. Qed.

Lemma crc_byte_range c b : 0 <= crc_byte c b < 2 ^ 32.
Proof. unfold crc_byte. change 8%nat with (S 7). cbn [Nat.iter]. apply crc_bit_range. Qed.

Lemma crc_fold_range l c : 0 <= c < 2 ^ 32 -> 0 <= foldl crc_byte c l < 2 ^ 32.
Proof. revert c. induction l as [|b l IH]; intros c Hc; [done|]. apply IH, crc_byte_range. Qed.

(** A register whose top bit is clear is shifted. *)
Lemma crc_bit_shift c : 0 <= c < 2 ^ 31 -> crc_bit c = 2 * c.
Proof.
  intros Hc. unfold crc_bit. change 0x80000000 with (2 ^ 31).
  replace (Z.land c (2 ^ 31)) with 0.
  - cbn [Z.eqb negb]. rewrite Z.shiftl_mul_pow2 by lia. unfold u32. lia.
  - symmetry. apply Z.bits_inj'. intros i Hi. rewrite Z.land_spec, Z.bits_0.
    destruct (Z.eq_dec i 31) as [->|]; [|rewrite Z.pow2_bits_false by lia; apply andb_false_r].
    rewrite <- (Z.mod_small c (2 ^ 31)), Z.mod_pow2_bits_high by lia. done.
Qed.

(** Feeding the top byte of the register shifts it out. *)
Lemma crc_byte_top c : 0 <= c < 2 ^ 32 -> crc_byte c (c / 2 ^ 24) = c mod 2 ^ 24 * 2 ^ 8.
Proof.
  intros Hc. unfold crc_byte.
  replace (Z.lxor c (Z.shiftl (c / 2 ^ 24) 24)) with (c mod 2 ^ 24).
  - unfold Nat.iter. cbn [nat_rect]. rewrite (crc_bit_shift (c mod _)) by lia. do 7 (rewrite (crc_bit_shift (2 * _)) by lia). lia.
  - apply Z.bits_inj'. intros i Hi. rewrite Z.lxor_spec. destruct (Z.lt_ge_cases i 24).
    + rewrite Z.mod_pow2_bits_low, Z.shiftl_spec_low by lia. by rewrite xorb_false_r.
    + rewrite Z.mod_pow2_bits_high, Z.shiftl_spec, Z.div_pow2_bits by lia.
      replace (i - 24 + 24) with i by lia. by rewrite xorb_nilpotent.
Qed.

Definition crc_bytes (crc : Z) : list Z :=
  [u8 (Z.shiftr crc 24); u8 (Z.shiftr crc 16); u8 (Z.shiftr crc 8); u8 crc].

Lemma crc_residue l : foldl crc_byte 0xFFFFFFFF (l ++ crc_bytes (foldl crc_byte 0xFFFFFFFF l)) = 0.
Proof.
  rewrite foldl_app. pose proof (crc_fold_range l 0xFFFFFFFF ltac:(lia)) as Hc.
  set (c := foldl crc_byte 0xFFFFFFFF l) in *. clearbody c.
  unfold crc_bytes, u8. rewrite !Z.shiftr_div_pow2 by lia. cbn [foldl].
  replace (c / 2 ^ 24 mod 2 ^ 8) with (c / 2 ^ 24) by lia. rewrite crc_byte_top by lia.
  replace (c / 2 ^ 16 mod 2 ^ 8) with (c mod 2 ^ 24 * 2 ^ 8 / 2 ^ 24) by lia.
  rewrite crc_byte_top by lia.
  replace (c / 2 ^ 8 mod 2 ^ 8) with ((c mod 2 ^ 24 * 2 ^ 8) mod 2 ^ 24 * 2 ^ 8 / 2 ^ 24) by lia.
  rewrite crc_byte_top by lia.
  set (d := _ mod 2 ^ 24 * 2 ^ 8).
  replace (c mod 2 ^ 8) with (d / 2 ^ 24) by (unfold d; lia).
  rewrite crc_byte_top by (unfold d; lia). unfold d. lia.
Qed.

Definition section_bytes (v c : Z) (s : list Z) : list Z :=
  [0x47; 0x40 + v / 2 ^ 8; v mod 2 ^ 8; 0x10 + c; 0x00] ++ s
  ++ crc_bytes (foldl crc_byte 0xFFFFFFFF s) ++ replicate (Z.to_nat (179 - zlen s)) 0xFF.

Lemma emit_section_spec out v c s :
  0 <= c < 16 -> 0 <= v < 2 ^ 13 -> zlen s <= 179 ->
  emit_section out v c s (zlen s) = Ret (out ++ section_bytes v c s, (c + 1) mod 16).
Proof.
  intros Hc Hv Hs. unfold emit_section, section_bytes.
  change (Z.to_nat TS_PACKET_SIZE) with (9 + 179)%nat. rewrite replicate_add, app_assoc.
  rewrite <- app_assoc, store by zlia. cbn [obind].
  assert (E : [71; u8 (Z.lor 64 (Z.land (Z.shiftr v 8) 31)); u8 (Z.land v 255); u8 (Z.lor 16 (Z.land c 15))]
              = [71; 64 + v / 2 ^ 8; v mod 2 ^ 8; 16 + c]).
  { rewrite cc_byte, (land_ones_mod _ 5), (land_ones_mod _ 8), Z.shiftr_div_pow2 by lia.
    rewrite (lor_add _ _ 6) by lia. unfold u8.
    rewrite !(Z.mod_small _ (2 ^ 8)), (Z.mod_small _ (2 ^ 5)) by lia. done. }
  rewrite E. rewrite store by zlia. cbn [obind].
  assert (Er : rdn s 0 (zlen s) = Ret s).
  { rewrite <- (app_nil_r s) at 1. by apply rdn_all. }
  unfold crc32_mpeg. rewrite Er. cbn [obind]. rewrite store by zlia. cbn [obind].
  fold (crc_bytes (foldl crc_byte 4294967295 s)).
  assert (Hcrc : zlen (crc_bytes (foldl crc_byte 4294967295 s)) = 4) by done.
  set (crc := crc_bytes _) in *. clearbody crc.
  rewrite store by zlia. cbn [obind]. rewrite next_cc, !adv_adv by zlia. do 2 f_equal.
  rewrite <- !app_assoc, <- replicate_add. cbn [app]. unfold adv. rewrite drop_replicate.
  repeat f_equal. unfold zlen in *. cbn [length]. lia.
Qed.

Definition section_packet (v c : Z) (s : list Z) : packet := {|
  pusi := true; pid := v; cc := c; rai := false; pcr := None;
  payload := 0 :: s ++ crc_bytes (foldl crc_byte 0xFFFFFFFF s)
               ++ replicate (Z.to_nat (179 - zlen s)) 0xFF |}.

Lemma read_section_bytes v c s :
  0 <= c < 16 -> 0 <= v < 2 ^ 13 -> zlen s <= 179 ->
  zlen (section_bytes v c s) = 188 /\
  read_packet (section_bytes v c s) = Some (section_packet v c s).
Proof.
  intros Hc Hv Hs. pose proof (zlen_nonneg s).
  assert (Hl : zlen (section_bytes v c s) = 188).
  { unfold section_bytes, crc_bytes. zlia. }
  split; [done|]. unfold section_bytes in *. cbn [app] in *. unfold read_packet.
  rewrite Hl. rewrite (proj2 (Z.testbit_false _ 7 ltac:(lia))), (proj2 (Z.testbit_true _ 6 ltac:(lia))) by lia.
  change (_ && _) with true. cbn [negb].
  rewrite (proj2 (Z.eqb_eq ((16 + c) / 2 ^ 4) 1)) by lia. unfold section_packet. do 2 f_equal; lia.
Qed.

(** A section whose length field is right. *)
Definition section_ok (s : list Z) : bool :=
  match s with
  | _ :: b1 :: b2 :: _ => (3 + b1 mod 2 ^ 4 * 2 ^ 8 + b2 =? zlen s + 4) && (zlen s <=? 179)
  | _ => false
  end.

Lemma read_section_packet v c s :
  section_ok s = true -> read_section (section_packet v c s) = Some s.
Proof.
  intros Hs. unfold read_section, section_packet. cbn [payload pusi].
  destruct s as [|b0 [|b1 [|b2 s]]]; try done. unfold section_ok in Hs. cbool. destruct Hs as (Hlen & Hmax).
  set (s0 := b0 :: b1 :: b2 :: s) in *. change (s0 ++ ?r) with (b0 :: b1 :: b2 :: s ++ r) at 1.
  cbv iota. rewrite Hlen. set (crc := crc_bytes _).
  assert (Hcrc : length (s0 ++ crc) = Z.to_nat (zlen s0 + 4)).
  { rewrite length_app. unfold zlen. cbn [crc crc_bytes length]. lia. }
  rewrite app_assoc, <- Hcrc, take_app_length, drop_app_length.
  rewrite forallb_replicate by done. unfold crc. rewrite crc_residue.
  replace (zlen (s0 ++ _)) with (zlen s0 + 4) by (rewrite zlen_app; done).
  rewrite Z.eqb_refl. pose proof (zlen_nonneg s). unfold s0 at 1. rewrite !zlen_cons.
  rewrite (proj2 (Z.leb_le 7 _)) by lia. cbn [andb Z.eqb]. f_equal.
  replace (Z.to_nat (zlen s0 + 4 - 4)) with (length s0) by (unfold zlen; lia).
  apply take_app_length.
Qed.
