(* ===== verification/TsSession.v ===== *)
(** * A recording is what was recorded

    A session opens a file, starts the video, writes access units and closes the file.
    [TsSpec.demux] of the bytes gives back every access unit with its times and its
    random access flag, whatever the writer did before. *)

From S2P Require Import Prelude TsWriter TsSpec TsProps.
From stdpp Require Import list.
Open Scope Z_scope.

(** ** One access unit *)

Definition mux_ok (m : mux) : Prop :=
  0 <= cc_video_ m < 16 /\ 0 <= cc_pat_ m < 16 /\ 0 <= cc_pmt_ m < 16 /\
  0 <= last_psi_ticks_ m <= media_ticks_ m.

(** The counter of a stream the tables name. *)
Definition next_of (m : mux) (v : Z) : Z :=
  if v =? PID_PAT then cc_pat_ m else if v =? PID_PMT then cc_pmt_ m else cc_video_ m.

Definition psi_packets (m : mux) : list packet :=
  [section_packet PID_PAT (cc_pat_ m) pat_section; section_packet PID_PMT (cc_pmt_ m) pmt_section].

Lemma emit_psi_spec out m :
  mux_ok m ->
  exists bytes, emit_psi out m
    = Ret (out ++ bytes,
           {| media_ticks_ := media_ticks_ m; last_psi_ticks_ := last_psi_ticks_ m;
              psi_pending_ := psi_pending_ m; cc_video_ := cc_video_ m;
              cc_pat_ := (cc_pat_ m + 1) mod 16; cc_pmt_ := (cc_pmt_ m + 1) mod 16 |}) /\
    chunk bytes (psi_packets m).
Proof.
  intros (Hv & Ha & Hm & _). unfold emit_psi.
  rewrite emit_section_spec by (done || lia). cbn [obind].
  rewrite emit_section_spec by (done || lia). cbn [obind].
  destruct (read_section_bytes PID_PAT (cc_pat_ m) pat_section) as (La & Ra); [done..|].
  destruct (read_section_bytes PID_PMT (cc_pmt_ m) pmt_section) as (Lm & Rm); [done..|].
  exists (section_bytes PID_PAT (cc_pat_ m) pat_section
          ++ section_bytes PID_PMT (cc_pmt_ m) pmt_section ++ []).
  rewrite app_nil_r, <- app_assoc. split; [done|].
  rewrite <- (app_nil_r (section_bytes PID_PMT _ _)).
  by repeat apply chunk_cons.
Qed.

(** Whether the tables go in front of an access unit. *)
Definition psi_due (m : mux) (keyframe : bool) : bool :=
  psi_pending_ m || keyframe || (PSI_INTERVAL_90K <=? media_ticks_ m - last_psi_ticks_ m).

(** The packets an access unit adds, given whether the tables go first. *)
Definition unit_added (m m' : mux) (au : list Z) (psi : bool) (p : packet) (ps : list packet) : Prop :=
  of_video p /\ Forall continues ps /\ pusi p = true /\ counted (cc_video_ m) (p :: ps) /\
  read_picture (p, payload p ++ concat (map payload ps)) = Some (picture_of (media_ticks_ m) au) /\
  cc_video_ m' = (cc_video_ m + zlen (p :: ps)) mod 16 /\
  cc_pat_ m' = (if psi then (cc_pat_ m + 1) mod 16 else cc_pat_ m) /\
  cc_pmt_ m' = (if psi then (cc_pmt_ m + 1) mod 16 else cc_pmt_ m) /\
  psi_pending_ m' = negb psi && psi_pending_ m.

(** The disk takes what it is given. *)
Definition accepts (d : Disk) : Prop := forall n, fwrite_n d n = n.

Lemma c_int64_ok z : - 2 ^ 63 <= z < 2 ^ 63 -> c_int64 z = Ret z.
Proof. intros. unfold c_int64. by do 2 zif. Qed.

Lemma write_block_accepts w d f data :
  file w = Some f -> accepts d ->
  write_block w d data (zlen data)
  = Ret (with_output w (Some (f ++ data)) (u64 (file_size_bytes w + zlen data)), true).
Proof.
  intros Hf Hd. unfold write_block. rewrite Hf.
  assert (E : rdn data 0 (zlen data) = Ret data).
  { rewrite <- (app_nil_r data) at 1. by apply rdn_all. }
  rewrite E. cbn [obind]. rewrite Hd, Z.eqb_refl. cbn [negb].
  unfold zlen. by rewrite Nat2Z.id, take_ge.
Qed.

Definition psi_part (m : mux) (psi : bool) : list packet := if psi then psi_packets m else [].

Lemma read_unit p ps pts au t :
  pusi p = true -> rai p = has_irap au -> pcr p = Some (t mod 2 ^ 33) ->
  pts = (t + 90000) mod 2 ^ 33 ->
  payload p ++ concat (map payload ps) = pes_header pts ++ au ->
  read_picture (p, payload p ++ concat (map payload ps)) = Some (picture_of t au).
Proof.
  intros Hu Hr Hc -> E. unfold read_picture. cbn [fst snd].
  rewrite E, read_pes_header by (apply Z.mod_pos_bound; lia). cbn. by rewrite Hc; cbn; rewrite Hu, Hr.
Qed.

Lemma emit_psi_if_due_spec m keyframe :
  mux_ok m -> 0 <= media_ticks_ m < 2 ^ 62 ->
  let psi := psi_due m keyframe in
  exists bytes m',
    emit_psi_if_due m keyframe = Ret (bytes, m') /\ chunk bytes (psi_part m psi) /\
    mux_ok m' /\ media_ticks_ m' = media_ticks_ m /\ cc_video_ m' = cc_video_ m /\
    cc_pat_ m' = (if psi then (cc_pat_ m + 1) mod 16 else cc_pat_ m) /\
    cc_pmt_ m' = (if psi then (cc_pmt_ m + 1) mod 16 else cc_pmt_ m) /\
    psi_pending_ m' = negb psi && psi_pending_ m.
Proof.
  intros Hok Ht psi. pose proof Hok as (Hv & Ha & Hm & Hl). unfold emit_psi_if_due.
  assert (Hdue : (do since <- (if psi_pending_ m || keyframe then Ret 0
                               else c_int64 (media_ticks_ m - last_psi_ticks_ m)) ;;
                  Ret (psi_pending_ m || keyframe || (PSI_INTERVAL_90K <=? since))) = Ret psi).
  { unfold psi, psi_due. destruct (_ || keyframe); [done|]. by rewrite c_int64_ok by lia. }
  destruct (if _ || keyframe then _ else _) as [since|]; cbn [obind] in *; [|done].
  injection Hdue as ->. destruct (emit_psi_spec [] m Hok) as (bytes & E & Hch).
  destruct psi eqn:Ep; cbn [negb andb psi_part].
  - rewrite E. cbn [obind]. exists bytes. eexists. split_and!; try done.
    unfold mux_ok. cbn. lia.
  - exists [], m. split_and!; try done.
Qed.

Lemma mux_access_unit_spec w d f au dur :
  let m := mux_ w in
  let psi := psi_due m (has_irap au) in
  file w = Some f -> accepts d -> mux_ok m -> 0 <= media_ticks_ m -> 0 <= dur ->
  media_ticks_ m + dur < 2 ^ 62 ->
  exists w' p ps bytes,
    mux_access_unit w d au (zlen au) dur = Ret (w', true) /\
    file w' = Some (f ++ bytes) /\ video_started_ w' = video_started_ w /\
    chunk bytes (psi_part m psi ++ p :: ps) /\
    unit_added m (mux_ w') au psi p ps /\ mux_ok (mux_ w') /\
    media_ticks_ (mux_ w') = media_ticks_ m + dur.
Proof.
  intros m psi Hf Hd Hok H0 Hdur Hmax. unfold mux_access_unit.
  rewrite au_is_keyframe_has_irap. cbn [obind]. fold m.
  rewrite (c_int64_ok (media_ticks_ m + _)) by (unfold PTS_PREROLL_90K; lia). cbn [obind].
  rewrite !mask_mod. set (pts := (media_ticks_ m + PTS_PREROLL_90K) mod 2 ^ 33).
  set (clock := media_ticks_ m mod 2 ^ 33).
  destruct (emit_psi_if_due_spec m (has_irap au) Hok ltac:(lia))
    as (b1 & m1 & -> & Hch1 & Hok1 & Ht & Hcv & Hca & Hcm & Hpend). fold psi in Hch1, Hca, Hcm, Hpend.
  cbn [obind]. pose proof Hok1 as (Hv & _).
  destruct (emit_pes_spec b1 (cc_video_ m1) au pts clock (has_irap au) Hv)
    as (p & ps & b2 & -> & Hch2 & Hcnt & Hp & Hps & Hu & Hr & Hc & Hpay);
    [apply Z.mod_pos_bound; lia|].
  cbn [obind]. rewrite (write_block_accepts _ _ _ _ Hf Hd). cbn [obind].
  rewrite Ht, c_int64_ok by lia. cbn [obind].
  eexists _, p, ps, (b1 ++ b2). split; [done|]. cbn [file video_started_ mux_ with_mux with_output].
  split; [done|]. split; [done|]. split; [by apply chunk_app|]. split; [|split; [|done]].
  - unfold unit_added. cbn [cc_video_ cc_pat_ cc_pmt_ psi_pending_]. rewrite <- Hcv.
    split_and!; try done. by eapply read_unit.
  - unfold mux_ok in *. cbn [cc_video_ cc_pat_ cc_pmt_ last_psi_ticks_ media_ticks_]. lia.
Qed.

(** ** A run of access units *)

Fixpoint write_all (w : TsWriter) (calls : list (Disk * (list Z * Z))) : outcome TsWriter :=
  match calls with
  | [] => Ret w
  | (d, (au, duration)) :: calls =>
    do* (w, _) <- write_nal w d au (zlen au) duration ;;
    write_all w calls
  end.

(** An access unit of the encoder: not empty, its size an int, its duration not negative. *)
Definition au_ok (a : list Z * Z) : Prop := 0 < zlen a.1 < 2 ^ 31 /\ 0 <= a.2 < 2 ^ 31.

Lemma sync_keeps w d :
  file (sync_if_due w d) = file w /\ mux_ (sync_if_due w d) = mux_ w /\
  video_started_ (sync_if_due w d) = video_started_ w.
Proof.
  unfold sync_if_due, sync_now. destruct (_ && _); [done|]. destruct (file w) eqn:E; [|done].
  by destruct (if _ && _ then _ else _).
Qed.

Lemma write_nal_spec w d f au dur :
  let m := mux_ w in
  let psi := psi_due m (has_irap au) in
  file w = Some f -> video_started_ w = true -> accepts d -> mux_ok m -> 0 <= media_ticks_ m ->
  au_ok (au, dur) -> media_ticks_ m + dur < 2 ^ 62 ->
  exists w' p ps bytes,
    write_nal w d au (zlen au) dur = Ret (w', true) /\
    file w' = Some (f ++ bytes) /\ video_started_ w' = true /\
    chunk bytes (psi_part m psi ++ p :: ps) /\
    unit_added m (mux_ w') au psi p ps /\ mux_ok (mux_ w') /\
    media_ticks_ (mux_ w') = media_ticks_ m + dur.
Proof.
  intros m psi Hf Hs Hd Hok H0 (Hlen & Hdur) Hmax. cbn [fst snd] in *. unfold write_nal.
  rewrite (proj2 (Z.leb_gt _ 0)) by lia. rewrite Hf, Hs. cbn [negb orb].
  destruct (mux_access_unit_spec w d f au dur Hf Hd Hok H0 ltac:(lia) Hmax)
    as (w' & p & ps & bytes & -> & Hf' & Hs' & Hrest). cbn [obind negb].
  set (w1 := with_sync _ _ _). destruct (sync_keeps w1 d) as (E1 & E2 & E3).
  eexists _, p, ps, bytes. split; [done|]. rewrite E1, E2, E3. by rewrite <- Hs.
Qed.

(** ** The packets of the three streams *)

Definition stream (m : mux) (ps : list packet) (pics : list picture) : Prop :=
  Forall (fun v => counted (next_of m v) (of_pid v ps)) [PID_PAT; PID_PMT; PID_VIDEO] /\
  mapM read_picture (units (of_pid PID_VIDEO ps)) = Some pics /\
  starts_unit (of_pid PID_VIDEO ps).

Lemma stream_nil m : stream m [] [].
Proof. split_and!; [|done..]. by repeat constructor. Qed.

Lemma of_pid_app v ps qs : of_pid v (ps ++ qs) = of_pid v ps ++ of_pid v qs.
Proof. apply List.filter_app. Qed.

Lemma of_pid_video v ps :
  Forall of_video ps -> of_pid v ps = if v =? PID_VIDEO then ps else [].
Proof.
  induction 1 as [|p ps Hp Hps IH]; cbn [of_pid List.filter] in *; [by destruct (_ =? _)|].
  fold (of_pid v ps). rewrite IH, Hp. rewrite (Z.eqb_sym PID_VIDEO). by destruct (_ =? _).
Qed.

Lemma unit_stream m m' au psi p ps rest pics :
  mux_ok m -> unit_added m m' au psi p ps -> stream m' rest pics ->
  stream m ((psi_part m psi ++ p :: ps) ++ rest) (picture_of (media_ticks_ m) au :: pics).
Proof.
  intros (Hv & Ha & Hm & _) (Hp & Hps & Hu & Hcnt & Hread & Ecv & Eca & Ecm & _) (Hall & Hpics & Hst).
  assert (Hvid : Forall of_video (p :: ps)).
  { constructor; [done|]. eapply Forall_impl; [exact Hps|]. by intros q (? & _). }
  inversion_clear Hall as [|? ? Hpat Hall']. inversion_clear Hall' as [|? ? Hpmt Hall''].
  inversion_clear Hall'' as [|? ? Hvideo _].
  assert (Evideo : of_pid PID_VIDEO ((psi_part m psi ++ p :: ps) ++ rest)
                   = p :: ps ++ of_pid PID_VIDEO rest).
  { rewrite !of_pid_app, (of_pid_video _ _ Hvid). cbn [Z.eqb]. by destruct psi. }
  split_and!; [apply Forall_cons_2; [|apply Forall_cons_2; [|apply Forall_cons_2; [|done]]]| |].
  - rewrite !of_pid_app, (of_pid_video _ _ Hvid), app_nil_r.
    unfold next_of in *. cbn [Z.eqb Pos.eqb] in *. rewrite Eca in Hpat. by destruct psi.
  - rewrite !of_pid_app, (of_pid_video _ _ Hvid), app_nil_r.
    unfold next_of in *. cbn in Hpmt. rewrite Ecm in Hpmt. by destruct psi.
  - rewrite Evideo. change (next_of m PID_VIDEO) with (cc_video_ m).
    apply (counted_app _ (p :: ps)); [done|done|]. rewrite <- Ecv. exact Hvideo.
  - rewrite Evideo, units_unit; [|eapply Forall_impl; [exact Hps|]; by intros q (_ & ?)|done].
    cbn [mapM]. rewrite Hread. cbn. by rewrite Hpics.
  - by rewrite Evideo.
Qed.

Lemma tables_first m rest : tables (psi_packets m ++ rest) = Some PID_VIDEO.
Proof.
  unfold tables.
  change (head (of_pid 0 _)) with (Some (section_packet PID_PAT (cc_pat_ m) pat_section)).
  cbn [mbind option_bind]. rewrite read_section_packet by done. cbn [mbind option_bind].
  change (read_pat pat_section) with (Some PID_PMT). cbn [mbind option_bind].
  change (head (of_pid PID_PMT _)) with (Some (section_packet PID_PMT (cc_pmt_ m) pmt_section)).
  cbn [mbind option_bind]. by rewrite read_section_packet.
Qed.

Lemma demux_stream m bytes ps pics :
  chunk bytes ps -> stream m ps pics -> tables ps = Some PID_VIDEO -> demux bytes = Some pics.
Proof.
  intros Hch (Hall & Hpics & _) Ht. unfold demux. rewrite (chunk_packets _ _ Hch). cbn.
  rewrite Ht. cbn. rewrite Hpics.
  inversion_clear Hall as [|? ? Hpat Hall']. inversion_clear Hall' as [|? ? Hpmt Hall''].
  inversion_clear Hall'' as [|? ? Hvideo _].
  by rewrite (counted_continuous _ _ Hpat), (counted_continuous _ _ Hpmt), (counted_continuous _ _ Hvideo).
Qed.

(** ** The file of a session *)

Definition call_ok (c : Disk * (list Z * Z)) : Prop := accepts c.1 /\ au_ok c.2.

Definition total_time (calls : list (Disk * (list Z * Z))) : Z :=
  fold_right (fun c t => snd (snd c) + t) 0 calls.

Lemma total_time_bound calls :
  Forall call_ok calls -> 0 <= total_time calls <= 2 ^ 31 * zlen calls.
Proof.
  induction 1 as [|[d [au dur]] calls (_ & _ & Hd) _ IH]; [done|].
  cbn [total_time fold_right snd fst] in *. fold (total_time calls). zlia.
Qed.

Lemma write_all_spec calls w f :
  file w = Some f -> video_started_ w = true -> mux_ok (mux_ w) -> 0 <= media_ticks_ (mux_ w) ->
  media_ticks_ (mux_ w) + 2 ^ 31 * zlen calls < 2 ^ 62 -> Forall call_ok calls ->
  exists w' bytes ps,
    write_all w calls = Ret w' /\ file w' = Some (f ++ bytes) /\ video_started_ w' = true /\
    mux_ok (mux_ w') /\ media_ticks_ (mux_ w') = media_ticks_ (mux_ w) + total_time calls /\
    chunk bytes ps /\ stream (mux_ w) ps (pictures_of (media_ticks_ (mux_ w)) (map snd calls)) /\
    match calls with
    | (_, (au, _)) :: _ =>
      psi_due (mux_ w) (has_irap au) = true -> exists rest, ps = psi_packets (mux_ w) ++ rest
    | [] => True
    end.
Proof.
  revert w f. induction calls as [|[d [au dur]] calls IH]; intros w f Hf Hs Hok H0 Hmax Hall.
  { exists w, [], []. rewrite app_nil_r. split_and!; try done; [cbn; lia|apply stream_nil]. }
  pose proof (Forall_inv Hall) as (Hd & Hau). pose proof (Forall_inv_tail Hall) as Hall'.
  cbn [fst snd] in *. pose proof Hau as (_ & Hdur). cbn [snd] in Hdur. rewrite zlen_cons in Hmax.
  pose proof (zlen_nonneg calls) as Hn.
  destruct (write_nal_spec w d f au dur Hf Hs Hd Hok H0 Hau ltac:(lia))
    as (w1 & p & ps1 & b1 & E & Hf1 & Hs1 & Hch1 & Hadd & Hok1 & Ht1).
  destruct (IH w1 (f ++ b1)) as (w' & b2 & ps2 & E2 & Hf2 & Hs2 & Hok2 & Ht2 & Hch2 & Hst & _); [done|done|done|lia|lia|done|].
  exists w', (b1 ++ b2). eexists. cbn [write_all]. rewrite E. cbn [obind]. rewrite E2, Hf2, app_assoc.
  do 4 (split; [done|]). split; [cbn [total_time fold_right snd] in *; unfold total_time in Ht2; lia|].
  split; [by apply chunk_app|]. split.
  - cbn [map snd pictures_of]. rewrite <- Ht1. by eapply unit_stream.
  - intros ->. eexists. cbn [psi_part]. by rewrite <- app_assoc.
Qed.

(** A recording as the recorder makes one: open, start, write, close. *)
Definition recording (w : TsWriter) (d0 : Disk) (calls : list (Disk * (list Z * Z))) (d1 : Disk) :
    outcome (option (list Z)) :=
  let '(w, opened) := open w d0 in
  if negb opened then Ret None
  else
    let '(w, _) := begin_video w in
    do w <- write_all w calls ;;
    let '(_, bytes, _) := close w d1 in Ret bytes.

Lemma close_bytes w d f : file w = Some f -> (close w d).1.2 = Some f.
Proof.
  intros Hf. unfold close, sync_now. cbn [file with_mux]. rewrite Hf. cbn. by rewrite Hf.
Qed.

Lemma write_all_app w c1 c2 : write_all w (c1 ++ c2) = (do w <- write_all w c1 ;; write_all w c2).
Proof.
  revert w. induction c1 as [|[d [au dur]] c1 IH]; intros w; [done|]. cbn [app write_all].
  destruct (write_nal _ _ _ _ _) as [[w1 ?]|]; [apply IH|done].
Qed.

(** C11. Every recording plays: whatever the writer did before, the bytes of a file into
    which the disk accepts every access unit are a transport stream whose tables lead to
    one H.265 stream, whose counters have no gap, and which a player reads back as
    exactly the access units written, in order, each with its decoding clock, its
    presentation time one second later (both modulo 2^33) and the random access flag set
    just when the unit contains an IRAP picture.  Failing syncs do not change it. *)
Theorem recording_plays w d0 calls d1 :
  fopen_ok d0 = true -> calls <> [] -> zlen calls < 2 ^ 30 -> Forall call_ok calls ->
  exists f, recording w d0 calls d1 = Ret (Some f) /\
            demux f = Some (pictures_of 0 (map snd calls)).
Proof.
  intros Hopen Hne Hlen Hall. unfold recording, open. rewrite Hopen. cbn [negb begin_video file with_sync
    with_failures with_output].
  set (w0 := with_mux _ true mux_reset []).
  destruct (write_all_spec calls w0 []) as (w' & bytes & ps & -> & Hf & _ & _ & _ & Hch & Hst & Htab);
    [done|done|by repeat split|done|cbn; lia|done|].
  cbn [obind]. pose proof (close_bytes w' d1 _ Hf) as Hc.
  destruct (close w' d1) as [[? b] ?]. cbn [fst snd] in Hc. subst b.
  exists bytes. split; [done|]. destruct calls as [|[d [au dur]] calls]; [done|].
  destruct Htab as (rest & ->); [done|].
  eapply demux_stream; [done|exact Hst|apply tables_first].
Qed.

(** C0. A recording can be entered at every key frame: the bytes from the access unit of
    an IRAP picture on are a playable stream of their own (its tables go in front of it),
    with the times continuing where the part before left off. *)
Theorem recording_seekable w d0 before d au dur after d1 :
  let calls := before ++ (d, (au, dur)) :: after in
  fopen_ok d0 = true -> has_irap au = true -> zlen calls < 2 ^ 29 -> Forall call_ok calls ->
  exists f1 f2, recording w d0 calls d1 = Ret (Some (f1 ++ f2)) /\
    demux f2 = Some (pictures_of (total_time before) ((au, dur) :: map snd after)).
Proof.
  intros calls Hopen Hkey Hlen Hall. unfold recording, open. rewrite Hopen. cbn [negb begin_video file
    with_sync with_failures with_output].
  set (w0 := with_mux _ true mux_reset []). unfold calls in *. rewrite write_all_app.
  apply Forall_app in Hall as (Hall1 & Hall2). rewrite zlen_app, zlen_cons in Hlen.
  pose proof (zlen_nonneg before). pose proof (zlen_nonneg after).
  pose proof (total_time_bound _ Hall1) as Htime.
  destruct (write_all_spec before w0 []) as (w1 & b1 & ps1 & -> & Hf1 & Hs1 & Hok1 & Ht1 & _);
    [done|done|by repeat split|done|cbn; lia|done|].
  destruct (write_all_spec ((d, (au, dur)) :: after) w1 b1)
    as (w' & b2 & ps2 & E & Hf2 & _ & _ & _ & Hch & Hst & Htab); [done|done|done|..|done|];
    rewrite ?Ht1; [cbn; lia|rewrite zlen_cons; cbn; lia|].
  cbn [obind]. rewrite E. cbn [obind]. pose proof (close_bytes w' d1 _ Hf2) as Hc.
  destruct (close w' d1) as [[? b] ?]. cbn [fst snd] in Hc. subst b.
  exists b1, b2. split; [done|].
  destruct Htab as (rest & ->); [unfold psi_due; by rewrite Hkey, orb_true_r|].
  rewrite Ht1 in Hst. eapply demux_stream; [done|exact Hst|apply tables_first].
Qed.

(** ** What a failing disk does *)

Lemma write_block_streak w d data w' ok :
  accepts d -> write_block w d data (zlen data) = Ret (w', ok) ->
  ok = true /\ write_fail_streak w' = write_fail_streak w.
Proof.
  intros Hd. unfold write_block. destruct (file w); [|done]. rewrite Hd, Z.eqb_refl.
  destruct (rdn _ _ _); [|done]. by intros [= <- <-].
Qed.

Lemma mux_access_unit_streak w d data len dur w' ok :
  accepts d -> mux_access_unit w d data len dur = Ret (w', ok) ->
  ok = true /\ write_fail_streak w' = write_fail_streak w.
Proof.
  intros Hd E. unfold mux_access_unit in E. repeat run_inv.
  match goal with H : write_block _ _ _ _ = Ret _ |- _ => by apply (write_block_streak _ _ _ _ _ Hd H) end.
Qed.

Lemma write_nal_streak w d data dur w' ok :
  accepts d -> write_nal w d data (zlen data) dur = Ret (w', ok) ->
  write_fail_streak w' = write_fail_streak w \/ 0 <= write_fail_streak w' <= 1.
Proof.
  intros Hd. unfold write_nal. destruct (_ <=? _); [by intros [= <- <-]; left|].
  destruct (_ || _); [by intros [= <- <-]; left|]. intros E. run_inv. destruct a as [w1 b].
  destruct (mux_access_unit_streak _ _ _ _ _ _ _ Hd E0) as (-> & _). cbn [negb] in E.
  injection E as <- <-. right. unfold sync_if_due. destruct (_ && _); [cbn; lia|].
  unfold sync_now. cbn [file with_sync with_failures]. destruct (file w1); [|cbn; lia].
  destruct (if _ && _ then _ else _); cbn [negb write_fail_streak with_failures with_sync]; [lia|].
  change (u32 (0 + 1)) with 1. lia.
Qed.

(** C0. A disk that accepts data but never syncs is not noticed: however many access
    units are written while every fflush or fdatasync fails, the count of consecutive
    failures the recorder stops at never exceeds one, since the next accepted access
    unit clears it. *)
Theorem sync_failures_forgotten w calls w' :
  Forall (fun c => accepts (fst c)) calls -> write_all w calls = Ret w' ->
  0 <= consecutive_write_failures w <= 1 -> 0 <= consecutive_write_failures w' <= 1.
Proof.
  unfold consecutive_write_failures. intros Hall. revert w.
  induction Hall as [|[d [au dur]] calls Hd _ IH]; intros w E Hw; cbn [write_all] in E; [by injection E as <-|].
  run_inv. destruct a as [w1 ok]. apply (IH w1); [done|].
  destruct (write_nal_streak _ _ _ _ _ _ Hd E0) as [->|]; done.
Qed.

(** ** Runs *)

(** A disk that takes what it is given and syncs, one that never syncs, and one that is
    full after that many bytes of a block. *)
Definition good_disk : Disk := {|
  fopen_ok := true; fwrite_n := fun n => n; fflush_ret := 0; fdatasync_ret := 0; fclose_ret := 0;
  now := 0; now_sync := 0 |}.
Definition unsynced_disk : Disk := {|
  fopen_ok := true; fwrite_n := fun n => n; fflush_ret := 0; fdatasync_ret := -1; fclose_ret := 0;
  now := 5000; now_sync := 0 |}.
Definition full_disk (n : Z) : Disk := {|
  fopen_ok := true; fwrite_n := fun _ => n; fflush_ret := 0; fdatasync_ret := 0; fclose_ret := 0;
  now := 0; now_sync := 0 |}.

(** A key frame of 400 bytes and a picture of 150. *)
Definition sample_key : list Z := [0; 0; 0; 1; 0x26; 0x01] ++ replicate 394 0x55.
Definition sample_picture : list Z := [0; 0; 0; 1; 0x02; 0x01] ++ replicate 144 0xAA.

Lemma recording_plays_witness :
  exists f, recording TsWriter_new good_disk
              [(good_disk, (sample_key, 3000)); (unsynced_disk, (sample_picture, 3000))] good_disk
            = Ret (Some f) /\
            demux f = Some [picture_of 0 sample_key; picture_of 3000 sample_picture].
Proof.
  apply (recording_plays TsWriter_new good_disk
    [(good_disk, (sample_key, 3000)); (unsynced_disk, (sample_picture, 3000))] good_disk);
    [reflexivity|discriminate|reflexivity|].
  repeat apply Forall_cons_2; [..|apply Forall_nil_2]; split; (intros n; reflexivity) || (vm_compute; intuition discriminate).
Defined.

Lemma recording_seekable_witness :
  exists f1 f2, recording TsWriter_new good_disk
              [(good_disk, (sample_picture, 3000)); (good_disk, (sample_key, 3000))] good_disk
            = Ret (Some (f1 ++ f2)) /\ demux f2 = Some [picture_of 3000 sample_key].
Proof.
  apply (recording_seekable TsWriter_new good_disk [(good_disk, (sample_picture, 3000))]
    good_disk sample_key 3000 [] good_disk); [reflexivity|vm_compute; reflexivity|reflexivity|].
  repeat apply Forall_cons_2; [..|apply Forall_nil_2]; split; (intros n; reflexivity) || (vm_compute; intuition discriminate).
Defined.

(** After three access units none of which was synced the streak is one. *)
Definition unsynced_run : outcome TsWriter :=
  write_all (fst (begin_video (fst (open TsWriter_new good_disk))))
    (replicate 3 (unsynced_disk, (sample_picture, 3000))).

Lemma sync_failures_forgotten_witness :
  exists w', unsynced_run = Ret w' /\ write_fail_streak w' = 1 /\ 0 <= consecutive_write_failures w' <= 1.
Proof.
  eexists. split; [vm_compute; reflexivity|]. split; [vm_compute; reflexivity|].
  eapply (sync_failures_forgotten (fst (begin_video (fst (open TsWriter_new good_disk))))
    (replicate 3 (unsynced_disk, (sample_picture, 3000)))).
  - apply Forall_replicate. intros n. reflexivity.
  - vm_compute. reflexivity.
  - vm_compute. split; discriminate.
Defined.

(** A short write leaves a packet cut in two: what is recorded after it cannot be read. *)
Example short_write_misaligns :
  exists f, recording TsWriter_new good_disk
    [(good_disk, (sample_key, 3000)); (full_disk 100, (sample_picture, 3000));
     (good_disk, (sample_picture, 3000))] good_disk = Ret (Some f) /\
    zlen f mod 188 = 100 /\ packets f = None.
Proof. eexists. split; [vm_compute; reflexivity|]. split; vm_compute; reflexivity. Qed.
