(* ===== verification/RecordName.v ===== *)
(** * The names of recordings (src/dvr/dvr.cpp, build_sequence_pattern and
    Dvr::generate_filename)

    A name comes from a template: [%N] is the next number after those of the files that
    match the template, the other placeholders are the time.  Strings are lists of
    characters.  std::regex, strtol and the padded output of a number are modelled for
    the uses made of them: a pattern of characters, [\d{n}], [\d+] and [(\d+)].  What the
    directory holds and what strftime makes of a pattern are arguments. *)

From Stdlib Require Import Ascii String.
From S2P Require Import Prelude.
Open Scope Z_scope.
Open Scope char_scope.
Open Scope Z_scope.

Definition chars := list ascii.
Definition text (s : string) : chars := list_ascii_of_string s.

Definition SEQUENCE_PADDING : nat := 4.
Definition INT_MAX : Z := 2147483647.
Definition LONG_MAX : Z := 9223372036854775807.

Definition mem (c : ascii) (l : chars) : bool := existsb (Ascii.eqb c) l.

(** ** build_sequence_pattern *)

(** The loop, from the character at hand on; [seen] is [sequence_capture_added]. *)
Fixpoint pattern_loop (p : chars) (seen : bool) : chars :=
  match p with
  | [] => []
  | "%" :: spec :: p =>
    if Ascii.eqb spec "N" then text (if seen then "\d+" else "(\d+)") ++ pattern_loop p true
    else if Ascii.eqb spec "Y" then text "\d{4}" ++ pattern_loop p seen
    else text "\d{2}" ++ pattern_loop p seen
  | c :: p =>
    (if mem c (text ".^$|()[]{}*+?\") then ["\"] else []) ++ c :: pattern_loop p seen
  end.

Definition build_sequence_pattern (filename_pattern : chars) : chars :=
  "^" :: pattern_loop filename_pattern false ++ ["$"].

(** ** std::regex, for the patterns built above *)

Inductive item := Char (c : ascii) | Digits (n : nat) | Digit_run (captured : bool).

Definition is_digit (c : ascii) : bool := ((48 <=? Z.of_nat (nat_of_ascii c)) && (Z.of_nat (nat_of_ascii c) <=? 57))%Z.

(** A pattern between its anchors as a list of items. *)
Fixpoint parse_items (p : chars) : option (list item) :=
  match p with
  | [] => None
  | ["$"] => Some []
  | "(" :: "\" :: "d" :: "+" :: ")" :: p => its ← parse_items p; Some (Digit_run true :: its)
  | "\" :: "d" :: "+" :: p => its ← parse_items p; Some (Digit_run false :: its)
  | "\" :: "d" :: "{" :: n :: "}" :: p =>
    its ← parse_items p; Some (Digits (nat_of_ascii n - 48) :: its)
  | "\" :: c :: p => its ← parse_items p; Some (Char c :: its)
  | c :: p => if mem c (text ".^$|()[]{}*+?\") then None else its ← parse_items p; Some (Char c :: its)
  end.

Definition parse_pattern (p : chars) : option (list item) :=
  match p with "^" :: p => parse_items p | _ => None end.

(** How many of the first characters are digits. *)
Fixpoint digit_count (s : chars) : nat :=
  match s with c :: s => if is_digit c then S (digit_count s) else O | [] => O end.

(** The first of [j], [j-1], ..., [1] characters that works. *)
Fixpoint longest {A} (j : nat) (try : nat -> option A) : option A :=
  match j with
  | O => None
  | S i => match try j with Some a => Some a | None => longest i try end
  end.

(** The whole of [s] against the items: what was captured, the longest run first. *)
Fixpoint match_items (its : list item) (s : chars) : option (list chars) :=
  match its with
  | [] => match s with [] => Some [] | _ => None end
  | Char c :: its =>
    match s with a :: s => if Ascii.eqb a c then match_items its s else None | [] => None end
  | Digits n :: its => if Nat.leb n (digit_count s) then match_items its (drop n s) else None
  | Digit_run captured :: its =>
    longest (digit_count s) (fun j =>
      caps ← match_items its (drop j s);
      Some (if captured then take j s :: caps else caps))
  end.

Definition regex_match (pattern s : chars) : option (list chars) :=
  its ← parse_pattern pattern; match_items its s.

(** ** Numbers *)

Definition digit_value (c : ascii) : Z := Z.of_nat (nat_of_ascii c) - 48.
Definition digits_value (s : chars) : Z := fold_left (fun v c => 10 * v + digit_value c) s 0.

(** strtol on a string of digits: [None] if errno is set. *)
Definition strtol (s : chars) : option Z :=
  let v := digits_value s in if v <=? LONG_MAX then Some v else None.

Definition digit_char (d : Z) : ascii := ascii_of_nat (Z.to_nat (48 + d)).

Fixpoint decimal_loop (fuel : nat) (v : Z) (acc : chars) : chars :=
  match fuel with
  | O => acc
  | S fuel =>
    let acc := digit_char (v mod 10) :: acc in
    if v <? 10 then acc else decimal_loop fuel (v / 10) acc
  end.

(** A non-negative int as [<<] prints it: at most ten digits. *)
Definition decimal (v : Z) : chars := decimal_loop 10 v [].

(** [setw(n) << setfill('0')]. *)
Definition padded (n : nat) (s : chars) : chars := replicate (n - length s) "0" ++ s.

(** ** generate_filename *)

(** A run over the directory: what it listed (whether a regular file, and the name), or
    that it threw. *)
Inductive dir_scan := Listed (entries : list (bool * chars)) | Threw.

Definition scan_entry (pattern : chars) (max_number : Z) (e : bool * chars) : Z :=
  let '(regular, filename) := e in
  if negb regular then max_number
  else
    match regex_match pattern filename with
    | Some (capture :: _) =>
      match strtol capture with
      | Some number =>
        if (0 <=? number) && (number <? INT_MAX) then Z.max max_number number else max_number
      | None => max_number
      end
    | _ => max_number
    end.

Definition next_file_number (filename_pattern : chars) (scan : dir_scan) : Z :=
  let max_number :=
    match scan with
    | Listed entries => fold_left (scan_entry (build_sequence_pattern filename_pattern)) entries (-1)
    | Threw => -1
    end in
  if max_number =? -1 then 0 else max_number + 1.

(** [find("%N")] and [replace] until there is none left. *)
Fixpoint replace_sequence (p sequence : chars) : chars :=
  match p with
  | "%" :: "N" :: p => sequence ++ replace_sequence p sequence
  | c :: p => c :: replace_sequence p sequence
  | [] => []
  end.

Fixpoint has_sequence (p : chars) : bool :=
  match p with
  | "%" :: "N" :: p => true
  | _ :: p => has_sequence p
  | [] => false
  end.

(** The name within the directory, given to [strftime] as a pattern. *)
Definition name_pattern (filename_pattern : chars) (scan : dir_scan) : chars :=
  if has_sequence filename_pattern then
    replace_sequence filename_pattern
      (padded SEQUENCE_PADDING (decimal (next_file_number filename_pattern scan)))
  else filename_pattern.
