(* ===== verification/Dvr.v ===== *)
(** * The recorder (src/dvr/dvr.cpp, dvr.h, dvr_common.h, storage_guard.cpp)

    The recorder has a thread of its own ([loop]) that takes commands and access units
    from a queue and is the only one to touch storage; the encoder thread and others
    call [on_access_unit], [on_tick], [disable] and so on.  What the threads share -- the
    atomics, the queue under its mutex -- is reached by calls ([dcall]), each of which is
    one indivisible step; so is every call of the system, the encoder and the display.
    Between any two calls other threads may run.  What only the recorder's thread touches
    is the record [Dvr], passed along.  Messages are left out. *)

From Stdlib Require Import Ascii String.
From S2P Require Import Prelude Free TsWriter RecordName.
From stdpp Require Import list.
Open Scope Z_scope.

Definition TS_TIMEBASE_90K : Z := 90000.
Definition MS_TO_90K : Z := 90.
Definition MAX_FRAME_DURATION_90K : Z := TS_TIMEBASE_90K / 4.
Definition STORAGE_CHECK_INTERVAL_MS : Z := 3000.
Definition MAX_CONSECUTIVE_WRITE_FAILURES : Z := 5.
Definition MAX_OPEN_ATTEMPTS : Z := 3.
Definition MAX_QUEUE_BYTES : Z := 32 * 1024 * 1024.
Definition STORAGE_TIMEOUT_MS : Z := 5000.
Definition FAT32_FILE_SIZE_CAP : Z := 4 * 2 ^ 30 - 128 * 2 ^ 20.
Definition MSDOS_SUPER_MAGIC : Z := 0x4d44.

(** ** What the threads share *)

Inductive DvrState := Idle | Recording | Disabled.
#[export] Instance DvrState_eq_dec : EqDecision DvrState.
Proof. solve_decision. Defined.

Inductive rpc_command :=
| RPC_AU | RPC_START | RPC_STOP | RPC_TOGGLE | RPC_DISABLE | RPC_ROTATE | RPC_FAIL | RPC_SHUTDOWN.
#[export] Instance rpc_command_eq_dec : EqDecision rpc_command.
Proof. solve_decision. Defined.

Record dvr_rpc := { command : rpc_command; data : list Z; pts_ms : Z; keyframe : bool }.
Definition dvr_command (c : rpc_command) : dvr_rpc :=
  {| command := c; data := []; pts_ms := 0; keyframe := false |}.

(** What the mutex guards. *)
Record rpc_queue := { queue_ : list dvr_rpc; queue_bytes_ : Z; queue_overflow_ : bool }.

(** What the display is told. *)
Inductive fact := Recording_fact (b : bool) | Storage_status (n : Z) | Storage_available (n : Z).

(** One indivisible step of a thread: an operation on [dvr_state], [recording_armed],
    [busy_since_ms_] or [stalled_], a critical section of the mutex, or a call of the
    system, the encoder or the display. *)
Inductive dcall : Type -> Type :=
| state_load : dcall DvrState
| state_store (s : DvrState) : dcall unit
| state_exchange (s : DvrState) : dcall DvrState
| state_cas (expected desired : DvrState) : dcall bool
| armed_load : dcall bool
| armed_store (b : bool) : dcall unit
| busy_load : dcall Z
| busy_store (t : Z) : dcall unit
| busy_exchange (t : Z) : dcall Z
| stalled_exchange (b : bool) : dcall bool
| locked {A : Type} (f : rpc_queue -> A * rpc_queue) : dcall A
| clock_ms : dcall Z
| stat_dir : dcall (option Z)
| stat_root : dcall (option Z)
| statvfs_dir : dcall (option (Z * Z * Z))
| statfs_dir : dcall (option Z)
| dir_exists : dcall bool
| scan_dir : dcall dir_scan
| strftime_now (pattern : chars) : dcall chars
| remove_file (name : chars) : dcall bool
| disk_call : dcall Disk
| consumers_changed : dcall unit
| request_keyframe : dcall unit
| drain_pending : dcall unit
| encoder_post (rpc : dvr_rpc) : dcall unit
| osd_publish (f : fact) : dcall unit.

Abbreviation io := (prog dcall).

Definition dvr_is_disabled : io bool := get! s <- state_load ;; Done (bool_decide (s = Disabled)).

(** ** The critical sections *)

Definition push (rpc : dvr_rpc) (q : rpc_queue) : unit * rpc_queue :=
  (tt, {| queue_ := queue_ q ++ [rpc]; queue_bytes_ := u64 (queue_bytes_ q + zlen (data rpc));
          queue_overflow_ := queue_overflow_ q |}).

(** The wait and what follows it: [None] if the second went by with an empty queue. *)
Definition pop (q : rpc_queue) : option dvr_rpc * rpc_queue :=
  match queue_ q with
  | [] => (None, q)
  | rpc :: rest =>
    (Some rpc, {| queue_ := rest; queue_bytes_ := u64 (queue_bytes_ q - zlen (data rpc));
                  queue_overflow_ := queue_overflow_ q |})
  end.

Definition take_overflow (q : rpc_queue) : bool * rpc_queue :=
  (queue_overflow_ q,
   {| queue_ := queue_ q; queue_bytes_ := queue_bytes_ q; queue_overflow_ := false |}).
Definition clear_overflow (q : rpc_queue) : unit * rpc_queue := (tt, snd (take_overflow q)).

Definition clear_queue (q : rpc_queue) : unit * rpc_queue :=
  (tt, {| queue_ := []; queue_bytes_ := 0; queue_overflow_ := false |}).

Definition drop_access_units (q : rpc_queue) : unit * rpc_queue :=
  (tt, {| queue_ := List.filter (fun r => negb (bool_decide (command r = RPC_AU))) (queue_ q);
          queue_bytes_ := 0; queue_overflow_ := false |}).

Definition push_access_unit (au : list Z) (pts : Z) (key : bool) (q : rpc_queue) : bool * rpc_queue :=
  if MAX_QUEUE_BYTES <? u64 (queue_bytes_ q + zlen au) then
    (false, {| queue_ := queue_ q; queue_bytes_ := queue_bytes_ q; queue_overflow_ := true |})
  else
    (true, {| queue_ := queue_ q ++ [{| command := RPC_AU; data := au; pts_ms := pts; keyframe := key |}];
              queue_bytes_ := u64 (queue_bytes_ q + zlen au); queue_overflow_ := queue_overflow_ q |}).

(** ** Storage (StorageGuard) *)

Record config := {
  min_free_bytes : Z; require_mount : bool; segment_limit_ms : Z; nominal_fps : Z;
  rec_dir : chars; filename_pattern : chars
}.

Definition is_external_mount : io bool :=
  get! sdir <- stat_dir ;;
  match sdir with
  | None => Done false
  | Some d =>
    get! sroot <- stat_root ;;
    match sroot with None => Done false | Some r => Done (negb (d =? r)) end
  end.

Section Dvr.
Context (cfg : config).

Definition free_bytes : io (option Z) :=
  get! v <- statvfs_dir ;;
  Done (match v with Some (frsize, bavail, _) => Some (u64 (frsize * bavail)) | None => None end).

Definition space_bytes : io (option (Z * Z)) :=
  get! v <- statvfs_dir ;;
  Done (match v with
        | Some (frsize, bavail, blocks) => Some (u64 (frsize * bavail), u64 (frsize * blocks))
        | None => None end).

Definition device_id : io (option Z) := trigger stat_dir.

Definition file_size_cap : io Z :=
  get! f <- statfs_dir ;;
  Done (match f with
        | None => FAT32_FILE_SIZE_CAP
        | Some f_type => if u32 f_type =? MSDOS_SUPER_MAGIC then FAT32_FILE_SIZE_CAP else 0
        end).

Definition mount_ok : io bool := if negb (require_mount cfg) then Done true else is_external_mount.

Definition has_enough_free (free_bytes_estimate : Z) : bool := min_free_bytes cfg <=? free_bytes_estimate.

Definition is_ready : io bool :=
  get! sdir <- stat_dir ;;
  match sdir with
  | None => Done false
  | Some _ =>
    let! mounted <- mount_ok ;;
    if negb mounted then Done false
    else
      let! available <- free_bytes ;;
      Done (match available with None => false | Some v => negb (v <? min_free_bytes cfg) end)
  end.

(** ** What only the recorder's thread touches *)

Record segment := {
  frames_written : Z; rec_start_pts : Z; segment_video_ticks : Z; last_good_duration : Z
}.
Record session := {
  max_file_bytes : Z; session_free_at_start : Z; session_free_known : bool;
  session_dev : Z; session_dev_known : bool
}.
Record storage_status := {
  storage_status_dev : Z; storage_status_dev_known : bool;
  storage_total_bytes : Z; storage_total_known : bool; last_storage_check_ms : Z
}.
Record Dvr := {
  writer : TsWriter; current_filename : chars; pending_open : bool; open_attempts : Z;
  seg : segment; ses : session; sto : storage_status
}.

Definition Dvr_new : Dvr := {|
  writer := TsWriter_new; current_filename := []; pending_open := false; open_attempts := 0;
  seg := {| frames_written := 0; rec_start_pts := -1; segment_video_ticks := 0; last_good_duration := 0 |};
  ses := {| max_file_bytes := 0; session_free_at_start := 0; session_free_known := false;
            session_dev := 0; session_dev_known := false |};
  sto := {| storage_status_dev := 0; storage_status_dev_known := false; storage_total_bytes := 0;
            storage_total_known := false; last_storage_check_ms := 0 |} |}.

Definition with_writer (d : Dvr) (w : TsWriter) (name : chars) : Dvr := {|
  writer := w; current_filename := name; pending_open := pending_open d;
  open_attempts := open_attempts d; seg := seg d; ses := ses d; sto := sto d |}.
Definition with_pending (d : Dvr) (pending : bool) (attempts : Z) : Dvr := {|
  writer := writer d; current_filename := current_filename d; pending_open := pending;
  open_attempts := attempts; seg := seg d; ses := ses d; sto := sto d |}.
Definition with_seg (d : Dvr) (s : segment) : Dvr := {|
  writer := writer d; current_filename := current_filename d; pending_open := pending_open d;
  open_attempts := open_attempts d; seg := s; ses := ses d; sto := sto d |}.
Definition with_ses (d : Dvr) (s : session) : Dvr := {|
  writer := writer d; current_filename := current_filename d; pending_open := pending_open d;
  open_attempts := open_attempts d; seg := seg d; ses := s; sto := sto d |}.
Definition with_sto (d : Dvr) (s : storage_status) : Dvr := {|
  writer := writer d; current_filename := current_filename d; pending_open := pending_open d;
  open_attempts := open_attempts d; seg := seg d; ses := ses d; sto := s |}.
Definition with_checked (d : Dvr) (t : Z) : Dvr := with_sto d {|
  storage_status_dev := storage_status_dev (sto d);
  storage_status_dev_known := storage_status_dev_known (sto d);
  storage_total_bytes := storage_total_bytes (sto d);
  storage_total_known := storage_total_known (sto d); last_storage_check_ms := t |}.

(** [frames_written], [rec_start_pts] and [segment_video_ticks] as [start] and
    [open_next_file] reset them. *)
Definition reset_segment (d : Dvr) : Dvr := with_seg d {|
  frames_written := 0; rec_start_pts := -1; segment_video_ticks := 0;
  last_good_duration := last_good_duration (seg d) |}.

(** ** Files *)

(** The name of the next file; [None] stands for the empty string. *)
Definition generate_filename : io (option chars) :=
  get! exists_ <- dir_exists ;;
  if negb exists_ then Done None
  else
    let! pattern <-
      (if has_sequence (filename_pattern cfg) then
         get! scan <- scan_dir ;; Done (name_pattern (filename_pattern cfg) scan)
       else Done (filename_pattern cfg)) ;;
    get! name <- strftime_now pattern ;;
    Done (Some (rec_dir cfg ++ ["/"%char] ++ name)).

Definition finalize_current_file (d : Dvr) : io Dvr :=
  if negb (is_open (writer d)) && bool_decide (current_filename d = []) then Done d
  else
    let empty := frames_written (seg d) =? 0 in
    get! k <- disk_call ;;
    let '(w, _, _) := close (writer d) k in
    let! _ <- (if empty && negb (bool_decide (current_filename d = []))
               then trigger (remove_file (current_filename d)) else Done false) ;;
    Done (with_seg (with_writer d w []) {|
      frames_written := frames_written (seg d); rec_start_pts := rec_start_pts (seg d);
      segment_video_ticks := 0; last_good_duration := last_good_duration (seg d) |}).

Definition stop (d : Dvr) : io Dvr :=
  run! armed_store false ;;
  let d := with_pending d false (open_attempts d) in
  run! consumers_changed ;;
  run! locked clear_overflow ;;
  run! osd_publish (Recording_fact false) ;;
  run! state_cas Recording Idle ;;
  finalize_current_file d.

Definition fail (d : Dvr) (fatal : bool) : io Dvr :=
  let! disabled <- (if fatal then dvr_is_disabled else Done false) ;;
  if disabled then Done d
  else
    let! d <- stop d ;;
    if fatal then run! state_store Disabled ;; Done d else Done d.

Definition start (d : Dvr) : io (Dvr * Z) :=
  let! ready <- is_ready ;;
  if negb ready then run! osd_publish (Recording_fact false) ;; Done (d, -1)
  else
    get! ok <- state_cas Idle Recording ;;
    if negb ok then run! osd_publish (Recording_fact false) ;; Done (d, -1)
    else
      let d := with_pending (reset_segment d) true 0 in
      run! armed_store true ;;
      run! osd_publish (Recording_fact true) ;;
      run! consumers_changed ;;
      run! request_keyframe ;;
      Done (d, 0).

Definition open_output_file (d : Dvr) : io (Dvr * bool) :=
  let! name <- generate_filename ;;
  match name with
  | None => Done (d, false)
  | Some ts_filename =>
    get! k <- disk_call ;;
    let '(w, ok) := open (writer d) k in
    if negb ok then Done (with_writer d w (current_filename d), false)
    else
      let d := with_writer d w ts_filename in
      let '(w, ok) := begin_video w in
      if negb ok then
        get! k <- disk_call ;;
        let '(w, _, _) := close w k in
        run! remove_file ts_filename ;;
        Done (with_writer d w [], false)
      else
        let d := with_writer d w ts_filename in
        let! cap <- file_size_cap ;;
        let! dev <- device_id ;;
        let! free <- free_bytes ;;
        let d := with_ses d {|
          max_file_bytes := cap;
          session_free_at_start := match free with Some v => v | None => 0 end;
          session_free_known := match free with Some _ => true | None => false end;
          session_dev := match dev with Some v => v | None => session_dev (ses d) end;
          session_dev_known := match dev with Some _ => true | None => false end |} in
        get! now <- clock_ms ;;
        Done (with_checked d now, true)
  end.

(** How long the frame of that time is shown, in ticks. *)
Definition next_frame_duration (s : segment) (pts : Z) : outcome (segment * Z) :=
  let default_duration := TS_TIMEBASE_90K / nominal_fps cfg in
  let start_pts := if rec_start_pts s <? 0 then pts else rec_start_pts s in
  do elapsed <- c_int64 (pts - start_pts) ;;
  do target <- c_int64 (elapsed * MS_TO_90K) ;;
  do duration <- c_int64 (target - segment_video_ticks s) ;;
  let duration := if duration <? 1 then 1 else duration in
  let '(duration, ticks) :=
    if MAX_FRAME_DURATION_90K <? duration
    then ((if 0 <? last_good_duration s then last_good_duration s else default_duration), target)
    else (duration, segment_video_ticks s) in
  do ticks <- c_int64 (ticks + duration) ;;
  Ret ({| frames_written := frames_written s; rec_start_pts := start_pts;
          segment_video_ticks := ticks; last_good_duration := s32 duration |}, s32 duration).

Definition request_rotate (d : Dvr) : io Dvr :=
  if pending_open d then Done d
  else run! request_keyframe ;; Done (with_pending d true (open_attempts d)).

Definition open_next_file (d : Dvr) : io (Dvr * bool) :=
  let! d <- finalize_current_file d ;;
  let d := reset_segment d in
  let!* (d, ok) <- open_output_file d ;;
  if negb ok then
    let d := with_pending d (pending_open d) (open_attempts d + 1) in
    if MAX_OPEN_ATTEMPTS <=? open_attempts d
    then let! d <- fail d true ;; Done (d, false)
    else Done (d, false)
  else Done (with_pending d (pending_open d) 0, true).

Definition file_active (d : Dvr) : io bool :=
  get! armed <- armed_load ;; Done (armed && is_open (writer d)).

(** ** The storage check *)

(** The end of a check that found no storage: [known] is what is forgotten. *)
Definition no_storage (d : Dvr) (forget : bool) : io Dvr :=
  let d := if forget then with_sto d {|
    storage_status_dev := storage_status_dev (sto d); storage_status_dev_known := false;
    storage_total_bytes := storage_total_bytes (sto d); storage_total_known := false;
    last_storage_check_ms := last_storage_check_ms (sto d) |} else d in
  run! osd_publish (Storage_status 0) ;; Done d.

Definition fail_if (b : bool) (d : Dvr) (fatal : bool) : io Dvr := if b then fail d fatal else Done d.

(** The free space, measured or estimated; [None] if it could not be read. *)
Definition available_space (d : Dvr) (now_dev : Z) (same_recording_storage : bool) : io (Dvr * option Z) :=
  let new_storage := negb (storage_status_dev_known (sto d)) || negb (now_dev =? storage_status_dev (sto d)) in
  if new_storage || negb (storage_total_known (sto d)) then
    let! space <- space_bytes ;;
    match space with
    | None => Done (d, None)
    | Some (available, total) =>
      Done (with_sto d {|
        storage_status_dev := now_dev; storage_status_dev_known := true;
        storage_total_bytes := total; storage_total_known := true;
        last_storage_check_ms := last_storage_check_ms (sto d) |}, Some available)
    end
  else
    let! active <- file_active d ;;
    if active && session_free_known (ses d) && same_recording_storage then
      let written := TsWriter.size (writer d) in
      Done (d, Some (if written <? session_free_at_start (ses d)
                     then session_free_at_start (ses d) - written else 0))
    else
      let! free <- free_bytes ;; Done (d, free).

Definition publish_space (d : Dvr) (available_bytes : Z) : io Dvr :=
  let total := storage_total_bytes (sto d) in
  let low_space := (available_bytes <=? min_free_bytes cfg)
                   || ((0 <? total) && (available_bytes <? total / 10)) in
  run! osd_publish (Storage_available
         (if min_free_bytes cfg <? available_bytes then available_bytes - min_free_bytes cfg else 0)) ;;
  run! osd_publish (Storage_status (if low_space then 2 else 1)) ;;
  Done d.

(** The check of a device that could be identified. *)
Definition check_device (d : Dvr) (now_dev : Z) : io Dvr :=
  let same_recording_storage := session_dev_known (ses d) && (now_dev =? session_dev (ses d)) in
  let! active <- file_active d ;;
  if active && session_dev_known (ses d) && negb same_recording_storage then
    let! d <- fail d true ;; no_storage d false
  else
    let!* (d, space) <- available_space d now_dev same_recording_storage ;;
    match space with
    | None => no_storage d false
    | Some available_bytes =>
      let! active <- file_active d ;;
      let! d <- fail_if (active && session_free_known (ses d) && negb (has_enough_free available_bytes)) d false ;;
      publish_space d available_bytes
    end.

Definition update_storage_status (d : Dvr) (force_update : bool) : io Dvr :=
  get! now_ms <- clock_ms ;;
  if negb force_update && (now_ms - last_storage_check_ms (sto d) <? STORAGE_CHECK_INTERVAL_MS)
  then Done d
  else
    let d := with_checked d now_ms in
    let! mounted <- mount_ok ;;
    if negb mounted then
      let! active <- file_active d ;;
      let! d <- fail_if active d true ;;
      no_storage d true
    else
      let! dev <- device_id ;;
      match dev with
      | None =>
        let! active <- file_active d ;;
        let! d <- fail_if (active && session_dev_known (ses d)) d true ;;
        no_storage d true
      | Some now_dev => check_device d now_dev
      end.

(** ** Access units *)

(** What follows a write: the next file if this one is full, the end if writes fail. *)
Definition after_write (d : Dvr) : io Dvr :=
  let! d <-
    (if (0 <? max_file_bytes (ses d)) && (max_file_bytes (ses d) <=? TsWriter.size (writer d))
     then request_rotate d
     else
       let! limit <- lift (if 0 <? segment_limit_ms cfg
                           then c_int64 (segment_limit_ms cfg * MS_TO_90K) else Ret 0) ;;
       if (0 <? segment_limit_ms cfg) && (limit <=? segment_video_ticks (seg d))
       then request_rotate d else Done d) ;;
  if MAX_CONSECUTIVE_WRITE_FAILURES <=? consecutive_write_failures (writer d)
  then fail d true else Done d.

Definition write_unit (d : Dvr) (au : dvr_rpc) : io Dvr :=
  if negb (is_open (writer d)) then Done d
  else
    let!* (s, duration) <- lift (next_frame_duration (seg d) (pts_ms au)) ;;
    let d := with_seg d s in
    get! k <- disk_call ;;
    let!* (w, ok) <- lift (write_nal (writer d) k (data au) (s32 (zlen (data au))) duration) ;;
    let d := with_writer d w (current_filename d) in
    let d := if ok then with_seg d {|
               frames_written := u32 (frames_written (seg d) + 1); rec_start_pts := rec_start_pts (seg d);
               segment_video_ticks := segment_video_ticks (seg d);
               last_good_duration := last_good_duration (seg d) |} else d in
    after_write d.

Definition handle_access_unit (d : Dvr) (au : dvr_rpc) : io Dvr :=
  get! armed <- armed_load ;;
  if negb armed then Done d
  else
    get! overflowed <- locked take_overflow ;;
    if overflowed then fail d true
    else if pending_open d then
      if negb (keyframe au) then Done d
      else
        let!* (d, ok) <- open_next_file d ;;
        if negb ok then Done d
        else write_unit (with_pending d false (open_attempts d)) au
    else write_unit d au.

(** ** The thread *)

(** True if a stall was declared while this piece of work lasted. *)
Definition finish_storage_work (d : Dvr) : io (Dvr * bool) :=
  run! busy_exchange 0 ;;
  get! stalled <- stalled_exchange false ;;
  if negb stalled then Done (d, false)
  else let! d <- stop d ;; Done (d, true).

(** The switch over the command; [true] is the jump to [end]. *)
Definition dispatch (d : Dvr) (rpc : dvr_rpc) : io (Dvr * bool) :=
  match command rpc with
  | RPC_AU => let! d <- handle_access_unit d rpc ;; Done (d, false)
  | RPC_START =>
    get! armed <- armed_load ;;
    if negb armed then let!* (d, _) <- start d ;; Done (d, false) else Done (d, false)
  | RPC_STOP =>
    get! armed <- armed_load ;;
    if armed then let! d <- stop d ;; Done (d, false) else Done (d, false)
  | RPC_TOGGLE =>
    get! armed <- armed_load ;;
    if armed then let! d <- stop d ;; Done (d, false)
    else let!* (d, _) <- start d ;; Done (d, false)
  | RPC_DISABLE =>
    get! armed <- armed_load ;;
    let! d <- (if armed then stop d else Done d) ;;
    run! osd_publish (Recording_fact false) ;; Done (d, false)
  | RPC_ROTATE =>
    get! armed <- armed_load ;;
    if armed then let! d <- request_rotate d ;; Done (d, false) else Done (d, false)
  | RPC_FAIL =>
    get! armed <- armed_load ;;
    if armed then let! d <- fail d true ;; Done (d, false) else Done (d, false)
  | RPC_SHUTDOWN => Done (d, true)
  end.

(** One turn of the loop; [true] when it is left. *)
Definition loop_turn (d : Dvr) : io (Dvr * bool) :=
  get! rpc <- locked pop ;;
  match rpc with
  | None =>
    get! now <- clock_ms ;;
    run! busy_store now ;;
    let! d <- update_storage_status d true ;;
    let!* (d, stalled) <- finish_storage_work d ;;
    if stalled then Done (d, true)
    else let! disabled <- dvr_is_disabled ;; Done (d, disabled)
  | Some rpc =>
    get! now <- clock_ms ;;
    run! busy_store now ;;
    let! d <- update_storage_status d false ;;
    let! disabled <- dvr_is_disabled ;;
    if disabled && negb (bool_decide (command rpc = RPC_SHUTDOWN))
       && negb (bool_decide (command rpc = RPC_DISABLE)) then
      let!* (d, _) <- finish_storage_work d ;; Done (d, true)
    else
      let!* (d, leave) <- dispatch d rpc ;;
      if leave then Done (d, true)
      else
        let!* (d, stalled) <- finish_storage_work d ;;
        if stalled then Done (d, true)
        else let! disabled <- dvr_is_disabled ;; Done (d, disabled)
  end.

(** From the label [end] on. *)
Definition loop_end (d : Dvr) : io Dvr :=
  get! armed <- armed_load ;;
  let! d <- (if armed then stop d else Done d) ;;
  let!* (d, _) <- finish_storage_work d ;;
  run! locked clear_queue ;;
  Done d.

(** The thread, for at most that many turns. *)
Fixpoint loop (turns : nat) (d : Dvr) : io Dvr :=
  match turns with
  | O => Die Diverge
  | S turns =>
    let!* (d, leave) <- loop_turn d ;;
    if leave then loop_end d else loop turns d
  end.
End Dvr.

(** ** The other threads *)

Definition enqueue (rpc : dvr_rpc) : io unit := trigger (locked (push rpc)).

(** What [encoder->post] runs on the encoder's thread. *)
Definition posted (rpc : dvr_rpc) : io unit := run! drain_pending ;; enqueue rpc.

Definition enqueue_dvr_command (rpc : dvr_rpc) : io unit :=
  if bool_decide (command rpc = RPC_START) || bool_decide (command rpc = RPC_TOGGLE) then
    let! disabled <- dvr_is_disabled ;;
    if disabled then Done tt else trigger (encoder_post rpc)
  else trigger (encoder_post rpc).

Definition start_recording : io unit := enqueue_dvr_command (dvr_command RPC_START).
Definition stop_recording : io unit :=
  run! state_cas Recording Idle ;; enqueue_dvr_command (dvr_command RPC_STOP).
Definition toggle_recording : io unit := enqueue_dvr_command (dvr_command RPC_TOGGLE).
Definition disable : io unit :=
  get! prev <- state_exchange Disabled ;;
  if bool_decide (prev = Disabled) then Done tt else enqueue_dvr_command (dvr_command RPC_DISABLE).
Definition shutdown : io unit :=
  run! state_cas Recording Idle ;; enqueue_dvr_command (dvr_command RPC_SHUTDOWN).

Definition active : io bool := trigger armed_load.

(** The size of an access unit is an int. *)
Definition on_access_unit (au : list Z) (pts : Z) (key : bool) : io unit :=
  get! armed <- armed_load ;;
  if negb armed || (zlen au <=? 0) then Done tt
  else
    get! armed <- armed_load ;;
    if negb armed then Done tt
    else run! locked (push_access_unit au pts key) ;; Done tt.

Definition on_encoder_reset : io unit := enqueue (dvr_command RPC_ROTATE).
Definition on_encoder_failed : io unit := enqueue (dvr_command RPC_FAIL).

Definition on_tick : io unit :=
  get! since <- busy_load ;;
  if since =? 0 then Done tt
  else
    get! now <- clock_ms ;;
    if now - since <? STORAGE_TIMEOUT_MS then Done tt
    else
      let! disabled <- dvr_is_disabled ;;
      if disabled then Done tt
      else
        get! already <- stalled_exchange true ;;
        if already then Done tt
        else
          run! state_store Disabled ;;
          run! armed_store false ;;
          run! consumers_changed ;;
          run! locked drop_access_units ;;
          run! osd_publish (Recording_fact false) ;;
          run! osd_publish (Storage_status 0) ;;
          Done tt.
