(* ===== verification/DvrThreads.v ===== *)
(** * The recorder among other threads

    What the calls of [Dvr.dcall] do to the shared state, the system in which any number
    of threads run the recorder's entry points beside its own thread, one indivisible
    step at a time, and a logic for the recorder's thread: [wpr] holds of a program if it
    does what is asked however the others interleave, provided they keep to a relation. *)

From S2P Require Import Prelude Free TsWriter RecordName Dvr.
From stdpp Require Import list relations.
Open Scope Z_scope.

(** ** Steps *)

(** [consumed] is history: the recorder's thread has taken a stall notice. *)
Record shared := {
  dvr_state : DvrState; recording_armed : bool; busy_since_ms_ : Z; stalled_ : bool;
  guarded : rpc_queue; consumed : bool
}.

Definition shared0 : shared := {|
  dvr_state := Idle; recording_armed := false; busy_since_ms_ := 0; stalled_ := false;
  guarded := {| queue_ := []; queue_bytes_ := 0; queue_overflow_ := false |}; consumed := false |}.

Section Updates.
Variable s : shared.
Definition set_state (v : DvrState) : shared := {|
  dvr_state := v; recording_armed := recording_armed s; busy_since_ms_ := busy_since_ms_ s;
  stalled_ := stalled_ s; guarded := guarded s; consumed := consumed s |}.
Definition set_armed (v : bool) : shared := {|
  dvr_state := dvr_state s; recording_armed := v; busy_since_ms_ := busy_since_ms_ s;
  stalled_ := stalled_ s; guarded := guarded s; consumed := consumed s |}.
Definition set_busy (v : Z) : shared := {|
  dvr_state := dvr_state s; recording_armed := recording_armed s; busy_since_ms_ := v;
  stalled_ := stalled_ s; guarded := guarded s; consumed := consumed s |}.
Definition set_stalled (v : bool) : shared := {|
  dvr_state := dvr_state s; recording_armed := recording_armed s; busy_since_ms_ := busy_since_ms_ s;
  stalled_ := v; guarded := guarded s; consumed := consumed s || (stalled_ s && negb v) |}.
Definition set_guarded (v : rpc_queue) : shared := {|
  dvr_state := dvr_state s; recording_armed := recording_armed s; busy_since_ms_ := busy_since_ms_ s;
  stalled_ := stalled_ s; guarded := v; consumed := consumed s |}.
End Updates.

(** The answer and the state after a call; the system may answer anything. *)
Definition effect {X} (c : dcall X) (s : shared) : X -> shared -> Prop :=
  match c in dcall X return X -> shared -> Prop with
  | state_load => fun x s' => x = dvr_state s /\ s' = s
  | state_store v => fun _ s' => s' = set_state s v
  | state_exchange v => fun x s' => x = dvr_state s /\ s' = set_state s v
  | state_cas expected desired => fun x s' =>
      if bool_decide (dvr_state s = expected) then x = true /\ s' = set_state s desired
      else x = false /\ s' = s
  | armed_load => fun x s' => x = recording_armed s /\ s' = s
  | armed_store v => fun _ s' => s' = set_armed s v
  | busy_load => fun x s' => x = busy_since_ms_ s /\ s' = s
  | busy_store v => fun _ s' => s' = set_busy s v
  | busy_exchange v => fun x s' => x = busy_since_ms_ s /\ s' = set_busy s v
  | stalled_exchange v => fun x s' => x = stalled_ s /\ s' = set_stalled s v
  | locked f => fun x s' => x = fst (f (guarded s)) /\ s' = set_guarded s (snd (f (guarded s)))
  | _ => fun _ s' => s' = s
  end.

(** What other threads may be running. *)
Inductive entry : io unit -> Prop :=
| enter_start : entry start_recording
| enter_stop : entry stop_recording
| enter_toggle : entry toggle_recording
| enter_disable : entry disable
| enter_shutdown : entry shutdown
| enter_posted c : c <> RPC_AU -> entry (posted (dvr_command c))
| enter_access_unit au pts key : zlen au < 2 ^ 31 -> entry (on_access_unit au pts key)
| enter_reset : entry on_encoder_reset
| enter_failed : entry on_encoder_failed
| enter_tick : entry on_tick.

(** The recorder's thread and the others; a command given to [encoder_post] is covered by
    [enter_posted], at any time. *)
Record sys (A : Type) := Sys { state : shared; thread : io A; others : list (io unit) }.
Arguments Sys {A} state thread others.
Arguments state {A} s.
Arguments thread {A} s.
Arguments others {A} s.

Inductive step {A} : sys A -> sys A -> Prop :=
| step_thread s X (c : dcall X) k os x s' :
    effect c s x s' -> step (Sys s (Call c k) os) (Sys s' (k x) os)
| step_other s w l X (c : dcall X) k r x s' :
    effect c s x s' -> step (Sys s w (l ++ Call c k :: r)) (Sys s' w (l ++ k x :: r))
| step_enter s w os p : entry p -> step (Sys s w os) (Sys s w (p :: os)).

(** ** The logic *)

Section Logic.
Context (R : shared -> shared -> Prop) `{!PreOrder R} (may_die : crash -> Prop).

Fixpoint wpr {A} (p : io A) (s : shared) (Q : A -> shared -> Prop) : Prop :=
  match p with
  | Done a => Q a s
  | Die c => may_die c
  | Call c k => forall s', R s s' -> forall x s'', effect c s' x s'' -> wpr (k x) s'' Q
  end.

Lemma wpr_mono {A} (p : io A) s (P Q : A -> shared -> Prop) :
  wpr p s P -> (forall a s', P a s' -> Q a s') -> wpr p s Q.
Proof. intros Hp HPQ. revert s Hp. induction p; cbn; eauto. Qed.

Lemma wpr_bind {A B} (m : io A) (k : A -> io B) s Q :
  wpr m s (fun a s' => wpr (k a) s' Q) -> wpr (io_bind m k) s Q.
Proof. revert s. induction m; cbn; eauto. Qed.

(** A call whose effect the relation allows anyway says no more than that. *)
Definition quiet {X} (c : dcall X) : Prop := forall s x s', effect c s x s' -> R s s'.

Lemma wpr_quiet {A X} (c : dcall X) (k : X -> io A) s Q :
  quiet c -> (forall x s', R s s' -> wpr (k x) s' Q) -> wpr (Call c k) s Q.
Proof. intros Hc Hk s' Hs x s'' He. apply Hk. etrans; [exact Hs|]. by eapply Hc. Qed.

Lemma wpr_does {A} (p : io A) s (P : A -> Prop) (Q : A -> shared -> Prop) :
  does (fun X c => quiet c) p P -> (forall c, may_die c) ->
  (forall a s', R s s' -> P a -> Q a s') -> wpr p s Q.
Proof.
  intros Hp Hd. revert s. induction p as [a|c|X c k IH]; intros s HQ; cbn in *; [by apply HQ|auto|].
  destruct Hp as (Hc & Hk). apply wpr_quiet; [done|]. intros x s' Hs. apply IH; [done|].
  intros a s2 Hs2. apply HQ. by etrans.
Qed.

Lemma wpr_stable {A} (p : io A) s s' (Q : A -> shared -> Prop) :
  (forall a s1 s2, Q a s1 -> R s1 s2 -> Q a s2) -> R s s' -> wpr p s Q -> wpr p s' Q.
Proof.
  intros HQ Hs. destruct p as [a|c|X c k]; cbn; [by eauto|done|]. intros Hp s2 Hs2. apply Hp. by etrans.
Qed.

(** *** Soundness: [ok] is what is known of the others, kept by every step of any thread. *)
Context (ok : io unit -> shared -> Prop).
Hypothesis ok_entry : forall p s, entry p -> ok p s.
Hypothesis ok_step : forall X (c : dcall X) k s x s', ok (Call c k) s -> effect c s x s' -> R s s' /\ ok (k x) s'.
Hypothesis ok_stable : forall p X (c : dcall X) s x s', ok p s -> effect c s x s' -> ok p s'.

Lemma wpr_sound {A} (Q : A -> shared -> Prop) (c1 c2 : sys A) :
  (forall a s1 s2, Q a s1 -> R s1 s2 -> Q a s2) ->
  rtc step c1 c2 -> wpr (thread c1) (state c1) Q -> Forall (fun p => ok p (state c1)) (others c1) ->
  wpr (thread c2) (state c2) Q.
Proof.
  intros HQ Hr. induction Hr as [|c1 c2 c3 Hs Hr IH]; [done|]. intros Hw Ho.
  destruct Hs as [s Y c k os x s' He|s w l Y c k r x s' He|s w os p Hp]; cbn in *; apply IH; try done.
  - by eapply Hw.
  - eapply Forall_impl; [exact Ho|]. intros p Hp. exact (ok_stable _ _ _ _ _ _ Hp He).
  - apply Forall_app in Ho as (_ & Ho). apply Forall_inv in Ho.
    destruct (ok_step _ _ _ _ _ _ Ho He) as (Hrel & _). exact (wpr_stable _ _ _ _ HQ Hrel Hw).
  - apply Forall_app in Ho as (Hl & Hc). pose proof (Forall_inv Hc) as Hp. apply Forall_inv_tail in Hc.
    apply Forall_app_2; [|apply Forall_cons_2].
    + eapply Forall_impl; [exact Hl|]. intros p Hp'. exact (ok_stable _ _ _ _ _ _ Hp' He).
    + exact (proj2 (ok_step _ _ _ _ _ _ Hp He)).
    + eapply Forall_impl; [exact Hc|]. intros p Hp'. exact (ok_stable _ _ _ _ _ _ Hp' He).
  - apply Forall_cons_2; [by apply ok_entry|done].
Qed.
End Logic.
