(* ===== verification/DvrProps.v ===== *)
(** * What the recorder keeps, however its threads interleave

    When the recorder's thread ends, no file is left open: a file is open only while a
    recording is armed or a stall notice is waiting, and both are looked at before the
    thread ends.  The relation [interferes] is what the other threads may do meanwhile. *)

From S2P Require Import Prelude Free TsWriter RecordName Dvr DvrThreads.
From stdpp Require Import list relations.
Open Scope Z_scope.

(** ** What the other threads may do *)

(** Only the recorder's thread arms and takes stall notices, and nobody disarms without
    having left one. *)
Definition interferes (s s' : shared) : Prop :=
  (recording_armed s' = true -> recording_armed s = true) /\
  (stalled_ s = true -> stalled_ s' = true) /\
  consumed s' = consumed s /\
  (recording_armed s = true -> recording_armed s' = false -> stalled_ s' = true \/ consumed s' = true).

#[export] Instance interferes_preorder : PreOrder interferes.
Proof.
  split; [unfold interferes; intros s; intuition congruence|].
  intros s1 s2 s3 (A1 & B1 & C1 & D1) (A2 & B2 & C2 & D2). split_and!; [auto|auto|congruence|].
  intros H1 H3. destruct (recording_armed s2) eqn:E; [by apply D2|].
  destruct D1 as [D1|D1]; [done|done|left; auto|right; congruence].
Qed.

Definition is_quiet {X} (c : dcall X) : bool :=
  match c with armed_store _ => false | stalled_exchange v => v | _ => true end.

Lemma is_quiet_interferes {X} (c : dcall X) : is_quiet c = true -> quiet interferes c.
Proof.
  intros Hc s x s' He. destruct c; cbn in Hc, He; try discriminate; destruct_and?; subst;
    try (unfold interferes; cbn; intuition congruence).
  - destruct (bool_decide _); destruct He as [-> ->]; unfold interferes; cbn; intuition congruence.
  - unfold interferes. cbn. rewrite andb_false_r, orb_false_r. intuition congruence.
Qed.

Abbreviation quiet_calls := (does (fun X (c : dcall X) => is_quiet c = true)).

Lemma quiet_calls_does {A} (p : io A) Q : quiet_calls p Q -> does (fun X c => quiet interferes c) p Q.
Proof.
  induction p as [a|c|X c k IH]; cbn; [done..|]. intros (Hc & Hk). split; [by apply is_quiet_interferes|auto].
Qed.

(** ** What is known of the other threads *)

(** A stall was declared at some time. *)
Definition declared (s : shared) : Prop := stalled_ s = true \/ consumed s = true.

Lemma effect_declared {X} (c : dcall X) s x s' : effect c s x s' -> declared s -> declared s'.
Proof.
  unfold declared. intros He Hd. destruct c; cbn in He; destruct_and?; subst; cbn; try done.
  - by destruct (bool_decide _); destruct He as [-> ->].
  - destruct (stalled_ s), (consumed s), b; cbn; intuition congruence.
Qed.

(** Every step of the thread interferes at most, and what it relies on to do so -- that a
    stall was declared -- no other thread can undo. *)
Fixpoint behaves (p : io unit) (s : shared) : Prop :=
  match p with
  | Call c k => forall s', (declared s -> declared s') ->
      forall x s'', effect c s' x s'' -> interferes s' s'' /\ behaves (k x) s''
  | _ => True
  end.

Lemma behaves_stable p X (c : dcall X) s x s' : behaves p s -> effect c s x s' -> behaves p s'.
Proof.
  intros Hp He. pose proof (effect_declared _ _ _ _ He) as Hd.
  destruct p as [|?|Y c' k]; [done..|]. cbn in *. intros s1 H1. apply Hp. auto.
Qed.

Lemma behaves_step X (c : dcall X) k s x s' :
  behaves (Call c k) s -> effect c s x s' -> interferes s s' /\ behaves (k x) s'.
Proof. intros Hp He. by apply (Hp s). Qed.

Lemma behaves_quiet p s : quiet_calls p (fun _ => True) -> behaves p s.
Proof.
  revert s. induction p as [a|c|X c k IH]; intros s; cbn; [done..|]. intros (Hc & Hk) s' _ x s'' He.
  split; [exact (is_quiet_interferes _ Hc _ _ _ He)|auto].
Qed.

Lemma on_tick_behaves s : behaves on_tick s.
Proof.
  unfold on_tick, dvr_is_disabled. cbn. intros s1 _ since ? [-> ->]. split; [reflexivity|].
  destruct (_ =? 0); [done|]. cbn. intros s2 _ t ? ->. split; [reflexivity|].
  destruct (_ <? _); [done|]. cbn. intros s3 _ st ? [-> ->]. split; [reflexivity|].
  destruct (bool_decide _); [done|]. cbn. intros s4 _ already ? [-> ->].
  split; [by apply (is_quiet_interferes (stalled_exchange true) eq_refl s4 (stalled_ s4))|].
  destruct (stalled_ s4); [done|]. cbn. intros s5 D5 [] ? ->.
  assert (Hd : declared s5) by (apply D5; left; done).
  split; [by apply (is_quiet_interferes (state_store Disabled) eq_refl s5 tt)|].
  intros s6 D6 [] ? ->. specialize (D6 Hd). split.
  { unfold interferes. cbn. unfold declared in D6. intuition congruence. }
  apply (behaves_quiet (run! consumers_changed ;; run! locked drop_access_units ;;
    run! osd_publish (Recording_fact false) ;; run! osd_publish (Storage_status 0) ;; Done tt)).
  by cbn.
Qed.

(** Walks through a program all of whose calls are quiet. *)
Ltac quiet_walk :=
  repeat first
    [ exact I
    | match goal with |- _ /\ _ => split; [reflexivity|] end
    | match goal with |- forall _, _ => intros ? end
    | match goal with |- does _ (io_bind _ _) _ => apply does_bind end
    | match goal with |- does _ (lift _) _ => apply does_lift; intros ? _ end
    | match goal with |- does _ (if ?b then _ else _) _ => destruct b eqn:? end
    | match goal with |- does _ (match ?b with _ => _ end) _ => destruct b eqn:? end
    | progress cbn ].

Lemma entry_behaves p s : entry p -> behaves p s.
Proof.
  intros [| | | | |c Hc|au pts key Hl| | |]; 
    try (apply behaves_quiet; unfold start_recording, stop_recording, toggle_recording, disable, shutdown,
           enqueue_dvr_command, posted, on_access_unit, on_encoder_reset, on_encoder_failed, enqueue,
           dvr_is_disabled; quiet_walk; fail).
  apply on_tick_behaves.
Qed.

(** ** The recorder's thread *)

Definition busy_file (d : Dvr) : bool := is_open (writer d) || negb (bool_decide (current_filename d = [])).

(** No stall notice was taken yet, and one of the two facts is there that make the thread
    close its file: while this holds a file may be open. *)
Definition ready (s : shared) : Prop :=
  consumed s = false /\ (recording_armed s = true \/ stalled_ s = true).

Lemma ready_stable s s' : ready s -> interferes s s' -> ready s'.
Proof.
  unfold ready, interferes. intros (Hc & H) (A & B & C & D). split; [congruence|].
  destruct H as [H|H]; [|auto].
  destruct (recording_armed s') eqn:E; [auto|]. destruct (D H eq_refl); [auto|congruence].
Qed.

Definition attended (d : Dvr) (s : shared) : Prop :=
  consumed s = false /\ (busy_file d = true -> recording_armed s = true \/ stalled_ s = true).

Lemma attended_stable d s s' : attended d s -> interferes s s' -> attended d s'.
Proof.
  intros (Hc & Hf) Hs. split; [destruct Hs as (_ & _ & ? & _); congruence|].
  intros Hb. by apply (ready_stable s s' (conj Hc (Hf Hb))).
Qed.

Lemma attended_idle d s : consumed s = false -> busy_file d = false -> attended d s.
Proof. intros Hc Hb. split; [done|congruence]. Qed.

(** The file of a recorder with other counters. *)
Definition same_file (d d' : Dvr) : Prop := busy_file d' = busy_file d.
Lemma attended_same d d' s : same_file d d' -> attended d s -> attended d' s.
Proof. unfold same_file, attended. by intros ->. Qed.

Abbreviation runs := (wpr interferes (fun _ => True)).

Lemma runs_quiet {A X} (c : dcall X) (k : X -> io A) s Q :
  is_quiet c = true -> (forall x s', interferes s s' -> runs (k x) s' Q) -> runs (Call c k) s Q.
Proof. intros Hc. apply wpr_quiet; [apply interferes_preorder|by apply is_quiet_interferes]. Qed.

Lemma runs_attended {A X} (c : dcall X) (k : X -> io A) d s Q :
  is_quiet c = true -> attended d s -> (forall x s', attended d s' -> runs (k x) s' Q) ->
  runs (Call c k) s Q.
Proof. intros Hc Hd Hk. apply runs_quiet; [done|]. intros x s' Hs. apply Hk. by eapply attended_stable. Qed.

Lemma runs_armed {A} (k : bool -> io A) d s Q :
  attended d s ->
  (forall s', attended d s' -> interferes s s' -> runs (k (recording_armed s')) s' Q) ->
  runs (Call armed_load k) s Q.
Proof.
  intros Hd Hk s' Hs x s'' [-> ->]. apply Hk; [by eapply attended_stable|done].
Qed.

(** A program of quiet calls that leaves the file as it is. *)
Lemma runs_does {A} (p : io A) s (P : A -> Prop) (Q : A -> shared -> Prop) :
  quiet_calls p P -> (forall a s', interferes s s' -> P a -> Q a s') -> runs p s Q.
Proof.
  intros Hp HQ. eapply wpr_does; [apply interferes_preorder|by apply quiet_calls_does|done|done].
Qed.

Lemma runs_bind {A B} (m : io A) (k : A -> io B) s Q :
  runs m s (fun a s' => runs (k a) s' Q) -> runs (io_bind m k) s Q.
Proof. apply wpr_bind. Qed.

Lemma runs_mono {A} (p : io A) s (P Q : A -> shared -> Prop) :
  runs p s P -> (forall a s', P a s' -> Q a s') -> runs p s Q.
Proof. apply wpr_mono. Qed.

Lemma close_closes w k : is_open (fst (fst (close w k))) = false.
Proof.
  unfold close, sync_now. change (file (with_mux w _ _ _)) with (file w). destruct (file w) eqn:E.
  - change (file (with_sync _ _ _)) with (file w). by rewrite E.
  - change (file (with_mux w _ _ _)) with (file w). rewrite E. unfold is_open. cbn. by rewrite E.
Qed.

Lemma finalize_quiet d : quiet_calls (finalize_current_file d) (fun d' => busy_file d' = false).
Proof.
  unfold finalize_current_file. destruct (is_open (writer d)) eqn:Eo; cbn [negb andb].
  2:{ destruct (bool_decide (current_filename d = [])) eqn:En.
      - cbn. unfold busy_file. by rewrite Eo, En.
      - cbn [does]. split; [done|]. intros k. pose proof (close_closes (writer d) k) as Hc.
        destruct (close _ _) as [[w ?] ?]. cbn in Hc. apply does_bind.
        destruct (_ && _); cbn; unfold busy_file; cbn; rewrite Hc; auto. }
  cbn [does]. split; [done|]. intros k. pose proof (close_closes (writer d) k) as Hc.
  destruct (close _ _) as [[w ?] ?]. cbn in Hc. apply does_bind.
  destruct (_ && _); cbn; unfold busy_file; cbn; rewrite Hc; auto.
Qed.

(** Stopping disarms and closes. *)
Definition stopped (s : shared) (d' : Dvr) (s' : shared) : Prop :=
  busy_file d' = false /\ recording_armed s' = false /\ consumed s' = consumed s.

Lemma stop_runs d s : runs (stop d) s (stopped s).
Proof.
  unfold stop. intros s1 H1 [] s2 ->.
  do 4 (apply runs_quiet; [done|]; intros ? ? ?).
  eapply runs_does; [apply finalize_quiet|]. intros d' s3 Hs Hd. split; [done|].
  unfold interferes in *. cbn in *. split; [|intuition congruence].
  destruct (recording_armed s3) eqn:E; [|done]. intuition congruence.
Qed.

Lemma stopped_attended s d' s' d : attended d s -> stopped s d' s' -> attended d' s'.
Proof. intros (Hc & _) (Hb & _ & E). apply attended_idle; congruence. Qed.

Lemma fail_runs d fatal s : attended d s -> runs (fail d fatal) s attended.
Proof.
  intros Hd. unfold fail. apply runs_bind. eapply runs_does with (P := fun _ => True).
  { destruct fatal; cbn; auto. }
  intros disabled s1 H1 _. pose proof (attended_stable _ _ _ Hd H1) as Hd1.
  destruct disabled; [done|]. apply runs_bind. eapply runs_mono; [apply stop_runs|].
  intros d2 s2 H2. pose proof (stopped_attended _ _ _ _ Hd1 H2) as Hd2.
  destruct fatal; [|done]. apply (runs_attended _ _ d2); [done|done|]. by intros ? ? ?.
Qed.

(** A quiet program on the side. *)
Lemma runs_aside {A B} (p : io A) (k : A -> io B) d s (P : A -> Prop) Q :
  quiet_calls p P -> attended d s -> (forall a s', P a -> attended d s' -> runs (k a) s' Q) ->
  runs (io_bind p k) s Q.
Proof.
  intros Hp Hd Hk. apply runs_bind. eapply runs_does; [exact Hp|].
  intros a s' Hs Ha. apply Hk; [done|]. by eapply attended_stable.
Qed.

Lemma runs_fail {A} (k : Dvr -> io A) d fatal s Q :
  attended d s -> (forall d' s', attended d' s' -> runs (k d') s' Q) ->
  runs (io_bind (fail d fatal) k) s Q.
Proof.
  intros Hd Hk. apply runs_bind. eapply runs_mono; [by apply fail_runs|]. intros d' s' H'. by apply Hk.
Qed.

Section Thread.
Context (cfg : config).
Abbreviation any := (fun _ => True).

Lemma is_ready_quiet : quiet_calls (is_ready cfg) any.
Proof. unfold is_ready, mount_ok, is_external_mount, free_bytes. quiet_walk. Qed.

Lemma mount_ok_quiet : quiet_calls (mount_ok cfg) any.
Proof. unfold mount_ok, is_external_mount. quiet_walk. Qed.

Lemma start_runs d s : attended d s -> runs (start cfg d) s (fun r s' => attended (fst r) s').
Proof.
  intros Hd. unfold start. apply (runs_aside _ _ d _ any); [apply is_ready_quiet|done|].
  intros ready s1 _ H1. destruct ready; cbn [negb].
  2:{ apply (runs_attended _ _ d); [done..|]. by intros ? ? ?. }
  apply (runs_attended _ _ d); [done..|]. intros ok s2 H2. destruct ok; cbn [negb].
  2:{ apply (runs_attended _ _ d); [done..|]. by intros ? ? ?. }
  set (d' := with_pending (reset_segment d) true 0). intros s3 H3 [] s4 ->.
  assert (H4 : attended d' (set_armed s3 true)).
  { destruct (attended_stable _ _ _ H2 H3) as (Hc & _). split; [done|]. by left. }
  do 3 (apply (runs_attended _ _ d'); [done..|]; intros ? ? ?). done.
Qed.

Lemma ready_attended d s : ready s -> attended d s.
Proof. intros (Hc & Hr). by split. Qed.

(** A quiet program while a file may be opened. *)
Lemma runs_ready {A B} (p : io A) (k : A -> io B) s Q :
  quiet_calls p any -> ready s -> (forall a s', ready s' -> runs (k a) s' Q) -> runs (io_bind p k) s Q.
Proof.
  intros Hp Hr Hk. apply runs_bind. eapply runs_does; [exact Hp|].
  intros a s' Hs _. apply Hk. by eapply ready_stable.
Qed.

Lemma open_output_file_quiet d : quiet_calls (open_output_file cfg d) any.
Proof.
  unfold open_output_file, generate_filename, file_size_cap, device_id, free_bytes. quiet_walk.
Qed.

Lemma open_next_file_runs {A} d (k : Dvr * bool -> io A) s Q :
  ready s -> (forall d' s', ready s' -> runs (k (d', true)) s' Q) ->
  (forall d' s', attended d' s' -> runs (k (d', false)) s' Q) ->
  runs (io_bind (open_next_file cfg d) k) s Q.
Proof.
  intros Hr Ht Hf. apply runs_bind. unfold open_next_file.
  apply runs_ready; [eapply does_mono; [apply finalize_quiet|done]|done|]. intros d1 s1 H1.
  apply runs_ready; [apply open_output_file_quiet|done|]. intros [d2 ok] s2 H2.
  destruct ok; cbn [negb]; [by apply Ht|].
  destruct (_ <=? _); [|by apply Hf, ready_attended].
  apply runs_fail; [by apply ready_attended|]. intros d3 s3 H3. by apply Hf.
Qed.

Lemma request_rotate_quiet d : quiet_calls (request_rotate d) any.
Proof. unfold request_rotate. quiet_walk. Qed.

Lemma after_write_runs d s : ready s -> runs (after_write cfg d) s attended.
Proof.
  intros Hr. unfold after_write. apply runs_ready; [|done|].
  - destruct (_ && _); [apply request_rotate_quiet|]. apply does_bind. apply does_lift.
    intros limit _. destruct (_ && _); [apply request_rotate_quiet|done].
  - intros d1 s1 H1. destruct (_ <=? _); [by apply fail_runs, ready_attended|by apply ready_attended].
Qed.

Lemma write_unit_runs d au s : ready s -> runs (write_unit cfg d au) s attended.
Proof.
  intros Hr. unfold write_unit. destruct (negb _); [by apply ready_attended|].
  apply runs_ready; [by apply does_lift|done|]. intros [sg dur] s1 H1.
  apply runs_quiet; [done|]. intros k s2 H2. pose proof (ready_stable _ _ H1 H2) as H2'.
  apply runs_ready; [by apply does_lift|done|]. intros [w ok] s3 H3. by apply after_write_runs.
Qed.

Lemma handle_access_unit_runs d au s : attended d s -> runs (handle_access_unit cfg d au) s attended.
Proof.
  intros Hd. unfold handle_access_unit. apply (runs_armed _ d); [done|]. intros s1 H1 _.
  destruct (recording_armed s1) eqn:Ea; cbn [negb]; [|done].
  assert (Hr : ready s1) by (split; [apply H1|by left]).
  apply runs_quiet; [done|]. intros overflowed s2 H2. pose proof (ready_stable _ _ Hr H2) as H2'.
  destruct overflowed; [by apply fail_runs, ready_attended|].
  destruct (pending_open d); [|by apply write_unit_runs].
  destruct (negb _); [by apply ready_attended|].
  apply open_next_file_runs; [done|..].
  - intros d3 s3 H3. by apply write_unit_runs.
  - by intros d3 s3 H3.
Qed.

(** *** The storage check *)

Lemma no_storage_runs d forget s : attended d s -> runs (no_storage d forget) s attended.
Proof.
  intros Hd. unfold no_storage. apply (runs_attended _ _ d); [done..|]. intros ? s' Hs. cbn.
  eapply attended_same; [|exact Hs]. by destruct forget.
Qed.

Lemma file_active_quiet d : quiet_calls (file_active d) any.
Proof. unfold file_active. quiet_walk. Qed.

Lemma available_space_quiet d dev same : quiet_calls (available_space d dev same) (fun r => same_file d (fst r)).
Proof.
  unfold available_space, space_bytes, free_bytes, file_active.
  destruct (_ || _); cbn.
  - split; [done|]. intros [[[? ?] ?]|]; done.
  - split; [done|]. intros armed. destruct (_ && _ && _); [done|]. cbn. split; [done|]. by intros [[[? ?] ?]|].
Qed.

Lemma publish_space_runs d v s : attended d s -> runs (publish_space cfg d v) s attended.
Proof.
  intros Hd. unfold publish_space. do 2 (apply (runs_attended _ _ d); [done..|]; intros ? ? ?). done.
Qed.

Lemma fail_if_runs {A} b d fatal (k : Dvr -> io A) s Q :
  attended d s -> (forall d' s', attended d' s' -> runs (k d') s' Q) ->
  runs (io_bind (fail_if b d fatal) k) s Q.
Proof.
  intros Hd Hk. unfold fail_if. destruct b; [by apply runs_fail|]. apply runs_bind. by apply Hk.
Qed.

Lemma check_device_runs d dev s : attended d s -> runs (check_device cfg d dev) s attended.
Proof.
  intros Hd. unfold check_device.
  apply (runs_aside _ _ d _ any); [apply file_active_quiet|done|]. intros active s1 _ H1.
  destruct (_ && _ && _).
  { apply runs_fail; [done|]. intros d2 s2 H2. by apply no_storage_runs. }
  apply (runs_aside _ _ d _ (fun r => same_file d (fst r))); [apply available_space_quiet|done|].
  intros [d2 space] s2 Hsame H2'. cbn [fst] in Hsame. pose proof (attended_same _ _ _ Hsame H2') as H2.
  destruct space; [|by apply no_storage_runs].
  apply (runs_aside _ _ d2 _ any); [apply file_active_quiet|done|]. intros active' s3 _ H3.
  apply fail_if_runs; [done|]. intros d4 s4 H4. by apply publish_space_runs.
Qed.

Lemma update_storage_status_runs d force s :
  attended d s -> runs (update_storage_status cfg d force) s attended.
Proof.
  intros Hd. unfold update_storage_status. apply (runs_attended _ _ d); [done..|]. intros now s1 H1.
  destruct (_ && _); [done|]. set (d1 := with_checked d now). change (attended d1 s1) in H1.
  apply (runs_aside _ _ d1 _ any); [apply mount_ok_quiet|done|]. intros mounted s2 _ H2.
  destruct mounted; cbn [negb].
  - apply (runs_aside _ _ d1 _ any); [by cbn|done|]. intros [dev|] s3 _ H3; [by apply check_device_runs|].
    apply (runs_aside _ _ d1 _ any); [apply file_active_quiet|done|]. intros active s4 _ H4.
    apply fail_if_runs; [done|]. intros d5 s5 H5. by apply no_storage_runs.
  - apply (runs_aside _ _ d1 _ any); [apply file_active_quiet|done|]. intros active s4 _ H4.
    apply fail_if_runs; [done|]. intros d5 s5 H5. by apply no_storage_runs.
Qed.

(** *** The loop *)

Lemma runs_stop {A} (k : Dvr -> io A) d s Q :
  attended d s -> (forall d' s', attended d' s' -> runs (k d') s' Q) -> runs (io_bind (stop d) k) s Q.
Proof.
  intros Hd Hk. apply runs_bind. eapply runs_mono; [apply stop_runs|]. intros d' s' H'.
  apply Hk. by eapply stopped_attended.
Qed.

Lemma runs_start {A} (k : Dvr * Z -> io A) d s Q :
  attended d s -> (forall r s', attended (fst r) s' -> runs (k r) s' Q) -> runs (io_bind (start cfg d) k) s Q.
Proof.
  intros Hd Hk. apply runs_bind. eapply runs_mono; [by apply start_runs|]. intros r s' H'. by apply Hk.
Qed.

Lemma dispatch_runs d rpc s : attended d s -> runs (dispatch cfg d rpc) s (fun r s' => attended (fst r) s').
Proof.
  intros Hd. unfold dispatch. destruct (command rpc).
  1:{ apply runs_bind. eapply runs_mono; [by apply handle_access_unit_runs|]. by intros ? ? ?. }
  7: done.
  all: apply (runs_armed _ d); [done|]; intros s1 H1 _; destruct (recording_armed s1); cbn [negb].
  all: try exact H1.
  all: try (apply runs_stop; [done|]; intros ? ? ?; done).
  all: try (apply runs_start; [done|]; intros [? ?] ? ?; done).
  - apply runs_stop; [done|]. intros d2 s2 H2. apply (runs_attended _ _ d2); [done..|]. by intros ? ? ?.
  - cbn [io_bind]. apply (runs_attended _ _ d); [done..|]. by intros ? ? ?.
  - apply (runs_aside _ _ d _ (same_file d)).
    + unfold request_rotate. by destruct (pending_open d); cbn.
    + done.
    + intros d2 s2 Hsame H2. cbn. by apply (attended_same d).
  - apply runs_fail; [done|]. by intros ? ? ?.
Qed.

(** What holds when the thread leaves its loop: the file is closed or still attended to. *)
Definition leaving (d : Dvr) (s : shared) : Prop := busy_file d = false \/ attended d s.

(** Taking a stall notice closes the file. *)
Lemma finish_runs d s :
  leaving d s ->
  runs (finish_storage_work d) s (fun r s' =>
    (snd r = true -> busy_file (fst r) = false) /\
    (snd r = false -> fst r = d /\ stalled_ s' = false /\ (attended d s -> attended d s')) /\
    (recording_armed s = false -> recording_armed s' = false)).
Proof.
  intros Hd. unfold finish_storage_work. apply runs_quiet; [done|]. intros ? s1 H1.
  intros s2 H2 stalled s3 [-> ->]. assert (H12 : interferes s s2) by (by etrans).
  assert (Ha : recording_armed s = false -> recording_armed s2 = false).
  { destruct H12 as (A & _). destruct (recording_armed s2); [|done]. intuition congruence. }
  destruct (stalled_ s2) eqn:Es; cbn [negb].
  - apply runs_bind. eapply runs_mono; [apply stop_runs|]. intros d' s' (Hb & Har & _). cbn. by split_and!.
  - cbn. split_and!; [done| |done]. intros _. split_and!; [done..|]. intros Hat.
    destruct (attended_stable _ _ _ Hat H12) as (Hc & Hf). split; cbn; [by rewrite Es, Hc|].
    rewrite Es in Hf. exact Hf.
Qed.

Lemma finish_then_disabled {A} d s (k : Dvr * bool -> io A) Q :
  attended d s ->
  (forall d' s', busy_file d' = false -> runs (k (d', true)) s' Q) ->
  (forall s', attended d s' -> runs (k (d, false)) s' Q) ->
  runs (io_bind (finish_storage_work d) k) s Q.
Proof.
  intros Hd Ht Hf. apply runs_bind. eapply runs_mono; [apply finish_runs; by right|].
  intros [d' b] s' (Hb & Hn & _). cbn [fst snd] in *. destruct b; [by apply Ht, Hb|].
  destruct Hn as (-> & _ & Hat); [done|]. by apply Hf, Hat.
Qed.

Definition turn_post (r : Dvr * bool) (s : shared) : Prop :=
  if snd r then leaving (fst r) s else attended (fst r) s.

Lemma finish_turn d s :
  attended d s ->
  runs (let!* (d, stalled) <- finish_storage_work d ;;
        if stalled then Done (d, true)
        else let! disabled <- dvr_is_disabled ;; Done (d, disabled)) s turn_post.
Proof.
  intros Hd. apply finish_then_disabled; [done|..].
  - intros d' s' Hb. by left.
  - intros s' H'. unfold dvr_is_disabled. cbn [io_bind]. apply (runs_attended _ _ d); [done..|].
    intros st s2 H2. unfold turn_post. cbn. destruct (bool_decide _); [by right|done].
Qed.

Lemma loop_turn_runs d s : attended d s -> runs (loop_turn cfg d) s turn_post.
Proof.
  intros Hd. unfold loop_turn. apply (runs_attended _ _ d); [done..|]. intros [rpc|] s1 H1.
  - do 2 (apply (runs_attended _ _ d); [done..|]; intros ? ? ?).
    apply runs_bind. eapply runs_mono; [by apply update_storage_status_runs|]. intros d2 s2 H2.
    unfold dvr_is_disabled at 1. cbn [io_bind]. apply (runs_attended _ _ d2); [done..|]. intros st s3 H3.
    destruct (_ && _ && _).
    + apply finish_then_disabled; [done|..].
      * intros d4 s4 Hb. by left.
      * intros s4 H4. by right.
    + apply runs_bind. eapply runs_mono; [by apply dispatch_runs|]. intros [d4 leave] s4 H4. cbn [fst] in H4.
      destruct leave; [by right|]. by apply finish_turn.
  - do 2 (apply (runs_attended _ _ d); [done..|]; intros ? ? ?).
    apply runs_bind. eapply runs_mono; [by apply update_storage_status_runs|]. intros d2 s2 H2.
    by apply finish_turn.
Qed.

Definition ended (d : Dvr) (s : shared) : Prop := busy_file d = false /\ recording_armed s = false.

Lemma loop_end_runs d s : leaving d s -> runs (loop_end d) s ended.
Proof.
  intros Hd. unfold loop_end. intros s1 H1 armed s2 [-> ->].
  assert (Hd1 : leaving d s1).
  { destruct Hd as [Hd|Hd]; [by left|right]. by eapply attended_stable. }
  apply runs_bind. apply (runs_mono _ _ (fun d' s' => recording_armed s' = false /\ leaving d' s')).
  { destruct (recording_armed s1) eqn:Ea; [|by cbn].
    eapply runs_mono; [apply stop_runs|]. intros d' s' (Hb & Ha & _). split; [done|by left]. }
  intros d2 s2 (Ha & Hl). apply runs_bind. eapply runs_mono; [by apply finish_runs|].
  intros [d3 b] s3 (Hb & Hn & Har). cbn [fst snd] in *. apply runs_quiet; [done|].
  intros ? s4 (A & _). cbn. split.
  2:{ specialize (Har Ha). destruct (recording_armed s4); [|done]. intuition congruence. }
  destruct b; [by apply Hb|]. destruct Hn as (-> & Hs & Hat); [done|].
  destruct Hl as [Hl|Hl]; [done|]. destruct (Hat Hl) as (_ & Hf).
  destruct (busy_file d2); [|done]. destruct Hf as [Hf|Hf]; [done| |]; specialize (Har Ha); congruence.
Qed.

Lemma loop_runs turns d s : attended d s -> runs (loop cfg turns d) s ended.
Proof.
  revert d s. induction turns as [|turns IH]; intros d s Hd; cbn [loop]; [done|].
  apply runs_bind. eapply runs_mono; [by apply loop_turn_runs|]. intros [d' leave] s' H'.
  unfold turn_post in H'. cbn [fst snd] in H'. destruct leave; [by apply loop_end_runs|by apply IH].
Qed.
End Thread.
