(* ===== verification/DvrSafety.v ===== *)
(** * The recorder's promises over whole executions

    An execution starts with nothing recorded and only the recorder's thread; at any
    point another thread may enter one of the recorder's operations, and the threads
    take their steps in any order. *)

From Stdlib Require Import String.
From S2P Require Import Prelude Free TsWriter RecordName Dvr DvrThreads DvrProps.
From stdpp Require Import list relations.
Open Scope string_scope.
Open Scope Z_scope.

Definition started (cfg : config) (turns : nat) : sys Dvr := Sys shared0 (loop cfg turns Dvr_new) [].

(** C8. However the threads interleave -- whoever starts, stops or disables recordings,
    whenever the encoder delivers, however long storage blocks and whatever the watchdog
    then does -- when the recorder's thread ends, no file is open, no name of one is
    kept, and no recording is armed. *)
Theorem recorder_ends_closed cfg turns s d os :
  rtc step (started cfg turns) (Sys s (Done d) os) ->
  is_open (writer d) = false /\ current_filename d = [] /\ recording_armed s = false.
Proof.
  intros Hr.
  assert (Hw : wpr interferes (fun _ => True) (thread (Sys s (Done d) os)) (state (Sys s (Done d) os)) ended).
  { eapply (wpr_sound interferes _ behaves); [..|exact Hr| |].
    - intros p s1 Hp. by apply entry_behaves.
    - intros X c k s1 x s2. apply behaves_step.
    - intros p X c s1 x s2. apply behaves_stable.
    - intros d1 s1 s2 (Hb & Ha) (A & _). split; [done|].
      destruct (recording_armed s2); [|done]. intuition congruence.
    - apply loop_runs, attended_idle; done.
    - by apply Forall_nil_2. }
  cbn in Hw. destruct Hw as (Hb & Ha). unfold busy_file in Hb.
  apply orb_false_iff in Hb as (Ho & Hn). split_and!; [done| |done].
  by apply negb_false_iff, bool_decide_eq_true in Hn.
Qed.

(** ** Running it *)

(** One way the system may answer. *)
Record env := { e_clock : Z; e_dev : option Z; e_space : option (Z * Z * Z); e_disk : Disk; e_scan : dir_scan }.

Definition reply {X} (e : env) (c : dcall X) (s : shared) : X * shared :=
  match c in dcall X return X * shared with
  | state_load => (dvr_state s, s)
  | state_store v => (tt, set_state s v)
  | state_exchange v => (dvr_state s, set_state s v)
  | state_cas expected desired =>
      if bool_decide (dvr_state s = expected) then (true, set_state s desired) else (false, s)
  | armed_load => (recording_armed s, s)
  | armed_store v => (tt, set_armed s v)
  | busy_load => (busy_since_ms_ s, s)
  | busy_store v => (tt, set_busy s v)
  | busy_exchange v => (busy_since_ms_ s, set_busy s v)
  | stalled_exchange v => (stalled_ s, set_stalled s v)
  | locked f => (fst (f (guarded s)), set_guarded s (snd (f (guarded s))))
  | clock_ms => (e_clock e, s)
  | stat_dir => (e_dev e, s)
  | stat_root => (Some 1, s)
  | statvfs_dir => (e_space e, s)
  | statfs_dir => (Some 0, s)
  | dir_exists => (true, s)
  | scan_dir => (e_scan e, s)
  | strftime_now pattern => (pattern, s)
  | remove_file _ => (true, s)
  | disk_call => (e_disk e, s)
  | consumers_changed | request_keyframe | drain_pending | encoder_post _ | osd_publish _ => (tt, s)
  end.

Lemma effect_reply {X} e (c : dcall X) s : effect c s (fst (reply e c s)) (snd (reply e c s)).
Proof. destruct c; cbn; try done. by destruct (bool_decide _). Qed.

(** A schedule: the recorder's thread, or the thread that entered last, makes so many
    calls; or another thread enters. *)
Inductive move := Thread (n : nat) (e : env) | Other (n : nat) (e : env) | Enter (p : io unit).

Fixpoint advance {A} (n : nat) (e : env) (p : io A) (s : shared) : io A * shared :=
  match n, p with
  | S n, Call c k => let '(x, s) := reply e c s in advance n e (k x) s
  | _, _ => (p, s)
  end.

Definition act {A} (m : move) (c : sys A) : sys A :=
  match m with
  | Thread n e => let '(p, s) := advance n e (thread c) (state c) in Sys s p (others c)
  | Other n e =>
    match others c with
    | q :: os => let '(q, s) := advance n e q (state c) in Sys s (thread c) (q :: os)
    | [] => c
    end
  | Enter p => Sys (state c) (thread c) (p :: others c)
  end.

Definition allowed (m : move) : Prop := match m with Enter p => entry p | _ => True end.

Lemma act_steps {A} m (c : sys A) : allowed m -> rtc step c (act m c).
Proof.
  destruct c as [s p os]. destruct m as [n e|n e|q]; cbn; intros Hm.
  - revert p s. induction n as [|n IH]; intros p s; [done|]. destruct p as [|?|X c k]; [done..|]. cbn.
    pose proof (effect_reply e c s) as He. destruct (reply e c s) as [x s']. cbn in He.
    eapply rtc_l; [by apply step_thread|]. apply IH.
  - destruct os as [|q os]; [done|]. cbn. revert q s. induction n as [|n IH]; intros q s; [done|].
    destruct q as [|?|X c k]; [done..|]. cbn.
    pose proof (effect_reply e c s) as He. destruct (reply e c s) as [x s']. cbn in He.
    eapply rtc_l; [by apply (step_other _ _ [])|]. apply IH.
  - apply rtc_once. by apply step_enter.
Qed.

Lemma schedule_steps {A} ms (c : sys A) :
  Forall allowed ms -> rtc step c (fold_left (fun c m => act m c) ms c).
Proof.
  revert c. induction ms as [|m ms IH]; intros c Hm; [done|]. cbn [fold_left].
  etrans; [apply act_steps, (Forall_inv Hm)|apply IH, (Forall_inv_tail Hm)].
Qed.

(** A recording is started, the first access unit opens a file, the watchdog finds the
    thread stuck in it, and the thread comes back. *)
Definition sample_config : config := {|
  min_free_bytes := 1000; require_mount := false; segment_limit_ms := 60000; nominal_fps := 60;
  rec_dir := text "/media"; filename_pattern := text "rec_%N.ts" |}.
Definition calm (t : Z) : env := {|
  e_clock := t; e_dev := Some 7; e_space := Some (4096, 1000000, 2000000);
  e_disk := {| fopen_ok := true; fwrite_n := fun n => n; fflush_ret := 0; fdatasync_ret := 0;
               fclose_ret := 0; now := t; now_sync := t |};
  e_scan := Listed [(true, text "rec_0007.ts")] |}.
Definition stuck_schedule (n : nat) : list move :=
  [ Enter (posted (dvr_command RPC_START)); Other 5 (calm 10); Thread 16 (calm 10);
    Enter (on_access_unit [0; 0; 0; 1; 0x26; 1; 0x55; 0x55] 0 true); Other 10 (calm 20); Thread n (calm 20);
    Enter on_tick; Other 20 (calm 20000); Thread 200 (calm 20000) ].
Definition stuck_end (n : nat) : sys Dvr :=
  fold_left (fun c m => act m c) (stuck_schedule n) (started sample_config 10).

Lemma stuck_allowed n : Forall allowed (stuck_schedule n).
Proof.
  unfold stuck_schedule. repeat apply Forall_cons_2; try exact I; [..|apply Forall_nil_2].
  - by apply enter_posted.
  - by apply enter_access_unit.
  - apply enter_tick.
Qed.

Lemma stuck_run n : rtc step (started sample_config 10) (stuck_end n).
Proof. apply schedule_steps, stuck_allowed. Qed.

Definition recorded_one (c : sys Dvr) : bool :=
  match thread c with
  | Done d => (frames_written (seg d) =? 1) && bool_decide (dvr_state (state c) = Disabled)
  | _ => false
  end.

Lemma stuck_records : recorded_one (stuck_end 10) = true.
Proof. vm_compute. reflexivity. Qed.

Lemma recorder_ends_closed_witness :
  exists s d os, rtc step (started sample_config 10) (Sys s (Done d) os) /\
    frames_written (seg d) = 1 /\ dvr_state s = Disabled /\
    is_open (writer d) = false /\ current_filename d = [] /\ recording_armed s = false.
Proof.
  pose proof (stuck_run 10) as Hr. pose proof stuck_records as Hc. revert Hr Hc.
  generalize (stuck_end 10). intros [s [d|?|? ? ?] os] Hr Hc; [|discriminate Hc..].
  apply andb_prop in Hc as [Hf Hs]. exists s, d, os. split; [exact Hr|].
  split; [by apply Z.eqb_eq|]. split; [by apply bool_decide_eq_true in Hs|].
  exact (recorder_ends_closed _ _ _ _ _ Hr).
Defined.
