(* ===== verification/DvrState.v ===== *)
(** * The recorder's shared state in every execution

    [sane_call] is a call that keeps the account of the queue and does not take back
    [Disabled]; the recorder's thread and every entry point make no other.  Hence the two
    hold of every reachable state. *)

From S2P Require Import Prelude Free TsWriter RecordName Dvr DvrThreads DvrProps DvrSafety.
From stdpp Require Import list relations.
Open Scope Z_scope.

(** ** The queue *)

Definition queued_bytes (l : list dvr_rpc) : Z := fold_right (fun r n => zlen (data r) + n) 0 l.

Lemma queued_bytes_app l1 l2 : queued_bytes (l1 ++ l2) = queued_bytes l1 + queued_bytes l2.
Proof. induction l1 as [|r l1 IH]; cbn [app queued_bytes fold_right] in *; [done|]. fold (queued_bytes (l1 ++ l2)) (queued_bytes l1). lia. Qed.

Lemma queued_bytes_nonneg l : 0 <= queued_bytes l.
Proof. induction l as [|r l IH]; [done|]. cbn [queued_bytes fold_right]. fold (queued_bytes l). pose proof (zlen_nonneg (data r)). lia. Qed.

(** The counter is the sum of the sizes and stays under the cap; only access units have
    bytes. *)
Definition queue_ok (q : rpc_queue) : Prop :=
  queue_bytes_ q = queued_bytes (queue_ q) /\ queue_bytes_ q <= MAX_QUEUE_BYTES /\
  Forall (fun r => command r <> RPC_AU -> data r = []) (queue_ q).

Lemma queued_bytes_cons r l : queued_bytes (r :: l) = zlen (data r) + queued_bytes l.
Proof. done. Qed.

Ltac fields := cbn [queue_ queue_bytes_ queue_overflow_ fst snd data command].

Lemma push_ok r q : data r = [] -> queue_ok q -> queue_ok (snd (push r q)).
Proof.
  unfold queue_ok, push, MAX_QUEUE_BYTES. intros Hr (Hb & Hm & Hd). fields.
  pose proof (queued_bytes_nonneg (queue_ q)).
  rewrite Hr, (zlen_nil (A := Z)), queued_bytes_app, queued_bytes_cons, Hr, (zlen_nil (A := Z)).
  change (queued_bytes []) with 0. unfold u64. rewrite Z.mod_small by lia. split_and!; [lia|lia|].
  apply Forall_app_2; [done|]. by repeat constructor.
Qed.

Lemma pop_ok q : queue_ok q -> queue_ok (snd (pop q)).
Proof.
  unfold queue_ok, pop. intros (Hb & Hm & Hd). destruct (queue_ q) as [|r l] eqn:E; fields; [by rewrite E|].
  rewrite queued_bytes_cons in Hb. pose proof (queued_bytes_nonneg l). pose proof (zlen_nonneg (data r)).
  unfold MAX_QUEUE_BYTES, u64 in *. rewrite Z.mod_small by lia. split_and!; [lia|lia|]. by eapply Forall_inv_tail.
Qed.

Lemma take_overflow_ok q : queue_ok q -> queue_ok (snd (take_overflow q)).
Proof. done. Qed.

Lemma clear_queue_ok q : queue_ok (snd (clear_queue q)).
Proof. split_and!; [done|done|by constructor]. Qed.

Lemma drop_access_units_ok q : queue_ok q -> queue_ok (snd (drop_access_units q)).
Proof.
  intros (_ & _ & Hd). unfold drop_access_units, queue_ok. fields.
  assert (H : queued_bytes (List.filter (fun r => negb (bool_decide (command r = RPC_AU))) (queue_ q)) = 0 /\
              Forall (fun r => command r <> RPC_AU -> data r = [])
                (List.filter (fun r => negb (bool_decide (command r = RPC_AU))) (queue_ q))).
  { induction Hd as [|r l Hr Hd IH]; [by split|]. cbn [List.filter]. case_bool_decide as E; cbn [negb]; [done|].
    destruct IH as (IHb & IHd). split; [|by constructor].
    rewrite queued_bytes_cons, IHb, (Hr E). done. }
  destruct H. by split_and!.
Qed.

Lemma push_access_unit_ok au pts key q :
  zlen au < 2 ^ 31 -> queue_ok q -> queue_ok (snd (push_access_unit au pts key q)).
Proof.
  unfold queue_ok, push_access_unit, MAX_QUEUE_BYTES. intros Hl (Hb & Hm & Hd).
  pose proof (queued_bytes_nonneg (queue_ q)). pose proof (zlen_nonneg au).
  unfold u64. rewrite Z.mod_small by lia. destruct (Z.ltb_spec (32 * 1024 * 1024) (queue_bytes_ q + zlen au)); fields; [done|].
  rewrite queued_bytes_app, queued_bytes_cons. change (queued_bytes []) with 0. fields. split_and!; [lia|lia|].
  apply Forall_app_2; [done|]. by repeat constructor.
Qed.

(** ** Calls *)

Definition sane_call X (c : dcall X) : Prop :=
  match c with
  | state_store v | state_exchange v => v = Disabled
  | state_cas expected _ => expected <> Disabled
  | locked f => forall q, queue_ok q -> queue_ok (snd (f q))
  | _ => True
  end.

(** What no thread takes back. *)
Definition lasting (s s' : shared) : Prop :=
  (dvr_state s = Disabled -> dvr_state s' = Disabled) /\ (queue_ok (guarded s) -> queue_ok (guarded s')).

#[export] Instance lasting_preorder : PreOrder lasting.
Proof. split; [by intros s|]. intros s1 s2 s3 (A & B) (C & D). split; auto. Qed.

Lemma sane_lasting X (c : dcall X) s x s' : sane_call X c -> effect c s x s' -> lasting s s'.
Proof.
  intros Hc He. destruct c; cbn in Hc, He; destruct_and?; subst; try done.
  - case_bool_decide; destruct He as [-> ->]; split; cbn; congruence.
  - split; cbn; auto.
Qed.

Abbreviation sane p := (does sane_call p (fun _ => True)).

Lemma does_bind_any {A B} (m : io A) (k : A -> io B) :
  sane m -> (forall a, sane (k a)) -> sane (io_bind m k).
Proof. intros Hm Hk. apply does_bind. eapply does_mono; [exact Hm|auto]. Qed.

Lemma does_lift_any {A} (m : outcome A) : sane (lift m : io A).
Proof. by destruct m. Qed.

Create HintDb sane.
#[export] Hint Resolve does_lift_any push_ok pop_ok take_overflow_ok clear_queue_ok drop_access_units_ok
  push_access_unit_ok : sane.

(** Walks through a program; what it calls by name is found in the database. *)
Ltac sane_walk :=
  repeat first
    [ exact I
    | solve [eauto with sane]
    | match goal with |- _ /\ _ => split; [solve [cbn [sane_call]; first [done|eauto with sane]]|] end
    | match goal with |- forall _, _ => intros ? end
    | match goal with |- does _ (io_bind _ _) _ => apply does_bind_any end
    | match goal with |- does _ (if ?b then _ else _) _ => destruct b end
    | match goal with |- does _ (match ?b with _ => _ end) _ => destruct b end
    | match goal with |- does _ (let '_ := ?b in _) _ => destruct b end
    | progress (cbn [does trigger]) ].

Lemma disabled_sane : sane dvr_is_disabled.
Proof. unfold dvr_is_disabled. sane_walk. Qed.
#[export] Hint Resolve disabled_sane : sane.

Lemma entry_sane p : entry p -> sane p.
Proof.
  intros [| | | | |c Hc|au pts key Hl| | |];
    unfold start_recording, stop_recording, toggle_recording, disable, shutdown, enqueue_dvr_command,
      posted, on_access_unit, on_encoder_reset, on_encoder_failed, enqueue, on_tick; sane_walk.
Qed.

Section Thread.
Context (cfg : config).

Lemma finalize_sane d : sane (finalize_current_file d).
Proof. unfold finalize_current_file. sane_walk. Qed.
Hint Resolve finalize_sane : sane.
Lemma stop_sane d : sane (stop d).
Proof. unfold stop. sane_walk. Qed.
Hint Resolve stop_sane : sane.
Lemma fail_sane d fatal : sane (fail d fatal).
Proof. unfold fail. sane_walk. Qed.
Hint Resolve fail_sane : sane.
Lemma start_sane d : sane (start cfg d).
Proof. unfold start, is_ready, mount_ok, is_external_mount, free_bytes. sane_walk. Qed.
Hint Resolve start_sane : sane.
Lemma open_output_file_sane d : sane (open_output_file cfg d).
Proof. unfold open_output_file, generate_filename, file_size_cap, device_id, free_bytes. sane_walk. Qed.
Hint Resolve open_output_file_sane : sane.
Lemma open_next_file_sane d : sane (open_next_file cfg d).
Proof. unfold open_next_file. sane_walk. Qed.
Hint Resolve open_next_file_sane : sane.
Lemma request_rotate_sane d : sane (request_rotate d).
Proof. unfold request_rotate. sane_walk. Qed.
Hint Resolve request_rotate_sane : sane.
Lemma write_unit_sane d au : sane (write_unit cfg d au).
Proof. unfold write_unit, after_write. sane_walk. Qed.
Hint Resolve write_unit_sane : sane.
Lemma handle_access_unit_sane d au : sane (handle_access_unit cfg d au).
Proof. unfold handle_access_unit. sane_walk. Qed.
Hint Resolve handle_access_unit_sane : sane.
Lemma update_storage_status_sane d force : sane (update_storage_status cfg d force).
Proof.
  unfold update_storage_status, check_device, no_storage, fail_if, available_space, publish_space, file_active,
    mount_ok, is_external_mount, device_id, space_bytes, free_bytes. sane_walk.
Qed.
Hint Resolve update_storage_status_sane : sane.
Lemma finish_storage_work_sane d : sane (finish_storage_work d).
Proof. unfold finish_storage_work. sane_walk. Qed.
Hint Resolve finish_storage_work_sane : sane.
Lemma dispatch_sane d rpc : sane (dispatch cfg d rpc).
Proof. unfold dispatch. sane_walk. Qed.
Hint Resolve dispatch_sane : sane.
Lemma loop_turn_sane d : sane (loop_turn cfg d).
Proof. unfold loop_turn. sane_walk. Qed.
Hint Resolve loop_turn_sane : sane.
Lemma loop_end_sane d : sane (loop_end d).
Proof. unfold loop_end. sane_walk. Qed.
Hint Resolve loop_end_sane : sane.
Lemma loop_sane turns d : sane (loop cfg turns d).
Proof. revert d. induction turns; intros d; cbn [loop]; sane_walk. Qed.
End Thread.

(** ** Executions *)

Definition all_sane {A} (c : sys A) : Prop := sane (thread c) /\ Forall (fun p => sane p) (others c).

Lemma step_sane {A} (c c' : sys A) : step c c' -> all_sane c -> all_sane c' /\ lasting (state c) (state c').
Proof.
  intros Hs. destruct Hs as [s X c k os x s' He|s w l X c k r x s' He|s w os p Hp]; intros (Hw & Ho); cbn in *.
  - destruct Hw as (Hc & Hk). split; [by split; [apply Hk|]|]. by eapply sane_lasting.
  - apply Forall_app in Ho as (Hl & Ho). pose proof (Forall_inv Ho) as (Hc & Hk). apply Forall_inv_tail in Ho.
    split; [|by eapply sane_lasting]. split; [done|]. apply Forall_app_2; [done|]. by apply Forall_cons_2; [apply Hk|].
  - split; [|done]. split; [done|]. apply Forall_cons_2; [by apply entry_sane|done].
Qed.

Lemma steps_sane {A} (c c' : sys A) : rtc step c c' -> all_sane c -> all_sane c' /\ lasting (state c) (state c').
Proof.
  induction 1 as [|c1 c2 c3 Hs _ IH]; intros Hc; [done|].
  destruct (step_sane _ _ Hs Hc) as (Hc2 & H12). destruct (IH Hc2) as (Hc3 & H23). split; [done|by etrans].
Qed.

Lemma started_sane cfg turns : all_sane (started cfg turns).
Proof. split; [apply loop_sane|by apply Forall_nil_2]. Qed.

(** C22. In every reachable state the counter of queued bytes is the sum of the sizes of
    the queued access units and does not exceed 32 MiB, so a dead card cannot exhaust
    memory; and once the recorder is disabled it stays so, whichever thread runs. *)
Theorem recorder_state_kept cfg turns c c' :
  rtc step (started cfg turns) c -> rtc step c c' ->
  queue_ok (guarded (state c)) /\ queued_bytes (queue_ (guarded (state c))) <= MAX_QUEUE_BYTES /\
  (dvr_state (state c) = Disabled -> dvr_state (state c') = Disabled).
Proof.
  intros H0 H1. destruct (steps_sane _ _ H0 (started_sane cfg turns)) as (Hc & _ & Hq).
  assert (Hok : queue_ok (guarded (state c))) by (apply Hq; repeat split; [done|by apply Forall_nil_2]).
  destruct (steps_sane _ _ H1 Hc) as (_ & Hl & _). split; [done|]. split; [|done].
  destruct Hok as (<- & ? & _). done.
Qed.

(** *** A disabled recorder ends *)

Abbreviation lasts := (wpr lasting (fun _ => True)).

Lemma sane_quiet {A} (p : io A) Q : does sane_call p Q -> does (fun X c => quiet lasting c) p Q.
Proof.
  induction p as [a|c|X c k IH]; cbn; [done..|]. intros (Hc & Hk). split; [|auto].
  intros s x s' He. by eapply sane_lasting.
Qed.

Lemma lasts_aside {A B} (p : io A) (k : A -> io B) s Q :
  sane p -> dvr_state s = Disabled -> (forall a s', dvr_state s' = Disabled -> lasts (k a) s' Q) ->
  lasts (io_bind p k) s Q.
Proof.
  intros Hp Hs Hk. apply wpr_bind. eapply wpr_does; [apply lasting_preorder|apply sane_quiet, Hp|done|].
  intros a s' (Hl & _) _. by apply Hk, Hl.
Qed.

Lemma lasts_call {A X} (c : dcall X) (k : X -> io A) s Q :
  sane_call X c -> dvr_state s = Disabled -> (forall a s', dvr_state s' = Disabled -> lasts (k a) s' Q) ->
  lasts (Call c k) s Q.
Proof. intros Hc. apply (lasts_aside (trigger c) k). by split. Qed.

Lemma lasts_disabled {A} (k : bool -> io A) s Q :
  dvr_state s = Disabled -> (forall s', dvr_state s' = Disabled -> lasts (k true) s' Q) ->
  lasts (io_bind dvr_is_disabled k) s Q.
Proof.
  intros Hs Hk s' (Hl & _) x s'' [-> ->]. rewrite (Hl Hs). rewrite bool_decide_true by done. by apply Hk, Hl.
Qed.

Lemma finish_leaves d s :
  dvr_state s = Disabled ->
  lasts (let!* (d, stalled) <- finish_storage_work d ;;
         if stalled then Done (d, true)
         else let! disabled <- dvr_is_disabled ;; Done (d, disabled)) s (fun r _ => snd r = true).
Proof.
  intros Hs. apply lasts_aside; [apply finish_storage_work_sane|done|]. intros [d' stalled] s' Hs'.
  destruct stalled; [done|]. by apply lasts_disabled.
Qed.

Lemma disabled_leaves cfg d s :
  dvr_state s = Disabled -> lasts (loop_turn cfg d) s (fun r _ => snd r = true).
Proof.
  intros Hs. unfold loop_turn. apply lasts_call; [exact pop_ok|done|]. intros [rpc|] s1 H1.
  - do 2 (apply lasts_call; [done..|]; intros ? ? ?).
    apply lasts_aside; [apply update_storage_status_sane|done|]. intros d2 s2 H2.
    apply lasts_disabled; [done|]. intros s3 H3. destruct (_ && _ && _).
    + apply lasts_aside; [apply finish_storage_work_sane|done|]. by intros [d4 ?] s4 H4.
    + apply lasts_aside; [apply dispatch_sane|done|]. intros [d4 leave] s4 H4.
      destruct leave; [done|]. by apply finish_leaves.
  - do 2 (apply lasts_call; [done..|]; intros ? ? ?).
    apply lasts_aside; [apply update_storage_status_sane|done|]. intros d2 s2 H2. by apply finish_leaves.
Qed.

(** C23. A disabled recorder ends: a turn of the loop that begins when the recorder is
    disabled is its last, whatever command it takes, whatever the storage answers and
    whatever the other threads do meanwhile. *)
Theorem disabled_recorder_leaves cfg d s os s' d' leave os' :
  dvr_state s = Disabled -> Forall (fun p => sane p) os ->
  rtc step (Sys s (loop_turn cfg d) os) (Sys s' (Done (d', leave)) os') -> leave = true.
Proof.
  intros Hs Ho Hr.
  assert (Hw : lasts (Done (d', leave)) s' (fun r _ => snd r = true)); [|exact Hw].
  apply (wpr_sound lasting (fun _ => True) (fun p _ => sane p)) with
    (c1 := Sys s (loop_turn cfg d) os) (c2 := Sys s' (Done (d', leave)) os').
  - intros p s1 Hp. by apply entry_sane.
  - intros X c k s1 x s2 (Hc & Hk) He. split; [by eapply sane_lasting|apply Hk].
  - done.
  - done.
  - exact Hr.
  - by apply disabled_leaves.
  - exact Ho.
Qed.

(** ** Runs *)

(** The queue holds the access unit the thread has not taken yet. *)
Definition early : list move := take 5 (stuck_schedule 10).
Definition late : list move := drop 5 (stuck_schedule 10).
Definition early_state : sys Dvr := fold_left (fun c m => act m c) early (started sample_config 10).

Lemma early_run : rtc step (started sample_config 10) early_state.
Proof. apply schedule_steps, Forall_take, stuck_allowed. Qed.
Lemma late_run : rtc step early_state (fold_left (fun c m => act m c) late early_state).
Proof. apply schedule_steps, Forall_drop, stuck_allowed. Qed.
Lemma early_queued : queued_bytes (queue_ (guarded (state early_state))) = 8.
Proof. vm_compute. reflexivity. Qed.

Lemma recorder_state_kept_witness :
  queued_bytes (queue_ (guarded (state early_state))) = 8 /\ queue_ok (guarded (state early_state)).
Proof.
  split; [exact early_queued|].
  exact (proj1 (recorder_state_kept sample_config 10 early_state _ early_run late_run)).
Defined.

(** A turn that begins disabled. *)
Definition disabled_turn : sys (Dvr * bool) :=
  Sys (set_state shared0 Disabled) (loop_turn sample_config Dvr_new) [].
Definition disabled_end : sys (Dvr * bool) := act (Thread 200 (calm 10)) disabled_turn.
Definition turn_over (c : sys (Dvr * bool)) : bool := match thread c with Done _ => true | _ => false end.
Lemma disabled_run : rtc step disabled_turn disabled_end.
Proof. by apply act_steps. Qed.
Lemma disabled_over : turn_over disabled_end = true.
Proof. vm_compute. reflexivity. Qed.

Lemma disabled_recorder_leaves_witness :
  exists s d leave os, rtc step disabled_turn (Sys s (Done (d, leave)) os) /\ leave = true.
Proof.
  pose proof disabled_run as Hr. pose proof disabled_over as Hc. revert Hr Hc.
  generalize disabled_end. intros [s [[d leave]|?|? ? ?] os] Hr Hc; [|discriminate Hc..].
  exists s, d, leave, os. split; [exact Hr|].
  exact (disabled_recorder_leaves sample_config Dvr_new (set_state shared0 Disabled) [] s d leave os
    eq_refl (Forall_nil_2 _) Hr).
Defined.
