(* ===== verification/DvrFrames.v ===== *)
(** * The time line of a recording

    The duration the recorder gives each frame, over the frames of a segment; and what
    becomes of frames while the next file waits for its key frame. *)

From S2P Require Import Prelude Free TsWriter RecordName Dvr.
From stdpp Require Import list.
Open Scope Z_scope.

(** The durations of frames with those capture times. *)
Fixpoint durations (cfg : config) (s : segment) (ptss : list Z) : outcome (list Z) :=
  match ptss with
  | [] => Ret []
  | pts :: ptss =>
    do* (s, d) <- next_frame_duration cfg s pts ;;
    do ds <- durations cfg s ptss ;;
    Ret (d :: ds)
  end.

Definition fresh_segment (last : Z) : segment := {|
  frames_written := 0; rec_start_pts := -1; segment_video_ticks := 0; last_good_duration := last |}.

(** Capture times from [p] on, in ms: increasing, never more than a quarter second apart. *)
Fixpoint steady (p : Z) (ptss : list Z) : Prop :=
  match ptss with [] => True | q :: ptss => p < q <= p + 250 /\ q < 2 ^ 50 /\ steady q ptss end.

(** The gaps in ticks. *)
Fixpoint gaps (p : Z) (ptss : list Z) : list Z :=
  match ptss with [] => [] | q :: ptss => 90 * (q - p) :: gaps q ptss end.

Lemma c_int64_small z : - 2 ^ 62 <= z < 2 ^ 62 -> c_int64 z = Ret z.
Proof. intros. unfold c_int64. by do 2 zif. Qed.

Section Durations.
Context (cfg : config).

(** A frame within the cap takes the time up to it that is not accounted for yet. *)
Lemma next_frame_duration_step s pts :
  0 <= rec_start_pts s <= pts -> pts < 2 ^ 50 -> 0 <= segment_video_ticks s < 2 ^ 60 ->
  1 <= 90 * (pts - rec_start_pts s) - segment_video_ticks s <= MAX_FRAME_DURATION_90K ->
  let d := 90 * (pts - rec_start_pts s) - segment_video_ticks s in
  next_frame_duration cfg s pts
  = Ret ({| frames_written := frames_written s; rec_start_pts := rec_start_pts s;
            segment_video_ticks := 90 * (pts - rec_start_pts s); last_good_duration := d |}, d).
Proof.
  intros Hs Hp Ht Hd d. unfold next_frame_duration, MS_TO_90K, MAX_FRAME_DURATION_90K, TS_TIMEBASE_90K in *.
  change (90000 / 4) with 22500 in *. rewrite (proj2 (Z.ltb_ge (rec_start_pts s) 0)) by lia.
  rewrite (c_int64_small (pts - _)) by lia. cbn [obind].
  rewrite (c_int64_small (_ * 90)) by lia. cbn [obind].
  rewrite (c_int64_small (_ * 90 - _)) by lia. cbn [obind].
  rewrite (proj2 (Z.ltb_ge _ 1)) by lia. rewrite (proj2 (Z.ltb_ge 22500 _)) by lia.
  rewrite c_int64_small by lia. cbn [obind].
  replace (s32 ((pts - rec_start_pts s) * 90 - segment_video_ticks s)) with d by (unfold s32, d; lia).
  replace (segment_video_ticks s + _) with (90 * (pts - rec_start_pts s)) by lia. done.
Qed.

Lemma durations_steady s p ptss :
  0 <= rec_start_pts s <= p -> p < 2 ^ 50 -> segment_video_ticks s = 90 * (p - rec_start_pts s) ->
  steady p ptss -> durations cfg s ptss = Ret (gaps p ptss).
Proof.
  revert s p. induction ptss as [|q ptss IH]; intros s p Hs Hp Ht Hst; [done|].
  destruct Hst as (Hq & Hq' & Hst). cbn [durations gaps].
  rewrite next_frame_duration_step by (unfold MAX_FRAME_DURATION_90K, TS_TIMEBASE_90K; lia). cbn [obind].
  rewrite (IH _ q); cbn [rec_start_pts segment_video_ticks]; [|lia|done|done|done].
  cbn [obind]. do 2 f_equal. lia.
Qed.

(** C0. The time line of a recording runs one frame behind: of frames captured at [p0],
    [p1], [p2], ... at most a quarter second apart the first gets one tick and each later
    one the gap before it, not the gap up to its successor, so that a frame starts, on
    the 90 kHz clock of the file, when its predecessor was captured; but nothing is lost,
    the durations up to any frame but the first add up to its distance from the first
    exactly, whatever the nominal rate. *)
Theorem durations_one_behind last p0 p1 ptss :
  0 <= p0 < 2 ^ 50 -> steady p0 (p1 :: ptss) ->
  durations cfg (fresh_segment last) (p0 :: p1 :: ptss)
  = Ret (1 :: (90 * (p1 - p0) - 1) :: gaps p1 ptss) /\
  forall before pk after, p1 :: ptss = before ++ pk :: after ->
    fold_right Z.add 0 (take (2 + length before) (1 :: (90 * (p1 - p0) - 1) :: gaps p1 ptss)) = 90 * (pk - p0).
Proof.
  intros Hp (H1 & H1' & Hst). split.
  - cbn [durations]. unfold next_frame_duration at 1. cbn [fresh_segment rec_start_pts segment_video_ticks].
    change (-1 <? 0) with true. cbv iota. rewrite Z.sub_diag. cbn [obind c_int64].
    change (c_int64 0) with (Ret 0). cbn [obind]. change (c_int64 (0 * MS_TO_90K)) with (Ret 0). cbn [obind].
    change (c_int64 (0 - 0)) with (Ret 0). cbn [obind]. change (0 <? 1) with true. cbv iota.
    change (MAX_FRAME_DURATION_90K <? 1) with false. cbv iota. change (c_int64 (0 + 1)) with (Ret 1).
    cbn [obind]. change (s32 1) with 1.
    rewrite next_frame_duration_step; cbn [rec_start_pts segment_video_ticks];
      [|lia|done|lia|unfold MAX_FRAME_DURATION_90K, TS_TIMEBASE_90K; lia].
    cbn [obind]. rewrite (durations_steady _ p1); cbn [rec_start_pts segment_video_ticks]; done || lia.
  - intros before pk after E.
    assert (Hg : forall ps p b q a, p :: ps = b ++ q :: a ->
              fold_right Z.add 0 (take (length b) (gaps p ps)) = 90 * (q - p)).
    { clear. induction ps as [|r ps IH]; intros p b q a Hb.
      - destruct b as [|? [|]]; [|done..]. injection Hb as -> _. cbn. lia.
      - destruct b as [|x b]; [injection Hb as -> _; cbn; lia|]. injection Hb as -> Hb.
        cbn [length gaps take fold_right]. rewrite (IH r b q a Hb). lia. }
    cbn [Nat.add take fold_right]. rewrite (Hg ptss p1 before pk after E). lia.
Qed.
End Durations.

(** Frames of 40 ms with a late one; the first lasts a tick. *)
Lemma durations_one_behind_witness :
  durations {| min_free_bytes := 0; require_mount := false; segment_limit_ms := 0; nominal_fps := 25;
               rec_dir := []; filename_pattern := [] |} (fresh_segment 0) [100; 140; 180; 300]
  = Ret [1; 3599; 3600; 10800] /\
  1 + 3599 + 3600 + 10800 = 90 * (300 - 100).
Proof.
  destruct (durations_one_behind {| min_free_bytes := 0; require_mount := false; segment_limit_ms := 0;
      nominal_fps := 25; rec_dir := []; filename_pattern := [] |} 0 100 140 [180; 300]) as (H1 & H2);
    [lia|cbn; lia|].
  split; [exact H1|]. exact (H2 [140; 180] 300 [] eq_refl).
Defined.

(** While the next file waits for a key frame nothing is written to the one that is open:
    the frame is dropped. *)
Lemma waiting_drops cfg d au :
  pending_open d = true -> keyframe au = false ->
  handle_access_unit cfg d au
  = (get! armed <- armed_load ;;
     if negb armed then Done d
     else get! overflowed <- locked take_overflow ;; if overflowed then fail d true else Done d).
Proof. intros Hp Hk. unfold handle_access_unit. by rewrite Hp, Hk. Qed.
