(* ===== verification/RecordNameProps.v ===== *)
(** * A new recording never takes the name of an old one

    For templates with one number and the time placeholders the help text lists: the
    pattern the code builds recognises exactly the names the template makes, so the
    number after the largest one found is new. *)

From Stdlib Require Import Ascii String.
From S2P Require Import Prelude RecordName.
From stdpp Require Import list.
Open Scope char_scope.
Open Scope Z_scope.

(** ** Templates *)

Inductive piece := Lit (c : ascii) | Seq | Time (c : ascii).

Definition render1 (p : piece) : chars :=
  match p with Lit c => [c] | Seq => ["%"; "N"] | Time c => ["%"; c] end.
Definition render (t : list piece) : chars := List.concat (map render1 t).

Definition piece_ok (p : piece) : bool :=
  match p with Lit c => negb (Ascii.eqb c "%") | Seq => true | Time c => mem c (text "YmdHMS") end.

Definition is_seq (p : piece) : bool := match p with Seq => true | _ => false end.

(** What a piece becomes: the number, or the time, which is so many digits. *)
Definition expand1 (stamp : ascii -> chars) (number : chars) (p : piece) : chars :=
  match p with Lit c => [c] | Seq => number | Time c => stamp c end.
Definition expand (stamp : ascii -> chars) (number : chars) (t : list piece) : chars :=
  List.concat (map (expand1 stamp number) t).

Definition time_width (c : ascii) : nat := if Ascii.eqb c "Y" then 4 else 2.
Definition stamps (stamp : ascii -> chars) : Prop :=
  forall c, List.length (stamp c) = time_width c /\ forallb is_digit (stamp c) = true.

(** ** The pattern built from a template *)

Definition specials : chars := text ".^$|()[]{}*+?\".

Definition item1 (p : piece) : item :=
  match p with Lit c => Char c | Seq => Digit_run true | Time c => Digits (time_width c) end.

Lemma parse_plain c p :
  mem c specials = false -> parse_items (c :: p) = (its ← parse_items p; Some (Char c :: its)).
Proof. intros H. destruct c as [[] [] [] [] [] [] [] []]; first [discriminate H|reflexivity]. Qed.

Lemma parse_escaped c p :
  mem c specials = true -> parse_items ("\" :: c :: p) = (its ← parse_items p; Some (Char c :: its)).
Proof. intros H. destruct c as [[] [] [] [] [] [] [] []]; first [discriminate H|reflexivity]. Qed.

Lemma pattern_lit c p seen :
  Ascii.eqb c "%" = false ->
  pattern_loop (c :: p) seen = (if mem c specials then ["\"] else []) ++ c :: pattern_loop p seen.
Proof. intros H. destruct c as [[] [] [] [] [] [] [] []]; first [discriminate H|reflexivity]. Qed.

Lemma parse_fixed t seen :
  forallb piece_ok t = true -> existsb is_seq t = false ->
  parse_items (pattern_loop (render t) seen ++ ["$"]) = Some (map item1 t).
Proof.
  induction t as [|p t IH]; intros Hok Hs; [done|]. cbn [forallb existsb] in *.
  apply andb_prop in Hok as [Hp Hok]. apply orb_false_iff in Hs as [Hsp Hs]. specialize (IH Hok Hs).
  change (render (p :: t)) with (render1 p ++ render t). destruct p as [c| |c]; [|done|].
  - apply negb_true_iff in Hp. cbn [render1 app]. rewrite pattern_lit by done.
    destruct (mem c specials) eqn:E; cbn [app].
    + rewrite parse_escaped, IH by done. done.
    + rewrite parse_plain, IH by done. done.
  - cbn [piece_ok] in Hp. destruct c as [[] [] [] [] [] [] [] []]; try discriminate Hp;
      cbn -[render]; rewrite IH; reflexivity.
Qed.

Lemma parse_template t1 t2 :
  forallb piece_ok (t1 ++ Seq :: t2) = true -> existsb is_seq (t1 ++ t2) = false ->
  parse_pattern (build_sequence_pattern (render (t1 ++ Seq :: t2))) = Some (map item1 (t1 ++ Seq :: t2)).
Proof.
  unfold build_sequence_pattern, parse_pattern. induction t1 as [|p t1 IH]; intros Hok Hs.
  - cbn [app forallb existsb] in *. change (render (Seq :: t2)) with ("%" :: "N" :: render t2).
    change (pattern_loop ("%" :: "N" :: render t2) false) with (text "(\d+)" ++ pattern_loop (render t2) true).
    rewrite <- app_assoc. cbn -[render pattern_loop].
    by rewrite parse_fixed by (done || by apply andb_prop in Hok as [_ ?]).
  - cbn [app forallb existsb] in *. apply andb_prop in Hok as [Hp Hok]. apply orb_false_iff in Hs as [Hsp Hs].
    specialize (IH Hok Hs). change (render (p :: ?l)) with (render1 p ++ render l).
    destruct p as [c| |c]; [|done|].
    + apply negb_true_iff in Hp. cbn [render1 app]. rewrite pattern_lit by done.
      destruct (mem c specials) eqn:E; cbn [app].
      * by rewrite parse_escaped, IH by done.
      * by rewrite parse_plain, IH by done.
    + cbn [piece_ok] in Hp. destruct c as [[] [] [] [] [] [] [] []]; try discriminate Hp;
        cbn -[render]; rewrite IH; reflexivity.
Qed.

(** ** Matching *)

(** The number of characters of items without a run. *)
Definition item_width (i : item) : nat := match i with Char _ => 1 | Digits n => n | Digit_run _ => 0 end.
Definition width (its : list item) : nat := fold_right (fun i n => (item_width i + n)%nat) 0%nat its.
Definition is_run (i : item) : bool := match i with Digit_run _ => true | _ => false end.

Lemma digit_count_le s : (digit_count s <= List.length s)%nat.
Proof. induction s as [|c s IH]; cbn; [lia|]. destruct (is_digit c); cbn; lia. Qed.

Lemma match_width its s caps :
  existsb is_run its = false -> match_items its s = Some caps -> List.length s = width its /\ caps = [].
Proof.
  revert s. induction its as [|i its IH]; intros s Hr Hm; cbn [existsb] in *.
  - destruct s; [|done]. injection Hm as <-. done.
  - apply orb_false_iff in Hr as [Hi Hr]. destruct i as [c|n|b]; [| |done]; cbn [match_items] in Hm.
    + destruct s as [|a s]; [done|]. destruct (Ascii.eqb a c); [|done].
      destruct (IH s Hr Hm) as (Hl & ->). cbn. by rewrite Hl.
    + destruct (Nat.leb_spec n (digit_count s)) as [Hn|]; [|done].
      destruct (IH _ Hr Hm) as (Hl & ->). split; [|done]. rewrite length_drop in Hl.
      pose proof (digit_count_le s).
      change (width (Digits n :: its)) with (n + width its)%nat. lia.
Qed.

Lemma digit_count_app s1 s2 : forallb is_digit s1 = true -> (List.length s1 <= digit_count (s1 ++ s2))%nat.
Proof.
  induction s1 as [|c s1 IH]; intros H; cbn in *; [lia|]. apply andb_prop in H as [Hc H].
  rewrite Hc. specialize (IH H). lia.
Qed.

Lemma match_fixed t stamp number :
  stamps stamp -> existsb is_seq t = false ->
  match_items (map item1 t) (expand stamp number t) = Some [].
Proof.
  intros Hst. induction t as [|p t IH]; intros Hs; [done|]. cbn [existsb] in Hs.
  apply orb_false_iff in Hs as [Hp Hs]. specialize (IH Hs).
  change (expand stamp number (p :: t)) with (expand1 stamp number p ++ expand stamp number t).
  destruct p as [c| |c]; [|done|]; cbn [map item1 match_items expand1].
  - cbn [app]. by rewrite Ascii.eqb_refl.
  - destruct (Hst c) as (Hl & Hd). pose proof (digit_count_app (stamp c) (expand stamp number t) Hd).
    rewrite (proj2 (Nat.leb_le _ _)) by lia. by rewrite <- Hl, drop_app_length.
Qed.

(** The first that works, when only one can. *)
Lemma longest_only {A} (f : nat -> option A) n j a :
  (j <= n)%nat -> (0 < j)%nat -> f j = Some a -> (forall i, (i <= n)%nat -> i <> j -> f i = None) ->
  longest n f = Some a.
Proof.
  intros Hj H0 Hf Ho. induction n as [|n IH]; [lia|]. cbn [longest].
  destruct (Nat.eq_dec (S n) j) as [<-|Hn]; [by rewrite Hf|]. rewrite Ho by lia.
  apply IH; [lia|]. intros i Hi. apply Ho. lia.
Qed.

Lemma expand_width t stamp number :
  stamps stamp -> existsb is_seq t = false -> List.length (expand stamp number t) = width (map item1 t).
Proof.
  intros Hst Hs. apply match_fixed with (stamp := stamp) (number := number) in Hs as Hm; [|done].
  eapply match_width; [|exact Hm]. clear Hm. induction t as [|p t IH]; [done|]. cbn [existsb map] in *.
  apply orb_false_iff in Hs as [Hp Hs]. rewrite (IH Hs). by destruct p.
Qed.

Lemma no_runs t : existsb is_seq t = false -> existsb is_run (map item1 t) = false.
Proof.
  induction t as [|p t IH]; [done|]. cbn [existsb map]. intros H. apply orb_false_iff in H as [Hp H].
  rewrite (IH H). by destruct p.
Qed.

(** A name the template makes is recognised, and the number read off it. *)
Lemma match_template t1 t2 stamp number :
  stamps stamp -> existsb is_seq (t1 ++ t2) = false -> forallb is_digit number = true -> number <> [] ->
  match_items (map item1 (t1 ++ Seq :: t2)) (expand stamp number (t1 ++ Seq :: t2)) = Some [number].
Proof.
  intros Hst. induction t1 as [|p t1 IH]; intros Hs Hn Hne; cbn [app existsb] in *.
  - change (expand stamp number (Seq :: t2)) with (number ++ expand stamp number t2).
    cbn [map item1 match_items]. apply longest_only with (j := List.length number).
    + by apply digit_count_app.
    + destruct number; [done|cbn; lia].
    + rewrite drop_app_length, match_fixed by done. cbn. by rewrite take_app_length.
    + intros i Hle Hi. destruct (match_items _ _) as [caps|] eqn:E; [|done].
      apply match_width in E as (El & _); [|by apply no_runs]. exfalso. apply Hi.
      pose proof (digit_count_le (number ++ expand stamp number t2)) as Hc. unfold chars in *.
      rewrite length_app in Hc. rewrite length_drop, length_app in El.
      rewrite (expand_width t2 stamp number Hst Hs) in El, Hc. lia.
  - apply orb_false_iff in Hs as [Hp Hs]. specialize (IH Hs Hn Hne).
    change (expand stamp number (p :: ?l)) with (expand1 stamp number p ++ expand stamp number l).
    destruct p as [c| |c]; [|done|]; cbn [map item1 match_items expand1].
    + cbn [app]. by rewrite Ascii.eqb_refl.
    + destruct (Hst c) as (Hl & Hd).
      pose proof (digit_count_app (stamp c) (expand stamp number (t1 ++ Seq :: t2)) Hd).
      rewrite (proj2 (Nat.leb_le _ _)) by lia. by rewrite <- Hl, drop_app_length.
Qed.

(** ** Numbers *)

Lemma digit_char_value d : 0 <= d < 10 -> is_digit (digit_char d) = true /\ digit_value (digit_char d) = d.
Proof.
  intros Hd. assert (H : d = 0 \/ d = 1 \/ d = 2 \/ d = 3 \/ d = 4 \/ d = 5 \/ d = 6 \/ d = 7 \/ d = 8 \/ d = 9) by lia.
  by repeat (destruct H as [->|H]; [by split|]); subst.
Qed.

Lemma digits_value_app s1 s2 :
  digits_value (s1 ++ s2) = fold_left (fun v c => 10 * v + digit_value c) s2 (digits_value s1).
Proof. apply fold_left_app. Qed.

Lemma digits_shift s v :
  fold_left (fun v c => 10 * v + digit_value c) s v = v * 10 ^ Z.of_nat (List.length s) + digits_value s.
Proof.
  revert v. induction s as [|c s IH]; intros v; [cbn; lia|]. unfold digits_value. cbn [fold_left].
  rewrite IH, (IH (10 * 0 + digit_value c)). change (List.length (c :: s)) with (S (List.length s)).
  rewrite Nat2Z.inj_succ, Z.pow_succ_r by lia. lia.
Qed.

Lemma decimal_loop_spec fuel v acc :
  0 <= v < 10 ^ Z.of_nat fuel -> (0 < fuel)%nat -> forallb is_digit acc = true ->
  forallb is_digit (decimal_loop fuel v acc) = true /\ decimal_loop fuel v acc <> [] /\
  digits_value (decimal_loop fuel v acc) = v * 10 ^ Z.of_nat (List.length acc) + digits_value acc.
Proof.
  revert v acc. induction fuel as [|fuel IH]; intros v acc Hv Hf Ha; [lia|]. cbn [decimal_loop].
  destruct (digit_char_value (v mod 10)) as (Hd & Hval); [lia|].
  assert (Ha' : forallb is_digit (digit_char (v mod 10) :: acc) = true) by (cbn [forallb]; by rewrite Hd).
  assert (Hdv : digits_value (digit_char (v mod 10) :: acc)
                = v mod 10 * 10 ^ Z.of_nat (List.length acc) + digits_value acc).
  { unfold digits_value at 1. cbn [fold_left]. rewrite digits_shift, Hval. lia. }
  rewrite Nat2Z.inj_succ, Z.pow_succ_r in Hv by lia.
  destruct (Z.ltb_spec v 10).
  - split_and!; [done|done|]. rewrite Hdv, Z.mod_small by lia. done.
  - destruct fuel as [|fuel]; [cbn in Hv; lia|].
    destruct (IH (v / 10) (digit_char (v mod 10) :: acc)) as (H1 & H2 & H3); [lia|lia|done|].
    split_and!; [done|done|]. rewrite H3, Hdv. change (List.length (_ :: acc)) with (S (List.length acc)).
    rewrite Nat2Z.inj_succ, Z.pow_succ_r by lia. pose proof (Z.div_mod v 10). nia.
Qed.

Lemma padded_value n s : digits_value (padded n s) = digits_value s.
Proof.
  unfold padded. rewrite digits_value_app.
  assert (E : digits_value (replicate (n - List.length s) "0"%char) = 0).
  { induction (n - List.length s)%nat as [|k IH]; [done|]. exact IH. }
  by rewrite E.
Qed.

Lemma padded_digits n s : forallb is_digit s = true -> forallb is_digit (padded n s) = true.
Proof.
  intros H. unfold padded. rewrite forallb_app, H, andb_true_r.
  induction (n - List.length s)%nat as [|k IH]; [done|]. exact IH.
Qed.

Lemma decimal_value v :
  0 <= v < 10 ^ 10 ->
  forallb is_digit (decimal v) = true /\ decimal v <> [] /\ digits_value (decimal v) = v.
Proof.
  intros Hv. destruct (decimal_loop_spec 10 v []) as (H1 & H2 & H3); [done|lia|done|].
  unfold decimal. split_and!; [done|done|]. rewrite H3. cbn. lia.
Qed.

(** ** The scan *)

Section Scan.
Context (pattern : chars).

(** A number read off the name of a regular file. *)
Definition numbered (entries : list (bool * chars)) (n : Z) : Prop :=
  exists f cap caps, In (true, f) entries /\ regex_match pattern f = Some (cap :: caps) /\ strtol cap = Some n.

Lemma scan_entry_max m e : -1 <= m < INT_MAX -> m <= scan_entry pattern m e < INT_MAX.
Proof.
  intros Hm. unfold scan_entry. destruct e as [[] f]; cbn [negb]; [|lia].
  destruct (regex_match _ _) as [[|cap ?]|]; [lia| |lia]. destruct (strtol cap) as [n|]; [|lia].
  destruct (Z.leb_spec 0 n), (Z.ltb_spec n INT_MAX); cbn [andb]; lia.
Qed.

Lemma scan_max entries m :
  -1 <= m < INT_MAX ->
  m <= fold_left (scan_entry pattern) entries m < INT_MAX /\
  forall n, numbered entries n -> 0 <= n < INT_MAX -> n <= fold_left (scan_entry pattern) entries m.
Proof.
  revert m. induction entries as [|e entries IH]; intros m Hm; cbn [fold_left].
  { split; [lia|]. by intros n (f & cap & caps & [] & _). }
  pose proof (scan_entry_max m e Hm) as Hs. destruct (IH (scan_entry pattern m e)) as (H1 & H2); [lia|].
  split; [lia|]. intros n (f & cap & caps & [->|Hin] & Hr & Hn) Hb.
  - apply Z.le_trans with (scan_entry pattern m (true, f)); [|lia]. unfold scan_entry. cbn [negb].
    rewrite Hr, Hn. rewrite (proj2 (Z.leb_le 0 n)), (proj2 (Z.ltb_lt n INT_MAX)) by lia. cbn [andb]. lia.
  - apply H2; [|done]. by exists f, cap, caps.
Qed.
End Scan.

(** ** The name *)

Lemma replace_fixed t s :
  forallb piece_ok t = true -> existsb is_seq t = false -> replace_sequence (render t) s = render t.
Proof.
  induction t as [|p t IH]; intros Hok Hs; [done|]. cbn [forallb existsb] in *.
  apply andb_prop in Hok as [Hp Hok]. apply orb_false_iff in Hs as [Hsp Hs]. specialize (IH Hok Hs).
  change (render (p :: t)) with (render1 p ++ render t). destruct p as [c| |c]; [|done|]; cbn [piece_ok] in Hp;
    destruct c as [[] [] [] [] [] [] [] []]; try discriminate Hp; cbn -[render]; by rewrite IH.
Qed.

Lemma replace_template t1 t2 s :
  forallb piece_ok (t1 ++ Seq :: t2) = true -> existsb is_seq (t1 ++ t2) = false ->
  has_sequence (render (t1 ++ Seq :: t2)) = true /\
  replace_sequence (render (t1 ++ Seq :: t2)) s = render t1 ++ s ++ render t2.
Proof.
  induction t1 as [|p t1 IH]; intros Hok Hs; cbn [app forallb existsb] in *.
  - split; [done|]. change (render (Seq :: t2)) with ("%" :: "N" :: render t2)%char. cbn [replace_sequence].
    by rewrite replace_fixed.
  - apply andb_prop in Hok as [Hp Hok]. apply orb_false_iff in Hs as [Hsp Hs]. destruct (IH Hok Hs) as (H1 & H2).
    change (render (p :: ?l)) with (render1 p ++ render l). destruct p as [c| |c]; [|done|]; cbn [piece_ok] in Hp;
      destruct c as [[] [] [] [] [] [] [] []]; try discriminate Hp; cbn -[render]; by rewrite H1, H2.
Qed.

Lemma render_app t1 t2 : render (t1 ++ t2) = render t1 ++ render t2.
Proof. unfold render. by rewrite map_app, concat_app. Qed.
Lemma expand_app stamp n t1 t2 : expand stamp n (t1 ++ t2) = expand stamp n t1 ++ expand stamp n t2.
Proof. unfold expand. by rewrite map_app, concat_app. Qed.

(** A number written out as literal pieces. *)
Lemma literal_number stamp n s :
  forallb is_digit s = true ->
  render (map Lit s) = s /\ expand stamp n (map Lit s) = s /\
  forallb piece_ok (map Lit s) = true /\ existsb is_seq (map Lit s) = false.
Proof.
  induction s as [|c s IH]; intros H; [done|]. cbn [forallb] in H. apply andb_prop in H as [Hc H].
  destruct (IH H) as (H1 & H2 & H3 & H4). change (map Lit (c :: s)) with (Lit c :: map Lit s).
  change (render (Lit c :: ?l)) with (c :: render l). change (expand stamp n (Lit c :: ?l)) with (c :: expand stamp n l).
  cbn [forallb existsb piece_ok is_seq]. rewrite H1, H2, H3, H4. split_and!; [done|done| |done].
  destruct (Ascii.eqb_spec c "%"); [by subst|done].
Qed.

Lemma expand_no_seq stamp n n' t : existsb is_seq t = false -> expand stamp n t = expand stamp n' t.
Proof.
  induction t as [|p t IH]; [done|]. cbn [existsb]. intros H. apply orb_false_iff in H as [Hp H].
  change (expand stamp ?m (p :: t)) with (expand1 stamp m p ++ expand stamp m t). rewrite (IH H). by destruct p.
Qed.

(** What is relied on of strftime: literal characters stay, a placeholder becomes its digits. *)
Definition strftime_ok (strftime : chars -> chars) (stamp : ascii -> chars) : Prop :=
  forall t, forallb piece_ok t = true -> existsb is_seq t = false -> strftime (render t) = expand stamp [] t.

Section Fresh.
Context (strftime : chars -> chars) (stamp : ascii -> chars) (t1 t2 : list piece).
Context (Hstamp : stamps stamp) (Hok : forallb piece_ok (t1 ++ Seq :: t2) = true).
Context (Hone : existsb is_seq (t1 ++ t2) = false).

(** The name with a given number, and that the pattern recognises it. *)
Lemma template_name s :
  strftime_ok strftime stamp -> forallb is_digit s = true ->
  strftime (render t1 ++ s ++ render t2) = expand stamp s (t1 ++ Seq :: t2).
Proof.
  intros Hf Hs. destruct (literal_number stamp [] s Hs) as (Hr & He & Hok' & Hs').
  rewrite forallb_app in Hok. apply andb_prop in Hok as [Hok1 Hok2].
  rewrite existsb_app in Hone. apply orb_false_iff in Hone as [Hs1 Hs2].
  rewrite <- Hr at 1. rewrite <- !render_app, Hf.
  - rewrite !expand_app, He, (expand_no_seq _ [] s t1), (expand_no_seq _ [] s t2) by done. done.
  - rewrite !forallb_app, Hok1, Hok'. exact Hok2.
  - by rewrite !existsb_app, Hs1, Hs', Hs2.
Qed.

Lemma template_recognised s :
  forallb is_digit s = true -> s <> [] ->
  regex_match (build_sequence_pattern (render (t1 ++ Seq :: t2))) (expand stamp s (t1 ++ Seq :: t2)) = Some [s].
Proof.
  intros Hs Hne. unfold regex_match. rewrite parse_template by done. cbn [mbind option_bind].
  by apply match_template.
Qed.

End Fresh.

(** ** A directory *)

(** A clock in 2025 that shows 01 for everything else, and a strftime for it. *)
Definition sample_stamp (c : ascii) : chars := if Ascii.eqb c "Y" then text "2025" else text "01".
Fixpoint sample_strftime (p : chars) : chars :=
  match p with
  | [] => []
  | c :: p' =>
    if Ascii.eqb c "%" then
      match p' with d :: p'' => sample_stamp d ++ sample_strftime p'' | [] => [c] end
    else c :: sample_strftime p'
  end.

Lemma sample_strftime_ok : strftime_ok sample_strftime sample_stamp.
Proof.
  intros t. induction t as [|p t IH]; intros Hok Hs; [done|]. cbn [forallb existsb] in *.
  apply andb_prop in Hok as [Hp Hok]. apply orb_false_iff in Hs as [Hsp Hs]. specialize (IH Hok Hs).
  change (render (p :: t)) with (render1 p ++ render t).
  change (expand sample_stamp [] (p :: t)) with (expand1 sample_stamp [] p ++ expand sample_stamp [] t).
  destruct p as [c| |c]; [|done|]; cbn [render1 expand1 app sample_strftime].
  - cbn [piece_ok] in Hp. apply negb_true_iff in Hp. by rewrite Hp, IH.
  - change (Ascii.eqb "%" "%") with true. cbv iota. by rewrite IH.
Qed.

(** [rec_%N_%Y.ts] beside two recordings and another file. *)
Definition before_number : list piece := map Lit (text "rec_").
Definition after_number : list piece := [Lit "_"; Time "Y"; Lit "."; Lit "t"; Lit "s"]%char.
Definition sample_dir : list (bool * chars) :=
  [(true, text "rec_0009_2025.ts"); (true, text "rec_10_2024.ts"); (true, text "rec_0042_2025.mp4")].
Definition sample_name : chars :=
  sample_strftime (name_pattern (render (before_number ++ Seq :: after_number)) (Listed sample_dir)).

