(* ===== verification/Encoder.v ===== *)
(** * The encoder (src/encoder/video_encoder.cpp, mpp_encoder.cpp, and the capture of
    src/main.cpp)

    The encoder's thread takes tasks from a queue, drives the hardware encoder and hands
    every access unit to the consumers.  The display thread captures the picture into one
    of six buffers: it claims one, lets the display write it, and passes it on as a frame,
    with the descriptor of a fence that says when the picture is there.  Operations are
    programs over calls ([ecall]): of the queue under its mutex, of the atomics the
    threads share, of the consumers, the Rockchip MPP library and the system.  Each call
    is one indivisible step.  What only the encoder's thread touches is the record
    [VideoEncoder].  Messages are left out. *)

From Stdlib Require Import String.
From S2P Require Import Prelude Free TsWriter.
From stdpp Require Import list.
Open Scope Z_scope.

Definition MAX_PENDING_FRAMES : Z := 3.
Definition WB_FENCE_TIMEOUT_MS : Z := 200.
Definition MAX_INIT_ATTEMPTS : Z := 3.
Definition MAX_FRAME_ERROR_STREAK : Z := 60.
Definition KEYFRAME_INTERVAL_MS : Z := 500.
Definition GOP_SECONDS : Z := 2.
Definition FLUSH_PACKET_TIMEOUT_MS : Z := 200.
Definition FLUSH_DEADLINE_MS : Z := 3000.
Definition WB_BUFFERS : Z := 6.

(** ** Data *)
Record enc_frame_info := mk_frame {
  prime_fd : Z; hor_stride : Z; ver_stride : Z; width : Z; height : Z; buf_size : Z;
  pts : Z; fence_fd : Z; wb_index : Z
}.

(** The functions that are posted to the encoder's thread: [set_video_params], [restart],
    and a consumer's. *)
Inductive job := SetParams (w h : Z) | Rebuild | Posted.

Inductive Task := FRAME (frame_info : enc_frame_info) | RUN (fn : job) | SHUTDOWN.
Definition is_frame (t : Task) : bool := match t with FRAME _ => true | _ => false end.

Inductive control :=
| ENC_GET_CFG | ENC_SET_CFG | ENC_SET_HEADER_MODE | SET_OUTPUT_TIMEOUT (ms : Z) | ENC_SET_IDR_FRAME.

(** What [mpp_frame_init] and the setters build. *)
Inductive mpp_frame :=
| EosFrame
| InputFrame (w h hor ver pts : Z).

(** What [encode_get_packet] answers; a packet has its data and whether it is the last. *)
Inductive got := TimedOut | Failed | Nothing | Got (data : list Z) (eos : bool).

Inductive ecall : Type -> Type :=
| locked {A : Type} (f : list Task -> A * list Task) : ecall A
| wants_load : ecall bool
| wants_store (b : bool) : ecall unit
| idr_load : ecall bool
| idr_store (b : bool) : ecall unit
| wb_claim (i : Z) : ecall bool
| wb_release (i : Z) : ecall unit
| wb_mode_load : ecall bool
| wb_mode_store (b : bool) : ecall unit
| close_fd (fd : Z) : ecall unit
| poll_fence (fd timeout : Z) : ecall Z
| arm_writeback (i : Z) : ecall Z
| atomic_commit (armed : bool) : ecall (Z * Z)
| dvr_disable : ecall unit
| consumer_active (k : nat) : ecall bool
| consumer_access_unit (k : nat) (data : list Z) (pts_ms : Z) (keyframe : bool) : ecall unit
| consumer_reset (k : nat) (w h : Z) : ecall unit
| consumer_failed (k : nat) : ecall unit
| consumer_tick (k : nat) : ecall unit
| consumer_posted : ecall unit
| mpp_create : ecall Z
| mpp_init : ecall Z
| mpp_enc_cfg_init : ecall Z
| mpp_enc_cfg_set_s32 (name : string) (value : Z) : ecall unit
| mpi_control (c : control) : ecall Z
| mpp_enc_cfg_deinit : ecall unit
| mpi_reset : ecall unit
| mpp_destroy : ecall unit
| mpp_frame_init : ecall unit
| encode_put_frame (f : mpp_frame) : ecall Z
| mpp_frame_deinit : ecall unit
| encode_get_packet : ecall got
| mpp_packet_deinit : ecall unit
| mpp_buffer_import (fd size : Z) : ecall bool
| mpp_buffer_put : ecall unit
| steady_clock_ms : ecall Z.

Abbreviation io := (prog ecall).
Definition when (b : bool) (p : io unit) : io unit := if b then p else Done tt.

(** ** Frames and the queue *)
Definition release_wb_frame (fi : enc_frame_info) : io unit :=
  let! _ <- when (0 <=? fence_fd fi) (trigger (close_fd (fence_fd fi))) ;;
  when (0 <=? wb_index fi) (trigger (wb_release (wb_index fi))).

Definition push_frame (info : enc_frame_info) (q : list Task) : bool * list Task :=
  if MAX_PENDING_FRAMES <=? zlen q then (false, q) else (true, q ++ [FRAME info]).

Definition frame (info : enc_frame_info) : io unit := run! locked (push_frame info) ;; Done tt.

Definition writeback_frame (info : enc_frame_info) : io unit :=
  get! pushed <- locked (push_frame info) ;;
  if pushed then Done tt else release_wb_frame info.

Definition frames_of (q : list Task) : list enc_frame_info :=
  omap (fun t => match t with FRAME fi => Some fi | _ => None end) q.

Definition drop_pending_frames (q : list Task) : list enc_frame_info * list Task :=
  (frames_of q, List.filter (fun t => negb (is_frame t)) q).

Fixpoint release_all (fis : list enc_frame_info) : io unit :=
  match fis with
  | [] => Done tt
  | fi :: fis => let! _ <- release_wb_frame fi ;; release_all fis
  end.

(** The frames that are dropped are given back while the mutex is held; nobody else can
    reach them any more, so that here they are given back behind the critical section. *)
Definition enqueue (t : Task) (drop_frames : bool) : io unit :=
  get! dropped <- locked (fun q =>
    let '(dropped, q) := if drop_frames then drop_pending_frames q else ([], q) in (dropped, q ++ [t])) ;;
  release_all dropped.

Definition post : io unit := enqueue (RUN Posted) false.
Definition set_video_params (w h : Z) : io unit := enqueue (RUN (SetParams w h)) true.
Definition restart : io unit := enqueue (RUN Rebuild) true.
Definition request_keyframe : io unit := trigger (idr_store true).
Definition shutdown : io unit := enqueue SHUTDOWN true.

(** The wait and what follows it: [None] if the second went by with an empty queue. *)
Definition pop (q : list Task) : option Task * list Task :=
  match q with [] => (None, q) | t :: q => (Some t, q) end.

(** ** The hardware encoder *)
Module Mpp.
Record MppEncoder := mk_mpp { ctx : bool; cfg : bool; cfg_hor_stride : Z; cfg_ver_stride : Z }.
Definition new : MppEncoder := mk_mpp false false 0 0.
Definition ready (e : MppEncoder) : bool := ctx e.

Definition cleanup (e : MppEncoder) : io MppEncoder :=
  let! _ <- when (cfg e) (trigger mpp_enc_cfg_deinit) ;;
  let! _ <- when (ctx e) (run! mpi_reset ;; trigger mpp_destroy) ;;
  Done new.

Fixpoint set_all (l : list (string * Z)) : io unit :=
  match l with
  | [] => Done tt
  | (name, v) :: l => run! mpp_enc_cfg_set_s32 name v ;; set_all l
  end.

(** Calls in a row, up to the first that fails. *)
Fixpoint controls (cs : list control) : io bool :=
  match cs with
  | [] => Done true
  | c :: cs => get! ret <- mpi_control c ;; if ret =? 0 then controls cs else Done false
  end.

(** The two settings whose value is a constant of the library are left out. *)
Definition init (w h hor ver fps bitrate : Z) (e : MppEncoder) : io (bool * MppEncoder) :=
  let e := mk_mpp (ctx e) (cfg e) hor ver in
  let failed (e : MppEncoder) := let! e <- cleanup e ;; Done (false, e) in
  get! ret <- mpp_create ;;
  if negb (ret =? 0) then Done (false, e)
  else
    let e := mk_mpp true (cfg e) hor ver in
    get! ret <- mpp_init ;;
    if negb (ret =? 0) then failed e
    else
      get! ret <- mpp_enc_cfg_init ;;
      if negb (ret =? 0) then failed e
      else
        let e := mk_mpp true true hor ver in
        get! ret <- mpi_control ENC_GET_CFG ;;
        if negb (ret =? 0) then failed e
        else
          let! bps <- lift (c_int (bitrate * 3)) ;;
          let! gop <- lift (c_int (fps * GOP_SECONDS)) ;;
          let! _ <- set_all [("prep:width", w); ("prep:height", h); ("prep:hor_stride", hor); ("prep:ver_stride", ver);
            ("rc:bps_target", bitrate); ("rc:bps_max", Z.quot bps 2); ("rc:bps_min", Z.quot bitrate 2);
            ("rc:fps_in_num", fps); ("rc:fps_in_denorm", 1); ("rc:fps_out_num", fps); ("rc:fps_out_denorm", 1);
            ("rc:gop", gop); ("h265:profile", 1); ("h265:level", 120)]%string ;;
          let! ok <- controls [ENC_SET_CFG; ENC_SET_HEADER_MODE; SET_OUTPUT_TIMEOUT 0] ;;
          if ok then Done (true, e) else failed e.

Definition sync_strides (hor ver : Z) (e : MppEncoder) : io MppEncoder :=
  let! _ <- set_all [("prep:hor_stride", hor); ("prep:ver_stride", ver)]%string ;;
  run! mpi_control ENC_SET_CFG ;;
  Done (mk_mpp (ctx e) (cfg e) hor ver).

Definition request_idr (e : MppEncoder) : io unit :=
  when (ctx e) (run! mpi_control ENC_SET_IDR_FRAME ;; Done tt).

Definition submit (f : mpp_frame) : io Z :=
  run! mpp_frame_init ;;
  get! ret <- encode_put_frame f ;;
  run! mpp_frame_deinit ;;
  Done ret.

Section Output.
Context {S : Type}.

(** Every packet that is there. *)
Fixpoint drain (fuel : nat) (on_nal : list Z -> S -> io S) (s : S) : io S :=
  get! g <- encode_get_packet ;;
  match g with
  | TimedOut | Nothing | Failed => Done s
  | Got data _ =>
      match fuel with
      | O => Die Diverge
      | Datatypes.S fuel =>
          let! s <- (if 0 <? zlen data then on_nal data s else Done s) ;;
          run! mpp_packet_deinit ;;
          drain fuel on_nal s
      end
  end.

Fixpoint flush_loop (fuel : nat) (deadline : Z) (on_nal : list Z -> S -> io (bool * S)) (s : S) : io S :=
  get! now <- steady_clock_ms ;;
  if deadline <=? now then Done s
  else
    get! g <- encode_get_packet ;;
    match fuel with
    | O => match g with Failed => Done s | _ => Die Diverge end
    | Datatypes.S fuel =>
        match g with
        | TimedOut | Nothing => flush_loop fuel deadline on_nal s
        | Failed => Done s
        | Got data is_eos =>
            let!* (go, s) <- (if 0 <? zlen data then on_nal data s else Done (true, s)) ;;
            run! mpp_packet_deinit ;;
            if is_eos || negb go then Done s else flush_loop fuel deadline on_nal s
        end
    end.

(** An empty last frame asks for what is still inside. *)
Definition flush (fuel : nat) (on_nal : list Z -> S -> io (bool * S)) (s : S) : io S :=
  let! _ <- submit EosFrame ;;
  run! mpi_control (SET_OUTPUT_TIMEOUT FLUSH_PACKET_TIMEOUT_MS) ;;
  get! now <- steady_clock_ms ;;
  flush_loop fuel (now + FLUSH_DEADLINE_MS) on_nal s.
End Output.
End Mpp.

(** ** The state of the encoder's thread *)
Record VideoEncoder := mk_encoder {
  video_frm_width : Z;
  video_frm_height : Z;
  wb_pending_index : Z;
  cur_width : Z;
  cur_height : Z;
  draining_ : bool;
  geometry_dirty : bool;
  init_attempts : Z;
  frame_error_streak : Z;
  last_idr_pts_ms : Z;
  encoder : Mpp.MppEncoder;
  submitted_pts : list Z;
  frames_submitted : Z;
  frames_emitted : Z;
  last_emitted_pts_ms : Z
}.

Definition new_encoder (w h : Z) : VideoEncoder :=
  mk_encoder w h (-1) 0 0 false true 0 0 0 Mpp.new [] 0 0 0.

Section Updates.
Variable d : VideoEncoder.
Definition set_video (w h : Z) (dirty : bool) : VideoEncoder :=
  mk_encoder w h (wb_pending_index d) (cur_width d) (cur_height d) (draining_ d) dirty (init_attempts d)
    (frame_error_streak d) (last_idr_pts_ms d) (encoder d) (submitted_pts d) (frames_submitted d) (frames_emitted d)
    (last_emitted_pts_ms d).
Definition set_pending (i : Z) : VideoEncoder :=
  mk_encoder (video_frm_width d) (video_frm_height d) i (cur_width d) (cur_height d) (draining_ d) (geometry_dirty d)
    (init_attempts d) (frame_error_streak d) (last_idr_pts_ms d) (encoder d) (submitted_pts d) (frames_submitted d)
    (frames_emitted d) (last_emitted_pts_ms d).
Definition set_draining (b : bool) : VideoEncoder :=
  mk_encoder (video_frm_width d) (video_frm_height d) (wb_pending_index d) (cur_width d) (cur_height d) b
    (geometry_dirty d) (init_attempts d) (frame_error_streak d) (last_idr_pts_ms d) (encoder d) (submitted_pts d)
    (frames_submitted d) (frames_emitted d) (last_emitted_pts_ms d).
Definition set_attempts (n : Z) (dirty : bool) : VideoEncoder :=
  mk_encoder (video_frm_width d) (video_frm_height d) (wb_pending_index d) (cur_width d) (cur_height d) (draining_ d)
    dirty n (frame_error_streak d) (last_idr_pts_ms d) (encoder d) (submitted_pts d)
    (frames_submitted d) (frames_emitted d) (last_emitted_pts_ms d).
Definition set_streak (n : Z) : VideoEncoder :=
  mk_encoder (video_frm_width d) (video_frm_height d) (wb_pending_index d) (cur_width d) (cur_height d) (draining_ d)
    (geometry_dirty d) (init_attempts d) n (last_idr_pts_ms d) (encoder d) (submitted_pts d)
    (frames_submitted d) (frames_emitted d) (last_emitted_pts_ms d).
Definition set_last_idr (t : Z) : VideoEncoder :=
  mk_encoder (video_frm_width d) (video_frm_height d) (wb_pending_index d) (cur_width d) (cur_height d) (draining_ d)
    (geometry_dirty d) (init_attempts d) (frame_error_streak d) t (encoder d) (submitted_pts d)
    (frames_submitted d) (frames_emitted d) (last_emitted_pts_ms d).
Definition set_mpp (e : Mpp.MppEncoder) (w h : Z) : VideoEncoder :=
  mk_encoder (video_frm_width d) (video_frm_height d) (wb_pending_index d) w h (draining_ d)
    (geometry_dirty d) (init_attempts d) (frame_error_streak d) (last_idr_pts_ms d) e (submitted_pts d)
    (frames_submitted d) (frames_emitted d) (last_emitted_pts_ms d).
Definition set_stream (fifo : list Z) (submitted emitted last : Z) : VideoEncoder :=
  mk_encoder (video_frm_width d) (video_frm_height d) (wb_pending_index d) (cur_width d) (cur_height d) (draining_ d)
    (geometry_dirty d) (init_attempts d) (frame_error_streak d) (last_idr_pts_ms d) (encoder d) fifo
    submitted emitted last.
End Updates.

(** What the constructor fixes. *)
Record enc_config := {
  writeback : bool; bitrate : Z; enc_fps : Z;
  wb_enc_width : Z; wb_enc_height : Z; wb_enc_hor_stride : Z; wb_enc_ver_stride : Z;
  consumers_ : list nat
}.

Section Encoder.
Context (cf : enc_config).
Implicit Types d : VideoEncoder.

Definition captures_writeback : bool := writeback cf.

(** ** Consumers *)
Fixpoint any_active (ks : list nat) : io bool :=
  match ks with
  | [] => Done false
  | k :: ks => get! a <- consumer_active k ;; if a then Done true else any_active ks
  end.

Definition recompute_wants_frames : io unit :=
  let! any <- any_active (consumers_ cf) ;; trigger (wants_store any).
Definition consumers_changed : io unit := recompute_wants_frames.
Definition wants_frames : io bool := trigger wants_load.

Fixpoint for_consumers (f : nat -> io unit) (ks : list nat) : io unit :=
  match ks with
  | [] => Done tt
  | k :: ks => let! _ <- f k ;; for_consumers f ks
  end.

Definition encoder_failed : io unit :=
  let! _ <- for_consumers (fun k => trigger (consumer_failed k)) (consumers_ cf) ;; recompute_wants_frames.

(** The access unit with the time of the frame it was made from. *)
Definition emit (data : list Z) d : io VideoEncoder :=
  let '(pts_ms, fifo) := match submitted_pts d with
                         | t :: rest => (t, rest)
                         | [] => (last_emitted_pts_ms d, [])
                         end in
  let d := set_stream d fifo (frames_submitted d) (u32 (frames_emitted d + 1)) pts_ms in
  let! keyframe <- lift (au_is_keyframe data (zlen data)) ;;
  let! _ <- for_consumers (fun k =>
    get! a <- consumer_active k ;; when a (trigger (consumer_access_unit k data pts_ms keyframe))) (consumers_ cf) ;;
  Done d.

Definition drain_to_consumers (fuel : nat) d : io VideoEncoder :=
  if draining_ d then Done d
  else
    let! d <- Mpp.drain fuel emit (set_draining d true) ;;
    Done (set_draining d false).

Definition drain_pending (fuel : nat) d : io VideoEncoder :=
  if Mpp.ready (encoder d) then drain_to_consumers fuel d else Done d.

(** ** Setting up and taking down *)
Definition align16 (x : Z) : Z := Z.land (u32 (x + 15)) (2 ^ 32 - 16).

Definition init d : io (bool * VideoEncoder) :=
  let '(w, h, hor, ver) :=
    if writeback cf then (wb_enc_width cf, wb_enc_height cf, wb_enc_hor_stride cf, wb_enc_ver_stride cf)
    else (video_frm_width d, video_frm_height d, align16 (video_frm_width d), align16 (video_frm_height d)) in
  if negb (writeback cf) && ((video_frm_width d =? 0) || (video_frm_height d =? 0)) then Done (false, d)
  else
    let enc_w := s32 w in
    let enc_h := s32 h in
    if (enc_w <=? 0) || (enc_h <=? 0) || (enc_fps cf <=? 0) then Done (false, d)
    else
      let!* (ok, e) <- Mpp.init enc_w enc_h (s32 hor) (s32 ver) (enc_fps cf) (bitrate cf) (encoder d) ;;
      let d := set_mpp d e (cur_width d) (cur_height d) in
      if negb ok then Done (false, d)
      else
        run! idr_store true ;;
        Done (true, set_mpp d e enc_w enc_h).

Definition release_pending d : io VideoEncoder :=
  if 0 <=? wb_pending_index d then
    run! wb_release (wb_pending_index d) ;; Done (set_pending d (-1))
  else Done d.

Definition teardown (fuel : nat) d : io VideoEncoder :=
  let! d <- (if Mpp.ready (encoder d) then
               let! d <- drain_to_consumers fuel d ;;
               Mpp.flush fuel (fun data d =>
                 if frames_submitted d <=? frames_emitted d then Done (false, d)
                 else let! d <- emit data d ;; Done (true, d)) d
             else Done d) ;;
  let! d <- release_pending d ;;
  let! e <- Mpp.cleanup (encoder d) ;;
  let d := set_stream (set_mpp d e (cur_width d) (cur_height d)) [] 0 0 (last_emitted_pts_ms d) in
  run! idr_store true ;;
  Done d.

Definition ensure_encoder (fuel : nat) d : io (bool * VideoEncoder) :=
  if Mpp.ready (encoder d) && negb (geometry_dirty d) then Done (true, d)
  else if MAX_INIT_ATTEMPTS <=? init_attempts d then Done (false, d)
  else
    let d := set_attempts d (init_attempts d + 1) (geometry_dirty d) in
    let! d <- teardown fuel d ;;
    let!* (ok, d) <- init (set_attempts d (init_attempts d) false) ;;
    if negb ok then
      let! _ <- when (MAX_INIT_ATTEMPTS <=? init_attempts d) encoder_failed ;;
      Done (false, d)
    else
      let d := set_attempts d 0 (geometry_dirty d) in
      let! _ <- for_consumers (fun k => trigger (consumer_reset k (cur_width d) (cur_height d))) (consumers_ cf) ;;
      Done (true, d).

(** ** Encoding *)
Definition maybe_request_idr (pts_ms : Z) d : io VideoEncoder :=
  get! asked <- idr_load ;;
  let! due <- (if asked || (pts_ms <? last_idr_pts_ms d) then Done true
               else let! age <- lift (c_int64 (pts_ms - last_idr_pts_ms d)) ;;
                    Done (KEYFRAME_INTERVAL_MS <=? age)) ;;
  if due : bool then
    let! _ <- Mpp.request_idr (encoder d) ;;
    run! idr_store false ;;
    Done (set_last_idr d pts_ms)
  else Done d.

Definition import_frame (info : enc_frame_info) : io bool :=
  trigger (mpp_buffer_import (prime_fd info) (buf_size info)).

(** The frame is in the hardware encoder; [hold] is the capture buffer it reads from. *)
Definition submitted (info : enc_frame_info) (hold : Z) d : VideoEncoder :=
  let d := set_stream d (submitted_pts d ++ [s64 (pts info)]) (u32 (frames_submitted d + 1)) (frames_emitted d)
             (last_emitted_pts_ms d) in
  set_streak (set_pending d hold) 0.

Definition frame_error d : VideoEncoder := set_streak d (frame_error_streak d + 1).

(** Whether the fence came: it is waited for, and closed. *)
Definition wait_fence (info : enc_frame_info) : io bool :=
  if 0 <=? fence_fd info then
    get! pr <- poll_fence (fence_fd info) WB_FENCE_TIMEOUT_MS ;;
    run! close_fd (fence_fd info) ;;
    Done (0 <? pr)
  else Done true.

Definition encode_wb (fuel : nat) (info : enc_frame_info) d : io VideoEncoder :=
  let! there <- wait_fence info ;;
  if negb there then run! wb_release (wb_index info) ;; Done (frame_error d)
  else
    let! d <- drain_to_consumers fuel d ;;
    let! d <- release_pending d ;;
    let! buf <- import_frame info ;;
    if negb buf then run! wb_release (wb_index info) ;; Done (frame_error d)
    else
      let! d <- maybe_request_idr (s64 (pts info)) d ;;
      let! ret <- Mpp.submit (InputFrame (s32 (wb_enc_width cf)) (s32 (wb_enc_height cf)) (s32 (wb_enc_hor_stride cf))
                                (s32 (wb_enc_ver_stride cf)) (s64 (pts info))) ;;
      run! mpp_buffer_put ;;
      if ret =? 0 then Done (submitted info (wb_index info) d)
      else run! wb_release (wb_index info) ;; Done (frame_error d).

Definition encode (fuel : nat) (info : enc_frame_info) d : io VideoEncoder :=
  if writeback cf then encode_wb fuel info d
  else
    let! d <- drain_to_consumers fuel d ;;
    let! e <- (if (s32 (hor_stride info) =? Mpp.cfg_hor_stride (encoder d)) &&
                  (s32 (ver_stride info) =? Mpp.cfg_ver_stride (encoder d)) then Done (encoder d)
               else Mpp.sync_strides (s32 (hor_stride info)) (s32 (ver_stride info)) (encoder d)) ;;
    let d := set_mpp d e (cur_width d) (cur_height d) in
    let! buf <- import_frame info ;;
    if negb buf then Done (frame_error d)
    else
      let! d <- maybe_request_idr (s64 (pts info)) d ;;
      let! ret <- Mpp.submit (InputFrame (s32 (width info)) (s32 (height info)) (s32 (hor_stride info))
                                (s32 (ver_stride info)) (s64 (pts info))) ;;
      run! mpp_buffer_put ;;
      if ret =? 0 then Done (submitted info (wb_pending_index d) d) else Done (frame_error d).

(** ** The thread *)
Definition run_job (fuel : nat) (fn : job) d : io VideoEncoder :=
  match fn with
  | SetParams w h =>
      Done (if (w =? video_frm_width d) && (h =? video_frm_height d) then d else set_video d w h true)
  | Rebuild => Done (set_video d (video_frm_width d) (video_frm_height d) true)
  | Posted => let! d <- drain_pending fuel d ;; run! consumer_posted ;; Done d
  end.

Definition handle_frame (fuel : nat) (info : enc_frame_info) d : io VideoEncoder :=
  let! wanted <- wants_frames ;;
  if negb wanted then let! _ <- release_wb_frame info ;; Done d
  else
    let!* (ok, d) <- ensure_encoder fuel d ;;
    if negb ok then let! _ <- release_wb_frame info ;; Done d
    else
      let! d <- encode fuel info d ;;
      if MAX_FRAME_ERROR_STREAK <=? frame_error_streak d then
        let! _ <- encoder_failed ;; Done (set_streak d 0)
      else Done d.

(** Nobody wants frames any more: the hardware is given back. *)
Definition stand_down (fuel : nat) d : io VideoEncoder :=
  let! wanted <- wants_frames ;;
  if negb wanted && Mpp.ready (encoder d) then teardown fuel d else Done d.

(** One turn; [false]: the thread is to end. *)
Definition loop_turn (fuel : nat) d : io (bool * VideoEncoder) :=
  get! task <- locked pop ;;
  let! _ <- for_consumers (fun k => trigger (consumer_tick k)) (consumers_ cf) ;;
  match task with
  | None => Done (true, d)
  | Some SHUTDOWN => Done (false, d)
  | Some (RUN fn) =>
      let! d <- run_job fuel fn d ;;
      let! _ <- recompute_wants_frames ;;
      let! d <- stand_down fuel d ;; Done (true, d)
  | Some (FRAME info) =>
      let! d <- handle_frame fuel info d ;;
      let! d <- stand_down fuel d ;; Done (true, d)
  end.

Fixpoint loop (fuel : nat) d : io VideoEncoder :=
  match fuel with
  | O => Die Diverge
  | S fuel =>
      let!* (go, d) <- loop_turn fuel d ;;
      if go then loop fuel d else teardown fuel d
  end.
End Encoder.

(** ** Capture by the display thread (src/main.cpp) *)
Record capture_counters := { wb_commit_fails : Z; wb_arm_fails : Z }.

Fixpoint claim_loop (n : nat) (i : Z) : io Z :=
  match n with
  | O => Done (-1)
  | S n => get! got <- wb_claim i ;; if got then Done i else claim_loop n (i + 1)
  end.

Definition claim : io Z := claim_loop (Z.to_nat WB_BUFFERS) 0.

(** The buffer to capture into, if one is free and can be armed. *)
Definition arm (st : capture_counters) : io (Z * capture_counters) :=
  let! idx <- claim ;;
  if idx <? 0 then Done (idx, st)
  else
    get! r <- arm_writeback idx ;;
    if r <? 0 then
      run! wb_release idx ;;
      Done (-1, {| wb_commit_fails := wb_commit_fails st; wb_arm_fails := wb_arm_fails st + 1 |})
    else Done (idx, {| wb_commit_fails := wb_commit_fails st; wb_arm_fails := 0 |}).

(** A picture [fb_id] is committed and, when somebody wants it, captured; the buffer's
    descriptor and size are those of [wb_bufs]. *)
Definition capture (bufs : Z -> Z * Z) (fb_id decoding_pts : Z) (st : capture_counters) : io capture_counters :=
  get! mode <- wb_mode_load ;;
  let! want <- (if mode then trigger wants_load else Done false) ;;
  let!* (idx, st) <- (if want && negb (fb_id =? 0) then arm st else Done (-1, st)) ;;
  get!* (commit_ret, fence) <- atomic_commit (0 <=? idx) ;;
  if idx <? 0 then Done st
  else if commit_ret =? 0 then
    let info := mk_frame (fst (bufs idx)) 0 0 0 0 (snd (bufs idx)) decoding_pts fence idx in
    let! _ <- writeback_frame info ;;
    Done {| wb_commit_fails := 0; wb_arm_fails := wb_arm_fails st |}
  else
    let! _ <- when (0 <=? fence) (trigger (close_fd fence)) ;;
    run! wb_release idx ;;
    let fails := wb_commit_fails st + 1 in
    let! _ <- when (3 <=? fails) (run! wb_mode_store false ;; trigger dvr_disable) ;;
    Done {| wb_commit_fails := fails; wb_arm_fails := wb_arm_fails st |}.
