(* ===== verification/EncoderThreads.v ===== *)
(** * Who owns what the encoder works with

    A capture buffer, the descriptor of a fence, and the objects of the MPP library are
    resources ([res]): a call may need some of them, obtain one or give one back.  At any
    time every resource belongs to one thread or to a frame in the queue.  [wpe] is the
    logic of a single thread under this discipline; [owned_sound] says that any number of
    threads that keep to it, interleaved in any way, never use or give back what they do
    not own. *)

From stdpp Require Import gmultiset.
From S2P Require Import Prelude Free TsWriter Encoder.
From stdpp Require Import list relations.
Open Scope Z_scope.

(** ** Resources *)
Inductive res := Slot (i : Z) | Fence (fd : Z) | Context | Config | Packet | Buffer | Frame.

#[export] Instance res_eq_dec : EqDecision res.
Proof. solve_decision. Defined.

Definition res_code (r : res) : nat * Z :=
  match r with
  | Slot i => (0%nat, i) | Fence fd => (1%nat, fd) | Context => (2%nat, 0) | Config => (3%nat, 0)
  | Packet => (4%nat, 0) | Buffer => (5%nat, 0) | Frame => (6%nat, 0)
  end.
Definition res_of_code (c : nat * Z) : option res :=
  let '(n, i) := c in
  match n with
  | 0%nat => Some (Slot i) | 1%nat => Some (Fence i) | 2%nat => Some Context | 3%nat => Some Config
  | 4%nat => Some Packet | 5%nat => Some Buffer | 6%nat => Some Frame | _ => None
  end.

#[export] Instance res_countable : Countable res.
Proof. refine (inj_countable res_code res_of_code _). by intros []. Defined.

Abbreviation resources := (gmultiset res).

(** [pp_wb_release] ignores a number that is no buffer's. *)
Definition slot (i : Z) : resources := if (0 <=? i) && (i <? WB_BUFFERS) then {[+ Slot i +]} else ∅.
Definition fence (fd : Z) : resources := if 0 <=? fd then {[+ Fence fd +]} else ∅.
Definition carries (fi : enc_frame_info) : resources := slot (wb_index fi) ⊎ fence (fence_fd fi).
Definition carried (fis : list enc_frame_info) : resources := foldr (fun fi m => carries fi ⊎ m) ∅ fis.
Definition queued (q : list Task) : resources := carried (frames_of q).

(** What a call needs, gives back and obtains, and what it may answer. *)
Definition gives {X} (c : ecall X) : resources :=
  match c with
  | wb_release i => slot i
  | close_fd fd => {[+ Fence fd +]}
  | mpp_enc_cfg_deinit => {[+ Config +]}
  | mpp_destroy => {[+ Context +]}
  | mpp_frame_deinit => {[+ Frame +]}
  | mpp_packet_deinit => {[+ Packet +]}
  | mpp_buffer_put => {[+ Buffer +]}
  | _ => ∅
  end.

Definition needs {X} (c : ecall X) : resources :=
  match c with
  | poll_fence fd _ => {[+ Fence fd +]}
  | arm_writeback i => {[+ Slot i +]}
  | mpp_init | mpi_reset | encode_get_packet => {[+ Context +]}
  | mpi_control ENC_GET_CFG | mpi_control ENC_SET_CFG => {[+ Context; Config +]}
  | mpi_control _ => {[+ Context +]}
  | encode_put_frame _ => {[+ Context; Frame +]}
  | mpp_enc_cfg_set_s32 _ _ => {[+ Config +]}
  | _ => gives c
  end.

Definition obtains {X} (c : ecall X) : X -> resources :=
  match c in ecall X return X -> resources with
  | wb_claim i => fun got => if got then {[+ Slot i +]} else ∅
  | atomic_commit _ => fun r => fence (snd r)
  | mpp_create => fun r => if r =? 0 then {[+ Context +]} else ∅
  | mpp_enc_cfg_init => fun r => if r =? 0 then {[+ Config +]} else ∅
  | mpp_frame_init => fun _ => {[+ Frame +]}
  | encode_get_packet => fun g => match g with Got _ _ => {[+ Packet +]} | _ => ∅ end
  | mpp_buffer_import _ _ => fun ok => if ok then {[+ Buffer +]} else ∅
  | _ => fun _ => ∅
  end.

(** A fence comes only with a capture that was armed, and only an existing buffer can be
    claimed. *)
Definition plausible {X} (c : ecall X) : X -> Prop :=
  match c in ecall X return X -> Prop with
  | wb_claim i => fun got => got = true -> 0 <= i < WB_BUFFERS
  | atomic_commit armed => fun r => armed = false -> snd r < 0
  | _ => fun _ => True
  end.

Section Logic.
(** What is known of every frame in the queue. *)
Context (frame_ok : enc_frame_info -> Prop).
Definition queue_ok (q : list Task) : Prop := Forall frame_ok (frames_of q).

(** [h]: what the thread owns. *)
Definition spec {X} (c : ecall X) (h : resources) : (X -> resources -> Prop) -> Prop :=
  match c in ecall X return (X -> resources -> Prop) -> Prop with
  | locked f => fun Q => forall q, queue_ok q ->
      queue_ok (snd (f q)) /\ queued (snd (f q)) ⊆ h ⊎ queued q /\
      Q (fst (f q)) ((h ⊎ queued q) ∖ queued (snd (f q)))
  | c => fun Q => needs c ⊆ h /\ forall x, plausible c x -> Q x ((h ∖ gives c) ⊎ obtains c x)
  end.

Fixpoint wpe {A} (p : io A) (h : resources) (Q : A -> resources -> Prop) : Prop :=
  match p with
  | Done a => Q a h
  | Die c => c = Diverge
  | Call c k => spec c h (fun x h' => wpe (k x) h' Q)
  end.

Lemma ecall_spec_mono {X} (c : ecall X) h (P Q : X -> resources -> Prop) :
  spec c h P -> (forall x h', P x h' -> Q x h') -> spec c h Q.
Proof.
  intros Hs HPQ. destruct c; cbn [spec] in *; try (destruct Hs as [Hn Hs]; split; [exact Hn|]; intros; apply HPQ; by apply Hs).
  intros q Hq. destruct (Hs q Hq) as (H1 & H2 & H3). split_and!; auto.
Qed.

Lemma wpe_mono {A} (p : io A) h (P Q : A -> resources -> Prop) :
  wpe p h P -> (forall a h', P a h' -> Q a h') -> wpe p h Q.
Proof.
  intros Hp HPQ. revert h Hp. induction p as [a|c|X c k IH]; intros h Hp; cbn [wpe] in *; [by apply HPQ|done|].
  eapply ecall_spec_mono; [exact Hp|]. intros. by apply IH.
Qed.

Lemma wpe_bind {A B} (m : io A) (k : A -> io B) h Q :
  wpe m h (fun a h' => wpe (k a) h' Q) -> wpe (io_bind m k) h Q.
Proof.
  revert h. induction m as [a|c|X c f IH]; intros h Hm; cbn [wpe io_bind] in *; [done|done|].
  eapply ecall_spec_mono; [exact Hm|]. intros. by apply IH.
Qed.

(** ** The world the threads share, and their steps *)
(** A buffer is busy while its [Slot] is live. *)
Record world := mk_world { tasks : list Task; wants : bool; idr : bool; wb_mode : bool; live : resources }.

Definition answers {X} (c : ecall X) (w : world) : X -> Prop :=
  match c in ecall X return X -> Prop with
  | locked f => fun x => x = fst (f (tasks w))
  | wants_load => fun x => x = wants w
  | idr_load => fun x => x = idr w
  | wb_mode_load => fun x => x = wb_mode w
  | wb_claim i => fun x => if x : bool then 0 <= i < WB_BUFFERS /\ Slot i ∉ live w else Slot i ∈ live w
  | atomic_commit armed => fun x => snd x < 0 \/ armed = true /\ Fence (snd x) ∉ live w
  | _ => fun _ => True
  end.

Definition after {X} (c : ecall X) (w : world) (x : X) : world :=
  let live' := (live w ∖ gives c) ⊎ obtains c x in
  match c with
  | locked f => mk_world (snd (f (tasks w))) (wants w) (idr w) (wb_mode w) (live w)
  | wants_store b => mk_world (tasks w) b (idr w) (wb_mode w) (live w)
  | idr_store b => mk_world (tasks w) (wants w) b (wb_mode w) (live w)
  | wb_mode_store b => mk_world (tasks w) (wants w) (idr w) b (live w)
  | _ => mk_world (tasks w) (wants w) (idr w) (wb_mode w) live'
  end.

Context (entry : io unit -> Prop).

Inductive step : world * list (io unit) -> world * list (io unit) -> Prop :=
| step_call w l X (c : ecall X) k r x :
    answers c w x -> step (w, l ++ Call c k :: r) (after c w x, l ++ k x :: r)
| step_enter w ps p : entry p -> step (w, ps) (w, p :: ps).

(** ** Soundness *)
Definition total (hs : list resources) : resources := foldr (⊎) ∅ hs.

Lemma total_middle l h r : total (l ++ h :: r) = h ⊎ total (l ++ r).
Proof.
  induction l as [|h' l IH]; [done|]. change (h' ⊎ total (l ++ h :: r) = h ⊎ (h' ⊎ total (l ++ r))).
  rewrite IH. multiset_solver.
Qed.

Definition over (_ : unit) (h : resources) : Prop := h = ∅.
Definition unique (m : resources) : Prop :=
  forall r, match r with Slot _ | Fence _ => (multiplicity r m <= 1)%nat | _ => True end.

Definition owned (s : world * list (io unit)) : Prop :=
  let '(w, ps) := s in
  exists hs, Forall2 (fun p h => wpe p h over) ps hs /\
    live w = queued (tasks w) ⊎ total hs /\ queue_ok (tasks w) /\ unique (live w).

Hypothesis entry_owns : forall p, entry p -> wpe p ∅ over.

Lemma answers_plausible {X} (c : ecall X) w x : answers c w x -> plausible c x.
Proof.
  destruct c; cbn; try done.
  - by destruct x; [intros [? _]|].
  - intros [?|[-> _]]; [done|done].
Qed.

Lemma unique_grow m r : unique m -> r ∉ m -> unique ({[+ r +]} ⊎ m).
Proof.
  intros Hu Hr s. specialize (Hu s). rewrite multiplicity_disj_union. rewrite elem_of_multiplicity in Hr.
  rewrite multiplicity_singleton. destruct (decide (s = r)) as [<-|]; destruct s; try done; lia.
Qed.

Lemma unique_shrink m m' : unique m -> m' ⊆ m -> unique m'.
Proof. intros Hu Hs r. specialize (Hu r). specialize (Hs r). destruct r; try done; lia. Qed.

Lemma gives_needs {X} (c : ecall X) : gives c ⊆ needs c.
Proof. destruct c; try done; apply gmultiset_empty_subseteq. Qed.

Lemma unique_kind m r : match r with Slot _ | Fence _ => False | _ => True end -> unique m -> unique (m ⊎ {[+ r +]}).
Proof.
  intros Hr Hu s. specialize (Hu s). rewrite multiplicity_disj_union.
  rewrite multiplicity_singleton. destruct (decide (s = r)) as [<-|]; destruct s; try done; lia.
Qed.

Lemma unique_obtains {X} (c : ecall X) w x :
  answers c w x -> unique (live w) -> unique ((live w ∖ gives c) ⊎ obtains c x).
Proof.
  intros Ha Hu.
  assert (Hl : unique (live w ∖ gives c)) by (eapply unique_shrink; [exact Hu|multiset_solver]).
  assert (Hnone : unique ((live w ∖ gives c) ⊎ ∅)) by (by rewrite (right_id_L ∅ (⊎))).
  destruct c; try done; cbn [obtains] in *; try (by apply unique_kind).
  - destruct x; [|done]. rewrite (comm_L (⊎)). apply unique_grow; [done|]. destruct Ha as [_ Ha].
    cbn [gives] in *. multiset_solver.
  - unfold fence. destruct (Z.leb_spec 0 (snd x)); [|done]. rewrite (comm_L (⊎)). apply unique_grow; [done|].
    cbn in Ha. destruct Ha as [?|[_ Ha]]; [lia|]. cbn [gives] in *. multiset_solver.
  - destruct (x =? 0); [by apply unique_kind|done].
  - destruct (x =? 0); [by apply unique_kind|done].
  - destruct x; try done. by apply unique_kind.
  - destruct x; [by apply unique_kind|done].
Qed.

Lemma owned_step s1 s2 : owned s1 -> step s1 s2 -> owned s2.
Proof.
  intros Ho Hs. destruct Hs as [w l X c k r x Ha|w ps p Hp]; destruct Ho as (hs & Hf & Hl & Hq & Hu).
  - apply Forall2_app_inv_l in Hf as (l' & r0 & Hl' & Hr & ->).
    apply Forall2_cons_inv_l in Hr as (h & r' & Hc & Hr & ->). rewrite total_middle in Hl.
    cbn [wpe] in Hc. pose proof (answers_plausible c w x Ha) as Hx. pose proof (gives_needs c) as Hg.
    pose proof (unique_obtains c w x Ha Hu) as Hu'.
    destruct c; cbn [spec after answers] in *;
      try (destruct Hc as [Hn Hk]; specialize (Hk x Hx); eexists (l' ++ _ :: r'); split_and!;
           [apply Forall2_app; [done|constructor; [exact Hk|done]]
           |cbn [live tasks]; rewrite total_middle; multiset_solver|done
           |first [exact Hu' | eapply unique_shrink; [exact Hu|cbn; multiset_solver]]]).
    destruct (Hc (tasks w) Hq) as (Hq' & Hsub & Hk). subst x. eexists (l' ++ _ :: r'). split_and!.
    + apply Forall2_app; [done|]. constructor; [exact Hk|done].
    + cbn [live tasks]. rewrite total_middle. multiset_solver.
    + done.
    + done.
  - exists (∅ :: hs). split_and!; [|cbn [total foldr]; by rewrite (left_id_L ∅ (⊎))|done|done].
    constructor; [by apply entry_owns|done].
Qed.

Lemma owned_sound s1 s2 : owned s1 -> rtc step s1 s2 -> owned s2.
Proof. intros Ho Hr. induction Hr as [|s1 s2 s3 Hs _ IH]; [done|]. apply IH. by eapply owned_step. Qed.

(** What it means for the threads: the next call of each has what it needs, none dies
    but for fuel, and when all are over nothing is live but what the queue carries. *)
Lemma owned_legal w ps :
  owned (w, ps) ->
  (forall p X (c : ecall X) k, p ∈ ps -> p = Call c k -> match c with locked _ => True | _ => needs c ⊆ live w end) /\
  (forall p c, p ∈ ps -> p = Die c -> c = Diverge) /\
  (Forall (fun p => p = Done tt) ps -> live w = queued (tasks w)).
Proof.
  intros (hs & Hf & Hl & _ & _). split_and!.
  - intros p X c k Hp ->. apply list_elem_of_split in Hp as (l & r & ->).
    apply Forall2_app_inv_l in Hf as (l' & r0 & _ & Hr & ->).
    apply Forall2_cons_inv_l in Hr as (h & r' & Hc & _ & ->). rewrite total_middle in Hl. cbn [wpe] in Hc.
    destruct c; cbn [spec] in Hc; try done; (destruct Hc as [Hn _]; rewrite Hl; multiset_solver).
  - intros p c Hp ->. apply list_elem_of_split in Hp as (l & r & ->).
    apply Forall2_app_inv_l in Hf as (l' & r0 & _ & Hr & ->).
    apply Forall2_cons_inv_l in Hr as (h & r' & Hc & _ & ->). done.
  - intros Hd. rewrite Hl. clear Hl. induction Hf as [|p h ps hs Hp _ IH]; [cbn; multiset_solver|].
    apply Forall_cons_1 in Hd as [-> Hd]. cbn [wpe over] in Hp. rewrite Hp. cbn [total foldr].
    rewrite (left_id_L ∅ (⊎)). by apply IH.
Qed.
End Logic.
