(* ===== verification/EncoderProps.v ===== *)
(** * The encoder keeps its resources

    Every program of the encoder and of the capture keeps to the discipline of
    [EncoderThreads]: between two turns the encoder's thread owns the buffer MPP still
    reads ([wb_pending_index]) and the MPP objects it has made, and nothing else. *)

From stdpp Require Import gmultiset.
From S2P Require Import Prelude Free TsWriter TsProps Encoder EncoderThreads.
From stdpp Require Import list relations.
Open Scope Z_scope.

Definition mpp_res (e : Mpp.MppEncoder) : resources :=
  (if Mpp.ctx e then {[+ Context +]} else ∅) ⊎ (if Mpp.cfg e then {[+ Config +]} else ∅).
Definition mine (d : VideoEncoder) : resources := slot (wb_pending_index d) ⊎ mpp_res (encoder d).

(** A context always comes with a configuration. *)
Definition whole (e : Mpp.MppEncoder) : Prop := Mpp.cfg e = Mpp.ctx e.
Definition idle_ok (d : VideoEncoder) : Prop := whole (encoder d) /\ draining_ d = false /\ 0 <= last_idr_pts_ms d.

Section Encoder.
Context (cf : enc_config).

Definition frame_ok (fi : enc_frame_info) : Prop :=
  0 <= pts fi < 2 ^ 63 /\ (writeback cf = false -> fence_fd fi < 0 /\ wb_index fi < 0).
Record config_ok : Prop := {
  cfo_bitrate : 0 <= bitrate cf * 3 < 2 ^ 31;
  cfo_fps : 0 <= enc_fps cf * GOP_SECONDS < 2 ^ 31
}.
Local Abbreviation wpe := (EncoderThreads.wpe frame_ok).


Lemma gmultiset_difference_empty (h : resources) : h ∖ ∅ = h.
Proof. multiset_solver. Qed.

Definition plain_call {X} (c : ecall X) : Prop := match c with locked _ => False | _ => True end.

Lemma wpe_call {A X} (c : ecall X) (k : X -> io A) h Q :
  plain_call c -> needs c ⊆ h ->
  (forall x, plausible c x -> wpe (k x) ((h ∖ gives c) ⊎ obtains c x) Q) -> wpe (Call c k) h Q.
Proof. intros Hp Hn Hk. cbn [EncoderThreads.wpe]. destruct c; try done; by split. Qed.

Lemma wpe_done {A} (a : A) h (Q : A -> resources -> Prop) : Q a h -> wpe (Done a) h Q.
Proof. done. Qed.

(** A call that gives nothing back and makes nothing. *)
Lemma wpe_use {A X} (c : ecall X) (k : X -> io A) h Q :
  plain_call c -> needs c ⊆ h -> gives c = ∅ -> (forall x, obtains c x = ∅) ->
  (forall x, wpe (k x) h Q) -> wpe (Call c k) h Q.
Proof.
  intros Hp Hn Hg Ho Hk. apply wpe_call; [done|done|]. intros x _.
  rewrite Hg, Ho, gmultiset_difference_empty, (right_id_L ∅ (⊎)). apply Hk.
Qed.

Ltac mcbn := cbn [EncoderThreads.wpe Mpp.ctx Mpp.cfg Mpp.new].
Ltac wbind := apply wpe_bind.
Ltac wuse := apply wpe_use; [done| |done|done|intros ?]; [try multiset_solver|].
Ltac wcall := apply wpe_call; [done|try multiset_solver|intros ? ?; cbn [gives obtains]].

(** ** Frames *)
Lemma release_wb_frame_spec fi h : wpe (release_wb_frame fi) (carries fi ⊎ h) (fun _ h' => h' = h).
Proof.
  unfold release_wb_frame, carries, fence. wbind. unfold when.
  assert (Hslot : forall h1, h1 = slot (wb_index fi) ⊎ h ->
    wpe (if 0 <=? wb_index fi then trigger (wb_release (wb_index fi)) else Done tt) h1 (fun _ h' => h' = h)).
  { intros h1 ->. destruct (Z.leb_spec 0 (wb_index fi)).
    - wcall. cbn [EncoderThreads.wpe]. multiset_solver.
    - cbn [EncoderThreads.wpe]. unfold slot. rewrite (proj2 (Z.leb_gt 0 (wb_index fi))) by lia. cbn [andb]. multiset_solver. }
  destruct (Z.leb_spec 0 (fence_fd fi)).
  - wcall. cbn [EncoderThreads.wpe]. apply Hslot. multiset_solver.
  - cbn [EncoderThreads.wpe]. apply Hslot. multiset_solver.
Qed.

Lemma release_all_spec fis h : wpe (release_all fis) (carried fis ⊎ h) (fun _ h' => h' = h).
Proof.
  revert h. induction fis as [|fi fis IH]; intros h; cbn [release_all carried foldr].
  { cbn [EncoderThreads.wpe]. by rewrite (left_id_L ∅ (⊎)). }
  wbind. rewrite <- (assoc_L (⊎)). eapply wpe_mono; [apply release_wb_frame_spec|]. intros _ h' ->. apply IH.
Qed.

Lemma frames_of_app q1 q2 : frames_of (q1 ++ q2) = frames_of q1 ++ frames_of q2.
Proof. apply omap_app. Qed.
Lemma carried_app l1 l2 : carried (l1 ++ l2) = carried l1 ⊎ carried l2.
Proof.
  induction l1 as [|fi l1 IH]; [change (carried l2 = ∅ ⊎ carried l2); multiset_solver|].
  change (carries fi ⊎ carried (l1 ++ l2) = carries fi ⊎ carried l1 ⊎ carried l2). rewrite IH. multiset_solver.
Qed.
Lemma queued_app q1 q2 : queued (q1 ++ q2) = queued q1 ⊎ queued q2.
Proof. unfold queued. by rewrite frames_of_app, carried_app. Qed.
Lemma no_frames q : frames_of (List.filter (fun t => negb (is_frame t)) q) = [].
Proof. induction q as [|[] q IH]; by cbn. Qed.

Lemma writeback_frame_spec info :
  frame_ok info -> wpe (writeback_frame info) (carries info) (fun _ h' => h' = ∅).
Proof.
  intros Hf. unfold writeback_frame. cbn [EncoderThreads.wpe spec]. intros q Hq. unfold push_frame.
  destruct (_ <=? _); cbn [fst snd].
  - split_and!; [done|multiset_solver|]. replace ((carries info ⊎ queued q) ∖ queued q) with (carries info ⊎ ∅) by multiset_solver.
    apply release_wb_frame_spec.
  - assert (E : queued (q ++ [FRAME info]) = queued q ⊎ carries info).
    { rewrite queued_app. unfold queued at 2. cbn [frames_of omap list_omap carried foldr]. multiset_solver. }
    rewrite E. split_and!; [|multiset_solver|cbn [EncoderThreads.wpe]; multiset_solver].
    unfold queue_ok. rewrite frames_of_app. apply Forall_app. split; [done|]. by constructor.
Qed.

Lemma enqueue_spec t drop : is_frame t = false -> wpe (enqueue t drop) ∅ over.
Proof.
  intros Ht. unfold enqueue. cbn [EncoderThreads.wpe spec]. intros q Hq.
  assert (Et : frames_of [t] = []) by (by destruct t).
  destruct drop; cbn [drop_pending_frames fst snd].
  - assert (E : queued (List.filter (fun t => negb (is_frame t)) q ++ [t]) = ∅).
    { unfold queued. by rewrite frames_of_app, no_frames, Et. }
    rewrite E. split_and!; [|multiset_solver|].
    { unfold queue_ok. rewrite frames_of_app, no_frames, Et. constructor. }
    replace ((∅ ⊎ queued q) ∖ ∅) with (carried (frames_of q) ⊎ ∅) by (unfold queued; multiset_solver).
    apply release_all_spec.
  - assert (E : queued (q ++ [t]) = queued q) by (unfold queued; by rewrite frames_of_app, Et, app_nil_r).
    rewrite E. split_and!; [|multiset_solver|cbn [release_all EncoderThreads.wpe]; unfold over; multiset_solver].
    unfold queue_ok. by rewrite frames_of_app, Et, app_nil_r.
Qed.

(** ** Consumers *)
Lemma any_active_spec ks h : wpe (any_active ks) h (fun _ h' => h' = h).
Proof. induction ks as [|k ks IH]; cbn [any_active]; [done|]. wuse. by destruct x. Qed.

Lemma recompute_spec h : wpe (recompute_wants_frames cf) h (fun _ h' => h' = h).
Proof. wbind. eapply wpe_mono; [apply any_active_spec|]. intros b h' ->. by wuse. Qed.

Lemma for_consumers_spec f ks h :
  (forall k, wpe (f k) h (fun _ h' => h' = h)) -> wpe (for_consumers f ks) h (fun _ h' => h' = h).
Proof.
  intros Hf. induction ks as [|k ks IH]; cbn [for_consumers]; [done|]. wbind.
  eapply wpe_mono; [apply Hf|]. by intros _ h' ->.
Qed.

Lemma encoder_failed_spec h : wpe (encoder_failed cf) h (fun _ h' => h' = h).
Proof.
  wbind. eapply wpe_mono; [apply for_consumers_spec; intros; by wuse|]. intros _ h' ->. apply recompute_spec.
Qed.

(** What the output of the encoder does not change. *)
Definition same_hold (d d' : VideoEncoder) : Prop :=
  encoder d' = encoder d /\ wb_pending_index d' = wb_pending_index d /\ last_idr_pts_ms d' = last_idr_pts_ms d.

Lemma same_hold_trans d1 d2 d3 : same_hold d1 d2 -> same_hold d2 d3 -> same_hold d1 d3.
Proof. unfold same_hold. intuition congruence. Qed.
Lemma same_hold_mine d d' : same_hold d d' -> mine d' = mine d.
Proof. intros (E1 & E2 & _). unfold mine. by rewrite E1, E2. Qed.

Lemma emit_spec data d h :
  wpe (emit cf data d) h (fun d' h' => h' = h /\ same_hold d d' /\ draining_ d' = draining_ d).
Proof.
  unfold emit. destruct (match submitted_pts d with [] => _ | _ => _ end) as [p fifo].
  rewrite au_is_keyframe_has_irap. cbn [lift io_bind]. wbind. eapply wpe_mono.
  - apply for_consumers_spec. intros k. wuse. destruct x; cbn [when]; [by wuse|done].
  - intros _ h' ->. done.
Qed.

(** ** The hardware encoder *)
Lemma set_all_spec l h : Config ∈ h -> wpe (Mpp.set_all l) h (fun _ h' => h' = h).
Proof. intros Hh. induction l as [|[name v] l IH]; cbn [Mpp.set_all]; [done|]. by wuse. Qed.

Lemma controls_spec cs h : Context ∈ h -> Config ∈ h -> wpe (Mpp.controls cs) h (fun _ h' => h' = h).
Proof.
  intros H1 H2. induction cs as [|c cs IH]; cbn [Mpp.controls]; [done|].
  apply wpe_use; [done|destruct c; multiset_solver|done|done|]. intros r. by destruct (r =? 0).
Qed.

Lemma cleanup_spec e h : wpe (Mpp.cleanup e) (mpp_res e ⊎ h) (fun e' h' => e' = Mpp.new /\ h' = h).
Proof.
  unfold Mpp.cleanup, mpp_res, when. wbind. destruct (Mpp.cfg e), (Mpp.ctx e); cbn [io_bind];
    repeat first [wcall; cbn [EncoderThreads.wpe io_bind] | cbn [EncoderThreads.wpe io_bind trigger]];
    (split; [done|multiset_solver]).
Qed.

Lemma mpp_init_spec w hh hor ver fps bps e h :
  Mpp.ctx e = false -> Mpp.cfg e = false -> 0 <= bps * 3 < 2 ^ 31 -> 0 <= fps * GOP_SECONDS < 2 ^ 31 ->
  wpe (Mpp.init w hh hor ver fps bps e) h (fun '(ok, e') h' =>
    whole e' /\ Mpp.ctx e' = ok /\ h' = mpp_res e' ⊎ h).
Proof.
  intros Hx Hc Hb Hf. unfold Mpp.init.
  assert (Hfail : forall e1 h1, h1 = mpp_res e1 ⊎ h ->
    wpe (let! e' <- Mpp.cleanup e1 ;; Done (false, e')) h1 (fun '(ok, e') h' =>
      whole e' /\ Mpp.ctx e' = ok /\ h' = mpp_res e' ⊎ h)).
  { intros e1 h1 ->. wbind. eapply wpe_mono; [apply cleanup_spec|]. intros e' h' [-> ->].
    mcbn. split_and!; [done|done|]. unfold mpp_res. mcbn. multiset_solver. }
  wcall. destruct (x =? 0); cbn [negb].
  2: { unfold whole, mpp_res. mcbn. rewrite Hx, Hc. split_and!; [done|done|multiset_solver]. }
  wuse. destruct (x0 =? 0); cbn [negb]; [|apply Hfail; unfold mpp_res; mcbn; rewrite Hc; multiset_solver].
  wcall. destruct (x1 =? 0); cbn [negb]; [|apply Hfail; unfold mpp_res; mcbn; rewrite Hc; multiset_solver].
  apply wpe_use; [done|cbn [needs]; multiset_solver|done|done|]. intros r2.
  destruct (r2 =? 0); cbn [negb]; [|apply Hfail; unfold mpp_res; mcbn; multiset_solver].
  unfold c_int. rewrite (proj2 (andb_true_iff _ _)) by lia. cbn [lift io_bind].
  rewrite (proj2 (andb_true_iff _ _)) by lia. cbn [lift io_bind]. wbind.
  eapply wpe_mono; [apply set_all_spec; multiset_solver|]. intros _ h' ->. wbind.
  eapply wpe_mono; [apply controls_spec; multiset_solver|]. intros ok h' ->.
  destruct ok; [|apply Hfail; unfold mpp_res; mcbn; multiset_solver].
  unfold whole, mpp_res. mcbn. split_and!; [done|done|multiset_solver].
Qed.

Lemma submit_spec f h : Context ∈ h -> wpe (Mpp.submit f) h (fun _ h' => h' = h).
Proof.
  intros Hh. unfold Mpp.submit. wcall. apply wpe_use; [done|cbn [needs]; multiset_solver|done|done|]. intros r.
  wcall. cbn [EncoderThreads.wpe]. multiset_solver.
Qed.

Section Output.
Context {T : Type} (I : T -> Prop).

Lemma drain_spec fuel on_nal (s : T) h :
  Context ∈ h -> I s ->
  (forall data s h, I s -> wpe (on_nal data s) h (fun s' h' => I s' /\ h' = h)) ->
  wpe (Mpp.drain fuel on_nal s) h (fun s' h' => I s' /\ h' = h).
Proof.
  intros Hh Hs Hn. revert s Hs. induction fuel as [|fuel IH]; intros s Hs; cbn [Mpp.drain]; wcall;
    rewrite gmultiset_difference_empty; (destruct x; [by rewrite (right_id_L ∅ (⊎))..|]); [done|].
  wbind. eapply (wpe_mono _ _ _ (fun s' h' => I s' /\ h' = h ⊎ {[+ Packet +]})).
  - destruct (0 <? zlen data); [by apply Hn|done].
  - intros s' h' [Hs' ->]. wcall. rewrite (right_id_L ∅ (⊎)).
    replace ((h ⊎ {[+ Packet +]}) ∖ {[+ Packet +]}) with h by multiset_solver. by apply IH.
Qed.

Lemma flush_loop_spec fuel deadline on_nal (s : T) h :
  Context ∈ h -> I s ->
  (forall data s h, I s -> wpe (on_nal data s) h (fun '(_, s') h' => I s' /\ h' = h)) ->
  wpe (Mpp.flush_loop fuel deadline on_nal s) h (fun s' h' => I s' /\ h' = h).
Proof.
  intros Hh Hs Hn. revert s Hs. induction fuel as [|fuel IH]; intros s Hs; cbn [Mpp.flush_loop]; wuse;
    (destruct (deadline <=? x); [done|]); wcall; rewrite gmultiset_difference_empty;
    (destruct x0; [..|]); rewrite ?(right_id_L ∅ (⊎)); try done; try (by apply IH).
  wbind. eapply (wpe_mono _ _ _ (fun '(_, s') h' => I s' /\ h' = h ⊎ {[+ Packet +]})).
  - destruct (0 <? zlen data); [by apply Hn|done].
  - intros [go s'] h' [Hs' ->]. wcall. rewrite (right_id_L ∅ (⊎)).
    replace ((h ⊎ {[+ Packet +]}) ∖ {[+ Packet +]}) with h by multiset_solver.
    destruct (eos || negb go); [done|by apply IH].
Qed.

Lemma flush_spec fuel on_nal (s : T) h :
  Context ∈ h -> I s ->
  (forall data s h, I s -> wpe (on_nal data s) h (fun '(_, s') h' => I s' /\ h' = h)) ->
  wpe (Mpp.flush fuel on_nal s) h (fun s' h' => I s' /\ h' = h).
Proof.
  intros Hh Hs Hn. unfold Mpp.flush. wbind. eapply wpe_mono; [by apply submit_spec|]. intros _ h' ->.
  apply wpe_use; [done|cbn [needs]; multiset_solver|done|done|]. intros _. wuse. by apply flush_loop_spec.
Qed.
End Output.

(** ** Between two turns *)
Hypothesis Hcf : config_ok.

Lemma drain_to_consumers_spec fuel d h :
  draining_ d = false -> Context ∈ h ->
  wpe (drain_to_consumers cf fuel d) h (fun d' h' => h' = h /\ same_hold d d' /\ draining_ d' = false).
Proof.
  intros Hd Hh. unfold drain_to_consumers. rewrite Hd. wbind. eapply wpe_mono.
  - apply (drain_spec (fun d' => same_hold d d')); [done|done|]. intros data s h0 Hs.
    eapply wpe_mono; [apply emit_spec|]. intros d' h' (-> & Hd' & _). split; [by eapply same_hold_trans|done].
  - intros d' h' [Hs ->]. done.
Qed.

Lemma release_pending_spec d h :
  wpe (release_pending d) (slot (wb_pending_index d) ⊎ h) (fun d' h' =>
    h' = h /\ slot (wb_pending_index d') = ∅ /\ encoder d' = encoder d /\ draining_ d' = draining_ d /\
    last_idr_pts_ms d' = last_idr_pts_ms d).
Proof.
  unfold release_pending. destruct (Z.leb_spec 0 (wb_pending_index d)).
  - wcall. mcbn. split_and!; [multiset_solver|done|done|done|done].
  - mcbn. assert (E : slot (wb_pending_index d) = ∅) by (unfold slot; by zif).
    rewrite E. split_and!; [multiset_solver|done|done|done|done].
Qed.

Lemma context_in e h : Mpp.ctx e = true -> Context ∈ mpp_res e ⊎ h.
Proof. intros E. unfold mpp_res. rewrite E. multiset_solver. Qed.

Lemma teardown_spec fuel d h :
  idle_ok d ->
  wpe (teardown cf fuel d) (mine d ⊎ h) (fun d' h' =>
    idle_ok d' /\ encoder d' = Mpp.new /\ mine d' = ∅ /\ h' = h).
Proof.
  intros (Hw & Hd & Hi). unfold teardown. wbind.
  eapply (wpe_mono _ _ _ (fun d' h' => same_hold d d' /\ draining_ d' = false /\ h' = mine d ⊎ h)).
  - destruct (Mpp.ready (encoder d)) eqn:Er; [|done].
    assert (Hc : Context ∈ mine d ⊎ h) by (unfold mine, mpp_res; unfold Mpp.ready in Er; rewrite Er; multiset_solver).
    wbind. eapply wpe_mono; [by apply drain_to_consumers_spec|]. intros d1 h1 (-> & Hs1 & Hd1).
    eapply wpe_mono.
    + apply (flush_spec (fun d' => same_hold d d' /\ draining_ d' = false)); [done|done|].
      intros data s h0 [Hs Hsd]. destruct (_ <=? _); [done|]. wbind.
      eapply wpe_mono; [apply emit_spec|]. intros d' h' (-> & Hs' & Hd'). mcbn.
      split; [|done]. split; [by eapply same_hold_trans|by rewrite Hd'].
    + intros d' h' [[Hs Hsd] ->]. done.
  - intros d1 h1 (Hs & Hd1 & ->). wbind. rewrite <- (same_hold_mine _ _ Hs). unfold mine. rewrite <- (assoc_L (⊎)).
    eapply wpe_mono; [apply release_pending_spec|]. intros d2 h2 (-> & Hp & He & Hd2 & Hl).
    wbind. rewrite <- He. eapply wpe_mono; [apply cleanup_spec|]. intros e' h' [-> ->]. wuse. mcbn.
    destruct Hs as (_ & _ & Hl1).
    split_and!; [|done|cbn [wb_pending_index set_stream set_mpp encoder]; by rewrite Hp|done].
    split_and!; [done|cbn; congruence|cbn; by rewrite Hl, Hl1].
Qed.

Lemma init_spec d h :
  idle_ok d -> encoder d = Mpp.new ->
  wpe (init cf d) (mine d ⊎ h) (fun '(ok, d') h' =>
    idle_ok d' /\ (ok = true -> Mpp.ctx (encoder d') = true) /\ h' = mine d' ⊎ h).
Proof.
  intros Hok He. unfold init. destruct (if writeback cf then _ else _) as [[[w hh] hor] ver].
  destruct (_ && _); [by mcbn|]. cbv zeta. destruct (_ || _); [by mcbn|]. wbind.
  assert (Em : mine d ⊎ h = slot (wb_pending_index d) ⊎ h).
  { unfold mine, mpp_res. rewrite He. mcbn. multiset_solver. }
  rewrite Em. eapply wpe_mono; [apply mpp_init_spec; [by rewrite He|by rewrite He|apply Hcf|apply Hcf]|].
  intros [ok e'] h' (Hw & Hc & ->). destruct Hok as (_ & Hd & Hi).
  destruct ok; cbn [negb].
  - wuse. mcbn. split_and!; [by split_and!|done|]. unfold mine. cbn [wb_pending_index set_mpp encoder]. multiset_solver.
  - mcbn. split_and!; [by split_and!|done|]. unfold mine. cbn [wb_pending_index set_mpp encoder]. multiset_solver.
Qed.

Lemma ensure_encoder_spec fuel d h :
  idle_ok d ->
  wpe (ensure_encoder cf fuel d) (mine d ⊎ h) (fun '(ok, d') h' =>
    idle_ok d' /\ (ok = true -> Mpp.ctx (encoder d') = true) /\ h' = mine d' ⊎ h).
Proof.
  intros Hok. unfold ensure_encoder. destruct (_ && _) eqn:Er.
  { mcbn. split_and!; [done| |done]. intros _. by apply andb_true_iff in Er as [Er _]. }
  destruct (_ <=? _); [by mcbn|]. wbind.
  change (mine d) with (mine (set_attempts d (init_attempts d + 1) (geometry_dirty d))).
  eapply wpe_mono; [by apply teardown_spec|]. intros d1 h1 (Hok1 & He1 & Hm1 & ->). wbind.
  eapply (wpe_mono _ _ _ (fun '(ok, d') h' =>
    idle_ok d' /\ (ok = true -> Mpp.ctx (encoder d') = true) /\ h' = mine d' ⊎ h)).
  { assert (E : h = mine (set_attempts d1 (init_attempts d1) false) ⊎ h).
    { change (mine (set_attempts d1 (init_attempts d1) false)) with (mine d1). rewrite Hm1. multiset_solver. }
    rewrite E at 1. by apply init_spec. }
  intros [ok d2] h2 (Hok2 & Hr & ->). destruct ok; cbn [negb].
  - wbind. eapply wpe_mono; [apply for_consumers_spec; intros; by wuse|]. by intros _ h' ->.
  - wbind. eapply (wpe_mono _ _ _ (fun _ h' => h' = mine d2 ⊎ h)).
    + unfold when. destruct (_ <=? _); [apply encoder_failed_spec|done].
    + by intros _ h' ->.
Qed.

(** ** One frame *)
Lemma request_idr_spec e h : (Mpp.ctx e = true -> Context ∈ h) -> wpe (Mpp.request_idr e) h (fun _ h' => h' = h).
Proof.
  intros Hh. unfold Mpp.request_idr, when. destruct (Mpp.ctx e); [|done].
  apply wpe_use; [done|specialize (Hh eq_refl); cbn [needs]; multiset_solver|done|done|]. by intros r.
Qed.

Lemma maybe_request_idr_spec p d h :
  0 <= p < 2 ^ 63 -> 0 <= last_idr_pts_ms d -> (Mpp.ctx (encoder d) = true -> Context ∈ h) ->
  wpe (maybe_request_idr p d) h (fun d' h' =>
    h' = h /\ encoder d' = encoder d /\ wb_pending_index d' = wb_pending_index d /\ draining_ d' = draining_ d /\
    0 <= last_idr_pts_ms d').
Proof.
  intros Hp Hl Hh. unfold maybe_request_idr. wuse. wbind.
  eapply (wpe_mono _ _ _ (fun (_ : bool) h' => h' = h)).
  - destruct (Z.ltb_spec p (last_idr_pts_ms d)); [by rewrite orb_true_r|]. rewrite orb_false_r. destruct x; [done|].
    unfold c_int64. rewrite (proj2 (andb_true_iff _ _)) by lia. done.
  - intros due h' ->. destruct due; [|done]. wbind. eapply wpe_mono; [by apply request_idr_spec|]. intros _ h' ->.
    wuse. mcbn. split_and!; try done. cbn. lia.
Qed.

Lemma wait_fence_spec info h : wpe (wait_fence info) (fence (fence_fd info) ⊎ h) (fun _ h' => h' = h).
Proof.
  unfold wait_fence, fence. destruct (0 <=? fence_fd info).
  - wuse. wcall. mcbn. multiset_solver.
  - mcbn. multiset_solver.
Qed.

Lemma idle_ok_same d d' :
  idle_ok d -> encoder d' = encoder d -> draining_ d' = draining_ d -> 0 <= last_idr_pts_ms d' -> idle_ok d'.
Proof. intros (Hw & Hd & _) He Hd' Hl. unfold idle_ok, whole. by rewrite He, Hd'. Qed.

(** What an attempt to encode a frame leaves. *)
Definition encoded (h : resources) (d' : VideoEncoder) (h' : resources) : Prop := idle_ok d' /\ h' = mine d' ⊎ h.

Lemma give_back_frame info d h h1 :
  idle_ok d -> h1 = slot (wb_index info) ⊎ mine d ⊎ h ->
  wpe (run! wb_release (wb_index info) ;; Done (frame_error d)) h1 (encoded h).
Proof.
  intros Hok ->. wcall. mcbn. split; [done|]. change (mine (frame_error d)) with (mine d). multiset_solver.
Qed.

Lemma s64_pts info : frame_ok info -> 0 <= s64 (pts info) < 2 ^ 63.
Proof. intros [Hp _]. unfold s64. lia. Qed.

Lemma encode_wb_spec fuel info d h :
  frame_ok info -> idle_ok d -> Mpp.ctx (encoder d) = true ->
  wpe (encode_wb cf fuel info d) (carries info ⊎ mine d ⊎ h) (encoded h).
Proof.
  intros Hf Hok Hx. pose proof Hok as (Hw & Hd & Hi). unfold encode_wb. wbind.
  replace (carries info ⊎ mine d ⊎ h) with (fence (fence_fd info) ⊎ (slot (wb_index info) ⊎ mine d ⊎ h))
    by (unfold carries; multiset_solver).
  eapply wpe_mono; [apply wait_fence_spec|]. intros there h' ->.
  destruct there; cbn [negb]; [|by apply give_back_frame].
  assert (Hctx : forall h0, Context ∈ mine d ⊎ h0) by (intros; unfold mine, mpp_res; rewrite Hx; multiset_solver).
  wbind. eapply wpe_mono.
  { apply drain_to_consumers_spec; [done|]. specialize (Hctx h). multiset_solver. }
  intros d1 h1 (-> & Hs & Hd1). rewrite <- (same_hold_mine _ _ Hs). destruct Hs as (He1 & _ & Hl1).
  wbind. replace (slot (wb_index info) ⊎ mine d1 ⊎ h)
    with (slot (wb_pending_index d1) ⊎ (slot (wb_index info) ⊎ mpp_res (encoder d1) ⊎ h)) by (unfold mine; multiset_solver).
  eapply wpe_mono; [apply release_pending_spec|]. intros d2 h2 (-> & Hp & He2 & Hd2 & Hl2). rewrite <- He2.
  assert (Em : mine d2 = mpp_res (encoder d2)) by (unfold mine; rewrite Hp; multiset_solver). rewrite <- Em.
  assert (Hx2 : Mpp.ctx (encoder d2) = true) by congruence.
  assert (Hok2 : idle_ok d2) by (apply (idle_ok_same d); congruence).
  wbind. wcall. rewrite gmultiset_difference_empty. destruct x; cbn [negb].
  2: { mcbn. apply give_back_frame; [done|multiset_solver]. }
  mcbn. wbind. eapply wpe_mono.
  { apply maybe_request_idr_spec; [by apply s64_pts|apply Hok2|]. intros _. rewrite Em. unfold mpp_res. rewrite Hx2. multiset_solver. }
  intros d3 h3 (-> & He3 & Hp3 & Hd3 & Hl3).
  assert (Em3 : mine d3 = mine d2) by (unfold mine; by rewrite He3, Hp3).
  assert (Hok3 : idle_ok d3) by (by apply (idle_ok_same d2)).
  wbind. eapply wpe_mono.
  { apply submit_spec. rewrite Em. unfold mpp_res. rewrite Hx2. multiset_solver. }
  intros ret h4 ->. wcall. destruct (ret =? 0); [|apply give_back_frame; [done|multiset_solver]].
  mcbn. split; [exact Hok3|].
  assert (Em4 : mine (submitted info (wb_index info) d3) = slot (wb_index info) ⊎ mine d2).
  { rewrite Em, <- He3. done. }
  rewrite Em4. multiset_solver.
Qed.

Lemma sync_strides_spec hor ver e h :
  Mpp.ctx e = true -> whole e ->
  wpe (Mpp.sync_strides hor ver e) (mpp_res e ⊎ h) (fun e' h' =>
    Mpp.ctx e' = true /\ whole e' /\ mpp_res e' = mpp_res e /\ h' = mpp_res e ⊎ h).
Proof.
  intros Hx Hw. unfold Mpp.sync_strides. wbind.
  assert (Hr : mpp_res e = {[+ Context; Config +]}) by (unfold mpp_res; by rewrite Hw, Hx).
  rewrite Hr. eapply wpe_mono; [apply set_all_spec; multiset_solver|]. intros _ h' ->.
  apply wpe_use; [done|cbn [needs]; multiset_solver|done|done|]. intros _. mcbn. by rewrite <- Hr.
Qed.

Lemma encode_plain_spec fuel info d h :
  writeback cf = false -> frame_ok info -> idle_ok d -> Mpp.ctx (encoder d) = true ->
  wpe (encode cf fuel info d) (mine d ⊎ h) (encoded h).
Proof.
  intros Hm Hf Hok Hx. pose proof Hok as (Hw & Hd & Hi). unfold encode. rewrite Hm. wbind.
  eapply wpe_mono.
  { apply drain_to_consumers_spec; [done|]. unfold mine, mpp_res. rewrite Hx. multiset_solver. }
  intros d1 h1 (-> & Hs & Hd1). rewrite <- (same_hold_mine _ _ Hs). destruct Hs as (He1 & _ & Hl1). rewrite <- He1 in Hx, Hw.
  wbind. eapply (wpe_mono _ _ _ (fun e' h' =>
    Mpp.ctx e' = true /\ whole e' /\ mpp_res e' = mpp_res (encoder d1) /\ h' = mine d1 ⊎ h)).
  { destruct (_ && _); [done|].
    replace (mine d1 ⊎ h) with (mpp_res (encoder d1) ⊎ (slot (wb_pending_index d1) ⊎ h)) by (unfold mine; multiset_solver).
    by apply sync_strides_spec. }
  intros e2 h2 (Hx2 & Hw2 & Hr2 & ->). set (d2 := set_mpp _ _ _ _).
  assert (Em : mine d2 = mine d1) by (unfold mine, d2; cbn [set_mpp wb_pending_index encoder]; by rewrite Hr2).
  assert (Hok2 : idle_ok d2) by (split_and!; [done|done|by cbn; rewrite Hl1]). rewrite <- Em.
  assert (Hctx : Context ∈ mine d2) by (unfold mine, mpp_res; cbn [d2 set_mpp encoder]; rewrite Hx2; multiset_solver).
  wbind. wcall. rewrite gmultiset_difference_empty. destruct x; cbn [negb].
  2: { mcbn. split; [done|]. change (mine (frame_error d2)) with (mine d2). multiset_solver. }
  mcbn. wbind. eapply wpe_mono.
  { apply maybe_request_idr_spec; [by apply s64_pts|apply Hok2|multiset_solver]. }
  intros d3 h3 (-> & He3 & Hp3 & Hd3 & Hl3).
  assert (Em3 : mine d3 = mine d2) by (unfold mine; by rewrite He3, Hp3).
  assert (Hok3 : idle_ok d3) by (by apply (idle_ok_same d2)).
  wbind. eapply wpe_mono; [apply submit_spec; multiset_solver|].
  intros ret h4 ->. wcall. destruct (ret =? 0); mcbn; (split; [exact Hok3|]).
  - change (mine (submitted info (wb_pending_index d3) d3)) with (mine d3). rewrite Em3. multiset_solver.
  - change (mine (frame_error d3)) with (mine d3). rewrite Em3. multiset_solver.
Qed.

Lemma no_resources info : frame_ok info -> writeback cf = false -> carries info = ∅.
Proof.
  intros [_ Hn] Hm. destruct (Hn Hm) as [H1 H2]. unfold carries, slot, fence. by do 2 zif.
Qed.

Lemma encode_spec fuel info d h :
  frame_ok info -> idle_ok d -> Mpp.ctx (encoder d) = true ->
  wpe (encode cf fuel info d) (carries info ⊎ mine d ⊎ h) (encoded h).
Proof.
  intros Hf Hok Hx. destruct (writeback cf) eqn:Hm.
  - unfold encode. rewrite Hm. by apply encode_wb_spec.
  - rewrite no_resources, (left_id_L ∅ (⊎)) by done. by apply encode_plain_spec.
Qed.

(** ** The thread *)
Definition kept (h : resources) (d' : VideoEncoder) (h' : resources) : Prop := encoded h d' h'.

Lemma run_job_spec fuel fn d h : idle_ok d -> wpe (run_job cf fuel fn d) (mine d ⊎ h) (kept h).
Proof.
  intros Hok. destruct fn as [w hh| |]; cbn [run_job].
  - destruct (_ && _); mcbn; by split.
  - mcbn. by split.
  - wbind. unfold drain_pending. destruct (Mpp.ready (encoder d)) eqn:Er.
    + destruct Hok as (Hw & Hd & Hi). eapply wpe_mono.
      { apply drain_to_consumers_spec; [done|]. unfold Mpp.ready in Er. unfold mine, mpp_res. rewrite Er. multiset_solver. }
      intros d1 h1 (-> & Hs & Hd1). wuse. mcbn. rewrite <- (same_hold_mine _ _ Hs). destruct Hs as (He & _ & Hl).
      split; [|done]. apply (idle_ok_same d); [done|done|congruence|by rewrite Hl].
    + apply wpe_done. wuse. by split.
Qed.

Lemma handle_frame_spec fuel info d :
  frame_ok info -> idle_ok d -> wpe (handle_frame cf fuel info d) (carries info ⊎ mine d) (kept ∅).
Proof.
  intros Hf Hok. unfold handle_frame, wants_frames. wbind. wuse. mcbn.
  assert (Hdrop : forall d, idle_ok d -> wpe (let! _ <- release_wb_frame info ;; Done d) (carries info ⊎ mine d) (kept ∅)).
  { intros d' Hd'. wbind. eapply wpe_mono; [apply release_wb_frame_spec|]. intros _ h' ->. mcbn. split; [done|multiset_solver]. }
  destruct x; cbn [negb]; [|by apply Hdrop]. wbind. rewrite (comm_L (⊎)).
  eapply wpe_mono; [by apply ensure_encoder_spec|]. intros [ok d1] h1 (Hok1 & Hr & ->).
  destruct ok; cbn [negb]; [|rewrite (comm_L (⊎)); by apply Hdrop]. wbind.
  replace (mine d1 ⊎ carries info) with (carries info ⊎ mine d1 ⊎ ∅) by multiset_solver.
  eapply wpe_mono; [by apply encode_spec; [..|apply Hr]|]. intros d2 h2 [Hok2 ->].
  destruct (_ <=? _); [|done]. wbind. eapply wpe_mono; [apply encoder_failed_spec|]. by intros _ h' ->.
Qed.

Lemma stand_down_spec fuel d : idle_ok d -> wpe (stand_down cf fuel d) (mine d ⊎ ∅) (kept ∅).
Proof.
  intros Hok. unfold stand_down, wants_frames. wbind. wuse. mcbn. destruct (_ && _); [|by mcbn].
  eapply wpe_mono; [by apply teardown_spec|]. intros d' h' (Hok' & _ & Hm & ->). split; [done|]. by rewrite Hm.
Qed.

(** The queue gives a task with what it carries. *)
Lemma pop_spec {A} (k : option Task -> io A) h Q :
  (forall t, match t with Some (FRAME info) => frame_ok info | _ => True end ->
     wpe (k t) (match t with Some (FRAME info) => carries info | _ => ∅ end ⊎ h) Q) ->
  wpe (Call (locked pop) k) h Q.
Proof.
  intros Hk. cbn [EncoderThreads.wpe spec]. intros q Hq. destruct q as [|t q]; cbn [pop fst snd].
  - split_and!; [done|multiset_solver|]. specialize (Hk None I). cbn in Hk.
    replace ((h ⊎ queued []) ∖ queued []) with (∅ ⊎ h) by multiset_solver. done.
  - assert (E : queued (t :: q) = match t with FRAME info => carries info | _ => ∅ end ⊎ queued q).
    { destruct t; [done|..]; unfold queued; cbn [frames_of omap list_omap]; multiset_solver. }
    assert (Hq' : queue_ok frame_ok q /\ match t with FRAME info => frame_ok info | _ => True end).
    { unfold queue_ok in *. destruct t; cbn [frames_of omap list_omap] in Hq; try done. by apply Forall_cons_1 in Hq as [? ?]. }
    rewrite E. split_and!; [apply Hq'|multiset_solver|].
    replace ((h ⊎ (match t with FRAME info => carries info | _ => ∅ end ⊎ queued q)) ∖ queued q)
      with (match t with FRAME info => carries info | _ => ∅ end ⊎ h) by multiset_solver.
    specialize (Hk (Some t)). destruct t; apply Hk; by (done || apply Hq').
Qed.

Lemma loop_turn_spec fuel d : idle_ok d ->
  wpe (loop_turn cf fuel d) (mine d) (fun '(_, d') h' => idle_ok d' /\ h' = mine d').
Proof.
  intros Hok. unfold loop_turn. apply pop_spec. intros t Ht. wbind.
  eapply wpe_mono; [apply for_consumers_spec; intros; by wuse|]. intros _ h' ->.
  assert (Hend : forall d1 h1, kept ∅ d1 h1 -> wpe (let! d <- stand_down cf fuel d1 ;; Done (true, d)) h1
    (fun '(_, d') h' => idle_ok d' /\ h' = mine d')).
  { intros d1 h1 [Hok1 ->]. wbind. eapply wpe_mono; [by apply stand_down_spec|]. intros d2 h2 [Hok2 ->].
    mcbn. split; [done|multiset_solver]. }
  destruct t as [[info|fn|]|].
  - wbind. eapply wpe_mono; [by apply handle_frame_spec|]. intros d1 h1 Hk. by apply Hend.
  - rewrite (comm_L (⊎)). wbind. eapply wpe_mono; [by apply run_job_spec|]. intros d1 h1 Hk. wbind.
    eapply wpe_mono; [apply recompute_spec|]. intros _ h2 ->. by apply Hend.
  - mcbn. split; [done|multiset_solver].
  - mcbn. split; [done|multiset_solver].
Qed.

Lemma loop_spec fuel d : idle_ok d -> wpe (loop cf fuel d) (mine d) (fun _ h' => h' = ∅).
Proof.
  revert d. induction fuel as [|fuel IH]; intros d Hok; cbn [loop]; [done|]. wbind.
  eapply wpe_mono; [by apply loop_turn_spec|]. intros [go d1] h1 [Hok1 ->]. destruct go; [by apply IH|].
  replace (mine d1) with (mine d1 ⊎ ∅) by multiset_solver.
  eapply wpe_mono; [by apply teardown_spec|]. by intros d2 h2 (_ & _ & _ & ->).
Qed.

(** ** Capture *)
Lemma slot_none i : i < 0 -> slot i = ∅.
Proof. intros. unfold slot. by rewrite (proj2 (Z.leb_gt 0 i)) by lia. Qed.
Lemma fence_none fd : fd < 0 -> fence fd = ∅.
Proof. intros. unfold fence. by rewrite (proj2 (Z.leb_gt 0 fd)) by lia. Qed.

Lemma claim_loop_spec n i h :
  0 <= i -> i + Z.of_nat n <= WB_BUFFERS ->
  wpe (claim_loop n i) h (fun idx h' => idx < WB_BUFFERS /\ h' = slot idx ⊎ h).
Proof.
  intros Hi. revert i Hi. induction n as [|n IH]; intros i Hi Hn; cbn [claim_loop].
  { mcbn. split; [done|]. rewrite slot_none by done. multiset_solver. }
  wcall. rewrite gmultiset_difference_empty. destruct x.
  - mcbn. split; [lia|]. unfold slot. rewrite (proj2 (andb_true_iff _ _)) by lia. multiset_solver.
  - rewrite (right_id_L ∅ (⊎)). apply IH; lia.
Qed.

Lemma capture_arm_spec st : wpe (arm st) ∅ (fun '(idx, _) h' => idx < WB_BUFFERS /\ h' = slot idx).
Proof.
  unfold arm. wbind. eapply wpe_mono; [by apply claim_loop_spec|]. intros idx h' [Hi ->].
  destruct (Z.ltb_spec idx 0); [mcbn; split; [done|multiset_solver]|].
  assert (E : slot idx = {[+ Slot idx +]}) by (unfold slot; by rewrite (proj2 (andb_true_iff _ _)) by lia).
  apply wpe_use; [done|cbn [needs]; rewrite E; multiset_solver|done|done|]. intros r.
  destruct (r <? 0); [|mcbn; split; [done|multiset_solver]].
  wcall. mcbn. split; [done|]. rewrite (slot_none (-1)) by done. multiset_solver.
Qed.

Lemma capture_spec bufs fb_id decoding_pts st :
  writeback cf = true -> 0 <= decoding_pts < 2 ^ 63 ->
  wpe (capture bufs fb_id decoding_pts st) ∅ (fun _ h' => h' = ∅).
Proof.
  intros Hm Hp. unfold capture. wuse. wbind.
  eapply (wpe_mono _ _ _ (fun (_ : bool) h' => h' = ∅)); [destruct x; [by wuse|done]|]. intros want h' ->.
  wbind. eapply (wpe_mono _ _ _ (fun '(idx, _) h' => idx < WB_BUFFERS /\ h' = slot idx)).
  { destruct (_ && _); [apply capture_arm_spec|done]. }
  intros [idx st'] h' [Hi ->]. wcall. destruct x0 as [commit_ret fd]. cbn [snd].
  rewrite gmultiset_difference_empty. destruct (Z.ltb_spec idx 0).
  { mcbn. rewrite slot_none by lia. rewrite fence_none; [multiset_solver|]. apply H. by apply Z.leb_gt. }
  destruct (commit_ret =? 0); wbind.
  - change (slot idx ⊎ fence fd) with (carries (mk_frame (fst (bufs idx)) 0 0 0 0 (snd (bufs idx)) decoding_pts fd idx)).
    eapply wpe_mono; [apply writeback_frame_spec; split; [done|congruence]|]. by intros _ h' ->.
  - eapply (wpe_mono _ _ _ (fun _ h' => h' = slot idx)).
    + unfold when, fence. destruct (Z.leb_spec 0 fd); [wcall; mcbn|mcbn]; multiset_solver.
    + intros _ h' ->. wcall. apply wpe_bind. rewrite gmultiset_difference_diag, (left_id_L ∅ (⊎)).
      eapply (wpe_mono _ _ _ (fun _ h' => h' = ∅)); [|by intros _ h' ->].
      unfold when. destruct (3 <=? _); [|done]. wuse. by wuse.
Qed.
End Encoder.
