(* ===== verification/EncoderSafety.v ===== *)
(** * The encoder's promises over whole executions

    An execution starts with nothing owned; at any point a thread may enter one of the
    operations that others call, capture a picture, or run the encoder's loop, and the
    threads take their steps in any order. *)

From stdpp Require Import gmultiset.
From S2P Require Import Prelude Free TsWriter Encoder EncoderThreads EncoderProps.
From stdpp Require Import list relations.
Open Scope Z_scope.

(** What a thread may run. *)
Inductive entry (cf : enc_config) : io unit -> Prop :=
| enter_frame info : frame_ok cf info -> carries info = ∅ -> entry cf (frame info)
| enter_post : entry cf post
| enter_params w h : entry cf (set_video_params w h)
| enter_restart : entry cf restart
| enter_keyframe : entry cf request_keyframe
| enter_shutdown : entry cf shutdown
| enter_consumers : entry cf (consumers_changed cf)
| enter_capture bufs fb_id decoding_pts st :
    writeback cf = true -> 0 <= decoding_pts < 2 ^ 63 ->
    entry cf (let! _ <- capture bufs fb_id decoding_pts st ;; Done tt)
| enter_loop fuel w h : entry cf (let! _ <- loop cf fuel (new_encoder w h) ;; Done tt).

Lemma enter_frame_spec cf info : frame_ok cf info -> carries info = ∅ -> wpe (frame_ok cf) (frame info) ∅ over.
Proof.
  intros Hf Hc. unfold frame. cbn [wpe spec]. intros q Hq. unfold push_frame, over.
  destruct (_ <=? _); cbn [fst snd].
  - split_and!; [done|multiset_solver|]. cbn [wpe]. multiset_solver.
  - assert (E : queued (q ++ [FRAME info]) = queued q).
    { rewrite queued_app. unfold queued at 2. cbn [frames_of omap list_omap carried foldr]. rewrite Hc. multiset_solver. }
    rewrite E. split_and!; [|multiset_solver|cbn [wpe]; multiset_solver].
    unfold queue_ok. rewrite frames_of_app. apply Forall_app. split; [done|]. by constructor.
Qed.

Lemma new_encoder_idle w h : idle_ok (new_encoder w h) /\ mine (new_encoder w h) = ∅.
Proof. by split. Qed.

Lemma entry_owns cf : config_ok cf -> forall p, entry cf p -> wpe (frame_ok cf) p ∅ over.
Proof.
  intros Hcf p Hp. destruct Hp.
  - by apply enter_frame_spec.
  - by apply enqueue_spec.
  - by apply enqueue_spec.
  - by apply enqueue_spec.
  - unfold request_keyframe, trigger. apply wpe_use; [done|multiset_solver|done|done|]. by intros [].
  - by apply enqueue_spec.
  - eapply wpe_mono; [apply recompute_spec|]. by intros ? h ->.
  - apply wpe_bind. eapply wpe_mono; [by apply capture_spec|]. by intros ? h ->.
  - apply wpe_bind. destruct (new_encoder_idle w h) as [Hi Hm]. rewrite <- Hm at 1.
    eapply wpe_mono; [by apply loop_spec|]. by intros ? h' ->.
Qed.

Definition at_rest (wants idr wb : bool) : world * list (io unit) := (mk_world [] wants idr wb ∅, []).


(** ** Running it *)

(** One way the outside may answer: the fence of every capture times out. *)
Definition reply {X} (c : ecall X) (w : world) : option X :=
  match c in ecall X return option X with
  | locked f => Some (fst (f (tasks w)))
  | wants_load => Some (wants w)
  | idr_load => Some (idr w)
  | wb_mode_load => Some (wb_mode w)
  | wb_claim i => if bool_decide (Slot i ∈ live w) then Some false
                  else if (0 <=? i) && (i <? WB_BUFFERS) then Some true else None
  | atomic_commit armed => if negb armed then Some (0, -1)
                           else if bool_decide (Fence 7 ∈ live w) then None else Some (0, 7)
  | consumer_active _ => Some true
  | mpp_buffer_import _ _ => Some true
  | encode_get_packet => Some Failed
  | poll_fence _ _ | arm_writeback _ | mpp_create | mpp_init | mpp_enc_cfg_init | mpi_control _ | encode_put_frame _
  | steady_clock_ms => Some 0
  | wants_store _ | idr_store _ | wb_release _ | wb_mode_store _ | close_fd _ | dvr_disable | consumer_access_unit _ _ _ _
  | consumer_reset _ _ _ | consumer_failed _ | consumer_tick _ | consumer_posted | mpp_enc_cfg_set_s32 _ _
  | mpp_enc_cfg_deinit | mpi_reset | mpp_destroy | mpp_frame_init | mpp_frame_deinit | mpp_packet_deinit
  | mpp_buffer_put => Some tt
  end.

Lemma reply_answers {X} (c : ecall X) w x : reply c w = Some x -> answers c w x.
Proof.
  destruct c; cbn; try (by intros [= <-]); try done.
  - case_bool_decide; [by intros [= <-]|]. destruct (_ && _) eqn:E; [|done]. intros [= <-].
    apply andb_prop in E. split; [lia|done].
  - destruct armed; cbn; [|intros [= <-]; by left]. case_bool_decide; [done|]. intros [= <-]. by right.
Qed.

(** At most [n] calls of a thread, with nobody in between. *)
Fixpoint calls (n : nat) (p : io unit) (w : world) : io unit * world :=
  match n, p with
  | S n, Call c k => match reply c w with Some x => calls n (k x) (after c w x) | None => (p, w) end
  | _, _ => (p, w)
  end.

Lemma calls_sound en n : forall p w l r,
  rtc (step en) (w, l ++ p :: r) (snd (calls n p w), l ++ fst (calls n p w) :: r).
Proof.
  induction n as [|n IH]; intros p w l r; cbn [calls]; [done|]. destruct p as [a|c|X c k]; try done.
  destruct (reply c w) as [x|] eqn:E; [|done]. eapply rtc_l; [|apply IH]. apply step_call. by apply reply_answers.
Qed.

Definition sample_cf : enc_config := {|
  writeback := true; bitrate := 8000000; enc_fps := 60; wb_enc_width := 1920; wb_enc_height := 1080;
  wb_enc_hor_stride := 1920; wb_enc_ver_stride := 1088; consumers_ := [0%nat; 1%nat] |}.

Lemma sample_cf_ok : config_ok sample_cf.
Proof. by split. Qed.

(** A picture is captured and goes to the encoder's thread; the thread is shut down. *)
Section Sample.
Variable n1 n2 n3 : nat.
Let capturing : io unit :=
  let! _ <- capture (fun i => (i, 4096)) 1 40 {| wb_commit_fails := 0; wb_arm_fails := 0 |} ;; Done tt.
Let encoding : io unit := let! _ <- loop sample_cf 5 (new_encoder 0 0) ;; Done tt.

Definition sample_run : world * list (io unit) :=
  let '(p1, w1) := calls n1 capturing (mk_world [] true false true ∅) in
  let '(p2, w2) := calls n2 encoding w1 in
  let '(p3, w3) := calls n1 shutdown w2 in
  let '(p2, w3) := calls n3 p2 w3 in
  (w3, [p3; p2; p1]).

Lemma sample_reached : rtc (step (entry sample_cf)) (at_rest true false true) sample_run.
Proof.
  unfold sample_run, at_rest. eapply rtc_l.
  { apply step_enter, (enter_capture sample_cf (fun i => (i, 4096)) 1 40 {| wb_commit_fails := 0; wb_arm_fails := 0 |}); [done|lia]. }
  fold capturing. pose proof (calls_sound (entry sample_cf) n1 capturing (mk_world [] true false true ∅) [] []) as H1.
  destruct (calls n1 capturing _) as [p1 w1]. etrans; [exact H1|]. cbn [fst snd app]. clear H1.
  eapply rtc_l; [apply step_enter, (enter_loop sample_cf 5 0 0)|]. fold encoding.
  pose proof (calls_sound (entry sample_cf) n2 encoding w1 [] [p1]) as H2.
  destruct (calls n2 encoding w1) as [p2 w2]. etrans; [exact H2|]. cbn [fst snd app]. clear H2.
  eapply rtc_l; [apply step_enter, enter_shutdown|].
  pose proof (calls_sound (entry sample_cf) n1 shutdown w2 [] [p2; p1]) as H3.
  destruct (calls n1 shutdown w2) as [p3 w3]. etrans; [exact H3|]. cbn [fst snd app]. clear H3.
  pose proof (calls_sound (entry sample_cf) n3 p2 w3 [p3] [p1]) as H4.
  destruct (calls n3 p2 w3) as [p4 w4]. exact H4.
Qed.
End Sample.

Definition finished (s : world * list (io unit)) : bool :=
  forallb (fun p => match p with Done _ => true | _ => false end) (snd s) &&
  match tasks (fst s) with [] => true | _ => false end.

Lemma finished_done s : finished s = true -> Forall (fun p => p = Done tt) (snd s) /\ tasks (fst s) = [].
Proof.
  unfold finished. intros H. apply andb_prop in H as [H1 H2]. destruct (tasks _); [|done]. split; [|done].
  induction (snd s) as [|p ps IH]; [constructor|]. apply andb_prop in H1 as [Hp Hps].
  constructor; [by destruct p as [[]| |]|by apply IH].
Qed.

Lemma sample_finishes : finished (sample_run 20 40 60) = true.
Proof. vm_compute. reflexivity. Qed.

