(* ===== verification/EncoderRace.v ===== *)
(** * A recording that starts while the encoder's thread counts its consumers

    [recompute_wants_frames] reads who is active and then stores what it found, with
    nothing held in between, and two threads call it.  The recorder's thread is woken by
    the very job after which the encoder's thread calls it. *)

From S2P Require Import Prelude Free TsWriter Encoder.
From stdpp Require Import list relations.
Open Scope Z_scope.

(** What the two threads and those that push frames share; the recorder is consumer 0,
    and no other is active. *)
Record shared := mk_shared { armed : bool; wanted : bool; waiting : list Task }.

(** The recorder's thread sleeps, is about to arm the recording, or tells the encoder
    (src/dvr/dvr.cpp, [start]). *)
Inductive recorder := Asleep | Starting | Telling (p : io unit).

Definition tells {X} (c : ecall X) (s : shared) : X -> Prop :=
  match c in ecall X return X -> Prop with
  | locked f => fun x => x = fst (f (waiting s))
  | wants_load => fun x => x = wanted s
  | consumer_active k => fun x => x = match k with O => armed s | S _ => false end
  | _ => fun _ => True
  end.

Definition becomes {X} (c : ecall X) (s : shared) : shared :=
  match c with
  | locked f => mk_shared (armed s) (wanted s) (snd (f (waiting s)))
  | wants_store b => mk_shared (armed s) b (waiting s)
  | _ => s
  end.

Definition wakes {X} (c : ecall X) (r : recorder) : recorder :=
  match c, r with consumer_posted, Asleep => Starting | _, _ => r end.

Section Race.
Context (cf : enc_config).

Inductive race_step {A} : shared * io A * recorder -> shared * io A * recorder -> Prop :=
| race_encoder s X (c : ecall X) k r x :
    tells c s x -> race_step (s, Call c k, r) (becomes c s, k x, wakes c r)
| race_arm s p :
    race_step (s, p, Starting) (mk_shared true (wanted s) (waiting s), p, Telling (consumers_changed cf))
| race_tell s p X (c : ecall X) k x :
    tells c s x -> race_step (s, p, Telling (Call c k)) (becomes c s, p, Telling (k x))
| race_push s p r info :
    race_step (s, p, r) (mk_shared (armed s) (wanted s) (waiting s ++ [FRAME info]), p, r).

(** ** Without jobs, nobody counts again *)
Definition jobless (q : list Task) : Prop := Forall (fun t => match t with RUN _ => False | _ => True end) q.

Definition silent {X} (c : ecall X) : Prop :=
  match c with
  | wants_store _ => False
  | locked f => forall q, jobless q -> jobless (snd (f q))
  | _ => True
  end.
Definition told {X} (c : ecall X) : X -> Prop :=
  match c in ecall X return X -> Prop with
  | wants_load => fun x => x = false
  | locked f => fun x => exists q, jobless q /\ x = fst (f q)
  | _ => fun _ => True
  end.

Fixpoint quiet {A} (p : io A) : Prop :=
  match p with
  | Done _ | Die _ => True
  | Call c k => silent c /\ forall x, told c x -> quiet (k x)
  end.

Lemma quiet_bind {A B} (m : io A) (k : A -> io B) : quiet m -> (forall a, quiet (k a)) -> quiet (io_bind m k).
Proof. intros Hm Hk. induction m as [a|c|X c f IH]; cbn in *; [done..|]. destruct Hm as [Hs Hm]. split; auto. Qed.

Lemma quiet_lift {A} (m : outcome A) : quiet (lift m).
Proof. by destruct m. Qed.

Lemma quiet_for_consumers f ks : (forall k, quiet (f k)) -> quiet (for_consumers f ks).
Proof. intros Hf. induction ks; cbn [for_consumers]; [done|]. by apply quiet_bind. Qed.

Lemma quiet_emit data d : quiet (emit cf data d).
Proof.
  unfold emit. destruct (match submitted_pts d with [] => _ | _ => _ end). apply quiet_bind; [apply quiet_lift|].
  intros b. apply quiet_bind; [|done]. apply quiet_for_consumers. intros k. split; [done|]. by intros [] _.
Qed.

Lemma quiet_drain {S} fuel on_nal (s : S) : (forall data s, quiet (on_nal data s)) -> quiet (Mpp.drain fuel on_nal s).
Proof.
  intros Hn. revert s. induction fuel as [|fuel IH]; intros s; (split; [done|]); intros [] _; try done.
  apply quiet_bind; [by destruct (0 <? _)|]. by split.
Qed.

Lemma quiet_flush_loop {S} fuel deadline on_nal (s : S) :
  (forall data s, quiet (on_nal data s)) -> quiet (Mpp.flush_loop fuel deadline on_nal s).
Proof.
  intros Hn. revert s. induction fuel as [|fuel IH]; intros s; (split; [done|]); intros now _;
    (destruct (deadline <=? now); [done|]); (split; [done|]); intros [] _; try done.
  apply quiet_bind; [by destruct (0 <? _)|]. intros [go s']. split; [done|]. intros _ _.
  by destruct (eos || negb go).
Qed.

Lemma quiet_release fi : quiet (release_wb_frame fi).
Proof. unfold release_wb_frame. apply quiet_bind; intros; by destruct (0 <=? _). Qed.

Lemma quiet_drain_to_consumers fuel d : quiet (drain_to_consumers cf fuel d).
Proof. unfold drain_to_consumers. destruct (draining_ d); [done|]. apply quiet_bind; [|done]. apply quiet_drain, quiet_emit. Qed.

Lemma quiet_teardown fuel d : quiet (teardown cf fuel d).
Proof.
  unfold teardown. apply quiet_bind; [|intros d1; apply quiet_bind; [|intros d2; apply quiet_bind; [|by intros e]]].
  - destruct (Mpp.ready _); [|done]. apply quiet_bind; [apply quiet_drain_to_consumers|]. intros d1. repeat (split; [done|]; intros ? _).
    apply quiet_flush_loop. intros data d2. destruct (_ <=? _); [done|]. apply quiet_bind; [apply quiet_emit|done].
  - unfold release_pending. by destruct (_ <=? _).
  - unfold Mpp.cleanup. apply quiet_bind; [by destruct (Mpp.cfg _)|]. intros _. apply quiet_bind; [|done].
    by destruct (Mpp.ctx _).
Qed.

Lemma quiet_loop_turn fuel d : quiet (loop_turn cf fuel d).
Proof.
  split; [intros [|t q] Hq; [done|by apply Forall_cons_1 in Hq as [_ ?]]|].
  intros task (q & Hq & ->). apply quiet_bind; [apply quiet_for_consumers; by split|]. intros _.
  destruct q as [|[info|fn|] q]; cbn [pop fst]; try done.
  - apply quiet_bind.
    + split; [done|]. intros b ->. cbn [io_bind negb]. apply quiet_bind; [apply quiet_release|done].
    + intros d1. apply quiet_bind; [|done]. split; [done|]. intros b ->. cbn [io_bind negb andb].
      destruct (Mpp.ready _); [apply quiet_teardown|done].
  - by apply Forall_cons_1 in Hq as [[] _].
Qed.

Lemma quiet_loop fuel d : quiet (loop cf fuel d).
Proof.
  revert d. induction fuel as [|fuel IH]; intros d; [done|]. cbn [loop]. apply quiet_bind; [apply quiet_loop_turn|].
  intros [[] d1]; [apply IH|apply quiet_teardown].
Qed.

Definition unseen {A} (st : shared * io A * recorder) : Prop :=
  let '(s, p, r) := st in wanted s = false /\ jobless (waiting s) /\ quiet p /\ r = Telling (Done tt).

Lemma unseen_step {A} (s1 s2 : shared * io A * recorder) : unseen s1 -> race_step s1 s2 -> unseen s2.
Proof.
  intros Hu Hs. destruct Hs as [s X c k r x Hx|s p|s p X c k x Hx|s p r info]; destruct Hu as (Hw & Hj & Hq & Hr).
  - destruct Hq as [Hsil Hq]. assert (Ht : told c x) by (destruct c; cbn in *; try done; [by eexists|by rewrite Hx]).
    split_and!; [destruct c; done|destruct c; try done; by apply Hsil|by apply Hq|by rewrite Hr; destruct c].
  - done.
  - done.
  - split_and!; [done| |done|done]. apply Forall_app. split; [done|]. by constructor.
Qed.

(** A turn that begins with a job of the recorder's. *)
Definition before (fuel : nat) (d : VideoEncoder) : shared * io (bool * VideoEncoder) * recorder :=
  (mk_shared false false [RUN Posted], loop_turn cf fuel d, Asleep).
Definition missed (d : VideoEncoder) : shared * io (bool * VideoEncoder) * recorder :=
  (mk_shared true false [], Done (true, d), Telling (Done tt)).

(** The next call of the encoder's thread, or of the recorder's, answered with [v]. *)
Ltac enc v := eapply rtc_l; [by apply race_encoder with (x := v)|cbn [becomes wakes waiting pop fst snd for_consumers io_bind trigger]].
Ltac rec v := eapply rtc_l; [by apply race_tell with (x := v)|cbn [becomes io_bind trigger]].

Lemma race_lost fuel d :
  consumers_ cf = [0%nat] -> Mpp.ready (encoder d) = false -> rtc race_step (before fuel d) (missed d).
Proof.
  intros Hk Hr. unfold before, loop_turn. rewrite Hk. enc (Some (RUN Posted)). enc tt.
  cbn [run_job]. unfold drain_pending. rewrite Hr. cbn [io_bind]. enc tt.
  unfold recompute_wants_frames. rewrite Hk. cbn [any_active io_bind]. enc false.
  eapply rtc_l; [apply race_arm|]. unfold consumers_changed, recompute_wants_frames. rewrite Hk. cbn [any_active io_bind].
  rec true. rec tt. enc tt. unfold stand_down. cbn [io_bind wants_frames trigger]. enc false. by rewrite Hr.
Qed.
End Race.

(** C10. The start of a recording can go unseen: if the recorder's thread arms it, and
    stores that frames are wanted, between the encoder's thread's reading that nobody is
    active and its storing that, then the recording is armed, both threads are done with
    it, and frames are not wanted -- and however many frames then come and however the
    encoder's thread goes on, they stay unwanted until somebody posts a job. *)
Theorem recording_unseen cf fuel d :
  consumers_ cf = [0%nat] -> Mpp.ready (encoder d) = false ->
  rtc (race_step cf) (before cf fuel d) (missed d) /\
  forall n s p r, rtc (race_step cf) (fst (fst (missed d)), loop cf n d, snd (missed d)) (s, p, r) -> wanted s = false.
Proof.
  intros Hk Hr. split; [by apply race_lost|]. intros n s p r Hrun.
  assert (Hu : unseen (fst (fst (missed d)), loop cf n d, snd (missed d))) by (split_and!; [done|constructor|apply quiet_loop|done]).
  revert Hu Hrun. generalize (fst (fst (missed d)), loop cf n d, snd (missed d)). intros s0 Hu Hrun.
  enough (unseen (s, p, r)) by (by destruct H). induction Hrun as [|x y z Hs _ IH]; [done|].
  apply IH. by eapply unseen_step.
Qed.

Definition lonely : enc_config := {|
  writeback := false; bitrate := 8000000; enc_fps := 60; wb_enc_width := 0; wb_enc_height := 0;
  wb_enc_hor_stride := 0; wb_enc_ver_stride := 0; consumers_ := [0%nat] |}.

Lemma recording_unseen_witness :
  rtc (race_step lonely) (before lonely 3 (new_encoder 1280 720)) (missed (new_encoder 1280 720)).
Proof. exact (proj1 (recording_unseen lonely 3 (new_encoder 1280 720) eq_refl eq_refl)). Defined.
