(* ===== verification/Restreamer.v ===== *)
(** * The restreamer and its socket (src/socket_handler.cpp, src/video_restreamer.cpp)

    What opens and closes a socket is a program over the calls of the system ([scall]);
    an access unit goes through the payload packer, which calls the restreamer back for
    every datagram.  What the system answers to the [k]-th datagram is [sendto k].
    Addresses are the bytes of the machine's structures, little-endian as on the boards
    the program is for.  Names hold no zero byte.  Messages are left out. *)

From Stdlib Require Import String.
From S2P Require Import Prelude RtpUtil RtpPacket Payload Registry Free TsWriter.
From stdpp Require Import list.
Open Scope Z_scope.

(** ** Sockets *)
Definition AF_UNIX : Z := 1.
Definition AF_INET : Z := 2.
Definition SUN_PATH : Z := 108.
Definition SOCKADDR_STORAGE : Z := 128.

Inductive Direction := Receive | Send.
Inductive UnixNamespace := Abstract | Path.

Inductive scall : Type -> Type :=
| sys_socket (family : Z) : scall Z
| inet_pton (ip : list Z) : scall (option (list Z))
| sys_bind (fd : Z) (addr : list Z) (len : Z) : scall Z
| sys_close (fd : Z) : scall unit.

Abbreviation io := (prog scall).

Record SocketHandler := mk_handler {
  m_socket : Z;
  m_port : Z;
  m_ip : list Z;
  m_unix_socket : list Z;
  m_direction : Direction;
  m_unix_namespace : UnixNamespace;
  m_dest : list Z;
  m_dest_len : Z;
  socket_connected : bool
}.

(** The constructors leave [m_socket] as it was: [junk]. *)
Definition inet_handler (junk : Z) (address : list Z) (port : Z) (dir : Direction) : SocketHandler :=
  mk_handler junk port address [] dir Abstract (replicate (Z.to_nat SOCKADDR_STORAGE) 0) 0 false.
Definition unix_handler (junk : Z) (path : list Z) (dir : Direction) (ns : UnixNamespace) : SocketHandler :=
  mk_handler junk 0 [] path dir ns (replicate (Z.to_nat SOCKADDR_STORAGE) 0) 0 false.

Section Updates.
Variable s : SocketHandler.
Definition with_fd (fd : Z) : SocketHandler :=
  mk_handler fd (m_port s) (m_ip s) (m_unix_socket s) (m_direction s) (m_unix_namespace s) (m_dest s) (m_dest_len s)
    (socket_connected s).
Definition with_dest (d : list Z) (n : Z) : SocketHandler :=
  mk_handler (m_socket s) (m_port s) (m_ip s) (m_unix_socket s) (m_direction s) (m_unix_namespace s) d n
    (socket_connected s).
Definition with_connected (b : bool) : SocketHandler :=
  mk_handler (m_socket s) (m_port s) (m_ip s) (m_unix_socket s) (m_direction s) (m_unix_namespace s) (m_dest s)
    (m_dest_len s) b.
End Updates.

(** [memcpy(&m_dest, &addr, len)]. *)
Definition remember (addr : list Z) (len : Z) (s : SocketHandler) : outcome SocketHandler :=
  do bytes <- rdn addr 0 len ;;
  do dest <- wrn (m_dest s) 0 bytes ;;
  Ret (with_dest s dest len).

(** The peer of a sender is remembered, the name of a receiver is bound. *)
Definition use_address (addr : list Z) (len : Z) (s : SocketHandler) : io (bool * SocketHandler) :=
  match m_direction s with
  | Send => let! s <- lift (remember addr len s) ;; Done (true, s)
  | Receive =>
      get! r <- sys_bind (m_socket s) addr len ;;
      if r <? 0 then run! sys_close (m_socket s) ;; Done (false, s) else Done (true, s)
  end.

(** [strncpy] of at most [n] characters: what is missing is filled with zeros. *)
Definition strncpy (src : list Z) (n : nat) : list Z := take n src ++ replicate (n - length src) 0.

Definition init_local_socket (s : SocketHandler) : io (bool * SocketHandler) :=
  get! fd <- sys_socket AF_UNIX ;;
  let s := with_fd s fd in
  if fd <? 0 then Done (false, s)
  else
    let name := m_unix_socket s in
    match m_unix_namespace s with
    | Abstract =>
        use_address ([AF_UNIX; 0] ++ [0] ++ strncpy name (Z.to_nat (SUN_PATH - 2)) ++ [0]) (u32 (2 + 1 + zlen name)) s
    | Path =>
        if SUN_PATH <=? zlen name then run! sys_close (m_socket s) ;; Done (false, s)
        else use_address ([AF_UNIX; 0] ++ name ++ replicate (Z.to_nat (SUN_PATH - zlen name)) 0)
               (u32 (2 + zlen name + 1)) s
    end.

Definition init_internet_socket (s : SocketHandler) : io (bool * SocketHandler) :=
  get! fd <- sys_socket AF_INET ;;
  let s := with_fd s fd in
  if fd <? 0 then Done (false, s)
  else
    get! addr <- inet_pton (m_ip s) ;;
    match addr with
    | None => run! sys_close (m_socket s) ;; Done (false, s)
    | Some ip => use_address ([AF_INET; 0] ++ be16 (u16 (m_port s)) ++ ip ++ replicate 8 0) 16 s
    end.

Definition init_connection (s : SocketHandler) : io (bool * SocketHandler) :=
  if socket_connected s then Done (true, s)
  else
    let! st <- (match m_unix_socket s with [] => init_internet_socket s | _ => init_local_socket s end) ;;
    let '(ok, s) := st in Done (ok, with_connected s ok).

Definition is_socket_connected (s : SocketHandler) : bool := socket_connected s.
Definition get_socket_fd (s : SocketHandler) : Z := m_socket s.

(** Whether [send] asks the system at all. *)
Definition can_send (s : SocketHandler) : bool :=
  match m_direction s with Send => socket_connected s | Receive => false end.

Definition delete_handler (s : SocketHandler) : io unit := trigger (sys_close (m_socket s)).

(** ** The restreamer *)
Definition MS_TO_90K : Z := 90.
Definition STATS_INTERVAL_MS : Z := 5000.

(** What the callbacks of the packer change; [net]: the datagrams given to the system. *)
Record outgoing := mk_outgoing {
  pkt_ : list Z;
  packets_sent_ : Z;
  packets_dropped_ : Z;
  bytes_sent_ : Z;
  net : list (list Z)
}.

(** ... and what they use. *)
Definition session : Type := SocketHandler * outgoing.

Record VideoRestreamer := mk_restreamer {
  packer_ : option (encode_ctx session);
  socket_ : option SocketHandler;
  access_units_ : Z;
  out : outgoing;
  last_stats_ms_ : Z;
  last_stats_aus_ : Z;
  last_stats_packets_ : Z;
  last_stats_bytes_ : Z
}.

Definition new_restreamer : VideoRestreamer := mk_restreamer None None 0 (mk_outgoing [] 0 0 0 []) 0 0 0 0.

Definition active (r : VideoRestreamer) : bool :=
  match socket_ r, packer_ r with Some _, Some _ => true | _, _ => false end.

Section Updates.
Variable r : VideoRestreamer.
Definition set_connection (p : option (encode_ctx session)) (s : option SocketHandler) : VideoRestreamer :=
  mk_restreamer p s (access_units_ r) (out r) (last_stats_ms_ r) (last_stats_aus_ r) (last_stats_packets_ r)
    (last_stats_bytes_ r).
Definition set_stats (ms aus packets bytes : Z) : VideoRestreamer :=
  mk_restreamer (packer_ r) (socket_ r) (access_units_ r) (out r) ms aus packets bytes.
End Updates.

Section Restreamer.
Context `{Alloc} `{Build} (sendto : nat -> list Z -> Z).

(** *** The callbacks *)
(** The packet's buffer is the vector [pkt_] itself. *)
Definition cb_alloc (st : session) (bytes : Z) : option (list Z) * session :=
  let '(sk, o) := st in
  let n := Z.to_nat bytes in
  let pkt := take n (pkt_ o) ++ replicate (n - length (pkt_ o)) 0 in
  (Some pkt, (sk, mk_outgoing pkt (packets_sent_ o) (packets_dropped_ o) (bytes_sent_ o) (net o))).

Definition cb_free (st : session) : session := st.

Definition send (sk : SocketHandler) (data : list Z) (net : list (list Z)) : Z * list (list Z) :=
  if can_send sk then (sendto (length net) data, net ++ [data]) else (-1, net).

Definition send_packet (st : session) (packet : list Z) : session :=
  let '(sk, o) := st in
  let bytes := zlen packet in
  let pkt := packet ++ drop (length packet) (pkt_ o) in
  let '(n, net) := send sk packet (net o) in
  (sk, if n =? bytes then
         mk_outgoing pkt (u64 (packets_sent_ o + 1)) (packets_dropped_ o) (u64 (bytes_sent_ o + bytes)) net
       else mk_outgoing pkt (packets_sent_ o) (u64 (packets_dropped_ o + 1)) (bytes_sent_ o) net).

Definition cb_packet (st : session) (packet : list Z) (timestamp flags : Z) : Z * session :=
  (0, send_packet st packet).

Definition handler : rtp_payload_t session := mk_payload cb_alloc cb_free cb_packet.

(** *** Opening *)
(** [socket_.reset()]. *)
Definition reset_socket (s : option SocketHandler) : io unit :=
  match s with Some s => delete_handler s | None => Done tt end.

Definition start_packer (now pid : Z) (r : VideoRestreamer) : io (bool * VideoRestreamer) :=
  let ssrc := u32 (Z.lxor (u64 (now * 2 ^ 16)) (u64 pid)) in
  let seq := Z.land ssrc 65535 in
  let! p <- lift (rtp_payload_encode_create s_max_packet_size RTP_PAYLOAD_DYNAMIC (Some "H265"%string) seq ssrc) ;;
  match p with
  | None => let! _ <- reset_socket (socket_ r) ;; Done (false, set_connection r None None)
  | Some p => Done (true, set_connection r (Some p) (socket_ r))
  end.

(** A handler that could not be connected is deleted. *)
Definition open_with (sock : SocketHandler) (now pid : Z) (r : VideoRestreamer) : io (bool * VideoRestreamer) :=
  let!* (ok, sock) <- init_connection sock ;;
  if negb ok then let! _ <- delete_handler sock ;; Done (false, r)
  else
    let! _ <- reset_socket (socket_ r) ;;
    start_packer now pid (set_connection r (packer_ r) (Some sock)).

Definition open_udp (junk : Z) (address : list Z) (port now pid : Z) : VideoRestreamer -> io (bool * VideoRestreamer) :=
  open_with (inet_handler junk address port Send) now pid.

Definition open_unix (junk : Z) (path : list Z) (now pid : Z) (r : VideoRestreamer) : io (bool * VideoRestreamer) :=
  match path with
  | [] => Done (false, r)
  | _ => open_with (unix_handler junk path Send Path) now pid r
  end.

(** *** Running *)
Definition on_access_unit (data : list Z) (len pts_ms : Z) (r : VideoRestreamer) : outcome VideoRestreamer :=
  match socket_ r, packer_ r with
  | Some sk, Some p =>
      if len <=? 0 then Ret r
      else
        do ts <- c_int64 (pts_ms * MS_TO_90K) ;;
        do* (_, (p, (sk, o))) <- rtp_payload_encode_input handler p (sk, out r) data len (u32 ts) ;;
        Ret (mk_restreamer (Some p) (Some sk) (u64 (access_units_ r + 1)) o (last_stats_ms_ r) (last_stats_aus_ r)
               (last_stats_packets_ r) (last_stats_bytes_ r))
  | _, _ => Ret r
  end.

Definition on_tick (now : Z) (r : VideoRestreamer) : outcome VideoRestreamer :=
  if negb (active r) then Ret r
  else if last_stats_ms_ r =? 0 then
    Ret (set_stats r now (last_stats_aus_ r) (last_stats_packets_ r) (last_stats_bytes_ r))
  else
    do elapsed <- c_int64 (now - last_stats_ms_ r) ;;
    if elapsed <? STATS_INTERVAL_MS then Ret r
    else Ret (set_stats r now (access_units_ r) (packets_sent_ (out r)) (bytes_sent_ (out r))).

(** What main opens: a socket of the file system if its path is given, else a UDP address
    (src/main.cpp). *)
Definition restream_open (junk : Z) (socket_path address : list Z) (port now pid : Z) (r : VideoRestreamer)
  : io (bool * VideoRestreamer) :=
  match socket_path with
  | [] => open_udp junk address port now pid r
  | _ => open_unix junk socket_path now pid r
  end.

(** The destructor: the packer is freed, then the socket goes. *)
Definition delete_restreamer (r : VideoRestreamer) : io unit := reset_socket (socket_ r).
End Restreamer.
