(* ===== verification/RestreamProps.v ===== *)
(** * What is restreamed arrives

    Whatever the system answers while the restreamer is opened, once it is open every
    picture the encoder produces leaves the socket as the datagrams of the packer, and the
    program's own receiver shows it at the other end. *)

From Stdlib Require Import String.
From stdpp Require Import gmap.
From S2P Require Import Prelude RtpUtil RtpPacket RtpQueue AnnexB AnnexBProps Payload PayloadSpec H265 H265Props Registry RegistryProps CDouble RtpMember Rtcp Feedback RtcpProps RtcpReport Demuxer DemuxerProps EndToEnd Receiver ReceiverProps Free TsWriter Restreamer.
From stdpp Require Import list.
Open Scope Z_scope.

(** ** The datagrams of a list of pictures *)
Fixpoint pictures_packets (sz : Z) (hd : rtp_header_t) (ps : list picture) : list delivery :=
  match ps with
  | [] => []
  | p :: ps =>
      let units := PackSpec.au_payloads sz (nals_of p) in
      let hd := with_timestamp hd (pc_ts p) in
      emit hd units ++ pictures_packets sz (advance hd (zlen units)) ps
  end.

Lemma pictures_packets_stream sz hd1 hd2 ps :
  stream hd1 = stream hd2 -> pictures_packets sz hd1 ps = pictures_packets sz hd2 ps.
Proof.
  revert hd1 hd2. induction ps as [|p ps IH]; intros hd1 hd2 Hs; [done|]. cbn [pictures_packets]. cbv zeta.
  assert (Ht : stream (with_timestamp hd1 (pc_ts p)) = stream (with_timestamp hd2 (pc_ts p))).
  { destruct hd1, hd2. by injection Hs as -> -> -> -> -> -> -> ->. }
  f_equal.
  - by rewrite <- emit_stream, Ht, emit_stream.
  - apply IH. destruct (with_timestamp hd1 _), (with_timestamp hd2 _). by injection Ht as -> -> -> -> -> -> -> ->.
Qed.

Section Pictures.
Context `{Build}.

(** One picture, for any client that accepts everything. *)
Lemma picture_packets {S} (h : rtp_payload_t S) g pk p ps s :
  accepts h g -> packer_ok pk -> 564 <= psize pk -> picture_ok p ->
  exists pk', H265.Pack.rtp_h265_pack_input h pk s (picture_bytes p) (zlen (picture_bytes p)) (pc_ts p)
    = Ret (0, (pk', fold_left g (emit (with_timestamp (rtp (ppkt pk)) (pc_ts p)) (PackSpec.au_payloads (psize pk) (nals_of p))) s)) /\
    packer_ok pk' /\ psize pk' = psize pk /\
    pictures_packets (psize pk) (rtp (ppkt pk)) (p :: ps)
    = emit (with_timestamp (rtp (ppkt pk)) (pc_ts p)) (PackSpec.au_payloads (psize pk) (nals_of p))
      ++ pictures_packets (psize pk') (rtp (ppkt pk')) ps.
Proof.
  intros Hh Hp Hsz [Hl Hf Hr Hfit Hts].
  destruct (pack_input_accepted h g pk (pc_lead p) (pc_first p) (pc_rest p) (pc_tail p) (pc_ts p) s Hh Hp)
    as (pk' & E & [Hok Hsize Hst]); try done.
  exists pk'. split_and!; [exact E|done|by rewrite Hsize|]. cbn [pictures_packets]. cbv zeta. f_equal.
  rewrite Hsize. by apply pictures_packets_stream.
Qed.

Lemma send_packets ps pk log :
  packer_ok pk -> 564 <= psize pk -> Forall picture_ok ps ->
  exists pk', EndToEnd.send ps pk log = Ret (0, (pk', log ++ pictures_packets (psize pk) (rtp (ppkt pk)) ps)).
Proof.
  intros Hp Hsz Hps. revert pk log Hp Hsz. induction Hps as [|p ps Hpic _ IH]; intros pk log Hp Hsz.
  { exists pk. cbn. by rewrite app_nil_r. }
  destruct (picture_packets log_handler snoc pk p ps log log_accepts Hp Hsz Hpic) as (pk1 & E & Hp1 & Hs1 & ->).
  cbn [EndToEnd.send]. rewrite E. cbn [obind Z.eqb]. rewrite fold_snoc.
  destruct (IH pk1 (log ++ emit (with_timestamp (rtp (ppkt pk)) (pc_ts p)) (PackSpec.au_payloads (psize pk) (nals_of p))) Hp1)
    as (pk2 & E2); [by rewrite Hs1|]. exists pk2. by rewrite E2, app_assoc.
Qed.
End Pictures.

(** ** The callbacks *)
Section Sending.
Context `{Build} (sendto : nat -> list Z -> Z).

(** What a datagram does to the session. *)
Definition sends (st : session) (d : delivery) : session := let '(data, _, _) := d in send_packet sendto (snd (cb_alloc st (zlen data))) data.

Lemma zlen_resized (l : list Z) n : 0 <= n -> zlen (take (Z.to_nat n) l ++ replicate (Z.to_nat n - length l) 0) = n.
Proof. intros Hn. unfold zlen. rewrite length_app, length_take, length_replicate. lia. Qed.

Lemma handler_accepts : accepts (handler sendto) sends.
Proof.
  intros [sk o] n Hn. eexists _, _. split; [done|]. split; [by rewrite zlen_resized|].
  intros data ts fl Hd. eexists. split; [done|]. unfold sends. by rewrite <- Hd.
Qed.

(** Every datagram is counted once, as sent or as dropped. *)
Lemma sends_counted ds sk o :
  can_send sk = true -> exists o', fold_left sends ds (sk, o) = (sk, o') /\
    net o' = net o ++ map (fun d => fst (fst d)) ds /\
    u64 (packets_sent_ o' + packets_dropped_ o') = u64 (packets_sent_ o + packets_dropped_ o + zlen ds).
Proof.
  intros Hc. revert o. induction ds as [|[[data ts] fl] ds IH]; intros o.
  { exists o. split; [done|]. split; [cbn; by rewrite app_nil_r|]. by rewrite zlen_nil, Z.add_0_r. }
  cbn [fold_left]. unfold sends at 2. cbn [fst snd cb_alloc send_packet]. unfold send. rewrite Hc. cbn [net].
  destruct (_ =? _); (match goal with |- context [fold_left sends ds (sk, ?o1)] => destruct (IH o1) as (o' & -> & Hn & Hs) end);
    exists o'; (split; [done|]); (split; [rewrite Hn; cbn; by rewrite <- app_assoc|]); rewrite Hs, zlen_cons;
    cbn [packets_sent_ packets_dropped_]; unfold u64; lia.
Qed.

Lemma sends_all ds sk o :
  can_send sk = true -> (forall k d, sendto k d = zlen d) -> exists o', fold_left sends ds (sk, o) = (sk, o') /\
    net o' = net o ++ map (fun d => fst (fst d)) ds /\ packets_dropped_ o' = packets_dropped_ o.
Proof.
  intros Hc Ha. revert o. induction ds as [|[[data ts] fl] ds IH]; intros o.
  { exists o. split; [done|]. split; [cbn; by rewrite app_nil_r|done]. }
  cbn [fold_left]. unfold sends at 2. cbn [fst snd cb_alloc send_packet]. unfold send. rewrite Hc, Ha, Z.eqb_refl. cbn [net].
  match goal with |- context [fold_left sends ds (sk, ?o1)] => destruct (IH o1) as (o' & -> & Hn & Hs) end.
  exists o'. split; [done|]. split; [rewrite Hn; cbn; by rewrite <- app_assoc|done].
Qed.
End Sending.

(** ** Opening *)
Section Opened.
Context `{Alloc} `{Build}.
Hypothesis Halloc : forall n, alloc_ok n = true.

(** Open, and nothing sent yet. *)
Definition opened (r : VideoRestreamer) : Prop := exists sk sq src,
  socket_ r = Some sk /\ can_send sk = true /\ is_u16 sq /\ is_u32 src /\ out r = out new_restreamer /\ access_units_ r = 0 /\
  packer_ r = Some (mk_encode_ctx rtp_h265_encode (pack_create s_max_packet_size RTP_PAYLOAD_DYNAMIC sq src)).

Definition anything : forall X, scall X -> Prop := fun _ _ => True.

Lemma start_packer_opens now pid r sk :
  socket_ r = Some sk -> can_send sk = true -> out r = out new_restreamer -> access_units_ r = 0 ->
  does anything (start_packer now pid r) (fun '(ok, r') => ok = true -> opened r').
Proof.
  intros Hs Hc Ho Ha. unfold start_packer. unfold rtp_payload_encode_create, rtp_payload_find, c_assert.
  rewrite Halloc. change ((0 <=? RTP_PAYLOAD_DYNAMIC) && (RTP_PAYLOAD_DYNAMIC <=? 127)) with true.
  change (RTP_PAYLOAD_DYNAMIC <=? RTP_PAYLOAD_DYNAMIC) with true. cbn [negb orb obind].
  change (by_name "H265" named_codecs) with (Some (mk_delegate F_H265 F_H265)).
  cbn [encoder encoder_of enc_create rtp_h265_encode packer_encode]. unfold packer_create, allocated. rewrite Halloc.
  cbn [obind lift io_bind option_map does]. intros _. eexists sk, _, _. split_and!; [done|done| | |done|done|reflexivity].
  - unfold is_u16. change 65535 with (2 ^ 16 - 1). rewrite land_ones_mod by lia. lia.
  - unfold is_u32, u32. lia.
Qed.

Lemma use_address_dir addr len s :
  does anything (use_address addr len s) (fun '(_, s') => m_direction s' = m_direction s).
Proof.
  unfold use_address. destruct (m_direction s) eqn:Ed; cbn [does].
  - split; [done|]. intros r. destruct (r <? 0); cbn [does]; [|done]. by split.
  - apply does_bind, does_lift. intros s' Hs. cbn [does]. unfold remember in Hs.
    destruct (rdn addr 0 len); [|done]. cbn [obind] in Hs. destruct (wrn _ _ _); [|done]. by injection Hs as <-.
Qed.

Lemma init_connection_sends s :
  m_direction s = Send -> does anything (init_connection s) (fun '(ok, s') => ok = true -> can_send s' = true).
Proof.
  intros Hd. unfold init_connection, can_send. destruct (socket_connected s) eqn:Ec; [cbn; by rewrite Hd|].
  apply does_bind. apply (does_mono _ _ (fun '(_, s') => m_direction s' = Send)).
  - destruct (m_unix_socket s) eqn:En.
    + unfold init_internet_socket. cbn [does]. split; [done|]. intros fd. destruct (fd <? 0); [done|].
      cbn [does]. split; [done|]. intros [ip|]; cbn [does].
      * eapply does_mono; [apply use_address_dir|]. intros [ok s'] ->. done.
      * by split.
    + unfold init_local_socket. cbn [does]. split; [done|]. intros fd. destruct (fd <? 0); [done|].
      change (m_unix_socket (with_fd s fd)) with (m_unix_socket s). destruct (m_unix_namespace _).
      * eapply does_mono; [apply use_address_dir|]. intros [ok s'] ->. done.
      * destruct (_ <=? _); [by split|]. eapply does_mono; [apply use_address_dir|]. intros [ok s'] ->. done.
  - intros [ok s'] Hs. cbn [does]. intros ->. cbn. by rewrite Hs.
Qed.

Lemma open_with_opens sock now pid :
  m_direction sock = Send ->
  does anything (open_with sock now pid new_restreamer) (fun '(ok, r) => ok = true -> opened r).
Proof.
  intros Hd. unfold open_with. apply does_bind. eapply does_mono; [by apply init_connection_sends|].
  intros [ok sk] Hok. destruct ok; cbn [negb].
  - cbn [reset_socket new_restreamer socket_ io_bind]. eapply start_packer_opens; [done|by apply Hok|done|done].
  - apply does_bind. by split.
Qed.

Lemma restream_open_opens junk path address port now pid :
  does anything (restream_open junk path address port now pid new_restreamer) (fun '(ok, r) => ok = true -> opened r).
Proof. destruct path; by apply open_with_opens. Qed.
End Opened.

(** ** From the encoder to a receiver *)
Section Restream.
Context `{Alloc} `{Build} (sendto : nat -> list Z -> Z).

(** The access units of the encoder, one after the other. *)
Fixpoint on_access_units (aus : list (list Z * Z)) (r : VideoRestreamer) : outcome VideoRestreamer :=
  match aus with
  | [] => Ret r
  | (data, pts_ms) :: aus => do r <- on_access_unit sendto data (zlen data) pts_ms r ;; on_access_units aus r
  end.

(** A picture with its time in milliseconds, whose RTP timestamp is the picture's. *)
Definition timed (shot : picture * Z) : Prop :=
  - 2 ^ 63 <= snd shot * MS_TO_90K < 2 ^ 63 /\ pc_ts (fst shot) = u32 (snd shot * MS_TO_90K).
Definition units_of (shots : list (picture * Z)) : list (list Z * Z) :=
  map (fun '(p, t) => (picture_bytes p, t)) shots.

Lemma on_access_units_sends shots r sk pk :
  socket_ r = Some sk -> packer_ r = Some (mk_encode_ctx rtp_h265_encode pk) ->
  packer_ok pk -> 564 <= psize pk -> can_send sk = true ->
  Forall (fun shot => picture_ok (fst shot)) shots -> Forall timed shots ->
  exists r', on_access_units (units_of shots) r = Ret r' /\
    (sk, out r') = fold_left (sends sendto) (pictures_packets (psize pk) (rtp (ppkt pk)) (map fst shots)) (sk, out r).
Proof.
  intros Hs Hpk Hp Hsz Hc Hps. revert r pk Hs Hpk Hp Hsz. induction Hps as [|[p t] shots Hpic _ IH]; intros r pk Hs Hpk Hp Hsz Ht.
  { by exists r. }
  apply Forall_cons_1 in Ht as [[Hr Hts] Ht]. cbn [fst snd] in Hpic, Hr, Hts.
  destruct (picture_packets (handler sendto) (sends sendto) pk p (map fst shots) (sk, out r) (handler_accepts sendto) Hp Hsz Hpic)
    as (pk1 & E & Hp1 & Hs1 & Epk).
  cbn [map fst]. rewrite Epk, fold_left_app.
  cbn [units_of map on_access_units]. unfold on_access_unit. rewrite Hs, Hpk.
  assert (Hl : 0 < zlen (picture_bytes p)).
  { destruct Hpic as [_ [_ Hu] _ _ _]. unfold picture_bytes, access_unit. unfold coded. cbn [flat_map].
    unfold zlen. rewrite !length_app. cbn [length]. lia. }
  zif. unfold c_int64. rewrite (proj2 (andb_true_iff _ _)) by lia. cbn [obind]. rewrite <- Hts.
  unfold rtp_payload_encode_input. cbn [e_table e_packer enc_input rtp_h265_encode packer_encode]. rewrite E. cbn [obind].
  destruct (sends_counted sendto (emit (with_timestamp (rtp (ppkt pk)) (pc_ts p)) (PackSpec.au_payloads (psize pk) (nals_of p))) sk (out r) Hc)
    as (o1 & -> & _). cbn [obind].
  match goal with |- context [on_access_units _ ?r1] => destruct (IH r1 pk1) as (r' & E' & Ho) end; try done; [by rewrite Hs1|].
  exists r'. split; [exact E'|]. by rewrite Ho, Hs1.
Qed.
End Restream.

(** C5. From the encoder to another viewer: whatever the system answers while the
    restreamer is opened, if it says that it is open, then the access units the encoder
    makes of the pictures -- the socket taking every datagram -- go out as datagrams that
    make the program's receiver call its callback once for every NAL unit of every
    picture, behind a start code, in order and unchanged, with nothing else and nothing
    dropped; and the receiver takes none of them for H.264. *)
Theorem restream_shown `{RtcpFeedback} `{Alloc} `{Build} `{Fpu} {S : Type} (m_cb : S -> option (list Z) -> Z -> bool -> S)
    sendto junk path address port clk pid shots now rnd turns stop rest buffer rc (s0 : S) :
  (forall n, alloc_ok n = true) -> (forall k d, sendto k d = zlen d) ->
  Forall (fun shot => picture_ok (fst shot) /\ Forall base_layer (nals_of (fst shot))) shots -> Forall timed shots ->
  m_video_codec rc = H265 -> Forall goes_on turns -> t_running stop = false ->
  does anything (restream_open junk path address port clk pid new_restreamer) (fun '(ok, r) => ok = true ->
    exists r', on_access_units sendto (units_of shots) r = Ret r' /\ packets_dropped_ (out r') = 0 /\
      (carried turns = net (out r') ->
       post (rtp_receiver_thread m_cb now rnd (turns ++ stop :: rest) buffer rc s0) (fun st =>
         exists rc' σ, st = Exited rc' (fold_left (shown m_cb) (pictures_out (map fst shots)) s0) (Some (σ, ∅)) /\
                       m_video_codec rc' = H265))).
Proof.
  intros Hal Hsend Hps Ht Hrc Hgo Hstop. eapply does_mono; [by apply restream_open_opens|].
  intros [ok r] Hop Hok. destruct (Hop Hok) as (sk & sq & src & Hs & Hc & Hsq & Hsrc & Ho & _ & Hpk).
  set (pk := pack_create s_max_packet_size RTP_PAYLOAD_DYNAMIC sq src) in *.
  assert (Hp : packer_ok pk) by (by apply pack_create_ok).
  assert (Hpics : Forall picture_ok (map fst shots)) by (apply Forall_map; eapply Forall_impl; [exact Hps|]; by intros ? [? _]).
  assert (Hbase : Forall (fun p => Forall base_layer (nals_of p)) (map fst shots))
    by (apply Forall_map; eapply Forall_impl; [exact Hps|]; by intros ? [_ ?]).
  destruct (on_access_units_sends sendto shots r sk pk Hs Hpk Hp) as (r' & Er & Hr); [done|done| |done|].
  { eapply Forall_impl; [exact Hps|]. by intros ? [? _]. }
  destruct (sends_all sendto (pictures_packets (psize pk) (rtp (ppkt pk)) (map fst shots)) sk (out r) Hc Hsend)
    as (o' & Eo & Hnet & Hd). rewrite Eo in Hr. injection Hr as Hr. exists r'. split; [exact Er|]. rewrite Hr, Hd, Ho. split; [done|].
  intros Hcar. destruct (receive_pictures Hal m_cb now rnd turns stop rest buffer pk (map fst shots) rc s0)
    as (pk' & packets & Esend & Hshow); try done.
  destruct (send_packets (map fst shots) pk [] Hp) as (pk2 & E2); [done|done|]. rewrite Esend in E2. injection E2 as _ ->.
  apply Hshow. by rewrite Hcar, Hnet, Ho.
Qed.

(** ** Running it *)
Definition reply {X} (c : scall X) : X :=
  match c in scall X return X with
  | sys_socket _ => 3 | inet_pton _ => Some [127; 0; 0; 1] | sys_bind _ _ _ => 0 | sys_close _ => tt
  end.

Fixpoint answered {A} (p : io A) : outcome A :=
  match p with Done a => Ret a | Die c => Crash c | Call c k => answered (k (reply c)) end.

Lemma does_answered {A} (p : io A) (Q : A -> Prop) a : does anything p Q -> answered p = Ret a -> Q a.
Proof.
  induction p as [b|c|X c k IH]; cbn [does answered]; [by intros ? [= <-]|done|]. intros [_ Hk]. by apply IH.
Qed.

Definition opening : outcome (bool * VideoRestreamer) :=
  answered (@restream_open always_alloc release_build 0 [] [49; 50; 55; 46; 48; 46; 48; 46; 49] 5600 1700000000 42 new_restreamer).
Definition restreamer : VideoRestreamer := match opening with Ret (_, r) => r | Crash _ => new_restreamer end.
Lemma opening_opens : opening = Ret (true, restreamer).
Proof. reflexivity. Qed.

Definition at_ms (t : Z) (p : picture) : picture :=
  mk_picture (pc_lead p) (pc_first p) (pc_rest p) (pc_tail p) (u32 (t * MS_TO_90K)).
Lemma at_ms_ok t p : picture_ok p -> picture_ok (at_ms t p).
Proof. intros []. constructor; try done. cbn [at_ms pc_ts]. unfold is_u32, u32. lia. Qed.

Definition sample_shots : list (picture * Z) :=
  map (fun '(p, t) => (at_ms t p, t)) (combine sample_pictures [33; 66]).

Lemma sample_shots_ok :
  Forall (fun shot => picture_ok (fst shot) /\ Forall base_layer (nals_of (fst shot))) sample_shots /\ Forall timed sample_shots.
Proof.
  pose proof sample_pictures_ok as Hp. pose proof sample_base_layer as Hb. unfold sample_shots, sample_pictures in *.
  apply Forall_cons_1 in Hp as [Hp1 Hp]. apply Forall_cons_1 in Hp as [Hp2 _].
  apply Forall_cons_1 in Hb as [Hb1 Hb]. apply Forall_cons_1 in Hb as [Hb2 _]. cbn [combine map].
  split.
  - constructor; [split; [by apply at_ms_ok|done]|]. constructor; [split; [by apply at_ms_ok|done]|constructor].
  - constructor; [|constructor; [|constructor]]; (split; [split; by vm_compute|done]).
Qed.

(** The socket takes every datagram, and they come to a receiver among time-outs. *)
Definition takes_all (k : nat) (d : list Z) : Z := zlen d.
Definition net_of (m : outcome VideoRestreamer) : list (list Z) :=
  match m with Ret r => net (out r) | Crash _ => [] end.
Definition restreamed : list (list Z) := net_of (on_access_units takes_all (units_of sample_shots) restreamer).

Lemma restream_shown_witness :
  exists r', on_access_units takes_all (units_of sample_shots) restreamer = Ret r' /\
    packets_dropped_ (out r') = 0 /\
    @post release_build _
      (@rtp_receiver_thread formats always_alloc release_build saturating _ said (0, 0, 0) 7 (among restreamed ++ [stops])
         clean_buffer (receiving Receiver.H265) []) (fun st =>
      exists rc' σ, st = Exited rc' (fold_left (shown said) (pictures_out (map fst sample_shots)) []) (Some (σ, ∅)) /\
                    m_video_codec rc' = Receiver.H265).
Proof.
  pose proof (@restream_shown formats always_alloc release_build saturating _ said takes_all 0 []
    [49; 50; 55; 46; 48; 46; 48; 46; 49] 5600 1700000000 42 sample_shots (0, 0, 0) 7 (among restreamed) stops [] clean_buffer
    (receiving Receiver.H265) [] (fun _ => eq_refl) (fun _ _ => eq_refl) (proj1 sample_shots_ok) (proj2 sample_shots_ok) eq_refl
    (among_go_on _) eq_refl) as W.
  destruct (does_answered _ _ _ W opening_opens eq_refl) as (r' & Er & Hd & Hshow).
  exists r'. split; [exact Er|]. split; [exact Hd|]. apply Hshow. rewrite among_carry. unfold restreamed. by rewrite Er.
Defined.

(** ** Where the socket goes wrong *)

(** A sender whose abstract name does not fit [sun_path] copies past the end of the
    address: the length is that of the whole name, not of what [strncpy] took. *)
Lemma abstract_name_overruns junk name fd :
  SUN_PATH <= zlen name < 2 ^ 32 - 3 -> 0 <= fd ->
  exists k, init_local_socket (unix_handler junk name Send Restreamer.Abstract) = Call (sys_socket AF_UNIX) k /\ k fd = Die OutOfBounds.
Proof.
  unfold SUN_PATH. intros Hl Hfd. eexists. split; [reflexivity|]. cbv beta. zif. cbn [m_unix_socket m_unix_namespace with_fd unix_handler].
  unfold use_address. cbn [m_direction with_fd unix_handler]. unfold remember, rdn.
  assert (Hz : zlen ([AF_UNIX; 0] ++ [0] ++ strncpy name (Z.to_nat (108 - 2)) ++ [0]) = 110).
  { unfold strncpy. unfold zlen in *. rewrite !length_app, length_take, length_replicate. cbn [length]. lia. }
  unfold SUN_PATH. rewrite Hz. unfold u32. rewrite Z.mod_small by lia.
  replace (_ && _) with false by lia. done.
Qed.

(** A handler whose set-up failed after [socket] closes the descriptor, and so does its
    destructor: the second [close] may hit a descriptor another thread has been given. *)
Lemma refused_address_closes_twice `{Alloc} `{Build} junk address port now pid r fd :
  0 <= fd -> exists k k', open_udp junk address port now pid r = Call (sys_socket AF_INET) k /\
    k fd = Call (inet_pton address) k' /\
    k' None = (run! sys_close fd ;; run! sys_close fd ;; Done (false, r)).
Proof.
  intros Hfd. unfold open_udp, open_with, init_connection. cbn [socket_connected inet_handler m_unix_socket io_bind].
  unfold init_internet_socket. cbn [io_bind]. eexists _, _. split; [reflexivity|]. cbv beta. zif. cbn [io_bind].
  split; [reflexivity|]. reflexivity.
Qed.
